(* ===== verification/_CoqProject ===== *)
-Q . S2P
Prelude.v
GoErr.v
Process.v
Wire.v
Pb.v
Strconv.v
TimeFormat.v
Encoding.v
NetIP.v
Route.v
Version.v
Crypto.v
Fingerprint.v
Enigma.v
Serde.v
Conn.v
Transport.v
Exchange.v
Handshake.v
Bolt.v
Engine.v
Rotate.v
Storage.v
Sessions.v
Session.v
SessionSafety.v
Relay.v
RelayToken.v
RelayHub.v
RelayClient.v
RelayConn.v
BrokerCodec.v
Broker.v
RateLimit.v
Listen.v
MultiListener.v
DaemonNet.v
Daemon.v
DaemonLaws.v
DaemonP2P.v
DaemonVerify.v
DaemonServer.v
DaemonReturns.v
DaemonLive.v
DaemonCommand.v
RelayProcess.v
Tui.v
TuiLaws.v
TuiRun.v
Bus.v
BusNet.v
BusChat.v
BusLaws.v
