(* ===== verification/Prelude.v ===== *)
(** * Kamune: a verification library

    Kamune is a peer-to-peer messaging protocol in Go: two parties exchange HPKE
    keys, introduce themselves with signed messages, run a hybrid ML-KEM
    handshake, and then talk over an encrypted, signed, padded and numbered
    transport.  Sessions are recorded in an encrypted database and can be resumed
    with single-use tokens.  Parties that cannot reach each other directly meet
    at a relay or through a broker.  A daemon offers all of this to a user interface
    as commands and events; a terminal application and a desktop application are
    built on the same library.  The library models these parts as executable
    definitions translated from the sources and proves what makes them correct.

    ** The parts and the files

    Foundations
    - [Prelude]: bytes, machine integers, encodings, list lemmas, tactics and the
      hint database [kam].
    - [GoErr]: error values, wrapping and [errors.Is]; [result T] is a Go pair of
      [T] and [error], and [go S A] a method that updates a state [S] and may fail.
    - [Process]: programs that read and write a connection, draw randomness, read
      the clock and use a store.  [exec] runs a program against a network that
      decides every byte, [follows] along a conversation, [sched] against another
      program in every interleaving.
    - [Wire], [Pb]: the protobuf runtime as a class and the messages of
      internal/box; [Strconv], [Encoding], [TimeFormat], [NetIP]: the parts of strconv,
      strings, hex, base64, time and net in use ([TimeFormat] also holds
      internal/clock).
    - [Crypto]: the cryptographic libraries as a class; [Bolt]: the embedded
      database as a class.

    The protocol
    - [Route] (routes.go), [Version] (version.go).
    - [Enigma]: internal/enigma, pkg/attest and pkg/exchange/{mlkem,ecdh}.go.
    - [Serde] (serde.go and the constants of kamune.go): signing, serialization
      and padding.
    - [Conn] (conn.go): frames and deadlines over a byte stream.
    - [Transport] (transport.go): [Send], [Receive], resumption tokens.
    - [Exchange] (pkg/exchange/channel.go): the HPKE channel.
    - [Handshake] (intro.go, resume.go, handshake.go): both sides of each exchange.
    - [Session] (server.go, dial.go): [Server.serve] and [Dialer.Dial], against the
      interface [SessionStore]; [SessionSafety]: the same against a hostile
      network.
    - [Listen] (server.go): [ListenAndServe] and [Close] over the class [Listener],
      with the listeners of net and of the relay as instances.
    - [Fingerprint] (pkg/fingerprint): the renderings of a key for people.

    The storage
    - [Engine], [Rotate] (internal/engine): namespaces, transactions, key wrapping,
      opening and both rotations.
    - [Storage], [Sessions] (pkg/storage): peers, sessions, token lists, identity,
      settings and chat history.

    The relay
    - [Relay] (pkg/relayconn/framing.go, pb/relay.proto): its frames and framing.
    - [RelayToken] (token.go): the three kinds of token.
    - [RelayHub] (cmd/relay/internal/services, handlers/ws_handler.go): the server
      as a step function over all its goroutines.
    - [RelayClient] (auth.go, dial.go, listener.go): the registration of clients.
    - [RelayConn] (conn.go, listener.go): the connections and the listener of a
      client, at the granularity of their locks and selects.
    - [RateLimit] (cmd/relay/internal/ratelimit): the sliding window, over the class
      [LRU] of the cache.
    - [RelayProcess] (cmd/relay/run, internal/config, internal/services, handlers): the
      configuration, the address a client is limited by, the accept loop, and the
      servers of the process from their start to the shutdown.

    The broker
    - [BrokerCodec] (pkg/relayconn/broker/codec.go): its datagrams.
    - [Broker] (client.go, cmd/relay/internal/broker): the client and the broker, a
      step function over datagrams and timeouts.

    The daemon (cmd/daemon)
    - [Daemon] (daemon.go, history.go, parts of network.go and messaging.go): the
      state, the monad [dm] of the handlers and the handlers that need no network.
    - [DaemonLaws]: the reasoning about handlers: what they leave alone, what they
      answer, what they log; [DaemonReturns]: that they return.
    - [DaemonNet] (broker.go, relay.go, p2p.go): keys, addresses and tokens as text,
      and waiting for a match; [DaemonP2P] (p2p.go): peer-to-peer tokens.
    - [DaemonVerify] (verifier.go): the verifiers, their requests and the answers.
    - [MultiListener] (multilistener.go): many listeners as one.
    - [DaemonServer] (network.go): servers, dials, the begin of sessions, relay
      tokens; [DaemonLive] (messaging.go): receive loops, reconnection, keep-alive.
    - [DaemonCommand] (daemon.go): the dispatch over all commands.

    The terminal application (cmd/tui)
    - [Tui]: the model, [Update] and [View] on every screen, and what runs beside them,
      over the class [Bubbles] of the widgets; [TuiLaws]: the invariant of the
      model; [TuiRun]: the event loop interleaved with the keep-alive loops.

    The desktop application (cmd/bus)
    - [Bus] (app.go, peers.go, loghandler.go, main.go): the state, the monad [bm] of the
      methods, storage, settings, peers, history and log.
    - [BusNet] (network.go, verifier.go, p2p.go): servers, dials, tokens, verification.
    - [BusChat] (messaging.go, relay.go): sending, the receive loop, reconnection,
      keep-alive and the registration of a relay server.
    - [BusLaws]: what survives a restart and what the window shows.

    ** How code is represented

    A function without effects is a Rocq function.  A method that mutates its
    receiver returns the new state.  Protocol code is a [prog].  Code that runs in
    several goroutines on shared state is a step function on the state, and a
    theorem about it quantifies over all sequences of steps.  A run-time panic or
    a call that blocks for ever is the value [None] of an [option].  Integers have
    their width written out ([u16], [u32], [u64]).  Time, randomness, the stream
    and the disk are inputs.  A handler of the daemon is a function of type [dm A];
    what its calls of the network return, and what other goroutines do while it
    waits for them, are arguments; the methods of the two applications (types [tm] and
    [bm]) are built in the same way.

    Code outside the repository is a class: [Crypto], [ProtoRuntime], [Bolt], [LRU] with
    [LRUNew], and [Bubbles], with the laws [CryptoOk], [ProtoRuntimeOk], [BoltOk],
    [LRUOk], [LRUNewOk] and [BubblesOk], which state documented functional behaviour
    only.  Each has an executable instance ([toy_crypto], [wire_runtime], [map_bolt]
    and [map_lru] are the first four) with which the witnesses are evaluated.
    Security assumptions are not among the laws; a theorem that needs one has it as a
    hypothesis ([Transport.accepted_is_prefix_of_sent]).

    ** What the theorems show

    - Establishment: every schedule of two honest parties ends with one session
      ([Session.cold_session_established], [Session.session_resumed]); a hostile
      network obtains a resumed session only with a stored token and the recorded
      peer's signature ([SessionSafety.resume_authorised]); the storage fulfils the
      contract the protocol relies on ([Session.storage_refines_session_record]).
    - Transport: what is accepted is a prefix of what was sent; on a reliable
      connection it is all of it, as long as [Send] accepts each message; payloads survive serialization and have one of
      six sizes; frames survive every way a stream can split them.
    - Storage: records are found again, tokens are used once, histories are
      complete and sorted, and the rotations of keys lose nothing.
    - Relay: sessions are isolated, a session that stays up forwards every message in
      order ([RelayHub.relay_forwards]), passwords are enforced, capacity is respected;
      a client that closes each connection once finds every message of a session in
      the connections that [Accept] returns ([RelayConn.listener_segments]).
    - Listening: after [Close] the accept loop returns
      ([Listen.ListenAndServe_returns]); a multi-listener keeps every connection in
      exactly one place ([MultiListener.multi_listener_keeps]).
    - Broker: registrations come from those who made them
      ([Broker.registry_provenance]), and two daemons with one token meet
      ([DaemonNet.p2p_peers_meet]); the rate limiter keeps to its quota.
    - Daemon: a command whose waits end returns and is answered once
      ([DaemonCommand.every_command_answered]); a peer is accepted only by a mode that
      does not ask or by the first answer to its own request
      ([DaemonVerify.verification_sound]); messages are kept in order; reconnection
      ends; the log is the last 200 entries; incognito sessions write nothing.
    - Relay process: which configurations are accepted, and that they bound the
      sessions ([RelayProcess.relay_configured]); the quota binds every address that connects by
      TCP or TLS ([RelayProcess.tcp_quota_enforced]); an end is orderly
      ([RelayProcess.relay_process_ends]).
    - Terminal application: no message makes it panic, before or after it waits,
      if a chat message finds a transport ([TuiRun.update_handles]); only the user accepts a peer ([TuiRun.tui_verdicts]);
      what becomes of it when a served chat is left ([TuiRun.escape_decided]).
    - Desktop application: a setting survives a restart
      ([BusLaws.settings_survive_restart]), and the conversation that is shown is the
      one that took place ([BusLaws.conversation_shown]).
    - Defects: where the code does not do what it means to, a theorem exhibits the
      behaviour (for instance [SessionSafety.cold_session_tokens_lost],
      [RelayClient.large_message_breaks_relay], [RelayHub.late_join_ends_session],
      [DaemonLive.closed_session_reconnects], [MultiListener.stop_server_deadlocks],
      [TuiRun.escape_freezes], [BusLaws.first_use_unprotected],
      [RelayProcess.ws_quota_bypassed]).

    ** Bounds and fuel

    [uvarint] recurses at most ten times, enough for 64 bits.  The write loop of
    [Conn] has one unit of fuel per byte and writes at least one byte per round.
    [Rotate.collect] recurses on the nesting of buckets with [bucket_depth] as
    fuel, which no bucket exceeds.  [Process.sched] has no fuel: that schedules
    terminate is part of the theorems.  The entropy threshold of relay tokens is
    stated exactly, as an inequality of integers.  Messages are bounded by
    [maxTransportSize], and other byte strings by [2 ^ 60], so that lengths fit
    their varints.  The handlers and loops of the daemon have no fuel: a loop is a
    step function, and that it ends is a theorem ([DaemonLive.reconnect_terminates]).

    ** Not modelled

    The daemon passes its verifiers to [kamune.NewServer] and [kamune.NewDialer]
    through options that the library in this repository does not define, so the two
    cannot be composed as they stand: the daemon's model takes the outcomes of these
    calls as arguments.  Of the daemon, the loop that registers relay listeners again
    (relayReconnectLoop), the derivation of tokens for all peers at a start, the
    timers of relay tokens, hole punching, the direct and peer-to-peer sockets, JSON,
    the keychain and signals are not modelled.  Whether the relay listeners can be
    closed while [handleStopServer] holds the mutex is an argument in [DaemonServer];
    when they can is the subject of [MultiListener].

    Of the desktop application, the window, the menus and the dialogs of the Wails
    runtime are inputs; its broker client, multi-listener and relay addresses are
    copies of those of the daemon and have no second model, and its peer-to-peer
    sockets have none; the records its methods write with slog, which the log view
    shows too, are left out of the methods.  Of the terminal application, the command line and the styles
    are not modelled.  Of the relay process, the HTTP servers, the adapters over
    sockets, TOML and the encoding of certificates are library code.  The broker
    client's [Listen], the option constructors of the server and the dialer, data
    races on one [exchange.Channel], and generated code are not modelled. *)

From Stdlib Require Export ZArith Lia String.
From Stdlib Require Export Strings.Byte.
From stdpp Require Export base list gmap strings.

#[global] Open Scope Z_scope.

(** ** Bytes and byte strings

    A Go [[]byte] and a Go [string] are both sequences of octets; they are
    modelled by the same type.  Where the code distinguishes a nil slice from
    an empty one, the model uses an [option]. *)

Abbreviation byte := Byte.byte.
Abbreviation bytes := (list Byte.byte).

#[global] Instance byte_eq_decision : EqDecision byte := Byte.byte_eq_dec.

#[global] Program Instance byte_countable : Countable byte :=
  inj_countable Byte.to_N Byte.of_N Byte.of_to_N.

Definition bval (b : byte) : Z := Z.of_N (Byte.to_N b).

(** The conversion [byte(z)]: the low eight bits of [z]. *)
Definition bof (z : Z) : byte :=
  match Byte.of_N (Z.to_N (z mod 256)) with Some b => b | None => Byte.x00 end.

(** [len(b)] as a Go [int]. *)
Definition blen (b : bytes) : Z := Z.of_nat (length b).

(** A string literal of the source as its octets. *)
Definition str (s : String.string) : bytes := String.list_byte_of_string s.

(** Unsigned machine widths: conversion truncates. *)
Definition u16 (z : Z) : Z := z mod 2 ^ 16.
Definition u32 (z : Z) : Z := z mod 2 ^ 32.
Definition u64 (z : Z) : Z := z mod 2 ^ 64.

(** [int64(uint64)] reinterpretation of two's complement. *)
Definition i64 (z : Z) : Z := (z + 2 ^ 63) mod 2 ^ 64 - 2 ^ 63.

Definition MaxUint16 : Z := 65535.

Lemma bval_range (b : byte) : 0 <= bval b < 256.
Proof.
  unfold bval. pose proof (Byte.to_N_bounded b). lia.
Qed.

Lemma bval_bof z : bval (bof z) = z mod 256.
Proof.
  unfold bval, bof.
  assert (Hz : 0 <= z mod 256 < 256) by (apply Z.mod_pos_bound; lia).
  destruct (Byte.of_N (Z.to_N (z mod 256))) eqn:E.
  - apply Byte.to_of_N in E. rewrite E. lia.
  - apply Byte.of_N_None_iff in E. lia.
Qed.

Lemma bval_inj a b : bval a = bval b -> a = b.
Proof.
  unfold bval. intros H. apply N2Z.inj in H.
  pose proof (Byte.of_to_N a) as Ha. rewrite H, Byte.of_to_N in Ha. congruence.
Qed.

Lemma bof_bval b : bof (bval b) = b.
Proof.
  apply bval_inj. rewrite bval_bof. apply Z.mod_small, bval_range.
Qed.

Lemma bof_inj a b : 0 <= a < 256 -> 0 <= b < 256 -> bof a = bof b -> a = b.
Proof.
  intros Ha Hb H. apply (f_equal bval) in H. rewrite !bval_bof in H.
  rewrite !Z.mod_small in H by lia. done.
Qed.

Lemma blen_nonneg b : 0 <= blen b.
Proof. unfold blen. lia. Qed.

Lemma blen_app a b : blen (a ++ b) = blen a + blen b.
Proof. unfold blen. rewrite length_app. lia. Qed.

Lemma blen_nil : blen [] = 0.
Proof. done. Qed.

Lemma blen_cons x b : blen (x :: b) = 1 + blen b.
Proof. unfold blen. simpl length. lia. Qed.

Lemma blen_zero_nil b : blen b = 0 -> b = [].
Proof. destruct b; [done|]. rewrite blen_cons. pose proof (blen_nonneg b0). lia. Qed.

Lemma blen_replicate n (x : byte) : blen (replicate n x) = Z.of_nat n.
Proof. unfold blen. by rewrite length_replicate. Qed.

(** ** Slices: [b[lo:hi]], defined inside the bounds of [b] *)

Definition btake (n : Z) (b : bytes) : bytes := take (Z.to_nat n) b.
Definition bdrop (n : Z) (b : bytes) : bytes := drop (Z.to_nat n) b.
Definition bslice (lo hi : Z) (b : bytes) : bytes := btake (hi - lo) (bdrop lo b).

Lemma btake_bdrop n b : btake n b ++ bdrop n b = b.
Proof. apply take_drop. Qed.

Lemma blen_btake n b : 0 <= n <= blen b -> blen (btake n b) = n.
Proof. unfold blen, btake. intros. rewrite length_take. lia. Qed.

Lemma blen_bdrop n b : 0 <= n <= blen b -> blen (bdrop n b) = blen b - n.
Proof. unfold blen, bdrop. intros. rewrite length_drop. lia. Qed.

Lemma btake_app_exact n a b : n = blen a -> btake n (a ++ b) = a.
Proof.
  intros ->. unfold btake, blen. rewrite Nat2Z.id. apply take_app_length.
Qed.

Lemma bdrop_app_exact n a b : n = blen a -> bdrop n (a ++ b) = b.
Proof.
  intros ->. unfold bdrop, blen. rewrite Nat2Z.id. apply drop_app_length.
Qed.

Lemma app_inj_blen (a b c d : bytes) :
  blen a = blen b -> a ++ c = b ++ d -> a = b /\ c = d.
Proof. unfold blen. intros Hl H. apply app_inj_1 in H; [done|lia]. Qed.

(** ** Big-endian integers: [binary.BigEndian.PutUintN] and [UintN] *)

Fixpoint be_put (n : nat) (z : Z) : bytes :=
  match n with
  | O => []
  | S n' => bof (z / 256 ^ Z.of_nat n') :: be_put n' z
  end.

Definition be_get (b : bytes) : Z :=
  fold_left (fun acc x => acc * 256 + bval x) b 0.

Lemma length_be_put n z : length (be_put n z) = n.
Proof. induction n; simpl; congruence. Qed.

Lemma blen_be_put n z : blen (be_put n z) = Z.of_nat n.
Proof. unfold blen. by rewrite length_be_put. Qed.

Lemma be_get_acc b acc :
  fold_left (fun acc x => acc * 256 + bval x) b acc
  = acc * 256 ^ blen b + be_get b.
Proof.
  unfold be_get. revert acc. induction b as [|x b IH]; intros acc; simpl.
  - rewrite blen_nil. lia.
  - rewrite (IH (acc * 256 + bval x)), (IH (0 * 256 + bval x)), blen_cons.
    rewrite Z.pow_add_r by (pose proof (blen_nonneg b); lia). lia.
Qed.

Lemma be_get_cons x b : be_get (x :: b) = bval x * 256 ^ blen b + be_get b.
Proof. unfold be_get at 1. simpl. by rewrite be_get_acc. Qed.

Lemma be_get_range b : 0 <= be_get b < 256 ^ blen b.
Proof.
  induction b as [|x b IH]; [unfold be_get, blen; simpl; lia|].
  rewrite be_get_cons, blen_cons. pose proof (bval_range x).
  rewrite Z.pow_add_r by (pose proof (blen_nonneg b); lia). nia.
Qed.

Lemma be_get_put n z : be_get (be_put n z) = z mod 256 ^ Z.of_nat n.
Proof.
  induction n as [|n IH]; [simpl; by rewrite Z.mod_1_r|].
  simpl be_put. rewrite be_get_cons, bval_bof, IH, blen_be_put.
  rewrite Nat2Z.inj_succ, Z.pow_succ_r by lia.
  set (m := 256 ^ Z.of_nat n). assert (0 < m) by (apply Z.pow_pos_nonneg; lia).
  rewrite (Z.mul_comm 256 m), Z.rem_mul_r by lia. lia.
Qed.

Lemma be_get_put_small n z :
  0 <= z < 256 ^ Z.of_nat n -> be_get (be_put n z) = z.
Proof. intros. rewrite be_get_put. by apply Z.mod_small. Qed.

Lemma be_get_inj a b : length a = length b -> be_get a = be_get b -> a = b.
Proof.
  revert b. induction a as [|x a IH]; intros [|y b] Hl H; try done.
  rewrite !be_get_cons in H. simpl in Hl.
  assert (Hl' : blen a = blen b) by (unfold blen; lia).
  rewrite Hl' in H. pose proof (be_get_range a) as Ra.
  pose proof (be_get_range b) as Rb. rewrite Hl' in Ra.
  set (m := 256 ^ blen b) in *. assert (0 < m) by lia.
  assert (bval x = bval y) by nia.
  f_equal; [by apply bval_inj|]. apply IH; [lia|nia].
Qed.

Lemma be_put_get n b : length b = n -> be_put n (be_get b) = b.
Proof.
  intros <-. apply be_get_inj; [apply length_be_put|].
  apply be_get_put_small, be_get_range.
Qed.

Lemma be_put_inj n a b :
  0 <= a < 256 ^ Z.of_nat n -> 0 <= b < 256 ^ Z.of_nat n ->
  be_put n a = be_put n b -> a = b.
Proof.
  intros Ha Hb H. apply (f_equal be_get) in H.
  by rewrite !be_get_put_small in H.
Qed.

(** Signed 64-bit reinterpretation recovers every [int64]. *)
Lemma i64_u64 z : - 2 ^ 63 <= z < 2 ^ 63 -> i64 (u64 z) = z.
Proof.
  intros H. unfold i64, u64.
  rewrite Z.add_mod_idemp_l by lia. rewrite Z.mod_small; lia.
Qed.

(** ** Base-128 varints: [binary.AppendUvarint]

    The source loop runs while [x >= 0x80]; a uint64 takes at most ten bytes,
    so fuel [10] is enough for every argument the code passes. *)

Fixpoint uvarint_go (fuel : nat) (x : Z) : bytes :=
  match fuel with
  | O => [bof x]
  | S f => if x <? 128 then [bof x]
           else bof (x mod 128 + 128) :: uvarint_go f (x / 128)
  end.

Definition uvarint (x : Z) : bytes := uvarint_go 10 x.

Lemma uvarint_go_cons f x :
  exists b r, uvarint_go f x = b :: r.
Proof. destruct f; simpl; [eauto|]. destruct (x <? 128); eauto. Qed.

(** Varints are self-delimiting: an encoding followed by anything determines
    both the number and the rest. *)
Lemma uvarint_go_prefix_free f a b r s :
  0 <= a < 128 * 128 ^ Z.of_nat f -> 0 <= b < 128 * 128 ^ Z.of_nat f ->
  uvarint_go f a ++ r = uvarint_go f b ++ s -> a = b /\ r = s.
Proof.
  revert a b. induction f as [|f IH]; intros a b Ha Hb H.
  - simpl in H. injection H as E1 E2. apply bof_inj in E1; [done|simpl in *; lia..].
  - rewrite Nat2Z.inj_succ, Z.pow_succ_r in Ha, Hb by lia.
    pose proof (Z.mod_pos_bound a 128) as Ma. pose proof (Z.mod_pos_bound b 128) as Mb.
    simpl in H. destruct (Z.ltb_spec a 128) as [La|La], (Z.ltb_spec b 128) as [Lb|Lb]; simpl in H.
    + injection H as E1 E2. apply bof_inj in E1; [done|lia..].
    + injection H as E1 E2. apply bof_inj in E1; lia.
    + injection H as E1 E2. apply bof_inj in E1; lia.
    + injection H as E1 E2. apply bof_inj in E1; [|lia..].
      assert (Hdiv : a / 128 = b / 128 /\ r = s).
      { apply IH; [split; [apply Z.div_pos; lia|apply Z.div_lt_upper_bound; lia]..|done]. }
      destruct Hdiv as [Hd ->]. split; [|done].
      rewrite (Z.div_mod a 128), (Z.div_mod b 128) by lia. lia.
Qed.

Lemma uvarint_prefix_free a b r s :
  0 <= a < 2 ^ 64 -> 0 <= b < 2 ^ 64 ->
  uvarint a ++ r = uvarint b ++ s -> a = b /\ r = s.
Proof.
  intros Ha Hb. apply uvarint_go_prefix_free; simpl; lia.
Qed.

(** ** Instants and durations

    A [time.Time] is an instant in nanoseconds since the Unix epoch; the zero
    [time.Time] is the first instant of year 1.  A [time.Duration] is a number
    of nanoseconds. *)

Abbreviation time := Z (only parsing).
Abbreviation duration := Z (only parsing).

Definition zero_time : Z := -62135596800 * 1000000000.
Definition is_zero_time (t : Z) : bool := t =? zero_time.

Definition Nanosecond : Z := 1.
Definition Millisecond : Z := 1000000.
Definition Second : Z := 1000000000.
Definition Minute : Z := 60 * Second.
Definition Hour : Z := 60 * Minute.

(** [t.UnixNano()] as the 64 bits stored by the code. *)
Definition unix_nano (t : Z) : Z := i64 t.

(** ** Automation

    [go_arith] normalises lengths of concatenations and calls [lia]; the hint
    databases [kam] (resolution) and [blen] (rewriting) collect the lemmas the
    components share. *)

Create HintDb kam.
#[export] Hint Resolve blen_nonneg bval_range be_get_range : kam.
Create Rewrite HintDb blen.
#[export] Hint Rewrite blen_app blen_nil blen_cons blen_be_put blen_replicate : blen.

Ltac go_len := autorewrite with blen in *.
Ltac go_arith := go_len; lia.

(** Case analysis on the first [if]/[match] scrutinee of the goal. *)
Ltac dcase :=
  match goal with
  | |- context [match ?x with _ => _ end] =>
      lazymatch x with
      | context [match _ with _ => _ end] => fail
      | _ => destruct x eqn:?
      end
  end.

Ltac dcase_in H :=
  match type of H with
  | context [match ?x with _ => _ end] =>
      lazymatch x with
      | context [match _ with _ => _ end] => fail
      | _ => destruct x eqn:?
      end
  end.
