(* ===== verification/GoErr.v ===== *)
(** * Go error values and results

    Every sentinel error the modelled packages declare or test for, error
    wrapping with [fmt.Errorf("...: %w", err)], and [errors.Is].  A function
    that returns [(T, error)] is modelled by [result T]. *)

From S2P Require Import Prelude.

(** Sentinels of package [kamune] (errors.go), [internal/engine],
    [pkg/storage], [internal/enigma], [pkg/attest], [pkg/relayconn], the relay
    services, and of the Go standard library. *)
Inductive sentinel :=
(* errors.go *)
| ErrVersionMismatch | ErrClosedServer | ErrConnClosed | ErrPeerDisconnected
| ErrInvalidSignature | ErrVerificationFailed | ErrMessageTooLarge
| ErrOutOfSync | ErrUnexpectedRoute | ErrInvalidRoute | ErrReceiveTimeout
| ErrResumptionRejected
(* internal/enigma, pkg/attest *)
| ErrInvalidCiphertext | ErrInvalidKey
(* internal/engine, pkg/storage *)
| ErrMissingItem | ErrMissingNamespace | ErrSessionNotFound | ErrNotFound
| ErrPeerExpired | ErrInvalidPublicKey | ErrEmptyAppName
(* pkg/relayconn, pkg/relayconn/broker *)
| ErrInvalidKeySize | ErrTokenTooShort | ErrTokenInsufficientEntropy
| ErrECDHPeerKeyMissing
| ErrShortPacket | ErrBadMagic | ErrBadVersion | ErrBadOpcode
(* cmd/relay/internal/services *)
| ErrSessionFull | ErrTokenNotFound | ErrTokenConsumed | ErrSvcPeerNotFound
| ErrSessionExpired | ErrTokenInUse
(* standard library *)
| EOF | ErrUnexpectedEOF | ErrDeadlineExceeded | ErrNetClosed | ErrNotExist
(* any net.Error whose Timeout() is true *)
| ErrNetTimeout.

#[global] Instance sentinel_eq_decision : EqDecision sentinel.
Proof. solve_decision. Defined.

(** An error value: a sentinel, or a formatted error with the errors its [%w]
    verbs wrap. *)
Inductive error :=
| Sentinel (s : sentinel)
| Errorf (msg : string) (wrapped : list error).

(** [fmt.Errorf(msg)] and [fmt.Errorf("msg: %w", e)]. *)
Definition errorf (msg : string) : error := Errorf msg [].
Definition wrapf (msg : string) (e : error) : error := Errorf msg [e].

(** [errors.Is(e, t)]. *)
Fixpoint errors_is (e : error) (t : sentinel) : bool :=
  match e with
  | Sentinel s => bool_decide (s = t)
  | Errorf _ ws => existsb (fun w => errors_is w t) ws
  end.

Lemma errors_is_sentinel s : errors_is (Sentinel s) s = true.
Proof. simpl. by apply bool_decide_eq_true_2. Qed.

Lemma errors_is_wrapf msg e t : errors_is (wrapf msg e) t = errors_is e t.
Proof. simpl. by rewrite orb_false_r. Qed.

Inductive result (A : Type) :=
| Ok (a : A)
| Err (e : error).
Arguments Ok {A} a.
Arguments Err {A} e.

Definition is_ok {A} (r : result A) : bool :=
  match r with Ok _ => true | Err _ => false end.

(** Replace the error of a failed call, as [fmt.Errorf] does on return. *)
Definition map_err {A} (f : error -> error) (r : result A) : result A :=
  match r with Ok a => Ok a | Err e => Err (f e) end.

#[global] Instance result_ret : MRet result := @Ok.
#[global] Instance result_bind : MBind result := fun A B f r =>
  match r with Ok a => f a | Err e => Err e end.

(** A partial standard-library call that reports failure by an error. *)
Definition of_option {A} (e : error) (o : option A) : result A :=
  match o with Some a => Ok a | None => Err e end.

Lemma map_err_ok {A} f (r : result A) a : map_err f r = Ok a <-> r = Ok a.
Proof. destruct r; simpl; split; congruence. Qed.

Lemma bind_ok {A B} (r : result A) (f : A -> result B) b :
  (r ≫= f) = Ok b <-> exists a, r = Ok a /\ f a = Ok b.
Proof.
  destruct r; simpl; unfold mbind, result_bind.
  - split; [eauto|]. by intros (? & [= <-] & ?).
  - split; [done|]. by intros (? & ? & ?).
Qed.

Lemma of_option_ok {A} e (o : option A) a : of_option e o = Ok a <-> o = Some a.
Proof. destruct o; simpl; split; congruence. Qed.

Lemma of_option_some {A} e (a : A) : of_option e (Some a) = Ok a.
Proof. done. Qed.

Create Rewrite HintDb result.
Create Rewrite HintDb errors.
#[export] Hint Rewrite @map_err_ok @bind_ok @of_option_ok : result.
#[export] Hint Rewrite errors_is_wrapf errors_is_sentinel : errors.

(** Split a hypothesis saying that a composed call succeeded into the success
    of each call. *)
Ltac res_inv H :=
  autorewrite with result in H; destruct_and?; simplify_eq/=.

(** ** Fallible stateful code *)

(** A Go method that returns [(T, error)] and updates its receiver. *)
Definition go (S A : Type) : Type := S -> result A * S.

Definition gret {S A} (a : A) : go S A := fun s => (Ok a, s).
Definition gfail {S A} (e : error) : go S A := fun s => (Err e, s).
Definition gbind {S A B} (m : go S A) (k : A -> go S B) : go S B := fun s =>
  match m s with
  | (Ok a, s') => k a s'
  | (Err e, s') => (Err e, s')
  end.
(** [if err != nil { return fmt.Errorf("msg: %w", err) }] *)
Definition gwrap {S A} (msg : string) (m : go S A) : go S A := fun s =>
  let '(r, s') := m s in (map_err (wrapf msg) r, s').
Definition gget {S A} (f : S -> A) : go S A := fun s => (Ok (f s), s).
Definition gmodify {S} (f : S -> S) : go S unit := fun s => (Ok tt, f s).

Declare Scope go_scope.
Delimit Scope go_scope with go.
Notation "'let*' x := m 'in' k" := (gbind m (fun x => k))
  (at level 100, x name, m at level 200, k at level 200) : go_scope.
Notation "m ;* k" := (gbind m (fun _ => k)) (at level 95, right associativity) : go_scope.

Lemma gbind_ok {S A B} (m : go S A) (k : A -> go S B) s a s' :
  m s = (Ok a, s') -> gbind m k s = k a s'.
Proof. unfold gbind. by intros ->. Qed.

Lemma gbind_err {S A B} (m : go S A) (k : A -> go S B) s e s' :
  m s = (Err e, s') -> gbind m k s = (Err e, s').
Proof. unfold gbind. by intros ->. Qed.
