(* ===== verification/Process.v ===== *)
(** * Interactive programs

    The protocol code reads and writes whole messages on a [Conn], draws
    randomness, reads the clock and updates the storage it holds.  Such code
    is modelled by the free monad [prog] over the events below; the source's
    sequential composition is [pbind].  Three interpreters give it meaning:

    - [exec] runs one program against an arbitrary environment that decides
      the result of every read and write (the adversary);
    - [follows] runs one party of a conversation along a trace of messages;
    - [sched] runs two parties against each other over two FIFO queues, in
      any interleaving ([lstep], [rstep]).

    [follows_every_schedule] connects the last two: two parties that follow the
    same trace complete, with the same results, whatever the interleaving. *)

From S2P Require Import Prelude GoErr.

Section process.
Context {St : Type}.

(** What a program can ask of its surroundings.  [ReadBytes], [WriteBytes],
    [SetDeadline] and [CloseConn] are the methods of the [Conn] interface
    (conn.go); [RandBytes n] is [crypto/rand.Read] into [n] bytes; [IntN n] is
    [math/rand/v2.IntN]; [Now] reads the clock; [Local f] updates the state the
    program holds a pointer to. *)
Inductive event : Type -> Type :=
| ReadBytes : event (result bytes)
| WriteBytes (b : bytes) : event (result unit)
| SetDeadline (t : Z) : event (result unit)
| CloseConn : event (result unit)
| RandBytes (n : Z) : event bytes
| IntN (n : Z) : event Z
| Now : event Z
| Local {X : Type} (f : St -> X * St) : event X.

Inductive prog (A : Type) : Type :=
| Ret (a : A)
| Vis {X : Type} (e : event X) (k : X -> prog A)
| Panic (msg : string).
Arguments Ret {A} a.
Arguments Vis {A X} e k.
Arguments Panic {A} msg.

Fixpoint pbind {A B} (p : prog A) (k : A -> prog B) : prog B :=
  match p with
  | Ret a => k a
  | Vis e h => Vis e (fun x => pbind (h x) k)
  | Panic m => Panic m
  end.

Definition ask {X} (e : event X) : prog X := Vis e Ret.

(** [defer func() { recover() }]: a panic becomes the value [f msg]. *)
Fixpoint precover {A} (f : string -> prog A) (p : prog A) : prog A :=
  match p with
  | Ret a => Ret a
  | Vis e h => Vis e (fun x => precover f (h x))
  | Panic m => f m
  end.

(** ** Local state of one party: its sources of randomness, clock and store *)

Record world := World {
  w_rand : nat -> byte; w_rpos : nat;
  w_int : nat -> Z; w_ipos : nat;
  w_clock : nat -> Z; w_tpos : nat;
  w_store : St
}.

Definition draw (n : Z) (w : world) : bytes :=
  map (w_rand w) (seq (w_rpos w) (Z.to_nat n)).

Lemma blen_draw n w : 0 <= n -> blen (draw n w) = n.
Proof. intros. unfold blen, draw. rewrite length_map, length_seq. lia. Qed.

Definition after_draw (n : Z) (w : world) : world :=
  World (w_rand w) (w_rpos w + Z.to_nat n) (w_int w) (w_ipos w)
        (w_clock w) (w_tpos w) (w_store w).
Definition after_int (w : world) : world :=
  World (w_rand w) (w_rpos w) (w_int w) (S (w_ipos w))
        (w_clock w) (w_tpos w) (w_store w).
Definition after_now (w : world) : world :=
  World (w_rand w) (w_rpos w) (w_int w) (w_ipos w)
        (w_clock w) (S (w_tpos w)) (w_store w).
Definition set_store (s : St) (w : world) : world :=
  World (w_rand w) (w_rpos w) (w_int w) (w_ipos w)
        (w_clock w) (w_tpos w) s.

(** The value [math/rand.IntN n] yields: any value of [0 .. n-1]. *)
Definition drawn_int (n : Z) (w : world) : Z := w_int w (w_ipos w) mod n.

(** Events that do not touch the connection. *)
Definition local_step {X} (e : event X) (w : world) : option (X * world) :=
  match e in event X return option (X * world) with
  | RandBytes n => Some (draw n w, after_draw n w)
  | IntN n => Some (drawn_int n w, after_int w)
  | Now => Some (w_clock w (w_tpos w), after_now w)
  | Local f => let '(x, s) := f (w_store w) in Some (x, set_store s w)
  | SetDeadline _ => Some (Ok tt, w)
  | ReadBytes => None
  | WriteBytes _ => None
  | CloseConn => None
  end.

(** A program that never touches the connection. *)
Fixpoint run_local {A} (p : prog A) (w : world) : option (A * world) :=
  match p with
  | Ret a => Some (a, w)
  | Panic _ => None
  | Vis e k => match local_step e w with
               | Some (x, w') => run_local (k x) w'
               | None => None
               end
  end.

Lemma run_local_bind {A B} (p : prog A) (k : A -> prog B) w :
  run_local (pbind p k) w =
  match run_local p w with
  | Some (a, w') => run_local (k a) w'
  | None => None
  end.
Proof.
  revert w. induction p as [a|X e h IH|m]; intros w; simpl; [done| |done].
  destruct (local_step e w) as [[x w']|]; [apply IH|done].
Qed.

Lemma run_local_clock {A} (p : prog A) w a w' :
  run_local p w = Some (a, w') -> w_clock w' = w_clock w.
Proof.
  revert w. induction p as [a0|X e h IH|m]; intros w Hr; simpl in *; [by simplify_eq| |done].
  destruct (local_step e w) as [[x w1]|] eqn:E; [|done]. rewrite (IH _ _ Hr).
  destruct e; simpl in E; simplify_eq; try done. by case_match; simplify_eq.
Qed.

(** The clock stays within what [time.Time] and a protobuf timestamp hold. *)
Definition clock_ok (w : world) : Prop :=
  forall i, - 2 ^ 63 * Second <= w_clock w i < 2 ^ 63 * Second.

(** ** One program against an arbitrary environment *)

Record net := Net {
  n_reads : list (result bytes);    (* results of the reads to come *)
  n_writes : list (result unit);    (* results of the writes to come *)
  n_sent : list bytes;              (* payloads written so far, in order *)
  n_closed : bool
}.

Definition net_read (n : net) : result bytes * net :=
  match n_reads n with
  | [] => (Err (Sentinel EOF), n)
  | r :: rs => (r, Net rs (n_writes n) (n_sent n) (n_closed n))
  end.

Definition net_write (b : bytes) (n : net) : result unit * net :=
  match n_writes n with
  | [] => (Ok tt, Net (n_reads n) [] (n_sent n ++ [b]) (n_closed n))
  | Ok u :: ws => (Ok u, Net (n_reads n) ws (n_sent n ++ [b]) (n_closed n))
  | Err e :: ws => (Err e, Net (n_reads n) ws (n_sent n) (n_closed n))
  end.

Definition net_step {X} (e : event X) (w : world) (n : net) : X * world * net :=
  match e in event X return X * world * net with
  | RandBytes k => (draw k w, after_draw k w, n)
  | IntN k => (drawn_int k w, after_int w, n)
  | Now => (w_clock w (w_tpos w), after_now w, n)
  | Local f => let '(x, s) := f (w_store w) in (x, set_store s w, n)
  | SetDeadline _ => (Ok tt, w, n)
  | ReadBytes => let '(r, n') := net_read n in (r, w, n')
  | WriteBytes b => let '(r, n') := net_write b n in (r, w, n')
  | CloseConn =>
      (if n_closed n then Err (Sentinel ErrConnClosed) else Ok tt, w,
       Net (n_reads n) (n_writes n) (n_sent n) true)
  end.

(** The outcome is [None] when the program panics. *)
Fixpoint exec {A} (p : prog A) (w : world) (n : net) : option A * world * net :=
  match p with
  | Ret a => (Some a, w, n)
  | Panic _ => (None, w, n)
  | Vis e k => let '(x, w', n') := net_step e w n in exec (k x) w' n'
  end.

Lemma exec_bind {A B} (p : prog A) (k : A -> prog B) w n :
  exec (pbind p k) w n =
  match exec p w n with
  | (Some a, w', n') => exec (k a) w' n'
  | (None, w', n') => (None, w', n')
  end.
Proof.
  revert w n. induction p as [a|X e h IH|m]; intros w n; simpl; [done| |done].
  destruct (net_step e w n) as [[x w'] n']. apply IH.
Qed.

(** [ensures p Q]: whatever its surroundings answer, a value that [p] returns
    satisfies [Q]. *)
Fixpoint ensures {A} (p : prog A) (Q : A -> Prop) : Prop :=
  match p with
  | Ret a => Q a
  | Panic _ => True
  | Vis e k => forall x, ensures (k x) Q
  end.

Lemma ensures_bind {A B} (p : prog A) (k : A -> prog B) Q :
  ensures p (fun a => ensures (k a) Q) -> ensures (pbind p k) Q.
Proof. induction p as [a|X e h IH|m]; simpl; [done| |done]. intros Hp x. by apply IH. Qed.

Lemma ensures_weaken {A} (p : prog A) (Q R : A -> Prop) :
  (forall a, Q a -> R a) -> ensures p Q -> ensures p R.
Proof. intros Hw. induction p as [a|X e h IH|m]; simpl; [apply Hw| |done]. intros Hp x. by apply IH. Qed.

Lemma ensures_true {A} (p : prog A) : ensures p (fun _ => True).
Proof. induction p as [a|X e h IH|m]; simpl; [done| |done]. intros x. by apply IH. Qed.

Lemma ensures_exec {A} (p : prog A) Q w n a w' n' :
  ensures p Q -> exec p w n = (Some a, w', n') -> Q a.
Proof.
  revert w n. induction p as [a0|X e h IH|m]; intros w n Hp E; simpl in *; [by simplify_eq| |done].
  destruct (net_step e w n) as [[x w1] n1]. by eapply IH.
Qed.

(** A program without [Local] events does not touch the state it holds. *)
Fixpoint keeps_store {A} (p : prog A) : Prop :=
  match p with
  | Ret _ => True
  | Panic _ => True
  | @Vis _ X e k =>
      match e with Local _ => False | _ => True end /\ forall x, keeps_store (k x)
  end.

Lemma keeps_store_bind {A B} (p : prog A) (k : A -> prog B) :
  keeps_store p -> (forall a, keeps_store (k a)) -> keeps_store (pbind p k).
Proof.
  intros Hp Hk. induction p as [a|X e h IH|m]; simpl in *; [apply Hk| |done].
  destruct Hp as [He Hp]. split; [done|]. intros x. by apply IH.
Qed.

Lemma keeps_store_exec {A} (p : prog A) w n o w' n' :
  keeps_store p -> exec p w n = (o, w', n') -> w_store w' = w_store w.
Proof.
  revert w n. induction p as [a|X e h IH|m]; intros w n Hp E; simpl in *; [by simplify_eq| |by simplify_eq].
  destruct Hp as [He Hp]. destruct (net_step e w n) as [[x w1] n1] eqn:Es.
  rewrite (IH x _ _ (Hp x) E). destruct e; simpl in Es; try done; by repeat case_match; simplify_eq.
Qed.

(** ** One party along a trace

    A trace is the sequence of messages exchanged, each tagged with the side
    that wrote it. *)

Definition trace := list (bool * bytes).

Fixpoint follows {A} (me : bool) (p : prog A) (tr : trace) (w : world) {struct p}
  : option (A * world) :=
  match p with
  | Ret a => match tr with [] => Some (a, w) | _ => None end
  | Panic _ => None
  | @Vis _ X e k =>
      match e in event Y return (Y -> trace -> world -> option (A * world)) -> option (A * world) with
      | ReadBytes => fun go =>
          match tr with
          | (d, m) :: tr' => if eqb d me then None else go (Ok m) tr' w
          | [] => None
          end
      | WriteBytes b => fun go =>
          match tr with
          | (d, m) :: tr' =>
              if eqb d me && bool_decide (m = b) then go (Ok tt) tr' w else None
          | [] => None
          end
      | CloseConn => fun _ => None
      | SetDeadline _ => fun go => go (Ok tt) tr w
      | RandBytes n => fun go => go (draw n w) tr (after_draw n w)
      | IntN n => fun go => go (drawn_int n w) tr (after_int w)
      | Now => fun go => go (w_clock w (w_tpos w)) tr (after_now w)
      | Local f => fun go => let '(x, s) := f (w_store w) in go x tr (set_store s w)
      end (fun x tr w => follows me (k x) tr w)
  end.

Lemma follows_bind {A B} me (p : prog A) (k : A -> prog B) tr1 tr2 w a w1 :
  follows me p tr1 w = Some (a, w1) ->
  follows me (pbind p k) (tr1 ++ tr2) w = follows me (k a) tr2 w1.
Proof.
  revert tr1 w. induction p as [a0|X e h IH|m]; intros tr1 w Hp; simpl in Hp.
  - destruct tr1; [|done]. by injection Hp as -> ->.
  - destruct e; simpl; try (by apply IH).
    + destruct tr1 as [|[d m] tr1]; [done|]. simpl.
      destruct (eqb d me); [done|]. by apply IH.
    + destruct tr1 as [|[d m] tr1]; [done|]. simpl.
      destruct (eqb d me && bool_decide (m = b)); [|done]. by apply IH.
    + done.
    + destruct (f (w_store w)) as [x s]. by apply IH.
  - done.
Qed.

(** A local program behaves the same whatever the connection does. *)
Lemma exec_local {A} (p : prog A) w a w' n :
  run_local p w = Some (a, w') -> exec p w n = (Some a, w', n).
Proof.
  revert w. induction p as [a0|X e h IH|m]; intros w Hr; simpl in *; [by simplify_eq| |done].
  destruct e; simpl in *; try done; try (by apply IH).
  destruct (f (w_store w)) as [x s]. by apply IH.
Qed.

Lemma follows_local {A} me (p : prog A) w a w' :
  run_local p w = Some (a, w') -> follows me p [] w = Some (a, w').
Proof.
  revert w. induction p as [a0|X e h IH|m]; intros w Hr; simpl in *; [done| |done].
  destruct e; simpl in *; try done; try (by apply IH).
  destruct (f (w_store w)) as [x s]. by apply IH.
Qed.

Lemma follows_bind_local {A B} me (p : prog A) (k : A -> prog B) tr w a w1 :
  run_local p w = Some (a, w1) ->
  follows me (pbind p k) tr w = follows me (k a) tr w1.
Proof. intros Hr. by apply (follows_bind me p k [] tr), follows_local. Qed.

Lemma follows_clock {A} me (p : prog A) tr w a w' :
  follows me p tr w = Some (a, w') -> w_clock w' = w_clock w.
Proof.
  revert tr w. induction p as [a0|X e h IH|m]; intros tr w Hr; simpl in *; [|destruct e|done].
  - by destruct tr; simplify_eq.
  - destruct tr as [|[d m] tr]; [done|]. by destruct (eqb d me); [|eapply IH].
  - destruct tr as [|[d m] tr]; [done|].
    by destruct (eqb d me && bool_decide (m = b)); [eapply IH|].
  - by eapply IH.
  - done.
  - by rewrite (IH _ _ _ Hr).
  - by rewrite (IH _ _ _ Hr).
  - by rewrite (IH _ _ _ Hr).
  - destruct (f (w_store w)) as [x s]. by rewrite (IH _ _ _ Hr).
Qed.

(** A run that does not panic is not affected by [recover]. *)
Lemma follows_precover {A} me (f : string -> prog A) (p : prog A) tr w r :
  follows me p tr w = Some r -> follows me (precover f p) tr w = Some r.
Proof.
  revert tr w. induction p as [a0|X e h IH|m]; intros tr w Hr; simpl in *; [done| |done].
  destruct e; try done; try (by apply IH).
  - destruct tr as [|[d m] tr]; [done|]. destruct (eqb d me); [done|]. by apply IH.
  - destruct tr as [|[d m] tr]; [done|].
    destruct (eqb d me && bool_decide (m = b)); [|done]. by apply IH.
  - destruct (f0 (w_store w)) as [x s]. by apply IH.
Qed.

Lemma exec_precover_ok {A} (f : string -> prog A) (p : prog A) w n a w' n' :
  exec p w n = (Some a, w', n') -> exec (precover f p) w n = (Some a, w', n').
Proof.
  revert w n. induction p as [a0|X e h IH|m]; intros w n; simpl; [done| |done].
  destruct (net_step e w n) as [[x w1] n1]. apply IH.
Qed.

Lemma exec_precover_panic {A} (f : string -> prog A) (p : prog A) w n w' n' :
  exec p w n = (None, w', n') -> exists m, exec (precover f p) w n = exec (f m) w' n'.
Proof.
  revert w n. induction p as [a0|X e h IH|m]; intros w n; simpl; [done| |].
  - destruct (net_step e w n) as [[x w1] n1]. apply IH.
  - intros E. simplify_eq. by exists m.
Qed.

(** The messages of one side of a trace. *)
Fixpoint side (me : bool) (tr : trace) : list bytes :=
  match tr with
  | [] => []
  | (d, m) :: tr' => if eqb d me then m :: side me tr' else side me tr'
  end.

(** A party that follows a trace behaves so against a network that delivers
    the other side's messages and accepts its own. *)
Lemma exec_follows {A} me (p : prog A) tr w a w' rs sent cl :
  follows me p tr w = Some (a, w') ->
  exec p w (Net (map Ok (side (negb me) tr) ++ rs) [] sent cl) =
  (Some a, w', Net rs [] (sent ++ side me tr) cl).
Proof.
  revert tr w sent. induction p as [a0|X e h IH|m]; intros tr w sent Hr; simpl in *;
    [|destruct e|done].
  - destruct tr; [|done]. simplify_eq. by rewrite app_nil_r.
  - destruct tr as [|[d m] tr]; [done|]. destruct (eqb d me) eqn:Hd; [done|].
    cbn [side]. rewrite Hd.
    assert (eqb d (negb me) = true) as -> by (by destruct d, me).
    cbn [map app]. unfold net_step, net_read. cbn [n_reads n_writes n_sent n_closed]. by apply IH.
  - destruct tr as [|[d m] tr]; [done|].
    destruct (eqb_spec d me) as [->|]; [|done]. cbn [andb side] in *. rewrite eqb_reflx.
    destruct (bool_decide_reflect (m = b)) as [->|]; [|done].
    assert (eqb me (negb me) = false) as -> by (by destruct me).
    cbn [map]. unfold net_step, net_write. cbn [n_reads n_writes n_sent n_closed].
    rewrite (IH _ tr w (sent ++ [b]) Hr). by rewrite <- app_assoc.
  - by apply IH.
  - done.
  - by apply IH.
  - by apply IH.
  - by apply IH.
  - unfold net_step. destruct (f (w_store w)) as [x s]. by apply IH.
Qed.

(** ** Two parties over FIFO queues *)

(** One step of a party whose inbox is [inbox]: the message written, if any,
    the remaining inbox and the new local state.  [None] when the party has
    finished or waits for a message. *)
Definition pstep {A} (p : prog A) (inbox : list bytes) (w : world)
  : option (prog A * list bytes * list bytes * world) :=
  match p with
  | Ret _ => None
  | Panic _ => None
  | @Vis _ X e k =>
      match e in event Y return (Y -> prog A) -> _ with
      | ReadBytes => fun k =>
          match inbox with
          | m :: inbox' => Some (k (Ok m), [], inbox', w)
          | [] => None
          end
      | WriteBytes b => fun k => Some (k (Ok tt), [b], inbox, w)
      | CloseConn => fun _ => None
      | SetDeadline _ => fun k => Some (k (Ok tt), [], inbox, w)
      | RandBytes n => fun k => Some (k (draw n w), [], inbox, after_draw n w)
      | IntN n => fun k => Some (k (drawn_int n w), [], inbox, after_int w)
      | Now => fun k => Some (k (w_clock w (w_tpos w)), [], inbox, after_now w)
      | Local f => fun k =>
          let '(x, s) := f (w_store w) in Some (k x, [], inbox, set_store s w)
      end k
  end.

Record config (A B : Type) := Config {
  c_left : prog A; c_lbox : list bytes; c_lworld : world;
  c_right : prog B; c_rbox : list bytes; c_rworld : world
}.
Arguments Config {A B} _ _ _ _ _ _.
Arguments c_left {A B} _.
Arguments c_lbox {A B} _.
Arguments c_lworld {A B} _.
Arguments c_right {A B} _.
Arguments c_rbox {A B} _.
Arguments c_rworld {A B} _.

Definition lstep {A B} (c : config A B) : option (config A B) :=
  match pstep (c_left c) (c_lbox c) (c_lworld c) with
  | Some (p, out, box, w) =>
      Some (Config p box w (c_right c) (c_rbox c ++ out) (c_rworld c))
  | None => None
  end.

Definition rstep {A B} (c : config A B) : option (config A B) :=
  match pstep (c_right c) (c_rbox c) (c_rworld c) with
  | Some (q, out, box, w) =>
      Some (Config (c_left c) (c_lbox c ++ out) (c_lworld c) q box w)
  | None => None
  end.

(** Any interleaving of the two parties. *)
Inductive sched {A B} : nat -> config A B -> config A B -> Prop :=
| sched_done c : sched 0 c c
| sched_left n c c1 c2 : lstep c = Some c1 -> sched n c1 c2 -> sched (S n) c c2
| sched_right n c c1 c2 : rstep c = Some c1 -> sched n c1 c2 -> sched (S n) c c2.

Definition stuck {A B} (c : config A B) : Prop := lstep c = None /\ rstep c = None.

Lemma pstep_more {A} (p : prog A) box w p' out box' w' extra :
  pstep p box w = Some (p', out, box', w') ->
  pstep p (box ++ extra) w = Some (p', out, box' ++ extra, w').
Proof.
  destruct p as [a|X e h|m]; simpl; [done| |done].
  destruct e; try (intros [= <- <- <- <-]; done); try done.
  - destruct box; [done|]. by intros [= <- <- <- <-].
  - destruct (f (w_store w)). by intros [= <- <- <- <-].
Qed.

(** Steps of the two parties commute: a writer appends to the queue whose head
    the reader takes. *)
Lemma step_diamond {A B} (c c1 c2 : config A B) :
  lstep c = Some c1 -> rstep c = Some c2 ->
  exists c', rstep c1 = Some c' /\ lstep c2 = Some c'.
Proof.
  unfold lstep, rstep. destruct c as [p lb lw q rb rw]; simpl.
  destruct (pstep p lb lw) as [[[[p' o1] lb'] lw']|] eqn:E1; [|done].
  destruct (pstep q rb rw) as [[[[q' o2] rb'] rw']|] eqn:E2; [|done].
  intros [= <-] [= <-]; simpl.
  rewrite (pstep_more _ _ _ _ _ _ _ o1 E2), (pstep_more _ _ _ _ _ _ _ o2 E1). eauto.
Qed.

Lemma sched_one_side {A B} (c c1 c2 : config A B) n :
  stuck c2 -> sched n c c2 -> lstep c = Some c1 \/ rstep c = Some c1 ->
  exists m, n = S m /\ sched m c1 c2.
Proof.
  intros Hs H. revert c1.
  induction H as [c|n c d c2 Hd Hn IH|n c d c2 Hd Hn IH]; intros c1 Hc.
  - destruct Hs as [Hl Hr]. destruct Hc; congruence.
  - destruct Hc as [Hc|Hc].
    + rewrite Hd in Hc. injection Hc as <-. eauto.
    + destruct (step_diamond _ _ _ Hd Hc) as (e & He1 & He2).
      destruct (IH Hs e (or_intror He1)) as (m & -> & Hm).
      exists (S m). split; [done|]. eapply sched_left; eauto.
  - destruct Hc as [Hc|Hc].
    + destruct (step_diamond _ _ _ Hc Hd) as (e & He1 & He2).
      destruct (IH Hs e (or_introl He2)) as (m & -> & Hm).
      exists (S m). split; [done|]. eapply sched_right; eauto.
    + rewrite Hd in Hc. injection Hc as <-. eauto.
Qed.

(** When one interleaving runs to completion, every interleaving does, in the
    same number of steps and with the same outcome. *)
Lemma sched_confluent {A B} (c d e : config A B) n m :
  sched n c d -> stuck d -> sched m c e ->
  (m <= n)%nat /\ (stuck e -> m = n /\ e = d).
Proof.
  intros Hn Hd Hm. revert n Hn.
  induction Hm as [c|m c c1 e Hc Hm IH|m c c1 e Hc Hm IH]; intros n Hn.
  - split; [lia|]. intros [Hl Hr].
    destruct Hn as [|n ? c1 ? H1 _|n ? c1 ? H1 _]; [done|congruence..].
  - destruct (sched_one_side _ c1 _ _ Hd Hn (or_introl Hc)) as (k & -> & Hk).
    destruct (IH _ Hk) as [Hle Heq]. split; [lia|].
    intros Hs. destruct (Heq Hs). split; [lia|done].
  - destruct (sched_one_side _ c1 _ _ Hd Hn (or_intror Hc)) as (k & -> & Hk).
    destruct (IH _ Hk) as [Hle Heq]. split; [lia|].
    intros Hs. destruct (Heq Hs). split; [lia|done].
Qed.

(** Two parties that follow the same trace meet: their composition runs to
    completion.  The left party is run ahead of the right one; [gap] is the
    part of the trace only the left party has performed. *)
Definition left_gap (gap : trace) : Prop := Forall (fun e => fst e = true) gap.

Lemma sched_more_right {A B} (c c1 c2 : config A B) :
  rstep c = Some c1 -> (exists m, sched m c1 c2) -> exists m, sched m c c2.
Proof. intros H [m Hm]. exists (S m). eapply sched_right; eauto. Qed.

Lemma sched_more_left {A B} (c c1 c2 : config A B) :
  lstep c = Some c1 -> (exists m, sched m c1 c2) -> exists m, sched m c c2.
Proof. intros H [m Hm]. exists (S m). eapply sched_left; eauto. Qed.

(** The right party catches up with the left one until it has consumed the gap
    and is about to write, or has finished. *)
Lemma right_catches_up {A B} (p : prog A) wp (q : prog B) d gap tr wq r :
  left_gap gap ->
  follows false q (gap ++ tr) wq = Some r ->
  (forall q' wq', follows false q' tr wq' = Some r ->
     (exists b, q' = Ret b) \/ (exists m k, q' = Vis (WriteBytes m) k) ->
     exists n, sched n (Config p [] wp q' [] wq') d) ->
  match tr with [] => True | (side, _) :: _ => side = false end ->
  exists n, sched n (Config p [] wp q (map snd gap) wq) d.
Proof.
  revert gap wq. induction q as [b|X e h IH|m]; intros gap wq Hg Hq Hk Ht; [..|done].
  - destruct gap as [|x gap]; [|done]. apply Hk; eauto.
  - destruct e; simpl in Hq;
      try (eapply sched_more_right; [reflexivity|]; simpl; by eapply IH); try done.
    + destruct gap as [|[d0 m] gap]; simpl in *.
      * destruct tr as [|[d0 m] tr]; [done|]. by subst.
      * inversion_clear Hg as [|? ? Hd Hg']. simpl in Hd. subst d0. simpl in Hq.
        eapply sched_more_right; [reflexivity|]. simpl. by eapply IH.
    + destruct gap as [|[d0 m] gap]; [apply Hk; eauto|].
      inversion_clear Hg as [|? ? Hd Hg']. simpl in Hd. by subst d0.
    + destruct (f (w_store wq)) as [x s] eqn:E. eapply sched_more_right.
      { unfold rstep; simpl. rewrite E. reflexivity. }
      simpl. by eapply IH.
Qed.

Lemma follows_meet {A B} (p : prog A) (q : prog B) gap tr wp wq a b wp' wq' :
  left_gap gap ->
  follows true p tr wp = Some (a, wp') ->
  follows false q (gap ++ tr) wq = Some (b, wq') ->
  exists n, sched n (Config p [] wp q (map snd gap) wq)
                    (Config (Ret a) [] wp' (Ret b) [] wq').
Proof.
  revert q gap tr wp wq. induction p as [a0|X e h IH|m];
    intros q gap tr wp wq Hg Hp Hq; [..|done].
  - destruct tr; [|done]. injection Hp as -> ->.
    eapply right_catches_up; [done..| |done].
    intros q' wq0 Hf [[b0 ->]|(m & k & ->)]; [|done].
    injection Hf as -> ->. eexists. apply sched_done.
  - destruct e; simpl in Hp;
      try (eapply sched_more_left; [reflexivity|]; simpl; rewrite app_nil_r; by eapply IH);
      try done.
    + destruct tr as [|[d0 m] tr]; [done|]. destruct d0; [done|]. simpl in Hp.
      eapply right_catches_up; [done..| |done].
      intros q' wq0 Hf [[b0 ->]|(m' & k & ->)]; [done|]. simpl in Hf.
      case_bool_decide; [|done]. subst m'.
      eapply sched_more_right; [reflexivity|]. simpl.
      eapply sched_more_left; [reflexivity|]. simpl.
      apply (IH (Ok m) _ [] tr); [by constructor|done..].
    + destruct tr as [|[d0 m] tr]; [done|]. destruct d0; [|done]. simpl in Hp.
      case_bool_decide; [|done]. subst m.
      eapply sched_more_left; [reflexivity|]. simpl.
      change (map snd gap ++ [b0]) with (map snd gap ++ map snd [(true, b0)]).
      rewrite <- map_app. eapply IH; [|done|by rewrite <- app_assoc].
      apply Forall_app; split; [done|]. by repeat constructor.
    + destruct (f (w_store wp)) as [x s] eqn:E. eapply sched_more_left.
      { unfold lstep; simpl. rewrite E. reflexivity. }
      simpl. rewrite app_nil_r. by eapply IH.
Qed.

(** Every interleaving of two parties that follow one trace is finite, and
    every complete one ends with the results the trace gives them. *)
Lemma follows_every_schedule {A B} (p : prog A) (q : prog B) tr wp wq a b wp' wq' :
  follows true p tr wp = Some (a, wp') ->
  follows false q tr wq = Some (b, wq') ->
  exists n, sched n (Config p [] wp q [] wq) (Config (Ret a) [] wp' (Ret b) [] wq') /\
    forall m e, sched m (Config p [] wp q [] wq) e ->
      (m <= n)%nat /\ (stuck e -> e = Config (Ret a) [] wp' (Ret b) [] wq').
Proof.
  intros Hp Hq.
  destruct (follows_meet p q [] tr wp wq a b wp' wq') as [n Hn]; [constructor|done..|].
  exists n. split; [done|]. intros m e Hm.
  destruct (sched_confluent _ _ e n m Hn) as [Hle Heq]; [done|done|].
  split; [done|]. intros Hs. by destruct (Heq Hs).
Qed.

End process.

Arguments event : clear implicits.
Arguments prog : clear implicits.
Arguments Ret {St A} a.
Arguments Vis {St A X} e k.
Arguments Panic {St A} msg.
Arguments world : clear implicits.
Arguments Config {St A B} _ _ _ _ _ _.
Arguments Net _ _ _ _ : assert.

(** ** Notation for source-like sequencing *)

Declare Scope prog_scope.
Delimit Scope prog_scope with prog.
#[global] Open Scope prog_scope.

Notation "'do' x <- p ; q" := (pbind p (fun x => q))
  (at level 10, x name, p at level 100, q at level 200) : prog_scope.
Notation "'do' ' pat <- p ; q" := (pbind p (fun pat => q))
  (at level 10, pat pattern, p at level 100, q at level 200) : prog_scope.

(** [x, err := p; if err != nil { return fmt.Errorf("msg: %w", err) }]. *)
Notation "'try' x <- p 'or' msg ; q" :=
  (pbind p (fun r => match r with
                     | Ok x => q
                     | Err e => Ret (Err (wrapf msg e))
                     end))
  (at level 10, x pattern, p at level 100, msg at level 9, q at level 200) : prog_scope.

(** Run a local program, or one that follows a known part of the trace, inside
    a [follows]. *)
Ltac flocal H := rewrite (follows_bind_local _ _ _ _ _ _ _ H); cbn beta iota.
Ltac ftrace H := rewrite (follows_bind _ _ _ _ _ _ _ _ H); cbn beta iota.
