(* ===== verification/Wire.v ===== *)
(** * Protocol Buffers: the runtime the code calls, and its wire format

    [google.golang.org/protobuf] is not part of the repository: it is the
    parameter [ProtoRuntime] of the development, and [ProtoRuntimeOk] states
    what its documentation promises and the code relies on (round trip, the
    size of an encoding, marshalling succeeds on valid strings).  The second
    half of the file builds [wire_runtime], the published wire format, and
    shows that it is such a runtime. *)

From S2P Require Import Prelude GoErr.

(** ** Fields of a message, as the schema lays them out *)

Inductive wval :=
| WVarint (z : Z)      (* uint64, int64, int32, bool, enum *)
| WBytes (b : bytes).  (* bytes, string, embedded message *)

Definition wfield : Type := Z * wval.

(** Number of bytes of a base-128 varint. *)
Definition uvarint_len (z : Z) : Z := blen (uvarint z).

Definition wfield_size (f : wfield) : Z :=
  match snd f with
  | WVarint z => uvarint_len (fst f * 8) + uvarint_len z
  | WBytes b => uvarint_len (fst f * 8 + 2) + uvarint_len (blen b) + blen b
  end.

Definition wire_size (fs : list wfield) : Z := foldr (fun f n => wfield_size f + n) 0 fs.

Definition wfield_ok (f : wfield) : Prop :=
  1 <= fst f < 2 ^ 29 /\
  match snd f with WVarint z => 0 <= z < 2 ^ 64 | WBytes b => blen b < 2 ^ 64 end.

(** proto3: a field holding its default value is not emitted. *)
Definition opt_bytes (n : Z) (b : bytes) : list wfield :=
  match b with [] => [] | _ => [(n, WBytes b)] end.
Definition opt_varint (n z : Z) : list wfield :=
  if z =? 0 then [] else [(n, WVarint z)].

(** Reading a field back: the last occurrence wins, a missing one is zero. *)
Fixpoint get_bytes_opt (n : Z) (fs : list wfield) : option bytes :=
  match fs with
  | [] => None
  | f :: fs' =>
      match get_bytes_opt n fs' with
      | Some x => Some x
      | None => match snd f with
                | WBytes b => if fst f =? n then Some b else None
                | WVarint _ => None
                end
      end
  end.
Fixpoint get_varint_opt (n : Z) (fs : list wfield) : option Z :=
  match fs with
  | [] => None
  | f :: fs' =>
      match get_varint_opt n fs' with
      | Some x => Some x
      | None => match snd f with
                | WVarint z => if fst f =? n then Some z else None
                | WBytes _ => None
                end
      end
  end.
Definition get_bytes (n : Z) (fs : list wfield) : bytes := default [] (get_bytes_opt n fs).
Definition get_varint (n : Z) (fs : list wfield) : Z := default 0 (get_varint_opt n fs).

(** ** Messages and the runtime *)

(** A message type: its fields, how they are read back, its string fields, and
    the range of its values. *)
Class Message (M : Type) := {
  fields : M -> list wfield;
  unfields : list wfield -> option M;
  strings_of : M -> list bytes;
  msg_wf : M -> Prop;
  fields_wf m : msg_wf m -> Forall wfield_ok (fields m);
  unfields_fields m : msg_wf m -> unfields (fields m) = Some m
}.

Definition ascii_only (b : bytes) : Prop := Forall (fun x => bval x < 128) b.

Class ProtoRuntime := {
  Marshal {M} `{Message M} : M -> option bytes;
  Unmarshal {M} `{Message M} : bytes -> option M;
  Size {M} `{Message M} : M -> Z
}.

Class ProtoRuntimeOk (R : ProtoRuntime) : Prop := {
  marshal_ascii {M} `{Message M} (m : M) :
    Forall ascii_only (strings_of m) -> exists b, Marshal m = Some b;
  unmarshal_marshal {M} `{Message M} (m : M) b :
    msg_wf m -> Marshal m = Some b -> Unmarshal b = Some m;
  marshal_size {M} `{Message M} (m : M) b :
    Marshal m = Some b -> blen b = Size m;
  size_fields {M} `{Message M} (m : M) : Size m = wire_size (fields m)
}.

(** ** Sizes of varints *)

Lemma uvarint_len_pos z : 1 <= uvarint_len z.
Proof.
  unfold uvarint_len, uvarint. destruct (uvarint_go_cons 10 z) as (b & r & ->).
  rewrite blen_cons. pose proof (blen_nonneg r). lia.
Qed.

Lemma blen_uvarint_go f x : blen (uvarint_go f x) <= 1 + Z.of_nat f.
Proof.
  revert x. induction f as [|f IH]; intros x; [done|]. simpl uvarint_go.
  destruct (x <? 128); rewrite blen_cons; [rewrite blen_nil; lia|].
  specialize (IH (x / 128)). lia.
Qed.

Lemma blen_uvarint_go_bound f x k :
  0 <= x < 128 * 128 ^ Z.of_nat k -> blen (uvarint_go f x) <= 1 + Z.of_nat k.
Proof.
  revert x k. induction f as [|f IH]; intros x k Hx; [simpl; rewrite blen_cons, blen_nil; lia|].
  simpl uvarint_go. destruct (Z.ltb_spec x 128); rewrite blen_cons; [rewrite blen_nil; lia|].
  destruct k as [|k]; [simpl in Hx; lia|].
  rewrite Nat2Z.inj_succ, Z.pow_succ_r in Hx by lia.
  assert (Hd : 0 <= x / 128 < 128 * 128 ^ Z.of_nat k)
    by (split; [apply Z.div_pos; lia|apply Z.div_lt_upper_bound; lia]).
  specialize (IH _ _ Hd). lia.
Qed.

Lemma uvarint_len_bound z k :
  0 <= z < 128 * 128 ^ Z.of_nat k -> uvarint_len z <= 1 + Z.of_nat k.
Proof. apply blen_uvarint_go_bound. Qed.

Lemma uvarint_len_10 z : 0 <= z < 2 ^ 64 -> uvarint_len z <= 10.
Proof. intros. apply (uvarint_len_bound z 9). simpl. lia. Qed.

Lemma wire_size_app fs gs : wire_size (fs ++ gs) = wire_size fs + wire_size gs.
Proof. induction fs; simpl; lia. Qed.

Lemma wfield_size_nonneg f : 0 <= wfield_size f.
Proof.
  unfold wfield_size. destruct (snd f) as [z|b].
  - pose proof (uvarint_len_pos (fst f * 8)). pose proof (uvarint_len_pos z). lia.
  - pose proof (uvarint_len_pos (fst f * 8 + 2)).
    pose proof (uvarint_len_pos (blen b)). pose proof (blen_nonneg b). lia.
Qed.

(** ** The published encoding *)

Definition encode_field (f : wfield) : bytes :=
  match snd f with
  | WVarint z => uvarint (fst f * 8) ++ uvarint z
  | WBytes b => uvarint (fst f * 8 + 2) ++ uvarint (blen b) ++ b
  end.

Definition encode_fields (fs : list wfield) : bytes := concat (map encode_field fs).

Fixpoint uvarint_dec (fuel : nat) (b : bytes) : option (Z * bytes) :=
  match fuel, b with
  | S f, x :: r =>
      if bval x <? 128 then Some (bval x, r)
      else match uvarint_dec f r with
           | Some (z, r') => Some (bval x - 128 + 128 * z, r')
           | None => None
           end
  | _, _ => None
  end.

Definition decode_field (b : bytes) : option (wfield * bytes) :=
  match uvarint_dec 11 b with
  | Some (tag, r) =>
      if tag mod 8 =? 0 then
        match uvarint_dec 11 r with
        | Some (z, r') => Some ((tag / 8, WVarint z), r')
        | None => None
        end
      else if tag mod 8 =? 2 then
        match uvarint_dec 11 r with
        | Some (n, r') =>
            if n <=? blen r' then Some ((tag / 8, WBytes (btake n r')), bdrop n r')
            else None
        | None => None
        end
      else None
  | None => None
  end.

Fixpoint decode_fields (fuel : nat) (b : bytes) : option (list wfield) :=
  match b with
  | [] => Some []
  | _ => match fuel with
         | O => None
         | S f => match decode_field b with
                  | Some (x, r) => match decode_fields f r with
                                   | Some xs => Some (x :: xs)
                                   | None => None
                                   end
                  | None => None
                  end
         end
  end.

Lemma uvarint_dec_S f x r :
  uvarint_dec (S f) (x :: r) =
  if bval x <? 128 then Some (bval x, r)
  else match uvarint_dec f r with
       | Some (z, r') => Some (bval x - 128 + 128 * z, r')
       | None => None
       end.
Proof. done. Qed.

Lemma uvarint_dec_enc_go f x r :
  0 <= x < 128 * 128 ^ Z.of_nat f ->
  uvarint_dec (S f) (uvarint_go f x ++ r) = Some (x, r).
Proof.
  revert x. induction f as [|f IH]; intros x Hx.
  - simpl in *. rewrite bval_bof, Z.mod_small by lia.
    destruct (Z.ltb_spec x 128); [done|lia].
  - rewrite Nat2Z.inj_succ, Z.pow_succ_r in Hx by lia.
    cbn [uvarint_go]. destruct (Z.ltb_spec x 128) as [L|L].
    + simpl. rewrite bval_bof, Z.mod_small by lia.
      destruct (Z.ltb_spec x 128); [done|lia].
    + pose proof (Z.mod_pos_bound x 128). 
      rewrite <- app_comm_cons, uvarint_dec_S. rewrite bval_bof, Z.mod_small by lia.
      destruct (Z.ltb_spec (x mod 128 + 128) 128); [lia|].
      rewrite IH by (split; [apply Z.div_pos; lia|apply Z.div_lt_upper_bound; lia]).
      do 2 f_equal. rewrite (Z.div_mod x 128) at 3 by lia. lia.
Qed.

Lemma uvarint_dec_enc x r :
  0 <= x < 2 ^ 64 -> uvarint_dec 11 (uvarint x ++ r) = Some (x, r).
Proof. intros. apply uvarint_dec_enc_go. simpl. lia. Qed.

Lemma decode_encode_field f r :
  wfield_ok f -> decode_field (encode_field f ++ r) = Some (f, r).
Proof.
  destruct f as [n v]. intros [Hn Hv]. unfold decode_field, encode_field. cbn [fst snd] in *.
  destruct v as [z|b]; rewrite <- !app_assoc, uvarint_dec_enc by lia.
  - rewrite Z.mod_mul, Z.div_mul by lia. change (0 =? 0) with true. cbv iota. by rewrite uvarint_dec_enc.
  - replace ((n * 8 + 2) mod 8) with 2
      by (rewrite Z.add_comm, Z.mod_add by lia; done).
    replace ((n * 8 + 2) / 8) with n
      by (apply (Z.div_unique _ _ _ 2); lia).
    change (2 =? 0) with false. change (2 =? 2) with true. cbv iota.
    pose proof (blen_nonneg b).
    rewrite uvarint_dec_enc by lia. rewrite blen_app. pose proof (blen_nonneg r).
    destruct (Z.leb_spec (blen b) (blen b + blen r)); [|lia].
    by rewrite btake_app_exact, bdrop_app_exact.
Qed.

Lemma encode_field_cons f : exists x r, encode_field f = x :: r.
Proof.
  unfold encode_field. destruct (snd f);
    match goal with |- context [uvarint ?z ++ _] =>
      unfold uvarint at 1; destruct (uvarint_go_cons 10 z) as (x & r & ->) end;
    simpl; eauto.
Qed.

Lemma decode_encode_fields fs fuel :
  Forall wfield_ok fs -> (length fs <= fuel)%nat ->
  decode_fields fuel (encode_fields fs) = Some fs.
Proof.
  intros H. revert fuel. induction H as [|f fs Hf _ IH]; intros fuel Hl.
  - by destruct fuel.
  - destruct fuel as [|fuel]; [simpl in Hl; lia|]. unfold encode_fields. simpl.
    pose proof (decode_encode_field f (encode_fields fs) Hf) as Hd.
    destruct (encode_field_cons f) as (x & r & E). rewrite E in *. simpl in Hd |- *.
    fold (encode_fields fs). rewrite Hd, IH; [done|simpl in Hl; lia].
Qed.

Lemma length_encode_fields fs : (length fs <= length (encode_fields fs))%nat.
Proof.
  induction fs as [|f fs IH]; [done|]. unfold encode_fields in *. simpl.
  rewrite length_app. destruct (encode_field_cons f) as (x & r & ->). simpl. lia.
Qed.

Lemma blen_encode_fields fs : blen (encode_fields fs) = wire_size fs.
Proof.
  induction fs as [|f fs IH]; [done|]. unfold encode_fields in *. simpl.
  rewrite blen_app, IH. f_equal. unfold encode_field, wfield_size.
  destruct (snd f); go_len; unfold uvarint_len; lia.
Qed.

#[local] Instance wire_runtime : ProtoRuntime := {
  Marshal M _ m := Some (encode_fields (fields m));
  Unmarshal M _ b := match decode_fields (length b) b with
                     | Some fs => unfields fs
                     | None => None
                     end;
  Size M _ m := wire_size (fields m)
}.

#[export] Instance wire_runtime_ok : ProtoRuntimeOk wire_runtime.
Proof.
  split; intros M HM m; simpl.
  - eauto.
  - intros b Hwf [= <-]. rewrite decode_encode_fields.
    + by apply unfields_fields.
    + by apply fields_wf.
    + apply length_encode_fields.
  - intros b [= <-]. apply blen_encode_fields.
  - done.
Qed.
