(* ===== verification/Pb.v ===== *)
(** * The protocol's messages

    The messages of internal/box/box.proto and model.proto as the generated
    Go structs hold them, with the field numbers of the schema.  A nil and an
    empty [[]byte] field are the same proto3 value. *)

From S2P Require Import Prelude GoErr Wire.

(** Embedded timestamps ([google.protobuf.Timestamp]). *)
Record timestamp := Timestamp { ts_seconds : Z; ts_nanos : Z }.

Record SignedTransport := mkSignedTransport {
  st_Data : bytes; st_Signature : bytes; st_Metadata : bytes; st_Padding : bytes
}.

(** The [Route] enum is open in proto3: any int32 can arrive. *)
Record pb_Metadata := mkMetadata {
  md_ID : bytes; md_Timestamp : option timestamp; md_Sequence : Z; md_Route : Z
}.

Record Introduce := mkIntroduce {
  in_Name : bytes; in_PublicKey : bytes; in_AppVersion : bytes
}.

Record Handshake := mkHandshake {
  hs_Key : bytes; hs_Salt : bytes; hs_SessionKey : bytes
}.

Record pb_Peer := mkPbPeer {
  pp_Name : bytes; pp_PublicKey : bytes; pp_FirstSeen : option timestamp;
  pp_LastSeen : option timestamp; pp_AppVersion : bytes
}.

Record ResumeRequest := mkResumeRequest { rr_SessionID : bytes; rr_Token : bytes }.
Record ResumeAccept := mkResumeAccept { ra_Accepted : bool; ra_Reason : bytes }.

(** [wrapperspb.BytesValue], what [Bytes(b)] of kamune.go wraps. *)
Record BytesValue := mkBytesValue { bv_Value : bytes }.

(** [timestamppb.New(t)] and [AsTime]. *)
Definition timestamp_new (t : Z) : timestamp := Timestamp (t / Second) (t mod Second).
Definition as_time (ts : timestamp) : Z := ts_seconds ts * Second + ts_nanos ts.

Lemma as_time_new t : as_time (timestamp_new t) = t.
Proof.
  unfold as_time, timestamp_new. simpl. rewrite Z.mul_comm. symmetry. by apply Z.div_mod.
Qed.

(** ** Reading fields back *)

Lemma get_bytes_opt_app n fs gs :
  get_bytes_opt n (fs ++ gs) =
  match get_bytes_opt n gs with Some b => Some b | None => get_bytes_opt n fs end.
Proof.
  induction fs as [|f fs IH]; simpl; [by destruct (get_bytes_opt n gs)|].
  rewrite IH. by destruct (get_bytes_opt n gs).
Qed.

Lemma get_varint_opt_app n fs gs :
  get_varint_opt n (fs ++ gs) =
  match get_varint_opt n gs with Some b => Some b | None => get_varint_opt n fs end.
Proof.
  induction fs as [|f fs IH]; simpl; [by destruct (get_varint_opt n gs)|].
  rewrite IH. by destruct (get_varint_opt n gs).
Qed.

Lemma get_bytes_opt_bytes n k b :
  get_bytes_opt n (opt_bytes k b) =
  if k =? n then match b with [] => None | _ => Some b end else None.
Proof. destruct b; simpl; by destruct (k =? n). Qed.

Lemma get_bytes_opt_varint n k z : get_bytes_opt n (opt_varint k z) = None.
Proof. unfold opt_varint. by destruct (z =? 0). Qed.

Lemma get_varint_opt_bytes n k b : get_varint_opt n (opt_bytes k b) = None.
Proof. by destruct b. Qed.

Lemma get_varint_opt_varint n k z :
  get_varint_opt n (opt_varint k z) =
  if k =? n then if z =? 0 then None else Some z else None.
Proof. unfold opt_varint. destruct (z =? 0); simpl; by destruct (k =? n). Qed.

Create Rewrite HintDb wire.
#[export] Hint Rewrite get_bytes_opt_app get_varint_opt_app get_bytes_opt_bytes
  get_bytes_opt_varint get_varint_opt_bytes get_varint_opt_varint : wire.

Lemma option_id {A} (o : option A) :
  match o with Some b => Some b | None => None end = o.
Proof. by destruct o. Qed.

Lemma default_opt_bytes (b : bytes) :
  default [] (match b with [] => None | _ => Some b end) = b.
Proof. by destruct b. Qed.

Lemma default_opt_varint (z : Z) : default 0 (if z =? 0 then None else Some z) = z.
Proof. destruct (Z.eqb_spec z 0); simpl; congruence. Qed.

Lemma opt_bytes_ok n b :
  1 <= n < 2 ^ 29 -> blen b < 2 ^ 64 -> Forall wfield_ok (opt_bytes n b).
Proof.
  intros Hn Hb. destruct b; [constructor|]. apply Forall_singleton. by split.
Qed.

Lemma opt_varint_ok n z :
  1 <= n < 2 ^ 29 -> 0 <= z < 2 ^ 64 -> Forall wfield_ok (opt_varint n z).
Proof.
  intros Hn Hz. unfold opt_varint. destruct (z =? 0); [constructor|].
  apply Forall_singleton. by split.
Qed.

(** Decide a literal field-number comparison and read the field. *)
Ltac wire_get :=
  unfold get_bytes, get_varint; autorewrite with wire; simpl;
  repeat (rewrite default_opt_bytes || rewrite default_opt_varint);
  repeat match goal with
         | |- context [match ?b with _ => _ end] => is_var b; destruct b; simpl
         | |- context [?z =? 0] => destruct (Z.eqb_spec z 0); simpl
         end.

Ltac wire_ok :=
  repeat (apply Forall_app; split);
  first [apply opt_bytes_ok | apply opt_varint_ok | idtac]; try lia.

(** ** The schemas *)

(** Every length is far below the 64-bit range of a length prefix. *)
Definition short (b : bytes) : Prop := blen b < 2 ^ 62.

#[export] Program Instance SignedTransport_message : Message SignedTransport := {
  fields m := opt_bytes 1 (st_Data m) ++ opt_bytes 2 (st_Signature m)
              ++ opt_bytes 3 (st_Metadata m) ++ opt_bytes 4 (st_Padding m);
  unfields fs := Some (mkSignedTransport (get_bytes 1 fs) (get_bytes 2 fs)
                         (get_bytes 3 fs) (get_bytes 4 fs));
  strings_of m := [];
  msg_wf m := short (st_Data m) /\ short (st_Signature m) /\
              short (st_Metadata m) /\ short (st_Padding m)
}.
Next Obligation. intros m (?&?&?&?); unfold short in *; wire_ok. Qed.
Next Obligation. intros [a b c d] _; simpl. do 2 f_equal; wire_get; done. Qed.

#[export] Program Instance Introduce_message : Message Introduce := {
  fields m := opt_bytes 1 (in_Name m) ++ opt_bytes 2 (in_PublicKey m)
              ++ opt_bytes 3 (in_AppVersion m);
  unfields fs := Some (mkIntroduce (get_bytes 1 fs) (get_bytes 2 fs) (get_bytes 3 fs));
  strings_of m := [in_Name m; in_AppVersion m];
  msg_wf m := short (in_Name m) /\ short (in_PublicKey m) /\ short (in_AppVersion m)
}.
Next Obligation. intros m (?&?&?); unfold short in *; wire_ok. Qed.
Next Obligation. intros [a b c] _; simpl. do 2 f_equal; wire_get; done. Qed.

#[export] Program Instance Handshake_message : Message Handshake := {
  fields m := opt_bytes 1 (hs_Key m) ++ opt_bytes 2 (hs_Salt m)
              ++ opt_bytes 3 (hs_SessionKey m);
  unfields fs := Some (mkHandshake (get_bytes 1 fs) (get_bytes 2 fs) (get_bytes 3 fs));
  strings_of m := [hs_SessionKey m];
  msg_wf m := short (hs_Key m) /\ short (hs_Salt m) /\ short (hs_SessionKey m)
}.
Next Obligation. intros m (?&?&?); unfold short in *; wire_ok. Qed.
Next Obligation. intros [a b c] _; simpl. do 2 f_equal; wire_get; done. Qed.

#[export] Program Instance ResumeRequest_message : Message ResumeRequest := {
  fields m := opt_bytes 1 (rr_SessionID m) ++ opt_bytes 2 (rr_Token m);
  unfields fs := Some (mkResumeRequest (get_bytes 1 fs) (get_bytes 2 fs));
  strings_of m := [rr_SessionID m];
  msg_wf m := short (rr_SessionID m) /\ short (rr_Token m)
}.
Next Obligation. intros m (?&?); unfold short in *; wire_ok. Qed.
Next Obligation. intros [a b] _; simpl. do 2 f_equal; wire_get; done. Qed.

#[export] Program Instance ResumeAccept_message : Message ResumeAccept := {
  fields m := opt_varint 1 (if ra_Accepted m then 1 else 0) ++ opt_bytes 2 (ra_Reason m);
  unfields fs := Some (mkResumeAccept (negb (get_varint 1 fs =? 0)) (get_bytes 2 fs));
  strings_of m := [ra_Reason m];
  msg_wf m := short (ra_Reason m)
}.
Next Obligation. intros m ?; unfold short in *; wire_ok. destruct (ra_Accepted m); lia. Qed.
Next Obligation. by intros [[] [|x b]] _. Qed.

#[export] Program Instance BytesValue_message : Message BytesValue := {
  fields m := opt_bytes 1 (bv_Value m);
  unfields fs := Some (mkBytesValue (get_bytes 1 fs));
  strings_of m := [];
  msg_wf m := short (bv_Value m)
}.
Next Obligation. intros m ?; unfold short in *; wire_ok. Qed.
Next Obligation. intros [a] _; simpl. do 2 f_equal; wire_get; done. Qed.

(** int64 and int32 values travel as 64-bit two's complement. *)
Definition timestamp_fields (t : timestamp) : list wfield :=
  opt_varint 1 (u64 (ts_seconds t)) ++ opt_varint 2 (u64 (ts_nanos t)).

Definition timestamp_unfields (fs : list wfield) : timestamp :=
  Timestamp (i64 (get_varint 1 fs)) (i64 (get_varint 2 fs)).

Definition timestamp_wf (t : timestamp) : Prop :=
  - 2 ^ 63 <= ts_seconds t < 2 ^ 63 /\ 0 <= ts_nanos t < Second.

Definition opt_timestamp (n : Z) (t : option timestamp) : list wfield :=
  match t with Some t => [(n, WBytes (encode_fields (timestamp_fields t)))] | None => [] end.

Definition get_timestamp (n : Z) (fs : list wfield) : option timestamp :=
  match get_bytes_opt n fs with
  | Some b => timestamp_unfields <$> decode_fields (length b) b
  | None => None
  end.

Definition opt_timestamp_wf (t : option timestamp) : Prop :=
  match t with Some t => timestamp_wf t | None => True end.

Lemma u64_range z : 0 <= u64 z < 2 ^ 64.
Proof. apply Z.mod_pos_bound. lia. Qed.

Lemma timestamp_fields_ok t : Forall wfield_ok (timestamp_fields t).
Proof. unfold timestamp_fields. wire_ok; apply u64_range. Qed.

Lemma timestamp_roundtrip t :
  timestamp_wf t -> timestamp_unfields (timestamp_fields t) = t.
Proof.
  destruct t as [s n]. unfold timestamp_unfields, timestamp_fields, timestamp_wf.
  cbn [ts_seconds ts_nanos]. intros [Hs Hn]. unfold get_varint. autorewrite with wire.
  cbn [Z.eqb Pos.eqb]. f_equal.
  - rewrite default_opt_varint. by apply i64_u64.
  - destruct (Z.eqb_spec (u64 n) 0) as [E|E]; simpl.
    + unfold u64 in E. rewrite Z.mod_small in E by (unfold Second in Hn; lia). by subst.
    + apply i64_u64. unfold Second in Hn. lia.
Qed.

(** A timestamp encodes to at most 22 bytes. *)
Lemma timestamp_size t : wire_size (timestamp_fields t) <= 22.
Proof.
  unfold timestamp_fields. rewrite wire_size_app. unfold opt_varint.
  pose proof (uvarint_len_10 _ (u64_range (ts_seconds t))).
  pose proof (uvarint_len_10 _ (u64_range (ts_nanos t))).
  assert (uvarint_len (1 * 8) = 1 /\ uvarint_len (2 * 8) = 1) as [E1 E2] by done.
  destruct (_ =? 0), (_ =? 0); simpl; unfold wfield_size; cbn [fst snd];
    rewrite ?E1, ?E2; lia.
Qed.

Lemma opt_timestamp_ok n t : 1 <= n < 2 ^ 29 -> Forall wfield_ok (opt_timestamp n t).
Proof.
  intros Hn. destruct t as [t|]; [|constructor]. apply Forall_singleton. split; [done|].
  cbn [snd]. rewrite blen_encode_fields. pose proof (timestamp_size t). lia.
Qed.

Lemma get_bytes_opt_timestamp n k t :
  get_bytes_opt n (opt_timestamp k t) =
  if k =? n then (fun t => encode_fields (timestamp_fields t)) <$> t else None.
Proof. destruct t; simpl; by destruct (k =? n). Qed.

Lemma get_varint_opt_timestamp n k t : get_varint_opt n (opt_timestamp k t) = None.
Proof. by destruct t. Qed.

#[export] Hint Rewrite get_bytes_opt_timestamp get_varint_opt_timestamp : wire.

Lemma get_timestamp_opt (t : option timestamp) :
  opt_timestamp_wf t ->
  match (fun t => encode_fields (timestamp_fields t)) <$> t with
  | Some b => timestamp_unfields <$> decode_fields (length b) b
  | None => None
  end = t.
Proof.
  destruct t as [t|]; [|done]. simpl. intros Hwf.
  rewrite decode_encode_fields; [|apply timestamp_fields_ok|apply length_encode_fields].
  simpl. by rewrite timestamp_roundtrip.
Qed.

#[export] Program Instance Metadata_message : Message pb_Metadata := {
  fields m := opt_bytes 1 (md_ID m) ++ opt_timestamp 2 (md_Timestamp m)
              ++ opt_varint 3 (md_Sequence m) ++ opt_varint 4 (u64 (md_Route m));
  unfields fs := Some (mkMetadata (get_bytes 1 fs) (get_timestamp 2 fs)
                         (get_varint 3 fs) (i64 (get_varint 4 fs)));
  strings_of m := [md_ID m];
  msg_wf m := short (md_ID m) /\ opt_timestamp_wf (md_Timestamp m) /\
              0 <= md_Sequence m < 2 ^ 64 /\ - 2 ^ 31 <= md_Route m < 2 ^ 31
}.
Next Obligation.
  intros m (?&?&?&?); unfold short in *; wire_ok; [by apply opt_timestamp_ok|..].
  apply u64_range.
Qed.
Next Obligation.
  intros [i t s r] (?&?&?&Hr); cbn [md_ID md_Timestamp md_Sequence md_Route] in *.
  unfold get_timestamp, get_bytes, get_varint. autorewrite with wire.
  cbn [Z.eqb Pos.eqb]. do 2 f_equal.
  - by destruct i.
  - rewrite option_id. by apply get_timestamp_opt.
  - rewrite !option_id. apply default_opt_varint.
  - rewrite ?option_id.
    match goal with |- i64 ?a = _ => replace a with (u64 r); [apply i64_u64; lia|] end.
    destruct (Z.eqb_spec (u64 r) 0); simpl; congruence.
Qed.

#[export] Program Instance Peer_message : Message pb_Peer := {
  fields m := opt_bytes 1 (pp_Name m) ++ opt_bytes 2 (pp_PublicKey m)
              ++ opt_timestamp 3 (pp_FirstSeen m) ++ opt_timestamp 4 (pp_LastSeen m)
              ++ opt_bytes 5 (pp_AppVersion m);
  unfields fs := Some (mkPbPeer (get_bytes 1 fs) (get_bytes 2 fs)
                         (get_timestamp 3 fs) (get_timestamp 4 fs) (get_bytes 5 fs));
  strings_of m := [pp_Name m; pp_AppVersion m];
  msg_wf m := short (pp_Name m) /\ short (pp_PublicKey m) /\ short (pp_AppVersion m) /\
              opt_timestamp_wf (pp_FirstSeen m) /\ opt_timestamp_wf (pp_LastSeen m)
}.
Next Obligation.
  intros m (?&?&?&?&?); unfold short in *; wire_ok; by apply opt_timestamp_ok.
Qed.
Next Obligation.
  intros [n k f l v] (?&?&?&?&?);
    cbn [pp_Name pp_PublicKey pp_FirstSeen pp_LastSeen pp_AppVersion] in *.
  unfold get_timestamp, get_bytes. autorewrite with wire. cbn [Z.eqb Pos.eqb].
  do 2 f_equal; rewrite ?option_id; try by apply get_timestamp_opt.
  all: first [by destruct n | by destruct k | by destruct v].
Qed.

Lemma timestamp_new_wf t :
  - 2 ^ 63 * Second <= t < 2 ^ 63 * Second -> timestamp_wf (timestamp_new t).
Proof.
  intros [Hl Hh]. unfold timestamp_wf, timestamp_new; simpl ts_seconds; simpl ts_nanos.
  split; [|apply Z.mod_pos_bound; unfold Second; lia].
  split; [apply Z.div_le_lower_bound|apply Z.div_lt_upper_bound]; unfold Second in *; lia.
Qed.
