(* ===== verification/Strconv.v ===== *)
(** * Decimal numbers and splitting: the parts of strconv and strings in use

    [strconv.Itoa], [strconv.Atoi] (64-bit [int]) and [strings.SplitN] /
    [strings.Split] on a one-byte separator, and hexadecimal, as the standard
    library defines them. *)

From S2P Require Import Prelude GoErr.

Definition MaxInt64 : Z := 2 ^ 63 - 1.
Definition MinInt64 : Z := - 2 ^ 63.

Definition digit (d : Z) : byte := bof (48 + d).
Definition is_digit (b : byte) : bool := (48 <=? bval b) && (bval b <=? 57).

(** ** Itoa *)

(** Digits of [n], most significant first; a number below [2^64] has at most
    twenty, so fuel [20] is enough for every [int]. *)
Fixpoint itoa_digits (fuel : nat) (n : Z) (acc : bytes) : bytes :=
  match fuel with
  | O => acc
  | S f => if n <? 10 then digit n :: acc
           else itoa_digits f (n / 10) (digit (n mod 10) :: acc)
  end.

Definition Itoa (n : Z) : bytes :=
  if n <? 0 then str "-" ++ itoa_digits 20 (- n) [] else itoa_digits 20 n [].

(** ** Atoi *)

(** The value of a nonempty run of digits. *)
Fixpoint digits_val (b : bytes) (acc : Z) : option Z :=
  match b with
  | [] => Some acc
  | x :: r => if is_digit x then digits_val r (acc * 10 + (bval x - 48)) else None
  end.

Definition parse_digits (b : bytes) : option Z :=
  match b with [] => None | _ => digits_val b 0 end.

(** An optional sign, decimal digits, and the range of [int]. *)
Definition Atoi (b : bytes) : option Z :=
  let v := match b with
           | x :: r =>
               if bval x =? 45 then Z.opp <$> parse_digits r
               else if bval x =? 43 then parse_digits r
               else parse_digits b
           | [] => None
           end in
  match v with
  | Some z => if (MinInt64 <=? z) && (z <=? MaxInt64) then Some z else None
  | None => None
  end.

(** ** Split *)

Fixpoint break_at (sep : byte) (b : bytes) : bytes * option bytes :=
  match b with
  | [] => ([], None)
  | x :: r => if bool_decide (x = sep) then ([], Some r)
              else let '(h, t) := break_at sep r in (x :: h, t)
  end.

(** [strings.SplitN(b, sep, n)] for [n >= 1]: at most [n] parts, the last one
    holding the unsplit rest. *)
Fixpoint SplitN (sep : byte) (b : bytes) (n : nat) : list bytes :=
  match n with
  | O => []
  | S O => [b]
  | S m => match break_at sep b with
           | (h, None) => [h]
           | (h, Some r) => h :: SplitN sep r m
           end
  end.

(** [strings.Split(b, sep)] and [bytes.Split]. *)
Definition Split (sep : byte) (b : bytes) : list bytes := SplitN sep b (S (length b)).

(** ** Hexadecimal *)

(** [fmt.Sprintf("%x", b)] and [hex.Encode]. *)
Definition hex_digit (z : Z) : byte := bof (if z <? 10 then 48 + z else 87 + z).
Definition hex (b : bytes) : bytes :=
  concat (map (fun x => [hex_digit (bval x / 16); hex_digit (bval x mod 16)]) b).

(** ** Lemmas *)

Lemma bval_digit d : 0 <= d < 10 -> bval (digit d) = 48 + d.
Proof. intros. unfold digit. rewrite bval_bof. apply Z.mod_small. lia. Qed.

Lemma is_digit_digit d : 0 <= d < 10 -> is_digit (digit d) = true.
Proof. intros. unfold is_digit. rewrite bval_digit by lia. apply andb_true_intro. lia. Qed.

Lemma digits_val_itoa f n acc k :
  0 <= n < 10 ^ Z.of_nat (S f) ->
  digits_val (itoa_digits (S f) n acc) k =
  digits_val acc (k * 10 ^ blen (itoa_digits (S f) n []) + n).
Proof.
  revert n acc k. induction f as [|f IH]; intros n acc k Hn.
  - simpl in Hn. simpl itoa_digits. destruct (Z.ltb_spec n 10); [|lia].
    simpl. rewrite is_digit_digit, bval_digit by lia. f_equal. unfold blen; simpl. lia.
  - rewrite Nat2Z.inj_succ, Z.pow_succ_r in Hn by lia.
    remember (S f) as f1. cbn [itoa_digits]. destruct (Z.ltb_spec n 10) as [L|L].
    + simpl. rewrite is_digit_digit, bval_digit by lia. f_equal. unfold blen; simpl. lia.
    + subst f1. pose proof (Z.mod_pos_bound n 10).
      assert (Hd : 0 <= n / 10 < 10 ^ Z.of_nat (S f))
        by (split; [apply Z.div_pos; lia|apply Z.div_lt_upper_bound; lia]).
      rewrite IH by done. cbn [digits_val].
      rewrite is_digit_digit, bval_digit by lia. f_equal.
      assert (Happ : forall g m a, itoa_digits g m a = itoa_digits g m [] ++ a).
      { clear. induction g as [|g IH]; intros m a; [done|]. cbn [itoa_digits].
        destruct (m <? 10); [done|]. rewrite IH, (IH _ [digit _]), <- app_assoc. done. }
      rewrite (Happ (S f) (n / 10) [digit (n mod 10)]), blen_app, blen_cons, blen_nil.
      rewrite Z.pow_add_r by (pose proof (blen_nonneg (itoa_digits (S f) (n / 10) [])); lia).
      rewrite (Z.div_mod n 10) at 5 by lia. lia.
Qed.

Lemma itoa_digits_head f n acc :
  0 <= n -> (0 < f)%nat -> exists d r, itoa_digits f n acc = digit d :: r /\ 0 <= d < 10.
Proof.
  intros Hn Hf. destruct f as [|f]; [lia|]. clear Hf. revert n acc Hn.
  induction f as [|f IH]; intros n acc Hn; cbn [itoa_digits];
    destruct (Z.ltb_spec n 10); pose proof (Z.mod_pos_bound n 10); eauto with lia.
  destruct (IH (n / 10) (digit (n mod 10) :: acc)) as (d & r & E & Hd);
    [apply Z.div_pos; lia|]. eauto.
Qed.

Lemma parse_digits_itoa n :
  0 <= n < 10 ^ 20 -> parse_digits (itoa_digits 20 n []) = Some n.
Proof.
  intros Hn. destruct (itoa_digits_head 20 n []) as (d & r & E & _); [lia..|].
  pose proof (digits_val_itoa 19 n [] 0 ltac:(simpl; lia)) as H.
  rewrite Z.mul_0_l in H. unfold parse_digits. rewrite E in *. exact H.
Qed.

(** Every [int] prints to text that parses back to it. *)
Lemma Atoi_Itoa n : MinInt64 <= n <= MaxInt64 -> Atoi (Itoa n) = Some n.
Proof.
  intros Hn. unfold Itoa. destruct (Z.ltb_spec n 0) as [L|L].
  - change (str "-") with [Byte.x2d]. unfold Atoi. cbn [app].
    change (bval Byte.x2d =? 45) with true. cbv iota.
    rewrite parse_digits_itoa by (unfold MinInt64, MaxInt64 in *; lia). simpl.
    rewrite Z.opp_involutive.
    destruct ((MinInt64 <=? n) && (n <=? MaxInt64)) eqn:E; [done|]. lia.
  - destruct (itoa_digits_head 20 n []) as (d & r & E & Hd); [lia..|].
    pose proof (parse_digits_itoa n ltac:(unfold MaxInt64 in *; lia)) as H.
    unfold Atoi. rewrite E in *.
    rewrite bval_digit by lia.
    destruct (Z.eqb_spec (48 + d) 45); [lia|]. destruct (Z.eqb_spec (48 + d) 43); [lia|].
    rewrite H. destruct ((MinInt64 <=? n) && (n <=? MaxInt64)) eqn:E'; [done|]. lia.
Qed.

Lemma Atoi_range b z : Atoi b = Some z -> MinInt64 <= z <= MaxInt64.
Proof.
  unfold Atoi. intros H. repeat (dcase_in H; try done); simplify_eq; lia.
Qed.

Lemma break_at_app sep h r :
  sep ∉ h -> break_at sep (h ++ sep :: r) = (h, Some r).
Proof.
  induction h as [|x h IH]; intros Hn; simpl.
  - by rewrite bool_decide_eq_true_2.
  - rewrite bool_decide_eq_false_2 by set_solver. by rewrite IH by set_solver.
Qed.

Lemma break_at_none sep h : sep ∉ h -> break_at sep h = (h, None).
Proof.
  induction h as [|x h IH]; intros Hn; simpl; [done|].
  rewrite bool_decide_eq_false_2 by set_solver. by rewrite IH by set_solver.
Qed.

Lemma break_at_some sep b h r :
  break_at sep b = (h, Some r) -> b = h ++ sep :: r /\ sep ∉ h.
Proof.
  revert h. induction b as [|x b IH]; intros h H; simpl in H; [done|].
  case_bool_decide as E.
  - injection H as <- <-. subst. split; [done|]. set_solver.
  - destruct (break_at sep b) as [h' t] eqn:Eb. injection H as <- ->.
    destruct (IH h') as [-> Hn]; [done|]. split; [done|]. set_solver.
Qed.

Lemma itoa_no_byte f n acc x :
  0 <= n -> is_digit x = false -> x ∉ acc -> x ∉ itoa_digits f n acc.
Proof.
  intros Hn Hx. revert n acc Hn. induction f as [|f IH]; intros n acc Hn Ha; [done|].
  cbn [itoa_digits]. pose proof (Z.mod_pos_bound n 10).
  assert (Hd : forall d, 0 <= d < 10 -> x <> digit d).
  { intros d Hd ->. by rewrite is_digit_digit in Hx. }
  destruct (Z.ltb_spec n 10).
  - specialize (Hd n). set_solver by lia.
  - apply IH; [apply Z.div_pos; lia|]. specialize (Hd (n mod 10)). set_solver by lia.
Qed.

Lemma Itoa_no_dot n : Byte.x2e ∉ Itoa n.
Proof.
  unfold Itoa. destruct (Z.ltb_spec n 0).
  - apply not_elem_of_app; split; [by apply (bool_decide_unpack _)|].
    apply itoa_no_byte; [lia|done|set_solver].
  - apply itoa_no_byte; [lia|done|set_solver].
Qed.

Lemma hex_digit_inj a b : 0 <= a < 16 -> 0 <= b < 16 -> hex_digit a = hex_digit b -> a = b.
Proof.
  intros Ha Hb E. unfold hex_digit in E. destruct (Z.ltb_spec a 10), (Z.ltb_spec b 10); apply bof_inj in E; lia.
Qed.

Lemma hex_inj a b : hex a = hex b -> a = b.
Proof.
  revert b. induction a as [|x a IH]; intros [|y b]; try done. unfold hex in *. cbn [map concat app].
  intros E. injection E as E1 E2 E3. f_equal; [|by apply IH].
  pose proof (bval_range x). pose proof (bval_range y).
  pose proof (Z.mod_pos_bound (bval x) 16). pose proof (Z.mod_pos_bound (bval y) 16).
  apply hex_digit_inj in E1, E2; try lia;
    try (split; [apply Z.div_pos; lia|apply Z.div_lt_upper_bound; lia]).
  apply bval_inj. rewrite (Z.div_mod (bval x) 16), (Z.div_mod (bval y) 16) by lia. lia.
Qed.
