(* ===== verification/TimeFormat.v ===== *)
(** * Dates, durations and clocks: the parts of package time in use

    [Time.Format] for the layouts of the applications, [Duration.String] of whole
    seconds, and the clocks of internal/clock.  The time zone is an offset from
    UTC in seconds, an input. *)

From S2P Require Import Prelude GoErr Strconv.

(** ** The civil calendar *)

(** The proleptic Gregorian date of a day counted from 1970-01-01.  Years begin in
    March, so that the leap day is the last of its year, and 400 years ([era]) are
    146097 days. *)
Definition civil_of_days (days : Z) : Z * Z * Z :=
  let z := days + 719468 in
  let era := z / 146097 in
  let doe := z mod 146097 in
  let yoe := (doe - doe / 1460 + doe / 36524 - doe / 146096) / 365 in
  let doy := doe - (365 * yoe + yoe / 4 - yoe / 100) in
  let mp := (5 * doy + 2) / 153 in
  let d := doy - (153 * mp + 2) / 5 + 1 in
  let m := if mp <? 10 then mp + 3 else mp - 9 in
  (yoe + era * 400 + (if m <=? 2 then 1 else 0), m, d).

Definition days_of_civil (y m d : Z) : Z :=
  let y := if m <=? 2 then y - 1 else y in
  let era := y / 400 in
  let yoe := y mod 400 in
  let doy := (153 * (if 2 <? m then m - 3 else m + 9) + 2) / 5 + d - 1 in
  era * 146097 + (yoe * 365 + yoe / 4 - yoe / 100 + doy) - 719468.

(** The year of an era that a day belongs to: every day of an era is looked at. *)
Definition year_of_era_ok (doe : Z) : bool :=
  let yoe := (doe - doe / 1460 + doe / 36524 - doe / 146096) / 365 in
  let doy := doe - (365 * yoe + yoe / 4 - yoe / 100) in
  (0 <=? yoe) && (yoe <? 400) && (0 <=? doy) && (doy <=? 365).

Fixpoint all_from (ok : Z -> bool) (n : nat) (z : Z) : bool :=
  match n with O => true | S n => ok z && all_from ok n (z + 1) end.

Lemma all_from_spec ok n z i : all_from ok n z = true -> z <= i < z + Z.of_nat n -> ok i = true.
Proof.
  revert z. induction n as [|n IH]; intros z Ha Hi; [lia|]. cbn [all_from] in Ha.
  apply andb_true_iff in Ha as [Hz Ha]. destruct (decide (i = z)) as [->|]; [done|]. apply (IH _ Ha). lia.
Qed.

Lemma year_of_era doe :
  0 <= doe < 146097 ->
  let yoe := (doe - doe / 1460 + doe / 36524 - doe / 146096) / 365 in
  0 <= yoe < 400 /\ 0 <= doe - (365 * yoe + yoe / 4 - yoe / 100) <= 365.
Proof.
  intros Hd. assert (Hall : all_from year_of_era_ok (Z.to_nat 146097) 0 = true) by (vm_compute; reflexivity).
  assert (Hok := all_from_spec _ _ _ doe Hall ltac:(lia)). clear Hall. revert Hok. unfold year_of_era_ok. cbv zeta.
  rewrite !andb_true_iff, !Z.leb_le, Z.ltb_lt. intros [[[? ?] ?] ?]. done.
Qed.

(** The month, counted from March, and the day of a month. *)
Definition month_of_year_ok (doy : Z) : bool :=
  let mp := (5 * doy + 2) / 153 in
  let d := doy - (153 * mp + 2) / 5 + 1 in
  (0 <=? mp) && (mp <=? 11) && (1 <=? d) && (d <=? 31).

Lemma month_of_year doy :
  0 <= doy <= 365 -> 0 <= (5 * doy + 2) / 153 <= 11 /\ 1 <= doy - (153 * ((5 * doy + 2) / 153) + 2) / 5 + 1 <= 31.
Proof.
  intros Hd. assert (Hall : all_from month_of_year_ok 366 0 = true) by (vm_compute; reflexivity).
  assert (Hok := all_from_spec _ _ _ doy Hall ltac:(lia)). clear Hall. revert Hok. unfold month_of_year_ok. cbv zeta.
  rewrite !andb_true_iff, !Z.leb_le. intros [[[? ?] ?] ?]. done.
Qed.

Lemma days_civil_roundtrip days :
  let '(y, m, d) := civil_of_days days in
  days_of_civil y m d = days /\ 1 <= m <= 12 /\ 1 <= d <= 31.
Proof.
  unfold civil_of_days. set (z := days + 719468).
  pose proof (Z.div_mod z 146097 ltac:(lia)) as Hz. pose proof (Z.mod_pos_bound z 146097 ltac:(lia)) as Hb.
  set (era := z / 146097) in *. set (doe := z mod 146097) in *.
  pose proof (year_of_era doe Hb) as Hyd. cbv zeta in Hyd |- *.
  set (yoe := (doe - doe / 1460 + doe / 36524 - doe / 146096) / 365) in *.
  set (doy := doe - (365 * yoe + yoe / 4 - yoe / 100)) in *. destruct Hyd as [Hy Hd]. set (mp := (5 * doy + 2) / 153).
  destruct (month_of_year doy Hd) as [Hmp Hday]. fold mp in Hmp, Hday. clearbody mp. clear Hd.
  assert (Hm : 1 <= (if mp <? 10 then mp + 3 else mp - 9) <= 12) by (destruct (Z.ltb_spec mp 10); lia).
  split; [|done]. unfold days_of_civil.
  clearbody yoe era doe. revert Hm. set (m := if mp <? 10 then mp + 3 else mp - 9). intros Hm.
  assert (Hback : (if 2 <? m then m - 3 else m + 9) = mp).
  { unfold m. destruct (Z.ltb_spec mp 10).
    - destruct (Z.ltb_spec 2 (mp + 3)); lia.
    - destruct (Z.ltb_spec 2 (mp - 9)); lia. }
  assert (Hyear : (if m <=? 2 then yoe + era * 400 + (if m <=? 2 then 1 else 0) - 1
                   else yoe + era * 400 + (if m <=? 2 then 1 else 0)) = yoe + era * 400)
    by (destruct (m <=? 2); lia).
  rewrite Hback, Hyear, Z.div_add, Z.mod_add, Z.div_small, Z.mod_small by lia. unfold doy, z in *. lia.
Qed.

(** ** Layouts *)

(** Digits of [n], at least [width] of them. *)
Definition pad (width : nat) (n : Z) : bytes :=
  let d := Itoa n in replicate (width - length d) (digit 0) ++ d.

Record clock_time := mkClock { ct_year : Z; ct_month : Z; ct_day : Z; ct_hour : Z; ct_min : Z; ct_sec : Z }.

Definition local_time (zone : Z) (t : Z) : clock_time :=
  let secs := t / Second + zone in
  let '(y, m, d) := civil_of_days (secs / 86400) in
  let s := secs mod 86400 in
  mkClock y m d (s / 3600) (s / 60 mod 60) (s mod 60).

(** "2006-01-02 15:04:05" *)
Definition DateTime (zone t : Z) : bytes :=
  let c := local_time zone t in
  pad 4 (ct_year c) ++ str "-" ++ pad 2 (ct_month c) ++ str "-" ++ pad 2 (ct_day c) ++ str " " ++
  pad 2 (ct_hour c) ++ str ":" ++ pad 2 (ct_min c) ++ str ":" ++ pad 2 (ct_sec c).

(** "2006-01-02T15:04:05Z07:00" *)
Definition RFC3339 (zone t : Z) : bytes :=
  let c := local_time zone t in
  pad 4 (ct_year c) ++ str "-" ++ pad 2 (ct_month c) ++ str "-" ++ pad 2 (ct_day c) ++ str "T" ++
  pad 2 (ct_hour c) ++ str ":" ++ pad 2 (ct_min c) ++ str ":" ++ pad 2 (ct_sec c) ++
  (if zone =? 0 then str "Z"
   else (if zone <? 0 then str "-" else str "+") ++ pad 2 (Z.abs zone / 3600) ++ str ":" ++ pad 2 (Z.abs zone / 60 mod 60)).

(** "2006-01-02_150405" *)
Definition file_stamp (zone t : Z) : bytes :=
  let c := local_time zone t in
  pad 4 (ct_year c) ++ str "-" ++ pad 2 (ct_month c) ++ str "-" ++ pad 2 (ct_day c) ++ str "_" ++
  pad 2 (ct_hour c) ++ pad 2 (ct_min c) ++ pad 2 (ct_sec c).

(** [d.Round(time.Second)] of a positive duration: half a second is rounded up. *)
Definition round_second (d : Z) : Z := (d + Second / 2) / Second * Second.

(** [d.String()] of a number of whole seconds. *)
Definition duration_String (d : Z) : bytes :=
  let s := d / Second in
  (if 3600 <=? s then Itoa (s / 3600) ++ str "h" else []) ++
  (if 60 <=? s then Itoa (s / 60 mod 60) ++ str "m" else []) ++ Itoa (s mod 60) ++ str "s".

(** ** internal/clock *)

Class Clock (C : Type) := { Now : C -> Z }.

Record Fake := NewFake { fake_now : Z }.
#[global] Instance fake_Clock : Clock Fake := { Now := fake_now }.
Definition fake_Set (t : Z) (f : Fake) : Fake := NewFake t.
Definition fake_Advance (d : Z) (f : Fake) : Fake := NewFake (fake_now f + d).

Example DateTime_sample :
  DateTime 3600 (1709210096 * Second) = str "2024-02-29 13:34:56" /\
  RFC3339 (-12600) 0 = str "1969-12-31T20:30:00-03:30" /\ duration_String (round_second (3723 * Second + 600000000)) = str "1h2m4s".
Proof. vm_compute. done. Qed.
