(* ===== verification/Encoding.v ===== *)
(** * encoding/base64 and encoding/hex

    The encoders and decoders of the Go standard library that the applications
    use to pass keys, tokens and messages as text: [base64.StdEncoding],
    [base64.RawURLEncoding] and [hex.DecodeString] ([hex] itself is in
    [Strconv]). *)

From S2P Require Import Prelude GoErr Strconv.

(** ** Base64 *)

(** An encoding: the characters of 62 and 63, and whether [=] pads the last
    quantum. *)
Record Encoding := mkEncoding { en_62 : byte; en_63 : byte; en_pad : bool }.

Definition StdEncoding : Encoding := mkEncoding Byte.x2b Byte.x2f true.
Definition RawURLEncoding : Encoding := mkEncoding Byte.x2d Byte.x5f false.

Definition equals : byte := Byte.x3d.

Definition sextet (e : Encoding) (n : Z) : byte :=
  if n <? 26 then bof (65 + n)
  else if n <? 52 then bof (71 + n)
  else if n <? 62 then bof (n - 4)
  else if n =? 62 then en_62 e else en_63 e.

(** The decode map. *)
Definition unsextet (e : Encoding) (b : byte) : option Z :=
  let c := bval b in
  if (65 <=? c) && (c <=? 90) then Some (c - 65)
  else if (97 <=? c) && (c <=? 122) then Some (c - 71)
  else if (48 <=? c) && (c <=? 57) then Some (c + 4)
  else if bool_decide (b = en_62 e) then Some 62
  else if bool_decide (b = en_63 e) then Some 63
  else None.

Definition padding (e : Encoding) (n : nat) : bytes := if en_pad e then replicate n equals else [].

Fixpoint EncodeToString (e : Encoding) (b : bytes) : bytes :=
  match b with
  | [] => []
  | [x] => let v := bval x * 65536 in
      [sextet e (v / 262144); sextet e (v / 4096 mod 64)] ++ padding e 2
  | [x; y] => let v := bval x * 65536 + bval y * 256 in
      [sextet e (v / 262144); sextet e (v / 4096 mod 64); sextet e (v / 64 mod 64)] ++ padding e 1
  | x :: y :: z :: r => let v := bval x * 65536 + bval y * 256 + bval z in
      [sextet e (v / 262144); sextet e (v / 4096 mod 64); sextet e (v / 64 mod 64); sextet e (v mod 64)]
      ++ EncodeToString e r
  end.

(** Quanta of four characters; the last one may be short without padding, or
    padded.  Bits that do not fill a byte are ignored. *)
Fixpoint decode_quanta (e : Encoding) (s : bytes) : option bytes :=
  match s with
  | [] => Some []
  | [_] => None
  | a :: b :: s =>
      match unsextet e a, unsextet e b with
      | Some va, Some vb =>
          let v := va * 262144 + vb * 4096 in
          match s with
          | [] => if en_pad e then None else Some [bof (v / 65536)]
          | c :: s =>
              match unsextet e c with
              | None =>
                  if en_pad e && bool_decide (c = equals) && bool_decide (s = [equals])
                  then Some [bof (v / 65536)] else None
              | Some vc =>
                  let v := v + vc * 64 in
                  match s with
                  | [] => if en_pad e then None else Some [bof (v / 65536); bof (v / 256)]
                  | d :: s =>
                      match unsextet e d with
                      | None =>
                          if en_pad e && bool_decide (d = equals) && bool_decide (s = [])
                          then Some [bof (v / 65536); bof (v / 256)] else None
                      | Some vd =>
                          let v := v + vd in
                          match decode_quanta e s with
                          | Some r => Some (bof (v / 65536) :: bof (v / 256) :: bof v :: r)
                          | None => None
                          end
                      end
                  end
              end
          end
      | _, _ => None
      end
  end.

Definition is_newline (b : byte) : bool := bool_decide (b = Byte.x0a) || bool_decide (b = Byte.x0d).

(** The decoder skips carriage returns and newlines wherever they are. *)
Definition DecodeString (e : Encoding) (s : bytes) : option bytes :=
  decode_quanta e (filter (fun b => is_newline b = false) s).

(** ** Hexadecimal *)

Definition unhex_digit (b : byte) : option Z :=
  let c := bval b in
  if (48 <=? c) && (c <=? 57) then Some (c - 48)
  else if (97 <=? c) && (c <=? 102) then Some (c - 87)
  else if (65 <=? c) && (c <=? 70) then Some (c - 55)
  else None.

Fixpoint hex_DecodeString (s : bytes) : option bytes :=
  match s with
  | [] => Some []
  | [_] => None
  | a :: b :: s =>
      match unhex_digit a, unhex_digit b with
      | Some x, Some y =>
          match hex_DecodeString s with
          | Some r => Some (bof (x * 16 + y) :: r)
          | None => None
          end
      | _, _ => None
      end
  end.

(** ** Lemmas *)

(** The two extra characters are outside the common part of the alphabet and
    differ; neither is [=] or a line break. *)
Definition encoding_ok (e : Encoding) : Prop :=
  Forall (fun b => unsextet (mkEncoding b b false) b = Some 62 /\ is_newline b = false /\ b <> equals)
    [en_62 e; en_63 e] /\ en_62 e <> en_63 e.

Lemma StdEncoding_ok : encoding_ok StdEncoding.
Proof. by apply (bool_decide_unpack _). Qed.

Lemma RawURLEncoding_ok : encoding_ok RawURLEncoding.
Proof. by apply (bool_decide_unpack _). Qed.

Lemma unsextet_common e b :
  unsextet (mkEncoding b b false) b = Some 62 ->
  unsextet e b = if bool_decide (b = en_62 e) then Some 62
                 else if bool_decide (b = en_63 e) then Some 63 else None.
Proof.
  unfold unsextet. cbn [en_62 en_63]. pose proof (bval_range b).
  destruct ((65 <=? bval b) && (bval b <=? 90)) eqn:E1; [intros [= ?]; lia|].
  destruct ((97 <=? bval b) && (bval b <=? 122)) eqn:E2; [intros [= ?]; lia|].
  destruct ((48 <=? bval b) && (bval b <=? 57)) eqn:E3; [intros [= ?]; lia|]. done.
Qed.

Lemma unsextet_sextet e n : encoding_ok e -> 0 <= n < 64 -> unsextet e (sextet e n) = Some n.
Proof.
  intros [Hf Hne] Hn. rewrite !Forall_cons in Hf. destruct Hf as ((H62 & _) & (H63 & _) & _).
  unfold sextet. destruct (Z.ltb_spec n 26); [|destruct (Z.ltb_spec n 52); [|destruct (Z.ltb_spec n 62)]].
  1-3: unfold unsextet; rewrite bval_bof, Z.mod_small by lia.
  - destruct ((65 <=? 65 + n) && (65 + n <=? 90)) eqn:E; [f_equal|]; lia.
  - destruct ((65 <=? 71 + n) && (71 + n <=? 90)) eqn:E; [lia|].
    destruct ((97 <=? 71 + n) && (71 + n <=? 122)) eqn:E2; [f_equal|]; lia.
  - destruct ((65 <=? n - 4) && (n - 4 <=? 90)) eqn:E; [lia|].
    destruct ((97 <=? n - 4) && (n - 4 <=? 122)) eqn:E2; [lia|].
    destruct ((48 <=? n - 4) && (n - 4 <=? 57)) eqn:E3; [f_equal|]; lia.
  - destruct (Z.eqb_spec n 62) as [->|].
    + rewrite (unsextet_common e _ H62). by rewrite bool_decide_eq_true_2.
    + rewrite (unsextet_common e _ H63), bool_decide_eq_false_2 by congruence.
      rewrite bool_decide_eq_true_2 by done. f_equal. lia.
Qed.

Lemma unsextet_equals e : encoding_ok e -> unsextet e equals = None.
Proof.
  intros [Hf _]. rewrite !Forall_cons in Hf. destruct Hf as ((_ & _ & H62) & (_ & _ & H63) & _).
  unfold unsextet. change (bval equals) with 61. cbn [Z.leb Z.compare Pos.compare Pos.compare_cont andb].
  by rewrite !bool_decide_eq_false_2 by congruence.
Qed.

Lemma sextet_no_newline e n : encoding_ok e -> 0 <= n < 64 -> is_newline (sextet e n) = false.
Proof.
  intros [Hf _] Hn. rewrite !Forall_cons in Hf. destruct Hf as ((_ & H62 & _) & (_ & H63 & _) & _).
  assert (Hb : forall z, 14 <= z < 256 -> is_newline (bof z) = false).
  { intros z Hz. unfold is_newline. rewrite !bool_decide_eq_false_2; [done| |];
      intros E; apply (f_equal bval) in E; rewrite bval_bof, Z.mod_small in E by lia;
      [change (bval Byte.x0d) with 13 in E|change (bval Byte.x0a) with 10 in E]; lia. }
  unfold sextet. repeat case_match; try (apply Hb; lia); done.
Qed.

Lemma quantum_split v x y z :
  v = bval x * 65536 + bval y * 256 + bval z ->
  0 <= v / 262144 < 64 /\ 0 <= v / 4096 mod 64 < 64 /\ 0 <= v / 64 mod 64 < 64 /\ 0 <= v mod 64 < 64 /\
  v / 262144 * 262144 + v / 4096 mod 64 * 4096 + v / 64 mod 64 * 64 + v mod 64 = v /\
  bof (v / 65536) = x /\ bof (v / 256) = y /\ bof v = z.
Proof.
  intros ->. pose proof (bval_range x). pose proof (bval_range y). pose proof (bval_range z).
  split_and!; try (Z.to_euclidean_division_equations; lia);
    apply bval_inj; rewrite bval_bof; Z.to_euclidean_division_equations; lia.
Qed.

Lemma decode_encode_quanta e b : encoding_ok e -> decode_quanta e (EncodeToString e b) = Some b.
Proof.
  intros He. induction b as [b IH] using (induction_ltof1 _ (@length byte)). unfold ltof in IH.
  destruct b as [|x [|y [|z r]]]; [done| | |].
  - destruct (quantum_split (bval x * 65536) x Byte.x00 Byte.x00) as (H1 & H2 & H3 & H4 & Hv & Hx & _ & _);
      [change (bval Byte.x00) with 0; lia|].
    cbn [EncodeToString app decode_quanta]. rewrite !unsextet_sextet by done.
    assert (bval x * 65536 / 64 mod 64 = 0 /\ bval x * 65536 mod 64 = 0) as [E3 E4]
      by (pose proof (bval_range x); Z.to_euclidean_division_equations; lia).
    rewrite E3, E4 in Hv. replace (_ + _ * 4096) with (bval x * 65536) by lia.
    unfold padding. destruct (en_pad e) eqn:Ep; cbn [replicate]; [|by rewrite Hx].
    rewrite unsextet_equals by done. rewrite !bool_decide_eq_true_2 by done. by rewrite Hx.
  - destruct (quantum_split (bval x * 65536 + bval y * 256) x y Byte.x00)
      as (H1 & H2 & H3 & H4 & Hv & Hx & Hy & _); [change (bval Byte.x00) with 0; lia|].
    cbn [EncodeToString app decode_quanta]. rewrite !unsextet_sextet by done.
    assert ((bval x * 65536 + bval y * 256) mod 64 = 0) as E4
      by (pose proof (bval_range x); pose proof (bval_range y); Z.to_euclidean_division_equations; lia).
    rewrite E4 in Hv. replace (_ + _ * 64) with (bval x * 65536 + bval y * 256) by lia.
    unfold padding. destruct (en_pad e) eqn:Ep; cbn [replicate]; [|by rewrite Hx, Hy].
    rewrite unsextet_equals by done. rewrite !bool_decide_eq_true_2 by done. by rewrite Hx, Hy.
  - destruct (quantum_split _ x y z eq_refl) as (H1 & H2 & H3 & H4 & Hv & Hx & Hy & Hz).
    cbn [EncodeToString app decode_quanta]. rewrite !unsextet_sextet by done.
    rewrite IH by (cbn [length]; lia). rewrite Hv, Hx, Hy, Hz. done.
Qed.

Lemma encode_no_newline e b : encoding_ok e -> Forall (fun c => is_newline c = false) (EncodeToString e b).
Proof.
  intros He. induction b as [b IH] using (induction_ltof1 _ (@length byte)). unfold ltof in IH.
  assert (Hp : forall n, Forall (fun c => is_newline c = false) (padding e n))
    by (intros n; unfold padding; destruct (en_pad e); [by apply Forall_replicate|done]).
  destruct b as [|x [|y [|z r]]]; [done| | |]; cbn [EncodeToString].
  - destruct (quantum_split (bval x * 65536) x Byte.x00 Byte.x00) as (H1 & H2 & _);
      [change (bval Byte.x00) with 0; lia|].
    apply Forall_app. split; [|done]. repeat constructor; by apply sextet_no_newline.
  - destruct (quantum_split (bval x * 65536 + bval y * 256) x y Byte.x00) as (H1 & H2 & H3 & _);
      [change (bval Byte.x00) with 0; lia|].
    apply Forall_app. split; [|done]. repeat constructor; by apply sextet_no_newline.
  - destruct (quantum_split _ x y z eq_refl) as (H1 & H2 & H3 & H4 & _).
    apply Forall_app. split; [|apply IH; cbn [length]; lia].
    repeat constructor; by apply sextet_no_newline.
Qed.

Lemma filter_all {A} (P : A -> Prop) `{!forall x, Decision (P x)} l : Forall P l -> filter P l = l.
Proof. induction 1 as [|x l Hx _ IH]; [done|]. by rewrite filter_cons_True, IH. Qed.

Lemma decode_encode e b : encoding_ok e -> DecodeString e (EncodeToString e b) = Some b.
Proof.
  intros He. unfold DecodeString. rewrite filter_all by (by apply encode_no_newline).
  by apply decode_encode_quanta.
Qed.

Lemma EncodeToString_inj e a b : encoding_ok e -> EncodeToString e a = EncodeToString e b -> a = b.
Proof. intros He E. pose proof (decode_encode e a He). pose proof (decode_encode e b He). congruence. Qed.

Lemma unhex_hex_digit z : 0 <= z < 16 -> unhex_digit (hex_digit z) = Some z.
Proof.
  intros Hz. unfold hex_digit, unhex_digit. destruct (Z.ltb_spec z 10); rewrite bval_bof, Z.mod_small by lia.
  - destruct ((48 <=? 48 + z) && (48 + z <=? 57)) eqn:E; [f_equal|]; lia.
  - destruct ((48 <=? 87 + z) && (87 + z <=? 57)) eqn:E; [lia|].
    destruct ((97 <=? 87 + z) && (87 + z <=? 102)) eqn:E2; [f_equal|]; lia.
Qed.

Lemma hex_decode_hex b : hex_DecodeString (hex b) = Some b.
Proof.
  induction b as [|x b IH]; [done|]. unfold hex in *. cbn [map concat app hex_DecodeString].
  pose proof (bval_range x). pose proof (Z.mod_pos_bound (bval x) 16).
  rewrite !unhex_hex_digit, IH;
    [|lia|split; [apply Z.div_pos; lia|apply Z.div_lt_upper_bound; lia]].
  f_equal. f_equal. apply bval_inj. rewrite bval_bof.
  replace (bval x / 16 * 16 + bval x mod 16) with (bval x) by (Z.to_euclidean_division_equations; lia).
  apply Z.mod_small. lia.
Qed.
