(* ===== verification/NetIP.v ===== *)
(** * IP addresses (the standard library: net, net/netip)

    An address is 4 or 16 bytes.  [ParseIP] and [IP_String] translate
    [netip.parseIPv4], [parseIPv6] and [appendTo6]; [ParseIP_String]: parsing what
    was printed gives the address back, in its 16-byte form. *)

From S2P Require Import Prelude Strconv Encoding.

(** ** Addresses *)

(** [net.UDPAddr]. *)
Record udp_addr := mkAddr { ua_IP : bytes; ua_Port : Z }.

Definition v4prefix : bytes := replicate 10 Byte.x00 ++ [Byte.xff; Byte.xff].

(** [net.IP.To4]. *)
Definition To4 (ip : bytes) : option bytes :=
  if blen ip =? 4 then Some ip
  else if (blen ip =? 16) && bool_decide (btake 12 ip = v4prefix) then Some (bdrop 12 ip)
  else None.

Definition dot : byte := Byte.x2e.
Definition colon : byte := Byte.x3a.

(** The decimal form of an IPv4 address. *)
Fixpoint dotted (ip : bytes) : bytes :=
  match ip with
  | [] => []
  | [x] => Itoa (bval x)
  | x :: r => Itoa (bval x) ++ dot :: dotted r
  end.

(** One field of an IPv4 address: no leading zero, at most 255. *)
Definition parse_octet (f : bytes) : option byte :=
  match parse_digits f with
  | Some v =>
      if (255 <? v) || ((1 <? blen f) && bool_decide (head f = Some (digit 0))) then None else Some (bof v)
  | None => None
  end.

Definition parseIPv4 (s : bytes) : option bytes :=
  let fields := Split dot s in
  if Nat.eqb (length fields) 4 then mapM parse_octet fields else None.

Fixpoint last_index (x : byte) (b : bytes) : option nat :=
  match b with
  | [] => None
  | y :: r =>
      match last_index x r with
      | Some i => Some (S i)
      | None => if bool_decide (y = x) then Some O else None
      end
  end.

Fixpoint index (x : byte) (b : bytes) : option nat :=
  match b with
  | [] => None
  | y :: r => if bool_decide (y = x) then Some O else S <$> index x r
  end.

Definition has (x : byte) (b : bytes) : bool := bool_decide (x ∈ b).

(** [net.SplitHostPort]. *)
Definition SplitHostPort (s : bytes) : option (bytes * bytes) :=
  match last_index colon s with
  | None => None
  | Some i =>
      let port := drop (S i) s in
      if bool_decide (head s = Some Byte.x5b) then
        match index Byte.x5d s with
        | None => None
        | Some e =>
            if Nat.eqb (S e) i
            then if has Byte.x5b (drop 1 s) || has Byte.x5d (drop (S e) s) then None
                 else Some (take (e - 1) (drop 1 s), port)
            else None
        end
      else if has colon (take i s) || has Byte.x5b s || has Byte.x5d s then None
      else Some (take i s, port)
  end.

(** [net.JoinHostPort]. *)
Definition JoinHostPort (host port : bytes) : bytes :=
  if has colon host then [Byte.x5b] ++ host ++ [Byte.x5d; colon] ++ port
  else host ++ colon :: port.

(** ** IPv6 *)

(** The digits of one group: how many, their value, what follows. *)
Fixpoint read_group (off : nat) (acc : Z) (s : bytes) : option (nat * Z * bytes) :=
  match s with
  | [] => Some (off, acc, [])
  | c :: r =>
      match unhex_digit c with
      | None => Some (off, acc, s)
      | Some d => if (3 <? off)%nat || (65535 <? 16 * acc + d) then None else read_group (S off) (16 * acc + d) r
      end
  end.

(** The loop of [parseIPv6]; [ell] is the position of the ellipsis in [ip], [n] the
    number of groups that still fit. *)
Fixpoint groups (n : nat) (ip : bytes) (ell : option nat) (s : bytes) : option (bytes * option nat * bytes) :=
  match n with
  | O => Some (ip, ell, s)
  | S n =>
      match read_group 0 0 s with
      | None | Some (O, _, _) => None
      | Some (_, acc, rest) =>
          let ip' := ip ++ be_put 2 acc in
          match rest with
          | [] => Some (ip', ell, [])
          | c :: r =>
              if bool_decide (c = dot) then
                if (match ell with None => negb (blen ip =? 12) | Some _ => false end) || (16 <? blen ip + 4) then None
                else match parseIPv4 s with Some ip4 => Some (ip ++ ip4, ell, []) | None => None end
              else if bool_decide (c = colon) then
                match r with
                | [] => None
                | c2 :: r2 =>
                    if bool_decide (c2 = colon) then
                      match ell, r2 with
                      | Some _, _ => None
                      | None, [] => Some (ip', Some (length ip'), [])
                      | None, _ => groups n ip' (Some (length ip')) r2
                      end
                    else groups n ip' ell r
                end
              else None
          end
      end
  end.

(** The ellipsis stands for at least one group. *)
Definition expand (r : bytes * option nat * bytes) : option bytes :=
  match r with
  | (ip, ell, []) =>
      if blen ip <? 16 then
        match ell with
        | None => None
        | Some e => Some (take e ip ++ replicate (16 - length ip) Byte.x00 ++ drop e ip)
        end
      else match ell with Some _ => None | None => Some ip end
  | _ => None
  end.

(** [netip.parseIPv6]; [net.ParseIP] refuses an address with a zone. *)
Definition parse_ip6 (s : bytes) : option bytes :=
  if has Byte.x25 s then None
  else match s with
       | c1 :: c2 :: r =>
           if bool_decide (c1 = colon) && bool_decide (c2 = colon) then
             match r with
             | [] => Some (replicate 16 Byte.x00)
             | _ => match groups 8 [] (Some 0%nat) r with Some x => expand x | None => None end
             end
           else match groups 8 [] None s with Some x => expand x | None => None end
       | _ => match groups 8 [] None s with Some x => expand x | None => None end
       end.

(** [net.ParseIP]: the first dot or colon decides; an IPv4 address is returned in
    its 16-byte form. *)
Definition ParseIP (s : bytes) : option bytes :=
  match index dot s, index colon s with
  | None, None => None
  | Some _, None => app v4prefix <$> parseIPv4 s
  | None, Some _ => parse_ip6 s
  | Some i, Some j => if (i <? j)%nat then app v4prefix <$> parseIPv4 s else parse_ip6 s
  end.

(** A group in hexadecimal, without leading zeros. *)
Definition hex16 (z : Z) : bytes :=
  (if 4096 <=? z then [hex_digit (z / 4096)] else []) ++ (if 256 <=? z then [hex_digit (z / 256 mod 16)] else []) ++
  (if 16 <=? z then [hex_digit (z / 16 mod 16)] else []) ++ [hex_digit (z mod 16)].

Fixpoint u16s (ip : bytes) : list Z :=
  match ip with a :: b :: r => be_get [a; b] :: u16s r | _ => [] end.

Fixpoint zeros (fs : list Z) : nat :=
  match fs with 0 :: r => S (zeros r) | _ => O end.

(** The first of the longest runs of zeros, of two groups at least: where it begins,
    its length. *)
Fixpoint longest_run (i : nat) (fs : list Z) (best : nat * nat) : nat * nat :=
  match fs with
  | [] => best
  | _ :: r => longest_run (S i) r (if (2 <=? zeros fs)%nat && (snd best <? zeros fs)%nat then (i, zeros fs) else best)
  end.

Fixpoint join_groups (fs : list Z) : bytes :=
  match fs with
  | [] => []
  | [f] => hex16 f
  | f :: r => hex16 f ++ colon :: join_groups r
  end.

(** [netip.Addr.appendTo6]. *)
Definition ip6_String (ip : bytes) : bytes :=
  let fs := u16s ip in
  let '(start, len) := longest_run 0 fs (0%nat, 0%nat) in
  if Nat.eqb len 0 then join_groups fs
  else join_groups (take start fs) ++ [colon; colon] ++ join_groups (drop (start + len) fs).

(** [net.IP.String] of an address of 4 or 16 bytes. *)
Definition IP_String (ip : bytes) : bytes :=
  match To4 ip with Some ip4 => dotted ip4 | None => ip6_String ip end.

Example ip6_examples :
  map (fun s => IP_String <$> ParseIP (str s)) ["::1"; "2001:DB8:0:0:1:0:0:1"; "::ffff:10.0.0.1"; "1:2:3:4:5:6:7::"; "fe80::1%eth0"; "::"]%string =
  map (fmap str) [Some "::1"; Some "2001:db8::1:0:0:1"; Some "10.0.0.1"; Some "1:2:3:4:5:6:7:0"; None; Some "::"]%string.
Proof. vm_compute. reflexivity. Qed.

(** ** Lemmas: addresses *)

Lemma parse_octet_Itoa x : parse_octet (Itoa (bval x)) = Some x.
Proof. by destruct x. Qed.

Lemma Itoa_no x n : 0 <= n -> is_digit x = false -> x ∉ Itoa n.
Proof.
  intros Hn Hx. unfold Itoa. destruct (Z.ltb_spec n 0); [lia|]. apply itoa_no_byte; [lia|done|set_solver].
Qed.

Lemma bval_nonneg x : 0 <= bval x.
Proof. apply bval_range. Qed.

Lemma dotted_no x ip : is_digit x = false -> x <> dot -> x ∉ dotted ip.
Proof.
  intros Hx Hd. induction ip as [|a [|b r] IH]; cbn [dotted]; [set_solver| |].
  - apply Itoa_no; [apply bval_nonneg|done].
  - apply not_elem_of_app. split; [apply Itoa_no; [apply bval_nonneg|done]|].
    apply not_elem_of_cons. split; [done|exact IH].
Qed.

Lemma parseIPv4_dotted ip : blen ip = 4 -> parseIPv4 (dotted ip) = Some ip.
Proof.
  intros Hl. destruct ip as [|a [|b [|c [|d [|e r]]]]]; try done; cycle 1.
  { exfalso. rewrite !blen_cons in Hl. pose proof (blen_nonneg r). lia. }
  cbn [dotted]. unfold parseIPv4, Split.
  set (s := _ ++ _). assert (Hs : exists n, length s = S (S (S n))).
  { unfold s. rewrite !length_app. cbn [length]. rewrite !length_app. cbn [length]. rewrite length_app. cbn [length].
    exists (length (Itoa (bval a)) + (length (Itoa (bval b)) + (length (Itoa (bval c)) + length (Itoa (bval d)))))%nat. lia. }
  destruct Hs as [n ->]. unfold s, dot. cbn [SplitN].
  rewrite break_at_app by apply Itoa_no_dot. rewrite break_at_app by apply Itoa_no_dot.
  rewrite break_at_app by apply Itoa_no_dot.
  assert (E : SplitN Byte.x2e (Itoa (bval d)) (S n) = [Itoa (bval d)])
    by (destruct n; [done|]; cbn [SplitN]; by rewrite break_at_none by apply Itoa_no_dot).
  cbn [SplitN] in E. rewrite E.
  cbn [length Nat.eqb]. cbn [mapM]. by rewrite !parse_octet_Itoa.
Qed.

Lemma last_index_none x r : x ∉ r -> last_index x r = None.
Proof.
  induction r as [|y r IH]; intros Hn; cbn [last_index]; [done|]. rewrite IH by set_solver.
  by rewrite bool_decide_eq_false_2 by set_solver.
Qed.

Lemma last_index_app x a r : x ∉ r -> last_index x (a ++ x :: r) = Some (length a).
Proof.
  intros Hn. induction a as [|y a IH]; cbn [app last_index length].
  - rewrite last_index_none by done. by rewrite bool_decide_eq_true_2.
  - by rewrite IH.
Qed.

Lemma index_none x r : x ∉ r -> index x r = None.
Proof.
  induction r as [|y r IH]; intros Hn; cbn [index]; [done|].
  rewrite bool_decide_eq_false_2 by set_solver. by rewrite IH by set_solver.
Qed.

Lemma index_app x a r : x ∉ a -> index x (a ++ x :: r) = Some (length a).
Proof.
  induction a as [|y a IH]; intros Hn; cbn [app index length].
  - by rewrite bool_decide_eq_true_2.
  - rewrite bool_decide_eq_false_2 by set_solver. by rewrite IH by set_solver.
Qed.

Lemma has_not x b : x ∉ b -> has x b = false.
Proof. apply bool_decide_eq_false_2. Qed.

Lemma SplitHostPort_Join host port :
  colon ∉ host -> Byte.x5b ∉ host -> Byte.x5d ∉ host ->
  colon ∉ port -> Byte.x5b ∉ port -> Byte.x5d ∉ port ->
  SplitHostPort (JoinHostPort host port) = Some (host, port).
Proof.
  intros H1 H2 H3 P1 P2 P3. unfold JoinHostPort, SplitHostPort. rewrite has_not by done.
  rewrite last_index_app by done.
  assert (Hs : forall x, x <> colon -> x ∉ host -> x ∉ port -> x ∉ host ++ colon :: port) by set_solver.
  rewrite bool_decide_eq_false_2; cycle 1.
  { intros Hh. apply (Hs Byte.x5b); [done..|]. apply head_Some_elem_of in Hh. done. }
  rewrite take_app_length, !has_not by (try apply Hs; done). cbn [orb].
  do 2 f_equal. rewrite drop_app_ge by lia. replace (S (length host) - length host)%nat with 1%nat by lia. done.
Qed.

Lemma dotted_has_dot ip : blen ip = 4 -> exists i, index dot (dotted ip) = Some i.
Proof.
  intros Hl. destruct ip as [|a [|b r]]; try done. cbn [dotted].
  exists (length (Itoa (bval a))). apply index_app, Itoa_no_dot.
Qed.

Lemma length_itoa_digits f n acc : (length (itoa_digits f n acc) <= f + length acc)%nat.
Proof.
  revert n acc. induction f as [|f IH]; intros n acc; cbn [itoa_digits]; [lia|].
  case_match; cbn [length]; [lia|]. specialize (IH (n / 10) (digit (n mod 10) :: acc)). cbn [length] in IH. lia.
Qed.

Lemma length_octet x : (length (Itoa (bval x)) <= 3)%nat.
Proof. destruct x; vm_compute; lia. Qed.

Lemma length_dotted ip : blen ip = 4 -> (length (dotted ip) <= 15)%nat.
Proof.
  intros Hl. destruct ip as [|a [|b [|c [|d [|e r]]]]]; try done; cycle 1.
  { rewrite !blen_cons in Hl. pose proof (blen_nonneg r). lia. }
  cbn [dotted]. rewrite !length_app. cbn [length]. rewrite !length_app. cbn [length]. rewrite length_app. cbn [length].
  pose proof (length_octet a). pose proof (length_octet b). pose proof (length_octet c). pose proof (length_octet d). lia.
Qed.

Lemma To4_len ip ip4 : To4 ip = Some ip4 -> blen ip4 = 4.
Proof.
  unfold To4. intros Hi. destruct (Z.eqb_spec (blen ip) 4); [congruence|].
  destruct (Z.eqb_spec (blen ip) 16); cbn in Hi; [|done]. case_bool_decide; [|done].
  simplify_eq. rewrite blen_bdrop; lia.
Qed.

Lemma To4_To4 ip ip4 : To4 ip = Some ip4 -> To4 ip4 = Some ip4.
Proof. intros Hi%To4_len. unfold To4. by rewrite Hi. Qed.

(** ** Lemmas: IPv6 *)

Definition enc (fs : list Z) : bytes := concat (map (be_put 2) fs).

Lemma length_enc fs : length (enc fs) = (2 * length fs)%nat.
Proof. unfold enc. induction fs as [|f fs IH]; cbn [map concat]; [done|]. rewrite length_app, length_be_put, IH. cbn [length]. lia. Qed.

Lemma enc_app a b : enc (a ++ b) = enc a ++ enc b.
Proof. unfold enc. by rewrite map_app, concat_app. Qed.

Lemma enc_zeros n : enc (replicate n 0) = replicate (2 * n) Byte.x00.
Proof.
  unfold enc. induction n as [|n IH]; [done|]. cbn [replicate map concat]. rewrite IH.
  replace (2 * S n)%nat with (S (S (2 * n))) by lia. done.
Qed.

Definition is_u16 (z : Z) : Prop := 0 <= z < 65536.

Lemma u16s_spec n ip : length ip = (2 * n)%nat -> enc (u16s ip) = ip /\ length (u16s ip) = n /\ Forall is_u16 (u16s ip).
Proof.
  revert ip. induction n as [|n IH]; intros ip Hl; [by destruct ip|].
  destruct ip as [|a [|b r]]; cbn [length] in Hl; [lia|lia|]. destruct (IH r) as (E & Hn & Hf); [lia|].
  cbn [u16s length]. unfold enc in *. cbn [map concat]. rewrite E, Hn. rewrite (be_put_get 2 [a; b]) by done.
  split_and!; [done|done|]. constructor; [|done]. pose proof (be_get_range [a; b]). unfold is_u16. change (256 ^ blen [a; b]) with 65536 in *. lia.
Qed.

(** The bytes of a group are digits. *)
Lemma hex16_digits z : is_u16 z -> Forall (fun c => exists d, 0 <= d < 16 /\ c = hex_digit d) (hex16 z).
Proof.
  intros Hz. unfold is_u16, hex16 in *.
  assert (Hm : forall a, 0 <= a mod 16 < 16) by (intros; apply Z.mod_pos_bound; lia).
  assert (Hd : 4096 <= z -> 0 <= z / 4096 < 16) by (intros; Z.div_mod_to_equations; lia).
  repeat apply Forall_app_2; try (case_match; [|done]); (constructor; [eexists; split; [|reflexivity]; first [apply Hm|apply Hd; lia]|done]).
Qed.

Lemma hex16_nonempty z : exists c r, hex16 z = c :: r.
Proof. unfold hex16. repeat case_match; eexists _, _; reflexivity. Qed.

Lemma hex_digit_not d c : 0 <= d < 16 -> unhex_digit c = None -> hex_digit d <> c.
Proof. intros Hd Hc <-. by rewrite unhex_hex_digit in Hc. Qed.

(** A group is read up to the first byte that is not a digit. *)
Lemma read_hex16 z rest :
  is_u16 z -> match rest with [] => True | c :: _ => unhex_digit c = None end ->
  exists n, read_group 0 0 (hex16 z ++ rest) = Some (S n, z, rest).
Proof.
  unfold is_u16. intros Hz Hr.
  assert (Hend : forall off acc, read_group off acc rest = Some (off, acc, rest))
    by (intros; destruct rest as [|c r]; [done|]; cbn [read_group]; by rewrite Hr).
  unfold hex16.
  destruct (Z.leb_spec 4096 z); [|destruct (Z.leb_spec 256 z); [|destruct (Z.leb_spec 16 z)]];
    repeat (rewrite (proj2 (Z.leb_le _ z)) by lia); cbn [app read_group];
    repeat (rewrite unhex_hex_digit by first [apply Z.mod_pos_bound; lia|Z.div_mod_to_equations; lia]);
    repeat match goal with |- context [65535 <? ?x] => destruct (Z.ltb_spec 65535 x); [exfalso; Z.div_mod_to_equations; lia|] end;
    cbn [Nat.ltb Nat.leb orb]; rewrite ?Hend; eexists; repeat f_equal; Z.div_mod_to_equations; lia.
Qed.

Lemma join_head f fs : is_u16 f -> exists c r, join_groups (f :: fs) = c :: r /\ unhex_digit c <> None.
Proof.
  intros Hf. destruct (hex16_nonempty f) as (c & r & E). pose proof (hex16_digits f Hf) as Hd. rewrite E in Hd.
  apply Forall_cons in Hd as [(d & Hd & ->) _].
  destruct fs; cbn [join_groups]; rewrite E; eexists _, _; (split; [reflexivity|]); by rewrite unhex_hex_digit.
Qed.

Lemma not_special c : unhex_digit c <> None -> c <> colon /\ c <> dot /\ c <> Byte.x25.
Proof. intros Hc. split_and!; intros ->; by apply Hc. Qed.

Lemma bool_decide_ne (a b : byte) : a <> b -> bool_decide (a = b) = false.
Proof. apply bool_decide_eq_false_2. Qed.

(** The last groups of an address. *)
Lemma groups_last n ip ell f fs :
  (length fs < n)%nat -> Forall is_u16 (f :: fs) -> groups n ip ell (join_groups (f :: fs)) = Some (ip ++ enc (f :: fs), ell, []).
Proof.
  revert n ip f. induction fs as [|g fs IH]; intros [|n] ip f Hn Hf; cbn [length] in Hn; try lia; apply Forall_cons in Hf as [Hu Hf].
  - cbn [join_groups groups]. destruct (read_hex16 f [] Hu I) as [m E]. rewrite app_nil_r in E. rewrite E.
    cbn iota beta. unfold enc. cbn [map concat]. by rewrite app_nil_r.
  - change (join_groups (f :: g :: fs)) with (hex16 f ++ colon :: join_groups (g :: fs)). cbn [groups].
    destruct (read_hex16 f (colon :: join_groups (g :: fs)) Hu eq_refl) as [m ->]. cbn iota beta.
    rewrite (bool_decide_ne colon dot), bool_decide_eq_true_2 by done.
    destruct (join_head g fs) as (c & r & E & Hc); [by apply Forall_cons in Hf as [? _]|]. rewrite E.
    rewrite (bool_decide_ne c colon) by (by apply not_special). rewrite <- E, IH by (done || lia).
    unfold enc. cbn [map concat]. by rewrite <- app_assoc.
Qed.

(** The groups before the ellipsis. *)
Lemma groups_before n ip f fs gs :
  (length fs < n)%nat -> Forall is_u16 (f :: fs) ->
  groups n ip None (join_groups (f :: fs) ++ [colon; colon] ++ join_groups gs) =
  let ip' := ip ++ enc (f :: fs) in
  match join_groups gs with
  | [] => Some (ip', Some (length ip'), [])
  | s => groups (n - S (length fs)) ip' (Some (length ip')) s
  end.
Proof.
  revert n ip f. induction fs as [|g fs IH]; intros [|n] ip f Hn Hf; cbn [length] in Hn; try lia; apply Forall_cons in Hf as [Hu Hf].
  - cbn [join_groups groups app]. destruct (read_hex16 f (colon :: colon :: join_groups gs) Hu eq_refl) as [m ->]. cbn iota beta.
    rewrite (bool_decide_ne colon dot), !bool_decide_eq_true_2 by done.
    cbn zeta. unfold enc. cbn [map concat]. rewrite app_nil_r. destruct (join_groups gs); [done|].
    cbn [length]. by replace (S n - 1)%nat with n by lia.
  - change (join_groups (f :: g :: fs)) with (hex16 f ++ colon :: join_groups (g :: fs)). rewrite <- app_assoc.
    cbn [groups]. change ((colon :: join_groups (g :: fs)) ++ [colon; colon] ++ join_groups gs)
      with (colon :: (join_groups (g :: fs) ++ [colon; colon] ++ join_groups gs)).
    destruct (read_hex16 f (colon :: (join_groups (g :: fs) ++ [colon; colon] ++ join_groups gs)) Hu eq_refl) as [m ->]. cbn iota beta.
    rewrite (bool_decide_ne colon dot), bool_decide_eq_true_2 by done.
    destruct (join_head g fs) as (c & r & E & Hc); [by apply Forall_cons in Hf as [? _]|].
    rewrite E. cbn [app]. rewrite (bool_decide_ne c colon) by (by apply not_special).
    change (c :: r ++ colon :: colon :: join_groups gs) with ((c :: r) ++ [colon; colon] ++ join_groups gs). rewrite <- E.
    rewrite IH by (done || lia). cbn zeta. cbn [length]. rewrite <- !app_assoc. unfold enc. cbn [map concat]. by replace (S n - S (S (length fs)))%nat with (n - S (length fs))%nat by lia.
Qed.

(** ** Printing *)

Lemma zeros_take fs : take (zeros fs) fs = replicate (zeros fs) 0 /\ (zeros fs <= length fs)%nat.
Proof.
  induction fs as [|[| |] fs [IH1 IH2]]; cbn; try (split; [done|lia]). split; [by rewrite IH1|lia].
Qed.

Definition run_of (fs : list Z) (b : nat * nat) : Prop :=
  snd b = 0%nat \/ ((2 <= snd b)%nat /\ (fst b + snd b <= length fs)%nat /\ take (snd b) (drop (fst b) fs) = replicate (snd b) 0).

Lemma longest_run_ok pre fs b : run_of (pre ++ fs) b -> run_of (pre ++ fs) (longest_run (length pre) fs b).
Proof.
  revert pre b. induction fs as [|f fs IH]; intros pre b Hb; [done|]. cbn [longest_run].
  assert (E : pre ++ f :: fs = (pre ++ [f]) ++ fs) by (by rewrite <- app_assoc).
  replace (S (length pre)) with (length (pre ++ [f])) by (rewrite length_app; cbn [length]; lia).
  rewrite E. apply IH. rewrite <- E. destruct (_ && _) eqn:Ez; [|done].
  apply andb_true_iff in Ez as [Ez%Nat.leb_le _]. right. cbn [fst snd]. destruct (zeros_take (f :: fs)) as [Ht Hl].
  split_and!; [done| |by rewrite drop_app_length]. rewrite length_app. lia.
Qed.

(** An address is printed whole, or with one run of zeros left out. *)
Lemma ip6_String_shape ip :
  length ip = 16%nat ->
  exists a n b, ip = enc (a ++ replicate n 0 ++ b) /\ Forall is_u16 (a ++ b) /\ (length a + n + length b = 8)%nat /\
    ((n = 0%nat /\ b = [] /\ ip6_String ip = join_groups a) \/
     ((2 <= n)%nat /\ ip6_String ip = join_groups a ++ [colon; colon] ++ join_groups b)).
Proof.
  intros Hl. destruct (u16s_spec 8 ip Hl) as (E & Hn & Hf). unfold ip6_String. set (fs := u16s ip) in *.
  pose proof (longest_run_ok [] fs (0%nat, 0%nat) (or_introl eq_refl)) as Hr. cbn [app length] in Hr.
  destruct (longest_run 0 fs (0%nat, 0%nat)) as [st len]. destruct Hr as [Hz|(H2 & Hle & Ht)]; cbn [fst snd] in *.
  - subst len. exists fs, 0%nat, []. cbn. rewrite !app_nil_r. split_and!; [done|done|lia|]. by left.
  - exists (take st fs), len, (drop (st + len) fs). rewrite <- Ht.
    assert (Efs : take st fs ++ take len (drop st fs) ++ drop (st + len) fs = fs)
      by (rewrite <- (take_drop st fs) at 4; f_equal; rewrite <- drop_drop; apply take_drop).
    split_and!.
    + by rewrite Efs.
    + apply Forall_app. split; [by apply Forall_take|by apply Forall_drop].
    + rewrite length_take, length_drop. lia.
    + right. split; [done|]. destruct len; [lia|done].
Qed.

Lemma join_bytes fs x : Forall is_u16 fs -> unhex_digit x = None -> x <> colon -> x ∉ join_groups fs.
Proof.
  intros Hf Hx Hc. assert (Hh : forall z, is_u16 z -> x ∉ hex16 z).
  { intros z Hz Hin. pose proof (hex16_digits z Hz) as Hd. rewrite Forall_forall in Hd.
    destruct (Hd x Hin) as (d & Hd' & ->). by rewrite unhex_hex_digit in Hx. }
  induction Hf as [|f fs Hu Hf IH]; [by apply not_elem_of_nil|]. destruct fs as [|g fs]; cbn [join_groups]; [by apply Hh|].
  apply not_elem_of_app. split; [by apply Hh|]. by apply not_elem_of_cons.
Qed.

Lemma parse_ip6_plain s :
  Byte.x25 ∉ s -> head s <> Some colon ->
  parse_ip6 s = match groups 8 [] None s with Some x => expand x | None => None end.
Proof.
  intros Hp Hh. unfold parse_ip6. rewrite has_not by done. destruct s as [|c1 [|c2 r]]; [done..|].
  rewrite (bool_decide_ne c1 colon); [done|]. intros ->. by apply Hh.
Qed.

Lemma expand_gap a b n :
  (length a + n + length b = 8)%nat -> (1 <= n)%nat ->
  expand (enc a ++ enc b, Some (length (enc a)), []) = Some (enc (a ++ replicate n 0 ++ b)).
Proof.
  intros Hl Hn. unfold expand. pose proof (length_enc a). pose proof (length_enc b).
  destruct (Z.ltb_spec (blen (enc a ++ enc b)) 16) as [_|Hc]; [|rewrite blen_app in Hc; unfold blen in Hc; lia].
  rewrite take_app_length, drop_app_length, !enc_app, enc_zeros. do 3 f_equal. f_equal. rewrite length_app. lia.
Qed.

Lemma parse_ip6_String ip : length ip = 16%nat -> parse_ip6 (ip6_String ip) = Some ip.
Proof.
  intros Hl. destruct (ip6_String_shape ip Hl) as (a & n & b & -> & Hu & Hlen & Hs). apply Forall_app in Hu as [Ha Hb].
  assert (Hpa : Byte.x25 ∉ join_groups a) by (by apply join_bytes). assert (Hpb : Byte.x25 ∉ join_groups b) by (by apply join_bytes).
  destruct Hs as [(-> & -> & ->)|(Hn & ->)].
  - cbn [length] in Hlen. destruct a as [|f fs]; cbn [length] in Hlen; [lia|].
    destruct (join_head f fs) as (c & r & E & Hc); [by apply Forall_cons in Ha as [? _]|].
    rewrite parse_ip6_plain by (try done; rewrite E; cbn; intros [= ->]; by apply Hc).
    rewrite groups_last by (done || lia). unfold expand. cbn [app replicate]. rewrite app_nil_r.
    destruct (Z.ltb_spec (blen (enc (f :: fs))) 16) as [Hlt|_]; [|done].
    pose proof (length_enc (f :: fs)). unfold blen in Hlt. cbn [length] in *. lia.
  - assert (Hpct : Byte.x25 ∉ join_groups a ++ [colon; colon] ++ join_groups b).
    { apply not_elem_of_app. split; [done|]. apply not_elem_of_cons. split; [done|]. apply not_elem_of_cons. by split. }
    assert (Hgs : forall m e g gs, b = g :: gs -> (length gs < m)%nat -> groups m (enc a) e (join_groups b) = Some (enc a ++ enc b, e, []))
      by (intros m e g gs -> ?; by apply groups_last).
    destruct a as [|f fs].
    + unfold parse_ip6. rewrite has_not by done. cbn [join_groups app]. rewrite !bool_decide_eq_true_2 by done. cbn [andb].
      destruct b as [|g gs]; cbn [length app] in Hlen.
      { cbn [join_groups app]. replace n with 8%nat by lia. done. }
      destruct (join_head g gs) as (c & r & E & Hc); [by apply Forall_cons in Hb as [? _]|].
      rewrite E, <- E. change (@nil byte) with (enc []) at 1. rewrite (Hgs 8%nat _ g gs) by (done || lia).
      by apply (expand_gap [] (g :: gs) n); [cbn [length]; lia|lia].
    + destruct (join_head f fs) as (c & r & E & Hc); [by apply Forall_cons in Ha as [? _]|].
      rewrite parse_ip6_plain by (try done; rewrite E; cbn; intros [= ->]; by apply Hc).
      cbn [length] in Hlen. rewrite <- (expand_gap (f :: fs) b n) by (cbn [length]; lia).
      rewrite groups_before by (done || lia). cbn zeta. change ([] ++ enc (f :: fs)) with (enc (f :: fs)). destruct b as [|g gs]; cbn [length] in Hlen.
      * cbn [join_groups]. by rewrite app_nil_r.
      * destruct (join_head g gs) as (c' & r' & E' & Hc'); [by apply Forall_cons in Hb as [? _]|].
        rewrite E', <- E'. rewrite (Hgs _ _ g gs) by (done || lia). done.
Qed.

Lemma ip6_String_bytes ip :
  length ip = 16%nat -> (exists j, index colon (ip6_String ip) = Some j) /\
  forall x, unhex_digit x = None -> x <> colon -> x ∉ ip6_String ip.
Proof.
  intros Hl. destruct (ip6_String_shape ip Hl) as (a & n & b & _ & Hu & Hlen & Hs). apply Forall_app in Hu as [Ha Hb].
  assert (Hex : forall s, colon ∈ s -> exists j, index colon s = Some j).
  { intros s. induction s as [|y s IH]; intros Hin; [by apply elem_of_nil in Hin|]. cbn [index].
    destruct (bool_decide_reflect (y = colon)); [by eexists|]. apply elem_of_cons in Hin as [Hy|Hin]; [congruence|].
    destruct (IH Hin) as [j ->]. by eexists. }
  split.
  - apply Hex. destruct Hs as [(-> & -> & ->)|(_ & ->)].
    + destruct a as [|f [|g fs]]; cbn [length] in Hlen; try lia. cbn [join_groups]. apply elem_of_app. right. left.
    + apply elem_of_app. right. left.
  - intros x Hx Hc. destruct Hs as [(-> & -> & ->)|(_ & ->)]; [by apply join_bytes|].
    apply not_elem_of_app. split; [by apply join_bytes|]. do 2 (apply not_elem_of_cons; split; [done|]). by apply join_bytes.
Qed.

(** Parsing what was printed gives the address back. *)
Lemma ParseIP_String ip : length ip = 16%nat -> ParseIP (IP_String ip) = Some ip.
Proof.
  intros Hl. unfold IP_String, ParseIP. destruct (To4 ip) as [ip4|] eqn:E4.
  - pose proof (To4_len _ _ E4) as H4. destruct (dotted_has_dot ip4 H4) as [i ->].
    rewrite index_none by (by apply dotted_no). rewrite parseIPv4_dotted by done. change (Some (v4prefix ++ ip4) = Some ip). f_equal.
    unfold To4 in E4. unfold blen in E4. rewrite Hl in E4. change (Z.of_nat 16 =? 4) with false in E4. cbn [Z.of_nat] in E4.
    destruct (bool_decide_reflect (btake 12 ip = v4prefix)) as [<-|]; [|by rewrite andb_false_r in E4].
    rewrite andb_true_r in E4. change (_ =? 16) with true in E4. injection E4 as <-. apply btake_bdrop.
  - destruct (ip6_String_bytes ip Hl) as [[j ->] Hno]. rewrite index_none by (by apply Hno). by apply parse_ip6_String.
Qed.
