(* ===== verification/Route.v ===== *)
(** * Routes (routes.go)

    [Route] is a Go [int32]; any value can be written, thirteen are valid. *)

From S2P Require Import Prelude GoErr.

Definition Route : Type := Z.

Definition RouteInvalid : Route := 0.
Definition RouteIdentity : Route := 1.
Definition RouteRequestHandshake : Route := 2.
Definition RouteAcceptHandshake : Route := 3.
Definition RouteFinalizeHandshake : Route := 4.
Definition RouteSendChallenge : Route := 5.
Definition RouteVerifyChallenge : Route := 6.
Definition RouteExchangeMessages : Route := 7.
Definition RouteCloseTransport : Route := 8.
Definition RoutePing : Route := 9.
Definition RoutePong : Route := 10.
Definition RouteResumeRequest : Route := 11.
Definition RouteResumeAccept : Route := 12.
Definition RouteSessionData : Route := 13.

(** The wire enum of box.proto ([pb.Route]), as numbered in the schema. *)
Definition ROUTE_INVALID : Z := 0.
Definition ROUTE_IDENTITY : Z := 1.
Definition ROUTE_REQUEST_HANDSHAKE : Z := 2.
Definition ROUTE_ACCEPT_HANDSHAKE : Z := 3.
Definition ROUTE_FINALIZE_HANDSHAKE : Z := 4.
Definition ROUTE_SEND_CHALLENGE : Z := 5.
Definition ROUTE_VERIFY_CHALLENGE : Z := 6.
Definition ROUTE_EXCHANGE_MESSAGES : Z := 7.
Definition ROUTE_CLOSE_TRANSPORT : Z := 8.
Definition ROUTE_PING : Z := 9.
Definition ROUTE_PONG : Z := 10.
Definition ROUTE_RESUME_REQUEST : Z := 11.
Definition ROUTE_RESUME_ACCEPT : Z := 12.
Definition ROUTE_SESSION_DATA : Z := 13.

Definition route_String (r : Route) : string :=
  if r =? RouteIdentity then "Identity"
  else if r =? RouteRequestHandshake then "RequestHandshake"
  else if r =? RouteAcceptHandshake then "AcceptHandshake"
  else if r =? RouteFinalizeHandshake then "FinalizeHandshake"
  else if r =? RouteSendChallenge then "SendChallenge"
  else if r =? RouteVerifyChallenge then "VerifyChallenge"
  else if r =? RouteExchangeMessages then "ExchangeMessages"
  else if r =? RouteCloseTransport then "CloseTransport"
  else if r =? RoutePing then "Ping"
  else if r =? RoutePong then "Pong"
  else if r =? RouteResumeRequest then "ResumeRequest"
  else if r =? RouteResumeAccept then "ResumeAccept"
  else if r =? RouteSessionData then "SessionData"
  else "Invalid".

Definition IsValid (r : Route) : bool := (RouteInvalid <? r) && (r <=? RouteSessionData).

Definition ToProto (r : Route) : Z :=
  if r =? RouteIdentity then ROUTE_IDENTITY
  else if r =? RouteRequestHandshake then ROUTE_REQUEST_HANDSHAKE
  else if r =? RouteAcceptHandshake then ROUTE_ACCEPT_HANDSHAKE
  else if r =? RouteFinalizeHandshake then ROUTE_FINALIZE_HANDSHAKE
  else if r =? RouteSendChallenge then ROUTE_SEND_CHALLENGE
  else if r =? RouteVerifyChallenge then ROUTE_VERIFY_CHALLENGE
  else if r =? RouteExchangeMessages then ROUTE_EXCHANGE_MESSAGES
  else if r =? RouteCloseTransport then ROUTE_CLOSE_TRANSPORT
  else if r =? RoutePing then ROUTE_PING
  else if r =? RoutePong then ROUTE_PONG
  else if r =? RouteResumeRequest then ROUTE_RESUME_REQUEST
  else if r =? RouteResumeAccept then ROUTE_RESUME_ACCEPT
  else if r =? RouteSessionData then ROUTE_SESSION_DATA
  else ROUTE_INVALID.

Definition RouteFromProto (r : Z) : Route :=
  if r =? ROUTE_IDENTITY then RouteIdentity
  else if r =? ROUTE_REQUEST_HANDSHAKE then RouteRequestHandshake
  else if r =? ROUTE_ACCEPT_HANDSHAKE then RouteAcceptHandshake
  else if r =? ROUTE_FINALIZE_HANDSHAKE then RouteFinalizeHandshake
  else if r =? ROUTE_SEND_CHALLENGE then RouteSendChallenge
  else if r =? ROUTE_VERIFY_CHALLENGE then RouteVerifyChallenge
  else if r =? ROUTE_EXCHANGE_MESSAGES then RouteExchangeMessages
  else if r =? ROUTE_CLOSE_TRANSPORT then RouteCloseTransport
  else if r =? ROUTE_PING then RoutePing
  else if r =? ROUTE_PONG then RoutePong
  else if r =? ROUTE_RESUME_REQUEST then RouteResumeRequest
  else if r =? ROUTE_RESUME_ACCEPT then RouteResumeAccept
  else if r =? ROUTE_SESSION_DATA then RouteSessionData
  else RouteInvalid.

Lemma valid_cases r :
  IsValid r = true ->
  r = 1 \/ r = 2 \/ r = 3 \/ r = 4 \/ r = 5 \/ r = 6 \/ r = 7 \/ r = 8 \/ r = 9 \/
  r = 10 \/ r = 11 \/ r = 12 \/ r = 13.
Proof.
  unfold IsValid, RouteInvalid, RouteSessionData. intros H.
  apply andb_prop in H as [H1 H2]. lia.
Qed.

(** Case analysis on a valid route. *)
Ltac route_cases H :=
  apply valid_cases in H;
  repeat match type of H with _ \/ _ => destruct H as [->|H] end; subst.

Lemma ToProto_valid r : IsValid r = true -> RouteFromProto (ToProto r) = r.
Proof. intros H. route_cases H; reflexivity. Qed.

Lemma ToProto_invalid r : IsValid r = false -> ToProto r = ROUTE_INVALID.
Proof.
  intros H. unfold ToProto.
  repeat match goal with
         | |- (if ?r =? ?c then _ else _) = _ =>
             destruct (Z.eqb_spec r c); [by subst|]
         end. done.
Qed.

Lemma ToProto_range r : 0 <= ToProto r <= 13.
Proof.
  destruct (IsValid r) eqn:E; [route_cases E; vm_compute; split; discriminate|].
  by rewrite ToProto_invalid.
Qed.

Lemma RouteFromProto_other z :
  ~ (1 <= z <= 13) -> RouteFromProto z = RouteInvalid.
Proof.
  intros H. unfold RouteFromProto.
  repeat match goal with
         | |- (if ?r =? ?c then _ else _) = _ =>
             destruct (Z.eqb_spec r c); [subst; vm_compute in H; naive_solver lia|]
         end. done.
Qed.

(** The wire enum faithfully carries exactly the valid routes: a valid route
    survives the round trip, every other value (of either side) is received as
    [RouteInvalid], and distinct valid routes print differently. *)
Theorem route_wire_roundtrip (r : Route) :
  (IsValid r = true -> RouteFromProto (ToProto r) = r) /\
  (IsValid r = false -> RouteFromProto (ToProto r) = RouteInvalid) /\
  (IsValid (RouteFromProto r) = false <-> ~ (1 <= r <= 13)) /\
  (forall r', IsValid r = true -> route_String r = route_String r' -> r = r').
Proof.
  split; [|split; [|split]].
  - apply ToProto_valid.
  - intros H. rewrite (ToProto_invalid r) by done. reflexivity.
  - split; [|intros H; by rewrite RouteFromProto_other].
    intros H Hr. assert (Hv : IsValid r = true).
    { unfold IsValid, RouteInvalid, RouteSessionData. apply andb_true_intro. lia. }
    route_cases Hv; discriminate.
  - intros r' H E. unfold route_String in E at 2.
    repeat match type of E with
           | _ = (if ?r =? ?c then _ else _) =>
               destruct (Z.eqb_spec r c) as [->|]; [by route_cases H|]
           end. by route_cases H.
Qed.
