(* ===== verification/Version.v ===== *)
(** * Version negotiation (version.go) *)

From S2P Require Import Prelude GoErr Strconv.

Record semver := mkSemver { major : Z; minor : Z; patch : Z }.

Definition parseSemver (v : bytes) : result semver :=
  if bool_decide (v = []) then Err (errorf "empty version string")
  else
    match SplitN Byte.x2e v 3 with
    | [p0; p1; p2] =>
        match Atoi p0 with
        | None => Err (errorf "invalid major version")
        | Some major =>
            match Atoi p1 with
            | None => Err (errorf "invalid minor version")
            | Some minor =>
                match Atoi p2 with
                | None => Err (errorf "invalid patch version")
                | Some patch => Ok (mkSemver major minor patch)
                end
            end
        end
    | _ => Err (errorf "invalid semver: expected major.minor.patch")
    end.

(** [AppVersion] and the value [init] parses from it. *)
Definition AppVersion : bytes := str "0.7.0".

(** The outcome of [checkVersion]: the error returned, and whether the minor
    version warning is logged. *)
Definition checkVersion (localSemver : semver) (remote : bytes) : result bool :=
  match parseSemver remote with
  | Err e => Err (Errorf "parsing remote version" [Sentinel ErrVersionMismatch; e])
  | Ok rv =>
      if negb (major localSemver =? major rv)
      then Err (wrapf "major differs" (Sentinel ErrVersionMismatch))
      else if (major localSemver =? 0) && negb (minor localSemver =? minor rv)
      then Err (wrapf "pre-1.0 minor differs" (Sentinel ErrVersionMismatch))
      else if negb (minor localSemver =? minor rv)
      then Ok true
      else Ok false
  end.

(** The text of a version. *)
Definition semver_print (v : semver) : bytes :=
  Itoa (major v) ++ Byte.x2e :: Itoa (minor v) ++ Byte.x2e :: Itoa (patch v).

Definition semver_wf (v : semver) : Prop :=
  MinInt64 <= major v <= MaxInt64 /\ MinInt64 <= minor v <= MaxInt64 /\
  MinInt64 <= patch v <= MaxInt64.

(** Two releases can talk: same major version and, before 1.0, same minor. *)
Definition compatible (a b : semver) : Prop :=
  major a = major b /\ (major a = 0 -> minor a = minor b).

Lemma parse_print v : semver_wf v -> parseSemver (semver_print v) = Ok v.
Proof.
  intros (Ha & Hb & Hc). unfold parseSemver, semver_print.
  rewrite bool_decide_eq_false_2 by (by destruct (Itoa (major v))).
  simpl SplitN. rewrite break_at_app by apply Itoa_no_dot.
  rewrite break_at_app by apply Itoa_no_dot.
  rewrite !Atoi_Itoa by done. by destruct v.
Qed.

Lemma parseSemver_wf s v : parseSemver s = Ok v -> semver_wf v.
Proof.
  unfold parseSemver. intros H. repeat (dcase_in H; try done).
  injection H as <-. by repeat split; eapply Atoi_range.
Qed.

(** The version check accepts exactly the compatible releases, a rejection is
    always [ErrVersionMismatch], the warning is logged exactly when minors
    differ, and the text of every release parses back to it. *)
Theorem checkVersion_correct (l : semver) (remote : bytes) :
  (is_ok (checkVersion l remote) = true <->
     exists rv, parseSemver remote = Ok rv /\ compatible l rv) /\
  (forall e, checkVersion l remote = Err e -> errors_is e ErrVersionMismatch = true) /\
  (forall rv warn, parseSemver remote = Ok rv -> checkVersion l remote = Ok warn ->
     (warn = true <-> minor l <> minor rv)) /\
  (forall rv, semver_wf rv -> parseSemver (semver_print rv) = Ok rv).
Proof.
  unfold checkVersion, compatible. split; [|split; [|split]].
  - destruct (parseSemver remote) as [rv|e]; simpl; [|naive_solver].
    destruct (Z.eqb_spec (major l) (major rv)), (Z.eqb_spec (major l) 0),
      (Z.eqb_spec (minor l) (minor rv)); simpl; naive_solver.
  - intros e H. repeat (dcase_in H; try done); by injection H as <-.
  - intros rv warn -> H. destruct (Z.eqb_spec (minor l) (minor rv));
      repeat (dcase_in H; try done); by injection H as <-.
  - apply parse_print.
Qed.

(** Compatibility is symmetric, so two peers running the same check reach the
    same decision about each other. *)
Theorem checkVersion_symmetric (a b : semver) :
  semver_wf a -> semver_wf b ->
  is_ok (checkVersion a (semver_print b)) = is_ok (checkVersion b (semver_print a)).
Proof.
  intros Ha Hb. unfold checkVersion. rewrite !parse_print by done.
  rewrite (Z.eqb_sym (major b)), (Z.eqb_sym (minor b)).
  destruct (Z.eqb_spec (major a) (major b)) as [E|]; [|done]. rewrite E.
  by destruct (major b =? 0), (minor a =? minor b).
Qed.

(** The shipped release 0.7.0 accepts 0.7.9, warns about nothing, and rejects
    0.8.0, 1.7.0 and text that is not a version. *)
Example checkVersion_shipped :
  parseSemver AppVersion = Ok (mkSemver 0 7 0) /\
  checkVersion (mkSemver 0 7 0) (str "0.7.9") = Ok false /\
  is_ok (checkVersion (mkSemver 0 7 0) (str "0.8.0")) = false /\
  is_ok (checkVersion (mkSemver 0 7 0) (str "1.7.0")) = false /\
  is_ok (checkVersion (mkSemver 0 7 0) (str "0.7.0.1")) = false /\
  checkVersion (mkSemver 1 7 0) (str "1.8.0") = Ok true.
Proof. vm_compute. repeat split; reflexivity. Qed.

Lemma checkVersion_symmetric_witness :
  is_ok (checkVersion (mkSemver 1 2 3) (semver_print (mkSemver 1 4 0))) =
  is_ok (checkVersion (mkSemver 1 4 0) (semver_print (mkSemver 1 2 3))).
Proof.
  apply (checkVersion_symmetric (mkSemver 1 2 3) (mkSemver 1 4 0));
    repeat split; vm_compute; discriminate.
Defined.
