(* ===== verification/Crypto.v ===== *)
(** * The cryptographic libraries the code calls

    XChaCha20-Poly1305, HKDF-SHA512, Ed25519, X.509 key encodings, ML-KEM-768,
    X25519, HPKE and the hash functions come from the Go standard library and
    golang.org/x/crypto.  They are the parameter [Crypto] of the development:
    randomness they consume is an explicit argument, drawn by the caller.
    [CryptoOk] states the functional behaviour their documentation promises
    (correctness and lengths); security assumptions are never part of it, a
    theorem that needs one has it as a hypothesis of its own.  [toy_crypto] is
    an executable instance with those laws, used by the witnesses. *)

From S2P Require Import Prelude GoErr.

(** What [x509.ParsePKIXPublicKey] and [x509.ParsePKCS8PrivateKey] return. *)
Inductive x509_key :=
| KeyEd25519 (b : bytes)
| KeyOther.

Class Crypto := {
  (* io.ReadFull(hkdf.New(sha512.New, key, salt, info), make([]byte, size)) *)
  hkdf_read : bytes -> bytes -> bytes -> Z -> option bytes;
  (* hkdf.Expand(sha512.New, prk, info, size) *)
  hkdf_expand : bytes -> bytes -> Z -> option bytes;
  (* key, nonce, plaintext or ciphertext, additional data *)
  xchacha_seal : bytes -> bytes -> bytes -> bytes -> bytes;
  xchacha_open : bytes -> bytes -> bytes -> bytes -> option bytes;
  ed25519_GenerateKey : bytes -> bytes;              (* private key of a seed *)
  ed25519_Public : bytes -> bytes;
  ed25519_Sign : bytes -> bytes -> bytes;            (* private key, message *)
  ed25519_Verify : bytes -> bytes -> bytes -> bool;  (* public key, message, signature *)
  x509_MarshalPKIXPublicKey : bytes -> option bytes;
  x509_ParsePKIXPublicKey : bytes -> option x509_key;
  x509_MarshalPKCS8PrivateKey : bytes -> option bytes;
  x509_ParsePKCS8PrivateKey : bytes -> option x509_key;
  DecapsulationKey768 : Type;
  EncapsulationKey768 : Type;
  mlkem_GenerateKey768 : bytes -> option DecapsulationKey768;
  mlkem_EncapsulationKey : DecapsulationKey768 -> EncapsulationKey768;
  mlkem_Bytes : EncapsulationKey768 -> bytes;
  mlkem_NewEncapsulationKey768 : bytes -> option EncapsulationKey768;
  mlkem_Encapsulate : EncapsulationKey768 -> bytes -> bytes * bytes;
  mlkem_Decapsulate : DecapsulationKey768 -> bytes -> option bytes;
  x25519_GenerateKey : bytes -> option bytes;
  x25519_PublicKey : bytes -> bytes;
  x25519_NewPublicKey : bytes -> option bytes;
  x25519_ECDH : bytes -> bytes -> option bytes;      (* private key, public key *)
  HpkePrivateKey : Type;
  HpkePublicKey : Type;
  HpkeSender : Type;
  HpkeRecipient : Type;
  hpke_GenerateKey : bytes -> option HpkePrivateKey;
  hpke_PublicKey : HpkePrivateKey -> HpkePublicKey;
  hpke_Bytes : HpkePublicKey -> bytes;
  hpke_NewPublicKey : bytes -> option HpkePublicKey;
  hpke_NewSender : HpkePublicKey -> bytes -> option (bytes * HpkeSender);
  hpke_NewRecipient : bytes -> HpkePrivateKey -> option HpkeRecipient;
  hpke_Seal : HpkeSender -> bytes -> option (bytes * HpkeSender);
  hpke_Open : HpkeRecipient -> bytes -> option (bytes * HpkeRecipient);
  sha256_Sum : bytes -> bytes;
  sha3_Sum512 : bytes -> bytes
}.

(** Sizes fixed by the algorithms. *)
Definition NonceSizeX : Z := 24.
Definition KeySize : Z := 32.
Definition TagSize : Z := 16.
Definition SignatureSize : Z := 64.
Definition PublicKeySize : Z := 32.
Definition MLKEMEncapsulationKeySize : Z := 1184.
Definition MLKEMCiphertextSize : Z := 1088.
Definition HpkeTagSize : Z := 16.

Class CryptoOk (C : Crypto) := {
  hkdf_ok k s i n : 0 <= n <= 255 * 64 ->
    exists d, hkdf_read k s i n = Some d /\ blen d = n;
  expand_ok k i n : 0 <= n <= 255 * 64 ->
    exists d, hkdf_expand k i n = Some d /\ blen d = n;
  open_seal k n p a : blen k = KeySize -> blen n = NonceSizeX ->
    xchacha_open k n (xchacha_seal k n p a) a = Some p;
  seal_len k n p a : blen k = KeySize -> blen n = NonceSizeX ->
    blen (xchacha_seal k n p a) = blen p + TagSize;
  verify_sign k m : ed25519_Verify (ed25519_Public k) m (ed25519_Sign k m) = true;
  sign_len k m : blen (ed25519_Sign k m) = SignatureSize;
  pkix_roundtrip p b : x509_MarshalPKIXPublicKey p = Some b ->
    x509_ParsePKIXPublicKey b = Some (KeyEd25519 p);
  pkix_total k : exists b, x509_MarshalPKIXPublicKey (ed25519_Public k) = Some b /\ blen b = 44;
  pkcs8_roundtrip k b : x509_MarshalPKCS8PrivateKey k = Some b ->
    x509_ParsePKCS8PrivateKey b = Some (KeyEd25519 k);
  pkcs8_total k : exists b, x509_MarshalPKCS8PrivateKey k = Some b;
  pkcs8_len seed b : x509_MarshalPKCS8PrivateKey (ed25519_GenerateKey seed) = Some b -> blen b <= 64;
  mlkem_gen r : exists dk, mlkem_GenerateKey768 r = Some dk;
  mlkem_ek_roundtrip ek : mlkem_NewEncapsulationKey768 (mlkem_Bytes ek) = Some ek;
  mlkem_ek_len ek : blen (mlkem_Bytes ek) = MLKEMEncapsulationKeySize;
  mlkem_correct dk r ss ct : mlkem_Encapsulate (mlkem_EncapsulationKey dk) r = (ss, ct) ->
    mlkem_Decapsulate dk ct = Some ss;
  mlkem_ct_len ek r : blen (snd (mlkem_Encapsulate ek r)) = MLKEMCiphertextSize;
  x25519_commutes a b : x25519_ECDH a (x25519_PublicKey b) = x25519_ECDH b (x25519_PublicKey a);
  x25519_pub_ok a : x25519_NewPublicKey (x25519_PublicKey a) = Some (x25519_PublicKey a);
  x25519_gen r : blen r = 32 -> exists k, x25519_GenerateKey r = Some k;
  x25519_pub_len a : blen (x25519_PublicKey a) = 32;
  x25519_ecdh_ok r r' a b : x25519_GenerateKey r = Some a -> x25519_GenerateKey r' = Some b ->
    exists s, x25519_ECDH a (x25519_PublicKey b) = Some s;
  (* sender and recipient of one context after the same number of messages *)
  hpke_synced : Z -> HpkeSender -> HpkeRecipient -> Prop;
  hpke_gen r : exists k, hpke_GenerateKey r = Some k;
  hpke_pub_roundtrip p : hpke_NewPublicKey (hpke_Bytes p) = Some p;
  hpke_sizes : { szs : Z * Z | 0 <= fst szs /\ 0 <= snd szs /\ fst szs + snd szs < 65000 /\
    (forall p, blen (hpke_Bytes p) = fst szs) /\
    (forall p r e s, hpke_NewSender p r = Some (e, s) -> blen e = snd szs) };
  hpke_setup k r : exists enc s rc,
    hpke_NewSender (hpke_PublicKey k) r = Some (enc, s) /\
    hpke_NewRecipient enc k = Some rc /\ hpke_synced 0 s rc;
  hpke_message n s rc m : hpke_synced n s rc -> 0 <= n < 2 ^ 64 ->
    exists ct s' rc', hpke_Seal s m = Some (ct, s') /\ hpke_Open rc ct = Some (m, rc') /\
      blen ct = blen m + HpkeTagSize /\ hpke_synced (n + 1) s' rc';
  sha256_len b : blen (sha256_Sum b) = 32;
  sha3_len b : blen (sha3_Sum512 b) = 64
}.

(** ** An executable instance

    No security whatsoever; every law of [CryptoOk] holds. *)

(** A byte string cut or zero-filled to [n] bytes. *)
Definition fit (n : Z) (b : bytes) : bytes :=
  take (Z.to_nat n) (b ++ replicate (Z.to_nat n) Byte.x00).

Lemma blen_fit n b : 0 <= n -> blen (fit n b) = n.
Proof.
  intros. unfold blen, fit. rewrite length_take, length_app, length_replicate. lia.
Qed.

(** Byte strings of a fixed length. *)
Definition sized (n : Z) : Type := { b : bytes | bool_decide (blen b = n) }.
Definition mk_sized {n} (b : bytes) (H : blen b = n) : sized n :=
  exist _ b (bool_decide_pack _ H).
Definition to_sized (n : Z) (b : bytes) : option (sized n) :=
  match decide (blen b = n) with left H => Some (mk_sized b H) | right _ => None end.

Definition pkix_prefix : bytes := replicate 12 Byte.x30.

#[local] Instance toy_crypto : Crypto := {|
  hkdf_read k s i n := if n <=? 255 * 64 then Some (fit n (k ++ s ++ i)) else None;
  hkdf_expand k i n := if n <=? 255 * 64 then Some (fit n (k ++ i)) else None;
  xchacha_seal k n p a := p ++ fit 16 k;
  xchacha_open k n c a :=
    let l := blen c - 16 in
    if (0 <=? l) && bool_decide (bdrop l c = fit 16 k) then Some (btake l c) else None;
  ed25519_GenerateKey s := fit 32 s;
  ed25519_Public k := fit 32 k;
  ed25519_Sign k m := fit 64 (fit 32 k ++ m);
  ed25519_Verify p m s := bool_decide (s = fit 64 (p ++ m));
  x509_MarshalPKIXPublicKey p := Some (pkix_prefix ++ p);
  x509_ParsePKIXPublicKey b :=
    if bool_decide (btake 12 b = pkix_prefix) then Some (KeyEd25519 (bdrop 12 b)) else None;
  x509_MarshalPKCS8PrivateKey k := Some k;
  x509_ParsePKCS8PrivateKey b := Some (KeyEd25519 b);
  DecapsulationKey768 := sized 1184;
  EncapsulationKey768 := sized 1184;
  mlkem_GenerateKey768 r :=
    Some (mk_sized (fit 1184 r) (blen_fit 1184 r ltac:(lia)));
  mlkem_EncapsulationKey d := d;
  mlkem_Bytes e := `e;
  mlkem_NewEncapsulationKey768 b := to_sized 1184 b;
  mlkem_Encapsulate e r := (fit 32 r, fit 1088 (fit 32 r));
  mlkem_Decapsulate d c := Some (btake 32 c);
  x25519_GenerateKey r := Some (fit 32 r);
  x25519_PublicKey k := fit 32 k;
  x25519_NewPublicKey b := if blen b =? 32 then Some b else None;
  x25519_ECDH a b := Some (map (fun p => bof (Z.lxor (bval (fst p)) (bval (snd p))))
                               (combine (fit 32 a) (fit 32 b)));
  HpkePrivateKey := bytes;
  HpkePublicKey := sized 32;
  HpkeSender := Z;
  HpkeRecipient := Z;
  hpke_GenerateKey r := Some r;
  hpke_PublicKey k := mk_sized (fit 32 k) (blen_fit 32 k ltac:(lia));
  hpke_Bytes p := `p;
  hpke_NewPublicKey b := to_sized 32 b;
  hpke_NewSender p r := Some (fit 32 r, 0);
  hpke_NewRecipient e k := Some 0;
  hpke_Seal s m := Some (m ++ fit 16 (be_put 8 s), s + 1);
  hpke_Open s c :=
    let l := blen c - 16 in
    if (0 <=? l) && bool_decide (bdrop l c = fit 16 (be_put 8 s))
    then Some (btake l c, s + 1) else None;
  sha256_Sum b := fit 32 b;
  sha3_Sum512 b := fit 64 b
|}.

Lemma fit_exact n b : blen b = n -> fit n b = b.
Proof.
  intros <-. unfold fit, blen. rewrite Nat2Z.id. apply take_app_length.
Qed.

(** Opening what the toy ciphers sealed. *)
Lemma split_tag (p t : bytes) :
  blen t = 16 ->
  let c := p ++ t in
  0 <= blen c - 16 /\ bdrop (blen c - 16) c = t /\ btake (blen c - 16) c = p.
Proof.
  intros Ht c. unfold c. rewrite blen_app, Ht. pose proof (blen_nonneg p).
  split_and!; [lia|apply bdrop_app_exact; lia|apply btake_app_exact; lia].
Qed.

Lemma toy_x25519_sym (a b : bytes) :
  map (fun p => bof (Z.lxor (bval (fst p)) (bval (snd p)))) (combine a b) =
  map (fun p => bof (Z.lxor (bval (fst p)) (bval (snd p)))) (combine b a).
Proof.
  revert b. induction a as [|x a IH]; intros [|y b]; simpl; [done..|].
  rewrite Z.lxor_comm, IH. done.
Qed.

Lemma sized_eq {n} (a b : sized n) : `a = `b -> a = b.
Proof.
  destruct a as [x Hx], b as [y Hy]; simpl. intros ->. f_equal. apply proof_irrel.
Qed.

Lemma to_sized_id {n} (e : sized n) : to_sized n (`e) = Some e.
Proof.
  unfold to_sized. destruct (decide (blen (`e) = n)) as [H|H].
  - f_equal. by apply sized_eq.
  - destruct H. destruct e as [b Hb]. exact (bool_decide_unpack _ Hb).
Qed.

#[export] Instance toy_crypto_ok : CryptoOk toy_crypto.
Proof.
  unshelve esplit; cbn -[fit be_put pkix_prefix app Z.mul Z.pow].
  - exact (fun n s rc => s = n /\ rc = n).
  - intros k s i n Hn. destruct (Z.leb_spec n (255 * 64)); [|lia].
    eexists; split; [done|]. apply blen_fit; lia.
  - intros k i n Hn. destruct (Z.leb_spec n (255 * 64)); [|lia].
    eexists; split; [done|]. apply blen_fit; lia.
  - intros k n p a Hk Hn. destruct (split_tag p (fit 16 k)) as (H1 & -> & ->);
      [by apply blen_fit|]. rewrite bool_decide_eq_true_2 by done.
    by destruct (Z.leb_spec 0 (blen (p ++ fit 16 k) - 16)); [|lia].
  - intros. rewrite blen_app, blen_fit by lia. done.
  - intros k m. by apply bool_decide_eq_true_2.
  - intros. by apply blen_fit.
  - intros p b [= <-]. by rewrite bool_decide_eq_true_2.
  - intros k. eexists; split; [done|]. rewrite blen_app, blen_fit by lia. done.
  - by intros k b [= <-].
  - eauto.
  - intros seed b [= <-]. rewrite blen_fit by lia. lia.
  - eauto.
  - intros ek. apply to_sized_id.
  - intros [b Hb]. exact (bool_decide_unpack _ Hb).
  - intros dk r ss ct [= <- <-]. f_equal.
    change (btake 32 (fit 1088 (fit 32 r)) = fit 32 r).
    unfold fit at 1, btake. rewrite take_take.
    change (Z.to_nat 32 `min` Z.to_nat 1088)%nat with (Z.to_nat 32).
    apply (btake_app_exact 32). by rewrite blen_fit.
  - intros. by apply blen_fit.
  - intros a b. f_equal. rewrite !(fit_exact 32 (fit 32 _)) by (by rewrite blen_fit).
    apply toy_x25519_sym.
  - intros. by rewrite blen_fit.
  - eauto.
  - intros. by rewrite blen_fit.
  - eauto.
  - eauto.
  - intros p. apply to_sized_id.
  - exists (32, 32). cbn. split_and!; try lia.
    + intros [b Hb]. exact (bool_decide_unpack _ Hb).
    + intros p r e s [= <- <-]. by apply blen_fit.
  - intros k r. do 3 eexists. done.
  - intros n s rc m [-> ->] Hn. do 3 eexists. split; [done|].
    destruct (split_tag m (fit 16 (be_put 8 n))) as (H1 & -> & ->);
      [by apply blen_fit|]. rewrite bool_decide_eq_true_2 by done.
    destruct (Z.leb_spec 0 (blen (m ++ fit 16 (be_put 8 n)) - 16)); [|lia].
    split; [done|]. rewrite blen_app, blen_fit by lia. done.
  - intros. by apply blen_fit.
  - intros. by apply blen_fit.
Qed.
