(* ===== verification/Fingerprint.v ===== *)
(** * Fingerprints (pkg/fingerprint)

    The renderings of a public key that people compare or see as a name: base64,
    colon-separated hexadecimal, eight emojis, the hash, and a pseudonym. *)

From S2P Require Import Prelude GoErr Strconv Encoding Crypto.

(** ** base64.go, hex.go *)

Definition Base64 (b : bytes) : bytes := EncodeToString RawURLEncoding b.

(** The constant [hex]: the digits in upper case. *)
Definition HEX : bytes := str "0123456789ABCDEF".
Definition HEX_digit (z : Z) : byte := default Byte.x00 (HEX !! Z.to_nat z).

(** The buffer the loop fills: every byte is followed by a colon, except the
    last. *)
Fixpoint Hex (b : bytes) : bytes :=
  match b with
  | [] => []
  | v :: r =>
      [HEX_digit (Z.shiftr (bval v) 4); HEX_digit (Z.land (bval v) 15)] ++
      match r with [] => [] | _ => str ":" ++ Hex r end
  end.

(** ** emoji.go *)

Definition emojiList : list string := [
    "😎"; "👻"; "👍"; "👑"; "🎃"; "🎯"; "🧬"; "🧨"; "🐶"; "🐱"; "🦁"; "🐹"; "🐰"; "🦊"; "🐻"; "🐼"; "🌸"; "🥁"; "🪷";
    "🌹"; "🪩"; "🍁"; "🌳"; "🌵"; "🍎"; "🍌"; "🍇"; "🍓"; "🥝"; "🍕"; "🍔"; "🍟"; "☕️"; "🍦"; "🥕"; "☀️"; "🌙";
    "❄️"; "☁️"; "🧂"; "💡"; "🎹"; "💎"; "📷"; "🏀"; "🎮"; "🎲"; "🎩"; "❤️"; "🎁"; "⏰"; "🧩"; "🧲"; "🔑"; "🚗️";
    "🚀"; "✨"; "🔥"; "🌈"; "🎉"; "🎶"; "🔒"; "📌"; "✅"; "🤖"; "🪐"; "🦴"; "🍩"; "🎪"; "🔮"; "⛱️"; "👽"; "🦄"; "🐧";
    "🦋"; "🐙"; "🦈"; "🦅"; "🦀"; "🪲"; "🌻"; "🍀"; "🌊"; "⛰️"; "🍄"; "🌋"; "🌪️"; "🥑"; "🎸"; "🔭"; "🧭"; "🎨"; "⚡";
    "🗝️"; "🧿"; "🛡️"
]%string.

(** ** pseudonym.go *)

Definition adjectives : list string := [
    "agile"; "amber"; "ancient"; "angry"; "azure"; "bashful"; "bitter"; "blissful"; "bold"; "brave";
    "breezy"; "bright"; "brilliant"; "brisk"; "brittle"; "bubbly"; "calm"; "charming"; "cheerful";
    "chilly"; "clever"; "cloudy"; "cobalt"; "content"; "cool"; "copper"; "coral"; "cozy"; "crimson";
    "crisp"; "cunning"; "curious"; "damp"; "daring"; "deep"; "dew"; "dewy"; "dim"; "dreamy"; "dry";
    "dull"; "dusty"; "eager"; "emerald"; "faint"; "fair"; "faithful"; "fancy"; "fast"; "fearless";
    "feeble"; "fierce"; "fluffy"; "foggy"; "foolish"; "fresh"; "friendly"; "frosty"; "fuzzy";
    "gentle"; "giant"; "gleeful"; "gloomy"; "glossy"; "golden"; "graceful"; "grand"; "grim";
    "grumpy"; "happy"; "harsh"; "hasty"; "hollow"; "humble"; "humid"; "hungry"; "icy"; "indigo";
    "ivory"; "jade"; "jolly"; "jovial"; "keen"; "kind"; "lavender"; "lazy"; "lilac"; "lively";
    "lofty"; "loose"; "loud"; "lucky"; "maroon"; "massive"; "meek"; "mellow"; "merry"; "mighty";
    "mild"; "misty"; "mossy"; "muddy"; "navy"; "neat"; "nervous"; "nimble"; "noble"; "noisy"; "odd";
    "olive"; "pale"; "peaceful"; "peach"; "pearl"; "peridot"; "petite"; "plain"; "playful"; "plum";
    "polite"; "prime"; "proud"; "pure"; "quaint"; "queer"; "quick"; "quiet"; "rainy"; "rapid";
    "rare"; "raw"; "rich"; "ripe"; "rough"; "royal"; "ruby"; "rustic"; "sage"; "sapphire"; "sassy";
    "scarce"; "scarlet"; "secure"; "serene"; "shallow"; "sharp"; "sheer"; "shiny"; "shrill"; "shy";
    "silent"; "silky"; "silver"; "sleepy"; "slim"; "slimy"; "slow"; "smart"; "smooth"; "sneaky";
    "soft"; "solemn"; "somber"; "spare"; "speedy"; "spicy"; "stale"; "stark"; "steady"; "stealthy";
    "stern"; "stiff"; "stormy"; "stout"; "strange"; "strong"; "subtle"; "sullen"; "sunny"; "supple";
    "sweet"; "swift"; "tame"; "tan"; "tart"; "taut"; "teal"; "tender"; "thick"; "thin"; "tidy";
    "tight"; "tiny"; "tough"; "tranquil"; "trim"; "tropical"; "true"; "upbeat"; "vast"; "velvety";
    "vibrant"; "violet"; "vivid"; "warm"; "wary"; "weary"; "weird"; "wet"; "whimsical"; "wild";
    "windy"; "wise"; "wispy"; "witty"; "wonderful"; "woozy"; "young"; "youthful"; "zany"; "zealous"
]%string.

Definition nouns : list string := [
    "albatross"; "alligator"; "alpaca"; "ant"; "anteater"; "armadillo"; "badger"; "barnacle";
    "barracuda"; "bat"; "bear"; "beaver"; "bee"; "beetle"; "bison"; "boar"; "bobcat"; "buffalo";
    "butterfly"; "camel"; "caribou"; "cat"; "centipede"; "chameleon"; "cheetah"; "chicken";
    "chimpanzee"; "cicada"; "clam"; "cobra"; "coral"; "cougar"; "cow"; "coyote"; "crab"; "crane";
    "cricket"; "crocodile"; "crow"; "deer"; "dingo"; "dog"; "dolphin"; "donkey"; "dragon"; "duck";
    "eagle"; "eel"; "elk"; "falcon"; "ferret"; "fish"; "flamingo"; "fox"; "frog"; "gazelle";
    "gecko"; "gibbon"; "giraffe"; "goat"; "goose"; "gopher"; "gorilla"; "grasshopper"; "gull";
    "hamster"; "hawk"; "heron"; "hippo"; "hornet"; "horse"; "hummingbird"; "ibex"; "iguana";
    "impala"; "jackal"; "jaguar"; "jellyfish"; "kangaroo"; "koala"; "lemur"; "leopard"; "lion";
    "lizard"; "llama"; "lobster"; "lynx"; "magpie"; "manatee"; "mandrill"; "marten"; "mink"; "mole";
    "mongoose"; "monkey"; "moose"; "mouse"; "newt"; "ocelot"; "octopus"; "opossum"; "orangutan";
    "orca"; "ostrich"; "otter"; "owl"; "ox"; "panda"; "panther"; "parrot"; "peacock"; "pelican";
    "penguin"; "pig"; "pigeon"; "platypus"; "pony"; "porcupine"; "puma"; "python"; "rabbit";
    "raccoon"; "rat"; "raven"; "reindeer"; "rhino"; "rooster"; "salamander"; "salmon"; "scallop";
    "scorpion"; "seahorse"; "seal"; "serval"; "shark"; "sheep"; "shrew"; "shrimp"; "skunk"; "sloth";
    "snail"; "snake"; "sparrow"; "spider"; "squid"; "squirrel"; "stingray"; "stork"; "swan";
    "tapir"; "tarantula"; "termite"; "tiger"; "toad"; "toucan"; "turkey"; "turtle"; "viper";
    "vulture"; "walrus"; "wasp"; "weasel"; "weevil"; "whale"; "wolf"; "wolverine"; "wombat";
    "woodpecker"; "worm"; "yak"; "zebra"
]%string.

(** [l[n % uint32(len(l))]] *)
Definition pick (l : list string) (n : Z) : bytes :=
  str (default EmptyString (l !! Z.to_nat (n mod Z.of_nat (length l)))).

Definition space : byte := Byte.x20.

Section hashed.
Context `{Crypto}.

(** ** sum.go *)

Definition Sum (b : bytes) : bytes := Base64 (sha256_Sum b).

Definition Emoji (s : bytes) : list bytes :=
  let hash := sha256_Sum s in
  map (fun i => let offset := Z.of_nat i * 4 in pick emojiList (be_get (bslice offset (offset + 4) hash)))
    (seq 0 8).

Definition Pseudonym (seed : bytes) : bytes :=
  let hash := sha256_Sum seed in
  let adj1 := pick adjectives (be_get (bslice 0 4 hash)) in
  let adj2 := pick adjectives (be_get (bslice 4 8 hash)) in
  let noun := pick nouns (be_get (bslice 8 12 hash)) in
  let num := be_get (bslice 12 16 hash) mod 99 + 1 in
  adj1 ++ str " " ++ adj2 ++ str " " ++ noun ++ str " " ++ Itoa num.

End hashed.

(** ** Lemmas *)

Lemma HEX_digit_inj a b : 0 <= a < 16 -> 0 <= b < 16 -> HEX_digit a = HEX_digit b -> a = b.
Proof.
  intros Ha Hb E. unfold HEX_digit in E.
  assert (Hn : NoDup HEX) by (by apply (bool_decide_unpack _)).
  assert (Hl : length HEX = 16%nat) by reflexivity.
  destruct (lookup_lt_is_Some_2 HEX (Z.to_nat a)) as [x Ex]; [lia|].
  destruct (lookup_lt_is_Some_2 HEX (Z.to_nat b)) as [y Ey]; [lia|].
  rewrite Ex, Ey in E. simpl in E. subst y.
  pose proof (NoDup_lookup _ _ _ _ Hn Ex Ey). lia.
Qed.

Lemma nibbles x : 0 <= Z.shiftr (bval x) 4 < 16 /\ 0 <= Z.land (bval x) 15 < 16 /\
  bval x = Z.shiftr (bval x) 4 * 16 + Z.land (bval x) 15.
Proof.
  pose proof (bval_range x). rewrite Z.shiftr_div_pow2 by lia. change 15 with (Z.ones 4).
  rewrite Z.land_ones by lia. change (2 ^ 4) with 16. Z.to_euclidean_division_equations. lia.
Qed.

Lemma Hex_inj a b : Hex a = Hex b -> a = b.
Proof.
  revert b. induction a as [|x a IH]; intros [|y b] E; try done.
  cbn [Hex app] in E. injection E as E1 E2 E3.
  pose proof (nibbles x) as (X1 & X2 & X3). pose proof (nibbles y) as (Y1 & Y2 & Y3).
  apply HEX_digit_inj in E1, E2; try done.
  assert (x = y) as -> by (apply bval_inj; lia). f_equal.
  destruct a as [|x' a], b as [|y' b]; try done. apply IH. exact (app_inv_head (str ":") _ _ E3).
Qed.

Lemma pick_in l n : 0 <= n -> l <> [] -> exists w, w ∈ l /\ pick l n = str w.
Proof.
  intros Hn Hl. unfold pick.
  pose proof (Z.mod_pos_bound n (Z.of_nat (length l))).
  destruct (lookup_lt_is_Some_2 l (Z.to_nat (n mod Z.of_nat (length l)))) as [w Ew].
  { destruct l; [done|]. cbn [length] in *. lia. }
  exists w. rewrite Ew. split; [by eapply list_elem_of_lookup_2|done].
Qed.

Lemma be_get_nonneg b : 0 <= be_get b.
Proof. pose proof (be_get_range b). lia. Qed.

Lemma words_plain : Forall (fun w => space ∉ str w) (adjectives ++ nouns).
Proof. apply (bool_decide_unpack _). vm_compute. exact I. Qed.

Lemma SplitN_word h r n : space ∉ h -> SplitN space (h ++ str " " ++ r) (S (S n)) = h :: SplitN space r (S n).
Proof. intros Hh. cbn [SplitN]. change (str " " ++ r) with (space :: r). by rewrite break_at_app. Qed.

Lemma SplitN_last h n : space ∉ h -> SplitN space h (S n) = [h].
Proof. intros Hh. destruct n; cbn [SplitN]; [done|]. by rewrite break_at_none. Qed.

Section laws.
Context `{Crypto} `{!CryptoOk _}.

(** The textual forms that name a key in full, hexadecimal and base64, are
    different for different keys, and the base64 form decodes to the key. *)
Theorem fingerprint_identifies a b :
  (Hex a = Hex b <-> a = b) /\ (Base64 a = Base64 b <-> a = b) /\
  DecodeString RawURLEncoding (Base64 a) = Some a.
Proof.
  pose proof RawURLEncoding_ok as He. split_and!.
  - split; [apply Hex_inj|by intros ->].
  - split; [by apply EncodeToString_inj|by intros ->].
  - by apply decode_encode.
Qed.

(** A pseudonym is two adjectives, a noun and a number from 1 to 99, separated
    by single spaces: splitting it at the spaces gives back exactly those. *)
Theorem pseudonym_shape seed :
  exists a1 a2 n num, a1 ∈ adjectives /\ a2 ∈ adjectives /\ n ∈ nouns /\ 1 <= num <= 99 /\
    Split space (Pseudonym seed) = [str a1; str a2; str n; Itoa num].
Proof.
  set (hash := sha256_Sum seed).
  destruct (pick_in adjectives (be_get (bslice 0 4 hash))) as (a1 & H1 & E1); [apply be_get_nonneg|done|].
  destruct (pick_in adjectives (be_get (bslice 4 8 hash))) as (a2 & H2 & E2); [apply be_get_nonneg|done|].
  destruct (pick_in nouns (be_get (bslice 8 12 hash))) as (n & H3 & E3); [apply be_get_nonneg|done|].
  set (num := be_get (bslice 12 16 hash) mod 99 + 1).
  assert (Hnum : 1 <= num <= 99) by (pose proof (Z.mod_pos_bound (be_get (bslice 12 16 hash)) 99); lia).
  exists a1, a2, n, num. split_and!; try done; try lia.
  unfold Pseudonym. fold hash. cbv zeta. fold num. rewrite E1, E2, E3.
  pose proof words_plain as Hw. rewrite Forall_app, !Forall_forall in Hw. destruct Hw as [Ha Hn'].
  assert (Hi : space ∉ Itoa num).
  { unfold Itoa. destruct (Z.ltb_spec num 0); [lia|]. apply itoa_no_byte; [lia|done|set_solver]. }
  unfold Split. destruct (length _) as [|[|[|len]]] eqn:El.
  1-3: rewrite !length_app in El; cbn in El; lia.
  rewrite !SplitN_word by eauto. by rewrite SplitN_last.
Qed.

(** Eight of the 96 emojis, which are all different. *)
Theorem emoji_shape s :
  length (Emoji s) = 8%nat /\ Forall (fun e => exists w, w ∈ emojiList /\ e = str w) (Emoji s) /\
  length emojiList = 96%nat /\ NoDup emojiList.
Proof.
  split_and!; [by unfold Emoji; rewrite length_map, length_seq| |done|apply (bool_decide_unpack _); vm_compute; exact I].
  unfold Emoji. apply Forall_map, Forall_forall. intros i _.
  apply pick_in; [apply be_get_nonneg|done].
Qed.

End laws.
