(* ===== verification/Enigma.v ===== *)
(** * Primitives of the protocol

    internal/enigma/enigma.go (symmetric encryption), pkg/attest/attest.go
    (Ed25519 identity) and pkg/exchange/{mlkem,ecdh}.go, over the interface
    [Crypto]. *)

From S2P Require Import Prelude GoErr Process Crypto.

Section enigma.
Context `{Crypto} {St : Type}.
Implicit Types (secret salt info : bytes).

(** ** internal/enigma *)

Definition base32alphabet : bytes := str "ABCDEFGHIJKLMNOPQRSTUVWXYZ234567".
Definition nonceSize : Z := NonceSizeX.

(** [Enigma.aead]: an XChaCha20-Poly1305 instance is its key. *)
Record Enigma := mkEnigma { aead_key : bytes }.

Definition Derive (key salt info : bytes) (size : Z) : result bytes :=
  of_option (errorf "hkdf: entropy limit reached") (hkdf_read key salt info size).

(** [chacha20poly1305.NewX]: the only error is a key of the wrong length. *)
Definition chacha20poly1305_NewX (key : bytes) : result Enigma :=
  if blen key =? KeySize then Ok (mkEnigma key)
  else Err (errorf "chacha20poly1305: bad key length").

Definition NewEnigma (secret salt info : bytes) : result Enigma :=
  match Derive secret salt info KeySize with
  | Err e => Err (wrapf "derive key" e)
  | Ok key => map_err (wrapf "chacha20poly1305X") (chacha20poly1305_NewX key)
  end.

(** [Seal(nonce, nonce, plaintext, nil)] appends to the nonce. *)
Definition Encrypt (e : Enigma) (plaintext : bytes) : prog St bytes :=
  do nonce <- ask (RandBytes nonceSize);
  Ret (nonce ++ xchacha_seal (aead_key e) nonce plaintext []).

Definition Decrypt (e : Enigma) (ciphertext : bytes) : result bytes :=
  if blen ciphertext <? nonceSize then Err (Sentinel ErrInvalidCiphertext)
  else
    let nonce := btake nonceSize ciphertext in
    let ct := bdrop nonceSize ciphertext in
    map_err (wrapf "aead.Open")
      (of_option (errorf "chacha20poly1305: message authentication failed")
         (xchacha_open (aead_key e) nonce ct [])).

Definition base32_char (b : byte) : byte :=
  nth (Z.to_nat (bval b mod 32)) base32alphabet Byte.x00.

Definition Text (l : Z) : prog St bytes :=
  do src <- ask (RandBytes l);
  Ret (map base32_char src).

(** ** pkg/attest *)

Record Attest := mkAttest { publicKey : bytes; privateKey : bytes }.

Definition Sign (a : Attest) (msg : bytes) : result bytes :=
  Ok (ed25519_Sign (privateKey a) msg).

Definition parsePublicKey (key : bytes) : result bytes :=
  match x509_ParsePKIXPublicKey key with
  | None => Err (errorf "parse")
  | Some (KeyEd25519 p) => Ok p
  | Some KeyOther => Err (Sentinel ErrInvalidKey)
  end.

Definition Verify (remote msg sig : bytes) : bool :=
  match parsePublicKey remote with
  | Ok p => ed25519_Verify p msg sig
  | Err _ => false
  end.

Definition IsValidPublicKey (b : bytes) : bool := is_ok (parsePublicKey b).

(** Panics when the key cannot be marshalled. *)
Definition MarshalPublicKey (a : Attest) : option bytes :=
  x509_MarshalPKIXPublicKey (publicKey a).

Definition MarshalPrivateKey (a : Attest) : result bytes :=
  of_option (errorf "x509: unknown key type while marshaling PKCS#8")
    (x509_MarshalPKCS8PrivateKey (privateKey a)).

Definition NewAttest : prog St (result Attest) :=
  do seed <- ask (RandBytes 32);
  let private := ed25519_GenerateKey seed in
  Ret (Ok (mkAttest (ed25519_Public private) private)).

Definition LoadAttest (data : bytes) : result Attest :=
  match x509_ParsePKCS8PrivateKey data with
  | None => Err (errorf "parsing key")
  | Some (KeyEd25519 private) => Ok (mkAttest (ed25519_Public private) private)
  | Some KeyOther => Err (Sentinel ErrInvalidKey)
  end.

(** An identity whose halves belong together, as [New] and [Load] build it. *)
Definition attest_wf (a : Attest) : Prop := publicKey a = ed25519_Public (privateKey a).

(** ** pkg/exchange: ML-KEM-768 and X25519 *)

Record MLKEM := mkMLKEM {
  mlkem_public : EncapsulationKey768; mlkem_private : DecapsulationKey768
}.

Definition NewMLKEM : prog St (result MLKEM) :=
  do seed <- ask (RandBytes 64);
  Ret match mlkem_GenerateKey768 seed with
      | None => Err (errorf "mlkem: key generation")
      | Some private => Ok (mkMLKEM (mlkem_EncapsulationKey private) private)
      end.

Definition Decapsulate (m : MLKEM) (ct : bytes) : result bytes :=
  of_option (errorf "mlkem: invalid ciphertext length")
    (mlkem_Decapsulate (mlkem_private m) ct).

Definition EncapsulateMLKEM (remote : bytes) : prog St (result (bytes * bytes)) :=
  match mlkem_NewEncapsulationKey768 remote with
  | None => Ret (Err (errorf "mlkem: invalid encapsulation key"))
  | Some public =>
      do r <- ask (RandBytes 32);
      Ret (Ok (mlkem_Encapsulate public r))
  end.

(** The key pair is its private key. *)
Record ECDH := mkECDH { ecdh_private : bytes; ecdh_public : bytes }.

Definition NewECDH : prog St (result ECDH) :=
  do seed <- ask (RandBytes 32);
  Ret match x25519_GenerateKey seed with
      | None => Err (errorf "ecdh: key generation")
      | Some key => Ok (mkECDH key (x25519_PublicKey key))
      end.

Definition ECDH_Exchange (e : ECDH) (remote : bytes) : result bytes :=
  match x25519_NewPublicKey remote with
  | None => Err (wrapf "parsing key" (errorf "crypto/ecdh: invalid public key"))
  | Some pub =>
      map_err (wrapf "performing ecdh exchange")
        (of_option (errorf "crypto/ecdh: bad X25519 remote ECDH input: low order point")
           (x25519_ECDH (ecdh_private e) pub))
  end.

(** ** Lemmas *)

Definition enigma_wf (e : Enigma) : Prop := blen (aead_key e) = KeySize.

Lemma NewEnigma_wf secret salt info e :
  NewEnigma secret salt info = Ok e -> enigma_wf e.
Proof.
  unfold NewEnigma, chacha20poly1305_NewX. intros Hn.
  destruct (Derive secret salt info KeySize); [|done].
  destruct (Z.eqb_spec (blen a) KeySize); [|done]. simpl in Hn. by injection Hn as <-.
Qed.

Lemma base32_char_ascii b : bval (base32_char b) < 128.
Proof.
  unfold base32_char. pose proof (Z.mod_pos_bound (bval b) 32).
  assert (Hall : Forall (fun x => bval x < 128) base32alphabet)
    by (vm_compute; repeat constructor).
  rewrite List.Forall_forall in Hall. apply Hall, nth_In.
  change (length base32alphabet) with 32%nat. lia.
Qed.

Section laws.
Context `{!CryptoOk _}.

Lemma Derive_ok key salt info n :
  0 <= n <= 255 * 64 -> exists d, Derive key salt info n = Ok d /\ blen d = n.
Proof.
  intros Hn. destruct (hkdf_ok key salt info n Hn) as (d & Hd & Hl).
  exists d. unfold Derive. by rewrite Hd.
Qed.

Lemma NewEnigma_ok secret salt info :
  exists e, NewEnigma secret salt info = Ok e /\ enigma_wf e.
Proof.
  destruct (Derive_ok secret salt info KeySize) as (d & Hd & Hl); [unfold KeySize; lia|].
  exists (mkEnigma d). unfold NewEnigma, chacha20poly1305_NewX. by rewrite Hd, Hl.
Qed.

(** What one side encrypts the other decrypts. *)
Lemma Decrypt_sealed e nonce p :
  enigma_wf e -> blen nonce = nonceSize ->
  Decrypt e (nonce ++ xchacha_seal (aead_key e) nonce p []) = Ok p.
Proof.
  intros He Hn. unfold Decrypt. rewrite blen_app, Hn.
  pose proof (blen_nonneg (xchacha_seal (aead_key e) nonce p [])).
  destruct (Z.ltb_spec (nonceSize + blen (xchacha_seal (aead_key e) nonce p [])) nonceSize); [lia|].
  rewrite btake_app_exact, bdrop_app_exact by done. by rewrite open_seal.
Qed.

Lemma sealed_len e nonce p :
  enigma_wf e -> blen nonce = nonceSize ->
  blen (nonce ++ xchacha_seal (aead_key e) nonce p []) = blen p + 40.
Proof.
  intros He Hn. rewrite blen_app, seal_len, Hn by done.
  unfold nonceSize, NonceSizeX, TagSize. lia.
Qed.

Lemma Verify_Sign a pk msg sig :
  attest_wf a -> MarshalPublicKey a = Some pk -> Sign a msg = Ok sig ->
  Verify pk msg sig = true.
Proof.
  unfold attest_wf, MarshalPublicKey, Sign, Verify, parsePublicKey.
  intros Hw Hm [= <-]. rewrite (pkix_roundtrip _ _ Hm), Hw. apply verify_sign.
Qed.

Lemma LoadAttest_marshal a data :
  attest_wf a -> MarshalPrivateKey a = Ok data -> LoadAttest data = Ok a.
Proof.
  unfold attest_wf, MarshalPrivateKey, LoadAttest. intros Hw Hm.
  rewrite of_option_ok in Hm. rewrite (pkcs8_roundtrip _ _ Hm), <- Hw. by destruct a.
Qed.

End laws.
End enigma.

