(* ===== verification/Serde.v ===== *)
(** * Signed serialization and padding (kamune.go, serde.go) *)

From S2P Require Import Prelude GoErr Process Wire Pb Route Crypto Enigma.

(** ** Constants of kamune.go *)

Definition reservedProtocolOverhead : Z := 4 * 1024.
Definition encryptionOverhead : Z := 40.
Definition frameTargetSize : Z := MaxUint16 - encryptionOverhead.
Definition maxTransportSize : Z := MaxUint16 - reservedProtocolOverhead.
Definition sessionIDLength : Z := 24.
Definition handshakeInfo : bytes := str "kamune/handshake/v1".
Definition handshakeC2SInfo : bytes := str "kamune/handshake/client-to-server/v1/".
Definition handshakeS2CInfo : bytes := str "kamune/handshake/server-to-client/v1/".
Definition handshakeSaltSize : Z := 16.
Definition handshakeChallengeSize : Z := 32.
Definition transportSignInfo : bytes := str "kamune/transport-sign/v1".
Definition resumptionRootInfo : bytes := str "kamune/resumption-root/v1".
Definition resumptionTokenInfo : bytes := str "kamune/resumption/token/v1/".
Definition resumptionGracePeriod : Z := 24 * Hour.
Definition resumptionTokenCount : Z := 20.
Definition resumptionTokenSize : Z := 32.

Definition paddingBuckets : list Z :=
  [512; 1024; 4 * 1024; 16 * 1024; 32 * 1024; frameTargetSize].
Definition bumpProbabilities : list Z := [80; 15; 4; 1].

(** ** Padding arithmetic *)

(** [for n >= 128 { n >>= 7; size++ }]; nine shifts clear any [int]. *)
Fixpoint varintSize_loop (fuel : nat) (n size : Z) : Z :=
  match fuel with
  | O => size
  | S f => if 128 <=? n then varintSize_loop f (Z.shiftr n 7) (size + 1) else size
  end.

Definition varintSize (n : Z) : Z := varintSize_loop 9 n 1.

(** The [range] loop: the index of the first bucket that fits. *)
Fixpoint first_fit (baseSize : Z) (buckets : list Z) (i : Z) : option Z :=
  match buckets with
  | [] => None
  | size :: rest => if baseSize <=? size then Some i else first_fit baseSize rest (i + 1)
  end.

Definition naturalBucketIndex (baseSize : Z) : Z :=
  match first_fit baseSize paddingBuckets 0 with
  | Some i => i
  | None => Z.of_nat (length paddingBuckets) - 1
  end.

(** The second loop of [selectBump]: subtract probabilities until [n] falls
    below one. *)
Fixpoint bump_level (n : Z) (ps : list Z) (i : Z) : option Z :=
  match ps with
  | [] => None
  | p :: rest => if n <? p then Some i else bump_level (n - p) rest (i + 1)
  end.

(** The [for range 4] loop of [padSignedTransport]. *)
Fixpoint pad_loop (k : nat) (room padLen : Z) : Z :=
  match k with
  | O => padLen
  | S k' =>
      let overhead := 1 + varintSize padLen in
      let newPadLen := Z.max (room - overhead) 0 in
      if newPadLen =? padLen then padLen else pad_loop k' room newPadLen
  end.

(** The padding length chosen when [target - baseSize = room > 0]. *)
Definition padding_length (room : Z) : Z :=
  let worstCaseOverhead := 4 in
  pad_loop 4 room (Z.max (room - worstCaseOverhead) 0).

Section serde.
Context `{Crypto} `{ProtoRuntime} {St : Type}.

Definition selectBump : prog St Z :=
  let total := foldl Z.add 0 bumpProbabilities in
  do n <- ask (IntN total);
  Ret match bump_level n bumpProbabilities 0 with
      | Some i => i
      | None => Z.of_nat (length bumpProbabilities) - 1
      end.

Definition selectBucketSize (baseSize : Z) : prog St Z :=
  let idx := naturalBucketIndex baseSize in
  do bump <- selectBump;
  let idx := idx + bump in
  let idx := if Z.of_nat (length paddingBuckets) <=? idx
             then Z.of_nat (length paddingBuckets) - 1 else idx in
  Ret (nth (Z.to_nat idx) paddingBuckets 0).

Definition randomBytes (l : Z) : prog St bytes := ask (RandBytes l).

Definition marshal_result {M} `{Message M} (m : M) : result bytes :=
  of_option (errorf "proto: marshal") (Marshal m).
Definition unmarshal_result {M} `{Message M} (b : bytes) : result M :=
  of_option (errorf "proto: cannot parse invalid wire-format data") (Unmarshal b).

Definition with_padding (st : SignedTransport) (pad : bytes) : SignedTransport :=
  mkSignedTransport (st_Data st) (st_Signature st) (st_Metadata st) pad.

Definition padSignedTransport (st : SignedTransport) : prog St (result bytes) :=
  let st := with_padding st [] in
  let baseSize := Size st in
  do target <- selectBucketSize baseSize;
  if target <=? baseSize then Ret (marshal_result st)
  else
    do padding <- randomBytes (padding_length (target - baseSize));
    Ret (marshal_result (with_padding st padding)).

(** ** Signing and envelopes *)

(** "kamune/transport-sign/v1" || varint(len(metadata)) || metadata || data *)
Definition signingInput (metadataBytes data : bytes) : bytes :=
  transportSignInfo ++ uvarint (u64 (blen metadataBytes)) ++ metadataBytes ++ data.

Record signedSerde := newSignedSerde { serde_remote : bytes; serde_attest : Attest }.

(** crypto/rand.Text: 26 characters of the base32 alphabet. *)
Definition rand_Text : prog St bytes := Text 26.

Definition timestamppb_Now : prog St timestamp :=
  do t <- ask Now;
  Ret (timestamp_new t).

(** A [Metadata] wraps the protobuf message; [md_route] is its [Route()]. *)
Definition md_route (md : pb_Metadata) : Route := RouteFromProto (md_Route md).

Definition serialize (s : signedSerde) {M} `{Message M} (msg : M) (route : Route)
    (sequence : Z) : prog St (result (bytes * pb_Metadata)) :=
  match marshal_result msg with
  | Err e => Ret (Err (wrapf "marshalling message" e))
  | Ok message =>
      if maxTransportSize <? blen message then Ret (Err (Sentinel ErrMessageTooLarge))
      else
        do id <- rand_Text;
        do ts <- timestamppb_Now;
        let md := mkMetadata id (Some ts) sequence (ToProto route) in
        match marshal_result md with
        | Err e => Ret (Err (wrapf "marshalling metadata" e))
        | Ok metadataBytes =>
            match Sign (serde_attest s) (signingInput metadataBytes message) with
            | Err e => Ret (Err (wrapf "signing" e))
            | Ok sig =>
                let st := mkSignedTransport message sig metadataBytes [] in
                try payload <- padSignedTransport st or "padding signed transport";
                Ret (Ok (payload, md))
            end
        end
  end.

Definition deserialize (s : signedSerde) {M} `{Message M} (payload : bytes)
  : result (pb_Metadata * M) :=
  match unmarshal_result (M := SignedTransport) payload with
  | Err e => Err (wrapf "unmarshalling data" e)
  | Ok st =>
      let msg := st_Data st in
      let metadataBytes := st_Metadata st in
      if negb (Verify (serde_remote s) (signingInput metadataBytes msg) (st_Signature st))
      then Err (Sentinel ErrInvalidSignature)
      else
        match unmarshal_result (M := pb_Metadata) metadataBytes with
        | Err e => Err (wrapf "unmarshalling metadata" e)
        | Ok md =>
            match unmarshal_result (M := M) msg with
            | Err e => Err (wrapf "unmarshalling message" e)
            | Ok dst => Ok (md, dst)
            end
        end
  end.

Definition routeFromST (st : SignedTransport) : result Route :=
  match unmarshal_result (M := pb_Metadata) (st_Metadata st) with
  | Err e => Err (wrapf "unmarshalling metadata" e)
  | Ok md => Ok (RouteFromProto (md_Route md))
  end.

Definition readSignedTransport : prog St (result SignedTransport) :=
  try payload <- ask ReadBytes or "reading payload";
  Ret match unmarshal_result (M := SignedTransport) payload with
      | Err e => Err (wrapf "unmarshalling transport" e)
      | Ok st => Ok st
      end.

End serde.

(** ** Padding: how long a payload is *)

Lemma varintSize_small n : 0 <= n < 2 ^ 21 ->
  (0 <= n < 128 /\ varintSize n = 1) \/ (128 <= n < 16384 /\ varintSize n = 2) \/
  (16384 <= n < 2 ^ 21 /\ varintSize n = 3).
Proof.
  intros Hn. unfold varintSize. cbn [varintSize_loop].
  rewrite !Z.shiftr_div_pow2 by lia. change (2 ^ 7) with 128.
  destruct (Z.leb_spec 128 n); [|lia].
  pose proof (Z.div_mod n 128). pose proof (Z.mod_pos_bound n 128).
  destruct (Z.leb_spec 128 (n / 128)); [|lia].
  pose proof (Z.div_mod (n / 128) 128). pose proof (Z.mod_pos_bound (n / 128) 128).
  destruct (Z.leb_spec 128 (n / 128 / 128)); lia.
Qed.

(** Exhaustive check of a property of the integers [lo .. lo + n - 1]. *)
Fixpoint check_range (P : Z -> bool) (n : nat) (lo : Z) : bool :=
  match n with
  | O => true
  | S n' => P lo && check_range P n' (lo + 1)
  end.

Lemma check_range_sound P n lo z :
  check_range P n lo = true -> lo <= z < lo + Z.of_nat n -> P z = true.
Proof.
  revert lo. induction n as [|n IH]; intros lo Hc Hz; [lia|].
  simpl in Hc. apply andb_prop in Hc as [H1 H2].
  destruct (Z.eq_dec z lo) as [->|]; [done|]. apply (IH (lo + 1)); [done|lia].
Qed.

(** The chosen length leaves the encoded padding field at most one byte short
    of the room, and never over it; no padding is written only when at most two
    bytes are missing.  There are 65,535 cases. *)
Lemma padding_length_fits room :
  0 < room <= MaxUint16 ->
  let p := padding_length room in
  0 <= p <= room /\
  (p = 0 -> room <= 2) /\
  (0 < p -> room - 1 <= p + 1 + varintSize p <= room).
Proof.
  intros Hr p.
  pose (P := fun r => let q := padding_length r in
    ((q =? 0) && (r <=? 2)) ||
    ((0 <? q) && (r - 1 <=? q + 1 + varintSize q) && (q + 1 + varintSize q <=? r))).
  assert (Hc : check_range P (Z.to_nat MaxUint16) 1 = true) by (vm_compute; reflexivity).
  pose proof (check_range_sound P _ 1 room Hc ltac:(unfold MaxUint16 in *; lia)) as HP.
  unfold P in HP. fold p in HP. clearbody p. clear Hc P.
  assert (1 <= varintSize p) as Hv.
  { unfold varintSize. generalize 9%nat. clear. intros f.
    assert (G : forall f n s, 1 <= s -> 1 <= varintSize_loop f n s); [|by apply G].
    clear. induction f as [|f IH]; intros n s Hs; simpl; [done|].
    destruct (128 <=? n); [apply IH; lia|done]. }
  lia.
Qed.

(** [varintSize] is the length of the varint protobuf writes. *)
Lemma varintSize_loop_uvarint f n s :
  0 <= n -> varintSize_loop f n s = s - 1 + blen (uvarint_go f n).
Proof.
  revert n s. induction f as [|f IH]; intros n s Hn; simpl.
  - rewrite blen_cons, blen_nil. lia.
  - destruct (Z.leb_spec 128 n), (Z.ltb_spec n 128); try lia; rewrite blen_cons.
    + rewrite Z.shiftr_div_pow2 by lia. change (2 ^ 7) with 128.
      rewrite IH by (apply Z.div_pos; lia). lia.
    + rewrite blen_nil. lia.
Qed.

Lemma uvarint_go_fuel f x :
  0 <= x < 128 * 128 ^ Z.of_nat f -> uvarint_go (S f) x = uvarint_go f x.
Proof.
  revert x. induction f as [|f IH]; intros x Hx.
  - simpl in *. destruct (Z.ltb_spec x 128); [done|lia].
  - rewrite Nat2Z.inj_succ, Z.pow_succ_r in Hx by lia.
    remember (S f) as g. cbn [uvarint_go]. subst g. rewrite IH; [done|].
    split; [apply Z.div_pos; lia|apply Z.div_lt_upper_bound; lia].
Qed.

Lemma varintSize_uvarint n : 0 <= n < 2 ^ 63 -> varintSize n = uvarint_len n.
Proof.
  intros Hn. unfold varintSize, uvarint_len, uvarint.
  rewrite varintSize_loop_uvarint by lia. rewrite (uvarint_go_fuel 9); [lia|]. simpl. lia.
Qed.

(** The bucket [selectBucketSize] returns for a given random draw. *)
Definition bucket_for (baseSize n : Z) : Z :=
  let bump := match bump_level n bumpProbabilities 0 with Some i => i | None => 3 end in
  let idx := naturalBucketIndex baseSize + bump in
  nth (Z.to_nat (if 6 <=? idx then 5 else idx)) paddingBuckets 0.

Lemma bump_level_range n : 0 <= match bump_level n bumpProbabilities 0 with Some i => i | None => 3 end <= 3.
Proof.
  assert (G : forall ps n i j, bump_level n ps i = Some j -> i <= j < i + Z.of_nat (length ps)).
  { induction ps as [|p ps IH]; intros m i j E; simpl in *; [done|].
    destruct (m <? p); [simplify_eq; lia|]. apply IH in E. lia. }
  destruct (bump_level n bumpProbabilities 0) eqn:E; [|lia].
  apply G in E. simpl in E. lia.
Qed.

(** The bucket fits every payload that fits the last bucket. *)
Lemma bucket_for_fits baseSize n :
  bucket_for baseSize n ∈ paddingBuckets /\
  (baseSize <= frameTargetSize -> baseSize <= bucket_for baseSize n) /\
  512 <= bucket_for baseSize n <= frameTargetSize /\
  (baseSize <= 512 -> bucket_for baseSize n <= 16384).
Proof.
  unfold bucket_for. cbv zeta. pose proof (bump_level_range n) as Hb.
  set (b := match bump_level n bumpProbabilities 0 with Some i => i | None => 3 end) in *.
  clearbody b.
  assert (Hcase : b = 0 \/ b = 1 \/ b = 2 \/ b = 3) by lia.
  unfold naturalBucketIndex, paddingBuckets, first_fit, frameTargetSize, MaxUint16,
    encryptionOverhead.
  repeat match goal with |- context [baseSize <=? ?c] =>
    destruct (Z.leb_spec baseSize c) end;
  destruct Hcase as [->|[->|[->| ->]]]; 
    match goal with |- context [nth ?n ?l 0] =>
      let v := eval vm_compute in (nth n l 0) in change (nth n l 0) with v end;
    (split; [by apply (bool_decide_unpack _)|lia]).
Qed.

Section serde_proofs.
Context `{Crypto} `{ProtoRuntime} `{!CryptoOk _} `{!ProtoRuntimeOk _} {St : Type}.
Implicit Types (w : world St).

Lemma run_selectBucketSize baseSize w :
  run_local (selectBucketSize baseSize) w =
  Some (bucket_for baseSize (drawn_int 100 w), after_int w).
Proof. reflexivity. Qed.

(** ** Sizes of envelopes *)

Lemma wire_size_opt_bytes n b :
  1 <= n <= 15 ->
  wire_size (opt_bytes n b) =
  if blen b =? 0 then 0 else 1 + uvarint_len (blen b) + blen b.
Proof.
  intros Hn. destruct b as [|x b]; [done|].
  destruct (Z.eqb_spec (blen (x :: b)) 0) as [E|E]; [by apply blen_zero_nil in E|].
  unfold opt_bytes, wire_size, foldr, wfield_size, fst, snd.
  assert (Htag : uvarint_len (n * 8 + 2) = 1).
  { pose proof (uvarint_len_pos (n * 8 + 2)).
    pose proof (uvarint_len_bound (n * 8 + 2) 0 ltac:(simpl; lia)). lia. }
  rewrite Htag. lia.
Qed.

Lemma size_with_padding st pad :
  Size (with_padding st pad) =
  Size (with_padding st []) +
  if blen pad =? 0 then 0 else 1 + uvarint_len (blen pad) + blen pad.
Proof.
  rewrite !size_fields. simpl fields. rewrite !wire_size_app.
  rewrite <- (wire_size_opt_bytes 4) by lia. change (wire_size []) with 0. lia.
Qed.

Lemma size_nonneg {M} `{Message M} (m : M) : 0 <= Size m.
Proof.
  rewrite size_fields. induction (fields m) as [|f fs IH]; simpl; [lia|].
  pose proof (wfield_size_nonneg f). lia.
Qed.

Lemma marshal_SignedTransport (st : SignedTransport) : exists b, Marshal st = Some b.
Proof. apply marshal_ascii. constructor. Qed.

(** [padSignedTransport] marshals the envelope with some padding, and the
    length of the result is within two bytes of a bucket, unless the envelope
    alone is over the last bucket. *)
Lemma padSignedTransport_spec st w :
  let base := Size (with_padding st []) in
  exists pad payload w',
    run_local (padSignedTransport st) w = Some (Ok payload, w') /\
    Marshal (with_padding st pad) = Some payload /\
    w_store w' = w_store w /\
    (base <= frameTargetSize ->
       blen payload <= frameTargetSize /\
       exists bucket, bucket ∈ paddingBuckets /\ base <= bucket /\
         bucket - 2 <= blen payload <= bucket) /\
    (base <= 512 -> blen payload <= 16384) /\
    (frameTargetSize < base -> blen payload = base).
Proof.
  intros base. unfold padSignedTransport. fold base.
  change (with_padding (with_padding st []) ?p) with (with_padding st p).
  pose proof (bucket_for_fits base (drawn_int 100 w)) as (Hin & Hfit & Hb & Hsmall).
  set (t := bucket_for base (drawn_int 100 w)) in *.
  destruct (Z.leb_spec t base) as [L|L].
  - destruct (marshal_SignedTransport (with_padding st [])) as [b Eb].
    exists [], b, (after_int w). rewrite run_local_bind, run_selectBucketSize. fold t.
    destruct (Z.leb_spec t base); [|lia]. simpl run_local.
    unfold marshal_result. rewrite Eb.
    pose proof (marshal_size _ _ Eb) as Hl. fold base in Hl.
    split_and!; try done; try lia. intros Hle. split; [lia|]. exists t.
    split_and!; first [done|lia].
  - set (p := padding_length (t - base)).
    assert (Hbase : 0 <= base) by apply size_nonneg.
    pose proof (padding_length_fits (t - base)
      ltac:(unfold frameTargetSize, encryptionOverhead in *; lia)) as Hp. cbv zeta in Hp.
    fold p in Hp. destruct Hp as (Hp0 & Hp1 & Hp2).
    set (pad := draw p (after_int w)).
    destruct (marshal_SignedTransport (with_padding st pad)) as [b Eb].
    exists pad, b, (after_draw p (after_int w)).
    rewrite run_local_bind, run_selectBucketSize. fold t.
    destruct (Z.leb_spec t base); [lia|]. simpl run_local. fold p. fold pad.
    unfold marshal_result. rewrite Eb.
    pose proof (marshal_size _ _ Eb) as Hl. rewrite size_with_padding in Hl. fold base in Hl.
    assert (Hpl : blen pad = p) by (apply blen_draw; lia). rewrite Hpl in Hl.
    rewrite <- varintSize_uvarint in Hl
      by (unfold frameTargetSize, MaxUint16, encryptionOverhead in *; lia).
    assert (t - 2 <= blen b <= t) by (destruct (Z.eqb_spec p 0); lia).
    split_and!; try done; try lia. intros Hle. split; [lia|]. exists t.
    split_and!; first [done|lia].
Qed.

(** ** What [serialize] puts on the wire *)

(** Metadata is small: a 26-character identifier, a timestamp and two varints. *)
Lemma metadata_size md :
  blen (md_ID md) <= 26 -> 0 <= md_Sequence md < 2 ^ 64 -> Size md <= 76.
Proof.
  intros Hid Hseq. rewrite size_fields. simpl fields. rewrite !wire_size_app.
  assert (Hi : wire_size (opt_bytes 1 (md_ID md)) <= 28).
  { rewrite wire_size_opt_bytes by lia. pose proof (blen_nonneg (md_ID md)).
    pose proof (uvarint_len_bound (blen (md_ID md)) 0 ltac:(simpl; lia)).
    destruct (blen (md_ID md) =? 0); lia. }
  assert (Hts : wire_size (opt_timestamp 2 (md_Timestamp md)) <= 24).
  { destruct (md_Timestamp md) as [t|]; simpl; [|lia]. unfold wfield_size; cbn [fst snd].
    rewrite blen_encode_fields. pose proof (timestamp_size t).
    pose proof (uvarint_len_bound (wire_size (timestamp_fields t)) 0) as Hb. simpl in Hb.
    assert (0 <= wire_size (timestamp_fields t))
      by (rewrite <- blen_encode_fields; apply blen_nonneg).
    change (uvarint_len (2 * 8 + 2)) with 1. change (128 ^ Z.of_nat 0) with 1 in Hb. lia. }
  assert (Hv : forall n z, 1 <= n <= 15 -> 0 <= z < 2 ^ 64 -> wire_size (opt_varint n z) <= 11).
  { intros n z Hn Hz. unfold opt_varint. destruct (z =? 0); simpl; [lia|].
    unfold wfield_size; cbn [fst snd]. pose proof (uvarint_len_10 z Hz).
    pose proof (uvarint_len_bound (n * 8) 0 ltac:(simpl; lia)). lia. }
  pose proof (Hv 3 (md_Sequence md) ltac:(lia) Hseq).
  pose proof (Hv 4 (u64 (md_Route md)) ltac:(lia) (u64_range _)). lia.
Qed.

Lemma uvarint_len_mono_3 z : 0 <= z < 2 ^ 21 -> uvarint_len z <= 3.
Proof. intros Hz. pose proof (uvarint_len_bound z 2 ltac:(simpl; lia)). lia. Qed.

(** An envelope whose message respects [maxTransportSize] fits the last
    bucket before it is padded. *)
Lemma envelope_size data sig mb :
  blen data <= maxTransportSize -> blen sig = SignatureSize -> blen mb <= 76 ->
  Size (mkSignedTransport data sig mb []) <= 61588 /\
  (blen data <= 300 -> Size (mkSignedTransport data sig mb []) <= 512).
Proof.
  intros Hd Hs Hm. rewrite size_fields. simpl fields. rewrite !wire_size_app.
  change (wire_size []) with 0.
  rewrite !wire_size_opt_bytes by lia.
  pose proof (blen_nonneg data). pose proof (blen_nonneg mb).
  unfold maxTransportSize, MaxUint16, reservedProtocolOverhead, SignatureSize in *.
  pose proof (uvarint_len_mono_3 (blen data) ltac:(lia)).
  pose proof (uvarint_len_bound (blen sig) 0 ltac:(simpl; lia)).
  pose proof (uvarint_len_bound (blen mb) 0 ltac:(simpl; lia)).
  split; [repeat case_match; lia|]. intros Hd3. repeat case_match; lia.
Qed.

Lemma rand_Text_ok w :
  exists id, run_local rand_Text w = Some (id, after_draw 26 w) /\
    blen id = 26 /\ ascii_only id.
Proof.
  exists (map base32_char (draw 26 w)). split; [done|]. split.
  - unfold blen. rewrite length_map. apply (blen_draw 26 w). lia.
  - apply Forall_map, Forall_true. apply base32_char_ascii.
Qed.

(** The envelope [serialize] builds, and the bounds on its length. *)
Definition envelope_for (s : signedSerde) (message : bytes) (route : Route) (sequence : Z)
    (payload : bytes) (md : pb_Metadata) : Prop :=
  exists mb pad,
    md_Sequence md = sequence /\ md_Route md = ToProto route /\
    blen (md_ID md) = 26 /\ Marshal md = Some mb /\
    Marshal (mkSignedTransport message
               (ed25519_Sign (privateKey (serde_attest s)) (signingInput mb message)) mb pad)
      = Some payload /\
    blen payload <= frameTargetSize /\
    (blen message <= 300 -> blen payload <= 16384) /\
    exists bucket, bucket ∈ paddingBuckets /\ bucket - 2 <= blen payload <= bucket.

Lemma serialize_spec s {M} `{Message M} (msg : M) message route sequence w :
  Marshal msg = Some message -> blen message <= maxTransportSize ->
  0 <= sequence < 2 ^ 64 ->
  exists payload md w',
    run_local (serialize s msg route sequence) w = Some (Ok (payload, md), w') /\
    w_store w' = w_store w /\
    md_Timestamp md = Some (timestamp_new (w_clock w (w_tpos w))) /\
    envelope_for s message route sequence payload md.
Proof.
  intros Hm Hle Hseq. destruct (rand_Text_ok w) as (id & Hid & Hlen & Hasc).
  set (w1 := after_draw 26 w) in *.
  set (ts := timestamp_new (w_clock w1 (w_tpos w1))).
  set (md := mkMetadata id (Some ts) sequence (ToProto route)).
  destruct (marshal_ascii md) as [mb Emb]; [by apply Forall_singleton|].
  set (sig := ed25519_Sign (privateKey (serde_attest s)) (signingInput mb message)).
  set (st := mkSignedTransport message sig mb []).
  pose proof (padSignedTransport_spec st (after_now w1)) as Hpad. cbv zeta in Hpad.
  destruct Hpad as (pad & payload & w2 & Hrun & Hpl & Hst & Hfit & Hsm & _).
  exists payload, md, w2. split_and!; [|done|done|].
  - unfold serialize, marshal_result. rewrite Hm. cbn [of_option].
    destruct (Z.ltb_spec maxTransportSize (blen message)); [lia|].
    rewrite run_local_bind, Hid. fold w1. cbn [run_local timestamppb_Now pbind ask local_step].
    fold ts md. rewrite Emb. cbn [of_option Sign]. fold sig st.
    rewrite run_local_bind, Hrun. done.
  - pose proof (metadata_size md ltac:(cbn; lia) Hseq) as Hms.
    rewrite <- (marshal_size _ _ Emb) in Hms.
    pose proof (envelope_size message sig mb Hle (sign_len _ _) Hms) as [Hes Hes'].
    assert (Hbase : Size (with_padding st []) <= frameTargetSize).
    { change (with_padding st []) with (mkSignedTransport message sig mb []).
      unfold frameTargetSize, MaxUint16, encryptionOverhead. lia. }
    destruct (Hfit Hbase) as (Hmax & bucket & Hin & _ & Hb).
    exists mb, pad. split_and!; try done.
    + intros Hm3. by apply Hsm, Hes'.
    + by exists bucket.
Qed.

(** A message over [maxTransportSize] is refused before anything is signed. *)
Lemma serialize_too_large s {M} `{Message M} (msg : M) message route sequence w :
  Marshal msg = Some message -> maxTransportSize < blen message ->
  run_local (serialize s msg route sequence) w = Some (Err (Sentinel ErrMessageTooLarge), w).
Proof.
  intros Hm Hlt. unfold serialize, marshal_result. rewrite Hm. simpl of_option. cbv beta iota.
  by rewrite (proj2 (Z.ltb_lt _ _) Hlt).
Qed.

(** ** Reading an envelope back *)

Lemma wire_size_opt_bytes_ge n b : 1 <= n <= 15 -> blen b <= wire_size (opt_bytes n b).
Proof.
  intros Hn. rewrite wire_size_opt_bytes by done. pose proof (uvarint_len_pos (blen b)).
  destruct (Z.eqb_spec (blen b) 0); lia.
Qed.

Lemma SignedTransport_wf (st : SignedTransport) payload :
  Marshal st = Some payload -> blen payload < 2 ^ 62 -> msg_wf st.
Proof.
  intros Hm Hl. rewrite (marshal_size _ _ Hm), size_fields in Hl. simpl fields in Hl.
  rewrite !wire_size_app in Hl.
  pose proof (wire_size_opt_bytes_ge 1 (st_Data st) ltac:(lia)).
  pose proof (wire_size_opt_bytes_ge 2 (st_Signature st) ltac:(lia)).
  pose proof (wire_size_opt_bytes_ge 3 (st_Metadata st) ltac:(lia)).
  pose proof (wire_size_opt_bytes_ge 4 (st_Padding st) ltac:(lia)).
  pose proof (blen_nonneg (st_Data st)). pose proof (blen_nonneg (st_Signature st)).
  pose proof (blen_nonneg (st_Metadata st)). pose proof (blen_nonneg (st_Padding st)).
  simpl. unfold short. lia.
Qed.

(** The receiver [r] holds the sender's public key. *)
Definition trusts (r s : signedSerde) : Prop :=
  attest_wf (serde_attest s) /\ MarshalPublicKey (serde_attest s) = Some (serde_remote r).

Lemma metadata_wf md t :
  md_Timestamp md = Some (timestamp_new t) -> - 2 ^ 63 * Second <= t < 2 ^ 63 * Second ->
  blen (md_ID md) = 26 -> 0 <= md_Sequence md < 2 ^ 64 ->
  - 2 ^ 31 <= md_Route md < 2 ^ 31 -> msg_wf md.
Proof.
  intros Ht Hr Hid Hs Hrt. simpl. rewrite Ht. unfold short. split_and!; try lia.
  by apply timestamp_new_wf.
Qed.

Lemma deserialize_envelope (r s : signedSerde) {M} `{Message M} (msg : M) message route
    sequence payload md :
  trusts r s -> msg_wf msg -> Marshal msg = Some message -> msg_wf md ->
  envelope_for s message route sequence payload md ->
  deserialize r payload = Ok (md, msg).
Proof.
  intros [Hw Hpk] Hmw Hm Hmd (mb & pad & _ & _ & _ & Hmb & Hst & Hlen & _).
  unfold deserialize, unmarshal_result.
  rewrite (unmarshal_marshal _ _ (SignedTransport_wf _ _ Hst
    ltac:(unfold frameTargetSize, MaxUint16, encryptionOverhead in *; lia)) Hst).
  cbn [of_option st_Data st_Metadata st_Signature].
  rewrite (Verify_Sign (serde_attest s) _ _ _ Hw Hpk eq_refl). cbn [negb].
  by rewrite (unmarshal_marshal _ _ Hmd Hmb), (unmarshal_marshal _ _ Hmw Hm).
Qed.

(** The sender's side and the receiver's side of one message, together. *)
Lemma serialize_delivers (r s : signedSerde) {M} `{Message M} (msg : M) message route
    sequence w :
  trusts r s -> msg_wf msg -> Marshal msg = Some message ->
  blen message <= maxTransportSize -> 0 <= sequence < 2 ^ 64 -> clock_ok w ->
  exists payload md w',
    run_local (serialize s msg route sequence) w = Some (Ok (payload, md), w') /\
    w_store w' = w_store w /\ envelope_for s message route sequence payload md /\
    deserialize r payload = Ok (md, msg).
Proof.
  intros Ht Hmw Hm Hle Hseq Hc. pose proof (ToProto_range route) as Hr.
  destruct (serialize_spec s msg message route sequence w Hm Hle Hseq)
    as (payload & md & w' & Hrun & Hst & Hts & He).
  exists payload, md, w'. split_and!; try done.
  apply (deserialize_envelope r s msg message route sequence); try done.
  pose proof He as (? & ? & Hs & Hro & Hid & _).
  eapply metadata_wf; [exact Hts|apply Hc|done|lia|lia].
Qed.

(** A payload that [deserialize] accepts carries a signature of the remote
    key over exactly the metadata and data that come back. *)
Lemma deserialize_sound (r : signedSerde) {M} `{Message M} payload md (msg : M) :
  deserialize r payload = Ok (md, msg) ->
  exists data mb sig,
    Verify (serde_remote r) (signingInput mb data) sig = true /\
    Unmarshal mb = Some md /\ Unmarshal data = Some msg.
Proof.
  unfold deserialize, unmarshal_result. intros Hd.
  destruct (Unmarshal (M := SignedTransport) payload) as [st|]; [|done]. cbn [of_option] in Hd.
  destruct (Verify _ _ _) eqn:Ev; [|done]. cbn [negb] in Hd.
  destruct (Unmarshal (M := pb_Metadata) _) as [md'|] eqn:E1; [|done]. cbn [of_option] in Hd.
  destruct (Unmarshal (M := M) _) as [m'|] eqn:E2; [|done]. simpl in Hd. simplify_eq.
  by exists (st_Data st), (st_Metadata st), (st_Signature st).
Qed.

(** The signed bytes determine the metadata and the data. *)
Lemma signingInput_inj mb mb' d d' :
  blen mb < 2 ^ 63 -> blen mb' < 2 ^ 63 ->
  signingInput mb d = signingInput mb' d' -> mb = mb' /\ d = d'.
Proof.
  intros H1 H2 E. unfold signingInput in E. apply app_inv_head in E.
  pose proof (blen_nonneg mb). pose proof (blen_nonneg mb').
  apply uvarint_prefix_free in E as [El E]; [|apply u64_range..].
  unfold u64 in El. rewrite !Z.mod_small in El by lia.
  by apply app_inj_blen in E.
Qed.

(** ** The properties of the signed serializer *)

(** C25: A message within [maxTransportSize] is always serialized; the payload
    fits a frame with room for the cipher's overhead, and the receiver that
    holds the sender's key reads back the same message, route and sequence
    number. *)
Theorem serialize_roundtrip (r s : signedSerde) {M} `{Message M} (msg : M) message route
    sequence w :
  trusts r s -> msg_wf msg -> Marshal msg = Some message ->
  blen message <= maxTransportSize -> 0 <= sequence < 2 ^ 64 -> clock_ok w ->
  IsValid route = true ->
  exists payload md w',
    run_local (serialize s msg route sequence) w = Some (Ok (payload, md), w') /\
    blen payload + encryptionOverhead <= MaxUint16 /\
    deserialize r payload = Ok (md, msg) /\
    md_route md = route /\ md_Sequence md = sequence.
Proof.
  intros Ht Hmw Hm Hle Hseq Hc Hv.
  destruct (serialize_delivers r s msg message route sequence w)
    as (payload & md & w' & Hrun & _ & He & Hd); try done.
  destruct He as (? & ? & Hs & Hr & _ & _ & _ & Hlen & _).
  exists payload, md, w'. split_and!; try done.
  - unfold frameTargetSize in Hlen. lia.
  - unfold md_route. rewrite Hr. by apply ToProto_valid.
Qed.

(** The length of a payload hides the length of the message: it is within two
    bytes of one of the six buckets, whatever the randomness, the route and the
    message. *)
Theorem payload_in_bucket (s : signedSerde) {M} `{Message M} (msg : M) route sequence w
    payload md w' :
  0 <= sequence < 2 ^ 64 ->
  run_local (serialize s msg route sequence) w = Some (Ok (payload, md), w') ->
  exists bucket, bucket ∈ paddingBuckets /\ bucket - 2 <= blen payload <= bucket.
Proof.
  intros Hseq Hrun. destruct (Marshal msg) as [message|] eqn:Em.
  - destruct (Z.le_gt_cases (blen message) maxTransportSize) as [L|L].
    + destruct (serialize_spec s msg message route sequence w Em L Hseq)
        as (p & md' & w1 & Hrun' & _ & _ & He). rewrite Hrun' in Hrun. simplify_eq.
      by destruct He as (? & ? & _ & _ & _ & _ & _ & _ & _ & ?).
    + by rewrite (serialize_too_large _ _ _ _ _ _ Em L) in Hrun.
  - unfold serialize, marshal_result in Hrun. by rewrite Em in Hrun.
Qed.

(** No other pair of metadata and data has the same signed bytes: a signature
    cannot be moved to a different split of metadata and message. *)
Theorem signingInput_injective mb mb' d d' :
  blen mb < 2 ^ 63 -> blen mb' < 2 ^ 63 ->
  signingInput mb d = signingInput mb' d' -> mb = mb' /\ d = d'.
Proof. apply signingInput_inj. Qed.
End serde_proofs.

(** ** Concrete instances *)

(** A world whose random bytes cycle and whose clock ticks once a second. *)
Definition sample_world {St} (seed : nat) (s : St) : world St :=
  World (fun i => bof (Z.of_nat (seed + i))) 0 (fun i => Z.of_nat (seed + 7 * i)) 0
        (fun i => 1700000000 * Second + Z.of_nat (i mod 1000) * Second) 0 s.

Lemma sample_clock_ok {St} seed (s : St) : clock_ok (sample_world seed s).
Proof.
  intros i. simpl. pose proof (Nat.mod_upper_bound i 1000 ltac:(lia)).
  unfold Second. lia.
Qed.

#[export] Hint Resolve sample_clock_ok : kam.

Section sample.
Existing Instance toy_crypto.
Existing Instance wire_runtime.

Definition sample_attest (n : Z) : Attest :=
  let private := ed25519_GenerateKey (be_put 32 n) in mkAttest (ed25519_Public private) private.
Definition sample_key (n : Z) : bytes := default [] (MarshalPublicKey (sample_attest n)).

Lemma sample_trusts a b :
  trusts (newSignedSerde (sample_key a) (sample_attest b))
         (newSignedSerde (sample_key b) (sample_attest a)).
Proof.
  split; [done|]. unfold sample_key. cbn [serde_attest serde_remote].
  destruct (pkix_total (privateKey (sample_attest a))) as (k & E & _).
  unfold MarshalPublicKey. change (publicKey (sample_attest a)) with
    (ed25519_Public (privateKey (sample_attest a))). by rewrite E.
Qed.

Lemma serialize_roundtrip_witness :
  exists payload md w',
    run_local (serialize (newSignedSerde (sample_key 2) (sample_attest 1))
                 (mkBytesValue (str "hello")) RouteExchangeMessages 7)
      (sample_world 3 tt) = Some (Ok (payload, md), w') /\
    blen payload + encryptionOverhead <= MaxUint16 /\
    deserialize (newSignedSerde (sample_key 1) (sample_attest 2)) payload
      = Ok (md, mkBytesValue (str "hello")) /\
    md_route md = RouteExchangeMessages /\ md_Sequence md = 7.
Proof.
  refine (serialize_roundtrip (newSignedSerde (sample_key 1) (sample_attest 2))
            (newSignedSerde (sample_key 2) (sample_attest 1))
            (mkBytesValue (str "hello")) _ _ _ _ _ _ eq_refl _ _ _ _).
  - apply sample_trusts.
  - vm_compute. done.
  - vm_compute. done.
  - lia.
  - apply sample_clock_ok.
  - done.
Defined.

Lemma payload_in_bucket_witness :
  exists payload md w',
    run_local (serialize (newSignedSerde (sample_key 2) (sample_attest 1))
                 (mkBytesValue (str "hello")) RoutePing 7)
      (sample_world 3 tt) = Some (Ok (payload, md), w') /\
    exists bucket, bucket ∈ paddingBuckets /\ bucket - 2 <= blen payload <= bucket.
Proof.
  destruct (Marshal (mkBytesValue (str "hello"))) as [b|] eqn:E; [|done].
  destruct (serialize_spec (newSignedSerde (sample_key 2) (sample_attest 1))
    (mkBytesValue (str "hello")) b RoutePing 7 (sample_world 3 tt) E)
    as (payload & md & w' & Hrun & _); [injection E as <-; vm_compute; done|lia|].
  exists payload, md, w'. split; [exact Hrun|].
  eapply (payload_in_bucket (newSignedSerde (sample_key 2) (sample_attest 1))
            (mkBytesValue (str "hello"))); [|exact Hrun]. lia.
Defined.

Lemma signingInput_injective_witness :
  str "m" = str "m" /\ str "d" = str "d".
Proof.
  apply signingInput_injective;
    [vm_compute; done|vm_compute; done|reflexivity].
Defined.
End sample.
