(* ===== verification/Conn.v ===== *)
(** * Framed connections (conn.go)

    A [conn] wraps a byte-stream [net.Conn] in frames of a two-byte big-endian
    length and a payload, and manages the stream's deadlines.  The stream is a
    parameter of the model: what it delivers ([nc_in], any chunking, any
    errors), how much of each write it accepts ([nc_wr]), the outcome of the
    calls that set deadlines ([nc_set]) and the clock.  Each method is a
    function on the [conn] state; the mutexes make every method atomic with
    respect to the others of its direction, which is how they are modelled. *)

From S2P Require Import Prelude GoErr.

#[local] Open Scope go_scope.

(** ** The underlying stream *)

Inductive chunk :=
| Data (b : bytes)
| Fail (e : error).

(** The outcome of one [Write]: the number of bytes accepted, and an error. *)
Inductive wresult :=
| Wrote (n : Z)
| WroteErr (n : Z) (e : error).

Record netconn := NetConn {
  nc_in : list chunk;              (* what reads return; then io.EOF *)
  nc_out : bytes;                  (* what the stream has accepted *)
  nc_wr : nat -> wresult; nc_wpos : nat;
  nc_set : nat -> result unit; nc_spos : nat;
  nc_clock : nat -> Z; nc_tpos : nat;
  nc_rdl : Z; nc_wdl : Z;          (* deadlines in force *)
  nc_closed : bool;
  nc_close : result unit           (* what Close returns *)
}.

Record conn := mkConn {
  currentReadDeadline : Z;
  currentWriteDeadline : Z;
  c_conn : netconn;
  readDeadline : Z;
  writeDeadline : Z;
  closed : bool
}.

Definition with_net (f : netconn -> netconn) (c : conn) : conn :=
  mkConn (currentReadDeadline c) (currentWriteDeadline c) (f (c_conn c))
         (readDeadline c) (writeDeadline c) (closed c).
Definition set_in (l : list chunk) (n : netconn) : netconn :=
  NetConn l (nc_out n) (nc_wr n) (nc_wpos n) (nc_set n) (nc_spos n) (nc_clock n)
          (nc_tpos n) (nc_rdl n) (nc_wdl n) (nc_closed n) (nc_close n).
Definition put_out (b : bytes) (n : netconn) : netconn :=
  NetConn (nc_in n) (nc_out n ++ b) (nc_wr n) (S (nc_wpos n)) (nc_set n) (nc_spos n)
          (nc_clock n) (nc_tpos n) (nc_rdl n) (nc_wdl n) (nc_closed n) (nc_close n).
Definition tick (n : netconn) : netconn :=
  NetConn (nc_in n) (nc_out n) (nc_wr n) (nc_wpos n) (nc_set n) (nc_spos n)
          (nc_clock n) (S (nc_tpos n)) (nc_rdl n) (nc_wdl n) (nc_closed n) (nc_close n).
Definition set_deadlines (r w : Z) (n : netconn) : netconn :=
  NetConn (nc_in n) (nc_out n) (nc_wr n) (nc_wpos n) (nc_set n) (S (nc_spos n))
          (nc_clock n) (nc_tpos n) r w (nc_closed n) (nc_close n).
Definition close_net (n : netconn) : netconn :=
  NetConn (nc_in n) (nc_out n) (nc_wr n) (nc_wpos n) (nc_set n) (nc_spos n)
          (nc_clock n) (nc_tpos n) (nc_rdl n) (nc_wdl n) true (nc_close n).
Definition set_currentRead (t : Z) (c : conn) : conn :=
  mkConn t (currentWriteDeadline c) (c_conn c) (readDeadline c) (writeDeadline c) (closed c).
Definition set_currentWrite (t : Z) (c : conn) : conn :=
  mkConn (currentReadDeadline c) t (c_conn c) (readDeadline c) (writeDeadline c) (closed c).

(** [time.Now()]. *)
Definition now : go conn Z := fun c =>
  (Ok (nc_clock (c_conn c) (nc_tpos (c_conn c))), with_net tick c).

(** [c.conn.SetReadDeadline] and friends take effect when they succeed. *)
Definition net_SetDeadlines (r w : conn -> Z) : go conn unit := fun c =>
  let n := c_conn c in
  match nc_set n (nc_spos n) with
  | Ok _ => (Ok tt, with_net (set_deadlines (r c) (w c)) c)
  | Err e => (Err e, with_net (set_deadlines (nc_rdl n) (nc_wdl n)) c)
  end.
Definition net_SetReadDeadline (t : Z) : go conn unit :=
  net_SetDeadlines (fun _ => t) (fun c => nc_wdl (c_conn c)).
Definition net_SetWriteDeadline (t : Z) : go conn unit :=
  net_SetDeadlines (fun c => nc_rdl (c_conn c)) (fun _ => t).
Definition net_SetDeadline (t : Z) : go conn unit :=
  net_SetDeadlines (fun _ => t) (fun _ => t).

(** [io.ReadFull]: read until [n] more bytes have arrived. *)
Fixpoint read_full (inp : list chunk) (n : Z) (acc : bytes) : result bytes * list chunk :=
  if n <=? 0 then (Ok acc, inp)
  else
    let at_eof := Err (Sentinel (if bool_decide (acc = []) then EOF else ErrUnexpectedEOF)) in
    match inp with
    | [] => (at_eof, [])
    | Fail e :: rest =>
        match e with
        | Sentinel EOF => (at_eof, rest)
        | _ => (Err e, rest)
        end
    | Data b :: rest =>
        if blen b <=? n then read_full rest (n - blen b) (acc ++ b)
        else (Ok (acc ++ btake n b), Data (bdrop n b) :: rest)
    end.

Definition io_ReadFull (n : Z) : go conn bytes := fun c =>
  let '(r, rest) := read_full (nc_in (c_conn c)) n [] in (r, with_net (set_in rest) c).

(** One [Read] into a buffer of [k] bytes. *)
Definition net_Read (k : Z) : go conn bytes := fun c =>
  match nc_in (c_conn c) with
  | [] => (Err (Sentinel EOF), c)
  | Fail e :: rest => (Err e, with_net (set_in rest) c)
  | Data b :: rest =>
      if blen b <=? k then (Ok b, with_net (set_in rest) c)
      else (Ok (btake k b), with_net (set_in (Data (bdrop k b) :: rest)) c)
  end.

(** One [Write]: never more than was offered. *)
Definition net_Write (data : bytes) : go conn Z := fun c =>
  let n := c_conn c in
  let accepted k := Z.min (Z.max k 0) (blen data) in
  match nc_wr n (nc_wpos n) with
  | Wrote k => (Ok (accepted k), with_net (put_out (btake (accepted k) data)) c)
  | WroteErr k e => (Err e, with_net (put_out (btake (accepted k) data)) c)
  end.

(** ** The methods of [conn] *)

Definition conn_Close : go conn unit := fun c =>
  if closed c then (Err (Sentinel ErrConnClosed), c)
  else
    let c' := mkConn (currentReadDeadline c) (currentWriteDeadline c) (close_net (c_conn c))
                     (readDeadline c) (writeDeadline c) true in
    (nc_close (c_conn c), c').

Definition checkReadDeadlineLocked (deadline : Z) : go conn unit :=
  let* cl := gget closed in
  if cl : bool then gfail (Sentinel ErrConnClosed)
  else if deadline <=? 0 then
    gwrap "clearing read deadline" (net_SetReadDeadline zero_time) ;*
    gmodify (set_currentRead zero_time)
  else
    let* t := now in
    let newDeadline := t + deadline in
    let* cur := gget currentReadDeadline in
    let install :=
      gwrap "setting read deadline" (net_SetReadDeadline newDeadline) ;*
      gmodify (set_currentRead newDeadline) in
    if is_zero_time cur then install
    else
      let* t' := now in
      if cur <? t' then install
      else if cur <? newDeadline then gret tt
      else install.

Definition checkWriteDeadlineLocked (deadline : Z) : go conn unit :=
  let* cl := gget closed in
  if cl : bool then gfail (Sentinel ErrConnClosed)
  else if deadline <=? 0 then
    gwrap "clearing write deadline" (net_SetWriteDeadline zero_time) ;*
    gmodify (set_currentWrite zero_time)
  else
    let* t := now in
    let newDeadline := t + deadline in
    let* cur := gget currentWriteDeadline in
    let install :=
      gwrap "setting write deadline" (net_SetWriteDeadline newDeadline) ;*
      gmodify (set_currentWrite newDeadline) in
    if is_zero_time cur then install
    else
      let* t' := now in
      if cur <? t' then install
      else if cur <? newDeadline then gret tt
      else install.

Definition conn_Read (k : Z) : go conn bytes :=
  let* d := gget readDeadline in
  checkReadDeadlineLocked d ;*
  gwrap "reading from conn" (net_Read k).

Definition readLenLocked : go conn Z :=
  let* d := gget readDeadline in
  checkReadDeadlineLocked d ;*
  let* lenBuf := gwrap "reading first two bytes" (io_ReadFull 2) in
  gret (be_get lenBuf).

Definition conn_ReadBytes : go conn bytes :=
  let* l := gwrap "get message length" readLenLocked in
  gwrap "reading message" (io_ReadFull l).

(** [for written < len(data)]: every turn makes progress, so [len(data)] turns
    are enough. *)
Fixpoint write_loop (fuel : nat) (what : string) (data : bytes) (written : Z) : go conn unit :=
  if blen data <=? written then gret tt
  else match fuel with
       | O => gfail (errorf "unreachable")
       | S f =>
           let* n := gwrap what (net_Write (bdrop written data)) in
           if n =? 0 then gfail (errorf "wrote fewer bytes")
           else write_loop f what data (written + n)
       end.

Definition writeLenLocked (data : bytes) : go conn Z :=
  let* d := gget writeDeadline in
  checkWriteDeadlineLocked d ;*
  if MaxUint16 <? blen data then gfail (Sentinel ErrMessageTooLarge)
  else
    let msgLen := u16 (blen data) in
    let lenBuf := be_put 2 msgLen in
    write_loop (length lenBuf) "writing length" lenBuf 0 ;*
    gret msgLen.

Definition conn_WriteBytes (data : bytes) : go conn unit :=
  gwrap "writing length" (writeLenLocked data) ;*
  let* d := gget writeDeadline in
  checkWriteDeadlineLocked d ;*
  write_loop (length data) "writing message" data 0.

Definition conn_Write (data : bytes) : go conn Z :=
  let* d := gget writeDeadline in
  checkWriteDeadlineLocked d ;*
  gwrap "writing message" (net_Write data).

Definition conn_SetDeadline (t : Z) : go conn unit :=
  gmodify (set_currentRead t) ;* gmodify (set_currentWrite t) ;* net_SetDeadline t.
Definition conn_SetReadDeadline (t : Z) : go conn unit :=
  gmodify (set_currentRead t) ;* net_SetReadDeadline t.
Definition conn_SetWriteDeadline (t : Z) : go conn unit :=
  gmodify (set_currentWrite t) ;* net_SetWriteDeadline t.

(** The functional options, and [newConn]. *)
Inductive ConnOption :=
| ConnWithReadTimeout (timeout : Z)
| ConnWithWriteTimeout (timeout : Z).

Definition apply_conn_option (c : conn) (o : ConnOption) : conn :=
  match o with
  | ConnWithReadTimeout t =>
      mkConn (currentReadDeadline c) (currentWriteDeadline c) (c_conn c) t
             (writeDeadline c) (closed c)
  | ConnWithWriteTimeout t =>
      mkConn (currentReadDeadline c) (currentWriteDeadline c) (c_conn c)
             (readDeadline c) t (closed c)
  end.

Definition newConn (c : netconn) (opts : list ConnOption) : conn :=
  foldl apply_conn_option (mkConn zero_time zero_time c (5 * Minute) (1 * Minute) false) opts.

(** ** Frames on the stream *)

Definition frame (data : bytes) : bytes := be_put 2 (blen data) ++ data.

Fixpoint flatten (l : list chunk) : bytes :=
  match l with
  | Data b :: rest => b ++ flatten rest
  | _ => []
  end.
Definition no_fail (l : list chunk) : Prop :=
  Forall (fun c => match c with Data _ => True | Fail _ => False end) l.

(** The stream never refuses a write or a deadline; it may accept writes in
    any number of pieces. *)
Definition healthy (n : netconn) : Prop :=
  (forall i, exists k, nc_wr n i = Wrote k /\ 1 <= k) /\ (forall i, nc_set n i = Ok tt).

(** What no method of an open connection changes. *)
Definition steady (c c' : conn) : Prop :=
  nc_wr (c_conn c') = nc_wr (c_conn c) /\ nc_set (c_conn c') = nc_set (c_conn c) /\
  nc_clock (c_conn c') = nc_clock (c_conn c) /\
  readDeadline c' = readDeadline c /\ writeDeadline c' = writeDeadline c /\
  closed c' = closed c.

#[global] Instance steady_preorder : PreOrder steady.
Proof.
  unfold steady. split.
  - intros c. by split_and!.
  - intros c1 c2 c3 (?&?&?&?&?&?) (?&?&?&?&?&?). split_and!; congruence.
Qed.

Lemma steady_healthy c c' : steady c c' -> healthy (c_conn c) -> healthy (c_conn c').
Proof. unfold steady, healthy. by intros (-> & -> & _). Qed.

Ltac go_step :=
  cbv beta delta [gbind gwrap gget gmodify gret gfail now]; cbv beta iota.

Lemma net_SetDeadlines_ok r w c :
  healthy (c_conn c) -> net_SetDeadlines r w c = (Ok tt, with_net (set_deadlines (r c) (w c)) c).
Proof. intros [_ Hs]. unfold net_SetDeadlines. by rewrite Hs. Qed.

Ltac deadline_cases Hc :=
  go_step; rewrite Hc;
  repeat (first [ match goal with |- context [if ?b then _ else _] => destruct b end
                | rewrite net_SetDeadlines_ok by done ]; cbv beta iota);
  eexists; split_and!; first [reflexivity | exact Hc].

Lemma checkWriteDeadlineLocked_ok d c :
  closed c = false -> healthy (c_conn c) ->
  exists c', checkWriteDeadlineLocked d c = (Ok tt, c') /\ steady c c' /\
    nc_in (c_conn c') = nc_in (c_conn c) /\ nc_out (c_conn c') = nc_out (c_conn c).
Proof.
  intros Hc Hh. unfold checkWriteDeadlineLocked, net_SetWriteDeadline, steady.
  deadline_cases Hc.
Qed.

Lemma checkReadDeadlineLocked_ok d c :
  closed c = false -> healthy (c_conn c) ->
  exists c', checkReadDeadlineLocked d c = (Ok tt, c') /\ steady c c' /\
    nc_in (c_conn c') = nc_in (c_conn c) /\ nc_out (c_conn c') = nc_out (c_conn c).
Proof.
  intros Hc Hh. unfold checkReadDeadlineLocked, net_SetReadDeadline, steady.
  deadline_cases Hc.
Qed.

Lemma bdrop_bdrop a b (x : bytes) : 0 <= a -> 0 <= b -> bdrop b (bdrop a x) = bdrop (a + b) x.
Proof. intros. unfold bdrop. rewrite drop_drop. f_equal. lia. Qed.

(** The loop writes everything that is left, in as many turns as the stream
    wants; the fuel given to it is enough. *)
Lemma write_loop_ok fuel what data written c :
  healthy (c_conn c) -> 0 <= written <= blen data ->
  blen data - written <= Z.of_nat fuel ->
  exists c', write_loop fuel what data written c = (Ok tt, c') /\ steady c c' /\
    nc_in (c_conn c') = nc_in (c_conn c) /\
    nc_out (c_conn c') = nc_out (c_conn c) ++ bdrop written data.
Proof.
  revert written c. induction fuel as [|f IH]; intros written c Hh Hw Hf; simpl write_loop.
  - destruct (Z.leb_spec (blen data) written); [|lia]. exists c. split_and!; try reflexivity.
    unfold bdrop. rewrite drop_ge by (unfold blen in *; lia). by rewrite app_nil_r.
  - destruct (Z.leb_spec (blen data) written) as [L|L].
    { exists c. split_and!; try reflexivity.
      unfold bdrop. rewrite drop_ge by (unfold blen in *; lia). by rewrite app_nil_r. }
    destruct Hh as [Hwr Hs]. destruct (Hwr (nc_wpos (c_conn c))) as (k & Ek & Hk).
    unfold gbind at 1, gwrap at 1, net_Write. rewrite Ek. cbv beta iota zeta.
    rewrite blen_bdrop by lia. cbn [map_err].
    set (n := Z.min (Z.max k 0) (blen data - written)).
    assert (1 <= n <= blen data - written) as Hn by (unfold n; lia).
    destruct (Z.eqb_spec n 0); [lia|].
    destruct (IH (written + n) (with_net (put_out (btake n (bdrop written data))) c))
      as (c' & Hc' & Hst & Hin & Hout); [by split|lia|lia|].
    exists c'. split_and!; try done.
    rewrite Hout. cbn [c_conn with_net put_out nc_out]. rewrite <- app_assoc. f_equal.
    rewrite <- (bdrop_bdrop written n) by lia. apply btake_bdrop.
Qed.

(** A message that fits a frame is written whole, after its length. *)
Lemma WriteBytes_ok data c :
  closed c = false -> healthy (c_conn c) -> blen data <= MaxUint16 ->
  exists c', conn_WriteBytes data c = (Ok tt, c') /\ steady c c' /\
    nc_in (c_conn c') = nc_in (c_conn c) /\
    nc_out (c_conn c') = nc_out (c_conn c) ++ frame data.
Proof.
  intros Hc Hh Hl. pose proof (blen_nonneg data).
  unfold conn_WriteBytes, writeLenLocked. unfold gbind, gwrap, gget, gret.
  destruct (checkWriteDeadlineLocked_ok (writeDeadline c) c) as (c1 & E1 & S1 & I1 & O1); [done..|].
  rewrite E1. destruct (Z.ltb_spec MaxUint16 (blen data)); [lia|].
  pose proof (steady_healthy _ _ S1 Hh) as Hh1.
  destruct (write_loop_ok 2 "writing length" (be_put 2 (u16 (blen data))) 0 c1)
    as (c2 & E2 & S2 & I2 & O2); [done|rewrite blen_be_put; lia|rewrite blen_be_put; lia|].
  rewrite length_be_put, E2. cbn [map_err].
  pose proof (steady_healthy _ _ S2 Hh1) as Hh2.
  assert (Hc2 : closed c2 = false) by (destruct S1 as (_&_&_&_&_&?), S2 as (_&_&_&_&_&?); congruence).
  destruct (checkWriteDeadlineLocked_ok (writeDeadline c2) c2) as (c3 & E3 & S3 & I3 & O3); [done..|].
  rewrite E3. pose proof (steady_healthy _ _ S3 Hh2) as Hh3.
  destruct (write_loop_ok (length data) "writing message" data 0 c3)
    as (c4 & E4 & S4 & I4 & O4); [done|lia|unfold blen; lia|].
  exists c4. split_and!; [done|by do 4 (etrans; [eassumption|])|congruence|].
  rewrite O4, O3, O2, O1. change (bdrop 0 ?x) with x.
  unfold frame, u16. rewrite Z.mod_small by (unfold MaxUint16 in *; lia).
  by rewrite <- app_assoc.
Qed.

Lemma read_full_ok inp n acc :
  0 <= n <= blen (flatten inp) ->
  exists rest, read_full inp n acc = (Ok (acc ++ btake n (flatten inp)), rest) /\
    flatten rest = bdrop n (flatten inp).
Proof.
  assert (Hz : forall inp acc, exists rest, read_full inp 0 acc = (Ok (acc ++ btake 0 (flatten inp)), rest) /\
    flatten rest = bdrop 0 (flatten inp)).
  { intros i a. exists i. change (btake 0 (flatten i)) with (@nil byte). rewrite app_nil_r.
    by destruct i as [|[]]. }
  revert n acc. induction inp as [|[b|e] inp IH]; intros n acc Hn; cbn [flatten] in Hn;
    rewrite ?blen_nil in Hn; try by (assert (n = 0) as -> by lia; apply Hz).
  rewrite blen_app in Hn. pose proof (blen_nonneg b). cbn [flatten read_full].
  destruct (Z.leb_spec n 0).
  { assert (n = 0) as -> by lia. apply (Hz (Data b :: inp)). }
  destruct (Z.leb_spec (blen b) n) as [L|L].
  - destruct (IH (n - blen b) (acc ++ b)) as (rest & E & F); [lia|]. exists rest. split.
    + rewrite E. rewrite <- app_assoc. do 3 f_equal. unfold btake, blen in *.
      rewrite take_app_ge by lia. do 2 f_equal. lia.
    + rewrite F. unfold bdrop, blen in *. rewrite drop_app_ge by lia. f_equal. lia.
  - eexists. split; cbn [flatten].
    + unfold btake, blen in *. by rewrite take_app_le by lia.
    + unfold bdrop, blen in *. by rewrite drop_app_le by lia.
Qed.

Lemma read_full_short inp n acc :
  no_fail inp -> blen (flatten inp) < n ->
  read_full inp n acc =
  (Err (Sentinel (if bool_decide (acc ++ flatten inp = []) then EOF else ErrUnexpectedEOF)), []).
Proof.
  revert n acc. induction inp as [|[b|e] inp IH]; intros n acc Hf Hn; cbn [flatten read_full] in *.
  - go_len. rewrite app_nil_r. destruct (Z.leb_spec n 0); [lia|done].
  - go_len. pose proof (blen_nonneg b). pose proof (blen_nonneg (flatten inp)).
    destruct (Z.leb_spec n 0); [lia|]. destruct (Z.leb_spec (blen b) n); [|lia].
    inversion Hf; subst. rewrite IH by (done || lia). by rewrite app_assoc.
  - by inversion Hf.
Qed.

Lemma read_full_no_fail inp n acc : no_fail inp -> no_fail (snd (read_full inp n acc)).
Proof.
  intros Hf. revert n acc. induction Hf as [|[b|e] inp Hb Hf IH]; intros n acc;
    cbn [read_full]; [destruct (n <=? 0); apply Forall_nil_2| |done].
  destruct (n <=? 0); [by apply Forall_cons|].
  destruct (blen b <=? n); [apply IH|by apply Forall_cons].
Qed.

Lemma io_ReadFull_ok n c :
  0 <= n <= blen (flatten (nc_in (c_conn c))) ->
  exists c', io_ReadFull n c = (Ok (btake n (flatten (nc_in (c_conn c)))), c') /\
    steady c c' /\ nc_out (c_conn c') = nc_out (c_conn c) /\
    flatten (nc_in (c_conn c')) = bdrop n (flatten (nc_in (c_conn c))).
Proof.
  intros Hn. destruct (read_full_ok _ _ [] Hn) as (rest & E & F).
  unfold io_ReadFull. rewrite E. eexists. by split_and!.
Qed.

(** Reading a frame, however the stream cuts it into chunks. *)
Lemma ReadBytes_ok data rest c :
  closed c = false -> healthy (c_conn c) -> blen data <= MaxUint16 ->
  flatten (nc_in (c_conn c)) = frame data ++ rest ->
  exists c', conn_ReadBytes c = (Ok data, c') /\ steady c c' /\
    nc_out (c_conn c') = nc_out (c_conn c) /\ flatten (nc_in (c_conn c')) = rest.
Proof.
  intros Hc Hh Hl Hin. pose proof (blen_nonneg data).
  unfold conn_ReadBytes, readLenLocked. unfold gbind, gwrap, gget, gret.
  destruct (checkReadDeadlineLocked_ok (readDeadline c) c) as (c1 & E1 & S1 & I1 & O1); [done..|].
  rewrite E1. rewrite <- I1 in Hin. unfold frame in Hin. rewrite <- app_assoc in Hin.
  destruct (io_ReadFull_ok 2 c1) as (c2 & E2 & S2 & O2 & F2).
  { rewrite Hin. go_len. pose proof (blen_nonneg rest). lia. }
  rewrite E2. cbn [map_err]. rewrite Hin in F2 |- *.
  rewrite btake_app_exact by (by rewrite blen_be_put). rewrite bdrop_app_exact in F2 by (by rewrite blen_be_put).
  rewrite be_get_put_small by (simpl; unfold MaxUint16 in *; lia).
  destruct (io_ReadFull_ok (blen data) c2) as (c3 & E3 & S3 & O3 & F3).
  { rewrite F2. go_len. pose proof (blen_nonneg rest). lia. }
  rewrite E3. cbn [map_err]. rewrite F2 in F3 |- *. rewrite btake_app_exact by done.
  rewrite bdrop_app_exact in F3 by done.
  exists c3. split_and!; [done|by do 3 (etrans; [eassumption|])|congruence|done].
Qed.

Lemma blen_bdrop_nil p : 2 <= blen p -> bool_decide (bdrop 2 p = []) = (blen p =? 2).
Proof.
  intros Hp. pose proof (blen_bdrop 2 p ltac:(lia)) as Hd.
  destruct (Z.eqb_spec (blen p) 2) as [E|E].
  - apply bool_decide_eq_true_2, blen_zero_nil. lia.
  - apply bool_decide_eq_false_2. intros E2. rewrite E2 in Hd. go_len. lia.
Qed.

(** ** Conversations over one stream *)

Fixpoint write_all (ds : list bytes) : go conn unit :=
  match ds with
  | [] => gret tt
  | d :: rest => conn_WriteBytes d ;* write_all rest
  end.
Fixpoint read_n (n : nat) : go conn (list bytes) :=
  match n with
  | O => gret []
  | S n' => let* d := conn_ReadBytes in let* ds := read_n n' in gret (d :: ds)
  end.

Lemma write_all_ok ds c :
  closed c = false -> healthy (c_conn c) -> Forall (fun d => blen d <= MaxUint16) ds ->
  exists c', write_all ds c = (Ok tt, c') /\ steady c c' /\
    nc_out (c_conn c') = nc_out (c_conn c) ++ concat (map frame ds).
Proof.
  intros Hc Hh Hf. revert c Hc Hh. induction Hf as [|d ds Hd _ IH]; intros c Hc Hh; simpl.
  - exists c. rewrite app_nil_r. by split_and!.
  - destruct (WriteBytes_ok d c Hc Hh Hd) as (c1 & E1 & S1 & _ & O1).
    unfold gbind. rewrite E1. destruct (IH c1) as (c2 & E2 & S2 & O2).
    + destruct S1 as (_&_&_&_&_&->). done.
    + by eapply steady_healthy.
    + exists c2. split_and!; [done|by etrans|]. by rewrite O2, O1, <- app_assoc.
Qed.

Lemma read_n_ok ds rest c :
  closed c = false -> healthy (c_conn c) -> Forall (fun d => blen d <= MaxUint16) ds ->
  flatten (nc_in (c_conn c)) = concat (map frame ds) ++ rest ->
  exists c', read_n (length ds) c = (Ok ds, c') /\ flatten (nc_in (c_conn c')) = rest.
Proof.
  intros Hc Hh Hf. revert c Hc Hh. induction Hf as [|d ds Hd _ IH]; intros c Hc Hh Hin; simpl in *.
  - by exists c.
  - rewrite <- app_assoc in Hin.
    destruct (ReadBytes_ok d _ c Hc Hh Hd Hin) as (c1 & E1 & S1 & _ & F1).
    unfold gbind, gret. rewrite E1. destruct (IH c1) as (c2 & E2 & F2).
    + destruct S1 as (_&_&_&_&_&->). done.
    + by eapply steady_healthy.
    + done.
    + rewrite E2. by exists c2.
Qed.

(** C36: Frames survive the stream: however the writer's stream splits its writes
    and however the reader's stream splits what arrives, the messages are read
    back whole, in order, and nothing of what follows them is consumed. *)
Theorem frames_roundtrip (ds : list bytes) tail (c d : conn) :
  closed c = false -> healthy (c_conn c) -> nc_out (c_conn c) = [] ->
  closed d = false -> healthy (c_conn d) ->
  Forall (fun m => blen m <= MaxUint16) ds ->
  exists c', write_all ds c = (Ok tt, c') /\
    (flatten (nc_in (c_conn d)) = nc_out (c_conn c') ++ tail ->
     exists d', read_n (length ds) d = (Ok ds, d') /\ flatten (nc_in (c_conn d')) = tail).
Proof.
  intros Hc Hh Ho Hd Hhd Hf. destruct (write_all_ok ds c Hc Hh Hf) as (c' & E & _ & O).
  exists c'. split; [done|]. intros Hin. rewrite O, Ho in Hin. by apply read_n_ok.
Qed.

(** A message over 65,535 bytes is refused before any byte of it is written. *)
Theorem oversized_frame_refused (data : bytes) (c : conn) :
  closed c = false -> healthy (c_conn c) -> MaxUint16 < blen data ->
  exists e c', conn_WriteBytes data c = (Err e, c') /\
    errors_is e ErrMessageTooLarge = true /\ nc_out (c_conn c') = nc_out (c_conn c).
Proof.
  intros Hc Hh Hl. unfold conn_WriteBytes, writeLenLocked. unfold gbind, gwrap, gget, gfail.
  destruct (checkWriteDeadlineLocked_ok (writeDeadline c) c) as (c1 & E1 & S1 & I1 & O1); [done..|].
  rewrite E1. destruct (Z.ltb_spec MaxUint16 (blen data)); [|lia].
  eexists _, c1. split_and!; [reflexivity| |done].
  by rewrite errors_is_wrapf, errors_is_sentinel.
Qed.

(** How a connection that ends inside a frame is reported: as [io.EOF] when
    it ends before the frame or right after its length prefix, and as
    [io.ErrUnexpectedEOF] anywhere else. *)
Theorem truncated_frame (data p q : bytes) (c : conn) :
  closed c = false -> healthy (c_conn c) -> blen data <= MaxUint16 ->
  frame data = p ++ q -> q <> [] ->
  no_fail (nc_in (c_conn c)) -> flatten (nc_in (c_conn c)) = p ->
  exists e c', conn_ReadBytes c = (Err e, c') /\
    errors_is e EOF = ((blen p =? 0) || (blen p =? 2)) /\
    errors_is e ErrUnexpectedEOF = negb ((blen p =? 0) || (blen p =? 2)).
Proof.
  intros Hc Hh Hl Hfr Hq Hnf Hp. pose proof (blen_nonneg data).
  assert (Hlen : 2 + blen data = blen p + blen q).
  { rewrite <- blen_app, <- Hfr. unfold frame. go_len. lia. }
  assert (1 <= blen q) by (destruct q; [done|go_len; pose proof (blen_nonneg q); lia]).
  unfold conn_ReadBytes, readLenLocked. unfold gbind, gwrap, gget, gret.
  destruct (checkReadDeadlineLocked_ok (readDeadline c) c) as (c1 & E1 & S1 & I1 & O1); [done..|].
  rewrite E1. rewrite <- I1 in Hp, Hnf.
  destruct (Z.lt_ge_cases (blen p) 2) as [Hs|Hs].
  - unfold io_ReadFull. rewrite read_full_short by (done || by rewrite Hp).
    rewrite Hp. simpl app. eexists _, _. split; [reflexivity|]. autorewrite with errors.
    destruct p as [|x [|]]; go_len; [done|done|]. pose proof (blen_nonneg l). lia.
  - destruct (io_ReadFull_ok 2 c1) as (c2 & E2 & S2 & O2 & F2); [rewrite Hp; lia|].
    assert (Hhd : btake 2 p = be_put 2 (blen data) /\ bdrop 2 p ++ q = data).
    { rewrite <- (btake_bdrop 2 p), <- app_assoc in Hfr. unfold frame in Hfr.
      apply app_inj_blen in Hfr as [-> ->]; [done|]. rewrite blen_be_put, blen_btake by lia. lia. }
    destruct Hhd as [Hhd Htl].
    assert (Hnf2 : no_fail (nc_in (c_conn c2))).
    { unfold io_ReadFull in E2. pose proof (read_full_no_fail _ 2 [] Hnf) as Hr.
      destruct (read_full _ 2 []) as [r l]. by injection E2 as _ <-. }
    rewrite E2. cbn [map_err]. rewrite Hp in F2 |- *. rewrite Hhd.
    rewrite be_get_put_small by (simpl; unfold MaxUint16 in *; lia).
    unfold io_ReadFull at 1. rewrite read_full_short; [|done|].
    + rewrite F2. simpl app. eexists _, _. split; [reflexivity|]. autorewrite with errors.
      rewrite <- (blen_bdrop_nil p Hs). destruct (Z.eqb_spec (blen p) 0); [lia|].
      by destruct (bool_decide (bdrop 2 p = [])).
    + rewrite F2, blen_bdrop by lia. lia.
Qed.

(** ** Deadlines and closing *)

Definition monotone_clock (n : netconn) : Prop :=
  forall i j, (i <= j)%nat -> nc_clock n i <= nc_clock n j.

(** After a successful check with a positive timeout [d] at time [t], the
    deadline in force is the one the connection remembers, it has not passed,
    and it is at most [d] away. *)
Theorem read_deadline_in_window d (c c' : conn) :
  0 < d -> monotone_clock (c_conn c) -> nc_rdl (c_conn c) = currentReadDeadline c ->
  checkReadDeadlineLocked d c = (Ok tt, c') ->
  nc_rdl (c_conn c') = currentReadDeadline c' /\
  nc_clock (c_conn c) (nc_tpos (c_conn c)) <= currentReadDeadline c'
    <= nc_clock (c_conn c) (nc_tpos (c_conn c)) + d.
Proof.
  intros Hd Hm Hr. pose proof (Hm (nc_tpos (c_conn c)) (S (nc_tpos (c_conn c))) ltac:(lia)).
  unfold checkReadDeadlineLocked, net_SetReadDeadline, net_SetDeadlines. go_step.
  destruct (closed c); [done|]. destruct (Z.leb_spec d 0); [lia|].
  destruct (is_zero_time _).
  { destruct (nc_set _ _); cbn [map_err]; intros [= <-]. simpl. lia. }
  destruct (Z.ltb_spec (currentReadDeadline (with_net tick c))
    (nc_clock (c_conn (with_net tick c)) (nc_tpos (c_conn (with_net tick c))))) as [L|L].
  { destruct (nc_set _ _); cbn [map_err]; intros [= <-]. simpl. lia. }
  destruct (Z.ltb_spec (currentReadDeadline (with_net tick c))
    (nc_clock (c_conn c) (nc_tpos (c_conn c)) + d)) as [K|K].
  - intros [= <-]. simpl in *. lia.
  - destruct (nc_set _ _); cbn [map_err]; intros [= <-]. simpl. lia.
Qed.

(** A closed connection does nothing: every method fails with
    [ErrConnClosed], and a second [Close] does too. *)
Theorem closed_conn_inert (c : conn) data k :
  let c1 := snd (conn_Close c) in
  closed c1 = true /\
  fst (conn_Close c1) = Err (Sentinel ErrConnClosed) /\
  (exists e, conn_ReadBytes c1 = (Err e, c1) /\ errors_is e ErrConnClosed = true) /\
  (exists e, conn_WriteBytes data c1 = (Err e, c1) /\ errors_is e ErrConnClosed = true) /\
  conn_Read k c1 = (Err (Sentinel ErrConnClosed), c1) /\
  conn_Write data c1 = (Err (Sentinel ErrConnClosed), c1).
Proof.
  intros c1. assert (Hc : closed c1 = true).
  { unfold c1, conn_Close. by destruct (closed c) eqn:E. }
  assert (Hr : forall d, checkReadDeadlineLocked d c1 = (Err (Sentinel ErrConnClosed), c1))
    by (intros d; unfold checkReadDeadlineLocked; go_step; by rewrite Hc).
  assert (Hw : forall d, checkWriteDeadlineLocked d c1 = (Err (Sentinel ErrConnClosed), c1))
    by (intros d; unfold checkWriteDeadlineLocked; go_step; by rewrite Hc).
  clearbody c1. split_and!; [done|by unfold conn_Close; rewrite Hc|..].
  - unfold conn_ReadBytes, readLenLocked. unfold gbind, gwrap, gget. rewrite Hr.
    eexists. split; [reflexivity|]. by rewrite errors_is_wrapf, errors_is_sentinel.
  - unfold conn_WriteBytes, writeLenLocked. unfold gbind, gwrap, gget. rewrite Hw.
    eexists. split; [reflexivity|]. by rewrite errors_is_wrapf, errors_is_sentinel.
  - unfold conn_Read, gbind, gwrap, gget. by rewrite Hr.
  - unfold conn_Write, gbind, gwrap, gget. by rewrite Hw.
Qed.

(** ** Concrete instances *)

(** A stream that accepts one byte per write, with a clock that ticks once a
    second. *)
Definition sample_net (inp : list chunk) : netconn :=
  NetConn inp [] (fun _ => Wrote 1) 0 (fun _ => Ok tt) 0
          (fun i => 1700000000 * Second + Z.of_nat i * Second) 0 zero_time zero_time false (Ok tt).
Definition sample_conn (inp : list chunk) : conn := newConn (sample_net inp) [].

Lemma sample_healthy inp : healthy (c_conn (sample_conn inp)).
Proof. split; [|done]. intros i. by exists 1. Qed.

Definition sample_messages : list bytes := [str "hello"; []; str "world"].

Lemma frames_roundtrip_witness :
  exists c', write_all sample_messages (sample_conn []) = (Ok tt, c') /\
    exists d', read_n 3 (sample_conn (map (fun b => Data [b]) (nc_out (c_conn c') ++ str "x")))
               = (Ok sample_messages, d') /\ flatten (nc_in (c_conn d')) = str "x".
Proof.
  set (stream := concat (map frame sample_messages) ++ str "x").
  destruct (frames_roundtrip sample_messages (str "x") (sample_conn [])
              (sample_conn (map (fun b => Data [b]) stream))) as (c' & E & K).
  - reflexivity.
  - apply sample_healthy.
  - reflexivity.
  - reflexivity.
  - apply sample_healthy.
  - repeat constructor; vm_compute; done.
  - exists c'. split; [exact E|].
    assert (nc_out (c_conn c') = concat (map frame sample_messages)) as Ho.
    { change c' with (snd (Ok tt, c')). rewrite <- E. vm_compute. reflexivity. }
    rewrite Ho in K |- *. apply K. vm_compute. reflexivity.
Defined.

Definition big_message : bytes := replicate 65536 Byte.x00.

Lemma oversized_frame_refused_witness :
  exists e c', conn_WriteBytes big_message (sample_conn []) = (Err e, c') /\
    errors_is e ErrMessageTooLarge = true /\
    nc_out (c_conn c') = nc_out (c_conn (sample_conn [])).
Proof.
  apply (oversized_frame_refused big_message (sample_conn [])).
  - reflexivity.
  - apply sample_healthy.
  - unfold big_message. rewrite blen_replicate. vm_compute. reflexivity.
Defined.

Lemma truncated_frame_witness :
  exists e c', conn_ReadBytes (sample_conn [Data [Byte.x00]; Data [Byte.x05]]) = (Err e, c') /\
    errors_is e EOF = true /\ errors_is e ErrUnexpectedEOF = false.
Proof.
  apply (truncated_frame (str "hello") [Byte.x00; Byte.x05] (str "hello")
           (sample_conn [Data [Byte.x00]; Data [Byte.x05]])).
  - reflexivity.
  - apply sample_healthy.
  - vm_compute. done.
  - reflexivity.
  - done.
  - repeat constructor.
  - reflexivity.
Defined.

Lemma read_deadline_in_window_witness :
  let c := sample_conn [] in
  let r := checkReadDeadlineLocked (5 * Minute) c in
  fst r = Ok tt /\
  nc_rdl (c_conn (snd r)) = currentReadDeadline (snd r) /\
  nc_clock (c_conn c) (nc_tpos (c_conn c)) <= currentReadDeadline (snd r)
    <= nc_clock (c_conn c) (nc_tpos (c_conn c)) + 5 * Minute.
Proof.
  intros c r. destruct r as [x c'] eqn:E. unfold r in E. cbn [fst snd].
  assert (Hx : x = Ok tt).
  { change x with (fst (x, c')). rewrite <- E. vm_compute. reflexivity. }
  subst x. split; [reflexivity|].
  apply (read_deadline_in_window (5 * Minute) c c'); [| |reflexivity|exact E].
  - vm_compute. reflexivity.
  - intros i j Hij. simpl. unfold Second. lia.
Defined.
