(* ===== verification/Transport.v ===== *)
(** * The established transport (transport.go)

    [Send] and [Receive] of a [Transport], resumption secrets, and what they
    guarantee against a network that may drop, repeat, reorder and invent
    messages.  A [Transport] is a record passed to and returned from each
    method; the connection is reached through the events of [prog]. *)

From S2P Require Import Prelude GoErr Process Wire Pb Route Crypto Enigma Serde.

(** [storage.Peer]. *)
Record Peer := mkPeer {
  FirstSeen : Z; LastSeen : Z; Name : bytes; AppVersionOf : bytes; PublicKey : bytes
}.

Section transport.
Context `{Crypto} `{ProtoRuntime} {St : Type}.
Implicit Types (w : world St).

Record Transport := mkTransport {
  t_serde : signedSerde;
  t_encoder : Enigma;
  t_decoder : Enigma;
  t_remotePeer : option Peer;
  t_sessionID : bytes;
  t_resumptionRoot : option bytes;
  t_recvSequence : Z;
  t_sendSequence : Z
}.

Definition newTransport (serde : signedSerde) (sessionID : bytes)
    (encoder decoder : Enigma) : Transport :=
  mkTransport serde encoder decoder None sessionID None 0 0.

Definition set_recv (n : Z) (t : Transport) : Transport :=
  mkTransport (t_serde t) (t_encoder t) (t_decoder t) (t_remotePeer t) (t_sessionID t)
              (t_resumptionRoot t) n (t_sendSequence t).
Definition set_send (n : Z) (t : Transport) : Transport :=
  mkTransport (t_serde t) (t_encoder t) (t_decoder t) (t_remotePeer t) (t_sessionID t)
              (t_resumptionRoot t) (t_recvSequence t) n.
Definition set_root (r : bytes) (t : Transport) : Transport :=
  mkTransport (t_serde t) (t_encoder t) (t_decoder t) (t_remotePeer t) (t_sessionID t)
              (Some r) (t_recvSequence t) (t_sendSequence t).
Definition set_remotePeer (p : Peer) (t : Transport) : Transport :=
  mkTransport (t_serde t) (t_encoder t) (t_decoder t) (Some p) (t_sessionID t)
              (t_resumptionRoot t) (t_recvSequence t) (t_sendSequence t).

Definition isTimeout (e : error) : bool :=
  errors_is e ErrDeadlineExceeded || errors_is e ErrNetTimeout.

(** Everything [Receive] does with the bytes it has read. *)
Definition accept_payload (t : Transport) {M} `{Message M} (payload : bytes)
  : result (pb_Metadata * M) * Transport :=
  match Decrypt (t_decoder t) payload with
  | Err e => (Err (wrapf "decrypting payload" e), t)
  | Ok decrypted =>
      match deserialize (t_serde t) decrypted with
      | Err e => (Err (wrapf "deserializing" e), t)
      | Ok (metadata, dst) =>
          if md_route metadata =? RouteCloseTransport
          then (Err (Sentinel ErrPeerDisconnected), t)
          else
            let seq := md_Sequence metadata in
            let expected := u64 (t_recvSequence t + 1) in
            if negb (seq =? expected) then
              if seq <? expected
              then (Err (wrapf "duplicate message" (Sentinel ErrOutOfSync)), t)
              else (Err (wrapf "missing messages" (Sentinel ErrOutOfSync)), t)
            else (Ok (metadata, dst), set_recv seq t)
      end
  end.

(** The error of [Receive] when [ReadBytes] fails. *)
Definition read_failure (e : error) : error :=
  if errors_is e EOF then Sentinel ErrConnClosed
  else if isTimeout e then Sentinel ErrReceiveTimeout
  else wrapf "reading payload" e.

Definition Receive (t : Transport) {M} `{Message M}
  : prog St (result (pb_Metadata * M) * Transport) :=
  do r <- ask ReadBytes;
  Ret match r with
      | Ok payload => accept_payload t payload
      | Err e => (Err (read_failure e), t)
      end.

Definition Send (t : Transport) {M} `{Message M} (message : M) (route : Route)
  : prog St (result pb_Metadata * Transport) :=
  if negb (IsValid route) then
    Ret (Err (wrapf (route_String route) (Sentinel ErrInvalidRoute)), t)
  else
    let seq := u64 (t_sendSequence t + 1) in
    let t := set_send seq t in
    do s <- serialize (t_serde t) message route seq;
    match s with
    | Err e => Ret (Err (wrapf "serializing" e), t)
    | Ok (payload, metadata) =>
        do ct <- Encrypt (t_encoder t) payload;
        do r <- ask (WriteBytes ct);
        Ret match r with
            | Err e => (Err (wrapf "writing" e), t)
            | Ok _ => (Ok metadata, t)
            end
    end.

Definition Bytes_ (b : bytes) : BytesValue := mkBytesValue b.

Definition t_Close (t : Transport) : prog St (result unit * Transport) :=
  do ' (_, t) <- Send t (Bytes_ []) RouteCloseTransport;
  do r <- ask CloseConn;
  Ret (r, t).

Definition setResumptionRoot (t : Transport) (sharedSecret : bytes) : Transport :=
  match Derive sharedSecret (t_sessionID t) resumptionRootInfo resumptionTokenSize with
  | Err _ => t
  | Ok root => set_root root t
  end.

(** The [range] loop over the token slice; a failed derivation returns nil. *)
Fixpoint derive_tokens (root : bytes) (i : Z) (n : nat) : option (list bytes) :=
  match n with
  | O => Some []
  | S n' =>
      let info := resumptionTokenInfo ++ be_put 4 (u32 i) in
      match Derive root [] info resumptionTokenSize with
      | Err _ => None
      | Ok token =>
          match derive_tokens root (i + 1) n' with
          | None => None
          | Some tokens => Some (token :: tokens)
          end
      end
  end.

(** [None] is the nil slice. *)
Definition deriveResumptionTokens (t : Transport) : option (list bytes) :=
  match t_resumptionRoot t with
  | None => None
  | Some root => derive_tokens root 0 (Z.to_nat resumptionTokenCount)
  end.

(** ** Runs of sends and receives *)

(** [n] calls of [Receive]; the accepted messages, in order. *)
Fixpoint receive_run (t : Transport) {M} `{Message M} (n : nat)
  : prog St (list (pb_Metadata * M) * Transport) :=
  match n with
  | O => Ret ([], t)
  | S n' =>
      do ' (r, t) <- Receive t (M := M);
      do ' (ms, t) <- receive_run t n';
      Ret (match r with Ok m => m :: ms | Err _ => ms end, t)
  end.

(** A sequence of [Send]s of the messages of one application. *)
Fixpoint send_run (t : Transport) {M} `{Message M} (ms : list (M * Route))
  : prog St (list (result pb_Metadata) * Transport) :=
  match ms with
  | [] => Ret ([], t)
  | (m, route) :: rest =>
      do ' (r, t) <- Send t m route;
      do ' (rs, t) <- send_run t rest;
      Ret (r :: rs, t)
  end.

(** ** Receiving from a hostile network *)

Lemma accept_payload_seq (t : Transport) {M} `{Message M} payload r t' :
  accept_payload t payload = (r, t') ->
  match r with
  | Ok (md, _) => md_Sequence md = u64 (t_recvSequence t + 1) /\ t' = set_recv (md_Sequence md) t
  | Err _ => t' = t
  end.
Proof.
  unfold accept_payload. intros E.
  destruct (Decrypt _ _); [|by simplify_eq]. destruct (deserialize _ _) as [[md m]|]; [|by simplify_eq].
  destruct (_ =? RouteCloseTransport); [by simplify_eq|]. cbv zeta in E.
  destruct (Z.eqb_spec (md_Sequence md) (u64 (t_recvSequence t + 1))); cbn [negb] in E.
  - by simplify_eq.
  - by destruct (md_Sequence md <? _); simplify_eq.
Qed.

(** One [Receive] consumes one result of the network and leaves the party's
    own world alone. *)
Lemma exec_Receive (t : Transport) {M} `{Message M} w n :
  exists r t',
    exec (Receive t (M := M)) w n = (Some (r, t'), w, snd (net_read n)) /\
    (forall payload, fst (net_read n) = Ok payload -> accept_payload t payload = (r, t')) /\
    ((forall payload, fst (net_read n) <> Ok payload) -> t' = t /\ is_ok r = false).
Proof.
  unfold Receive. simpl. destruct (net_read n) as [[p|e] n']; simpl.
  - destruct (accept_payload t p) as [r t'] eqn:E. exists r, t'. split_and!; [done| |].
    + by intros ? [= <-].
    + by intros Hn; destruct (Hn p).
  - repeat case_match; eexists _, _; split_and!; try reflexivity; try done.
Qed.

(** Sequence numbers [r+1, r+2, ...] modulo [2^64]. *)
Fixpoint consecutive (r : Z) (l : list Z) : Prop :=
  match l with
  | [] => True
  | s :: rest => s = u64 (r + 1) /\ consecutive s rest
  end.

(** Whatever the network delivers, the accepted sequence numbers are
    consecutive: nothing is accepted twice, skipped or out of order. *)
Theorem accepted_consecutive (t : Transport) {M} `{Message M} k w n :
  exists ms t' w' n',
    exec (receive_run t (M := M) k) w n = (Some (ms, t'), w', n') /\
    consecutive (t_recvSequence t) (map (fun m => md_Sequence (fst m)) ms) /\
    t_recvSequence t' = default (t_recvSequence t) (last (map (fun m => md_Sequence (fst m)) ms)).
Proof.
  revert t w n. induction k as [|k IH]; intros t w n; cbn [receive_run].
  { by exists [], t, w, n. }
  destruct (exec_Receive t (M := M) w n) as (r & t1 & E & Hok & Herr).
  destruct (IH t1 w (snd (net_read n))) as (ms & t2 & w2 & n2 & E2 & Hc & Hl).
  assert (Hr : match r with
    | Ok (md, _) => md_Sequence md = u64 (t_recvSequence t + 1) /\ t1 = set_recv (md_Sequence md) t
    | Err _ => t1 = t end).
  { destruct (fst (net_read n)) as [p|e].
    - by apply (accept_payload_seq t p), Hok.
    - destruct Herr as [-> Hr]; [done|]. by destruct r. }
  exists (match r with Ok m => m :: ms | Err _ => ms end), t2, w2, n2.
  rewrite exec_bind, E, exec_bind, E2. split; [done|].
  destruct r as [[md m]|e]; [|by subst t1].
  destruct Hr as [Hs ->]. cbn [map fst consecutive]. split; [done|].
  rewrite Hl. cbn [t_recvSequence set_recv].
  rewrite last_cons. by destruct (last _).
Qed.

(** ** The two ends of a session *)

Context `{!CryptoOk _} `{!ProtoRuntimeOk _}.

(** [u] is the receiving end of [t]. *)
Definition paired (t u : Transport) : Prop :=
  trusts (t_serde u) (t_serde t) /\ t_decoder u = t_encoder t /\ enigma_wf (t_encoder t).

(** A message an application may send. *)
Definition sendable {M} `{Message M} (x : M * Route) : Prop :=
  msg_wf (fst x) /\ IsValid (snd x) = true /\ snd x <> RouteCloseTransport /\
  exists b, Marshal (fst x) = Some b /\ blen b <= maxTransportSize.

(** The receiver's view of a ciphertext. *)
Definition opens (u : Transport) {M} `{Message M} (ct : bytes) (x : pb_Metadata * M) : Prop :=
  exists p, Decrypt (t_decoder u) ct = Ok p /\ deserialize (t_serde u) p = Ok x.

Lemma run_Encrypt e p w :
  enigma_wf e -> exists ct, run_local (Encrypt e p) w = Some (ct, after_draw nonceSize w) /\
    Decrypt e ct = Ok p /\ blen ct = blen p + encryptionOverhead.
Proof.
  intros He. eexists. split; [reflexivity|].
  assert (blen (draw nonceSize w) = nonceSize) as Hn
    by (apply blen_draw; unfold nonceSize, NonceSizeX; lia).
  split; [by apply Decrypt_sealed|by apply sealed_len].
Qed.

Lemma Send_follows me (t u : Transport) {M} `{Message M} (m : M) route w :
  paired t u -> sendable (m, route) -> clock_ok w ->
  exists ct md w',
    follows me (Send t m route) [(me, ct)] w
      = Some ((Ok md, set_send (u64 (t_sendSequence t + 1)) t), w') /\
    w_store w' = w_store w /\ blen ct <= MaxUint16 /\
    (forall b, Marshal m = Some b -> blen b <= 300 -> blen ct <= 16424) /\
    opens u ct (md, m) /\ md_Sequence md = u64 (t_sendSequence t + 1) /\ md_route md = route.
Proof.
  intros (Htr & Hdec & Hwf) (Hmw & Hv & _ & b & Hb & Hle) Hc. cbn [fst snd] in *.
  pose proof (u64_range (t_sendSequence t + 1)) as Hseq.
  set (t1 := set_send (u64 (t_sendSequence t + 1)) t).
  destruct (serialize_delivers (t_serde u) (t_serde t1) m b route _ w Htr Hmw Hb Hle Hseq Hc)
    as (p & md & w1 & Hrun & Hst & He & Hd).
  destruct He as (? & ? & Hs & Hr & _ & _ & _ & Hlen & Hsmall & _).
  destruct (run_Encrypt (t_encoder t1) p w1 Hwf) as (ct & Hct & Hopen & Hl).
  exists ct, md, (after_draw nonceSize w1). split_and!; try done.
  - unfold Send. rewrite Hv. cbn [negb]. fold t1.
    rewrite (follows_bind_local _ _ _ _ _ _ _ Hrun). cbn beta iota.
    rewrite (follows_bind_local _ _ _ _ _ _ _ Hct). simpl.
    rewrite eqb_reflx, bool_decide_eq_true_2 by done. done.
  - rewrite Hl. unfold frameTargetSize in Hlen. lia.
  - intros b' Hb' Hb3. rewrite Hl. unfold encryptionOverhead.
    assert (b' = b) as -> by congruence. pose proof (Hsmall Hb3). lia.
  - exists p. by rewrite Hdec.
  - unfold md_route. rewrite Hr. by apply ToProto_valid.
Qed.

(** What a run of sends puts on the wire, as its receiver sees it. *)
Definition sent_ok (u : Transport) {M} `{Message M} (s : bytes * (pb_Metadata * M)) : Prop :=
  opens u (fst s) (snd s) /\ blen (fst s) <= MaxUint16 /\
  md_route (fst (snd s)) <> RouteCloseTransport.
Definition seqs {M} (sent : list (bytes * (pb_Metadata * M))) : list Z :=
  map (fun s => md_Sequence (fst (snd s))) sent.

Lemma send_run_follows me (t u : Transport) {M} `{Message M} (ms : list (M * Route)) w :
  paired t u -> Forall sendable ms -> clock_ok w ->
  exists sent t' w',
    follows me (send_run t ms) (map (fun s => (me, fst s)) sent) w
      = Some ((map (fun s => Ok (fst (snd s))) sent, t'), w') /\
    w_store w' = w_store w /\
    map (fun s => (snd (snd s), md_route (fst (snd s)))) sent = ms /\
    Forall (sent_ok u) sent /\ consecutive (t_sendSequence t) (seqs sent) /\ paired t' u.
Proof.
  intros Hp Hf Hc. revert t w Hp Hc. induction Hf as [|[m route] ms Hm Hms IH]; intros t w Hp Hc.
  { exists [], t, w. by split_and!. }
  destruct (Send_follows me t u m route w Hp Hm Hc)
    as (ct & md & w1 & E1 & Hst & Hl & _ & Ho & Hs & Hr).
  assert (Hc1 : clock_ok w1) by (unfold clock_ok; by rewrite (follows_clock _ _ _ _ _ _ E1)).
  destruct (IH (set_send (u64 (t_sendSequence t + 1)) t) w1 Hp Hc1)
    as (sent & t2 & w2 & E2 & Hst2 & Hms2 & Hok & Hcon & Hp2).
  exists ((ct, (md, m)) :: sent), t2, w2. split_and!; try done.
  - cbn [send_run map fst snd]. change ((me, ct) :: ?l) with ([(me, ct)] ++ l).
    rewrite (follows_bind _ _ _ _ _ _ _ _ E1). cbn beta iota.
    rewrite <- (app_nil_r (map _ sent)), (follows_bind _ _ _ _ _ _ _ _ E2). done.
  - congruence.
  - cbn [map fst snd]. by rewrite Hr, Hms2.
  - constructor; [|done]. split_and!; [done|done|]. cbn [fst snd]. rewrite Hr. apply Hm.
  - cbn [seqs map fst snd consecutive]. rewrite Hs. done.
Qed.

Lemma opens_accept (u : Transport) {M} `{Message M} ct (md : pb_Metadata) (m : M) :
  opens u ct (md, m) -> md_route md <> RouteCloseTransport ->
  md_Sequence md = u64 (t_recvSequence u + 1) ->
  accept_payload u ct = (Ok (md, m), set_recv (md_Sequence md) u).
Proof.
  intros (p & E1 & E2) Hr Hs. unfold accept_payload. rewrite E1, E2.
  destruct (Z.eqb_spec (md_route md) RouteCloseTransport); [done|].
  cbv zeta. rewrite Hs at 1. by rewrite Z.eqb_refl.
Qed.

(** Everything sent on a reliable connection is received, in order. *)
Lemma receive_run_all (u : Transport) {M} `{Message M} sent w rs ws out cl :
  Forall (sent_ok u) sent -> consecutive (t_recvSequence u) (seqs sent) ->
  exists u', exec (receive_run u (M := M) (length sent)) w
               (Net (map (fun s => Ok (fst s)) sent ++ rs) ws out cl)
             = (Some (map snd sent, u'), w, Net rs ws out cl).
Proof.
  intros Hf. revert u Hf. induction sent as [|[ct [md m]] sent IH]; intros u Hf Hc.
  { by exists u. }
  inversion Hf as [|? ? (Ho & _ & Hr) Hf']; subst. cbn [fst snd] in *.
  destruct Hc as [Hs Hc].
  destruct (IH (set_recv (md_Sequence md) u) Hf' Hc) as (u' & E).
  exists u'. cbn [length receive_run]. rewrite exec_bind.
  destruct (exec_Receive u (M := M) w
    (Net (map (fun s => Ok (fst s)) ((ct, (md, m)) :: sent) ++ rs) ws out cl))
    as (r & t1 & E1 & Hok & _).
  specialize (Hok ct eq_refl). rewrite (opens_accept u ct md m Ho Hr Hs) in Hok.
  simplify_eq. rewrite E1, exec_bind. unfold net_read. simpl snd. by rewrite E.
Qed.

Lemma consecutive_lookup r l i x :
  consecutive r l -> 0 <= r -> r + Z.of_nat (length l) < 2 ^ 64 ->
  l !! i = Some x -> x = r + 1 + Z.of_nat i.
Proof.
  revert r i. induction l as [|s l IH]; intros r i Hc Hr Hl Hi; [done|].
  destruct Hc as [-> Hc]. cbn [length] in Hl.
  assert (Hu : u64 (r + 1) = r + 1) by (unfold u64; apply Z.mod_small; lia).
  rewrite Hu in *. destruct i as [|i]; simpl in Hi; [simplify_eq; lia|].
  rewrite (IH (r + 1) i Hc) by (done || lia). lia.
Qed.

(** The cipher was not broken: everything delivered that decrypts was
    encrypted by the peer in this session. *)
Definition no_forgery (u : Transport) {M} (sent : list (bytes * (pb_Metadata * M)))
    (reads : list (result bytes)) : Prop :=
  forall ct p, Ok ct ∈ reads -> Decrypt (t_decoder u) ct = Ok p ->
    exists s, s ∈ sent /\ Decrypt (t_decoder u) (fst s) = Ok p.

Lemma accept_opens (u : Transport) {M} `{Message M} ct (x : pb_Metadata * M) u' :
  accept_payload u ct = (Ok x, u') -> opens u ct x.
Proof.
  unfold accept_payload, opens. intros E. destruct (Decrypt _ _) as [p|]; [|done].
  exists p. split; [done|]. destruct (deserialize _ p) as [[md m]|]; [|done].
  by repeat case_match; simplify_eq.
Qed.

Lemma receive_prefix (u : Transport) {M} `{Message M} sent r0 i k w n :
  Forall (sent_ok u) sent -> consecutive r0 (seqs sent) ->
  0 <= r0 -> r0 + Z.of_nat (length sent) < 2 ^ 64 ->
  (i <= length sent)%nat -> t_recvSequence u = r0 + Z.of_nat i ->
  no_forgery u sent (n_reads n) ->
  exists got u' w' n', exec (receive_run u (M := M) k) w n = (Some (got, u'), w', n') /\
    got `prefix_of` drop i (map snd sent).
Proof.
  intros Hok Hc Hge Hl. revert u i w n Hok. induction k as [|k IH]; intros u i w n Hok Hi Hr Hnf.
  { exists [], u, w, n. split; [done|apply prefix_nil]. }
  cbn [receive_run]. rewrite exec_bind.
  destruct (exec_Receive u (M := M) w n) as (r & u1 & E1 & Hacc & Herr). rewrite E1, exec_bind.
  assert (Hnf1 : no_forgery u sent (n_reads (snd (net_read n)))).
  { unfold net_read. destruct (n_reads n) as [|x l] eqn:En; simpl; [by rewrite En|].
    intros ct p Hin. apply Hnf. by right. }
  destruct r as [[md m]|e].
  - destruct (fst (net_read n)) as [ct|e] eqn:Er; [|by destruct Herr].
    specialize (Hacc ct eq_refl). pose proof (accept_payload_seq u ct _ _ Hacc) as [Hs ->].
    destruct (accept_opens _ _ _ _ Hacc) as (p & Hd & Hde).
    assert (Hin : Ok ct ∈ n_reads n).
    { unfold net_read in Er. destruct (n_reads n) as [|x l]; [done|]. simpl in Er. subst. by left. }
    destruct (Hnf ct p Hin Hd) as (s & Hsin & Hsd).
    apply list_elem_of_lookup in Hsin as (j & Hj).
    pose proof (Forall_lookup_1 _ _ _ _ Hok Hj) as ((p' & Hp' & Hde') & _ & _).
    assert (p' = p) as -> by congruence. rewrite Hde in Hde'. injection Hde' as Hx.
    assert (Hseq : seqs sent !! j = Some (md_Sequence md)).
    { unfold seqs. rewrite list_lookup_fmap, Hj. simpl. by rewrite <- Hx. }
    pose proof (consecutive_lookup _ _ _ _ Hc Hge ltac:(unfold seqs; rewrite length_map; lia) Hseq).
    assert (j = i).
    { pose proof (lookup_lt_Some _ _ _ Hj). rewrite Hr in Hs. unfold u64 in Hs.
      destruct (Z.eq_dec (r0 + Z.of_nat i + 1) (2 ^ 64)) as [E|E].
      - rewrite E, Z_mod_same_full in Hs. lia.
      - rewrite Z.mod_small in Hs by lia. lia. }
    subst j. pose proof (lookup_lt_Some _ _ _ Hj).
    destruct (IH (set_recv (md_Sequence md) u) (S i) w (snd (net_read n)))
      as (got & u2 & w2 & n2 & E2 & Hp); [done|lia|cbn; lia|done|].
    rewrite E2. exists ((md, m) :: got), u2, w2, n2. split; [done|].
    erewrite drop_S; [by apply prefix_cons|]. rewrite list_lookup_fmap, Hj. simpl. by rewrite Hx.
  - assert (u1 = u) as ->.
    { destruct (fst (net_read n)) as [ct|e'] eqn:Er; [|by destruct Herr].
      by apply (accept_payload_seq u ct _ _ (Hacc ct eq_refl)). }
    destruct (IH u i w (snd (net_read n))) as (got & u2 & w2 & n2 & E2 & Hp); try done.
    rewrite E2. by exists got, u2, w2, n2.
Qed.

(** C4: Against a network that drops, repeats, reorders and injects at will, but
    does not break the cipher, the receiver accepts a prefix of what was sent:
    no loss in the middle, no duplicates, no reordering, no foreign message. *)
Theorem accepted_is_prefix_of_sent (t u : Transport) {M} `{Message M} (ms : list (M * Route)) w :
  paired t u -> Forall sendable ms -> clock_ok w ->
  t_sendSequence t = t_recvSequence u -> 0 <= t_sendSequence t ->
  t_sendSequence t + Z.of_nat (length ms) < 2 ^ 64 ->
  exists sent t' w',
    exec (send_run t ms) w (Net [] [] [] false) =
      (Some (map (fun s => Ok (fst (snd s))) sent, t'), w', Net [] [] (map fst sent) false) /\
    map (fun s => (snd (snd s), md_route (fst (snd s)))) sent = ms /\
    forall k wu n, no_forgery u sent (n_reads n) ->
      exists got u' wu' n',
        exec (receive_run u (M := M) k) wu n = (Some (got, u'), wu', n') /\
        got `prefix_of` map snd sent.
Proof.
  intros Hp Hf Hc Heq Hge Hl.
  destruct (send_run_follows true t u ms w Hp Hf Hc)
    as (sent & t' & w' & E & _ & Hms & Hok & Hcon & _).
  exists sent, t', w'. split_and!; [|done|].
  - assert (Hs : forall l : list (bytes * (pb_Metadata * M)),
      side true (map (fun s => (true, fst s)) l) = map fst l /\
      side false (map (fun s => (true, fst s)) l) = []).
    { induction l as [|x l [IH1 IH2]]; [done|]. simpl. by rewrite IH1, IH2. }
    pose proof (exec_follows true _ _ _ _ _ [] [] false E) as He.
    cbn [negb] in He. rewrite (proj1 (Hs sent)), (proj2 (Hs sent)) in He. exact He.
  - intros k wu n Hnf. apply (receive_prefix u sent (t_sendSequence t) 0 k wu n); try done.
    + rewrite <- Hms in Hl. rewrite length_map in Hl. done.
    + lia.
    + rewrite Heq. lia.
Qed.


(** A message that is too large is reported to the caller, but it has already
    consumed a sequence number: the next message, perfectly valid, is refused
    by the peer as out of sync. *)
Theorem oversized_send_desynchronises (t u : Transport) {M} `{Message M} (big : M) b route
    (m : M) route' w :
  paired t u -> IsValid route = true -> Marshal big = Some b -> maxTransportSize < blen b ->
  sendable (m, route') -> clock_ok w ->
  t_sendSequence t = t_recvSequence u -> 0 <= t_sendSequence t < 2 ^ 64 - 2 ->
  exists e t1 ct md t2 w2 e2,
    run_local (Send t big route) w = Some ((Err e, t1), w) /\
    errors_is e ErrMessageTooLarge = true /\
    follows true (Send t1 m route') [(true, ct)] w = Some ((Ok md, t2), w2) /\
    accept_payload (M := M) u ct = (Err e2, u) /\ errors_is e2 ErrOutOfSync = true.
Proof.
  intros Hp Hv Hb Hbig Hm Hc Heq Hr.
  set (t1 := set_send (u64 (t_sendSequence t + 1)) t).
  destruct (Send_follows true t1 u m route' w Hp Hm Hc)
    as (ct & md & w2 & E & _ & _ & _ & (p & Hd & Hde) & Hs & Hro).
  exists (wrapf "serializing" (Sentinel ErrMessageTooLarge)), t1, ct, md,
    (set_send (u64 (t_sendSequence t1 + 1)) t1), w2,
    (wrapf "missing messages" (Sentinel ErrOutOfSync)).
  split_and!; try done.
  - unfold Send. rewrite Hv. cbn [negb]. fold t1.
    by rewrite run_local_bind, (serialize_too_large _ _ b).
  - unfold accept_payload. rewrite Hd, Hde.
    destruct (Z.eqb_spec (md_route md) RouteCloseTransport) as [Ec|_].
    { destruct Hm as (_ & _ & Hn & _). cbn [snd] in Hn. congruence. }
    cbv zeta. cbn [t_sendSequence set_send t1] in Hs. rewrite <- Heq.
    assert (Hu1 : u64 (t_sendSequence t + 1) = t_sendSequence t + 1)
      by (unfold u64; apply Z.mod_small; lia).
    assert (Hu2 : u64 (t_sendSequence t + 1 + 1) = t_sendSequence t + 2)
      by (unfold u64; rewrite Z.mod_small; lia).
    rewrite Hu1 in Hs |- *. rewrite Hu2 in Hs. rewrite Hs.
    destruct (Z.eqb_spec (t_sendSequence t + 2) (t_sendSequence t + 1)); [lia|].
    by destruct (Z.ltb_spec (t_sendSequence t + 2) (t_sendSequence t + 1)); [lia|].
Qed.

(** ** Resumption secrets *)

Lemma derive_tokens_ok root i n :
  exists l, derive_tokens root i n = Some l /\ length l = n /\
    Forall (fun tok => blen tok = resumptionTokenSize) l.
Proof.
  revert i. induction n as [|n IH]; intros i; [by exists []|]. cbn [derive_tokens].
  destruct (Derive_ok root [] (resumptionTokenInfo ++ be_put 4 (u32 i)) resumptionTokenSize)
    as (d & Hd & Hl); [unfold resumptionTokenSize; lia|].
  destruct (IH (i + 1)) as (l & Hl' & Hn & Hf). rewrite Hd, Hl'.
  exists (d :: l). split_and!; [done|simpl; lia|by constructor].
Qed.

(** The two ends of a session derive the same twenty 32-byte resumption tokens
    from the secret they share, and the tokens do not depend on anything else
    of the transport. *)
Theorem resumption_tokens_agree (t u : Transport) (sharedSecret : bytes) :
  t_sessionID t = t_sessionID u ->
  exists tokens,
    deriveResumptionTokens (setResumptionRoot t sharedSecret) = Some tokens /\
    deriveResumptionTokens (setResumptionRoot u sharedSecret) = Some tokens /\
    Z.of_nat (length tokens) = resumptionTokenCount /\
    Forall (fun tok => blen tok = resumptionTokenSize) tokens.
Proof.
  intros Hid. unfold setResumptionRoot. rewrite <- Hid.
  destruct (Derive_ok sharedSecret (t_sessionID t) resumptionRootInfo resumptionTokenSize)
    as (root & Hd & _); [unfold resumptionTokenSize; lia|]. rewrite Hd.
  unfold deriveResumptionTokens. cbn [t_resumptionRoot set_root].
  destruct (derive_tokens_ok root 0 (Z.to_nat resumptionTokenCount)) as (l & -> & Hn & Hf).
  exists l. split_and!; [done|done|rewrite Hn; done|done].
Qed.

End transport.

(** ** Concrete instances *)

Section sample.
Existing Instance toy_crypto.
Existing Instance wire_runtime.

Definition sample_enigma (n : Z) : Enigma := mkEnigma (be_put 32 n).
Definition sample_transport (me peer : Z) : Transport :=
  newTransport (newSignedSerde (sample_key peer) (sample_attest me)) (str "session")
    (sample_enigma me) (sample_enigma peer).

Lemma sample_paired a b : paired (sample_transport a b) (sample_transport b a).
Proof. split; [apply sample_trusts|]. split; [done|]. apply blen_be_put. Qed.

Definition sample_app_messages : list (BytesValue * Route) :=
  [(mkBytesValue (str "hello"), RouteExchangeMessages); (mkBytesValue [], RoutePing)].

Lemma sample_sendable : Forall sendable sample_app_messages.
Proof.
  repeat constructor; try done; eexists; (split; [reflexivity|vm_compute; done]).
Qed.

Lemma accepted_is_prefix_of_sent_witness :
  exists sent got u' wu' n',
    map (fun s => (snd (snd s), md_route (fst (snd s)))) sent = sample_app_messages /\
    exec (receive_run (sample_transport 2 1) (M := BytesValue) 5) (sample_world 9 tt)
      (Net (Ok (str "junk") :: map (fun s => Ok (fst s)) (reverse sent ++ sent)) [] [] false)
      = (Some (got, u'), wu', n') /\
    got `prefix_of` map snd sent.
Proof.
  destruct (accepted_is_prefix_of_sent (sample_transport 1 2) (sample_transport 2 1)
              sample_app_messages (sample_world 3 tt)) as (sent & t' & w' & _ & Hms & Hrun).
  - apply sample_paired.
  - apply sample_sendable.
  - apply sample_clock_ok.
  - reflexivity.
  - vm_compute. done.
  - vm_compute. done.
  - destruct (Hrun 5%nat (sample_world 9 tt)
      (Net (Ok (str "junk") :: map (fun s => Ok (fst s)) (reverse sent ++ sent)) [] [] false))
      as (got & u' & wu' & n' & E & Hp).
    { intros ct p Hin Hd. apply elem_of_cons in Hin as [Hj|Hin].
      - injection Hj as ->. vm_compute in Hd. discriminate Hd.
      - apply list_elem_of_fmap in Hin as (s & Hs & Hin). injection Hs as ->.
        exists s. split; [|exact Hd]. rewrite elem_of_app, elem_of_reverse in Hin. tauto. }
    exists sent, got, u', wu', n'. split; [exact Hms|]. split; [exact E|exact Hp].
Defined.


Definition big_value : BytesValue := mkBytesValue (replicate 61440 Byte.x00).

Lemma oversized_send_desynchronises_witness :
  exists e t1 ct md t2 w2 e2,
    run_local (Send (sample_transport 1 2) big_value RouteExchangeMessages) (sample_world 3 tt)
      = Some ((Err e, t1), sample_world 3 tt) /\
    errors_is e ErrMessageTooLarge = true /\
    follows true (Send t1 (mkBytesValue (str "hello")) RouteExchangeMessages) [(true, ct)]
      (sample_world 3 tt) = Some ((Ok md, t2), w2) /\
    accept_payload (M := BytesValue) (sample_transport 2 1) ct = (Err e2, sample_transport 2 1) /\
    errors_is e2 ErrOutOfSync = true.
Proof.
  destruct (Marshal big_value) as [b|] eqn:E; [|discriminate E].
  apply (oversized_send_desynchronises (sample_transport 1 2) (sample_transport 2 1)
           big_value b RouteExchangeMessages (mkBytesValue (str "hello"))
           RouteExchangeMessages (sample_world 3 tt)).
  - apply sample_paired.
  - reflexivity.
  - exact E.
  - rewrite (marshal_size _ _ E). vm_compute. reflexivity.
  - apply (Forall_inv sample_sendable).
  - apply sample_clock_ok.
  - reflexivity.
  - vm_compute. split; [discriminate|reflexivity].
Defined.

Lemma resumption_tokens_agree_witness :
  exists tokens,
    deriveResumptionTokens (setResumptionRoot (sample_transport 1 2) (str "secret"))
      = Some tokens /\
    deriveResumptionTokens (setResumptionRoot (sample_transport 2 1) (str "secret"))
      = Some tokens /\
    Z.of_nat (length tokens) = resumptionTokenCount /\
    Forall (fun tok => blen tok = resumptionTokenSize) tokens.
Proof.
  apply (resumption_tokens_agree (sample_transport 1 2) (sample_transport 2 1) (str "secret")).
  reflexivity.
Defined.
End sample.
