(* ===== verification/Exchange.v ===== *)
(** * The HPKE channel (pkg/exchange/channel.go)

    [Initiate] and [Accept] set up an encrypted channel over a connection; the
    handshake then runs over it.  [over_channel] turns a program that reads and
    writes on a [Conn] into one whose reads and writes go through a [Channel].

    The main result is that the channel is transparent: two parties that
    complete a conversation over a plain connection complete the same
    conversation over the channel. *)

From S2P Require Import Prelude GoErr Process Crypto.

Section exchange.
Context `{Crypto} {St : Type}.
Implicit Types (w : world St).

Record Channel := newChannel { ch_sender : HpkeSender; ch_recipient : HpkeRecipient }.

Definition Channel_ReadBytes (ch : Channel) : prog St (result bytes * Channel) :=
  do r <- ask ReadBytes;
  Ret match r with
      | Err e => (Err (wrapf "read encrypted" e), ch)
      | Ok encrypted =>
          match hpke_Open (ch_recipient ch) encrypted with
          | None => (Err (wrapf "decrypting" (errorf "hpke: open")), ch)
          | Some (data, rc) => (Ok data, newChannel (ch_sender ch) rc)
          end
      end.

Definition Channel_WriteBytes (ch : Channel) (data : bytes) : prog St (result unit * Channel) :=
  match hpke_Seal (ch_sender ch) data with
  | None => Ret (Err (wrapf "encrypting" (errorf "hpke: seal")), ch)
  | Some (encrypted, s) =>
      do r <- ask (WriteBytes encrypted);
      Ret (map_err (wrapf "write encrypted") r, newChannel s (ch_recipient ch))
  end.

(** The channel forwards [SetDeadline] and [Close] to its connection. *)
Fixpoint over_channel {A} (ch : Channel) (p : prog St A) : prog St A :=
  match p with
  | Ret a => Ret a
  | Panic m => Panic m
  | @Vis _ _ X e k =>
      match e in event _ Y return (Y -> prog St A) -> (Y -> Channel -> prog St A) -> prog St A with
      | ReadBytes => fun _ rec => do ' (r, ch') <- Channel_ReadBytes ch; rec r ch'
      | WriteBytes b => fun _ rec => do ' (r, ch') <- Channel_WriteBytes ch b; rec r ch'
      | SetDeadline t => fun _ rec => Vis (SetDeadline t) (fun x => rec x ch)
      | CloseConn => fun _ rec => Vis CloseConn (fun x => rec x ch)
      | RandBytes n => fun _ rec => Vis (RandBytes n) (fun x => rec x ch)
      | IntN n => fun _ rec => Vis (IntN n) (fun x => rec x ch)
      | Now => fun _ rec => Vis Now (fun x => rec x ch)
      | Local f => fun _ rec => Vis (Local f) (fun x => rec x ch)
      end k (fun x ch' => over_channel ch' (k x))
  end.

Definition Initiate : prog St (result Channel) :=
  do seed <- ask (RandBytes 64);
  match hpke_GenerateKey seed with
  | None => Ret (Err (wrapf "generating kem key" (errorf "hpke: generate")))
  | Some privateKey =>
      try _ <- ask (WriteBytes (hpke_Bytes (hpke_PublicKey privateKey)))
        or "writing hpke public key";
      try merged <- ask ReadBytes or "reading merged message";
      if blen merged <? 2 then Ret (Err (errorf "truncated exchange"))
      else
        let encLen := be_get (btake 2 merged) in
        if blen merged - 2 <? encLen then Ret (Err (errorf "truncated ciphertext"))
        else
          (* the bounds of the slice expressions are computed as uint16 *)
          let hi := u16 (2 + encLen) in
          if hi <? 2 then Panic "slice bounds out of range"
          else
            let remoteEnc := bslice 2 hi merged in
            let remotePublicBytes := bdrop hi merged in
            match hpke_NewRecipient remoteEnc privateKey with
            | None => Ret (Err (wrapf "creating recipient" (errorf "hpke: recipient")))
            | Some recipient =>
                match hpke_NewPublicKey remotePublicBytes with
                | None => Ret (Err (wrapf "parsing remote public key" (errorf "hpke: public key")))
                | Some remotePublic =>
                    do r <- ask (RandBytes 64);
                    match hpke_NewSender remotePublic r with
                    | None => Ret (Err (wrapf "creating sender" (errorf "hpke: sender")))
                    | Some (enc, sender) =>
                        try _ <- ask (WriteBytes enc) or "writing ciphertext";
                        Ret (Ok (newChannel sender recipient))
                    end
                end
            end
  end.

Definition Accept : prog St (result Channel) :=
  try remotePubBytes <- ask ReadBytes or "reading remote public key";
  match hpke_NewPublicKey remotePubBytes with
  | None => Ret (Err (wrapf "parsing remote public key" (errorf "hpke: public key")))
  | Some remotePub =>
      do r <- ask (RandBytes 64);
      match hpke_NewSender remotePub r with
      | None => Ret (Err (wrapf "creating sender" (errorf "hpke: sender")))
      | Some (enc, sender) =>
          do seed <- ask (RandBytes 64);
          match hpke_GenerateKey seed with
          | None => Ret (Err (wrapf "generating kem key" (errorf "hpke: generate")))
          | Some privateKey =>
              let pubB := hpke_Bytes (hpke_PublicKey privateKey) in
              let merged := be_put 2 (u16 (blen enc)) ++ enc ++ pubB in
              try _ <- ask (WriteBytes merged) or "writing merged exchange message";
              try remoteEnc <- ask ReadBytes or "reading remote ciphertext";
              match hpke_NewRecipient remoteEnc privateKey with
              | None => Ret (Err (wrapf "creating recipient" (errorf "hpke: recipient")))
              | Some recipient => Ret (Ok (newChannel sender recipient))
              end
          end
      end
  end.

(** ** The channel is transparent *)

(** The ciphertexts of a conversation between [true] and [false] whose
    senders are [s] and [s']. *)
Fixpoint seal_trace (s s' : HpkeSender) (tr : trace) : trace :=
  match tr with
  | [] => []
  | (true, m) :: tr' =>
      match hpke_Seal s m with
      | Some (ct, s1) => (true, ct) :: seal_trace s1 s' tr'
      | None => []
      end
  | (false, m) :: tr' =>
      match hpke_Seal s' m with
      | Some (ct, s1) => (false, ct) :: seal_trace s s1 tr'
      | None => []
      end
  end.

Context `{!CryptoOk _}.

(** The channels of the two parties, after [n] messages one way and [m] the
    other. *)
Definition synced (n m : Z) (ch ch' : Channel) : Prop :=
  hpke_synced n (ch_sender ch) (ch_recipient ch') /\
  hpke_synced m (ch_sender ch') (ch_recipient ch).

Definition sealed (me : bool) (ch ch' : Channel) (tr : trace) : trace :=
  if me then seal_trace (ch_sender ch) (ch_sender ch') tr
  else seal_trace (ch_sender ch') (ch_sender ch) tr.

Lemma sealed_mine me ch ch' m tr n k :
  synced n k ch ch' -> 0 <= n < 2 ^ 64 ->
  exists ct s rc,
    hpke_Seal (ch_sender ch) m = Some (ct, s) /\ blen ct = blen m + HpkeTagSize /\
    sealed me ch ch' ((me, m) :: tr)
      = (me, ct) :: sealed me (newChannel s (ch_recipient ch)) (newChannel (ch_sender ch') rc) tr /\
    hpke_Open (ch_recipient ch') ct = Some (m, rc) /\
    synced (n + 1) k (newChannel s (ch_recipient ch)) (newChannel (ch_sender ch') rc).
Proof.
  intros [H1 H2] Hn. destruct (hpke_message _ _ _ m H1 Hn) as (ct & s & rc & Es & Eo & El & Hs).
  exists ct, s, rc. split_and!; try done. unfold sealed. by destruct me; cbn; rewrite Es.
Qed.

Lemma sealed_theirs me ch ch' m tr n k :
  synced n k ch ch' -> 0 <= k < 2 ^ 64 ->
  exists ct s rc,
    hpke_Seal (ch_sender ch') m = Some (ct, s) /\ blen ct = blen m + HpkeTagSize /\
    sealed me ch ch' ((negb me, m) :: tr)
      = (negb me, ct) :: sealed me (newChannel (ch_sender ch) rc) (newChannel s (ch_recipient ch')) tr /\
    hpke_Open (ch_recipient ch) ct = Some (m, rc) /\
    synced n (k + 1) (newChannel (ch_sender ch) rc) (newChannel s (ch_recipient ch')).
Proof.
  intros [H1 H2] Hn. destruct (hpke_message _ _ _ m H2 Hn) as (ct & s & rc & Es & Eo & El & Hs).
  exists ct, s, rc. split_and!; try done. unfold sealed. by destruct me; cbn; rewrite Es.
Qed.

(** A party that follows a conversation follows its encryption over the
    channel, with the same outcome. *)
Lemma channel_transparent {A} me (p : prog St A) tr ch ch' n k w a w' :
  synced n k ch ch' -> 0 <= n -> 0 <= k ->
  n + Z.of_nat (length tr) < 2 ^ 64 -> k + Z.of_nat (length tr) < 2 ^ 64 ->
  follows me p tr w = Some (a, w') ->
  follows me (over_channel ch p) (sealed me ch ch' tr) w = Some (a, w').
Proof.
  revert tr ch ch' n k w. induction p as [a0|X e h IH|m]; intros tr ch ch' n k w Hs Hn Hk Ln Lk Hf;
    simpl in Hf; [| |done].
  - destruct tr; [|done]. simplify_eq. by destruct me.
  - destruct e; cbn [over_channel]; try (simpl; eapply IH; done).
    + destruct tr as [|[d m] tr]; [done|]. cbn [length] in Ln, Lk.
      destruct (eqb d me) eqn:Ed; [done|].
      assert (d = negb me) as -> by (by destruct d, me).
      destruct (sealed_theirs me ch ch' m tr n k Hs ltac:(lia)) as (ct & s & rc & _ & _ & -> & Eo & Hs').
      cbn. rewrite Ed, Eo. eapply IH; [exact Hs'|lia..|done].
    + destruct tr as [|[d m] tr]; [done|]. cbn [length] in Ln, Lk.
      destruct (eqb_spec d me) as [->|]; [|done]. cbn [andb] in Hf.
      destruct (bool_decide_reflect (m = b)) as [->|]; [|done].
      destruct (sealed_mine me ch ch' b tr n k Hs ltac:(lia)) as (ct & s & rc & Es & _ & -> & _ & Hs').
      unfold Channel_WriteBytes. rewrite Es. cbn. rewrite eqb_reflx, bool_decide_eq_true_2 by done.
      eapply IH; [exact Hs'|lia..|done].
    + done.
    + simpl. destruct (f (w_store w)) as [x s]. eapply IH; done.
Qed.

(** ** Setting the channel up *)

Lemma be_get_2 (b : bytes) : blen b = 2 -> 0 <= be_get b < 65536.
Proof. intros E. pose proof (be_get_range b) as Hr. rewrite E in Hr. simpl in Hr. lia. Qed.

(** Parsing what [Accept] merges. *)
Lemma merged_split enc pubB :
  0 < 2 + blen enc + blen pubB < 65536 ->
  let merged := be_put 2 (u16 (blen enc)) ++ enc ++ pubB in
  be_get (btake 2 merged) = blen enc /\ u16 (2 + blen enc) = 2 + blen enc /\
  bslice 2 (2 + blen enc) merged = enc /\ bdrop (2 + blen enc) merged = pubB.
Proof.
  intros Hl merged. pose proof (blen_nonneg enc). pose proof (blen_nonneg pubB).
  assert (Hu : u16 (blen enc) = blen enc) by (unfold u16; apply Z.mod_small; lia).
  unfold merged. rewrite Hu.
  split_and!.
  - rewrite btake_app_exact by (by rewrite blen_be_put). apply be_get_put_small. simpl. lia.
  - unfold u16. apply Z.mod_small. lia.
  - unfold bslice. rewrite bdrop_app_exact by (by rewrite blen_be_put).
    apply btake_app_exact. lia.
  - rewrite app_assoc. apply bdrop_app_exact. go_len. lia.
Qed.

(** Two honest parties agree on a channel in three messages that all fit a
    frame. *)
Lemma exchange_setup w w' :
  exists tr chI chA w1 w2,
    follows true Initiate tr w = Some (Ok chI, w1) /\
    follows false Accept tr w' = Some (Ok chA, w2) /\
    synced 0 0 chI chA /\ length tr = 3%nat /\
    Forall (fun m => blen (snd m) <= MaxUint16) tr /\
    w_store w1 = w_store w /\ w_store w2 = w_store w'.
Proof.
  destruct (hpke_gen (draw 64 w)) as [kI EkI].
  set (pubI := hpke_Bytes (hpke_PublicKey kI)).
  destruct (hpke_setup kI (draw 64 w')) as (encA & sA & rI & EsA & ErI & HsA).
  destruct (hpke_gen (draw 64 (after_draw 64 w'))) as [kA EkA].
  set (pubA := hpke_Bytes (hpke_PublicKey kA)).
  destruct (hpke_setup kA (draw 64 (after_draw 64 w))) as (encI & sI & rA & EsI & ErA & HsI).
  destruct hpke_sizes as ([sz1 sz2] & H1 & H2 & H3 & Hpub & Henc). cbn [fst snd] in *.
  pose proof (Hpub (hpke_PublicKey kI)) as L1. pose proof (Hpub (hpke_PublicKey kA)) as L2.
  pose proof (Henc _ _ _ _ EsA) as L3. pose proof (Henc _ _ _ _ EsI) as L4.
  fold pubI in L1. fold pubA in L2.
  set (merged := be_put 2 (u16 (blen encA)) ++ encA ++ pubA).
  destruct (merged_split encA pubA) as (M1 & M2 & M3 & M4); [lia|].
  fold merged in M1, M3, M4.
  assert (Lm : blen merged = 2 + sz2 + sz1) by (unfold merged; go_len; lia).
  assert (Em : be_put 2 (u16 (blen encA)) ++ encA ++ pubA = merged) by done. clearbody merged.
  exists [(true, pubI); (false, merged); (true, encI)], (newChannel sI rI), (newChannel sA rA),
    (after_draw 64 (after_draw 64 w)), (after_draw 64 (after_draw 64 w')).
  split_and!; try done.
  - unfold Initiate. cbn -[draw after_draw u16 bslice bdrop btake be_get blen Z.ltb].
    rewrite EkI. cbn -[draw after_draw u16 bslice bdrop btake be_get blen Z.ltb].
    rewrite bool_decide_eq_true_2 by done.
    rewrite Lm, M1, M2, M3, M4.
    destruct (Z.ltb_spec (2 + sz2 + sz1) 2); [lia|].
    destruct (Z.ltb_spec (2 + sz2 + sz1 - 2) (blen encA)); [lia|].
    destruct (Z.ltb_spec (2 + blen encA) 2); [lia|].
    rewrite ErI. unfold pubA. rewrite hpke_pub_roundtrip.
    cbn -[draw after_draw]. rewrite EsI. cbn -[draw after_draw].
    by rewrite bool_decide_eq_true_2.
  - unfold Accept. cbn -[draw after_draw]. unfold pubI. rewrite hpke_pub_roundtrip.
    cbn -[draw after_draw]. rewrite EsA. cbn -[draw after_draw be_put u16 app blen]. rewrite EkA.
    cbn -[draw after_draw be_put u16 app blen]. fold pubA. rewrite bool_decide_eq_true_2 by (symmetry; exact Em).
    by rewrite ErA.
  - unfold MaxUint16. repeat constructor; cbn [snd]; lia.
Qed.

(** Everything a connection that respects the frame format can deliver. *)
Definition frame_sized (n : net) : Prop :=
  Forall (fun r => match r with Ok b => blen b <= MaxUint16 | Err _ => True end) (n_reads n).

(** The slice bounds of [Initiate] are computed in 16 bits; on messages that
    fit a frame they do not wrap, whatever the peer declares: the initiator
    never panics. *)
Theorem Initiate_never_panics w (n : net) :
  frame_sized n -> exists r w' n', exec Initiate w n = (Some r, w', n').
Proof.
  intros Hf. unfold Initiate. simpl.
  destruct (hpke_GenerateKey _) as [k|]; [|by eexists _, _, _].
  simpl. unfold net_write.
  assert (Hread : forall n', n_reads n' = n_reads n ->
    forall b, fst (net_read n') = Ok b -> blen b <= MaxUint16).
  { intros n' E b. unfold net_read. rewrite E. destruct Hf as [|r l Hr _]; [done|].
    simpl. by intros ->. }
  destruct (n_writes n) as [|[] ws]; simpl; [..|by eexists _, _, _].
  all: match goal with |- context [net_read ?m] => specialize (Hread m eq_refl);
         destruct (net_read m) as [[merged|e] n1] end; simpl; [|by eexists _, _, _].
  all: specialize (Hread merged eq_refl).
  all: destruct (Z.ltb_spec (blen merged) 2); [by eexists _, _, _|].
  all: pose proof (be_get_2 (btake 2 merged) ltac:(apply blen_btake; lia)) as Hg.
  all: destruct (Z.ltb_spec (blen merged - 2) (be_get (btake 2 merged))); [by eexists _, _, _|].
  all: unfold MaxUint16 in *; unfold u16; rewrite Z.mod_small by lia.
  all: destruct (Z.ltb_spec (2 + be_get (btake 2 merged)) 2); [lia|].
  all: repeat (case_match; simpl; try by eexists _, _, _).
Qed.

End exchange.

Section sample.
Existing Instance toy_crypto.

Lemma Initiate_never_panics_witness :
  exists r w' n',
    exec Initiate (World (fun _ => Byte.x07) 0 (fun _ => 0) 0 (fun _ => 0) 0 tt)
      (Net [Ok [Byte.xff; Byte.xff; Byte.x00]] [] [] false) = (Some r, w', n').
Proof.
  apply Initiate_never_panics. repeat constructor. vm_compute. discriminate.
Defined.
End sample.
