(* ===== verification/Handshake.v ===== *)
(** * Introductions, resumption messages and the handshake

    intro.go, resume.go and handshake.go.  Every function that reads or writes
    a [Conn] is a [prog]; the server and the dialer run them over the HPKE
    channel of [Exchange]. *)

From S2P Require Import Prelude GoErr Process Wire Pb Route Version Crypto Enigma Serde.
From S2P Require Import Transport Exchange.

Section handshake.
Context `{Crypto} `{ProtoRuntime} {St : Type}.
Implicit Types (w wt wu : world St).

(** [fmt.Errorf("%w: expected %s, got %s", ErrUnexpectedRoute, want, got)] *)
Definition unexpected_route (want got : Route) : error :=
  Errorf (route_String want ++ ", got " ++ route_String got) [Sentinel ErrUnexpectedRoute].

(** The statements that introductions and resumption messages share, from
    marshalling the metadata to writing the padded envelope. *)
Definition write_signed (at_ : Attest) (message : bytes) (md : pb_Metadata) (signing : string)
  : prog St (result unit) :=
  match marshal_result md with
  | Err e => Ret (Err (wrapf "marshalling metadata" e))
  | Ok metadataBytes =>
      match Sign at_ (signingInput metadataBytes message) with
      | Err e => Ret (Err (wrapf signing e))
      | Ok sig =>
          let st := mkSignedTransport message sig metadataBytes [] in
          try payload <- padSignedTransport st or "padding signed transport";
          try u <- ask (WriteBytes payload) or "writing";
          Ret (Ok u)
      end
  end.

(** ** intro.go *)

Definition sendIntroduction (at_ : Attest) (name version : bytes) : prog St (result unit) :=
  match MarshalPublicKey at_ with
  | None => Panic "MarshalPublicKey"
  | Some pk =>
      match marshal_result (mkIntroduce name pk version) with
      | Err e => Ret (Err (wrapf "marshalling intro" e))
      | Ok message =>
          do ts <- timestamppb_Now;
          let md := mkMetadata [] (Some ts) 0 (ToProto RouteIdentity) in
          write_signed at_ message md "signing message"
      end
  end.

Definition receiveIntroduction (st : SignedTransport) : result (Peer * bytes) :=
  match routeFromST st with
  | Err e => Err (wrapf "extracting route" e)
  | Ok r =>
      if negb (r =? RouteIdentity) then Err (unexpected_route RouteIdentity r)
      else
        let msg := st_Data st in
        match unmarshal_result (M := Introduce) msg with
        | Err e => Err (wrapf "deserializing" e)
        | Ok introduce =>
            let remote := in_PublicKey introduce in
            if negb (Verify remote (signingInput (st_Metadata st) msg) (st_Signature st))
            then Err (Sentinel ErrInvalidSignature)
            else
              let peer := mkPeer zero_time zero_time (in_Name introduce)
                            (in_AppVersion introduce) remote in
              Ok (peer, in_AppVersion introduce)
        end
  end.

(** ** resume.go *)

Definition sendResumeRequest (at_ : Attest) (sessionID token : bytes) : prog St (result unit) :=
  match marshal_result (mkResumeRequest sessionID token) with
  | Err e => Ret (Err (wrapf "marshalling resume request" e))
  | Ok message =>
      let md := mkMetadata [] None 0 (ToProto RouteResumeRequest) in
      write_signed at_ message md "signing resume request"
  end.

Definition receiveResumeAccept (remote : bytes) : prog St (result (bool * bytes)) :=
  try st <- readSignedTransport or "reading resume accept";
  Ret match routeFromST st with
      | Err e => Err (wrapf "extracting route" e)
      | Ok r =>
          if negb (r =? RouteResumeAccept) then Err (unexpected_route RouteResumeAccept r)
          else if negb (Verify remote (signingInput (st_Metadata st) (st_Data st))
                          (st_Signature st))
          then Err (Sentinel ErrInvalidSignature)
          else match unmarshal_result (M := ResumeAccept) (st_Data st) with
               | Err e => Err (wrapf "deserializing resume accept" e)
               | Ok accept => Ok (ra_Accepted accept, ra_Reason accept)
               end
      end.

Definition sendResumeAccept (at_ : Attest) (accepted : bool) : prog St (result unit) :=
  let reason := if accepted then [] else str "resumption not available" in
  match marshal_result (mkResumeAccept accepted reason) with
  | Err e => Ret (Err (wrapf "marshalling resume accept" e))
  | Ok message =>
      let md := mkMetadata [] None 0 (ToProto RouteResumeAccept) in
      write_signed at_ message md "signing resume accept"
  end.

(** ** handshake.go *)

Record handshakeOpts := mkHandshakeOpts {
  ho_remoteVerifier : Peer -> prog St (result unit);
  ho_sessionID : bytes;
  ho_timeout : Z
}.

Definition validateHandshakeFields (salt sessionKey : bytes) : result unit :=
  if negb (blen salt =? handshakeSaltSize) then Err (errorf "invalid salt length")
  else
    let l := blen sessionKey in
    if negb (l =? sessionIDLength / 2) && negb (l =? sessionIDLength)
    then Err (errorf "invalid session key length")
    else Ok tt.

(** Everything written to the hash. *)
Definition length_prefixed (b : bytes) : bytes := be_put 4 (u32 (blen b)) ++ b.
Definition transcript_input (req resp : Handshake) : bytes :=
  handshakeInfo
  ++ length_prefixed (hs_Key req) ++ length_prefixed (hs_Salt req)
  ++ length_prefixed (hs_SessionKey req)
  ++ length_prefixed (hs_Key resp) ++ length_prefixed (hs_Salt resp)
  ++ length_prefixed (hs_SessionKey resp).
Definition handshakeTranscriptHash (req resp : Handshake) : bytes :=
  sha256_Sum (transcript_input req resp).

Definition deriveChallengeInfo (sessionID direction hash : bytes) : bytes :=
  sessionID ++ str "|" ++ direction ++ str "|" ++ hash.

Definition sendChallenge (t : Transport) (secret info : bytes)
  : prog St (result unit * Transport) :=
  match Derive secret [] info handshakeChallengeSize with
  | Err e => Ret (Err (wrapf "deriving a challenge" e), t)
  | Ok challenge =>
      do ' (s, t) <- Send t (mkBytesValue challenge) RouteSendChallenge;
      match s with
      | Err e => Ret (Err (wrapf "sending" e), t)
      | Ok _ =>
          do ' (r, t) <- Receive t (M := BytesValue);
          Ret (match r with
               | Err e => Err (wrapf "receiving" e)
               | Ok (md, v) =>
                   let route := md_route md in
                   if negb (route =? RouteVerifyChallenge)
                   then Err (unexpected_route RouteVerifyChallenge route)
                   else if negb (bool_decide (bv_Value v = challenge))
                   then Err (Sentinel ErrVerificationFailed)
                   else Ok tt
               end, t)
      end
  end.

Definition acceptChallenge (t : Transport) (expectedRoute : Route)
  : prog St (result unit * Transport) :=
  do ' (r, t) <- Receive t (M := BytesValue);
  match r with
  | Err e => Ret (Err (wrapf "receiving" e), t)
  | Ok (md, v) =>
      let route := md_route md in
      if negb (route =? expectedRoute) then Ret (Err (unexpected_route expectedRoute route), t)
      else
        do ' (s, t) <- Send t (mkBytesValue (bv_Value v)) RouteVerifyChallenge;
        Ret (match s with Err e => Err (wrapf "sending" e) | Ok _ => Ok tt end, t)
  end.

Definition requestHandshake (serde : signedSerde) (opts : handshakeOpts)
  : prog St (result Transport) :=
  try ml <- NewMLKEM or "creating MLKEM keys";
  do localSalt <- randomBytes handshakeSaltSize;
  let cold := bool_decide (ho_sessionID opts = []) in
  do sessionKey <- (if cold then Text (sessionIDLength / 2) else Ret (ho_sessionID opts));
  let req := mkHandshake (mlkem_Bytes (mlkem_public ml)) localSalt sessionKey in
  try (reqBytes, _) <- serialize serde req RouteRequestHandshake 0
    or "serializing handshake request";
  try _ <- ask (WriteBytes reqBytes) or "writing handshake request";
  try respBytes <- ask ReadBytes or "reading handshake response";
  match deserialize serde (M := Handshake) respBytes with
  | Err e => Ret (Err (wrapf "deserializing handshake response" e))
  | Ok (md, resp) =>
      let route := md_route md in
      if negb (route =? RouteAcceptHandshake)
      then Ret (Err (unexpected_route RouteAcceptHandshake route))
      else
        match validateHandshakeFields (hs_Salt resp) (hs_SessionKey resp) with
        | Err e => Ret (Err (wrapf "invalid remote handshake fields" e))
        | Ok _ =>
            let sessionID := if cold then sessionKey ++ hs_SessionKey resp
                             else ho_sessionID opts in
            let transcriptHash := handshakeTranscriptHash req resp in
            match Decapsulate ml (hs_Key resp) with
            | Err e => Ret (Err (wrapf "decapsulating secret" e))
            | Ok secret =>
                match NewEnigma secret localSalt (handshakeC2SInfo ++ sessionID) with
                | Err e => Ret (Err (wrapf "creating encrypter" e))
                | Ok encoder =>
                    match NewEnigma secret (hs_Salt resp) (handshakeS2CInfo ++ sessionID) with
                    | Err e => Ret (Err (wrapf "creating decrypter" e))
                    | Ok decoder =>
                        let t := newTransport serde sessionID encoder decoder in
                        do ' (c, t) <- sendChallenge t secret
                          (deriveChallengeInfo sessionID handshakeC2SInfo transcriptHash);
                        match c with
                        | Err e => Ret (Err (wrapf "sending challenge" e))
                        | Ok _ =>
                            do ' (a, t) <- acceptChallenge t RouteSendChallenge;
                            match a with
                            | Err e => Ret (Err (wrapf "accepting challenge" e))
                            | Ok _ => Ret (Ok (setResumptionRoot t secret))
                            end
                        end
                    end
                end
            end
        end
  end.

Definition acceptHandshake (ut : signedSerde) (opts : handshakeOpts)
  : prog St (result Transport) :=
  try reqBytes <- ask ReadBytes or "reading handshake request";
  match deserialize ut (M := Handshake) reqBytes with
  | Err e => Ret (Err (wrapf "deserializing handshake request" e))
  | Ok (md, req) =>
      let route := md_route md in
      if negb (route =? RouteRequestHandshake)
      then Ret (Err (unexpected_route RouteRequestHandshake route))
      else
        match validateHandshakeFields (hs_Salt req) (hs_SessionKey req) with
        | Err e => Ret (Err (wrapf "invalid remote handshake fields" e))
        | Ok _ =>
            try (secret, ct) <- EncapsulateMLKEM (hs_Key req) or "encapsulating key";
            let remoteSalt := hs_Salt req in
            let cold := bool_decide (ho_sessionID opts = []) in
            do sessionKey <- (if cold then Text (sessionIDLength / 2) else Ret (ho_sessionID opts));
            let sessionID := if cold then hs_SessionKey req ++ sessionKey
                             else ho_sessionID opts in
            do localSalt <- randomBytes handshakeSaltSize;
            let resp := mkHandshake ct localSalt sessionKey in
            try (respBytes, _) <- serialize ut resp RouteAcceptHandshake 0
              or "serializing handshake response";
            try _ <- ask (WriteBytes respBytes) or "writing handshake response";
            let transcriptHash := handshakeTranscriptHash req resp in
            match NewEnigma secret localSalt (handshakeS2CInfo ++ sessionID) with
            | Err e => Ret (Err (wrapf "creating encrypter" e))
            | Ok encoder =>
                match NewEnigma secret remoteSalt (handshakeC2SInfo ++ sessionID) with
                | Err e => Ret (Err (wrapf "creating decrypter" e))
                | Ok decoder =>
                    let t := newTransport ut sessionID encoder decoder in
                    do ' (a, t) <- acceptChallenge t RouteSendChallenge;
                    match a with
                    | Err e => Ret (Err (wrapf "accepting challenge" e))
                    | Ok _ =>
                        do ' (c, t) <- sendChallenge t secret
                          (deriveChallengeInfo sessionID handshakeS2CInfo transcriptHash);
                        match c with
                        | Err e => Ret (Err (wrapf "sending challenge" e))
                        | Ok _ => Ret (Ok (setResumptionRoot t secret))
                        end
                    end
                end
            end
        end
  end.

(** ** What the challenges are bound to *)

Lemma length_prefixed_inj a b r s :
  blen a < 2 ^ 32 -> blen b < 2 ^ 32 ->
  length_prefixed a ++ r = length_prefixed b ++ s -> a = b /\ r = s.
Proof.
  intros Ha Hb E. unfold length_prefixed in E. rewrite <- !app_assoc in E.
  pose proof (blen_nonneg a). pose proof (blen_nonneg b).
  apply app_inj_blen in E as [E1 E2]; [|by rewrite !blen_be_put].
  unfold u32 in E1. rewrite !Z.mod_small in E1 by lia.
  apply be_put_inj in E1; [|simpl; lia..]. by apply app_inj_blen in E2.
Qed.

Definition fields_small (h : Handshake) : Prop :=
  blen (hs_Key h) < 2 ^ 32 /\ blen (hs_Salt h) < 2 ^ 32 /\ blen (hs_SessionKey h) < 2 ^ 32.

(** C34: Two handshakes that differ in any field have different transcripts: the
    hash, and with it every challenge, is bound to all of them. *)
Theorem transcript_injective (req req' resp resp' : Handshake) :
  fields_small req -> fields_small req' -> fields_small resp -> fields_small resp' ->
  transcript_input req resp = transcript_input req' resp' -> req = req' /\ resp = resp'.
Proof.
  intros (?&?&?) (?&?&?) (?&?&?) (?&?&?) E. unfold transcript_input in E.
  rewrite <- (app_nil_r (length_prefixed (hs_SessionKey resp))),
          <- (app_nil_r (length_prefixed (hs_SessionKey resp'))) in E.
  apply app_inv_head in E.
  do 6 (apply length_prefixed_inj in E as [? E]; [|assumption..]).
  destruct req, req', resp, resp'; simpl in *; by subst.
Qed.

(** The information a challenge is derived from determines the session, the
    direction and the transcript, although the session ID has no delimiter. *)
Theorem challenge_info_injective (sid sid' dir dir' hash hash' : bytes) :
  dir ∈ [handshakeC2SInfo; handshakeS2CInfo] -> dir' ∈ [handshakeC2SInfo; handshakeS2CInfo] ->
  blen hash = 32 -> blen hash' = 32 ->
  deriveChallengeInfo sid dir hash = deriveChallengeInfo sid' dir' hash' ->
  sid = sid' /\ dir = dir' /\ hash = hash'.
Proof.
  intros Hd Hd' Hh Hh' E. unfold deriveChallengeInfo in E.
  assert (Hl : blen dir = 37 /\ blen dir' = 37).
  { rewrite !elem_of_cons, elem_of_nil in Hd, Hd'.
    destruct Hd as [->|[->|[]]], Hd' as [->|[->|[]]]; done. }
  destruct Hl as [Hl Hl']. pose proof (f_equal blen E) as El. go_len.
  apply app_inj_blen in E as [-> E]; [|lia]. apply app_inv_head in E.
  apply app_inj_blen in E as [-> E]; [|lia]. by apply app_inv_head in E as ->.
Qed.

(** ** The challenge exchange *)

Context `{!CryptoOk _} `{!ProtoRuntimeOk _}.

(** The two ends of a session, in step. *)
Definition duplex (t u : Transport) : Prop :=
  paired t u /\ paired u t /\
  t_sendSequence t = t_recvSequence u /\ t_sendSequence u = t_recvSequence t.

Lemma duplex_sym t u : duplex t u -> duplex u t.
Proof. unfold duplex. tauto. Qed.

Lemma BytesValue_sendable (v : bytes) route :
  blen v <= 200 -> IsValid route = true -> route <> RouteCloseTransport ->
  sendable (mkBytesValue v, route) /\
  forall b, Marshal (mkBytesValue v) = Some b -> blen b <= 300.
Proof.
  intros Hv Hr Hc. pose proof (blen_nonneg v).
  assert (Hb : forall b, Marshal (mkBytesValue v) = Some b -> blen b <= 300).
  { intros b Eb. rewrite (marshal_size _ _ Eb), size_fields. simpl fields.
    rewrite wire_size_opt_bytes by lia.
    pose proof (uvarint_len_bound (blen v) 1 ltac:(simpl; lia)). case_match; lia. }
  split; [|done]. split_and!; cbn [fst snd]; [simpl; unfold short; lia|done|done|].
  destruct (marshal_ascii (mkBytesValue v)) as [b Eb]; [constructor|].
  exists b. split; [done|]. pose proof (Hb b Eb).
  unfold maxTransportSize, MaxUint16, reservedProtocolOverhead. lia.
Qed.

Lemma Receive_follows me (u : Transport) {M} `{Message M} ct md (m : M) w :
  opens u ct (md, m) -> md_route md <> RouteCloseTransport ->
  md_Sequence md = u64 (t_recvSequence u + 1) ->
  follows me (Receive u (M := M)) [(negb me, ct)] w
    = Some ((Ok (md, m), set_recv (md_Sequence md) u), w).
Proof.
  intros Ho Hr Hs. unfold Receive. simpl.
  assert (eqb (negb me) me = false) as -> by (by destruct me). by rewrite (opens_accept u ct md m).
Qed.

Definition step_send (t : Transport) : Transport := set_send (u64 (t_sendSequence t + 1)) t.
Definition step_recv (t : Transport) : Transport := set_recv (u64 (t_recvSequence t + 1)) t.

Lemma duplex_step t u : duplex t u -> duplex (step_send t) (step_recv u).
Proof.
  intros (Hp & Hq & H1 & H2). unfold duplex, step_send, step_recv. cbn. rewrite H1.
  split_and!; done.
Qed.

(** One message of a session in step: the receiver gets it and both ends stay
    in step. *)
Lemma message_exchange me (t u : Transport) (v : bytes) route wt wu :
  duplex t u -> clock_ok wt -> blen v <= 200 -> IsValid route = true ->
  route <> RouteCloseTransport ->
  exists ct md wt',
    follows me (Send t (mkBytesValue v) route) [(me, ct)] wt
      = Some ((Ok md, step_send t), wt') /\
    follows (negb me) (Receive u (M := BytesValue)) [(me, ct)] wu
      = Some ((Ok (md, mkBytesValue v), step_recv u), wu) /\
    md_route md = route /\ w_store wt' = w_store wt /\ clock_ok wt' /\
    blen ct <= 16424 /\ duplex (step_send t) (step_recv u).
Proof.
  intros Hd Hc Hv Hr Hn. destruct (BytesValue_sendable v route Hv Hr Hn) as [Hs Hsz].
  pose proof Hd as (Hp & _ & Hseq & _).
  destruct (Send_follows me t u (mkBytesValue v) route wt Hp Hs Hc)
    as (ct & md & wt' & E & Hst & _ & Hl & Ho & Hms & Hmr).
  exists ct, md, wt'. split_and!; try done.
  - rewrite <- (negb_involutive me) at 2. unfold step_recv. rewrite <- Hseq, <- Hms.
    apply Receive_follows; [done|congruence|]. by rewrite <- Hseq.
  - unfold clock_ok. by rewrite (follows_clock _ _ _ _ _ _ E).
  - destruct (marshal_ascii (mkBytesValue v)) as [b Eb]; [constructor|].
    apply (Hl b Eb (Hsz b Eb)).
  - by apply duplex_step.
Qed.

Lemma challenge_exchange me (t u : Transport) (secret info : bytes) wt wu :
  duplex t u -> clock_ok wt -> clock_ok wu ->
  exists c1 c2 wt' wu',
    follows me (sendChallenge t secret info) [(me, c1); (negb me, c2)] wt
      = Some ((Ok tt, step_recv (step_send t)), wt') /\
    follows (negb me) (acceptChallenge u RouteSendChallenge) [(me, c1); (negb me, c2)] wu
      = Some ((Ok tt, step_send (step_recv u)), wu') /\
    blen c1 <= 16424 /\ blen c2 <= 16424 /\
    w_store wt' = w_store wt /\ w_store wu' = w_store wu /\ clock_ok wt' /\ clock_ok wu' /\
    duplex (step_recv (step_send t)) (step_send (step_recv u)).
Proof.
  intros Hd Hct Hcu.
  destruct (Derive_ok secret [] info handshakeChallengeSize) as (ch & Hch & Hcl);
    [unfold handshakeChallengeSize; lia|].
  destruct (message_exchange me t u ch RouteSendChallenge wt wu Hd Hct)
    as (c1 & md1 & wt1 & S1 & R1 & Hr1 & Hst1 & Hc1 & L1 & Hd1);
    [unfold handshakeChallengeSize in Hcl; lia|done|done|].
  destruct (message_exchange (negb me) (step_recv u) (step_send t) ch RouteVerifyChallenge wu wt1
              (duplex_sym _ _ Hd1) Hcu)
    as (c2 & md2 & wu1 & S2 & R2 & Hr2 & Hst2 & Hc2 & L2 & Hd2);
    [unfold handshakeChallengeSize in Hcl; lia|done|done|].
  rewrite negb_involutive in R2.
  exists c1, c2, wt1, wu1. split_and!; try done; [| |by apply duplex_sym].
  - unfold sendChallenge. rewrite Hch.
    change [(me, c1); (negb me, c2)] with ([(me, c1)] ++ [(negb me, c2)]).
    rewrite (follows_bind _ _ _ _ _ _ _ _ S1). cbn beta iota.
    change [(negb me, c2)] with ([(negb me, c2)] ++ []).
    rewrite (follows_bind _ _ _ _ _ _ _ _ R2). cbn beta iota. simpl.
    by rewrite Hr2, bool_decide_eq_true_2.
  - unfold acceptChallenge.
    change [(me, c1); (negb me, c2)] with ([(me, c1)] ++ [(negb me, c2)]).
    rewrite (follows_bind _ _ _ _ _ _ _ _ R1). cbn beta iota zeta. rewrite Hr1.
    change (negb (RouteSendChallenge =? RouteSendChallenge)) with false. cbn beta iota.
    change [(negb me, c2)] with ([(negb me, c2)] ++ []). cbn [bv_Value].
    by rewrite (follows_bind _ _ _ _ _ _ _ _ S2).
Qed.

(** ** The honest handshake *)

Definition sid_ok (sid : bytes) : Prop :=
  sid = [] \/ ascii_only sid /\ (blen sid = 12 \/ blen sid = 24).

Lemma session_key_ok sid w :
  sid_ok sid ->
  exists key w',
    run_local (if bool_decide (sid = []) then Text (sessionIDLength / 2) else Ret sid) w
      = Some (key, w') /\
    w_store w' = w_store w /\ w_clock w' = w_clock w /\
    ascii_only key /\ (blen key = 12 \/ blen key = 24) /\
    (sid = [] -> blen key = 12) /\ (sid <> [] -> key = sid).
Proof.
  intros [->|[Ha Hl]].
  - rewrite bool_decide_eq_true_2 by done. eexists _, _. split; [reflexivity|].
    assert (blen (map base32_char (draw 12 w)) = 12)
      by (unfold blen; rewrite length_map; apply (blen_draw 12 w); lia).
    split_and!; try done; [|by left]. apply Forall_map, Forall_true. apply base32_char_ascii.
  - assert (sid <> []) by (intros ->; destruct Hl; done).
    rewrite bool_decide_eq_false_2 by done. exists sid, w. by split_and!.
Qed.

Lemma validate_ok salt key :
  blen salt = 16 -> blen key = 12 \/ blen key = 24 -> validateHandshakeFields salt key = Ok tt.
Proof. intros Hs Hk. unfold validateHandshakeFields. rewrite Hs. by destruct Hk as [->| ->]. Qed.

Lemma handshake_message (r s : signedSerde) (h : Handshake) route w :
  trusts r s -> clock_ok w -> IsValid route = true ->
  blen (hs_Key h) <= 2000 -> blen (hs_Salt h) = 16 ->
  ascii_only (hs_SessionKey h) -> blen (hs_SessionKey h) <= 24 ->
  exists payload md w',
    run_local (serialize s h route 0) w = Some (Ok (payload, md), w') /\
    deserialize r payload = Ok (md, h) /\ md_route md = route /\
    w_store w' = w_store w /\ clock_ok w' /\ blen payload <= frameTargetSize.
Proof.
  intros Ht Hc Hv Hk Hsa Ha Hl. pose proof (blen_nonneg (hs_Key h)).
  pose proof (blen_nonneg (hs_SessionKey h)).
  destruct (marshal_ascii h) as [b Eb]; [by apply Forall_singleton|].
  assert (Hb : blen b <= maxTransportSize).
  { rewrite (marshal_size _ _ Eb), size_fields. simpl fields. rewrite !wire_size_app.
    rewrite !wire_size_opt_bytes by lia.
    pose proof (uvarint_len_mono_3 (blen (hs_Key h)) ltac:(lia)).
    pose proof (uvarint_len_mono_3 (blen (hs_Salt h)) ltac:(lia)).
    pose proof (uvarint_len_mono_3 (blen (hs_SessionKey h)) ltac:(lia)).
    unfold maxTransportSize, MaxUint16, reservedProtocolOverhead. repeat case_match; lia. }
  destruct (serialize_delivers r s h b route 0 w Ht) as (payload & md & w' & E & Hst & He & Hd);
    [simpl; unfold short; lia|done|done|lia|done|].
  destruct He as (? & ? & _ & Hr & _ & _ & _ & Hlen & _).
  exists payload, md, w'. split_and!; try done.
  - unfold md_route. rewrite Hr. by apply ToProto_valid.
  - unfold clock_ok. by rewrite (run_local_clock _ _ _ _ E).
Qed.

(** Two transports built from the same secret and salts, crosswise. *)
Lemma transports_duplex (sA sB : signedSerde) sid secret saltA saltB eA dA eB dB :
  trusts sB sA -> trusts sA sB ->
  NewEnigma secret saltA (handshakeC2SInfo ++ sid) = Ok eA ->
  NewEnigma secret saltB (handshakeS2CInfo ++ sid) = Ok dA ->
  eB = dA -> dB = eA ->
  duplex (newTransport sA sid eA dA) (newTransport sB sid eB dB).
Proof.
  intros H1 H2 E1 E2 -> ->. apply NewEnigma_wf in E1, E2. by split_and!.
Qed.

(** What both ends hold when the handshake is done. *)
Definition agreed (sid : bytes) (tA tB : Transport) : Prop :=
  duplex tA tB /\ t_sessionID tA = t_sessionID tB /\
  (exists root, t_resumptionRoot tA = Some root /\ t_resumptionRoot tB = Some root) /\
  (sid = [] -> blen (t_sessionID tA) = 24) /\ (sid <> [] -> t_sessionID tA = sid) /\
  t_sendSequence tA = 2 /\ t_sendSequence tB = 2.

Lemma agreed_after_challenges sid sid' sA sB eA dA secret :
  duplex (newTransport sA sid' eA dA) (newTransport sB sid' dA eA) ->
  (sid = [] -> blen sid' = 24) -> (sid <> [] -> sid' = sid) ->
  agreed sid
    (setResumptionRoot (step_send (step_recv (step_recv (step_send (newTransport sA sid' eA dA)))))
       secret)
    (setResumptionRoot (step_recv (step_send (step_send (step_recv (newTransport sB sid' dA eA)))))
       secret).
Proof.
  intros Hd H1 H2. unfold setResumptionRoot.
  destruct (Derive_ok secret sid' resumptionRootInfo resumptionTokenSize) as (root & Er & _);
    [unfold resumptionTokenSize; lia|].
  cbn [t_sessionID step_send step_recv set_send set_recv newTransport]. rewrite Er.
  unfold agreed. split_and!; try done; [|by exists root].
  unfold duplex. destruct Hd as (Hp & Hq & _ & _). by split_and!.
Qed.

(** The session ID both sides compute. *)
Definition session_id (sid keyA keyB : bytes) : bytes :=
  if bool_decide (sid = []) then keyA ++ keyB else sid.

(** The initiator's side of a handshake, from the messages of the responder. *)
Lemma requestHandshake_follows s o w ml w1 key w3 reqB md1 w4 respB md2 resp secret eA dA tr1 tr2
    t1 w5 t2 w6 :
  let req := mkHandshake (mlkem_Bytes (mlkem_public ml)) (draw 16 w1) key in
  let sid' := session_id (ho_sessionID o) key (hs_SessionKey resp) in
  let th := handshakeTranscriptHash req resp in
  run_local NewMLKEM w = Some (Ok ml, w1) ->
  run_local (if bool_decide (ho_sessionID o = []) then Text (sessionIDLength / 2)
             else Ret (ho_sessionID o)) (after_draw 16 w1) = Some (key, w3) ->
  run_local (serialize s req RouteRequestHandshake 0) w3 = Some (Ok (reqB, md1), w4) ->
  deserialize s respB = Ok (md2, resp) -> md_route md2 = RouteAcceptHandshake ->
  validateHandshakeFields (hs_Salt resp) (hs_SessionKey resp) = Ok tt ->
  Decapsulate ml (hs_Key resp) = Ok secret ->
  NewEnigma secret (draw 16 w1) (handshakeC2SInfo ++ sid') = Ok eA ->
  NewEnigma secret (hs_Salt resp) (handshakeS2CInfo ++ sid') = Ok dA ->
  follows true (sendChallenge (newTransport s sid' eA dA) secret
                  (deriveChallengeInfo sid' handshakeC2SInfo th)) tr1 w4
    = Some ((Ok tt, t1), w5) ->
  follows true (acceptChallenge t1 RouteSendChallenge) tr2 w5 = Some ((Ok tt, t2), w6) ->
  follows true (requestHandshake s o) ((true, reqB) :: (false, respB) :: tr1 ++ tr2) w
    = Some (Ok (setResumptionRoot t2 secret), w6).
Proof.
  intros req sid' th EML EK Ereq Dresp Rresp Hv Hdec EeA EdA F1 F2.
  unfold requestHandshake. flocal EML. cbn [pbind ask randomBytes follows].
  change handshakeSaltSize with 16. flocal EK. fold req. flocal Ereq.
  cbn [pbind ask follows eqb andb]. rewrite bool_decide_eq_true_2 by done.
  cbn [pbind ask follows eqb andb].
  rewrite Dresp, Rresp. change (negb (RouteAcceptHandshake =? RouteAcceptHandshake)) with false.
  cbn beta iota zeta. rewrite Hv, Hdec. fold th.
  change (if bool_decide (ho_sessionID o = []) then key ++ hs_SessionKey resp
          else ho_sessionID o) with sid'.
  rewrite EeA, EdA. ftrace F1. rewrite <- (app_nil_r tr2). ftrace F2. reflexivity.
Qed.

(** The responder's side. *)
Lemma acceptHandshake_follows s o w reqB md1 req secret ct v1 key v2 respB md2 v4 eB dB tr1 tr2
    t1 v5 t2 v6 :
  let resp := mkHandshake ct (draw 16 v2) key in
  let sid' := session_id (ho_sessionID o) (hs_SessionKey req) key in
  let th := handshakeTranscriptHash req resp in
  deserialize s reqB = Ok (md1, req) -> md_route md1 = RouteRequestHandshake ->
  validateHandshakeFields (hs_Salt req) (hs_SessionKey req) = Ok tt ->
  run_local (EncapsulateMLKEM (hs_Key req)) w = Some (Ok (secret, ct), v1) ->
  run_local (if bool_decide (ho_sessionID o = []) then Text (sessionIDLength / 2)
             else Ret (ho_sessionID o)) v1 = Some (key, v2) ->
  run_local (serialize s resp RouteAcceptHandshake 0) (after_draw 16 v2)
    = Some (Ok (respB, md2), v4) ->
  NewEnigma secret (draw 16 v2) (handshakeS2CInfo ++ sid') = Ok eB ->
  NewEnigma secret (hs_Salt req) (handshakeC2SInfo ++ sid') = Ok dB ->
  follows false (acceptChallenge (newTransport s sid' eB dB) RouteSendChallenge) tr1 v4
    = Some ((Ok tt, t1), v5) ->
  follows false (sendChallenge t1 secret (deriveChallengeInfo sid' handshakeS2CInfo th)) tr2 v5
    = Some ((Ok tt, t2), v6) ->
  follows false (acceptHandshake s o) ((true, reqB) :: (false, respB) :: tr1 ++ tr2) w
    = Some (Ok (setResumptionRoot t2 secret), v6).
Proof.
  intros resp sid' th Dreq Rreq Hv EE EK Eresp EeB EdB F1 F2.
  unfold acceptHandshake. cbn [pbind ask follows eqb andb].
  rewrite Dreq, Rreq. change (negb (RouteRequestHandshake =? RouteRequestHandshake)) with false.
  cbn beta iota zeta. rewrite Hv. flocal EE. flocal EK.
  cbn [pbind ask randomBytes follows]. change handshakeSaltSize with 16.
  fold resp. flocal Eresp. cbn [pbind ask follows eqb andb].
  rewrite bool_decide_eq_true_2 by done. fold th.
  change (if bool_decide (ho_sessionID o = []) then hs_SessionKey req ++ key
          else ho_sessionID o) with sid'.
  rewrite EeB, EdB. ftrace F1. rewrite <- (app_nil_r tr2). ftrace F2. reflexivity.
Qed.

(** Both ends from the keys on: the two challenges. *)
Lemma two_challenges sA sB sid' secret saltA saltB th wA wB :
  trusts sB sA -> trusts sA sB -> clock_ok wA -> clock_ok wB ->
  exists eA dA tr1 tr2 wA1 wA2 wB1 wB2,
    NewEnigma secret saltA (handshakeC2SInfo ++ sid') = Ok eA /\
    NewEnigma secret saltB (handshakeS2CInfo ++ sid') = Ok dA /\
    let tA := newTransport sA sid' eA dA in let tB := newTransport sB sid' dA eA in
    let tA1 := step_recv (step_send tA) in let tB1 := step_send (step_recv tB) in
    follows true (sendChallenge tA secret (deriveChallengeInfo sid' handshakeC2SInfo th)) tr1 wA
      = Some ((Ok tt, tA1), wA1) /\
    follows false (acceptChallenge tB RouteSendChallenge) tr1 wB = Some ((Ok tt, tB1), wB1) /\
    follows false (sendChallenge tB1 secret (deriveChallengeInfo sid' handshakeS2CInfo th)) tr2 wB1
      = Some ((Ok tt, step_recv (step_send tB1)), wB2) /\
    follows true (acceptChallenge tA1 RouteSendChallenge) tr2 wA1
      = Some ((Ok tt, step_send (step_recv tA1)), wA2) /\
    duplex tA tB /\ Forall (fun m => blen (snd m) <= 16424) (tr1 ++ tr2) /\
    length (tr1 ++ tr2) = 4%nat /\
    w_store wA2 = w_store wA /\ w_store wB2 = w_store wB.
Proof.
  intros Tba Tab HcA HcB.
  destruct (NewEnigma_ok secret saltA (handshakeC2SInfo ++ sid')) as (eA & EeA & _).
  destruct (NewEnigma_ok secret saltB (handshakeS2CInfo ++ sid')) as (dA & EdA & _).
  pose proof (transports_duplex sA sB sid' secret saltA saltB eA dA dA eA Tba Tab EeA EdA
                eq_refl eq_refl) as Hd0.
  destruct (challenge_exchange true _ _ secret (deriveChallengeInfo sid' handshakeC2SInfo th)
              wA wB Hd0 HcA HcB)
    as (c1 & c2 & w5 & v5 & F1 & G1 & L1 & L2 & S5 & Sv5 & Hc5 & Hcv5 & Hd1).
  destruct (challenge_exchange false _ _ secret (deriveChallengeInfo sid' handshakeS2CInfo th)
              v5 w5 (duplex_sym _ _ Hd1) Hcv5 Hc5)
    as (c3 & c4 & v6 & w6 & F2 & G2 & L3 & L4 & Sv6 & S6 & _ & _ & _).
  exists eA, dA, [(true, c1); (false, c2)], [(false, c3); (true, c4)], w5, w6, v5, v6.
  cbv zeta. split_and!; try done; try congruence. repeat constructor; done.
Qed.

(** Two honest parties complete the handshake, cold or resumed, in six
    messages that fit a frame even inside the HPKE channel, and agree. *)
Lemma handshake_agrees (sA sB : signedSerde) (oA oB : handshakeOpts) wA wB :
  trusts sB sA -> trusts sA sB -> clock_ok wA -> clock_ok wB ->
  ho_sessionID oA = ho_sessionID oB -> sid_ok (ho_sessionID oA) ->
  exists tr tA tB wA' wB',
    follows true (requestHandshake sA oA) tr wA = Some (Ok tA, wA') /\
    follows false (acceptHandshake sB oB) tr wB = Some (Ok tB, wB') /\
    agreed (ho_sessionID oA) tA tB /\
    Forall (fun m => blen (snd m) <= frameTargetSize) tr /\ length tr = 6%nat /\
    w_store wA' = w_store wA /\ w_store wB' = w_store wB.
Proof.
  intros Tba Tab HcA HcB Hsid Hok.
  destruct (mlkem_gen (draw 64 wA)) as [dk Edk].
  set (ml := mkMLKEM (mlkem_EncapsulationKey dk) dk).
  assert (EML : run_local NewMLKEM wA = Some (Ok ml, after_draw 64 wA))
    by (unfold NewMLKEM; simpl; by rewrite Edk).
  set (w1 := after_draw 64 wA) in *.
  assert (HsA : blen (draw 16 w1) = 16) by (apply blen_draw; lia).
  destruct (session_key_ok (ho_sessionID oA) (after_draw 16 w1) Hok)
    as (keyA & w3 & EK & HsK & HcK & HaK & HlK & HkC & HkR).
  set (req := mkHandshake (mlkem_Bytes (mlkem_public ml)) (draw 16 w1) keyA).
  destruct (handshake_message sB sA req RouteRequestHandshake w3 Tba)
    as (reqB & md1 & w4 & Ereq & Dreq & Rreq & Sreq & Hc4 & Lreq);
    [unfold clock_ok; rewrite HcK; exact HcA|done|
     cbn; rewrite mlkem_ek_len; unfold MLKEMEncapsulationKeySize; lia|done|done|cbn; lia|].
  destruct (mlkem_Encapsulate (mlkem_EncapsulationKey dk) (draw 32 wB)) as [secret ct] eqn:Eenc.
  assert (EE : run_local (EncapsulateMLKEM (hs_Key req)) wB = Some (Ok (secret, ct), after_draw 32 wB)).
  { unfold EncapsulateMLKEM. cbn [hs_Key req]. rewrite mlkem_ek_roundtrip. simpl. by rewrite Eenc. }
  destruct (session_key_ok (ho_sessionID oA) (after_draw 32 wB) Hok)
    as (keyB & v2 & EKB & HsKB & HcKB & HaKB & HlKB & HkCB & HkRB).
  assert (HsB : blen (draw 16 v2) = 16) by (apply blen_draw; lia).
  set (resp := mkHandshake ct (draw 16 v2) keyB).
  assert (Hct : blen ct = MLKEMCiphertextSize)
    by (rewrite <- (mlkem_ct_len (mlkem_EncapsulationKey dk) (draw 32 wB)); by rewrite Eenc).
  unfold MLKEMCiphertextSize in Hct.
  destruct (handshake_message sA sB resp RouteAcceptHandshake (after_draw 16 v2) Tab)
    as (respB & md2 & v4 & Eresp & Dresp & Rresp & Sresp & Hcv4 & Lresp);
    [unfold clock_ok; cbn; rewrite HcKB; exact HcB|done|cbn; lia|done|done|cbn; lia|].
  set (sid' := session_id (ho_sessionID oA) keyA keyB).
  destruct (two_challenges sA sB sid' secret (draw 16 w1) (draw 16 v2)
              (handshakeTranscriptHash req resp) w4 v4 Tba Tab Hc4 Hcv4)
    as (eA & dA & tr1 & tr2 & w5 & w6 & v5 & v6 & EeA & EdA & F1 & G1 & F2 & G2 & Hd & Lt & Nt & S6 & Sv6).
  eexists ((true, reqB) :: (false, respB) :: tr1 ++ tr2), _,
    (setResumptionRoot (step_recv (step_send (step_send (step_recv
       (newTransport sB sid' dA eA))))) secret), w6, v6.
  assert (Hdec : Decapsulate ml (hs_Key resp) = Ok secret)
    by (unfold Decapsulate; cbn; by rewrite (mlkem_correct _ _ _ _ Eenc)).
  split_and!.
  - by eapply requestHandshake_follows; try done; apply validate_ok.
  - subst sid'. rewrite Hsid in *. by eapply acceptHandshake_follows; try done; apply validate_ok.
  - apply agreed_after_challenges; [done|..]; unfold sid', session_id; intros Hs.
    + rewrite bool_decide_eq_true_2, blen_app, (HkC Hs), (HkCB Hs); done.
    + by rewrite bool_decide_eq_false_2.
  - constructor; [done|]. constructor; [done|]. eapply Forall_impl; [exact Lt|].
    intros [d m]; cbn. unfold frameTargetSize, MaxUint16, encryptionOverhead. lia.
  - cbn. by rewrite Nt.
  - rewrite S6, Sreq. exact HsK.
  - rewrite Sv6, Sresp. exact HsKB.
Qed.

End handshake.

(** ** Concrete instances *)

Section sample.
Existing Instance toy_crypto.

Definition sample_hello : Handshake := mkHandshake (str "key") (str "salt") (str "prefix").

Lemma sample_fields_small : fields_small sample_hello.
Proof. repeat split; vm_compute; reflexivity. Qed.

Lemma transcript_injective_witness :
  sample_hello = sample_hello /\ sample_hello = sample_hello.
Proof.
  apply (transcript_injective sample_hello sample_hello sample_hello sample_hello
           sample_fields_small sample_fields_small sample_fields_small sample_fields_small).
  reflexivity.
Defined.

Lemma challenge_info_injective_witness :
  str "a|b" = str "a|b" /\ handshakeC2SInfo = handshakeC2SInfo /\ be_put 32 7 = be_put 32 7.
Proof.
  apply (challenge_info_injective (str "a|b") (str "a|b") handshakeC2SInfo handshakeC2SInfo
           (be_put 32 7) (be_put 32 7)).
  - by left.
  - by left.
  - apply blen_be_put.
  - apply blen_be_put.
  - reflexivity.
Defined.
End sample.
