(* ===== verification/Bolt.v ===== *)
(** * The embedded database

    internal/engine stores everything in go.etcd.io/bbolt, which is not part of
    the repository: it is the class [Bolt] below, with the behaviour its
    documentation promises as the class [BoltOk].  A database is a tree of
    buckets; a bucket is named by its path from the root and holds key/value
    pairs and sub-buckets, in key order.  [map_bolt] is an executable instance
    used by the witnesses. *)

From Stdlib Require Import Sorting.Sorted.
From S2P Require Import Prelude GoErr.

Abbreviation path := (list bytes).

Class Bolt := {
  db : Type;
  empty_db : db;
  has_bucket : db -> path -> bool;
  (* Bucket.Get: nil when the key is missing or names a sub-bucket *)
  bucket_Get : db -> path -> bytes -> option bytes;
  bucket_Put : db -> path -> bytes -> bytes -> result db;
  bucket_Delete : db -> path -> bytes -> result db;
  (* CreateBucketIfNotExists of a child; the root is the path [] *)
  bucket_Create : db -> path -> bytes -> result db;
  bucket_DeleteBucket : db -> path -> bytes -> result db;
  (* a cursor from First to Next: None marks a sub-bucket *)
  bucket_cursor : db -> path -> list (bytes * option bytes);
  (* Bucket.Stats().KeyN *)
  bucket_KeyN : db -> path -> Z;
  (* how deep buckets are nested *)
  bucket_depth : db -> nat
}.

(** Limits of bbolt: keys and bucket names of 1 to 32768 bytes, values under
    2 GiB. *)
Definition key_ok (k : bytes) : Prop := 1 <= blen k <= 32768.
Definition value_ok (v : bytes) : Prop := blen v <= 2147483646.

(** Byte-wise order of keys, as the cursor's. *)
Fixpoint key_le (a b : bytes) : bool :=
  match a, b with
  | [], _ => true
  | _ :: _, [] => false
  | x :: a', y :: b' =>
      (bval x <? bval y) || ((bval x =? bval y) && key_le a' b')
  end.

Class BoltOk (B : Bolt) : Prop := {
  put_ok d p k v : has_bucket d p = true -> key_ok k -> value_ok v ->
    has_bucket d (p ++ [k]) = false -> exists d', bucket_Put d p k v = Ok d';
  put_buckets d p k v d' q : bucket_Put d p k v = Ok d' -> has_bucket d' q = has_bucket d q;
  put_get d p k v d' : bucket_Put d p k v = Ok d' -> bucket_Get d' p k = Some v;
  put_get_other d p k v d' q j : bucket_Put d p k v = Ok d' -> q <> p \/ j <> k ->
    bucket_Get d' q j = bucket_Get d q j;
  delete_ok d p k : has_bucket d p = true -> has_bucket d (p ++ [k]) = false ->
    exists d', bucket_Delete d p k = Ok d';
  delete_buckets d p k d' q : bucket_Delete d p k = Ok d' -> has_bucket d' q = has_bucket d q;
  delete_get d p k d' : bucket_Delete d p k = Ok d' -> bucket_Get d' p k = None;
  delete_get_other d p k d' q j : bucket_Delete d p k = Ok d' -> q <> p \/ j <> k ->
    bucket_Get d' q j = bucket_Get d q j;
  create_ok d p n : p = [] \/ has_bucket d p = true -> key_ok n -> bucket_Get d p n = None ->
    exists d', bucket_Create d p n = Ok d';
  create_buckets d p n d' q : bucket_Create d p n = Ok d' ->
    has_bucket d' q = bool_decide (q = p ++ [n]) || has_bucket d q;
  create_get d p n d' q j : bucket_Create d p n = Ok d' -> bucket_Get d' q j = bucket_Get d q j;
  delete_bucket_ok d p n : has_bucket d (p ++ [n]) = true ->
    exists d', bucket_DeleteBucket d p n = Ok d';
  delete_bucket_buckets d p n d' q : bucket_DeleteBucket d p n = Ok d' ->
    has_bucket d' q = has_bucket d q && negb (bool_decide ((p ++ [n]) `prefix_of` q));
  delete_bucket_get d p n d' q j : bucket_DeleteBucket d p n = Ok d' ->
    ~ (p ++ [n]) `prefix_of` q -> bucket_Get d' q j = bucket_Get d q j;
  get_bucket d p k v : bucket_Get d p k = Some v -> has_bucket d p = true;
  cursor_get d p k v : (k, Some v) ∈ bucket_cursor d p <-> bucket_Get d p k = Some v;
  cursor_bucket d p n : (n, None) ∈ bucket_cursor d p <-> has_bucket d (p ++ [n]) = true;
  get_not_bucket d p k v : bucket_Get d p k = Some v -> has_bucket d (p ++ [k]) = false;
  depth_ok d p : has_bucket d p = true -> (length p <= bucket_depth d)%nat;
  cursor_nodup d p : NoDup (bucket_cursor d p).*1;
  cursor_sorted d p : Sorted (fun a b => key_le a b = true) (bucket_cursor d p).*1;
  empty_buckets p : has_bucket empty_db p = false
}.

(** ** An executable instance *)

Abbreviation map_db := (gmap path (gmap bytes bytes)).

Definition map_bolt_error : error := errorf "bbolt".

(** Insertion sort of the keys of one bucket. *)
Fixpoint insert_sorted {A} (x : bytes * A) (l : list (bytes * A)) : list (bytes * A) :=
  match l with
  | [] => [x]
  | y :: l' => if key_le (fst x) (fst y) then x :: l else y :: insert_sorted x l'
  end.
Definition sort_keys {A} (l : list (bytes * A)) : list (bytes * A) := foldr insert_sorted [] l.

Definition children (d : map_db) (p : path) : list bytes :=
  omap (fun q => match last q with
                 | Some n => if bool_decide (q = p ++ [n]) then Some n else None
                 | None => None
                 end) (map_to_list d).*1.

Definition entries (d : map_db) (p : path) : gmap bytes bytes := default ∅ (d !! p).

Definition is_bucket (d : map_db) (p : path) : bool :=
  match d !! p with Some _ => true | None => false end.

Definition map_bucket_Create (d : map_db) (p : path) (n : bytes) : result map_db :=
  if is_bucket d (p ++ [n]) then Ok d
  else if (blen n =? 0) || (32768 <? blen n) then Err map_bolt_error
  else if negb (bool_decide (p = []) || is_bucket d p) then Err map_bolt_error
  else match entries d p !! n with
       | Some _ => Err map_bolt_error
       | None => Ok (<[p ++ [n] := ∅]> d)
       end.

Definition map_bucket_Put (d : map_db) (p : path) (k v : bytes) : result map_db :=
  if (blen k =? 0) || (32768 <? blen k) || (2147483646 <? blen v) then Err map_bolt_error
  else if is_bucket d (p ++ [k]) then Err map_bolt_error
  else match d !! p with
       | None => Err map_bolt_error
       | Some m => Ok (<[p := <[k := v]> m]> d)
       end.

Definition map_bucket_Delete (d : map_db) (p : path) (k : bytes) : result map_db :=
  if is_bucket d (p ++ [k]) then Err map_bolt_error
  else match d !! p with
       | None => Err map_bolt_error
       | Some m => Ok (<[p := delete k m]> d)
       end.

Definition map_bucket_DeleteBucket (d : map_db) (p : path) (n : bytes) : result map_db :=
  if is_bucket d (p ++ [n])
  then Ok (filter (fun kv => ~ (p ++ [n]) `prefix_of` fst kv) (alter (delete n) p d))
  else Err (Sentinel ErrMissingNamespace).

(** The plain values of a bucket: a key that names a sub-bucket has none. *)
Definition values (d : map_db) (p : path) : gmap bytes bytes :=
  filter (fun kv => is_bucket d (p ++ [fst kv]) = false) (entries d p).

Definition map_cursor (d : map_db) (p : path) : list (bytes * option bytes) :=
  sort_keys (((fun kv => (fst kv, Some (snd kv))) <$> map_to_list (values d p))
    ++ ((fun n => (n, None)) <$> children d p)).

#[local] Instance map_bolt : Bolt := {|
  db := map_db;
  empty_db := ∅;
  has_bucket := is_bucket;
  bucket_Get d p k := values d p !! k;
  bucket_Put := map_bucket_Put;
  bucket_Delete := map_bucket_Delete;
  bucket_Create := map_bucket_Create;
  bucket_DeleteBucket := map_bucket_DeleteBucket;
  bucket_cursor := map_cursor;
  bucket_KeyN d p := Z.of_nat (size (values d p));
  bucket_depth d := max_list (length <$> (map_to_list d).*1)
|}.

Lemma values_lookup d p k v :
  values d p !! k = Some v <-> entries d p !! k = Some v /\ is_bucket d (p ++ [k]) = false.
Proof. unfold values. by rewrite map_lookup_filter_Some. Qed.

Lemma values_none d p k :
  values d p !! k = None <-> entries d p !! k = None \/ is_bucket d (p ++ [k]) = true.
Proof.
  unfold values. rewrite map_lookup_filter. destruct (entries d p !! k) as [v|]; simpl; [|tauto].
  case_guard as E; simpl in E; destruct (is_bucket d (p ++ [k])); simpl; intuition congruence.
Qed.

Lemma insert_sorted_perm {A} (x : bytes * A) l : insert_sorted x l ≡ₚ x :: l.
Proof.
  induction l as [|y l IH]; simpl; [done|]. destruct (key_le _ _); [done|].
  rewrite IH. by constructor.
Qed.

Lemma sort_keys_perm {A} (l : list (bytes * A)) : sort_keys l ≡ₚ l.
Proof. induction l as [|x l IH]; simpl; [done|]. by rewrite insert_sorted_perm, IH. Qed.

Lemma key_le_total a b : key_le a b = false -> key_le b a = true.
Proof.
  revert b. induction a as [|x a IH]; intros [|y b]; simpl; try done.
  rewrite orb_false_iff, andb_false_iff, Z.ltb_ge.
  intros [Hge Hor]. apply orb_true_iff.
  destruct (Z.ltb_spec (bval y) (bval x)); [by left|right].
  destruct (Z.eqb_spec (bval y) (bval x)) as [E|]; [|lia]. simpl.
  apply IH. destruct Hor as [Hn|Hn]; [|done]. apply Z.eqb_neq in Hn. lia.
Qed.

Lemma insert_sorted_sorted {A} (x : bytes * A) l :
  Sorted (fun a b => key_le a b = true) l.*1 ->
  Sorted (fun a b => key_le a b = true) (insert_sorted x l).*1.
Proof.
  induction l as [|y l IH]; intros Hs; simpl; [by repeat constructor|].
  destruct (key_le (fst x) (fst y)) eqn:E; simpl.
  - constructor; [done|]. by constructor.
  - apply key_le_total in E. inversion Hs as [|? ? Hs' Hd]; subst. constructor; [by apply IH|].
    destruct l as [|z l]; simpl; [by constructor|].
    destruct (key_le (fst x) (fst z)); simpl; constructor; [done|by inversion Hd].
Qed.

Lemma sort_keys_sorted {A} (l : list (bytes * A)) :
  Sorted (fun a b => key_le a b = true) (sort_keys l).*1.
Proof. induction l as [|x l IH]; simpl; [constructor|]. by apply insert_sorted_sorted. Qed.

Lemma children_spec d p n : n ∈ children d p <-> is_bucket d (p ++ [n]) = true.
Proof.
  unfold children, is_bucket. rewrite list_elem_of_omap. split.
  - intros (q & Hq & Hn). destruct (last q) as [m|]; [|done].
    destruct (bool_decide_reflect (q = p ++ [m])) as [->|]; [|done]. simplify_eq.
    apply list_elem_of_fmap in Hq as ([q v] & E & Hq). apply elem_of_map_to_list in Hq.
    simpl in E. subst q. by rewrite Hq.
  - destruct (d !! (p ++ [n])) as [m|] eqn:E; [|done]. intros _. exists (p ++ [n]). split.
    + apply list_elem_of_fmap. exists (p ++ [n], m). split; [done|by apply elem_of_map_to_list].
    + by rewrite last_snoc, bool_decide_eq_true_2.
Qed.

Lemma children_nodup d p : NoDup (children d p).
Proof.
  unfold children. pose proof (NoDup_fst_map_to_list d) as Hd.
  induction Hd as [|q l Hq _ IH]; simpl; [constructor|].
  destruct (last q) as [m|]; [|done].
  destruct (bool_decide_reflect (q = p ++ [m])) as [->|]; [|done].
  constructor; [|done]. rewrite list_elem_of_omap. intros (q' & Hq' & Hm).
  destruct (last q') as [m'|]; [|done].
  destruct (bool_decide_reflect (q' = p ++ [m'])) as [->|]; [|done]. simplify_eq. done.
Qed.

Lemma map_cursor_perm d p :
  (map_cursor d p).*1 ≡ₚ (map_to_list (values d p)).*1 ++ children d p.
Proof.
  unfold map_cursor. rewrite sort_keys_perm, fmap_app.
  rewrite <- !list_fmap_compose. apply Permutation_app; [done|].
  by rewrite list_fmap_id.
Qed.

Lemma is_bucket_insert d p m q :
  is_bucket (<[p := m]> d) q = bool_decide (q = p) || is_bucket d q.
Proof.
  unfold is_bucket. destruct (bool_decide_reflect (q = p)) as [->|].
  - by rewrite lookup_insert_eq.
  - by rewrite lookup_insert_ne.
Qed.

Lemma is_bucket_update d p m m' q :
  d !! p = Some m -> is_bucket (<[p := m']> d) q = is_bucket d q.
Proof.
  intros E. rewrite is_bucket_insert. unfold is_bucket.
  by destruct (bool_decide_reflect (q = p)) as [->|]; [rewrite E|].
Qed.

Lemma entries_insert d p m q :
  entries (<[p := m]> d) q = if bool_decide (q = p) then m else entries d q.
Proof.
  unfold entries. destruct (bool_decide_reflect (q = p)) as [->|].
  - by rewrite lookup_insert_eq.
  - by rewrite lookup_insert_ne.
Qed.

Lemma values_ext d d' p k :
  entries d' p !! k = entries d p !! k -> is_bucket d' (p ++ [k]) = is_bucket d (p ++ [k]) ->
  values d' p !! k = values d p !! k.
Proof.
  intros He Hb. apply option_eq. intros v. by rewrite !values_lookup, He, Hb.
Qed.

(** What the write operations do to the tree. *)
Lemma map_put_inv d p k v d' :
  map_bucket_Put d p k v = Ok d' ->
  exists m, d !! p = Some m /\ is_bucket d (p ++ [k]) = false /\ d' = <[p := <[k := v]> m]> d.
Proof.
  unfold map_bucket_Put. intros E. repeat (case_match; try done). simplify_eq. eauto.
Qed.

Lemma map_delete_inv d p k d' :
  map_bucket_Delete d p k = Ok d' ->
  exists m, d !! p = Some m /\ d' = <[p := delete k m]> d.
Proof.
  unfold map_bucket_Delete. intros E. repeat (case_match; try done). simplify_eq. eauto.
Qed.

Lemma map_create_inv d p n d' :
  map_bucket_Create d p n = Ok d' ->
  (is_bucket d (p ++ [n]) = true /\ d' = d) \/
  (is_bucket d (p ++ [n]) = false /\ entries d p !! n = None /\ d' = <[p ++ [n] := ∅]> d).
Proof.
  unfold map_bucket_Create. intros E. destruct (is_bucket d (p ++ [n])); [left; by simplify_eq|].
  right. repeat (case_match; try done). by simplify_eq.
Qed.

Lemma map_delete_bucket_inv d p n d' :
  map_bucket_DeleteBucket d p n = Ok d' ->
  d' = filter (fun kv => ~ (p ++ [n]) `prefix_of` fst kv) (alter (delete n) p d).
Proof. unfold map_bucket_DeleteBucket. intros E. case_match; by simplify_eq. Qed.

Lemma is_bucket_alter f d p q : is_bucket (alter f p d) q = is_bucket d q.
Proof.
  unfold is_bucket. destruct (decide (p = q)) as [->|].
  - rewrite lookup_alter_eq. by destruct (d !! q).
  - by rewrite lookup_alter_ne.
Qed.

Lemma is_bucket_delete d p n q :
  is_bucket (filter (fun kv => ~ (p ++ [n]) `prefix_of` fst kv) (alter (delete n) p d)) q
  = is_bucket d q && negb (bool_decide ((p ++ [n]) `prefix_of` q)).
Proof.
  rewrite <- (is_bucket_alter (delete n) d p q). unfold is_bucket. rewrite map_lookup_filter.
  destruct (alter (delete n) p d !! q); [|done]. simpl. case_guard; case_bool_decide; done.
Qed.

Lemma insert_entries d p m k v q j :
  d !! p = Some m -> q <> p \/ j <> k ->
  entries (<[p := <[k := v]> m]> d) q !! j = entries d q !! j.
Proof.
  intros Hm Hne. rewrite entries_insert. destruct (bool_decide_reflect (q = p)) as [->|]; [|done].
  destruct Hne as [|Hne]; [done|]. rewrite lookup_insert_ne by done.
  unfold entries. by rewrite Hm.
Qed.

Lemma delete_entries d p m k q j :
  d !! p = Some m -> q <> p \/ j <> k ->
  entries (<[p := delete k m]> d) q !! j = entries d q !! j.
Proof.
  intros Hm Hne. rewrite entries_insert. destruct (bool_decide_reflect (q = p)) as [->|]; [|done].
  destruct Hne as [|Hne]; [done|]. rewrite lookup_delete_ne by done.
  unfold entries. by rewrite Hm.
Qed.

Lemma map_delete_bucket_get d p n q j :
  is_bucket d (p ++ [n]) = true -> ~ (p ++ [n]) `prefix_of` q ->
  values (filter (fun kv => ~ (p ++ [n]) `prefix_of` fst kv) (alter (delete n) p d)) q !! j
  = values d q !! j.
Proof.
  intros Hb Hq. destruct (decide (q = p /\ j = n)) as [[-> ->]|Hne].
  - rewrite (proj2 (values_none d p n)) by (by right). apply values_none. left.
    unfold entries. rewrite map_lookup_filter. rewrite lookup_alter_eq.
    destruct (d !! p); simpl; [|done]. case_guard; simpl; [apply lookup_delete_eq|done].
  - apply values_ext.
    + unfold entries. rewrite map_lookup_filter. destruct (decide (p = q)) as [->|].
      * rewrite lookup_alter_eq. destruct (d !! q); simpl; [|done].
        case_guard; simpl; [|done]. apply lookup_delete_ne. naive_solver.
      * rewrite lookup_alter_ne by done. destruct (d !! q); simpl; [|done]. by case_guard.
    + rewrite is_bucket_delete. rewrite bool_decide_eq_false_2; [by rewrite andb_true_r|].
      intros [r Hr]. destruct r as [|x r _] using rev_ind.
      * rewrite app_nil_r in Hr. apply app_inj_tail in Hr as [-> ->]. by apply Hne.
      * rewrite app_assoc in Hr. apply app_inj_tail in Hr as [-> ->]. apply Hq. by exists r.
Qed.

#[export] Instance map_bolt_ok : BoltOk map_bolt.
Proof.
  split; cbn [db empty_db has_bucket bucket_Get bucket_Put bucket_Delete bucket_Create
              bucket_DeleteBucket bucket_cursor bucket_depth map_bolt].
  - intros d p k v Hp [Hk1 Hk2] Hv Hs. unfold map_bucket_Put, value_ok in *. rewrite Hs.
    unfold is_bucket in Hp. destruct (d !! p) as [m|]; [|done].
    destruct (Z.eqb_spec (blen k) 0), (Z.ltb_spec 32768 (blen k)),
      (Z.ltb_spec 2147483646 (blen v)); try lia. by eexists.
  - intros d p k v d' q (m & Hm & _ & ->)%map_put_inv. by eapply is_bucket_update.
  - intros d p k v d' (m & Hm & Hb & ->)%map_put_inv. apply values_lookup.
    rewrite (is_bucket_update _ _ _ _ _ Hm), entries_insert, bool_decide_eq_true_2 by done.
    by rewrite lookup_insert_eq.
  - intros d p k v d' q j (m & Hm & _ & ->)%map_put_inv Hne.
    apply values_ext; [by apply insert_entries|by eapply is_bucket_update].
  - intros d p k Hp Hs. unfold map_bucket_Delete. rewrite Hs. unfold is_bucket in Hp.
    destruct (d !! p) as [m|]; [|done]. by eexists.
  - intros d p k d' q (m & Hm & ->)%map_delete_inv. by eapply is_bucket_update.
  - intros d p k d' (m & Hm & ->)%map_delete_inv. apply values_none. left.
    by rewrite entries_insert, bool_decide_eq_true_2, lookup_delete_eq.
  - intros d p k d' q j (m & Hm & ->)%map_delete_inv Hne.
    apply values_ext; [by apply delete_entries|by eapply is_bucket_update].
  - intros d p n Hp [Hn1 Hn2] Hg. unfold map_bucket_Create.
    destruct (is_bucket d (p ++ [n])) eqn:Eb; [by eexists|].
    destruct (Z.eqb_spec (blen n) 0), (Z.ltb_spec 32768 (blen n)); try lia. simpl.
    assert (bool_decide (p = []) || is_bucket d p = true) as ->.
    { destruct Hp as [->| ->]; [by rewrite bool_decide_eq_true_2|by rewrite orb_true_r]. }
    simpl. apply values_none in Hg as [->|?]; [by eexists|congruence].
  - intros d p n d' q [[Hb ->]|(Hb & _ & ->)]%map_create_inv.
    + destruct (bool_decide_reflect (q = p ++ [n])) as [->|]; [by rewrite Hb|done].
    + apply is_bucket_insert.
  - intros d p n d' q j [[Hb ->]|(Hb & Hn & ->)]%map_create_inv; [done|].
    destruct (decide (q = p /\ j = n)) as [[-> ->]|Hne].
    + rewrite (proj2 (values_none d p n)) by (by left). apply values_none. right.
      by rewrite is_bucket_insert, bool_decide_eq_true_2.
    + apply values_ext.
      * rewrite entries_insert. destruct (bool_decide_reflect (q = p ++ [n])) as [->|]; [|done].
        unfold entries, is_bucket in *. by destruct (d !! (p ++ [n])).
      * rewrite is_bucket_insert, bool_decide_eq_false_2; [done|].
        intros [-> ->]%app_inj_tail. by apply Hne.
  - intros d p n Hn. unfold map_bucket_DeleteBucket. rewrite Hn. by eexists.
  - intros d p n d' q ->%map_delete_bucket_inv. apply is_bucket_delete.
  - intros d p n d' q j E Hq. unfold map_bucket_DeleteBucket in E.
    destruct (is_bucket d (p ++ [n])) eqn:Eb; [|done]. simplify_eq.
    by apply map_delete_bucket_get.
  - intros d p k v [E _]%values_lookup. unfold entries, is_bucket in *. by destruct (d !! p).
  - intros d p k v. unfold map_cursor. rewrite sort_keys_perm, elem_of_app. split.
    + intros [Hin|Hin]; apply list_elem_of_fmap in Hin as (x & E & Hin); simplify_eq.
      destruct x. by apply elem_of_map_to_list in Hin.
    + intros E. left. apply list_elem_of_fmap. exists (k, v).
      split; [done|by apply elem_of_map_to_list].
  - intros d p n. unfold map_cursor. rewrite sort_keys_perm, elem_of_app, <- children_spec. split.
    + intros [Hin|Hin]; apply list_elem_of_fmap in Hin as (x & E & Hin); by simplify_eq.
    + intros Hin. right. apply list_elem_of_fmap. by exists n.
  - by intros d p k v [_ ?]%values_lookup.
  - intros d p Hb. unfold is_bucket in Hb. destruct (d !! p) as [m|] eqn:E; [|done].
    apply max_list_elem_of_le, list_elem_of_fmap. exists p. split; [done|].
    apply list_elem_of_fmap. exists (p, m). split; [done|by apply elem_of_map_to_list].
  - intros d p. rewrite map_cursor_perm. apply NoDup_app. split_and!.
    + apply NoDup_fst_map_to_list.
    + intros x Hx Hc. apply children_spec in Hc.
      apply list_elem_of_fmap in Hx as ([k v] & -> & Hx). apply elem_of_map_to_list in Hx.
      apply values_lookup in Hx as [_ Hx]. simpl in Hc. congruence.
    + apply children_nodup.
  - intros d p. apply sort_keys_sorted.
  - intros p. unfold is_bucket. by rewrite lookup_empty.
Qed.
