(* ===== verification/Engine.v ===== *)
(** * The encrypted key/value engine (internal/engine)

    [engine.go], [bolt_namespace.go] and [bolt_store.go]: namespaces of a
    database whose values are encrypted with a data key, the wrapping of that
    key by a passphrase, and the two rotations.

    A [Namespace] is a position in the bucket tree; [nilNamespace] is a missing
    one.  Code inside a transaction is a function on the store; [Query] and
    [Command] run it in a read-only and in a read-write transaction, the latter
    rolled back when the function fails. *)

From S2P Require Import Prelude GoErr Process Crypto Enigma Bolt.
#[local] Open Scope go_scope.

Definition DefaultNamespace : bytes := str "kamune-store".
Definition PeersNamespace : bytes := str "peers".
Definition SettingsNamespace : bytes := str "settings".
Definition SessionsNamespace : bytes := str "sessions".
Definition kek : bytes := str "key-encryption-key".
Definition dek : bytes := str "data-encryption-key".
Definition dpk : bytes := str "derived-passphrase-key".
Definition wrappedSaltKey : bytes := str "wrapped-salt".
Definition wrappedKey : bytes := str "wrapped-key".
Definition deriveSaltKey : bytes := str "derive-salt".
Definition secretSaltKey : bytes := str "secret-salt".

Section engine.
Context `{Crypto} `{Bolt}.

(** [BoltStore], with the sources of randomness and time its callers use and
    the [expiryDuration] of the [Storage] above it. *)
Record store := mkStore {
  s_db : db;
  s_cipher : Enigma;
  s_rand : nat -> byte; s_rpos : nat;
  s_clock : nat -> Z; s_tpos : nat;
  s_expiry : Z
}.

Definition set_db (d : db) (s : store) : store :=
  mkStore d (s_cipher s) (s_rand s) (s_rpos s) (s_clock s) (s_tpos s) (s_expiry s).
Definition set_cipher (c : Enigma) (s : store) : store :=
  mkStore (s_db s) c (s_rand s) (s_rpos s) (s_clock s) (s_tpos s) (s_expiry s).

Definition rand_bytes (n : Z) : go store bytes := fun s =>
  (Ok (map (s_rand s) (seq (s_rpos s) (Z.to_nat n))),
   mkStore (s_db s) (s_cipher s) (s_rand s) (s_rpos s + Z.to_nat n) (s_clock s) (s_tpos s)
     (s_expiry s)).
Definition clock_Now : go store Z := fun s =>
  (Ok (s_clock s (s_tpos s)),
   mkStore (s_db s) (s_cipher s) (s_rand s) (s_rpos s) (s_clock s) (S (s_tpos s)) (s_expiry s)).

(** [cipher.Encrypt], drawing its nonce from the store. *)
Definition encrypt (e : Enigma) (plaintext : bytes) : go store bytes :=
  let* nonce := rand_bytes nonceSize in
  gret (nonce ++ xchacha_seal (aead_key e) nonce plaintext []).

(** ** bolt_namespace.go *)

(** [nilNamespace], the root of a transaction ([buck == nil]), or a bucket. *)
Inductive Namespace :=
| nilNamespace
| rootNamespace (writable : bool)
| bucketNamespace (writable : bool) (p : path).

Definition sub_path (p : path) (name : bytes) (w : bool) (d : db) : Namespace :=
  if has_bucket d (p ++ [name]) then bucketNamespace w (p ++ [name]) else nilNamespace.

Definition Sub (b : Namespace) (name : bytes) : go store Namespace := fun s =>
  (Ok match b with
      | nilNamespace => nilNamespace
      | rootNamespace w => sub_path [] name w (s_db s)
      | bucketNamespace w p => sub_path p name w (s_db s)
      end, s).

(** [CreateBucketIfNotExists] fails in a read-only transaction. *)
Definition ensure_path (p : path) (name : bytes) (w : bool) : go store Namespace := fun s =>
  if has_bucket (s_db s) (p ++ [name]) then (Ok (bucketNamespace w (p ++ [name])), s)
  else if negb w then (Ok nilNamespace, s)
  else match bucket_Create (s_db s) p name with
       | Ok d => (Ok (bucketNamespace w (p ++ [name])), set_db d s)
       | Err _ => (Ok nilNamespace, s)
       end.

Definition Ensure (b : Namespace) (name : bytes) : go store Namespace :=
  match b with
  | nilNamespace => gret nilNamespace
  | rootNamespace w => ensure_path [] name w
  | bucketNamespace w p => ensure_path p name w
  end.

Definition ns_get (b : Namespace) (key : bytes) : go store bytes := fun s =>
  match b with
  | bucketNamespace _ p =>
      match bucket_Get (s_db s) p key with
      | None => (Err (Sentinel ErrMissingItem), s)
      | Some value => (Ok value, s)
      end
  | _ => (Err (Sentinel ErrMissingNamespace), s)
  end.

Definition GetEncrypted (b : Namespace) (key : bytes) : go store bytes :=
  let* value := ns_get b key in
  let* c := gget s_cipher in
  match Decrypt c value with
  | Err e => gfail (wrapf "decrypt" e)
  | Ok data => gret data
  end.

Definition ns_put (b : Namespace) (key value : bytes) : go store unit := fun s =>
  match b with
  | bucketNamespace w p =>
      if negb w then (Err (wrapf "put" (errorf "tx not writable")), s)
      else match bucket_Put (s_db s) p key value with
           | Err e => (Err (wrapf "put" e), s)
           | Ok d => (Ok tt, set_db d s)
           end
  | _ => (Err (Sentinel ErrMissingNamespace), s)
  end.

Definition PutEncrypted (b : Namespace) (key value : bytes) : go store unit :=
  match b with
  | bucketNamespace _ _ =>
      let* c := gget s_cipher in
      let* encrypted := encrypt c value in
      ns_put b key encrypted
  | _ => gfail (Sentinel ErrMissingNamespace)
  end.

Definition ns_Delete (b : Namespace) (key : bytes) : go store unit := fun s =>
  match b with
  | bucketNamespace w p =>
      if negb w then (Err (wrapf "delete" (errorf "tx not writable")), s)
      else match bucket_Delete (s_db s) p key with
           | Err e => (Err (wrapf "delete" e), s)
           | Ok d => (Ok tt, set_db d s)
           end
  | _ => (Err (Sentinel ErrMissingNamespace), s)
  end.

Definition DeleteNamespace (b : Namespace) (name : bytes) : go store unit := fun s =>
  if blen name =? 0 then (Err (Sentinel ErrMissingNamespace), s)
  else match b with
       | bucketNamespace w p =>
           if negb w then (Err (wrapf "delete namespace" (errorf "tx not writable")), s)
           else if negb (has_bucket (s_db s) (p ++ [name]))
           then (Err (wrapf "delete namespace" (Sentinel ErrMissingNamespace)), s)
           else match bucket_DeleteBucket (s_db s) p name with
                | Err e => (Err (wrapf "delete namespace" e), s)
                | Ok d => (Ok tt, set_db d s)
                end
       | _ => (Err (Sentinel ErrMissingNamespace), s)
       end.

(** Values that fail to decrypt are skipped; a sub-bucket has no value, and
    [Decrypt(nil)] fails. *)
Definition IterateEncrypted (b : Namespace) : go store (list (bytes * bytes)) := fun s =>
  (Ok match b with
      | bucketNamespace _ p =>
          omap (fun kv => match Decrypt (s_cipher s) (default [] (snd kv)) with
                          | Ok data => Some (fst kv, data)
                          | Err _ => None
                          end) (bucket_cursor (s_db s) p)
      | _ => []
      end, s).

Definition FirstKey (b : Namespace) : go store (option bytes) := fun s =>
  (Ok match b with
      | bucketNamespace _ p => head (bucket_cursor (s_db s) p).*1
      | _ => None
      end, s).
Definition LastKey (b : Namespace) : go store (option bytes) := fun s =>
  (Ok match b with
      | bucketNamespace _ p => last (bucket_cursor (s_db s) p).*1
      | _ => None
      end, s).
Definition KeyCount (b : Namespace) : go store Z := fun s =>
  (Ok match b with
      | bucketNamespace _ p => bucket_KeyN (s_db s) p
      | _ => 0
      end, s).
Definition ListSubNamespaces (b : Namespace) : go store (list bytes) := fun s =>
  (Ok match b with
      | bucketNamespace _ p =>
          filter (fun k => has_bucket (s_db s) (p ++ [k]) = true) (bucket_cursor (s_db s) p).*1
      | _ => []
      end, s).

(** ** bolt_store.go *)

Definition Query {A} (f : Namespace -> go store A) : go store A := f (rootNamespace false).

(** [db.Update]: commit when the function returns nil, roll back otherwise. *)
Definition Command {A} (f : Namespace -> go store A) : go store A := fun s =>
  match f (rootNamespace true) s with
  | (Ok a, s') => (Ok a, s')
  | (Err e, s') => (Err e, set_db (s_db s) s')
  end.

Record cipherMeta := mkCipherMeta {
  cm_secretSalt : bytes; cm_deriveSalt : bytes; cm_wrappedSalt : bytes; cm_wrappedKey : bytes
}.

Definition read_meta (d : db) : option cipherMeta :=
  match bucket_Get d [DefaultNamespace] secretSaltKey, bucket_Get d [DefaultNamespace] deriveSaltKey,
        bucket_Get d [DefaultNamespace] wrappedSaltKey, bucket_Get d [DefaultNamespace] wrappedKey with
  | Some ss, Some ds, Some ws, Some wk => Some (mkCipherMeta ss ds ws wk)
  | _, _, _, _ => None
  end.

(** The key that wraps the data key. *)
Definition key_cipher (pass : bytes) (deriveSalt wrappedSalt : bytes) (m1 m2 : string)
  : result Enigma :=
  match Derive pass deriveSalt dpk 32 with
  | Err e => Err (wrapf m1 e)
  | Ok derivedPass => map_err (wrapf m2) (NewEnigma derivedPass wrappedSalt kek)
  end.

Definition extractCipher (d : db) (pass : bytes) : result (Enigma * cipherMeta) :=
  match read_meta d with
  | None => Err (Sentinel ErrMissingItem)
  | Some meta =>
      match key_cipher pass (cm_deriveSalt meta) (cm_wrappedSalt meta) "derive from pass"
              "key cipher" with
      | Err e => Err e
      | Ok keyCipher =>
          match Decrypt keyCipher (cm_wrappedKey meta) with
          | Err e => Err (wrapf "decrypt secret" e)
          | Ok secret =>
              match NewEnigma secret (cm_secretSalt meta) dek with
              | Err e => Err (wrapf "data cipher" e)
              | Ok dataCipher => Ok (dataCipher, meta)
              end
          end
      end
  end.

(** A sequence of raw [Put]s into the default bucket, in one transaction. *)
Fixpoint put_all (kvs : list (bytes * bytes)) : go store unit :=
  match kvs with
  | [] => gret tt
  | (k, v) :: rest =>
      (fun s => match bucket_Put (s_db s) [DefaultNamespace] k v with
                | Err e => (Err (wrapf "put" e), s)
                | Ok d => (Ok tt, set_db d s)
                end) ;* put_all rest
  end.

Definition lift_result {A} (r : result A) : go store A := fun s => (r, s).

Definition createCipher (pass : bytes) : go store Enigma :=
  let* secret := rand_bytes 32 in
  let* secretSalt := rand_bytes 32 in
  let* deriveSalt := rand_bytes 32 in
  let* wrappedSalt := rand_bytes 32 in
  let* keyCipher := lift_result (key_cipher pass deriveSalt wrappedSalt "derive from pass"
                                   "key cipher") in
  let* wrapped := encrypt keyCipher secret in
  let* dataCipher := gwrap "data cipher" (lift_result (NewEnigma secret secretSalt dek)) in
  gwrap "update db" (Command (fun _ => put_all [(wrappedKey, wrapped); (wrappedSaltKey, wrappedSalt);
                         (deriveSaltKey, deriveSalt); (secretSaltKey, secretSalt)])) ;*
  gret dataCipher.

(** [CreateBucketIfNotExists] at the top level, for each name. *)
Fixpoint create_all (names : list bytes) : go store unit :=
  match names with
  | [] => gret tt
  | n :: rest =>
      (fun s => match bucket_Create (s_db s) [] n with
                | Err e => (Err e, s)
                | Ok d => (Ok tt, set_db d s)
                end) ;* create_all rest
  end.

(** [NewBoltDB] after the file is open; [os.Stat] and [bolt.Open] are the
    outcome [opened], [exists_] what [os.Stat] reported. *)
Definition NewBoltDB (createIfMissing exists_ : bool) (opened : result unit) (passphrase : bytes)
  : go store unit :=
  if negb exists_ && negb createIfMissing then gfail (wrapf "open db" (Sentinel ErrNotExist))
  else
    gwrap "open db" (lift_result opened) ;*
    gwrap "creating default bucket" (Command (fun _ =>
      create_all [DefaultNamespace; SettingsNamespace; PeersNamespace; SessionsNamespace])) ;*
    let* d := gget s_db in
    let* cipher :=
      gwrap "cipher"
        (match extractCipher d passphrase with
         | Ok (c, _) => gret c
         | Err e => if errors_is e ErrMissingItem then createCipher passphrase else gfail e
         end) in
    gmodify (set_cipher cipher).

Definition RotatePassphrase (old new : bytes) : go store unit :=
  let* d := gget s_db in
  let* x := gwrap "extract cipher with old passphrase" (lift_result (extractCipher d old)) in
  let meta := snd x in
  let* oldKeyCipher := lift_result (key_cipher old (cm_deriveSalt meta) (cm_wrappedSalt meta)
                                      "derive old pass" "old key cipher") in
  let* secret := gwrap "decrypt secret" (lift_result (Decrypt oldKeyCipher (cm_wrappedKey meta))) in
  let* newDeriveSalt := rand_bytes 32 in
  let* newWrappedSalt := rand_bytes 32 in
  let* newKeyCipher := lift_result (key_cipher new newDeriveSalt newWrappedSalt
                                      "derive new pass" "new key cipher") in
  let* newWrapped := encrypt newKeyCipher secret in
  gwrap "update metadata" (Command (fun _ =>
    put_all [(wrappedKey, newWrapped); (wrappedSaltKey, newWrappedSalt);
             (deriveSaltKey, newDeriveSalt)])) ;*
  let* d := gget s_db in
  let* y := gwrap "reload cipher" (lift_result (extractCipher d new)) in
  gmodify (set_cipher (fst y)).

End engine.

(** ** The abstract store

    Above the engine a store is a partial map from positions to plaintexts:
    [view s p k] is what a reader finds under key [k] of the bucket [p]. *)

Section laws.
Context `{Crypto} `{Bolt} `{!CryptoOk _} `{!BoltOk _}.

Definition view (s : store) (p : path) (k : bytes) : option bytes :=
  match bucket_Get (s_db s) p k with
  | None => None
  | Some ct => match Decrypt (s_cipher s) ct with Ok v => Some v | Err _ => None end
  end.

(** Everything but the contents, the randomness and the clock position. *)
Definition same_frame (s s' : store) : Prop :=
  s_cipher s' = s_cipher s /\ s_clock s' = s_clock s /\ s_expiry s' = s_expiry s.

#[global] Instance same_frame_preorder : PreOrder same_frame.
Proof.
  unfold same_frame. split.
  - intros a. by split_and!.
  - intros a b c (?&?&?) (?&?&?). split_and!; congruence.
Qed.

(** The store after writing [ov] at one position. *)
Definition updated (s s' : store) (p : path) (k : bytes) (ov : option bytes) : Prop :=
  same_frame s s' /\ s_tpos s' = s_tpos s /\
  (forall q, has_bucket (s_db s') q = has_bucket (s_db s) q) /\
  view s' p k = ov /\
  (forall q j, q <> p \/ j <> k -> bucket_Get (s_db s') q j = bucket_Get (s_db s) q j).

Lemma updated_other s s' p k ov q j :
  updated s s' p k ov -> q <> p \/ j <> k -> view s' q j = view s q j.
Proof.
  intros ((Hc & _) & _ & _ & _ & Ho) Hne. unfold view. by rewrite Hc, (Ho q j Hne).
Qed.

Lemma encrypt_ok e v s :
  enigma_wf e -> exists ct s', encrypt e v s = (Ok ct, s') /\ Decrypt e ct = Ok v /\
    blen ct = blen v + 40 /\ same_frame s s' /\ s_db s' = s_db s /\ s_tpos s' = s_tpos s.
Proof.
  intros He. unfold encrypt, gbind, rand_bytes, gret. eexists _, _. split; [reflexivity|].
  assert (Hn : blen (map (s_rand s) (seq (s_rpos s) (Z.to_nat nonceSize))) = nonceSize)
    by (unfold blen; rewrite length_map, length_seq; unfold nonceSize, NonceSizeX; lia).
  split_and!; try done; [by apply Decrypt_sealed|by apply sealed_len].
Qed.

Lemma PutEncrypted_ok p k v s :
  enigma_wf (s_cipher s) -> has_bucket (s_db s) p = true -> key_ok k -> blen v <= 2147483600 ->
  has_bucket (s_db s) (p ++ [k]) = false ->
  exists s', PutEncrypted (bucketNamespace true p) k v s = (Ok tt, s') /\ updated s s' p k (Some v).
Proof.
  intros He Hp Hk Hv Hs. unfold PutEncrypted, gbind, gget.
  destruct (encrypt_ok (s_cipher s) v s He) as (ct & s1 & E & Hd & Hl & Hf & Hdb & Ht).
  rewrite E. unfold ns_put. cbn [negb]. rewrite Hdb.
  destruct (put_ok (s_db s) p k ct Hp Hk) as [d Ed]; [unfold value_ok; lia|done|].
  rewrite Ed. exists (set_db d s1). split; [done|].
  split_and!; [done|done|intros q; by eapply put_buckets| |].
  - unfold view. cbn [s_db set_db s_cipher]. rewrite (put_get _ _ _ _ _ Ed).
    destruct Hf as (-> & _). by rewrite Hd.
  - intros q j Hne. cbn [s_db set_db]. by eapply put_get_other.
Qed.

Lemma GetEncrypted_view b w p k s :
  b = bucketNamespace w p ->
  match view s p k with
  | Some v => GetEncrypted b k s = (Ok v, s)
  | None => exists e, GetEncrypted b k s = (Err e, s) /\
              errors_is e ErrMissingItem = bool_decide (bucket_Get (s_db s) p k = None)
  end.
Proof.
  intros ->. unfold view, GetEncrypted, gbind, ns_get, gget, gret, gfail.
  destruct (bucket_Get (s_db s) p k) as [ct|] eqn:E.
  - destruct (Decrypt (s_cipher s) ct) as [v|e] eqn:Ed; [done|].
    eexists. split; [reflexivity|]. rewrite errors_is_wrapf, bool_decide_eq_false_2 by done.
    unfold Decrypt in Ed. destruct (blen ct <? nonceSize); [by simplify_eq|].
    destruct (xchacha_open _ _ _ _); simpl in Ed; by simplify_eq.
  - eexists. split; [reflexivity|]. by rewrite errors_is_sentinel, bool_decide_eq_true_2.
Qed.

Lemma Delete_ok p k s :
  has_bucket (s_db s) p = true -> has_bucket (s_db s) (p ++ [k]) = false ->
  exists s', ns_Delete (bucketNamespace true p) k s = (Ok tt, s') /\ updated s s' p k None.
Proof.
  intros Hp Hs. unfold ns_Delete. cbn [negb].
  destruct (delete_ok (s_db s) p k Hp Hs) as [d Ed]. rewrite Ed. exists (set_db d s).
  split; [done|]. split_and!; [done|done|intros q; by eapply delete_buckets| |].
  - unfold view. cbn [s_db set_db]. by rewrite (delete_get _ _ _ _ Ed).
  - intros q j Hne. cbn [s_db set_db]. by eapply delete_get_other.
Qed.

(** [Command] commits what its function did when it succeeded. *)
Lemma Command_ok {A} (f : Namespace -> go store A) s a s' :
  f (rootNamespace true) s = (Ok a, s') -> Command f s = (Ok a, s').
Proof. unfold Command. by intros ->. Qed.

Lemma Command_err {A} (f : Namespace -> go store A) s e s' :
  f (rootNamespace true) s = (Err e, s') -> Command f s = (Err e, set_db (s_db s) s').
Proof. unfold Command. by intros ->. Qed.

Lemma set_db_same s : set_db (s_db s) s = s.
Proof. by destruct s. Qed.

(** A rolled-back transaction leaves the view unchanged. *)
Lemma Command_atomic {A} (f : Namespace -> go store A) s e s' :
  Command f s = (Err e, s') -> s_db s' = s_db s.
Proof. unfold Command. destruct (f _ s) as [[a|e'] s1]; intros E; by simplify_eq. Qed.

End laws.

(** ** A concrete store *)

Section sample.
Existing Instance toy_crypto.
Existing Instance map_bolt.

(** The buckets [NewBoltDB] creates, and those of the listed sessions. *)
Definition session_buckets (sid : bytes) : list path :=
  [[SessionsNamespace; sid]; [SessionsNamespace; sid; str "meta"]; [SessionsNamespace; sid; str "chat"]].
Definition sample_paths (sids : list bytes) : list path :=
  [DefaultNamespace] :: [SettingsNamespace] :: [PeersNamespace] :: [SessionsNamespace]
    :: concat (map session_buckets sids).
Definition empty_bucket (p : path) : path * gmap bytes bytes := (p, ∅).
Definition sample_store (sids : list bytes) : store :=
  mkStore (list_to_map (map empty_bucket (sample_paths sids))) (mkEnigma (fit 32 (str "data key")))
    (fun i => bof (Z.of_nat i)) 0
    (fun i => 1700000000 * Second + Z.of_nat (i mod 1000) * Second) 0 (7 * 24 * Hour).

Lemma sample_bucket sids p :
  has_bucket (s_db (sample_store sids)) p = existsb (fun q => bool_decide (p = q)) (sample_paths sids).
Proof.
  change (s_db _) with (list_to_map (map empty_bucket (sample_paths sids)) : map_db).
  cbn [has_bucket map_bolt]. induction (sample_paths sids) as [|q l IH]; [done|].
  change (list_to_map (map empty_bucket (q :: l)))
    with (<[q := (∅ : gmap bytes bytes)]> (list_to_map (map empty_bucket l) : map_db)).
  by rewrite is_bucket_insert, IH.
Qed.

Lemma sample_get sids p k : bucket_Get (s_db (sample_store sids)) p k = None.
Proof.
  change (s_db _) with (list_to_map (map empty_bucket (sample_paths sids)) : map_db).
  cbn [bucket_Get map_bolt]. apply values_none. left. induction (sample_paths sids) as [|q l IH]; [done|].
  change (list_to_map (map empty_bucket (q :: l)))
    with (<[q := (∅ : gmap bytes bytes)]> (list_to_map (map empty_bucket l) : map_db)).
  rewrite entries_insert. destruct (bool_decide (p = q)); [by rewrite lookup_empty|done].
Qed.

Lemma sample_enigma sids : enigma_wf (s_cipher (sample_store sids)).
Proof. done. Qed.

Lemma sample_clock sids i : - 2 ^ 63 <= s_clock (sample_store sids) i < 2 ^ 63.
Proof.
  cbn [s_clock sample_store]. pose proof (Nat.mod_upper_bound i 1000). unfold Second. lia.
Qed.
End sample.

(** Decide whether a bucket of a sample store exists. *)
Ltac sample_has_bucket :=
  rewrite sample_bucket; cbn [sample_paths map concat session_buckets app existsb];
  rewrite ?bool_decide_eq_false_2 by (let E := fresh in intros E; vm_compute in E; discriminate E);
  reflexivity.
