(* ===== verification/Rotate.v ===== *)
(** * Opening a database and rotating its keys (internal/engine/bolt_store.go)

    [RotateDataKey], with the loop that collects every entry under the
    slash-joined name of its bucket and the lookup of that name in the write
    transaction; and what opening, [RotatePassphrase] and [RotateDataKey]
    guarantee.

    [collect] recurses on the nesting of buckets; its fuel is [bucket_depth],
    which no bucket exceeds ([depth_ok]). *)

From S2P Require Import Prelude GoErr Process Crypto Enigma Bolt Engine.
#[local] Open Scope go_scope.

Definition slash : byte := Byte.x2f.

(** [bytes.Split(path, "/")] *)
Fixpoint split_slash (b : bytes) : list bytes :=
  match b with
  | [] => [[]]
  | x :: b' =>
      if bool_decide (x = slash) then [] :: split_slash b'
      else match split_slash b' with
           | h :: t => (x :: h) :: t
           | [] => [[x]]
           end
  end.

Section rotate.
Context `{Crypto} `{Bolt}.

(** [navigateBucket]: descend from the root along the segments. *)
Fixpoint navigate (d : db) (at_ : path) (parts : list bytes) : option path :=
  match parts with
  | [] => Some at_
  | part :: rest => if has_bucket d (at_ ++ [part]) then navigate d (at_ ++ [part]) rest else None
  end.
Definition navigateBucket (d : db) (p : bytes) : option path := navigate d [] (split_slash p).

Record entry := mkEntry { e_path : bytes; e_key : bytes; e_value : bytes }.

(** The closure [collect] of [RotateDataKey]. *)
Fixpoint collect (fuel : nat) (d : db) (bucket : path) (name : bytes) : list entry :=
  match fuel with
  | O => []
  | S fuel' =>
      concat (map (fun kv =>
        let '(k, v) := kv in
        if has_bucket d (bucket ++ [k])
        then collect fuel' d (bucket ++ [k]) (name ++ [slash] ++ k)
        else [mkEntry name k (default [] v)]) (bucket_cursor d bucket))
  end.

(** The read phase: every top-level bucket. *)
Definition collect_all (d : db) : list entry :=
  concat (map (fun kv => collect (bucket_depth d) d [fst kv] (fst kv)) (bucket_cursor d [])).

(** [tx.Bucket(e.path)], or [navigateBucket]. *)
Definition resolve (d : db) (name : bytes) : option path :=
  if has_bucket d [name] then Some [name] else navigateBucket d name.

(** The write phase's loop over the entries. *)
Fixpoint reencrypt_all (oldCipher newCipher : Enigma) (es : list entry) : go store unit :=
  match es with
  | [] => gret tt
  | e :: rest =>
      match Decrypt oldCipher (e_value e) with
      | Err _ => reencrypt_all oldCipher newCipher rest
      | Ok plaintext =>
          let* reencrypted := encrypt newCipher plaintext in
          (fun s => match resolve (s_db s) (e_path e) with
                    | None => (Ok tt, s)
                    | Some q => match bucket_Put (s_db s) q (e_key e) reencrypted with
                                | Err err => (Err (wrapf "put" err), s)
                                | Ok d => (Ok tt, set_db d s)
                                end
                    end) ;*
          reencrypt_all oldCipher newCipher rest
      end
  end.

(** The write transaction: the entries, then the metadata of the new key. *)
Definition rotate_write (oldCipher newCipher : Enigma) (es : list entry) (meta : cipherMeta)
  : go store unit :=
  gwrap "write phase" (Command (fun _ =>
    reencrypt_all oldCipher newCipher es ;*
    put_all [(secretSaltKey, cm_secretSalt meta); (wrappedKey, cm_wrappedKey meta);
             (wrappedSaltKey, cm_wrappedSalt meta); (deriveSaltKey, cm_deriveSalt meta)])) ;*
  gmodify (set_cipher newCipher).

Definition RotateDataKey (old new : bytes) : go store unit :=
  let* d := gget s_db in
  let* x := gwrap "extract cipher with old passphrase" (lift_result (extractCipher d old)) in
  let oldCipher := fst x in
  let* newSecret := rand_bytes 32 in
  let* newSecretSalt := rand_bytes 32 in
  let* newCipher := gwrap "new data cipher" (lift_result (NewEnigma newSecret newSecretSalt dek)) in
  let* newDeriveSalt := rand_bytes 32 in
  let* newWrappedSalt := rand_bytes 32 in
  let* newKeyCipher := lift_result (key_cipher new newDeriveSalt newWrappedSalt
                                      "derive new pass" "new key cipher") in
  let* newWrapped := encrypt newKeyCipher newSecret in
  let* d := gget s_db in
  rotate_write oldCipher newCipher (collect_all d)
    (mkCipherMeta newSecretSalt newDeriveSalt newWrappedSalt newWrapped).

End rotate.

(** ** Names and paths *)

(** The name [collect] gives a bucket. *)
Definition join_path (p : path) : bytes :=
  match p with
  | [] => []
  | n :: r => foldl (fun a k => a ++ [slash] ++ k) n r
  end.

Lemma join_path_snoc p k : p <> [] -> join_path (p ++ [k]) = join_path p ++ [slash] ++ k.
Proof. destruct p as [|n r]; [done|]. intros _. simpl. by rewrite foldl_app. Qed.

Lemma split_slash_free b : slash ∉ b -> split_slash b = [b].
Proof.
  induction b as [|x b IH]; [done|]. intros [Hx Hb]%not_elem_of_cons. simpl.
  rewrite bool_decide_eq_false_2 by congruence. by rewrite IH.
Qed.

Lemma split_slash_nonempty b : split_slash b <> [].
Proof. destruct b as [|x b]; simpl; [done|]. by repeat case_match. Qed.

Lemma split_slash_app a k : slash ∉ k -> split_slash (a ++ [slash] ++ k) = split_slash a ++ [k].
Proof.
  intros Hk. induction a as [|x a IH]; simpl.
  - by rewrite split_slash_free.
  - simpl in IH. rewrite IH. destruct (bool_decide (x = slash)); [done|].
    pose proof (split_slash_nonempty a). by destruct (split_slash a).
Qed.

Lemma split_join p : p <> [] -> Forall (fun n => slash ∉ n) p -> split_slash (join_path p) = p.
Proof.
  induction p as [|k p IH] using rev_ind; [done|]. intros _ [Hp Hk]%Forall_app.
  rewrite Forall_singleton in Hk. destruct (decide (p = [])) as [->|Hne].
  - exact (split_slash_free k Hk).
  - by rewrite join_path_snoc, split_slash_app, IH.
Qed.

Lemma split_slash_parts b : Forall (fun n => slash ∉ n) (split_slash b).
Proof.
  induction b as [|x b IH]; simpl; [by repeat constructor; apply not_elem_of_nil|].
  destruct (bool_decide_reflect (x = slash)) as [->|Hne].
  - constructor; [apply not_elem_of_nil|done].
  - destruct (split_slash b) as [|h t]; [constructor; [|done]|].
    + apply not_elem_of_cons. split; [congruence|apply not_elem_of_nil].
    + inversion IH; subst. constructor; [|done]. apply not_elem_of_cons. by split.
Qed.

Lemma join_path_slash p : (2 <= length p)%nat -> slash ∈ join_path p.
Proof.
  destruct p as [|k p _] using rev_ind; simpl; [lia|]. rewrite length_app. simpl. intros Hl.
  rewrite join_path_snoc by (by destruct p; simpl in *; [lia|]).
  apply elem_of_app. right. by left.
Qed.

(** ** Key metadata *)

Section laws.
Context `{Crypto} `{Bolt} `{!CryptoOk _} `{!BoltOk _}.
Implicit Types (s : store).

Definition metadata_keys : list bytes := [secretSaltKey; wrappedKey; wrappedSaltKey; deriveSaltKey].

(** The bucket of the key metadata exists and holds only values. *)
Definition default_ready s : Prop :=
  has_bucket (s_db s) [DefaultNamespace] = true /\
  forall k, has_bucket (s_db s) [DefaultNamespace; k] = false.

(** The metadata wraps [secret] under [pass], and the store's cipher is the one
    derived from it. *)
Definition keyed s (pass secret : bytes) : Prop :=
  blen secret = 32 /\
  exists meta kc, read_meta (s_db s) = Some meta /\
    key_cipher pass (cm_deriveSalt meta) (cm_wrappedSalt meta) "derive from pass" "key cipher" = Ok kc /\
    Decrypt kc (cm_wrappedKey meta) = Ok secret /\
    NewEnigma secret (cm_secretSalt meta) dek = Ok (s_cipher s).

Lemma keyed_extract s pass secret :
  keyed s pass secret -> exists meta, extractCipher (s_db s) pass = Ok (s_cipher s, meta) /\
    read_meta (s_db s) = Some meta.
Proof.
  intros (_ & meta & kc & Hm & Hk & Hd & Hn). exists meta. split; [|done].
  unfold extractCipher. by rewrite Hm, Hk, Hd, Hn.
Qed.

Lemma keyed_wf s pass secret : keyed s pass secret -> enigma_wf (s_cipher s).
Proof. intros (_ & meta & kc & _ & _ & _ & Hn). by eapply NewEnigma_wf. Qed.

Lemma key_cipher_ok pass ds ws m1 m2 :
  exists kc, key_cipher pass ds ws m1 m2 = Ok kc /\ enigma_wf kc /\
    forall n1 n2, key_cipher pass ds ws n1 n2 = Ok kc.
Proof.
  unfold key_cipher. destruct (Derive_ok pass ds dpk 32) as (d & -> & _); [lia|].
  destruct (NewEnigma_ok d ws kek) as (e & -> & Hw). by exists e.
Qed.

(** A run of [Put]s into the metadata bucket. *)
Definition puts s s' (kvs : list (bytes * bytes)) : Prop :=
  same_frame s s' /\ (forall q, has_bucket (s_db s') q = has_bucket (s_db s) q) /\
  (forall k v, (k, v) ∈ kvs -> bucket_Get (s_db s') [DefaultNamespace] k = Some v) /\
  (forall q j, q <> [DefaultNamespace] \/ j ∉ kvs.*1 ->
     bucket_Get (s_db s') q j = bucket_Get (s_db s) q j).

Lemma put_all_ok kvs s :
  default_ready s -> NoDup kvs.*1 ->
  Forall (fun kv => key_ok (fst kv) /\ value_ok (snd kv)) kvs ->
  exists s', put_all kvs s = (Ok tt, s') /\ puts s s' kvs.
Proof.
  intros Hr Hn Hf. revert s Hr Hn. induction Hf as [|[k v] kvs [Hk Hv] _ IH]; intros s [Hb Hs] Hn.
  - exists s. split; [done|]. split_and!; [done|done| |done]. by intros k v ?%not_elem_of_nil.
  - inversion Hn as [|? ? Hnot Hn']; subst.
    destruct (put_ok (s_db s) [DefaultNamespace] k v Hb Hk Hv (Hs k)) as [d Ed].
    destruct (IH (set_db d s)) as (s' & E & F & B & G & O); [|done|].
    { split; [|intros j]; cbn [s_db set_db]; rewrite (put_buckets _ _ _ _ _ _ Ed); [done|apply Hs]. }
    exists s'. cbn [put_all]. unfold gbind. rewrite Ed. split; [done|]. cbn [s_db set_db] in *.
    split_and!; [done|intros q; rewrite B; by eapply put_buckets| |].
    + intros j w [[= -> ->]|Hin]%elem_of_cons; [|by apply G].
      rewrite O by (by right). by eapply put_get.
    + intros q j Hne. rewrite O.
      * eapply put_get_other; [done|]. destruct Hne as [?|Hne]; [by left|right].
        simpl in Hne. by apply not_elem_of_cons in Hne as [? _].
      * destruct Hne as [?|Hne]; [by left|right]. simpl in Hne. by apply not_elem_of_cons in Hne as [_ ?].
Qed.

Lemma read_meta_puts s m :
  bucket_Get (s_db s) [DefaultNamespace] secretSaltKey = Some (cm_secretSalt m) ->
  bucket_Get (s_db s) [DefaultNamespace] wrappedKey = Some (cm_wrappedKey m) ->
  bucket_Get (s_db s) [DefaultNamespace] wrappedSaltKey = Some (cm_wrappedSalt m) ->
  bucket_Get (s_db s) [DefaultNamespace] deriveSaltKey = Some (cm_deriveSalt m) ->
  read_meta (s_db s) = Some m.
Proof. intros E1 E2 E3 E4. unfold read_meta. rewrite E1, E2, E3, E4. by destruct m. Qed.

Lemma rand_bytes_ok n s :
  0 <= n -> exists b s', rand_bytes n s = (Ok b, s') /\ blen b = n /\ same_frame s s' /\
    s_db s' = s_db s.
Proof.
  intros Hn. unfold rand_bytes. eexists _, _. split; [reflexivity|]. split_and!; try done.
  unfold blen. rewrite length_map, length_seq. lia.
Qed.

Lemma keyed_frame s s' pass secret :
  same_frame s s' -> s_db s' = s_db s -> keyed s pass secret -> keyed s' pass secret.
Proof. intros (Hc & _) Hd. unfold keyed. by rewrite Hc, Hd. Qed.

Lemma default_ready_frame s s' :
  (forall q, has_bucket (s_db s') q = has_bucket (s_db s) q) -> default_ready s -> default_ready s'.
Proof. intros Hb [H1' H2']. split; [by rewrite Hb|intros k; by rewrite Hb]. Qed.

Lemma metadata_nodup : NoDup metadata_keys.
Proof. apply (bool_decide_unpack _). vm_compute. done. Qed.

Lemma metadata_keys_ok : Forall key_ok metadata_keys.
Proof. repeat constructor; vm_compute; done. Qed.

(** The metadata of a key, written under a passphrase, opens with it. *)
Lemma keyed_puts s s' pass secret c meta kc :
  blen secret = 32 -> puts s s' [(secretSaltKey, cm_secretSalt meta); (wrappedKey, cm_wrappedKey meta);
    (wrappedSaltKey, cm_wrappedSalt meta); (deriveSaltKey, cm_deriveSalt meta)] ->
  key_cipher pass (cm_deriveSalt meta) (cm_wrappedSalt meta) "derive from pass" "key cipher" = Ok kc ->
  Decrypt kc (cm_wrappedKey meta) = Ok secret -> NewEnigma secret (cm_secretSalt meta) dek = Ok c ->
  keyed (set_cipher c s') pass secret.
Proof.
  intros Hl (_ & _ & G & _) Hk Hd Hn. split; [done|]. exists meta, kc. split_and!; try done.
  apply read_meta_puts; apply G; set_solver.
Qed.

(** A write of the metadata bucket leaves the rest alone. *)
Lemma puts_view s s' kvs q j :
  puts s s' kvs -> q <> [DefaultNamespace] \/ j ∉ kvs.*1 -> view s' q j = view s q j.
Proof. intros ((Hc & _) & _ & _ & O) Hne. unfold view. by rewrite Hc, O. Qed.

(** [put_all] of values of at most 2 MiB under metadata keys. *)
Lemma put_metadata_ok kvs s :
  default_ready s -> NoDup kvs.*1 -> (forall k v, (k, v) ∈ kvs -> k ∈ metadata_keys /\ blen v <= 2 ^ 21) ->
  exists s', put_all kvs s = (Ok tt, s') /\ puts s s' kvs.
Proof.
  intros Hr Hn Hk. apply put_all_ok; try done. apply Forall_forall. intros [k v] Hin.
  destruct (Hk k v Hin) as [Hm Hv]. unfold value_ok. split; [|simpl; lia].
  pose proof metadata_keys_ok as Hf. rewrite Forall_forall in Hf. by apply Hf.
Qed.

(** Wrapping a secret under a passphrase with two fresh salts. *)
Lemma wrap_ok pass secret m1 m2 s :
  blen secret = 32 ->
  exists ds ws kc ct s1 s2 s3,
    rand_bytes 32 s = (Ok ds, s1) /\ rand_bytes 32 s1 = (Ok ws, s2) /\
    key_cipher pass ds ws m1 m2 = Ok kc /\ encrypt kc secret s2 = (Ok ct, s3) /\
    (forall n1 n2, key_cipher pass ds ws n1 n2 = Ok kc) /\ Decrypt kc ct = Ok secret /\
    blen ds = 32 /\ blen ws = 32 /\ blen ct = 72 /\ same_frame s s3 /\ s_db s3 = s_db s.
Proof.
  intros Hl.
  destruct (rand_bytes_ok 32 s) as (ds & s1 & R1 & L1 & F1 & D1); [lia|].
  destruct (rand_bytes_ok 32 s1) as (ws & s2 & R2 & L2 & F2 & D2); [lia|].
  destruct (key_cipher_ok pass ds ws m1 m2) as (kc & K & Kw & Kany).
  destruct (encrypt_ok kc secret s2 Kw) as (ct & s3 & E3 & Dct & Lct & F3 & D3 & _).
  exists ds, ws, kc, ct, s1, s2, s3. split_and!; try done; [lia| |congruence].
  by do 2 (etrans; [eassumption|]).
Qed.

(** [RotatePassphrase] writes three of the four metadata values. *)
Lemma RotatePassphrase_writes old new secret s :
  keyed s old secret -> default_ready s ->
  exists ds ws kc ct s3 s4,
    same_frame s s3 /\ s_db s3 = s_db s /\
    puts s3 s4 [(wrappedKey, ct); (wrappedSaltKey, ws); (deriveSaltKey, ds)] /\
    (forall n1 n2, key_cipher new ds ws n1 n2 = Ok kc) /\ Decrypt kc ct = Ok secret /\
    forall c meta, extractCipher (s_db s4) new = Ok (c, meta) ->
      RotatePassphrase old new s = (Ok tt, set_cipher c s4).
Proof.
  intros Hk Hr. pose proof Hk as (Hl & meta & kc0 & Hm & Hkc & Hd & Hn).
  destruct (keyed_extract s old secret Hk) as (meta' & Hex & Hm'). simplify_eq.
  destruct (wrap_ok new secret "derive new pass" "new key cipher" s Hl) as
    (ds & ws & kc & ct & s1 & s2 & s3 & R1 & R2 & K & E3 & Kany & Dct & L1 & L2 & L3 & F3 & D3).
  destruct (put_metadata_ok [(wrappedKey, ct); (wrappedSaltKey, ws); (deriveSaltKey, ds)] s3)
    as (s4 & E4 & P4).
  { unfold default_ready. by rewrite D3. }
  { exact (proj2 (proj1 (NoDup_cons _ _) metadata_nodup)). }
  { unfold metadata_keys. intros k v Hin. split; [set_solver|].
    repeat (apply elem_of_cons in Hin as [[= -> ->]|Hin]; [lia|]). by apply not_elem_of_nil in Hin. }
  exists ds, ws, kc, ct, s3, s4. split_and!; try done. intros c m4 Hex4.
  unfold RotatePassphrase. erewrite gbind_ok by reflexivity.
  erewrite gbind_ok by (unfold gwrap, lift_result; rewrite Hex; reflexivity). cbn [snd]. cbv zeta.
  destruct (key_cipher_ok old (cm_deriveSalt meta) (cm_wrappedSalt meta) "derive old pass" "old key cipher")
    as (kc' & K' & _ & Kany'). rewrite Kany' in Hkc. injection Hkc as ->.
  erewrite gbind_ok by (unfold lift_result; rewrite K'; reflexivity).
  erewrite gbind_ok by (unfold gwrap, lift_result; rewrite Hd; reflexivity).
  rewrite (gbind_ok _ _ _ _ _ R1), (gbind_ok _ _ _ _ _ R2).
  erewrite gbind_ok by (unfold lift_result; rewrite K; reflexivity).
  rewrite (gbind_ok _ _ _ _ _ E3).
  erewrite gbind_ok by (unfold gwrap; erewrite Command_ok by exact E4; reflexivity).
  erewrite gbind_ok by reflexivity.
  by erewrite gbind_ok by (unfold gwrap, lift_result; rewrite Hex4; reflexivity).
Qed.

(** Changing the passphrase keeps every value readable: the data key stays, the
    database opens with the new passphrase, and nothing but the metadata of the
    key is written. *)
Theorem RotatePassphrase_preserves old new secret s :
  keyed s old secret -> default_ready s ->
  exists s', RotatePassphrase old new s = (Ok tt, s') /\ keyed s' new secret /\
    s_cipher s' = s_cipher s /\
    (forall q j, q <> [DefaultNamespace] \/ j ∉ metadata_keys -> view s' q j = view s q j).
Proof.
  intros Hk Hr. destruct (RotatePassphrase_writes old new secret s Hk Hr) as
    (ds & ws & kc & ct & s3 & s4 & F3 & D3 & P & Kany & Dct & Hrun).
  destruct Hk as (Hl & meta & kc0 & Hm & _ & _ & Hn). pose proof P as (F4 & _ & G4 & O4).
  assert (Hc : s_cipher s4 = s_cipher s) by (destruct F3 as (<- & _), F4 as (<- & _); done).
  assert (Hk4 : keyed s4 new secret).
  { split; [done|]. exists (mkCipherMeta (cm_secretSalt meta) ds ws ct), kc.
    split_and!; [|apply Kany|done|by rewrite Hc].
    apply read_meta_puts; [|apply G4; set_solver..].
    rewrite O4 by (right; apply (bool_decide_unpack _); vm_compute; done). rewrite D3.
    unfold read_meta in Hm. by repeat case_match; simplify_eq/=. }
  destruct (keyed_extract s4 new secret Hk4) as (meta4 & Hex4 & _).
  exists (set_cipher (s_cipher s4) s4). split_and!; [by eapply Hrun|by destruct s4|done|].
  intros q j Hne. etrans; [exact (puts_view s3 s4 _ q j P ltac:(unfold metadata_keys in Hne; set_solver))|].
  unfold view. destruct F3 as (-> & _). by rewrite D3.
Qed.

(** ** Opening a database *)

Definition top_level : list bytes :=
  [DefaultNamespace; SettingsNamespace; PeersNamespace; SessionsNamespace].

Lemma create_all_ok names s :
  has_bucket (s_db s) [] = false -> Forall key_ok names ->
  exists s', create_all names s = (Ok tt, s') /\ same_frame s s' /\
    (forall q, has_bucket (s_db s') q = bool_decide (q ∈ (fun n => [n]) <$> names) || has_bucket (s_db s) q) /\
    (forall q j, bucket_Get (s_db s') q j = bucket_Get (s_db s) q j).
Proof.
  intros Hroot Hf. revert s Hroot. induction Hf as [|n names Hn _ IH]; intros s Hroot; [by exists s|].
  assert (Hg : bucket_Get (s_db s) [] n = None).
  { destruct (bucket_Get (s_db s) [] n) eqn:E; [|done]. apply get_bucket in E. congruence. }
  destruct (create_ok (s_db s) [] n) as [d Ed]; [by left|done|done|].
  pose proof (fun q => create_buckets _ _ _ _ q Ed) as Hb. cbn [app] in Hb.
  destruct (IH (set_db d s)) as (s' & E & F & B & G).
  { cbn [s_db set_db]. rewrite Hb. by rewrite bool_decide_eq_false_2. }
  exists s'. cbn [create_all]. split_and!; [|done| |].
  - erewrite gbind_ok; [exact E|]. by rewrite Ed.
  - intros q. rewrite B. cbn [s_db set_db]. rewrite Hb. cbn [fmap list_fmap].
    destruct (bool_decide_reflect (q = [n])) as [->|Hne].
    + rewrite orb_true_r. symmetry. apply orb_true_iff. left. apply bool_decide_eq_true_2. by left.
    + simpl. f_equal. apply bool_decide_ext. rewrite elem_of_cons. tauto.
  - intros q j. rewrite G. by eapply create_get.
Qed.

Lemma createCipher_ok pass s :
  default_ready s ->
  exists s' secret c, createCipher pass s = (Ok c, s') /\ keyed (set_cipher c s') pass secret /\
    (forall q, has_bucket (s_db s') q = has_bucket (s_db s) q) /\
    (forall q j, q <> [DefaultNamespace] \/ j ∉ metadata_keys ->
       bucket_Get (s_db s') q j = bucket_Get (s_db s) q j) /\
    (forall k v, k ∈ metadata_keys -> bucket_Get (s_db s') [DefaultNamespace] k = Some v ->
       blen v <= 72).
Proof.
  intros Hr.
  destruct (rand_bytes_ok 32 s) as (secret & s1 & R1 & L1 & F1 & D1); [lia|].
  destruct (rand_bytes_ok 32 s1) as (salt & s2 & R2 & L2 & F2 & D2); [lia|].
  destruct (wrap_ok pass secret "derive from pass" "key cipher" s2 L1) as
    (ds & ws & kc & ct & s3 & s4 & s5 & R3 & R4 & K & E5 & Kany & Dct & L3 & L4 & L5 & F5 & D5).
  destruct (NewEnigma_ok secret salt dek) as (c & Ec & _).
  set (kvs := [(wrappedKey, ct); (wrappedSaltKey, ws); (deriveSaltKey, ds); (secretSaltKey, salt)]).
  destruct (put_metadata_ok kvs s5) as (s6 & E6 & P6).
  { unfold default_ready. by rewrite D5, D2, D1. }
  { apply (bool_decide_unpack _). vm_compute. done. }
  { unfold metadata_keys, kvs. intros k v Hin. split; [set_solver|].
    repeat (apply elem_of_cons in Hin as [[= -> ->]|Hin]; [lia|]). by apply not_elem_of_nil in Hin. }
  pose proof P6 as (F6 & B6 & G6 & O6).
  exists s6, secret, c. split_and!.
  - unfold createCipher. rewrite (gbind_ok _ _ _ _ _ R1), (gbind_ok _ _ _ _ _ R2).
    rewrite (gbind_ok _ _ _ _ _ R3), (gbind_ok _ _ _ _ _ R4).
    erewrite gbind_ok by (unfold lift_result; rewrite K; reflexivity).
    rewrite (gbind_ok _ _ _ _ _ E5).
    erewrite gbind_ok by (unfold gwrap, lift_result; rewrite Ec; reflexivity).
    by erewrite gbind_ok by (unfold gwrap; erewrite Command_ok by exact E6; reflexivity).
  - split; [done|]. exists (mkCipherMeta salt ds ws ct), kc. split_and!; try done.
    apply read_meta_puts; apply G6; unfold kvs; set_solver.
  - intros q. by rewrite B6, D5, D2, D1.
  - intros q j Hne. rewrite O6; [by rewrite D5, D2, D1|].
    unfold metadata_keys, kvs in *. set_solver.
  - intros k v Hin Hg. unfold metadata_keys in Hin.
    assert (exists v0, (k, v0) ∈ kvs /\ blen v0 <= 72) as (v0 & Hv0 & L0).
    { apply elem_of_cons in Hin as [->|Hin]; [exists salt; unfold kvs; split; [set_solver|lia]|].
      apply elem_of_cons in Hin as [->|Hin]; [exists ct; unfold kvs; split; [set_solver|lia]|].
      apply elem_of_cons in Hin as [->|Hin]; [exists ws; unfold kvs; split; [set_solver|lia]|].
      apply list_elem_of_singleton in Hin as ->. exists ds. unfold kvs. split; [set_solver|lia]. }
    rewrite (G6 k v0 Hv0) in Hg. by injection Hg as <-.
Qed.

(** A database whose metadata is that of a keyed store opens with the passphrase. *)
Lemma reopen_keyed pass secret s s2 create :
  keyed s pass secret -> has_bucket (s_db s2) [] = false ->
  (forall k, k ∈ metadata_keys ->
     bucket_Get (s_db s2) [DefaultNamespace] k = bucket_Get (s_db s) [DefaultNamespace] k) ->
  exists s3, NewBoltDB create true (Ok tt) pass s2 = (Ok tt, s3) /\ s_cipher s3 = s_cipher s /\
    (forall q, has_bucket (s_db s3) q = bool_decide (q ∈ (fun n => [n]) <$> top_level) || has_bucket (s_db s2) q) /\
    forall q j, bucket_Get (s_db s3) q j = bucket_Get (s_db s2) q j.
Proof.
  intros (Hl & meta & kc & Hm & Hkc & Hd & Hn) Hroot Hmeta.
  assert (Hko : Forall key_ok top_level) by (repeat constructor; vm_compute; done).
  destruct (create_all_ok top_level s2 Hroot Hko) as (s4 & E4 & F4 & B4 & G4).
  assert (Hex : extractCipher (s_db s4) pass = Ok (s_cipher s, meta)).
  { unfold extractCipher. replace (read_meta (s_db s4)) with (Some meta); [by rewrite Hkc, Hd, Hn|].
    rewrite <- Hm. unfold read_meta. rewrite !G4, !Hmeta by (unfold metadata_keys; set_solver). done. }
  exists (set_cipher (s_cipher s) s4). split_and!; [|done|done|done].
  unfold NewBoltDB. rewrite andb_false_l. unfold gwrap.
  erewrite gbind_ok by reflexivity.
  erewrite gbind_ok by (erewrite Command_ok by exact E4; reflexivity).
  erewrite gbind_ok by reflexivity.
  erewrite gbind_ok; [reflexivity|]. by rewrite Hex.
Qed.

(** A new database has the four namespaces and a key wrapped under the passphrase. *)
Lemma open_new pass s :
  s_db s = empty_db ->
  exists s1 secret, NewBoltDB true false (Ok tt) pass s = (Ok tt, s1) /\ keyed s1 pass secret /\
    forall q, has_bucket (s_db s1) q = bool_decide (q ∈ (fun n => [n]) <$> top_level).
Proof.
  intros Hempty.
  assert (Hko : Forall key_ok top_level) by (repeat constructor; vm_compute; done).
  destruct (create_all_ok top_level s) as (s1 & E1 & F1 & B1 & G1); [rewrite Hempty; apply empty_buckets|done|].
  assert (Hr1 : default_ready s1).
  { split; [rewrite B1; apply orb_true_iff; left; apply bool_decide_eq_true_2; by left|].
    intros k. rewrite B1, Hempty, empty_buckets, orb_false_r. apply bool_decide_eq_false_2.
    intros Hin. apply list_elem_of_fmap in Hin as (? & ? & _). done. }
  destruct (createCipher_ok pass s1 Hr1) as (s2 & secret & c & E2 & K2 & B2 & G2 & _).
  assert (Hmiss : extractCipher (s_db s1) pass = Err (Sentinel ErrMissingItem)).
  { unfold extractCipher, read_meta. rewrite !G1, Hempty.
    destruct (bucket_Get empty_db _ _) eqn:E; [|done]. apply get_bucket in E.
    by rewrite empty_buckets in E. }
  exists (set_cipher c s2), secret. split_and!; [|done|].
  - unfold NewBoltDB. cbn [negb andb]. unfold gwrap.
    erewrite gbind_ok by reflexivity.
    erewrite gbind_ok by (erewrite Command_ok by exact E1; reflexivity).
    erewrite gbind_ok by reflexivity.
    erewrite gbind_ok; [reflexivity|]. rewrite Hmiss. cbn [errors_is].
    rewrite bool_decide_eq_true_2 by done. by rewrite E2.
  - intros q. cbn [s_db set_cipher]. by rewrite B2, B1, Hempty, empty_buckets, orb_false_r.
Qed.

(** C19: A new database gets its four namespaces and a fresh data key wrapped under
    the passphrase; opening the same database again with that passphrase finds
    the same data key, whatever has been stored meanwhile outside the metadata. *)
Theorem open_reopen pass s :
  s_db s = empty_db ->
  exists s1 secret, NewBoltDB true false (Ok tt) pass s = (Ok tt, s1) /\ keyed s1 pass secret /\
    (forall n, n ∈ top_level -> has_bucket (s_db s1) [n] = true) /\
    forall s2 create, has_bucket (s_db s2) [] = false ->
      (forall k, k ∈ metadata_keys ->
         bucket_Get (s_db s2) [DefaultNamespace] k = bucket_Get (s_db s1) [DefaultNamespace] k) ->
      exists s3, NewBoltDB create true (Ok tt) pass s2 = (Ok tt, s3) /\
        s_cipher s3 = s_cipher s1 /\
        forall q j, bucket_Get (s_db s3) q j = bucket_Get (s_db s2) q j.
Proof.
  intros Hempty. destruct (open_new pass s Hempty) as (s1 & secret & E1 & K1 & B1).
  exists s1, secret. split_and!; [done|done| |].
  - intros n Hin. rewrite B1. apply bool_decide_eq_true_2, list_elem_of_fmap. by exists n.
  - intros s2 create Hroot Hmeta.
    destruct (reopen_keyed pass secret s1 s2 create K1 Hroot Hmeta) as (s3 & E3 & C3 & _ & G3). by exists s3.
Qed.

(** ** Rotating the data key *)

(** The parent of a bucket is a bucket. *)
Definition rooted (d : db) : Prop :=
  forall p n, has_bucket d (p ++ [n]) = true -> p = [] \/ has_bucket d p = true.

(** No bucket name contains a slash. *)
Definition slash_free (d : db) : Prop :=
  forall q, has_bucket d q = true -> Forall (fun n => slash ∉ n) q.

Lemma rooted_prefix d q r :
  rooted d -> q <> [] -> has_bucket d (q ++ r) = true -> has_bucket d q = true.
Proof.
  intros Hr Hq. induction r as [|n r IH] using rev_ind; intros Hb; [by rewrite app_nil_r in Hb|].
  rewrite app_assoc in Hb. apply Hr in Hb as [E|Hb]; [|by apply IH].
  by apply app_eq_nil in E as [-> _].
Qed.

(** [collect] finds exactly the values stored below a bucket, each under the
    joined name of its own bucket. *)
Lemma collect_spec fuel d p e :
  rooted d -> p <> [] -> (bucket_depth d < length p + fuel)%nat ->
  e ∈ collect fuel d p (join_path p) <->
  exists r, e_path e = join_path (p ++ r) /\ bucket_Get d (p ++ r) (e_key e) = Some (e_value e).
Proof.
  intros Hr. revert p. induction fuel as [|fuel IH]; intros p Hp Hd; cbn [collect].
  { split; [by intros ?%not_elem_of_nil|]. intros (r & _ & Hg). apply get_bucket, depth_ok in Hg.
    rewrite length_app in Hg. lia. }
  assert (IH' : forall k, e ∈ collect fuel d (p ++ [k]) (join_path p ++ [slash] ++ k) <->
    exists r, e_path e = join_path ((p ++ [k]) ++ r) /\
      bucket_Get d ((p ++ [k]) ++ r) (e_key e) = Some (e_value e)).
  { intros k. rewrite <- join_path_snoc by done. apply IH; [by destruct p|].
    rewrite length_app. simpl. lia. }
  rewrite list_elem_of_In, in_concat. setoid_rewrite in_map_iff. split.
  - intros (l & ([k ov] & <- & Hin) & He). apply list_elem_of_In in Hin, He.
    destruct (has_bucket d (p ++ [k])) eqn:Eb.
    + apply IH' in He as (r & He & Hg). exists (k :: r). by rewrite <- app_assoc in He, Hg.
    + apply list_elem_of_singleton in He as ->. exists []. rewrite app_nil_r. cbn [e_path e_key e_value].
      destruct ov as [v|]; [by apply cursor_get in Hin|]. apply cursor_bucket in Hin. congruence.
  - intros ([|k r] & He & Hg).
    + rewrite app_nil_r in He, Hg. exists [e]. split; [|by left].
      exists (e_key e, Some (e_value e)). rewrite (get_not_bucket _ _ _ _ Hg).
      split; [cbn [default from_option id]; rewrite <- He; by destruct e|].
      by apply list_elem_of_In, cursor_get.
    + assert (Hb : has_bucket d (p ++ [k]) = true).
      { apply (rooted_prefix d (p ++ [k]) r); [done|by destruct p|].
        rewrite <- app_assoc. by eapply get_bucket. }
      exists (collect fuel d (p ++ [k]) (join_path p ++ [slash] ++ k)). split.
      * exists (k, None). rewrite Hb. split; [done|]. by apply list_elem_of_In, cursor_bucket.
      * apply list_elem_of_In, IH'. exists r. by rewrite <- app_assoc.
Qed.

Lemma collect_all_spec d e :
  rooted d ->
  e ∈ collect_all d <->
  exists q, q <> [] /\ e_path e = join_path q /\ bucket_Get d q (e_key e) = Some (e_value e) /\
    head q ∈ Some <$> (bucket_cursor d []).*1.
Proof.
  intros Hr. unfold collect_all. rewrite list_elem_of_In, in_concat. setoid_rewrite in_map_iff. split.
  - intros (l & ([n ov] & <- & Hin) & He). apply list_elem_of_In in He, Hin. cbn [fst] in He.
    apply (collect_spec _ d [n]) in He as (r & He & Hg); [|done|done|simpl; lia].
    exists ([n] ++ r). split_and!; try done. apply list_elem_of_fmap. exists n. split; [done|].
    apply list_elem_of_fmap. by exists (n, ov).
  - intros ([|n r] & Hq & He & Hg & Hin); [done|].
    apply list_elem_of_fmap in Hin as (n' & [= <-] & Hin).
    apply list_elem_of_fmap in Hin as ([n' ov] & -> & Hin).
    exists (collect (bucket_depth d) d [n'] n'). split.
    + exists (n', ov). split; [done|by apply list_elem_of_In].
    + apply list_elem_of_In, (collect_spec _ d [n']); [done|done|simpl; lia|]. by exists r.
Qed.

Lemma navigate_ok d at_ r :
  rooted d -> has_bucket d (at_ ++ r) = true -> navigate d at_ r = Some (at_ ++ r).
Proof.
  intros Hr. revert at_. induction r as [|n r IH]; intros at_ Hb; simpl; [by rewrite app_nil_r|].
  change (n :: r) with ([n] ++ r) in Hb. rewrite app_assoc in Hb.
  rewrite (rooted_prefix d (at_ ++ [n]) r Hr); [|by destruct at_|done].
  rewrite IH by done. by rewrite <- app_assoc.
Qed.

(** The write phase finds the bucket an entry came from. *)
Lemma resolve_join d q :
  rooted d -> slash_free d -> q <> [] -> has_bucket d q = true -> resolve d (join_path q) = Some q.
Proof.
  intros Hr Hs Hq Hb. unfold resolve. destruct q as [|n [|m r]]; [done|by simpl; rewrite Hb|].
  destruct (has_bucket d [join_path (n :: m :: r)]) eqn:E.
  - apply Hs in E. rewrite Forall_singleton in E. exfalso. apply E, join_path_slash. simpl. lia.
  - unfold navigateBucket. rewrite split_join; [|done|by apply Hs]. by apply navigate_ok.
Qed.

Lemma resolve_ext d d' name :
  (forall q, has_bucket d' q = has_bucket d q) -> resolve d' name = resolve d name.
Proof.
  intros Hb. unfold resolve, navigateBucket. rewrite Hb. destruct (has_bucket d [name]); [done|].
  generalize (@nil bytes) as at_. induction (split_slash name) as [|n r IH]; intros at_; simpl; [done|].
  by rewrite Hb, IH.
Qed.

Lemma reencrypt_all_app oc nc es es' s :
  reencrypt_all oc nc (es ++ es') s =
  gbind (reencrypt_all oc nc es) (fun _ => reencrypt_all oc nc es') s.
Proof.
  revert s. induction es as [|e es IH]; intros s; [done|]. cbn [app reencrypt_all].
  destruct (Decrypt oc (e_value e)); [|apply IH]. unfold gbind in *.
  destruct (encrypt nc a s) as [[b|] s1]; [|done].
  destruct (resolve (s_db s1) (e_path e)); [|apply IH].
  destruct (bucket_Put _ _ _ _); [apply IH|done].
Qed.

(** An entry the write phase can store: the bucket its name resolves to, if any,
    holds it in a reference database [d0], and bbolt's limits allow it. *)
Definition storable (oc : Enigma) (d0 d : db) (e : entry) : Prop :=
  forall q, resolve d (e_path e) = Some q -> bucket_Get d0 q (e_key e) = Some (e_value e) /\
    has_bucket d q = true /\ has_bucket d (q ++ [e_key e]) = false /\
    forall v, Decrypt oc (e_value e) = Ok v -> key_ok (e_key e) /\ blen v <= 2147483600.

Lemma storable_ext oc d0 d d' e :
  (forall q, has_bucket d' q = has_bucket d q) -> storable oc d0 d e -> storable oc d0 d' e.
Proof.
  intros Hb Hs q. rewrite (resolve_ext _ _ _ Hb), !Hb. apply Hs.
Qed.

(** Re-encrypting one entry. *)
Lemma reencrypt_one oc nc d0 e s :
  enigma_wf nc -> storable oc d0 (s_db s) e ->
  exists s', reencrypt_all oc nc [e] s = (Ok tt, s') /\ same_frame s s' /\
    (forall q, has_bucket (s_db s') q = has_bucket (s_db s) q) /\
    (forall q v, resolve (s_db s) (e_path e) = Some q -> Decrypt oc (e_value e) = Ok v ->
       exists ct, bucket_Get (s_db s') q (e_key e) = Some ct /\ Decrypt nc ct = Ok v) /\
    (forall q k, ~ (resolve (s_db s) (e_path e) = Some q /\ e_key e = k) ->
       bucket_Get (s_db s') q k = bucket_Get (s_db s) q k).
Proof.
  intros Hw Hst. cbn [reencrypt_all].
  destruct (Decrypt oc (e_value e)) as [v|] eqn:Ed; [|exists s; by split_and!].
  destruct (encrypt_ok nc v s Hw) as (ct & s1 & E & Dct & Lct & F & D & _).
  destruct (resolve (s_db s) (e_path e)) as [q|] eqn:Hres.
  2: { exists s1. rewrite D. split_and!; try done. rewrite (gbind_ok _ _ _ _ _ E).
       erewrite gbind_ok; [reflexivity|]. by rewrite D, Hres. }
  destruct (Hst q Hres) as (_ & Hb & Hn & Hv). destruct (Hv v Ed) as [Hk Hl].
  destruct (put_ok (s_db s) q (e_key e) ct Hb Hk) as [d Ed']; [unfold value_ok; lia|done|].
  exists (set_db d s1). cbn [s_db set_db]. split_and!.
  - rewrite (gbind_ok _ _ _ _ _ E). erewrite gbind_ok; [reflexivity|]. by rewrite D, Hres, Ed'.
  - done.
  - intros r. by eapply put_buckets.
  - intros q' v' [= <-] [= <-]. exists ct. split; [by eapply put_get|done].
  - intros q' k Hne. eapply put_get_other; [done|].
    destruct (decide (q' = q)) as [->|]; [right; intros ->; by apply Hne|by left].
Qed.

(** The write phase re-encrypts every decryptable entry in its own place and
    touches nothing else. *)
Lemma reencrypt_all_ok oc nc d0 es s :
  enigma_wf nc -> (forall e, e ∈ es -> storable oc d0 (s_db s) e) ->
  exists s', reencrypt_all oc nc es s = (Ok tt, s') /\ same_frame s s' /\
    (forall q, has_bucket (s_db s') q = has_bucket (s_db s) q) /\
    (forall e q v, e ∈ es -> resolve (s_db s) (e_path e) = Some q -> Decrypt oc (e_value e) = Ok v ->
       exists ct, bucket_Get (s_db s') q (e_key e) = Some ct /\ Decrypt nc ct = Ok v) /\
    (forall q k, (forall e, e ∈ es -> ~ (resolve (s_db s) (e_path e) = Some q /\ e_key e = k)) ->
       bucket_Get (s_db s') q k = bucket_Get (s_db s) q k).
Proof.
  intros Hw. induction es as [|e es IH] using rev_ind; intros Hes.
  { exists s. split_and!; try done. by intros e q v ?%not_elem_of_nil. }
  destruct IH as (s1 & E1 & F1 & B1 & A1 & O1); [intros e' He'; apply Hes; set_solver|].
  assert (He : storable oc d0 (s_db s) e) by (apply Hes; set_solver).
  destruct (reencrypt_one oc nc d0 e s1 Hw) as (s2 & E2 & F2 & B2 & A2 & O2).
  { by eapply storable_ext. }
  rewrite (resolve_ext (s_db s)) in A2, O2 by done.
  exists s2. split_and!.
  - rewrite reencrypt_all_app. by rewrite (gbind_ok _ _ _ _ _ E1).
  - by etrans.
  - intros q. by rewrite B2, B1.
  - intros e' q v [Hin|Hin%list_elem_of_singleton]%elem_of_app Hq Hd; [|subst; by apply A2].
    destruct (decide (resolve (s_db s) (e_path e) = Some q /\ e_key e = e_key e')) as [[Hq2 Hk]|Hne].
    + assert (e_value e = e_value e') as Ev.
      { destruct (He q Hq2) as [Hg2 _].
        destruct (Hes e' ltac:(set_solver) q Hq) as [Hg3 _]. congruence. }
      rewrite <- Hk. apply A2; [done|by rewrite Ev].
    + rewrite O2 by done. by apply A1.
  - intros q k Hne. rewrite O2; [apply O1; intros e' He'; apply Hne; set_solver|].
    apply Hne. set_solver.
Qed.

Definition meta_puts (m : cipherMeta) : list (bytes * bytes) :=
  [(secretSaltKey, cm_secretSalt m); (wrappedKey, cm_wrappedKey m);
   (wrappedSaltKey, cm_wrappedSalt m); (deriveSaltKey, cm_deriveSalt m)].

Definition meta_small (m : cipherMeta) : Prop :=
  blen (cm_secretSalt m) <= 2 ^ 21 /\ blen (cm_wrappedKey m) <= 2 ^ 21 /\
  blen (cm_wrappedSalt m) <= 2 ^ 21 /\ blen (cm_deriveSalt m) <= 2 ^ 21.

(** Positions other than those of the key metadata. *)
Definition data_position (q : path) (k : bytes) : Prop := q <> [DefaultNamespace] \/ k ∉ metadata_keys.

(** The write transaction of a rotation, with entries read from [d0]. *)
Lemma rotate_write_ok oc nc d0 es meta s :
  enigma_wf nc -> default_ready s -> meta_small meta ->
  (forall e, e ∈ es -> storable oc d0 (s_db s) e) ->
  exists s', rotate_write oc nc es meta s = (Ok tt, s') /\ s_cipher s' = nc /\
    (forall q, has_bucket (s_db s') q = has_bucket (s_db s) q) /\
    read_meta (s_db s') = Some meta /\
    (forall e q v, e ∈ es -> resolve (s_db s) (e_path e) = Some q -> Decrypt oc (e_value e) = Ok v ->
       data_position q (e_key e) -> view s' q (e_key e) = Some v) /\
    (forall q k, (forall e, e ∈ es -> ~ (resolve (s_db s) (e_path e) = Some q /\ e_key e = k)) ->
       data_position q k -> bucket_Get (s_db s') q k = bucket_Get (s_db s) q k).
Proof.
  intros Hw Hr (L1 & L2 & L3 & L4) Hes.
  destruct (reencrypt_all_ok oc nc d0 es s Hw Hes) as (s1 & E1 & F1 & B1 & A1 & O1).
  destruct (put_metadata_ok (meta_puts meta) s1) as (s2 & E2 & P2).
  { by eapply default_ready_frame. }
  { exact metadata_nodup. }
  { unfold metadata_keys, meta_puts. intros k v Hin. split; [set_solver|].
    repeat (apply elem_of_cons in Hin as [[= -> ->]|Hin]; [lia|]). by apply not_elem_of_nil in Hin. }
  pose proof P2 as (F2 & B2 & G2 & O2).
  exists (set_cipher nc s2). split_and!.
  - unfold rotate_write. erewrite gbind_ok; [reflexivity|]. unfold gwrap.
    erewrite Command_ok; [reflexivity|]. by rewrite (gbind_ok _ _ _ _ _ E1).
  - done.
  - intros q. cbn [s_db set_cipher]. by rewrite B2, B1.
  - apply read_meta_puts; apply G2; unfold meta_puts; set_solver.
  - intros e q v Hin Hq Hd Hpos. destruct (A1 e q v Hin Hq Hd) as (ct & Hg & Hct).
    unfold view. cbn [s_db s_cipher set_cipher]. rewrite O2 by exact Hpos. by rewrite Hg, Hct.
  - intros q k Hne Hpos. cbn [s_db set_cipher]. rewrite O2 by exact Hpos. by apply O1.
Qed.

(** Values and keys within bbolt's limits, cipher overhead included. *)
Definition sizes_ok s : Prop :=
  forall q k v, view s q k = Some v -> key_ok k /\ blen v <= 2147483600.

Definition tree_ok s : Prop :=
  rooted (s_db s) /\ slash_free (s_db s) /\ has_bucket (s_db s) [] = false.

(** What was read from a well-formed tree can be stored in one with the same
    buckets. *)
Lemma collected_storable s d :
  tree_ok s -> sizes_ok s -> (forall q, has_bucket d q = has_bucket (s_db s) q) ->
  forall e, e ∈ collect_all (s_db s) ->
    storable (s_cipher s) (s_db s) d e /\
    exists q, resolve d (e_path e) = Some q /\ bucket_Get (s_db s) q (e_key e) = Some (e_value e).
Proof.
  intros (Hro & Hsl & _) Hsz Hb e He. apply collect_all_spec in He as (q & Hq & Hp & Hg & _); [|done].
  assert (Hres : resolve d (e_path e) = Some q).
  { rewrite (resolve_ext (s_db s)), Hp by done. apply resolve_join; try done. by eapply get_bucket. }
  split; [|by exists q]. intros q' Hq'. rewrite Hres in Hq'. injection Hq' as <-.
  rewrite !Hb. split_and!; try done.
  - by eapply get_bucket.
  - by eapply get_not_bucket.
  - intros v Hv. apply (Hsz q). unfold view. by rewrite Hg, Hv.
Qed.

Lemma collected_all s q k ct :
  tree_ok s -> bucket_Get (s_db s) q k = Some ct ->
  mkEntry (join_path q) k ct ∈ collect_all (s_db s).
Proof.
  intros (Hro & _ & Hroot) Hg. pose proof (get_bucket _ _ _ _ Hg) as Hb.
  assert (Hq : q <> []) by (intros ->; congruence).
  apply collect_all_spec; [done|]. exists q. split_and!; try done.
  destruct q as [|n r]; [done|]. apply list_elem_of_fmap. exists n. split; [done|].
  apply list_elem_of_fmap. exists (n, None). split; [done|]. apply cursor_bucket. simpl.
  by apply (rooted_prefix _ [n] r).
Qed.

(** The write phase puts back what the read phase saw: whatever was committed
    to an existing key between the two transactions is lost. *)
Theorem rotation_loses_updates oc nc meta s0 s q k v :
  tree_ok s0 -> sizes_ok s0 -> enigma_wf nc -> default_ready s -> meta_small meta ->
  s_cipher s0 = oc -> (forall p, has_bucket (s_db s) p = has_bucket (s_db s0) p) ->
  view s0 q k = Some v -> data_position q k ->
  exists s', rotate_write oc nc (collect_all (s_db s0)) meta s = (Ok tt, s') /\ view s' q k = Some v.
Proof.
  intros Ht Hs Hw Hr Hm <- Hb Hv Hpos.
  pose proof (collected_storable s0 (s_db s) Ht Hs Hb) as Hst.
  destruct (rotate_write_ok (s_cipher s0) nc (s_db s0) (collect_all (s_db s0)) meta s)
    as (s' & E & _ & _ & _ & A & _); try done; [intros e He; by apply Hst|].
  exists s'. split; [done|]. unfold view in Hv.
  destruct (bucket_Get (s_db s0) q k) as [ct|] eqn:Eg; [|done].
  destruct (Decrypt (s_cipher s0) ct) as [v'|] eqn:Ed; [|done]. injection Hv as ->.
  apply (A (mkEntry (join_path q) k ct) q v); try done; [by apply collected_all|].
  cbn [e_path]. rewrite (resolve_ext (s_db s0)) by done. destruct Ht as (Hro & Hsl & Hroot).
  apply get_bucket in Eg. apply resolve_join; try done. intros ->. congruence.
Qed.

(** Everything [RotateDataKey] does before its write transaction. *)
Lemma RotateDataKey_prepares old new secret s :
  keyed s old secret ->
  exists secret' nc meta s0,
    RotateDataKey old new s = rotate_write (s_cipher s) nc (collect_all (s_db s)) meta s0 /\
    s_db s0 = s_db s /\ same_frame s s0 /\ enigma_wf nc /\ meta_small meta /\
    forall s', read_meta (s_db s') = Some meta -> s_cipher s' = nc -> keyed s' new secret'.
Proof.
  intros Hk. destruct (keyed_extract s old secret Hk) as (m0 & Hex & _).
  destruct (rand_bytes_ok 32 s) as (secret' & s1 & R1 & L1 & F1 & D1); [lia|].
  destruct (rand_bytes_ok 32 s1) as (salt & s2 & R2 & L2 & F2 & D2); [lia|].
  destruct (NewEnigma_ok secret' salt dek) as (nc & Ec & Hw).
  destruct (wrap_ok new secret' "derive new pass" "new key cipher" s2 L1) as
    (ds & ws & kc & ct & s3 & s4 & s5 & R3 & R4 & K & E5 & Kany & Dct & L3 & L4 & L5 & F5 & D5).
  exists secret', nc, (mkCipherMeta salt ds ws ct), s5. split_and!.
  - unfold RotateDataKey. erewrite gbind_ok by reflexivity.
    erewrite gbind_ok by (unfold gwrap, lift_result; rewrite Hex; reflexivity). cbn [fst]. cbv zeta.
    rewrite (gbind_ok _ _ _ _ _ R1), (gbind_ok _ _ _ _ _ R2).
    erewrite gbind_ok by (unfold gwrap, lift_result; rewrite Ec; reflexivity).
    rewrite (gbind_ok _ _ _ _ _ R3), (gbind_ok _ _ _ _ _ R4).
    erewrite gbind_ok by (unfold lift_result; rewrite K; reflexivity).
    rewrite (gbind_ok _ _ _ _ _ E5). erewrite gbind_ok by reflexivity. by rewrite D5, D2, D1.
  - congruence.
  - do 2 (etrans; [eassumption|]). done.
  - done.
  - unfold meta_small. simpl. lia.
  - intros s' Hm Hc. split; [done|]. exists (mkCipherMeta salt ds ws ct), kc.
    split_and!; try done. by rewrite Hc.
Qed.

(** C18: Rotating the data key keeps every stored value readable under the new key,
    adds none, and the database opens with the new passphrase, provided no
    bucket name contains a slash. *)
Theorem RotateDataKey_preserves old new secret s :
  keyed s old secret -> default_ready s -> tree_ok s -> sizes_ok s ->
  exists s' secret', RotateDataKey old new s = (Ok tt, s') /\ keyed s' new secret' /\
    (forall q, has_bucket (s_db s') q = has_bucket (s_db s) q) /\
    (forall q k v, data_position q k -> view s q k = Some v -> view s' q k = Some v) /\
    (forall q k, data_position q k -> bucket_Get (s_db s) q k = None -> bucket_Get (s_db s') q k = None).
Proof.
  intros Hk Hr Ht Hs.
  destruct (RotateDataKey_prepares old new secret s Hk) as
    (secret' & nc & meta & s0 & -> & D0 & F0 & Hw & Hm & Hkeyed).
  pose proof (collected_storable s (s_db s) Ht Hs (fun q => eq_refl)) as Hst.
  destruct (rotate_write_ok (s_cipher s) nc (s_db s) (collect_all (s_db s)) meta s0)
    as (s' & E & Hc & B & Hmeta & A & O); try done.
  { unfold default_ready. by rewrite D0. }
  { intros e He. rewrite D0. by apply Hst. }
  rewrite D0 in A, B, O. exists s', secret'. split_and!; [done|by apply Hkeyed|done| |].
  - intros q k v Hpos Hv. unfold view in Hv.
    destruct (bucket_Get (s_db s) q k) as [ct|] eqn:Eg; [|done].
    destruct (Decrypt (s_cipher s) ct) as [v'|] eqn:Ed; [|done]. injection Hv as ->.
    apply (A (mkEntry (join_path q) k ct) q v); try done; [by apply collected_all|].
    destruct Ht as (Hro & Hsl & Hroot). apply get_bucket in Eg. apply resolve_join; try done.
    intros ->. congruence.
  - intros q k Hpos Hg. rewrite O; [done| |done]. intros e He [Hq <-].
    destruct (Hst e He) as [_ (q' & Hq' & Hg')]. congruence.
Qed.

(** ** Names with a slash *)

Lemma navigate_parts d at_ parts q : navigate d at_ parts = Some q -> q = at_ ++ parts.
Proof.
  revert at_. induction parts as [|n r IH]; intros at_; simpl; [intros [= <-]; by rewrite app_nil_r|].
  destruct (has_bucket _ _); [|done]. intros Hn. apply IH in Hn. by rewrite <- app_assoc in Hn.
Qed.

(** A nested bucket with a slash in its path is never the one a name resolves
    to. *)
Lemma resolve_never d name q :
  (2 <= length q)%nat -> Exists (fun n => slash ∈ n) q -> resolve d name <> Some q.
Proof.
  intros Hl Hex E. unfold resolve in E. destruct (has_bucket d [name]); [injection E as <-; simpl in Hl; lia|].
  apply navigate_parts in E. simpl in E. subst q. pose proof (split_slash_parts name) as Hf.
  apply Exists_exists in Hex as (n & Hn & Hs). rewrite Forall_forall in Hf. by apply (Hf n Hn).
Qed.

Lemma reencrypt_skips oc nc es q k s s' :
  (2 <= length q)%nat -> Exists (fun n => slash ∈ n) q ->
  reencrypt_all oc nc es s = (Ok tt, s') -> bucket_Get (s_db s') q k = bucket_Get (s_db s) q k.
Proof.
  intros Hl Hex. revert s. induction es as [|e es IH]; intros s E; cbn [reencrypt_all] in E;
    [by injection E as <-|].
  destruct (Decrypt oc (e_value e)) as [v|]; [|by apply IH].
  destruct (encrypt nc v s) as [r s1] eqn:Ee.
  assert (D1 : s_db s1 = s_db s) by (unfold encrypt, gbind, rand_bytes, gret in Ee; by simplify_eq).
  unfold gbind in E. rewrite Ee in E. destruct r as [ct|]; [|done].
  destruct (resolve (s_db s1) (e_path e)) as [q'|] eqn:Er; [|by rewrite (IH _ E), D1].
  destruct (bucket_Put (s_db s1) q' (e_key e) ct) as [d|] eqn:Ep; [|done].
  rewrite (IH _ E). cbn [s_db set_db]. rewrite (put_get_other _ _ _ _ _ q k Ep); [by rewrite D1|].
  left. intros ->. by apply (resolve_never (s_db s1) (e_path e) q').
Qed.

Lemma put_all_skips kvs q k s s' :
  q <> [DefaultNamespace] -> put_all kvs s = (Ok tt, s') ->
  bucket_Get (s_db s') q k = bucket_Get (s_db s) q k.
Proof.
  intros Hq. revert s. induction kvs as [|[j v] kvs IH]; intros s E; cbn [put_all] in E;
    [by injection E as <-|].
  unfold gbind in E. destruct (bucket_Put _ _ _ _) as [d|] eqn:Ep; [|done].
  rewrite (IH _ E). cbn [s_db set_db]. rewrite (put_get_other _ _ _ _ _ q k Ep); [done|by left].
Qed.

(** A bucket below the top level whose path has a slash in it, such as that of a
    session whose ID contains one, is left out: after a successful rotation its
    values are still encrypted with the key that has just been discarded. *)
Theorem RotateDataKey_skips_slashes old new secret s s' q k :
  keyed s old secret -> (2 <= length q)%nat -> Exists (fun n => slash ∈ n) q ->
  RotateDataKey old new s = (Ok tt, s') ->
  bucket_Get (s_db s') q k = bucket_Get (s_db s) q k.
Proof.
  intros Hk Hl Hex E. destruct (RotateDataKey_prepares old new secret s Hk) as
    (secret' & nc & meta & s0 & E' & D0 & _). rewrite E' in E. rewrite <- D0. clear E' D0.
  unfold rotate_write in E. unfold gbind at 1 in E. unfold gwrap, Command in E.
  unfold gbind at 1 in E.
  destruct (reencrypt_all _ _ _ s0) as [[[]|] s1] eqn:E1; [|done].
  destruct (put_all _ s1) as [[[]|] s2] eqn:E2; [|done]. injection E as <-. cbn [s_db set_cipher].
  etrans; [eapply put_all_skips; [|exact E2]|by eapply reencrypt_skips].
  intros ->. simpl in Hl. lia.
Qed.

End laws.

(** ** Concrete instances *)

Section sample.
Existing Instance toy_crypto.
Existing Instance map_bolt.

Lemma toy_decrypt_len c ct v : Decrypt c ct = Ok v -> blen v <= blen ct.
Proof.
  unfold Decrypt. destruct (blen ct <? nonceSize) eqn:E; [done|]. apply Z.ltb_ge in E.
  cbn [xchacha_open toy_crypto]. set (t := bdrop nonceSize ct).
  assert (Ht : blen t = blen ct - 24) by (unfold t; rewrite blen_bdrop; unfold nonceSize, NonceSizeX in *; lia).
  destruct (0 <=? blen t - 16) eqn:E2; simpl; [|done]. apply Z.leb_le in E2.
  destruct (bool_decide _); [|done]. intros [= <-]. rewrite blen_btake by lia. lia.
Qed.

Lemma sample_default_ready sid : default_ready (sample_store [sid]).
Proof. split; [sample_has_bucket|]. intros k. sample_has_bucket. Qed.

Definition name_key : bytes := str "name".
Definition sample_meta (sid : bytes) : path := [SessionsNamespace; sid; str "meta"].

(** An open database with one value in the metadata of session [sid]. *)
Definition sample_open (sid secret : bytes) (s : store) : Prop :=
  keyed s (str "old") secret /\
  (forall q, has_bucket (s_db s) q = has_bucket (s_db (sample_store [sid])) q) /\
  view s (sample_meta sid) name_key = Some (str "alice") /\
  (forall q k ct, bucket_Get (s_db s) q k = Some ct ->
     (q = [DefaultNamespace] /\ k ∈ metadata_keys /\ blen ct <= 72) \/
     (q = sample_meta sid /\ k = name_key)).

Lemma sample_open_exists sid : exists secret s, sample_open sid secret s.
Proof.
  destruct (createCipher_ok (str "old") (sample_store [sid]) (sample_default_ready sid))
    as (s0 & secret & c & E & K & B & O & L).
  destruct (PutEncrypted_ok (sample_meta sid) name_key (str "alice") (set_cipher c s0)) as (s & _ & U).
  - by eapply keyed_wf.
  - cbn [s_db set_cipher]. rewrite B. unfold sample_meta. rewrite sample_bucket.
    apply existsb_exists. exists (sample_meta sid). split; [|by apply bool_decide_eq_true_2].
    unfold sample_paths. simpl. tauto.
  - vm_compute. done.
  - vm_compute. done.
  - cbn [s_db set_cipher]. rewrite B. unfold sample_meta. cbn [app]. sample_has_bucket.
  - destruct U as ((Fc & _) & _ & Bs & V & G). exists secret, s. split_and!.
    + destruct K as (Hl & meta & kc & Hm & Hkc & Hd & Hn). split; [done|]. exists meta, kc.
      rewrite Fc. split_and!; try done. unfold read_meta in *. by rewrite !G by (by left).
    + intros q. by rewrite Bs, <- B.
    + done.
    + intros q k ct Hg. destruct (decide (q = sample_meta sid /\ k = name_key)) as [?|Hne]; [by right|].
      rewrite G in Hg by (destruct (decide (q = sample_meta sid)); naive_solver).
      cbn [s_db set_cipher] in Hg.
      destruct (decide (q = [DefaultNamespace] /\ k ∈ metadata_keys)) as [[-> Hk]|Hnm].
      * left. split_and!; try done. by eapply L.
      * rewrite O, sample_get in Hg; [done|].
        destruct (decide (q = [DefaultNamespace])); [right|by left]. naive_solver.
Qed.

Lemma sample_rooted sid : rooted (s_db (sample_store [sid])).
Proof.
  intros p n Hb. rewrite sample_bucket in Hb. apply existsb_exists in Hb as (q & Hin & Hq).
  apply bool_decide_eq_true in Hq. subst q. simpl in Hin.
  destruct_or!; try done; destruct p as [|a [|b [|x p]]]; cbn [app] in *; simplify_eq; try (by left);
    try (destruct p; cbn [app] in *; simplify_eq); right; rewrite sample_bucket; apply existsb_exists;
    eexists; (split; [|by apply bool_decide_eq_true_2]); unfold sample_paths; simpl; tauto.
Qed.

Lemma sample_slash_free sid : slash ∉ sid -> slash_free (s_db (sample_store [sid])).
Proof.
  intros Hs q Hb. rewrite sample_bucket in Hb. apply existsb_exists in Hb as (q' & Hin & Hq).
  apply bool_decide_eq_true in Hq. subst q'. simpl in Hin.
  destruct_or!; subst; try done; repeat constructor; try done;
    apply (bool_decide_unpack _); vm_compute; done.
Qed.

Lemma sample_root sid : has_bucket (s_db (sample_store [sid])) [] = false.
Proof. sample_has_bucket. Qed.

Lemma sample_open_ok sid secret s :
  sample_open sid secret s -> default_ready s /\ rooted (s_db s) /\ sizes_ok s.
Proof.
  intros (_ & B & V & G). split_and!.
  - eapply default_ready_frame; [exact B|apply sample_default_ready].
  - intros p n. rewrite !B. apply sample_rooted.
  - intros q k v Hv. unfold view in Hv. destruct (bucket_Get (s_db s) q k) as [ct|] eqn:Eg; [|done].
    destruct (Decrypt _ ct) as [v'|] eqn:Ed; [|done]. injection Hv as ->.
    destruct (G q k ct Eg) as [(-> & Hk & Hl)|[-> ->]].
    + apply toy_decrypt_len in Ed. split; [|lia].
      pose proof metadata_keys_ok as Hf. rewrite Forall_forall in Hf. by apply Hf.
    + unfold view in V. rewrite Eg, Ed in V. injection V as ->. split; vm_compute; done.
Qed.

Lemma RotatePassphrase_preserves_witness :
  exists secret s s', keyed s (str "old") secret /\
    RotatePassphrase (str "old") (str "new") s = (Ok tt, s') /\ keyed s' (str "new") secret /\
    s_cipher s' = s_cipher s /\
    (forall q j, q <> [DefaultNamespace] \/ j ∉ metadata_keys -> view s' q j = view s q j).
Proof.
  destruct (sample_open_exists (str "s")) as (secret & s & Ho).
  destruct (sample_open_ok _ _ _ Ho) as (Hr & _). exists secret, s.
  destruct (RotatePassphrase_preserves (str "old") (str "new") secret s (proj1 Ho) Hr) as (s' & Hs').
  exists s'. split; [apply Ho|exact Hs'].
Defined.

Lemma open_reopen_witness :
  exists s1 secret,
    NewBoltDB true false (Ok tt) (str "pw")
      (set_db (empty_db : db) (sample_store [])) = (Ok tt, s1) /\
    keyed s1 (str "pw") secret /\
    (forall n, n ∈ top_level -> has_bucket (s_db s1) [n] = true) /\
    forall s2 create, has_bucket (s_db s2) [] = false ->
      (forall k, k ∈ metadata_keys ->
         bucket_Get (s_db s2) [DefaultNamespace] k = bucket_Get (s_db s1) [DefaultNamespace] k) ->
      exists s3, NewBoltDB create true (Ok tt) (str "pw") s2 = (Ok tt, s3) /\
        s_cipher s3 = s_cipher s1 /\
        forall q j, bucket_Get (s_db s3) q j = bucket_Get (s_db s2) q j.
Proof. apply (open_reopen (str "pw")). reflexivity. Defined.

Lemma sample_tree sid secret s : slash ∉ sid -> sample_open sid secret s -> tree_ok s.
Proof.
  intros Hs Ho. destruct (sample_open_ok _ _ _ Ho) as (_ & Hro & _). destruct Ho as (_ & B & _).
  split_and!; [done| |rewrite B; apply sample_root].
  intros q Hq. rewrite B in Hq. by apply (sample_slash_free sid).
Qed.

Lemma RotateDataKey_preserves_witness :
  exists secret s s' secret', view s (sample_meta (str "s")) name_key = Some (str "alice") /\
    RotateDataKey (str "old") (str "new") s = (Ok tt, s') /\ keyed s' (str "new") secret' /\
    (forall q, has_bucket (s_db s') q = has_bucket (s_db s) q) /\
    (forall q k v, data_position q k -> view s q k = Some v -> view s' q k = Some v) /\
    (forall q k, data_position q k -> bucket_Get (s_db s) q k = None -> bucket_Get (s_db s') q k = None) /\
    keyed s (str "old") secret.
Proof.
  destruct (sample_open_exists (str "s")) as (secret & s & Ho).
  destruct (sample_open_ok _ _ _ Ho) as (Hr & _ & Hs). exists secret, s.
  destruct (RotateDataKey_preserves (str "old") (str "new") secret s (proj1 Ho) Hr) as
    (s' & secret' & E & K & B & V & G); [|done|].
  - eapply sample_tree; [|exact Ho]. apply (bool_decide_unpack _). vm_compute. done.
  - exists s', secret'. split_and!; try done; apply Ho.
Defined.

Lemma rotation_loses_updates_witness :
  exists s0 s s', view s0 (sample_meta (str "s")) name_key = Some (str "alice") /\
    view s (sample_meta (str "s")) name_key = Some (str "bob") /\
    rotate_write (s_cipher s0) (mkEnigma (fit 32 (str "next key"))) (collect_all (s_db s0))
      (mkCipherMeta [] [] [] []) s = (Ok tt, s') /\
    view s' (sample_meta (str "s")) name_key = Some (str "alice").
Proof.
  destruct (sample_open_exists (str "s")) as (secret & s0 & Ho).
  destruct (sample_open_ok _ _ _ Ho) as (Hr & Hro & Hs). pose proof Ho as (K & B & V & G).
  destruct (PutEncrypted_ok (sample_meta (str "s")) name_key (str "bob") s0) as (s & _ & U).
  - by eapply keyed_wf.
  - rewrite B. sample_has_bucket.
  - vm_compute. done.
  - vm_compute. done.
  - rewrite B. sample_has_bucket.
  - destruct U as (_ & _ & Bs & Vs & _).
    destruct (rotation_loses_updates (s_cipher s0) (mkEnigma (fit 32 (str "next key")))
      (mkCipherMeta [] [] [] []) s0 s (sample_meta (str "s")) name_key (str "alice")) as (s' & E & V'); try done.
    + eapply sample_tree; [|exact Ho]. apply (bool_decide_unpack _). vm_compute. done.
    + by eapply default_ready_frame.
    + by left.
    + by exists s0, s, s'.
Defined.

Lemma RotateDataKey_skips_slashes_witness :
  let q := sample_meta (str "a/b") in
  exists secret s s', keyed s (str "old") secret /\
    view s q name_key = Some (str "alice") /\
    RotateDataKey (str "old") (str "new") s = (Ok tt, s') /\
    bucket_Get (s_db s') q name_key = bucket_Get (s_db s) q name_key.
Proof.
  intros q. destruct (sample_open_exists (str "a/b")) as (secret & s & Ho).
  destruct (sample_open_ok _ _ _ Ho) as (Hr & Hro & Hs). pose proof Ho as (K & B & V & G).
  destruct (RotateDataKey_prepares (str "old") (str "new") secret s K) as
    (secret' & nc & meta & s0 & E & D0 & F0 & Hw & Hm & _).
  destruct (rotate_write_ok (s_cipher s) nc (s_db s) (collect_all (s_db s)) meta s0) as (s' & E' & _).
  - done.
  - unfold default_ready. by rewrite D0.
  - done.
  - rewrite D0. intros e He. apply collect_all_spec in He as (p & Hp & Hn & Hg & _); [|done].
    intros p' Hp'. rewrite Hn, (resolve_ext _ _ _ B) in Hp'.
    destruct (G p (e_key e) (e_value e) Hg) as [(-> & _)|[-> _]].
    + assert (p' = [DefaultNamespace]) as -> by (vm_compute in Hp'; by injection Hp').
      split_and!; [done|apply Hr|apply Hr|].
      intros v Hv. apply (Hs [DefaultNamespace]). unfold view. by rewrite Hg, Hv.
    + vm_compute in Hp'. done.
  - exists secret, s, s'. rewrite E' in E. split_and!; try done.
    apply (RotateDataKey_skips_slashes (str "old") (str "new") secret s s' q name_key); try done.
    + simpl. lia.
    + right. left. apply (bool_decide_unpack _). vm_compute. done.
Defined.
End sample.
