(* ===== verification/Storage.v ===== *)
(** * Persistent storage (pkg/storage)

    [session.go], [peer.go] and [storage.go] on top of the engine: sessions
    and their metadata, packed token lists, peers with expiry, the identity,
    settings and chat history.

    Every method of [Storage] is a function on the [store] of [Engine].  Two
    outcomes that are not Go return values are made explicit with an [option]:
    a nested write transaction, which never returns ([CreateSession]), and a
    run-time panic ([GetChatHistory]). *)

From S2P Require Import Prelude GoErr Process Wire Pb Crypto Enigma Serde Transport Bolt Engine.
#[local] Open Scope go_scope.

(** ** Packed lists (session.go) *)

Definition ElemSize : Z := 32.

(** [copy(dst[off:], src)] *)
Definition copy_at (off : Z) (src dst : bytes) : bytes :=
  let n := Z.min (blen src) (blen dst - off) in
  btake off dst ++ btake n src ++ bdrop (off + n) dst.

(** The [range] loop of [serializeList]. *)
Fixpoint copy_items (i : Z) (items : list bytes) (data : bytes) : bytes :=
  match items with
  | [] => data
  | item :: rest => copy_items (i + 1) rest (copy_at (4 + i * ElemSize) item data)
  end.

Definition serializeList (l : list bytes) : bytes :=
  let count := u32 (Z.of_nat (length l)) in
  let data := replicate (Z.to_nat (4 + Z.of_nat (length l) * ElemSize)) Byte.x00 in
  copy_items 0 l (copy_at 0 (be_put 4 count) data).

(** [data[off : off+ElemSize]] for [n] consecutive offsets. *)
Fixpoint slices (n : nat) (off : Z) (data : bytes) : list bytes :=
  match n with
  | O => []
  | S n' => bslice off (off + ElemSize) data :: slices n' (off + ElemSize) data
  end.

Definition deserializeList (data : bytes) : result (list bytes) :=
  if blen data <? 4 then Ok []
  else
    let count := be_get (btake 4 data) in
    if negb (4 + count * ElemSize =? blen data) then Err (Sentinel ErrNotFound)
    else Ok (slices (Z.to_nat count) 4 data).

(** The loop of [RemoveListItem]: the first match is replaced by the last
    element and the list is truncated. *)
Fixpoint index_of (i : nat) (entry : bytes) (l : list bytes) : option nat :=
  match l with
  | [] => None
  | item :: rest => if bool_decide (item = entry) then Some i else index_of (S i) entry rest
  end.

Definition remove_item (entry : bytes) (l : list bytes) : option (list bytes) :=
  match index_of 0 entry l, last l with
  | Some i, Some x => Some (take (length l - 1) (<[i := x]> l))
  | _, _ => None
  end.

Definition isMissing (e : error) : bool :=
  errors_is e ErrMissingItem || errors_is e ErrMissingNamespace.

(** [Meta]; a nil value is the empty one. *)
Record Meta := mkMeta { m_key : bytes; m_value : bytes }.
Definition NewBytesMeta (key value : bytes) : Meta := mkMeta key value.
Definition NewByteSlicesMeta (key : bytes) (l : list bytes) : Meta := mkMeta key (serializeList l).

Definition PeerKey : bytes := str "peer".
Definition EstablishedAtKey : bytes := str "established_at".
Definition ResumptionTokensKey : bytes := str "resumption_tokens".
Definition RelayTokensKey : bytes := str "relay_tokens".
Definition sessionMetaKey : bytes := str "name".
Definition valueMagic : bytes := str "KMNE" ++ [Byte.x01].

(** [Sender] is a uint16: 0 the local user, 1 the peer. *)
Record ChatEntry := mkChatEntry { ce_Timestamp : Z; ce_Data : bytes; ce_Sender : Z }.

Record SessionSummary := mkSummary {
  ss_ID : bytes; ss_FirstMessage : Z; ss_LastMessage : Z; ss_MessageCount : Z; ss_Name : bytes
}.

Section storage.
Context `{Crypto} `{ProtoRuntime} `{Bolt}.

Definition sessionChat (b : Namespace) (sessionID : bytes) : go store Namespace :=
  let* sessions := Sub b SessionsNamespace in
  let* session := Sub sessions sessionID in
  Sub session (str "chat").
Definition sessionMeta (b : Namespace) (sessionID : bytes) : go store Namespace :=
  let* sessions := Sub b SessionsNamespace in
  let* session := Sub sessions sessionID in
  Sub session (str "meta").

(** ** Peers (peer.go) *)

Definition peerKey (claim : bytes) : bytes := sha3_Sum512 claim.

(** [AsTime] of a nil timestamp is the Unix epoch. *)
Definition opt_as_time (t : option timestamp) : Z := as_time (default (Timestamp 0 0) t).

Definition peer_of (p : pb_Peer) : Peer :=
  let lastSeen := match pp_LastSeen p with Some t => as_time t | None => zero_time end in
  mkPeer (opt_as_time (pp_FirstSeen p)) lastSeen (pp_Name p) (pp_AppVersion p) (pp_PublicKey p).

Definition expired (p : pb_Peer) (expiry t : Z) : bool :=
  opt_as_time (pp_FirstSeen p) + expiry <? t.

(** [findPeer] up to its expiry branch; [None] is an expired peer. *)
Definition findPeer_lookup (b : Namespace) (key : bytes) : go store (option Peer) :=
  let* peers := Sub b PeersNamespace in
  let* data := gwrap "getting peer" (GetEncrypted peers key) in
  let* p := gwrap "unmarshaling peer" (lift_result (unmarshal_result (M := pb_Peer) data)) in
  let* t := clock_Now in
  let* expiry := gget s_expiry in
  gret (if expired p expiry t then None else Some (peer_of p)).

Definition delete_peer_tx (key : bytes) (b : Namespace) : go store unit :=
  let* peers := Sub b PeersNamespace in ns_Delete peers key.

(** [_ = s.engine.Command(...)] with the error only logged. *)
Definition ignore_error {A} (m : go store A) : go store unit := fun s => (Ok tt, snd (m s)).

(** [findPeer] in a read transaction: an expired peer is removed. *)
Definition findPeer (b : Namespace) (key : bytes) : go store Peer :=
  let* o := findPeer_lookup b key in
  match o with
  | Some p => gret p
  | None => ignore_error (Command (delete_peer_tx key)) ;* gfail (Sentinel ErrPeerExpired)
  end.

Definition FindPeer (claim : bytes) : go store Peer :=
  Query (fun b => findPeer b (peerKey claim)).

Definition StorePeer (peer : Peer) : go store unit :=
  let pubKey := PublicKey peer in
  if negb (blen pubKey =? 44) then gfail (wrapf "" (Sentinel ErrInvalidPublicKey))
  else
    let* t := clock_Now in
    let firstSeen := if is_zero_time (FirstSeen peer) then t else FirstSeen peer in
    let lastSeen := if is_zero_time (LastSeen peer) then t else LastSeen peer in
    let p := mkPbPeer (Name peer) pubKey (Some (timestamp_new firstSeen))
               (Some (timestamp_new lastSeen)) (AppVersionOf peer) in
    let* data := gwrap "marshaling peer" (lift_result (marshal_result p)) in
    gwrap "adding peer to storage" (Command (fun b =>
      let* peers := Sub b PeersNamespace in PutEncrypted peers (peerKey pubKey) data)).

Definition UpdatePeerLastSeen (claim : bytes) (t : Z) : go store unit := fun s =>
  let key := peerKey claim in
  match Query (fun b => let* peers := Sub b PeersNamespace in GetEncrypted peers key) s with
  | (Err e, s) =>
      if isMissing e then (Ok tt, s)
      else (Err (wrapf "reading peer for LastSeen update" e), s)
  | (Ok data, s) =>
      (let* p := gwrap "unmarshaling peer" (lift_result (unmarshal_result (M := pb_Peer) data)) in
       let* t := (if is_zero_time t then clock_Now else gret t) in
       let p' := mkPbPeer (pp_Name p) (pp_PublicKey p) (pp_FirstSeen p) (Some (timestamp_new t))
                   (pp_AppVersion p) in
       let* updated := gwrap "marshaling peer" (lift_result (marshal_result p')) in
       gwrap "persisting LastSeen update" (Command (fun b =>
         let* peers := Sub b PeersNamespace in PutEncrypted peers key updated))) s
  end.

(** One entry of the iteration of [ListPeers]. *)
Fixpoint scan_peers (l : list (bytes * bytes)) : go store (list Peer * list bytes) :=
  match l with
  | [] => gret ([], [])
  | (key, value) :: rest =>
      match unmarshal_result (M := pb_Peer) value with
      | Err _ => scan_peers rest
      | Ok p =>
          let* t := clock_Now in
          let* expiry := gget s_expiry in
          let* r := scan_peers rest in
          gret (if expired p expiry t then (fst r, key :: snd r) else (peer_of p :: fst r, snd r))
      end
  end.

Fixpoint delete_peers (keys : list bytes) : go store unit :=
  match keys with
  | [] => gret tt
  | key :: rest => ignore_error (Command (delete_peer_tx key)) ;* delete_peers rest
  end.

Definition ListPeers : go store (list Peer) :=
  let* r := gwrap "iterating peers" (Query (fun b =>
    let* ns := Sub b PeersNamespace in
    let* l := IterateEncrypted ns in
    scan_peers l)) in
  delete_peers (snd r) ;*
  gret (fst r).

Definition DeletePeer (claim : bytes) : go store unit := Command (delete_peer_tx (peerKey claim)).

(** ** Sessions (session.go) *)

(** [CreateSession] ensures the namespaces of a session and returns [meta]. *)
Definition ensure_session (b : Namespace) (sessionID : bytes) : go store Namespace :=
  let* sessions := Ensure b SessionsNamespace in
  let* session := Ensure sessions sessionID in
  let* meta := Ensure session (str "meta") in
  Ensure session (str "chat") ;*
  gret meta.

(** What [CreateSession] writes once it has found the peer. *)
Definition create_session_body (sessionID : bytes) (peer : Peer) (b : Namespace)
  : go store unit :=
  let* meta := ensure_session b sessionID in
  gwrap "store peer key" (PutEncrypted meta PeerKey (PublicKey peer)) ;*
  let* t := clock_Now in
  gwrap "store established_at"
    (PutEncrypted meta EstablishedAtKey (be_put 8 (u64 (unix_nano t)))).

(** [None]: the call blocks for ever.  [findPeer] removes an expired peer with
    a [Command] of its own, which waits for the write lock that the enclosing
    [Command] holds. *)
Definition CreateSession (sessionID publicKey : bytes) (s : store) : option (result unit * store) :=
  match findPeer_lookup (rootNamespace true) (peerKey publicKey) s with
  | (Err e, s') => Some (Err (wrapf "create session" (wrapf "find peer" e)), s')
  | (Ok None, _) => None
  | (Ok (Some peer), s') =>
      Some (gwrap "create session" (Command (create_session_body sessionID peer)) s')
  end.

Definition GetMeta (sessionID key : bytes) : go store Meta := fun s =>
  match Query (fun b => let* meta := sessionMeta b sessionID in GetEncrypted meta key) s with
  | (Ok val, s') => (Ok (NewBytesMeta key val), s')
  | (Err e, s') =>
      if isMissing e then (Ok (mkMeta [] []), s')
      else (Err (wrapf "get session meta" e), s')
  end.

Definition SetMeta (sessionID : bytes) (m : Meta) : go store unit :=
  gwrap "set session meta" (Command (fun b =>
    let* meta := sessionMeta b sessionID in PutEncrypted meta (m_key m) (m_value m))).

Definition DeleteMeta (sessionID key : bytes) : go store unit :=
  gwrap "delete session meta" (Command (fun b =>
    let* meta := sessionMeta b sessionID in ns_Delete meta key)).

Definition GetPeer (sessionID : bytes) : go store Peer :=
  let* m := GetMeta sessionID PeerKey in
  if blen (m_value m) =? 0 then gfail (Sentinel ErrSessionNotFound)
  else gwrap "find peer for session" (Query (fun b => findPeer b (peerKey (m_value m)))).

Definition GetEstablishedAt (sessionID : bytes) : go store Z :=
  let* m := GetMeta sessionID EstablishedAtKey in
  if blen (m_value m) <? 8 then gfail (Sentinel ErrSessionNotFound)
  else gret (i64 (be_get (btake 8 (m_value m)))).

Definition PopList (sessionID key : bytes) : go store bytes := fun s =>
  match Command (fun b =>
    let* meta := sessionMeta b sessionID in
    let* data := GetEncrypted meta key in
    let* l := lift_result (deserializeList data) in
    match l with
    | [] => gfail (Sentinel ErrNotFound)
    | entry :: rest => PutEncrypted meta key (serializeList rest) ;* gret entry
    end) s with
  | (Ok entry, s') => (Ok entry, s')
  | (Err e, s') =>
      if isMissing e then (Err (Sentinel ErrNotFound), s')
      else (Err (wrapf "pop from" e), s')
  end.

Definition RemoveListItem (sessionID key entry : bytes) : go store unit := fun s =>
  match Command (fun b =>
    let* meta := sessionMeta b sessionID in
    let* data := GetEncrypted meta key in
    let* l := lift_result (deserializeList data) in
    match remove_item entry l with
    | Some l' => PutEncrypted meta key (serializeList l')
    | None => gfail (Sentinel ErrNotFound)
    end) s with
  | (Ok _, s') => (Ok tt, s')
  | (Err e, s') =>
      if isMissing e then (Err (Sentinel ErrNotFound), s')
      else (Err (wrapf "remove from" e), s')
  end.

(** ** Identity, settings and chat (storage.go) *)

Definition attestKey : bytes := str "attest".

Definition Attester : go store Attest := fun s =>
  match Query (fun b => let* d := Sub b DefaultNamespace in GetEncrypted d attestKey) s with
  | (Ok id, s') => (LoadAttest id, s')
  | (Err e, s') =>
      if negb (errors_is e ErrMissingItem) then (Err (wrapf "getting identity" e), s')
      else
        (let* seed := rand_bytes 32 in
         let private := ed25519_GenerateKey seed in
         let at_ := mkAttest (ed25519_Public private) private in
         let* data := gwrap "marshalling private key" (lift_result (MarshalPrivateKey at_)) in
         gwrap "persisting generated attest" (Command (fun b =>
           let* d := Ensure b DefaultNamespace in PutEncrypted d attestKey data)) ;*
         gret at_) s'
  end.

Definition GetSessionName (sessionID : bytes) : go store bytes := fun s =>
  match Query (fun b => let* meta := sessionMeta b sessionID in GetEncrypted meta sessionMetaKey) s with
  | (Ok data, s') => (Ok data, s')
  | (Err e, s') => if isMissing e then (Ok [], s') else (Err (wrapf "get session name" e), s')
  end.

Definition SetSessionName (sessionID name : bytes) : go store unit := fun s =>
  if blen name =? 0 then
    match Command (fun b => let* meta := sessionMeta b sessionID in ns_Delete meta sessionMetaKey) s with
    | (Ok _, s') => (Ok tt, s')
    | (Err e, s') =>
        if errors_is e ErrMissingNamespace then (Ok tt, s')
        else (Err (wrapf "clear session name" e), s')
    end
  else
    gwrap "set session name" (Command (fun b =>
      let* meta := sessionMeta b sessionID in PutEncrypted meta sessionMetaKey name)) s.

Definition settings_key (app key : bytes) : bytes := app ++ str ":" ++ key.

Definition GetSettings (app key : bytes) : go store bytes := fun s =>
  if blen app =? 0 then (Err (Sentinel ErrEmptyAppName), s)
  else
    match Query (fun b =>
      let* settings := Sub b SettingsNamespace in
      GetEncrypted settings (settings_key app key)) s with
    | (Ok data, s') => (Ok data, s')
    | (Err e, s') =>
        if errors_is e ErrMissingItem then (Ok [], s') else (Err (wrapf "get settings" e), s')
    end.

Definition SetSettings (app key value : bytes) : go store unit := fun s =>
  if blen app =? 0 then (Err (Sentinel ErrEmptyAppName), s)
  else
    let k := settings_key app key in
    if blen value =? 0 then
      match Command (fun b => let* settings := Ensure b SettingsNamespace in ns_Delete settings k) s with
      | (Ok _, s') => (Ok tt, s')
      | (Err e, s') =>
          if errors_is e ErrMissingItem then (Ok tt, s') else (Err (wrapf "delete settings" e), s')
      end
    else
      gwrap "set settings" (Command (fun b =>
        let* settings := Ensure b SettingsNamespace in PutEncrypted settings k value)) s.

Definition DeleteSession (sessionID : bytes) : go store unit :=
  gwrap "delete session" (Command (fun b s =>
    (let* sessions := Sub b SessionsNamespace in
     fun s => match DeleteNamespace sessions sessionID s with
              | (Err e, s') => if errors_is e ErrMissingNamespace then (Ok tt, s') else (Err e, s')
              | r => r
              end) s)).

Definition AddChatEntry (sessionID payload : bytes) (ts sender : Z) : go store unit :=
  let* t := clock_Now in
  let* suffix := rand_bytes 4 in
  let key := be_put 8 (u64 (unix_nano t)) ++ be_put 2 (u16 sender) ++ suffix in
  let enc := valueMagic ++ be_put 8 (u64 (unix_nano ts)) ++ payload in
  gwrap "store chat entry" (Command (fun b =>
    let* chat := sessionChat b sessionID in PutEncrypted chat key enc)).

(** One entry of the history: [None] when the slicing of the value panics,
    [Some None] when the key is skipped. *)
Definition chat_entry (kv : bytes * bytes) : option (option ChatEntry) :=
  let '(key, value) := kv in
  if blen key <? 14 then Some None
  else
    let sender := be_get (bslice 8 10 key) in
    if blen value <? 13 then None
    else Some (Some (mkChatEntry (i64 (be_get (bslice 5 13 value))) (bdrop 13 value) sender)).

Fixpoint chat_entries (l : list (bytes * bytes)) : option (list ChatEntry) :=
  match l with
  | [] => Some []
  | kv :: rest =>
      match chat_entry kv, chat_entries rest with
      | Some (Some e), Some es => Some (e :: es)
      | Some None, Some es => Some es
      | _, _ => None
      end
  end.

(** The comparison given to [slices.SortFunc]. *)
Definition chat_le (a b : ChatEntry) : bool :=
  (ce_Timestamp a <? ce_Timestamp b) ||
  ((ce_Timestamp a =? ce_Timestamp b) && (ce_Sender a <=? ce_Sender b)).

Fixpoint insert_by {A} (le : A -> A -> bool) (x : A) (l : list A) : list A :=
  match l with
  | [] => [x]
  | y :: l' => if le x y then x :: l else y :: insert_by le x l'
  end.
(** [slices.SortFunc]; the order of equal elements is unspecified in Go. *)
Definition sort_by {A} (le : A -> A -> bool) (l : list A) : list A := foldr (insert_by le) [] l.

(** [None] is a run-time panic. *)
Definition GetChatHistory (sessionID : bytes) (s : store)
  : option (result (list ChatEntry) * store) :=
  match Query (fun b => let* chat := sessionChat b sessionID in IterateEncrypted chat) s with
  | (Err e, s') => Some (Err (wrapf "querying chat history" e), s')
  | (Ok l, s') =>
      match chat_entries l with
      | None => None
      | Some es => Some (Ok (sort_by chat_le es), s')
      end
  end.

Definition ListSessions : go store (list bytes) :=
  gwrap "listing sessions" (Query (fun b =>
    let* sessions := Sub b SessionsNamespace in ListSubNamespaces sessions)).

Fixpoint find_session (b : Namespace) (sids : list bytes) (pubKey : bytes) : go store bytes :=
  match sids with
  | [] => gret []
  | sid :: rest => fun s =>
      match (let* meta := sessionMeta b sid in GetEncrypted meta PeerKey) s with
      | (Ok data, s') =>
          if bool_decide (data = pubKey) then (Ok sid, s') else find_session b rest pubKey s'
      | (Err _, s') => find_session b rest pubKey s'
      end
  end.

Definition FindSessionByPeer (pubKey : bytes) : go store bytes :=
  gwrap "find session by peer" (Query (fun b =>
    let* ns := Sub b SessionsNamespace in
    let* sessions := ListSubNamespaces ns in
    find_session b sessions pubKey)).

(** The timestamp in the first eight bytes of a chat key. *)
Definition key_time (k : option bytes) : Z :=
  match k with
  | Some key => if blen key <? 8 then zero_time else i64 (be_get (btake 8 key))
  | None => zero_time
  end.

Definition SessionTimestamps (sessionID : bytes) : go store (Z * Z * Z) :=
  Query (fun b =>
    let* chat := sessionChat b sessionID in
    let* firstKey := FirstKey chat in
    let* lastKey := LastKey chat in
    let* count := KeyCount chat in
    gret (key_time firstKey, key_time lastKey, count)).

Fixpoint summarize (ids : list bytes) : go store (list SessionSummary) :=
  match ids with
  | [] => gret []
  | id :: rest => fun s =>
      match SessionTimestamps id s with
      | (Err _, s') => summarize rest s'
      | (Ok (f, l, count), s') =>
          let '(name, s') := GetSessionName id s' in
          let name := match name with Ok n => n | Err _ => [] end in
          (let* l' := summarize rest in gret (mkSummary id f l count name :: l')) s'
      end
  end.

Definition recent_le (a b : SessionSummary) : bool := ss_LastMessage b <=? ss_LastMessage a.

Definition ListSessionsByRecent : go store (list SessionSummary) :=
  let* ids := ListSessions in
  let* summaries := summarize ids in
  gret (sort_by recent_le summaries).

End storage.

(** ** Packed lists round-trip *)

Lemma copy_at_app off src a b :
  off = blen a -> blen src <= blen b ->
  copy_at off src (a ++ b) = a ++ src ++ bdrop (blen src) b.
Proof.
  intros -> Hl. unfold copy_at. pose proof (blen_nonneg src). pose proof (blen_nonneg a).
  rewrite blen_app. rewrite Z.min_l by lia. rewrite btake_app_exact by done.
  f_equal. f_equal.
  - unfold btake, blen. rewrite Nat2Z.id. by rewrite take_ge.
  - unfold bdrop, blen. rewrite Z2Nat.inj_add, !Nat2Z.id by lia. by rewrite drop_app_add.
Qed.

Lemma copy_items_app i items pre post :
  0 <= i -> blen pre = 4 + i * ElemSize -> Forall (fun x => blen x = ElemSize) items ->
  blen post = Z.of_nat (length items) * ElemSize ->
  copy_items i items (pre ++ post) = pre ++ concat items.
Proof.
  intros Hi Hp Hf. revert i pre post Hi Hp. induction Hf as [|x items Hx _ IH];
    intros i pre post Hi Hp Hl; cbn [copy_items concat length] in *.
  - assert (post = []) as -> by (apply blen_zero_nil; lia). done.
  - unfold ElemSize in *. rewrite copy_at_app by lia.
    replace (pre ++ x ++ bdrop (blen x) post) with ((pre ++ x) ++ bdrop (blen x) post)
      by (by rewrite <- app_assoc).
    rewrite IH; [by rewrite <- app_assoc|lia|go_len; lia|].
    rewrite blen_bdrop by lia. lia.
Qed.

(** The serialized form of a list of 32-byte elements. *)
Lemma serializeList_flat l :
  Forall (fun x => blen x = ElemSize) l -> Z.of_nat (length l) < 2 ^ 32 ->
  serializeList l = be_put 4 (Z.of_nat (length l)) ++ concat l.
Proof.
  intros Hf Hl. unfold serializeList. set (n := Z.of_nat (length l)).
  assert (Hu : u32 n = n) by (unfold u32; apply Z.mod_small; lia). rewrite Hu.
  set (z := replicate _ _).
  assert (Hz : blen z = 4 + n * ElemSize)
    by (unfold z; rewrite blen_replicate; unfold ElemSize, n; lia).
  pose proof (copy_at_app 0 (be_put 4 n) [] z) as Hc. cbn [app] in Hc.
  rewrite Hc; [|done|rewrite blen_be_put, Hz; unfold ElemSize, n; lia].
  rewrite blen_be_put. apply copy_items_app; [lia|by rewrite blen_be_put|done|].
  rewrite blen_bdrop by (unfold ElemSize, n in *; lia). lia.
Qed.

Lemma slices_concat items off pre :
  blen pre = off -> Forall (fun x => blen x = ElemSize) items ->
  slices (length items) off (pre ++ concat items) = items.
Proof.
  intros Hp Hf. revert off pre Hp. induction Hf as [|x items Hx _ IH]; intros off pre Hp;
    cbn [slices length concat]; [done|]. f_equal.
  - unfold bslice. rewrite bdrop_app_exact by done. apply btake_app_exact. lia.
  - rewrite app_assoc. apply IH. go_len. lia.
Qed.

Lemma blen_concat_elems l :
  Forall (fun x => blen x = ElemSize) l -> blen (concat l) = Z.of_nat (length l) * ElemSize.
Proof.
  induction 1 as [|x l Hx _ IH]; [done|]. cbn [concat length]. rewrite blen_app, Hx, IH. lia.
Qed.

Lemma deserialize_serialize l :
  Forall (fun x => blen x = ElemSize) l -> Z.of_nat (length l) < 2 ^ 32 ->
  deserializeList (serializeList l) = Ok l.
Proof.
  intros Hf Hl. rewrite serializeList_flat by done. unfold deserializeList.
  rewrite blen_app, blen_be_put, blen_concat_elems by done.
  destruct (Z.ltb_spec (Z.of_nat 4 + Z.of_nat (length l) * ElemSize) 4);
    [unfold ElemSize in *; lia|].
  rewrite btake_app_exact by (by rewrite blen_be_put).
  rewrite be_get_put_small by (simpl; lia).
  destruct (Z.eqb_spec (4 + Z.of_nat (length l) * ElemSize)
    (Z.of_nat 4 + Z.of_nat (length l) * ElemSize)); [|lia]. cbn [negb].
  rewrite Nat2Z.id. f_equal. apply slices_concat; [by rewrite blen_be_put|done].
Qed.

Lemma blen_serializeList l :
  Forall (fun x => blen x = ElemSize) l -> Z.of_nat (length l) < 2 ^ 32 ->
  blen (serializeList l) = 4 + Z.of_nat (length l) * ElemSize.
Proof.
  intros Hf Hl. rewrite serializeList_flat by done.
  by rewrite blen_app, blen_be_put, blen_concat_elems.
Qed.

Lemma index_of_spec i e l :
  match index_of i e l with
  | Some j => (i <= j)%nat /\ l !! (j - i)%nat = Some e
  | None => e ∉ l
  end.
Proof.
  revert i. induction l as [|x l IH]; intros i; simpl; [set_solver|].
  destruct (bool_decide_reflect (x = e)) as [->|Hne].
  - by rewrite Nat.sub_diag.
  - specialize (IH (S i)). destruct (index_of (S i) e l) as [j|].
    + destruct IH as [Hj IH]. split; [lia|].
      replace (j - i)%nat with (S (j - S i)) by lia. done.
    + apply not_elem_of_cons. by split.
Qed.

(** Replacing the element at [i] by the last one and truncating removes one
    occurrence. *)
Lemma swap_remove_perm (l : list bytes) i e x :
  l !! i = Some e -> last l = Some x -> l ≡ₚ e :: take (length l - 1) (<[i := x]> l).
Proof.
  intros Hi Hx. destruct l as [|y l' _] using rev_ind; [done|].
  rewrite last_snoc in Hx. injection Hx as ->. rewrite length_app. simpl.
  replace (length l' + 1 - 1)%nat with (length l') by lia.
  destruct (decide (i < length l')%nat) as [Hlt|Hge].
  - rewrite insert_app_l by done. rewrite take_app_le by (by rewrite length_insert).
    rewrite take_ge by (by rewrite length_insert). rewrite lookup_app_l in Hi by done.
    rewrite <- (take_drop_middle l' i e Hi) at 1.
    rewrite (insert_take_drop l' i x Hlt). solve_Permutation.
  - assert (i = length l') as ->.
    { apply lookup_lt_Some in Hi. rewrite length_app in Hi. simpl in Hi. lia. }
    rewrite lookup_app_r, Nat.sub_diag in Hi by lia. simpl in Hi. injection Hi as ->.
    rewrite insert_app_r_alt by lia. rewrite take_app_length.
    solve_Permutation.
Qed.

Lemma remove_item_spec e l :
  match remove_item e l with
  | Some l' => l ≡ₚ e :: l'
  | None => e ∉ l
  end.
Proof.
  unfold remove_item. pose proof (index_of_spec 0 e l) as Hi.
  destruct (index_of 0 e l) as [i|]; [|done]. destruct Hi as [_ Hi]. rewrite Nat.sub_0_r in Hi.
  destruct (last l) as [x|] eqn:Hx; [by apply swap_remove_perm|].
  apply last_None in Hx as ->. done.
Qed.

(** ** Sessions as a map

    What a session's metadata bucket holds, and the methods that read and
    write it. *)

Section session_laws.
Context `{Crypto} `{ProtoRuntime} `{Bolt} `{!CryptoOk _} `{!BoltOk _}.
Implicit Types (s : store) (sid key : bytes).

Definition session_path sid (kind : string) : path := [SessionsNamespace; sid; str kind].
Abbreviation meta_path sid := (session_path sid "meta").

(** The buckets of a session exist. *)
Definition session_open s sid (kind : string) : Prop :=
  has_bucket (s_db s) [SessionsNamespace] = true /\
  has_bucket (s_db s) [SessionsNamespace; sid] = true /\
  has_bucket (s_db s) (session_path sid kind) = true.

Lemma sessionMeta_open w sid s :
  session_open s sid "meta" ->
  sessionMeta (rootNamespace w) sid s = (Ok (bucketNamespace w (meta_path sid)), s).
Proof.
  intros (Ho1 & Ho2 & Ho3). unfold sessionMeta, gbind, Sub, sub_path. cbn [app].
  rewrite Ho1. cbn [app]. rewrite Ho2. cbn [app]. unfold session_path in *.
  by rewrite Ho3.
Qed.

Lemma sessionMeta_closed w sid s :
  ~ session_open s sid "meta" -> sessionMeta (rootNamespace w) sid s = (Ok nilNamespace, s).
Proof.
  intros Hn. unfold session_open in Hn. unfold sessionMeta, gbind, Sub, sub_path. cbn [app].
  destruct (has_bucket (s_db s) [SessionsNamespace]) eqn:E1; [|done]. cbn [app].
  destruct (has_bucket (s_db s) [SessionsNamespace; sid]) eqn:E2; [|done]. cbn [app].
  unfold session_path in Hn.
  destruct (has_bucket (s_db s) [SessionsNamespace; sid; str "meta"]) eqn:E3; [|done].
  exfalso. by apply Hn.
Qed.

Lemma session_open_frame s s' sid kind :
  (forall q, has_bucket (s_db s') q = has_bucket (s_db s) q) ->
  session_open s sid kind -> session_open s' sid kind.
Proof. intros Hb. unfold session_open. by rewrite !Hb. Qed.

(** A metadata key that can be written: not the name of a sub-bucket. *)
Definition meta_key_ok s sid key : Prop :=
  key_ok key /\ has_bucket (s_db s) (meta_path sid ++ [key]) = false.

Lemma updated_meta_key_ok s s' sid p k ov key :
  updated s s' p k ov -> meta_key_ok s sid key -> meta_key_ok s' sid key.
Proof. intros (_ & _ & Hb & _) [Hk Hs]. split; [done|]. by rewrite Hb. Qed.

Lemma updated_cipher s s' p k ov : updated s s' p k ov -> s_cipher s' = s_cipher s.
Proof. by intros ((? & _) & _). Qed.

Lemma updated_open s s' p k ov sid kind :
  updated s s' p k ov -> session_open s sid kind -> session_open s' sid kind.
Proof. intros (_ & _ & Hb & _). by apply session_open_frame. Qed.

Lemma meta_read w sid key s :
  session_open s sid "meta" ->
  match view s (meta_path sid) key with
  | Some v => (gbind (sessionMeta (rootNamespace w) sid) (fun meta => GetEncrypted meta key)) s
              = (Ok v, s)
  | None => exists e,
      (gbind (sessionMeta (rootNamespace w) sid) (fun meta => GetEncrypted meta key)) s = (Err e, s) /\
      errors_is e ErrMissingItem = bool_decide (bucket_Get (s_db s) (meta_path sid) key = None)
  end.
Proof.
  intros Ho. unfold gbind at 1 2. rewrite sessionMeta_open by done.
  by apply (GetEncrypted_view _ w).
Qed.

Lemma SetMeta_ok sid m s :
  enigma_wf (s_cipher s) -> session_open s sid "meta" -> meta_key_ok s sid (m_key m) ->
  blen (m_value m) <= 2147483600 ->
  exists s', SetMeta sid m s = (Ok tt, s') /\
    updated s s' (meta_path sid) (m_key m) (Some (m_value m)).
Proof.
  intros He Ho [Hk Hs] Hv.
  destruct (PutEncrypted_ok (meta_path sid) (m_key m) (m_value m) s) as (s' & E & Hu); try done.
  { apply Ho. }
  exists s'. split; [|done]. unfold SetMeta, gwrap.
  erewrite Command_ok; [reflexivity|]. unfold gbind. by rewrite sessionMeta_open.
Qed.

(** Without a session record nothing is written, and the error says so. *)
Lemma SetMeta_missing sid m s :
  ~ session_open s sid "meta" ->
  exists e, SetMeta sid m s = (Err e, s) /\ errors_is e ErrMissingNamespace = true.
Proof.
  intros Hn. unfold SetMeta, gwrap.
  erewrite Command_err; [|unfold gbind; rewrite sessionMeta_closed by done; reflexivity].
  rewrite set_db_same. eexists. split; [reflexivity|]. by rewrite errors_is_wrapf, errors_is_sentinel.
Qed.

Lemma GetMeta_ok sid key s v :
  session_open s sid "meta" -> view s (meta_path sid) key = Some v ->
  GetMeta sid key s = (Ok (NewBytesMeta key v), s).
Proof.
  intros Ho Hv. unfold GetMeta, Query. pose proof (meta_read false sid key s Ho) as Hr.
  rewrite Hv in Hr. by rewrite Hr.
Qed.

(** ** Token lists *)

(** The list stored under [key] of a session. *)
Definition holds_list s sid key (l : list bytes) : Prop :=
  view s (meta_path sid) key = Some (serializeList l) /\
  Forall (fun x => blen x = ElemSize) l /\ Z.of_nat (length l) <= 2 ^ 20.

(** Everything a list operation needs of the session it works on. *)
Definition session_ready s sid key : Prop :=
  enigma_wf (s_cipher s) /\ session_open s sid "meta" /\ meta_key_ok s sid key.

Lemma session_ready_updated s s' sid key p k ov :
  updated s s' p k ov -> session_ready s sid key -> session_ready s' sid key.
Proof.
  intros Hu (He & Ho & Hk). split_and!.
  - by rewrite (updated_cipher _ _ _ _ _ Hu).
  - by eapply updated_open.
  - by eapply updated_meta_key_ok.
Qed.

Lemma put_list_ok sid key l s :
  session_ready s sid key -> Forall (fun x => blen x = ElemSize) l ->
  Z.of_nat (length l) <= 2 ^ 20 ->
  exists s', PutEncrypted (bucketNamespace true (meta_path sid)) key (serializeList l) s = (Ok tt, s') /\
    updated s s' (meta_path sid) key (Some (serializeList l)).
Proof.
  intros (He & Ho & Hk & Hs) Hf Hl. apply PutEncrypted_ok; try done; [apply Ho|].
  rewrite blen_serializeList by (done || lia). unfold ElemSize. lia.
Qed.

Lemma RemoveListItem_found sid key e l l' s :
  session_ready s sid key -> holds_list s sid key l -> remove_item e l = Some l' ->
  exists s', RemoveListItem sid key e s = (Ok tt, s') /\
    updated s s' (meta_path sid) key (Some (serializeList l')) /\ holds_list s' sid key l'.
Proof.
  intros Hr (Hv & Hf & Hl) Hrem. pose proof (remove_item_spec e l) as Hp. rewrite Hrem in Hp.
  assert (Hf' : Forall (fun x => blen x = ElemSize) l').
  { rewrite Hp in Hf. by inversion Hf. }
  assert (Hl' : Z.of_nat (length l') <= 2 ^ 20) by (apply Permutation_length in Hp; simpl in Hp; lia).
  destruct (put_list_ok sid key l' s Hr Hf' Hl') as (s' & E & Hu).
  exists s'. split_and!; [|done|split_and!; [apply Hu|done|done]].
  pose proof (meta_read true sid key s (proj1 (proj2 Hr))) as Hm. rewrite Hv in Hm.
  unfold RemoveListItem. erewrite Command_ok; [reflexivity|].
  unfold gbind in *. rewrite sessionMeta_open in * by apply Hr. rewrite Hm.
  unfold lift_result. rewrite deserialize_serialize by (done || lia). by rewrite Hrem.
Qed.

Lemma RemoveListItem_absent sid key e l s :
  session_open s sid "meta" -> holds_list s sid key l -> e ∉ l ->
  exists err, RemoveListItem sid key e s = (Err err, s) /\ errors_is err ErrNotFound = true.
Proof.
  intros Ho (Hv & Hf & Hl) Hn. pose proof (remove_item_spec e l) as Hp.
  destruct (remove_item e l) as [l'|] eqn:Hrem; [rewrite Hp in Hn; set_solver|].
  pose proof (meta_read true sid key s Ho) as Hm. rewrite Hv in Hm.
  exists (wrapf "remove from" (Sentinel ErrNotFound)). split; [|done].
  unfold RemoveListItem.
  rewrite (Command_err _ s (Sentinel ErrNotFound) s); [by rewrite set_db_same|].
  unfold gbind in *. rewrite sessionMeta_open in * by done. rewrite Hm.
  unfold lift_result. rewrite deserialize_serialize by (done || lia). by rewrite Hrem.
Qed.

Lemma PopList_ok sid key x l s :
  session_ready s sid key -> holds_list s sid key (x :: l) ->
  exists s', PopList sid key s = (Ok x, s') /\
    updated s s' (meta_path sid) key (Some (serializeList l)) /\ holds_list s' sid key l.
Proof.
  intros Hr (Hv & Hf & Hl). pose proof (Forall_inv_tail Hf) as Hf'. simpl in Hl.
  destruct (put_list_ok sid key l s Hr Hf') as (s' & E & Hu); [lia|].
  exists s'. split_and!; [|done|split_and!; [apply Hu|done|lia]].
  pose proof (meta_read true sid key s (proj1 (proj2 Hr))) as Hm. rewrite Hv in Hm.
  unfold PopList. erewrite Command_ok; [reflexivity|].
  unfold gbind in *. rewrite sessionMeta_open in * by apply Hr. rewrite Hm.
  unfold lift_result. rewrite deserialize_serialize by (done || simpl; lia). by rewrite E.
Qed.

(** C24: Tokens are single-use and usable in any order: removing a stored token
    succeeds, the same token is refused from then on, every other token is
    still there, and nothing else in the store changes. *)
Theorem token_single_use sid key token tokens s :
  session_ready s sid key -> holds_list s sid key tokens -> NoDup tokens -> token ∈ tokens ->
  exists s1 rest,
    RemoveListItem sid key token s = (Ok tt, s1) /\
    tokens ≡ₚ token :: rest /\ holds_list s1 sid key rest /\ session_ready s1 sid key /\
    (forall q j, q <> meta_path sid \/ j <> key -> view s1 q j = view s q j) /\
    exists e, RemoveListItem sid key token s1 = (Err e, s1) /\ errors_is e ErrNotFound = true.
Proof.
  intros Hr Hh Hnd Hin. pose proof (remove_item_spec token tokens) as Hp.
  destruct (remove_item token tokens) as [rest|] eqn:Hrem; [|done].
  destruct (RemoveListItem_found sid key token tokens rest s Hr Hh Hrem) as (s1 & E & Hu & Hh1).
  assert (Hr1 : session_ready s1 sid key) by (by eapply session_ready_updated).
  exists s1, rest. split_and!; try done.
  - intros q j Hne. by eapply updated_other.
  - eapply RemoveListItem_absent; [apply Hr1|done|].
    rewrite Hp in Hnd. by apply NoDup_cons in Hnd as [? _].
Qed.

(** A list survives being stored and is popped from the front, one element at
    a time, until it is empty. *)
Fixpoint pop_all (sid key : bytes) (n : nat) : go store (list bytes) :=
  match n with
  | O => gret []
  | S n' => let* x := PopList sid key in let* l := pop_all sid key n' in gret (x :: l)
  end.

Theorem stored_list_pops_in_order sid key l s :
  session_ready s sid key -> Forall (fun x => blen x = ElemSize) l ->
  Z.of_nat (length l) <= 2 ^ 20 ->
  exists s1 s2,
    SetMeta sid (NewByteSlicesMeta key l) s = (Ok tt, s1) /\
    pop_all sid key (length l) s1 = (Ok l, s2) /\
    exists e, PopList sid key s2 = (Err e, s2) /\ errors_is e ErrNotFound = true.
Proof.
  intros Hr Hf Hl.
  destruct (SetMeta_ok sid (NewByteSlicesMeta key l) s) as (s1 & E1 & Hu1); try apply Hr.
  { cbn [m_value NewByteSlicesMeta]. rewrite blen_serializeList by (done || lia). unfold ElemSize. lia. }
  assert (Hh : holds_list s1 sid key l) by (split_and!; [apply Hu1|done|done]).
  assert (Hr1 : session_ready s1 sid key) by (by eapply session_ready_updated).
  assert (Hpop : exists s2, pop_all sid key (length l) s1 = (Ok l, s2) /\
    session_ready s2 sid key /\ holds_list s2 sid key []).
  { clear E1 Hu1 Hr s Hf Hl. revert s1 Hh Hr1.
    induction l as [|x l IH]; intros s1 Hh Hr1; [by exists s1|].
    destruct (PopList_ok sid key x l s1 Hr1 Hh) as (s2 & E2 & Hu2 & Hh2).
    destruct (IH s2 Hh2) as (s3 & E3 & Hr3 & Hh3); [by eapply session_ready_updated|].
    exists s3. split_and!; try done. cbn [length pop_all]. unfold gbind, gret. by rewrite E2, E3. }
  destruct Hpop as (s2 & E2 & Hr2 & Hh2). exists s1, s2. split_and!; try done.
  destruct Hh2 as (Hv & _). destruct Hr2 as (_ & Ho & _).
  pose proof (meta_read true sid key s2 Ho) as Hm. rewrite Hv in Hm.
  exists (wrapf "pop from" (Sentinel ErrNotFound)). split; [|done].
  unfold PopList.
  rewrite (Command_err _ s2 (Sentinel ErrNotFound) s2); [by rewrite set_db_same|].
  unfold gbind in *. rewrite sessionMeta_open in * by done. rewrite Hm.
  unfold lift_result. by rewrite deserialize_serialize.
Qed.

End session_laws.

(** ** Concrete instances *)

Section sample.
Existing Instance toy_crypto.
Existing Instance wire_runtime.
Existing Instance map_bolt.

Definition sample_sid : bytes := str "session-0123456789abcdef".

Lemma sample_ready key :
  key_ok key -> session_ready (sample_store [sample_sid]) sample_sid key.
Proof.
  intros Hk. split_and!; [apply sample_enigma| |split; [done|]].
  - split_and!; sample_has_bucket.
  - unfold session_path. cbn [app]. sample_has_bucket.
Qed.

Lemma token_single_use_witness :
  let tokens := [be_put 32 1; be_put 32 2; be_put 32 3] in
  exists s, holds_list s sample_sid ResumptionTokensKey tokens /\
  exists s1 rest,
    RemoveListItem sample_sid ResumptionTokensKey (be_put 32 2) s = (Ok tt, s1) /\
    tokens ≡ₚ be_put 32 2 :: rest /\ holds_list s1 sample_sid ResumptionTokensKey rest /\
    session_ready s1 sample_sid ResumptionTokensKey /\
    (forall q j, q <> session_path sample_sid "meta" \/ j <> ResumptionTokensKey ->
       view s1 q j = view s q j) /\
    exists e, RemoveListItem sample_sid ResumptionTokensKey (be_put 32 2) s1 = (Err e, s1) /\
      errors_is e ErrNotFound = true.
Proof.
  intros tokens. assert (Hk : key_ok ResumptionTokensKey) by (vm_compute; done).
  pose proof (sample_ready _ Hk) as Hr.
  destruct (SetMeta_ok sample_sid (NewByteSlicesMeta ResumptionTokensKey tokens)
    (sample_store [sample_sid])) as (s & _ & Hu); [apply Hr|apply Hr|apply Hr|vm_compute; done|].
  exists s. assert (Hh : holds_list s sample_sid ResumptionTokensKey tokens).
  { split_and!; [apply Hu|by repeat constructor|simpl; lia]. }
  split; [done|]. apply (token_single_use sample_sid ResumptionTokensKey _ tokens).
  - by eapply session_ready_updated.
  - done.
  - apply (bool_decide_unpack _). vm_compute. done.
  - apply (bool_decide_unpack _). vm_compute. done.
Defined.

Lemma stored_list_pops_in_order_witness :
  let l := [be_put 32 1; be_put 32 2] in
  exists s1 s2,
    SetMeta sample_sid (NewByteSlicesMeta RelayTokensKey l) (sample_store [sample_sid]) = (Ok tt, s1) /\
    pop_all sample_sid RelayTokensKey (length l) s1 = (Ok l, s2) /\
    exists e, PopList sample_sid RelayTokensKey s2 = (Err e, s2) /\ errors_is e ErrNotFound = true.
Proof.
  intros l. apply (stored_list_pops_in_order sample_sid RelayTokensKey l).
  - apply sample_ready. vm_compute. done.
  - by repeat constructor.
  - simpl. lia.
Defined.
End sample.
