(* ===== verification/Sessions.v ===== *)
(** * What the storage layer promises

    Theorems about [Storage]: peers are found again until they expire, a
    session record leads back to its peer and its time of establishment, the
    identity is created once, settings of different applications do not
    interfere, and the chat history contains exactly what was added.

    They are stated on the [view] of the engine, so they hold for every database
    that satisfies [BoltOk] and every cipher that satisfies [CryptoOk]. *)

From Stdlib Require Import Sorting.Sorted.
From S2P Require Import Prelude GoErr Process Wire Pb Crypto Enigma Serde Transport Bolt Engine Storage.
#[local] Open Scope go_scope.

Section laws.
Context `{Crypto} `{ProtoRuntime} `{Bolt} `{!CryptoOk _} `{!ProtoRuntimeOk _} `{!BoltOk _}.
Implicit Types (s : store) (sid key : bytes).

(** The store after one reading of the clock, and what it read. *)
Definition tick s : store := snd (clock_Now s).
Definition now s : Z := s_clock s (s_tpos s).

Definition store_clock_ok s : Prop :=
  forall i, - 2 ^ 63 <= s_clock s i < 2 ^ 63.

Lemma view_tick s q j : view (tick s) q j = view s q j.
Proof. done. Qed.

Lemma updated_view_tick s s' p k ov q j :
  updated (tick s) s' p k ov -> q <> p \/ j <> k -> view s' q j = view s q j.
Proof. intros Hu Hne. rewrite <- (view_tick s). by eapply updated_other. Qed.

(** ** Peers *)

Definition peers_ready s : Prop :=
  enigma_wf (s_cipher s) /\ has_bucket (s_db s) [PeersNamespace] = true /\
  forall k, has_bucket (s_db s) [PeersNamespace; k] = false.

Definition time_ok (t : Z) : Prop := - 2 ^ 63 * Second <= t < 2 ^ 63 * Second.

(** A peer [StorePeer] can store. *)
Definition peer_valid (p : Peer) : Prop :=
  blen (PublicKey p) = 44 /\ ascii_only (Name p) /\ ascii_only (AppVersionOf p) /\
  blen (Name p) <= 2 ^ 20 /\ blen (AppVersionOf p) <= 2 ^ 20 /\
  time_ok (FirstSeen p) /\ time_ok (LastSeen p).

(** The peer as it is stored at time [t]: unset times become [t]. *)
Definition stamp (t : Z) (p : Peer) : Peer :=
  mkPeer (if is_zero_time (FirstSeen p) then t else FirstSeen p)
         (if is_zero_time (LastSeen p) then t else LastSeen p)
         (Name p) (AppVersionOf p) (PublicKey p).

Definition pb_of (p : Peer) : pb_Peer :=
  mkPbPeer (Name p) (PublicKey p) (Some (timestamp_new (FirstSeen p)))
    (Some (timestamp_new (LastSeen p))) (AppVersionOf p).

Definition stored_peer s (claim : bytes) (p : pb_Peer) : Prop :=
  exists data, view s [PeersNamespace] (peerKey claim) = Some data /\ Unmarshal data = Some p.

Lemma peer_of_pb_of p : peer_of (pb_of p) = p.
Proof. unfold peer_of, pb_of, opt_as_time. simpl. rewrite !as_time_new. by destruct p. Qed.

Lemma pb_of_wf p :
  blen (Name p) <= 2 ^ 20 -> blen (AppVersionOf p) <= 2 ^ 20 -> blen (PublicKey p) = 44 ->
  time_ok (FirstSeen p) -> time_ok (LastSeen p) -> msg_wf (pb_of p).
Proof.
  intros. cbn. unfold short. split_and!; try lia; by apply timestamp_new_wf.
Qed.

Lemma pb_of_size p data :
  blen (Name p) <= 2 ^ 20 -> blen (AppVersionOf p) <= 2 ^ 20 -> blen (PublicKey p) = 44 ->
  Marshal (pb_of p) = Some data -> blen data <= 2147483600.
Proof.
  intros Hn Hv Hk Hm. rewrite (marshal_size _ _ Hm), size_fields. cbn [fields Peer_message pb_of
    pp_Name pp_PublicKey pp_FirstSeen pp_LastSeen pp_AppVersion].
  rewrite !wire_size_app.
  assert (Hb : forall n b, 1 <= n <= 15 -> blen b < 2 ^ 62 ->
    wire_size (opt_bytes n b) <= blen b + 20).
  { intros n b Hn15 Hl. destruct b as [|x b]; [simpl; rewrite blen_nil; lia|].
    cbn [opt_bytes wire_size foldr]. unfold wfield_size. cbn [fst snd].
    pose proof (uvarint_len_10 (n * 8 + 2)). pose proof (uvarint_len_10 (blen (x :: b))).
    pose proof (blen_nonneg (x :: b)). lia. }
  assert (Ht : forall n t, 1 <= n <= 15 -> wire_size (opt_timestamp n (Some t)) <= 60).
  { intros n t Hn15. cbn [opt_timestamp wire_size foldr]. unfold wfield_size. cbn [fst snd].
    rewrite blen_encode_fields. pose proof (timestamp_size t).
    pose proof (uvarint_len_10 (n * 8 + 2)).
    pose proof (uvarint_len_10 (wire_size (timestamp_fields t))).
    assert (0 <= wire_size (timestamp_fields t)) by (rewrite <- blen_encode_fields; apply blen_nonneg).
    lia. }
  pose proof (Hb 1 (Name p)). pose proof (Hb 2 (PublicKey p)). pose proof (Hb 5 (AppVersionOf p)).
  pose proof (Ht 3 (timestamp_new (FirstSeen p))). pose proof (Ht 4 (timestamp_new (LastSeen p))).
  lia.
Qed.

Lemma peerKey_ok claim : key_ok (peerKey claim).
Proof. unfold key_ok, peerKey. rewrite sha3_len. lia. Qed.

(** [findPeer] up to its expiry branch, on a stored peer. *)
Lemma findPeer_lookup_ok w claim p s :
  has_bucket (s_db s) [PeersNamespace] = true -> stored_peer s claim p ->
  findPeer_lookup (rootNamespace w) (peerKey claim) s =
  (Ok (if expired p (s_expiry s) (now s) then None else Some (peer_of p)), tick s).
Proof.
  intros Hb (data & Hv & Hu). unfold findPeer_lookup, gbind, Sub, sub_path. cbn [app]. rewrite Hb.
  pose proof (GetEncrypted_view _ w [PeersNamespace] (peerKey claim) s eq_refl) as Hg.
  rewrite Hv in Hg. unfold gwrap. rewrite Hg. cbn [map_err]. unfold lift_result, unmarshal_result.
  rewrite Hu. done.
Qed.

Lemma findPeer_lookup_missing w claim s :
  has_bucket (s_db s) [PeersNamespace] = true ->
  bucket_Get (s_db s) [PeersNamespace] (peerKey claim) = None ->
  exists e, findPeer_lookup (rootNamespace w) (peerKey claim) s = (Err e, s) /\
    errors_is e ErrMissingItem = true.
Proof.
  intros Hb Hg. unfold findPeer_lookup, gbind, Sub, sub_path. cbn [app]. rewrite Hb.
  unfold gwrap, GetEncrypted, gbind, ns_get. rewrite Hg.
  eexists. split; [reflexivity|]. by rewrite errors_is_wrapf, errors_is_sentinel.
Qed.

Lemma StorePeer_ok p s :
  peers_ready s -> peer_valid p -> store_clock_ok s ->
  exists s1 data, StorePeer p s = (Ok tt, s1) /\
    updated (tick s) s1 [PeersNamespace] (peerKey (PublicKey p)) (Some data) /\
    Unmarshal data = Some (pb_of (stamp (now s) p)).
Proof.
  intros (He & Hb & Hs) (Hk & Hn & Hv & Hln & Hlv & Ht1 & Ht2) Hc.
  set (p' := stamp (now s) p).
  assert (Hok : time_ok (now s)).
  { unfold time_ok. specialize (Hc (s_tpos s)). unfold now, Second. lia. }
  destruct (marshal_ascii (pb_of p')) as [data Hm]; [by repeat constructor|].
  assert (Hwf : msg_wf (pb_of p')).
  { apply pb_of_wf; try done; simpl; by destruct (is_zero_time _). }
  destruct (PutEncrypted_ok [PeersNamespace] (peerKey (PublicKey p)) data (tick s))
    as (s1 & E & Hu); try done.
  { apply peerKey_ok. }
  { by eapply (pb_of_size p'). }
  { apply Hs. }
  exists s1, data. split_and!; [|done|by eapply unmarshal_marshal].
  unfold StorePeer. rewrite Hk. cbn [negb Z.eqb Pos.eqb].
  unfold gbind at 1. change (clock_Now s) with (Ok (now s) : result Z, tick s). cbv iota beta zeta.
  unfold gbind at 1, gwrap at 1, lift_result, marshal_result.
  change (mkPbPeer _ _ _ _ _) with (pb_of p'). rewrite Hm. cbn [of_option map_err].
  unfold gwrap. erewrite Command_ok; [reflexivity|].
  unfold gbind, Sub, sub_path. cbn [app]. change (s_db (tick s)) with (s_db s). by rewrite Hb.
Qed.

Lemma FindPeer_fresh claim p s :
  has_bucket (s_db s) [PeersNamespace] = true -> stored_peer s claim p ->
  expired p (s_expiry s) (now s) = false -> FindPeer claim s = (Ok (peer_of p), tick s).
Proof.
  intros Hb Hs He. unfold FindPeer, Query, findPeer. unfold gbind at 1.
  by rewrite (findPeer_lookup_ok false claim p s Hb Hs), He.
Qed.

Lemma FindPeer_expired claim p s :
  has_bucket (s_db s) [PeersNamespace] = true ->
  has_bucket (s_db s) [PeersNamespace; peerKey claim] = false -> stored_peer s claim p ->
  expired p (s_expiry s) (now s) = true ->
  exists s', FindPeer claim s = (Err (Sentinel ErrPeerExpired), s') /\
    updated (tick s) s' [PeersNamespace] (peerKey claim) None /\
    exists e, FindPeer claim s' = (Err e, s') /\ errors_is e ErrMissingItem = true.
Proof.
  intros Hb Hn Hs He.
  destruct (Delete_ok [PeersNamespace] (peerKey claim) (tick s)) as (s' & E & Hu); [done|done|].
  exists s'. split_and!; [|done|].
  - unfold FindPeer, Query, findPeer. unfold gbind at 1.
    rewrite (findPeer_lookup_ok false claim p s Hb Hs), He. unfold ignore_error, gbind, gfail.
    erewrite (Command_ok _ (tick s)); [reflexivity|].
    unfold delete_peer_tx, gbind, Sub, sub_path. cbn [app].
    change (s_db (tick s)) with (s_db s). by rewrite Hb.
  - pose proof Hu as (_ & _ & Hbs & _).
    destruct (findPeer_lookup_missing false claim s') as (e & El & Hm); [by rewrite Hbs| |].
    + unfold ns_Delete in E. cbn [negb] in E.
      destruct (bucket_Delete _ _ _) eqn:Ed; [|done]. injection E as <-. cbn [s_db set_db].
      by eapply delete_get.
    + exists e. split; [|done]. unfold FindPeer, Query, findPeer. unfold gbind at 1. by rewrite El.
Qed.

Lemma expired_pb_of p expiry t : expired (pb_of p) expiry t = (FirstSeen p + expiry <? t).
Proof. unfold expired, opt_as_time. simpl. by rewrite as_time_new. Qed.

(** A stored peer is found again, with the times it was stamped with, until
    its first sighting is older than the expiry; the lookup that finds it
    expired says so and removes it, so the next one finds nothing.  No other
    record is touched. *)
Theorem peer_found_until_expired p s :
  peers_ready s -> peer_valid p -> store_clock_ok s ->
  exists s1 s2, StorePeer p s = (Ok tt, s1) /\
    (forall q j, q <> [PeersNamespace] \/ j <> peerKey (PublicKey p) -> view s2 q j = view s q j) /\
    let p' := stamp (now s) p in
    if FirstSeen p' + s_expiry s <? now s1 then
      FindPeer (PublicKey p) s1 = (Err (Sentinel ErrPeerExpired), s2) /\
      exists e, FindPeer (PublicKey p) s2 = (Err e, s2) /\ errors_is e ErrMissingItem = true
    else FindPeer (PublicKey p) s1 = (Ok p', s2).
Proof.
  intros Hr Hp Hc. destruct (StorePeer_ok p s Hr Hp Hc) as (s1 & data & E & Hu & Hd).
  destruct Hr as (He & Hb & Hs). pose proof Hu as (Hf & _ & Hbs & Hv & _).
  assert (Hb1 : has_bucket (s_db s1) [PeersNamespace] = true) by (by rewrite Hbs).
  assert (Hst : stored_peer s1 (PublicKey p) (pb_of (stamp (now s) p))) by (by exists data).
  pose proof (expired_pb_of (stamp (now s) p) (s_expiry s1) (now s1)) as Hexp.
  replace (s_expiry s1) with (s_expiry s) in Hexp at 2 by (destruct Hf as (_ & _ & ->); done).
  destruct (FirstSeen (stamp (now s) p) + s_expiry s <? now s1) eqn:Eexp.
  - destruct (FindPeer_expired (PublicKey p) (pb_of (stamp (now s) p)) s1 Hb1) as (s2 & E1 & Hu2 & E2); try done.
    { rewrite Hbs. apply Hs. }
    exists s1, s2. cbv zeta. rewrite Eexp. split_and!; [done| |done|done].
    intros q j Hne. rewrite (updated_view_tick _ _ _ _ _ _ _ Hu2 Hne). by eapply updated_view_tick.
  - exists s1, (tick s1). cbv zeta. rewrite Eexp. split_and!; [done| |].
    + intros q j Hne. rewrite view_tick. by eapply updated_view_tick.
    + rewrite (FindPeer_fresh _ _ s1 Hb1 Hst Hexp). by rewrite peer_of_pb_of.
Qed.

(** ** Sessions *)

(** The store after a bucket was created. *)
Definition grown s s' (p : path) : Prop :=
  same_frame s s' /\ s_tpos s' = s_tpos s /\
  (forall q, has_bucket (s_db s') q = bool_decide (q = p) || has_bucket (s_db s) q) /\
  (forall q j, bucket_Get (s_db s') q j = bucket_Get (s_db s) q j).

Lemma Ensure_ok p name s :
  p = [] \/ has_bucket (s_db s) p = true -> key_ok name ->
  has_bucket (s_db s) (p ++ [name]) = true \/ bucket_Get (s_db s) p name = None ->
  exists s', ensure_path p name true s = (Ok (bucketNamespace true (p ++ [name])), s') /\
    grown s s' (p ++ [name]).
Proof.
  intros Hp Hn Hg. unfold ensure_path.
  destruct (has_bucket (s_db s) (p ++ [name])) eqn:E.
  - exists s. split; [done|]. split_and!; try done. intros q.
    destruct (bool_decide_reflect (q = p ++ [name])) as [->|]; [by rewrite E|done].
  - destruct Hg as [?|Hg]; [congruence|]. cbn [negb].
    destruct (create_ok (s_db s) p name Hp Hn Hg) as [d Ed]. rewrite Ed.
    exists (set_db d s). split; [done|]. split_and!; try done.
    + intros q. by eapply create_buckets.
    + intros q j. by eapply create_get.
Qed.

(** The names [CreateSession] needs are free of plain values, and its metadata
    bucket has no sub-buckets. *)
Definition session_names_free s sid : Prop :=
  key_ok sid /\ has_bucket (s_db s) [SessionsNamespace] = true /\
  bucket_Get (s_db s) [SessionsNamespace] sid = None /\
  bucket_Get (s_db s) [SessionsNamespace; sid] (str "meta") = None /\
  bucket_Get (s_db s) [SessionsNamespace; sid] (str "chat") = None /\
  forall k, has_bucket (s_db s) (session_path sid "meta" ++ [k]) = false.

Lemma ensure_session_ok sid s :
  session_names_free s sid ->
  exists s', ensure_session (rootNamespace true) sid s
      = (Ok (bucketNamespace true (session_path sid "meta")), s') /\
    same_frame s s' /\ s_tpos s' = s_tpos s /\
    session_open s' sid "meta" /\ session_open s' sid "chat" /\
    (forall q, (length q <> 2)%nat -> (length q <> 3)%nat ->
       has_bucket (s_db s') q = has_bucket (s_db s) q) /\
    (forall q j, bucket_Get (s_db s') q j = bucket_Get (s_db s) q j).
Proof.
  intros (Hk & Hb & Hg1 & Hg2 & Hg3 & Hsub).
  assert (key_ok SessionsNamespace /\ key_ok (str "meta") /\ key_ok (str "chat")) as (K1 & K2 & K3)
    by (split_and!; vm_compute; done).
  destruct (Ensure_ok [] SessionsNamespace s) as (s1 & E1 & F1 & T1 & B1 & G1); [by left|done|by left|].
  destruct (Ensure_ok [SessionsNamespace] sid s1) as (s2 & E2 & F2 & T2 & B2 & G2);
    [right; by rewrite B1|done|right; by rewrite G1|].
  destruct (Ensure_ok [SessionsNamespace; sid] (str "meta") s2) as (s3 & E3 & F3 & T3 & B3 & G3);
    [right; by rewrite B2, bool_decide_eq_true_2|done|right; by rewrite G2, G1|].
  destruct (Ensure_ok [SessionsNamespace; sid] (str "chat") s3) as (s4 & E4 & F4 & T4 & B4 & G4);
    [right; by rewrite B3, B2, (bool_decide_eq_true_2 (_ = [SessionsNamespace] ++ [sid])), orb_true_r
    |done|right; by rewrite G3, G2, G1|].
  cbn [app] in *. exists s4. split_and!.
  - unfold ensure_session, gbind, gret. cbn [Ensure]. rewrite E1. cbn [Ensure]. rewrite E2. cbn [Ensure].
    rewrite E3. cbn [Ensure]. by rewrite E4.
  - by do 3 (etrans; [|eassumption]).
  - congruence.
  - unfold session_open, session_path. rewrite !B4, !B3, !B2, !B1.
    by rewrite !(bool_decide_eq_true_2 (?[x] = ?x)), ?orb_true_r.
  - unfold session_open, session_path. rewrite !B4, !B3, !B2, !B1.
    by rewrite !(bool_decide_eq_true_2 (?[x] = ?x)), ?orb_true_r.
  - intros q L2 L3. rewrite B4, B3, B2, B1.
    rewrite !bool_decide_eq_false_2 by (intros ->; simpl in *; lia). simpl.
    destruct (bool_decide_reflect (q = [SessionsNamespace])) as [->|]; [by rewrite Hb|done].
  - intros q j. by rewrite G4, G3, G2, G1.
Qed.

(** [created s s' sid p t]: [s'] is [s] with the session [sid] of peer [p]
    established at [t]. *)
Definition created s s' sid (p : Peer) (t : Z) : Prop :=
  same_frame s s' /\
  (forall q, (length q <> 2)%nat -> (length q <> 3)%nat ->
     has_bucket (s_db s') q = has_bucket (s_db s) q) /\
  session_open s' sid "meta" /\ session_open s' sid "chat" /\
  view s' (session_path sid "meta") PeerKey = Some (PublicKey p) /\
  view s' (session_path sid "meta") EstablishedAtKey = Some (be_put 8 (u64 (unix_nano t))) /\
  forall q j, q <> session_path sid "meta" \/ (j <> PeerKey /\ j <> EstablishedAtKey) ->
    bucket_Get (s_db s') q j = bucket_Get (s_db s) q j.

Lemma create_session_body_ok sid p s :
  enigma_wf (s_cipher s) -> session_names_free s sid -> blen (PublicKey p) <= 2 ^ 20 ->
  exists s', create_session_body sid p (rootNamespace true) s = (Ok tt, s') /\
    created s s' sid p (now s) /\ s_tpos s' = S (s_tpos s).
Proof.
  intros He Hn Hp. pose proof Hn as (Hk & Hb & _ & _ & _ & Hsub).
  destruct (ensure_session_ok sid s Hn) as (s1 & E1 & F1 & T1 & O1 & C1 & B1 & G1).
  assert (Hsub1 : forall k, has_bucket (s_db s1) (session_path sid "meta" ++ [k]) = false)
    by (intros k; rewrite B1 by (simpl; lia); apply Hsub).
  assert (He1 : enigma_wf (s_cipher s1)) by (destruct F1 as (-> & _); done).
  destruct (PutEncrypted_ok (session_path sid "meta") PeerKey (PublicKey p) s1)
    as (s2 & E2 & U2); try done; [apply O1|lia|].
  pose proof U2 as ((Fc2 & Fk2 & Fe2) & T2 & B2 & V2 & G2).
  destruct (PutEncrypted_ok (session_path sid "meta") EstablishedAtKey
    (be_put 8 (u64 (unix_nano (now s2)))) (tick s2)) as (s3 & E3 & U3).
  { cbn. by rewrite Fc2. }
  { unfold tick. cbn. rewrite B2. apply O1. }
  { vm_compute. done. }
  { rewrite blen_be_put. lia. }
  { unfold tick. cbn. rewrite B2. apply Hsub1. }
  pose proof U3 as (F3 & T3 & B3 & V3 & G3).
  assert (Hnow : now s2 = now s) by (destruct F1 as (_ & Hk1 & _); unfold now; congruence).
  exists s3. unfold created. split_and!.
  - unfold create_session_body. unfold gbind at 1. rewrite E1. unfold gbind at 1, gwrap at 1.
    rewrite E2. cbn [map_err]. unfold gbind, gwrap.
    change (clock_Now s2) with (Ok (now s2) : result Z, tick s2). cbv iota beta. by rewrite E3.
  - etrans; [exact F1|]. etrans; [exact (conj Fc2 (conj Fk2 Fe2))|]. exact F3.
  - intros q L2 L3. rewrite B3. unfold tick. cbn. rewrite B2. by apply B1.
  - eapply updated_open; [exact U3|]. unfold session_open, tick. cbn. by rewrite !B2.
  - eapply updated_open; [exact U3|]. unfold session_open, tick. cbn. by rewrite !B2.
  - rewrite (updated_view_tick _ _ _ _ _ _ _ U3) by (right; vm_compute; done). done.
  - by rewrite V3, Hnow.
  - intros q j Hne. rewrite G3 by tauto. unfold tick. cbn. rewrite G2 by tauto. apply G1.
  - rewrite T3. cbn. congruence.
Qed.

(** C35: A session created for a known peer leads back to that peer and to the time
    it was created; its metadata can be written from then on, and nothing else
    in the store changes. *)
Theorem session_record_complete sid claim p s :
  enigma_wf (s_cipher s) -> has_bucket (s_db s) [PeersNamespace] = true ->
  stored_peer s claim p -> pp_PublicKey p = claim -> blen claim = 44 ->
  session_names_free s sid -> store_clock_ok s ->
  (forall i, expired p (s_expiry s) (s_clock s i) = false) ->
  exists s',
    CreateSession sid claim s = Some (Ok tt, s') /\
    GetPeer sid s' = (Ok (peer_of p), tick s') /\
    GetEstablishedAt sid s' = (Ok (s_clock s (S (s_tpos s))), s') /\
    (forall q j, q <> session_path sid "meta" -> view s' q j = view s q j) /\
    (forall key, key_ok key -> session_ready s' sid key).
Proof.
  intros He Hb Hst Hpk Hl Hn Hc Hx.
  destruct (create_session_body_ok sid (peer_of p) (tick s)) as (s' & E & Hcr & Ht); try done.
  { cbn. rewrite Hpk. lia. }
  destruct Hcr as (Hf & Hbs & Hom & Hoc & Hvp & Hve & Ho). cbn [PublicKey peer_of] in Hvp.
  assert (Hview : forall q j, q <> session_path sid "meta" -> view s' q j = view s q j).
  { intros q j Hq. unfold view. destruct Hf as (-> & _). by rewrite Ho by (by left). }
  exists s'. split_and!; [| | |done|].
  - unfold CreateSession. rewrite (findPeer_lookup_ok true claim p s Hb Hst).
    unfold now at 1. rewrite Hx. unfold gwrap. by erewrite Command_ok.
  - unfold GetPeer. unfold gbind at 1. rewrite (GetMeta_ok _ _ _ _ Hom Hvp). cbn [m_value NewBytesMeta].
    rewrite Hpk, Hl. change (44 =? 0) with false. cbv iota. unfold gwrap.
    change (Query (fun b => findPeer b (peerKey claim)) s') with (FindPeer claim s').
    rewrite (FindPeer_fresh claim p s'); [done|by rewrite Hbs| |].
    + destruct Hst as (data & Hv & Hu). exists data. by rewrite Hview.
    + destruct Hf as (_ & Hck & ->). unfold now. rewrite Hck. apply Hx.
  - unfold GetEstablishedAt. unfold gbind at 1. rewrite (GetMeta_ok _ _ _ _ Hom Hve).
    cbn [m_value NewBytesMeta]. rewrite blen_be_put. change (Z.of_nat 8 <? 8) with false. cbv iota.
    unfold gret. do 2 f_equal.
    replace (btake 8 (be_put 8 _)) with (be_put 8 (u64 (unix_nano (now (tick s)))))
      by (symmetry; apply take_ge; by rewrite length_be_put).
    rewrite be_get_put_small by apply u64_range. specialize (Hc (S (s_tpos s))).
    unfold now, tick. cbn. unfold unix_nano.
    assert (Hi : i64 (s_clock s (S (s_tpos s))) = s_clock s (S (s_tpos s))).
    { unfold i64. rewrite Z.mod_small by lia. lia. }
    rewrite Hi. by apply i64_u64.
  - intros key Hkey. split_and!; [destruct Hf as (-> & _); done|done|].
    split; [done|]. rewrite Hbs by (simpl; lia). apply Hn.
Qed.

(** The record of an expired peer makes [CreateSession] block for ever: the
    lookup runs inside a write transaction and removes the record with another
    one. *)
Theorem CreateSession_expired_blocks sid claim p s :
  has_bucket (s_db s) [PeersNamespace] = true -> stored_peer s claim p ->
  expired p (s_expiry s) (now s) = true -> CreateSession sid claim s = None.
Proof.
  intros Hb Hst Hx. unfold CreateSession. by rewrite (findPeer_lookup_ok true claim p s Hb Hst), Hx.
Qed.

(** Deleting a session removes all of it, and only it; deleting it again, or
    deleting one that never existed, is not an error. *)
Theorem DeleteSession_complete sid s :
  key_ok sid -> has_bucket (s_db s) [SessionsNamespace] = true ->
  exists s1, DeleteSession sid s = (Ok tt, s1) /\ DeleteSession sid s1 = (Ok tt, s1) /\
    (forall key, GetMeta sid key s1 = (Ok (mkMeta [] []), s1)) /\
    GetChatHistory sid s1 = Some (Ok [], s1) /\
    (forall q j, ~ [SessionsNamespace; sid] `prefix_of` q -> view s1 q j = view s q j).
Proof.
  intros Hk Hb.
  assert (Hgone : forall t, has_bucket (s_db t) [SessionsNamespace] = true ->
    has_bucket (s_db t) [SessionsNamespace; sid] = false ->
    DeleteSession sid t = (Ok tt, t) /\ (forall key, GetMeta sid key t = (Ok (mkMeta [] []), t)) /\
    GetChatHistory sid t = Some (Ok [], t)).
  { intros t Hb1 Hb2. split_and!.
    - unfold DeleteSession, gwrap. erewrite Command_ok; [reflexivity|].
      unfold gbind, Sub, sub_path. cbn [app]. rewrite Hb1. unfold DeleteNamespace.
      destruct (Z.eqb_spec (blen sid) 0); [done|]. cbn [negb app]. by rewrite Hb2.
    - intros key. unfold GetMeta, Query, gbind.
      rewrite sessionMeta_closed; [done|]. unfold session_open. rewrite Hb2. by intros (_ & ? & _).
    - unfold GetChatHistory, Query, sessionChat, gbind, Sub, sub_path. cbn [app]. rewrite Hb1.
      cbn [app]. rewrite Hb2. done. }
  destruct (has_bucket (s_db s) [SessionsNamespace; sid]) eqn:Hs.
  - destruct (delete_bucket_ok (s_db s) [SessionsNamespace] sid Hs) as [d Ed].
    pose proof (fun q => delete_bucket_buckets _ _ _ _ q Ed) as Hbs. cbn [app] in Hbs.
    set (s1 := set_db d s). destruct (Hgone s1) as (D & M & C).
    { subst s1. cbn [s_db set_db s_cipher]. rewrite Hbs, Hb. rewrite bool_decide_eq_false_2; [done|].
      intros Hpre%prefix_length. simpl in Hpre. lia. }
    { subst s1. cbn [s_db set_db s_cipher]. rewrite Hbs, bool_decide_eq_true_2 by done. by rewrite andb_false_r. }
    exists s1. split_and!; try done.
    + unfold DeleteSession, gwrap. erewrite Command_ok; [reflexivity|].
      unfold gbind, Sub, sub_path. cbn [app]. rewrite Hb. unfold DeleteNamespace.
      destruct (Z.eqb_spec (blen sid) 0); [unfold key_ok in Hk; lia|]. cbn [negb app].
      rewrite Hs. cbn [negb]. by rewrite Ed.
    + intros q j Hq. unfold view. subst s1. cbn [s_db set_db s_cipher]. by rewrite (delete_bucket_get _ _ _ _ q j Ed Hq).
  - destruct (Hgone s) as (D & M & C); try done. by exists s.
Qed.

(** ** Identity *)

(** The identity is created on first use and the same one is returned ever
    after. *)
Theorem Attester_stable s :
  enigma_wf (s_cipher s) -> has_bucket (s_db s) [DefaultNamespace] = true ->
  has_bucket (s_db s) [DefaultNamespace; attestKey] = false ->
  bucket_Get (s_db s) [DefaultNamespace] attestKey = None ->
  exists a s1, Attester s = (Ok a, s1) /\ attest_wf a /\ Attester s1 = (Ok a, s1) /\
    forall q j, q <> [DefaultNamespace] \/ j <> attestKey -> view s1 q j = view s q j.
Proof.
  intros He Hb Hs Hg.
  set (seed := map (s_rand s) (seq (s_rpos s) (Z.to_nat 32))).
  set (a := mkAttest (ed25519_Public (ed25519_GenerateKey seed)) (ed25519_GenerateKey seed)).
  destruct (pkcs8_total (ed25519_GenerateKey seed)) as [data Ed]. pose proof (pkcs8_len _ _ Ed) as Hl.
  set (s0 := snd (rand_bytes 32 s)).
  destruct (PutEncrypted_ok [DefaultNamespace] attestKey data s0) as (s1 & E1 & Hu); try done; [lia|].
  assert (Hm : MarshalPrivateKey a = Ok data) by (unfold MarshalPrivateKey; cbn [privateKey a]; by rewrite Ed).
  assert (Hw : attest_wf a) by done.
  exists a, s1. split_and!; [|done| |].
  - unfold Attester, Query. unfold gbind at 1, Sub, sub_path. cbn [app]. rewrite Hb.
    unfold GetEncrypted, gbind at 1, ns_get. rewrite Hg. cbn [negb errors_is].
    rewrite bool_decide_eq_true_2 by done. cbn [negb].
    unfold gbind at 1. change (rand_bytes 32 s) with (Ok seed : result bytes, s0). cbv iota beta zeta.
    fold a. unfold gbind at 1, gwrap at 1, lift_result. rewrite Hm. cbn [map_err].
    unfold gbind at 1, gwrap. erewrite Command_ok; [reflexivity|].
    unfold gbind, Ensure, ensure_path. cbn [app]. change (s_db s0) with (s_db s). by rewrite Hb.
  - pose proof Hu as (_ & _ & Hbs & Hv & _). unfold Attester, Query. unfold gbind at 1, Sub, sub_path.
    cbn [app]. rewrite Hbs. change (s_db s0) with (s_db s). rewrite Hb.
    pose proof (GetEncrypted_view _ false [DefaultNamespace] attestKey s1 eq_refl) as Hr.
    rewrite Hv in Hr. rewrite Hr. by rewrite (LoadAttest_marshal a data Hw Hm).
  - intros q j Hne. by rewrite (updated_other _ _ _ _ _ q j Hu Hne).
Qed.

(** ** Settings *)

Definition settings_ready s : Prop :=
  enigma_wf (s_cipher s) /\ has_bucket (s_db s) [SettingsNamespace] = true /\
  forall k, has_bucket (s_db s) [SettingsNamespace; k] = false.

Definition colon : byte := Byte.x3a.

Lemma settings_key_inj app app' key key' :
  colon ∉ app -> colon ∉ app' -> settings_key app key = settings_key app' key' ->
  app = app' /\ key = key'.
Proof.
  unfold settings_key. change (str ":") with [colon]. cbn [List.app].
  revert app'. induction app as [|x app IH]; intros [|y app'] Hc Hc' E; simpl in E.
  - by injection E.
  - injection E as <- _. by apply not_elem_of_cons in Hc' as [? _].
  - injection E as -> _. by apply not_elem_of_cons in Hc as [? _].
  - injection E as -> E. apply not_elem_of_cons in Hc as [_ Hc].
    apply not_elem_of_cons in Hc' as [_ Hc']. destruct (IH app' Hc Hc' E) as [-> ->]. done.
Qed.

Lemma GetSettings_spec app key s :
  app <> [] -> has_bucket (s_db s) [SettingsNamespace] = true ->
  match view s [SettingsNamespace] (settings_key app key) with
  | Some v => GetSettings app key s = (Ok v, s)
  | None => bucket_Get (s_db s) [SettingsNamespace] (settings_key app key) = None ->
            GetSettings app key s = (Ok [], s)
  end.
Proof.
  intros Ha Hb. pose proof (GetEncrypted_view _ false [SettingsNamespace] (settings_key app key) s eq_refl) as Hr.
  unfold GetSettings, Query. destruct (Z.eqb_spec (blen app) 0) as [E|_]; [by apply blen_zero_nil in E|].
  unfold gbind, Sub, sub_path. cbn [List.app]. rewrite Hb.
  destruct (view _ _ _) as [v|]; [by rewrite Hr|].
  destruct Hr as (e & -> & He). intros Hn. by rewrite He, bool_decide_eq_true_2.
Qed.

Lemma SetSettings_ok app key value s :
  app <> [] -> settings_ready s -> key_ok (settings_key app key) -> blen value <= 2 ^ 20 ->
  exists s1, SetSettings app key value s = (Ok tt, s1) /\ settings_ready s1 /\
    same_frame s s1 /\ (forall q, has_bucket (s_db s1) q = has_bucket (s_db s) q) /\
    (forall q j, q <> [SettingsNamespace] \/ j <> settings_key app key ->
       bucket_Get (s_db s1) q j = bucket_Get (s_db s) q j) /\
    GetSettings app key s1 = (Ok value, s1).
Proof.
  intros Ha (He & Hb & Hs) Hk Hv. unfold SetSettings.
  destruct (Z.eqb_spec (blen app) 0) as [E|_]; [by apply blen_zero_nil in E|].
  set (k := settings_key app key) in *. unfold gbind, Ensure, ensure_path. cbn [List.app].
  assert (Hready : forall t ov, updated s t [SettingsNamespace] k ov -> settings_ready t).
  { intros t ov Hu. pose proof Hu as ((Hc & _) & _ & Hbs & _).
    split_and!; [by rewrite Hc|by rewrite Hbs|intros j; by rewrite Hbs]. }
  destruct (Z.eqb_spec (blen value) 0) as [Ev|_].
  - apply blen_zero_nil in Ev as ->.
    destruct (Delete_ok [SettingsNamespace] k s) as (s1 & E1 & Hu); [done|apply Hs|].
    exists s1. pose proof Hu as (Hf & _ & Hbs & Hw & Ho). split_and!.
    + erewrite Command_ok; [reflexivity|]. by rewrite Hb.
    + by eapply Hready.
    + done.
    + done.
    + done.
    + pose proof (GetSettings_spec app key s1 Ha) as Hg. fold k in Hg. rewrite Hw in Hg.
      apply Hg; [by rewrite Hbs|]. unfold ns_Delete in E1. cbn [negb] in E1.
      destruct (bucket_Delete _ _ _) eqn:Ed; [|done]. injection E1 as <-. by eapply delete_get.
  - destruct (PutEncrypted_ok [SettingsNamespace] k value s) as (s1 & E1 & Hu);
      [done|done|done|lia|apply Hs|].
    exists s1. pose proof Hu as (Hf & _ & Hbs & Hw & Ho). split_and!.
    + unfold gwrap. erewrite Command_ok; [reflexivity|]. by rewrite Hb.
    + by eapply Hready.
    + done.
    + done.
    + done.
    + pose proof (GetSettings_spec app key s1 Ha) as Hg. fold k in Hg. rewrite Hw in Hg.
      apply Hg. by rewrite Hbs.
Qed.

(** A setting reads back as it was written (the empty string after a deletion),
    and applications whose names contain no colon do not see each other's
    settings. *)
Theorem settings_isolated app key value app' key' s :
  app <> [] -> settings_ready s -> key_ok (settings_key app key) -> blen value <= 2 ^ 20 ->
  exists s1, SetSettings app key value s = (Ok tt, s1) /\ settings_ready s1 /\
    GetSettings app key s1 = (Ok value, s1) /\
    (colon ∉ app -> colon ∉ app' -> app <> app' \/ key <> key' ->
       fst (GetSettings app' key' s1) = fst (GetSettings app' key' s)).
Proof.
  intros Ha Hr Hk Hv. destruct (SetSettings_ok app key value s Ha Hr Hk Hv)
    as (s1 & E & Hr1 & Hf & _ & Ho & Hg). exists s1. split_and!; try done.
  intros Hc Hc' Hne.
  assert (Hk' : settings_key app' key' <> settings_key app key).
  { intros E'. apply settings_key_inj in E' as [-> ->]; try done. by destruct Hne. }
  unfold GetSettings, Query. destruct (blen app' =? 0); [done|].
  unfold gbind, Sub, sub_path. cbn [List.app].
  destruct Hr as (_ & -> & _), Hr1 as (_ & -> & _).
  unfold GetEncrypted, gbind, ns_get, gget, gret, gfail. rewrite Ho by (by right).
  destruct (bucket_Get (s_db s) _ _) as [ct|]; [|done]. cbv iota beta.
  destruct Hf as (-> & _). destruct (Decrypt (s_cipher s) ct) as [v|e]; [done|].
  by destruct (errors_is (wrapf "decrypt" e) ErrMissingItem).
Qed.

(** With a colon in an application's name the keys coincide: what one
    application writes the other reads. *)
Theorem settings_collide value s :
  settings_ready s -> blen value <= 2 ^ 20 ->
  exists s1, SetSettings (str "a:b") (str "c") value s = (Ok tt, s1) /\
    GetSettings (str "a") (str "b:c") s1 = (Ok value, s1).
Proof.
  intros Hr Hv. destruct (SetSettings_ok (str "a:b") (str "c") value s) as (s1 & E & _ & _ & _ & _ & Hg);
    try done. by exists s1.
Qed.

(** ** Chat history *)

Abbreviation chat_path sid := (session_path sid "chat").

(** The key and the value of one chat record. *)
Definition chat_key (t sender : Z) (suffix : bytes) : bytes :=
  be_put 8 (u64 (unix_nano t)) ++ be_put 2 (u16 sender) ++ suffix.
Definition chat_value (ts : Z) (payload : bytes) : bytes :=
  valueMagic ++ be_put 8 (u64 (unix_nano ts)) ++ payload.

(** Iteration shows the view of one bucket: each key once, with its plaintext. *)
Lemma Iterate_view w p s l s' :
  IterateEncrypted (bucketNamespace w p) s = (Ok l, s') ->
  s' = s /\ NoDup l.*1 /\ forall k v, (k, v) ∈ l <-> view s p k = Some v.
Proof.
  unfold IterateEncrypted. intros [= <- <-]. split; [done|]. split.
  - pose proof (cursor_nodup (s_db s) p) as Hn. revert Hn.
    induction (bucket_cursor (s_db s) p) as [|[k ov] c IH]; intros Hn; simpl; [constructor|].
    inversion Hn as [|? ? Hnot Hn']; subst.
    destruct (Decrypt _ _); [|by apply IH]. simpl. constructor; [|by apply IH].
    intros Hin. apply Hnot. apply list_elem_of_fmap in Hin as ([k' v'] & E & Hin). simpl in E. subst k'.
    apply list_elem_of_omap in Hin as ([k2 ov2] & Hin & E2). simpl in E2.
    destruct (Decrypt _ _); [|done]. simplify_eq. apply list_elem_of_fmap. by exists (k, ov2).
  - intros k v. rewrite list_elem_of_omap. unfold view. split.
    + intros ([k' ov] & Hin & E). simpl in E. destruct ov as [ct|]; [|done].
      apply cursor_get in Hin. simpl in E. destruct (Decrypt _ ct) eqn:Ed; [|done]. simplify_eq.
      by rewrite Hin, Ed.
    + intros E. destruct (bucket_Get (s_db s) p k) as [ct|] eqn:Eg; [|done].
      exists (k, Some ct). split; [by apply cursor_get|]. simpl.
      destruct (Decrypt _ ct); [|done]. by simplify_eq.
Qed.

Lemma insert_by_perm {A} (le : A -> A -> bool) x l : insert_by le x l ≡ₚ x :: l.
Proof.
  induction l as [|y l IH]; simpl; [done|]. destruct (le x y); [done|]. rewrite IH. constructor.
Qed.

Lemma sort_by_perm {A} (le : A -> A -> bool) l : sort_by le l ≡ₚ l.
Proof. induction l as [|x l IH]; simpl; [done|]. by rewrite insert_by_perm, IH. Qed.

Lemma sort_by_sorted {A} (le : A -> A -> bool) l :
  (forall x y, le x y = false -> le y x = true) -> Sorted le (sort_by le l).
Proof.
  intros Ht. induction l as [|x l IH]; simpl; [constructor|].
  revert IH. generalize (sort_by le l) as m. induction m as [|y m IHm]; intros Hs; simpl.
  - by repeat constructor.
  - destruct (le x y) eqn:E; [constructor; [done|by constructor; rewrite E]|].
    inversion Hs as [|? ? Hs' Hd]; subst. constructor; [by apply IHm|].
    apply Ht in E. destruct m as [|z m]; simpl; [by constructor; rewrite E|].
    destruct (le x z); constructor; [by rewrite E|by inversion Hd].
Qed.

Lemma chat_le_total x y : chat_le x y = false -> chat_le y x = true.
Proof.
  unfold chat_le. destruct (Z.ltb_spec (ce_Timestamp x) (ce_Timestamp y)),
    (Z.eqb_spec (ce_Timestamp x) (ce_Timestamp y)), (Z.leb_spec (ce_Sender x) (ce_Sender y)),
    (Z.ltb_spec (ce_Timestamp y) (ce_Timestamp x)), (Z.eqb_spec (ce_Timestamp y) (ce_Timestamp x)),
    (Z.leb_spec (ce_Sender y) (ce_Sender x)); simpl; try done; lia.
Qed.

Lemma chat_entries_perm l l' es :
  l ≡ₚ l' -> chat_entries l = Some es -> exists es', chat_entries l' = Some es' /\ es ≡ₚ es'.
Proof.
  intros Hp. revert es. induction Hp as [|x l l' _ IH|x y l|l l2 l3 _ IH1 _ IH2]; intros es He.
  - by exists es.
  - simpl in *. destruct (chat_entry x) as [o|]; [|done].
    destruct (chat_entries l) as [e1|]; [|by destruct o].
    destruct (IH e1 eq_refl) as (e2 & -> & Hp2).
    destruct o; simplify_eq; eexists; (split; [done|by rewrite ?Hp2]).
  - simpl in *. destruct (chat_entry x) as [[]|], (chat_entry y) as [[]|],
      (chat_entries l); simplify_eq; eexists; (split; [done|]); try done; constructor.
  - destruct (IH1 es He) as (e1 & E1 & P1). destruct (IH2 e1 E1) as (e2 & E2 & P2).
    exists e2. split; [done|by rewrite P1].
Qed.

Lemma chat_entry_record t sender suffix ts payload :
  0 <= sender < 2 ^ 16 -> - 2 ^ 63 <= ts < 2 ^ 63 -> blen suffix = 4 ->
  chat_entry (chat_key t sender suffix, chat_value ts payload)
  = Some (Some (mkChatEntry ts payload sender)).
Proof.
  intros Hs Ht Hl. unfold chat_entry, chat_key, chat_value.
  pose proof (blen_nonneg payload).
  assert (Hu : forall n, - 2 ^ 63 <= n < 2 ^ 63 -> unix_nano n = n).
  { intros n Hn. unfold unix_nano, i64. rewrite Z.mod_small by lia. lia. }
  rewrite (Hu ts) by done. assert (blen valueMagic = 5) as Hm by done.
  rewrite !blen_app, !blen_be_put, Hm, Hl. change (_ <? 14) with false. cbv iota.
  destruct (Z.ltb_spec (5 + (Z.of_nat 8 + blen payload)) 13); [lia|].
  do 3 f_equal.
  - unfold bslice. rewrite bdrop_app_exact by done.
    rewrite btake_app_exact by (by rewrite blen_be_put).
    rewrite be_get_put_small by apply u64_range. by apply i64_u64.
  - unfold bslice. rewrite bdrop_app_exact by (by rewrite blen_be_put).
    rewrite btake_app_exact by (by rewrite blen_be_put).
    unfold u16. rewrite Z.mod_small by lia. apply be_get_put_small. simpl. lia.
Qed.

Lemma sessionChat_open w sid s :
  session_open s sid "chat" ->
  sessionChat (rootNamespace w) sid s = (Ok (bucketNamespace w (chat_path sid)), s).
Proof.
  intros (Ho1 & Ho2 & Ho3). unfold sessionChat, gbind, Sub, sub_path. cbn [app].
  rewrite Ho1. cbn [app]. rewrite Ho2. cbn [app]. unfold session_path in *. by rewrite Ho3.
Qed.

Lemma GetChatHistory_open sid s :
  session_open s sid "chat" ->
  exists l, NoDup l.*1 /\ (forall k v, (k, v) ∈ l <-> view s (chat_path sid) k = Some v) /\
    GetChatHistory sid s =
      match chat_entries l with Some es => Some (Ok (sort_by chat_le es), s) | None => None end.
Proof.
  intros Ho. unfold GetChatHistory, Query, gbind. rewrite sessionChat_open by done.
  destruct (IterateEncrypted (bucketNamespace false (chat_path sid)) s) as [r s'] eqn:E.
  destruct r as [l|e]; [|done]. apply Iterate_view in E as (-> & Hn & Hv). by exists l.
Qed.

(** The four random bytes the next chat key ends with. *)
Definition next_suffix s : bytes := map (s_rand s) (seq (s_rpos s) 4).

Lemma AddChatEntry_ok sid payload ts sender s :
  enigma_wf (s_cipher s) -> session_open s sid "chat" ->
  (forall k, has_bucket (s_db s) (chat_path sid ++ [k]) = false) -> blen payload <= 2 ^ 30 ->
  exists s0 s1, same_frame s s0 /\ s_db s0 = s_db s /\
    AddChatEntry sid payload ts sender s = (Ok tt, s1) /\
    updated s0 s1 (chat_path sid) (chat_key (now s) sender (next_suffix s))
      (Some (chat_value ts payload)).
Proof.
  intros He Ho Hs Hp. set (s0 := snd (rand_bytes 4 (tick s))).
  assert (Hlen : blen (next_suffix s) = 4) by (unfold blen, next_suffix; rewrite length_map; done).
  destruct (PutEncrypted_ok (chat_path sid) (chat_key (now s) sender (next_suffix s))
    (chat_value ts payload) s0) as (s1 & E & Hu).
  - done.
  - apply Ho.
  - unfold key_ok, chat_key. rewrite !blen_app, !blen_be_put, Hlen. lia.
  - unfold chat_value. rewrite !blen_app, blen_be_put. change (blen valueMagic) with 5. lia.
  - apply Hs.
  - exists s0, s1. split_and!; [done|done| |done].
    unfold AddChatEntry. unfold gbind at 1. change (clock_Now s) with (Ok (now s) : result Z, tick s).
    cbv iota beta. unfold gbind at 1.
    change (rand_bytes 4 (tick s)) with (Ok (next_suffix s) : result bytes, s0). cbv iota beta zeta.
    fold (chat_key (now s) sender (next_suffix s)) (chat_value ts payload).
    unfold gwrap. erewrite Command_ok; [reflexivity|]. unfold gbind. by rewrite sessionChat_open.
Qed.

(** Adding an entry under a fresh key adds exactly that entry to the history,
    with the sender's timestamp and payload as given; the history is sorted by
    timestamp, then by sender. *)
Theorem chat_history_grows sid payload ts sender s h :
  enigma_wf (s_cipher s) -> session_open s sid "chat" ->
  (forall k, has_bucket (s_db s) (chat_path sid ++ [k]) = false) -> blen payload <= 2 ^ 30 ->
  0 <= sender < 2 ^ 16 -> - 2 ^ 63 <= ts < 2 ^ 63 ->
  bucket_Get (s_db s) (chat_path sid) (chat_key (now s) sender (next_suffix s)) = None ->
  GetChatHistory sid s = Some (Ok h, s) ->
  exists s1 h1, AddChatEntry sid payload ts sender s = (Ok tt, s1) /\
    GetChatHistory sid s1 = Some (Ok h1, s1) /\
    h1 ≡ₚ mkChatEntry ts payload sender :: h /\ Sorted chat_le h1.
Proof.
  intros He Ho Hs Hp Hse Hts Hfresh Hh.
  destruct (AddChatEntry_ok sid payload ts sender s He Ho Hs Hp) as (s0 & s1 & Hf & Hdb & E & Hu).
  set (key := chat_key (now s) sender (next_suffix s)) in *.
  pose proof Hu as (Hf1 & _ & Hbs & Hv & Hget).
  destruct (GetChatHistory_open sid s Ho) as (l & Hnd & Hl & Eh).
  destruct (GetChatHistory_open sid s1) as (l1 & Hnd1 & Hl1 & Eh1).
  { eapply session_open_frame; [|exact Ho]. intros q. by rewrite Hbs, Hdb. }
  assert (Hview : forall j, j <> key -> view s1 (chat_path sid) j = view s (chat_path sid) j).
  { intros j Hj. rewrite (updated_other _ _ _ _ _ _ _ Hu) by (by right).
    unfold view. destruct Hf as (-> & _). by rewrite Hdb. }
  assert (Hnone : view s (chat_path sid) key = None) by (unfold view; by rewrite Hfresh).
  assert (Hperm : l1 ≡ₚ (key, chat_value ts payload) :: l).
  { apply NoDup_Permutation.
    - by eapply NoDup_fmap_1.
    - constructor; [|by eapply NoDup_fmap_1]. rewrite Hl, Hnone. done.
    - intros [k v]. rewrite elem_of_cons, Hl, Hl1. destruct (decide (k = key)) as [->|Hne].
      + rewrite Hv, Hnone. split; [intros [= ->]; by left|]. by intros [[= ->]|].
      + rewrite Hview by done. split; [by right|]. intros [[= ? ?]|?]; done. }
  rewrite Hh in Eh. destruct (chat_entries l) as [es|] eqn:Ees; [|done]. simplify_eq.
  assert (Hrec : chat_entries ((key, chat_value ts payload) :: l)
    = Some (mkChatEntry ts payload sender :: es)).
  { cbn [chat_entries]. subst key. rewrite chat_entry_record; [by rewrite Ees|done|done|].
    unfold blen, next_suffix. by rewrite length_map. }
  destruct (chat_entries_perm _ l1 _ (symmetry Hperm) Hrec) as (es1 & Ees1 & Hp1).
  rewrite Ees1 in Eh1. exists s1, (sort_by chat_le es1). split_and!; [done|done| |].
  - by rewrite !sort_by_perm, <- Hp1.
  - apply sort_by_sorted, chat_le_total.
Qed.

End laws.

(** ** Concrete instances *)

Section sample.
Existing Instance toy_crypto.
Existing Instance wire_runtime.
Existing Instance map_bolt.

Definition sample_peer (firstSeen : Z) : Peer :=
  mkPeer firstSeen zero_time (str "alice") (str "1.0.0") (sample_key 1).

Lemma sample_peers_ready sids :
  sids = [] \/ sids = [sample_sid] -> peers_ready (sample_store sids).
Proof.
  intros Hs. split_and!; [apply sample_enigma|destruct Hs as [-> | ->]; sample_has_bucket|].
  intros k. destruct Hs as [-> | ->]; sample_has_bucket.
Qed.

Lemma sample_peer_valid t : time_ok t -> peer_valid (sample_peer t).
Proof.
  intros Ht. unfold peer_valid, sample_peer. cbn [PublicKey Name AppVersionOf FirstSeen LastSeen].
  split_and!; try done; vm_compute; by repeat constructor.
Qed.

Lemma peer_found_until_expired_witness :
  exists s1 s2, StorePeer (sample_peer zero_time) (sample_store []) = (Ok tt, s1) /\
    (forall q j, q <> [PeersNamespace] \/ j <> peerKey (sample_key 1) ->
       view s2 q j = view (sample_store []) q j) /\
    let p' := stamp (now (sample_store [])) (sample_peer zero_time) in
    if FirstSeen p' + s_expiry (sample_store []) <? now s1 then
      FindPeer (sample_key 1) s1 = (Err (Sentinel ErrPeerExpired), s2) /\
      exists e, FindPeer (sample_key 1) s2 = (Err e, s2) /\ errors_is e ErrMissingItem = true
    else FindPeer (sample_key 1) s1 = (Ok p', s2).
Proof.
  apply (peer_found_until_expired (sample_peer zero_time) (sample_store [])).
  - apply sample_peers_ready. by left.
  - by apply sample_peer_valid.
  - intros i. apply sample_clock.
Defined.

(** A store that knows [sample_peer t]. *)
Lemma sample_stored t :
  time_ok t -> is_zero_time t = false ->
  exists s p, stored_peer s (sample_key 1) p /\ pp_PublicKey p = sample_key 1 /\
    same_frame (sample_store []) s /\
    (forall q, has_bucket (s_db s) q = has_bucket (s_db (sample_store [])) q) /\
    (forall q j, q <> [PeersNamespace] -> bucket_Get (s_db s) q j = None) /\
    forall e x, expired p e x = (t + e <? x).
Proof.
  intros Ht Hz. destruct (StorePeer_ok (sample_peer t) (sample_store [])) as (s & data & _ & Hu & Hd).
  - apply sample_peers_ready. by left.
  - by apply sample_peer_valid.
  - intros i. apply sample_clock.
  - exists s, (pb_of (stamp (now (sample_store [])) (sample_peer t))).
    destruct Hu as (Hf & _ & Hbs & Hv & Hg). split_and!; [by exists data|done|done|done| |].
    + intros q j Hq. rewrite Hg by (by left). apply sample_get.
    + intros e x. rewrite expired_pb_of. cbn [FirstSeen stamp sample_peer]. by rewrite Hz.
Qed.

Lemma session_record_complete_witness :
  exists s p s',
    CreateSession sample_sid (sample_key 1) s = Some (Ok tt, s') /\
    GetPeer sample_sid s' = (Ok (peer_of p), tick s') /\
    GetEstablishedAt sample_sid s' = (Ok (s_clock s (S (s_tpos s))), s') /\
    (forall q j, q <> session_path sample_sid "meta" -> view s' q j = view s q j) /\
    (forall key, key_ok key -> session_ready s' sample_sid key).
Proof.
  destruct (sample_stored (1700000000 * Second)) as (s & p & Hst & Hpk & Hf & Hb & Hg & Hx); [done|done|].
  exists s, p. apply (session_record_complete sample_sid (sample_key 1) p s); try done.
  - destruct Hf as (-> & _). apply sample_enigma.
  - unfold session_names_free. split_and!; [vm_compute; done| |by apply Hg..|].
    + rewrite Hb. sample_has_bucket.
    + intros k. rewrite Hb. unfold session_path. cbn [app]. sample_has_bucket.
  - intros i. destruct Hf as (_ & -> & _). apply sample_clock.
  - intros i. rewrite Hx. destruct Hf as (_ & -> & ->). apply Z.ltb_ge.
    cbn [s_clock s_expiry sample_store]. pose proof (Nat.mod_upper_bound i 1000).
    unfold Hour, Minute, Second. lia.
Defined.

Lemma CreateSession_expired_blocks_witness :
  exists s, CreateSession sample_sid (sample_key 1) s = None.
Proof.
  destruct (sample_stored (1600000000 * Second)) as (s & p & Hst & Hpk & Hf & Hb & Hg & Hx); [done|done|].
  exists s. apply (CreateSession_expired_blocks sample_sid (sample_key 1) p s); [|done|].
  - rewrite Hb. sample_has_bucket.
  - rewrite Hx. unfold now. destruct Hf as (_ & -> & ->). apply Z.ltb_lt.
    cbn [s_clock s_expiry sample_store]. unfold Hour, Minute, Second. lia.
Defined.

Lemma DeleteSession_complete_witness :
  exists s1, DeleteSession sample_sid (sample_store [sample_sid]) = (Ok tt, s1) /\
    DeleteSession sample_sid s1 = (Ok tt, s1) /\
    (forall key, GetMeta sample_sid key s1 = (Ok (mkMeta [] []), s1)) /\
    GetChatHistory sample_sid s1 = Some (Ok [], s1) /\
    (forall q j, ~ [SessionsNamespace; sample_sid] `prefix_of` q ->
       view s1 q j = view (sample_store [sample_sid]) q j).
Proof.
  apply (DeleteSession_complete sample_sid (sample_store [sample_sid])).
  - vm_compute. done.
  - sample_has_bucket.
Defined.

Lemma Attester_stable_witness :
  exists a s1, Attester (sample_store []) = (Ok a, s1) /\ attest_wf a /\ Attester s1 = (Ok a, s1) /\
    forall q j, q <> [DefaultNamespace] \/ j <> attestKey -> view s1 q j = view (sample_store []) q j.
Proof.
  apply (Attester_stable (sample_store [])).
  - apply sample_enigma.
  - sample_has_bucket.
  - sample_has_bucket.
  - apply sample_get.
Defined.

Lemma sample_settings_ready : settings_ready (sample_store []).
Proof. split_and!; [apply sample_enigma|sample_has_bucket|intros k; sample_has_bucket]. Qed.

Lemma settings_isolated_witness :
  exists s1, SetSettings (str "bus") (str "theme") (str "dark") (sample_store []) = (Ok tt, s1) /\
    settings_ready s1 /\
    GetSettings (str "bus") (str "theme") s1 = (Ok (str "dark"), s1) /\
    (colon ∉ str "bus" -> colon ∉ str "tui" -> str "bus" <> str "tui" \/ str "theme" <> str "theme" ->
       fst (GetSettings (str "tui") (str "theme") s1)
       = fst (GetSettings (str "tui") (str "theme") (sample_store []))).
Proof.
  apply (settings_isolated (str "bus") (str "theme") (str "dark") (str "tui") (str "theme")).
  - done.
  - apply sample_settings_ready.
  - vm_compute. done.
  - vm_compute. done.
Defined.

Lemma settings_collide_witness :
  exists s1, SetSettings (str "a:b") (str "c") (str "v") (sample_store []) = (Ok tt, s1) /\
    GetSettings (str "a") (str "b:c") s1 = (Ok (str "v"), s1).
Proof.
  apply (settings_collide (str "v") (sample_store [])).
  - apply sample_settings_ready.
  - vm_compute. done.
Defined.

Lemma chat_history_grows_witness :
  exists s1 h1, AddChatEntry sample_sid (str "hi") 5 1 (sample_store [sample_sid]) = (Ok tt, s1) /\
    GetChatHistory sample_sid s1 = Some (Ok h1, s1) /\
    h1 ≡ₚ [mkChatEntry 5 (str "hi") 1] /\ Sorted chat_le h1.
Proof.
  apply (chat_history_grows sample_sid (str "hi") 5 1 (sample_store [sample_sid]) []).
  - apply sample_enigma.
  - split_and!; sample_has_bucket.
  - intros k. unfold session_path. cbn [app]. sample_has_bucket.
  - vm_compute. done.
  - lia.
  - lia.
  - apply sample_get.
  - reflexivity.
Defined.
End sample.
