(* ===== verification/Session.v ===== *)
(** * Establishing sessions (server.go, dial.go)

    [Server.serve] with [handleNewConnection] and [handleResume], and
    [Dialer.handshake] with [attemptResume]: the HPKE channel, then, over it,
    introductions or a resumption, then the handshake.

    Both sides use the storage through five methods.  They are the interface
    [SessionStore], whose contract [SessionStoreOk] is stated on an abstract
    session record (its tokens, peer and time of establishment); the code below
    is proved against the contract, and [storage_sessions_ok] shows that the
    storage of [Storage] fulfils it. *)

From S2P Require Import Prelude GoErr Process Wire Pb Route Version Crypto Enigma Serde.
From S2P Require Import Transport Exchange Handshake Bolt Engine Storage Sessions.

(** [a.Sub(b)] saturates at the range of a [time.Duration]. *)
Definition time_Sub (a b : Z) : Z := Z.max (- 2 ^ 63) (Z.min (2 ^ 63 - 1) (a - b)).

(** ** The storage, as the protocol uses it *)

Class SessionStore (St : Type) := {
  ss_SetMeta : bytes -> Meta -> go St unit;
  ss_PopList : bytes -> bytes -> go St bytes;
  ss_RemoveListItem : bytes -> bytes -> bytes -> go St unit;
  ss_GetPeer : bytes -> go St Peer;
  ss_GetEstablishedAt : bytes -> go St Z
}.

(** The package variables [AppVersion] and [localSemver] of one side (a build
    can override the former); [release_ok] is what [init] establishes. *)
Record release := mkRelease { rel_version : bytes; rel_semver : semver }.
Definition release_ok (v : release) : Prop := parseSemver (rel_version v) = Ok (rel_semver v).
Definition shipped : release := mkRelease AppVersion (mkSemver 0 7 0).

(** What a session record holds. *)
Record session_rec := mkRec { sr_tokens : list bytes; sr_peer : Peer; sr_established : Z }.

Definition with_tokens (l : list bytes) (r : session_rec) : session_rec :=
  mkRec l (sr_peer r) (sr_established r).

Class SessionStoreOk (St : Type) `{SessionStore St} := {
  (* the store holds this record under this session ID *)
  records : St -> bytes -> session_rec -> Prop;
  (* the session has no record *)
  unrecorded : St -> bytes -> Prop;
  records_tokens s sid r : records s sid r ->
    Forall (fun x => blen x = ElemSize) (sr_tokens r);
  set_tokens_ok s sid r l : records s sid r -> Forall (fun x => blen x = ElemSize) l ->
    Z.of_nat (length l) <= 2 ^ 20 ->
    exists s', ss_SetMeta sid (NewByteSlicesMeta ResumptionTokensKey l) s = (Ok tt, s') /\
      records s' sid (with_tokens l r);
  set_unrecorded s sid m : unrecorded s sid -> exists e, ss_SetMeta sid m s = (Err e, s);
  pop_ok s sid r x l : records s sid r -> sr_tokens r = x :: l ->
    exists s', ss_PopList sid ResumptionTokensKey s = (Ok x, s') /\ records s' sid (with_tokens l r);
  remove_ok s sid r x : records s sid r -> x ∈ sr_tokens r ->
    exists s' l, ss_RemoveListItem sid ResumptionTokensKey x s = (Ok tt, s') /\
      sr_tokens r ≡ₚ x :: l /\ records s' sid (with_tokens l r);
  remove_absent s sid r x : records s sid r -> x ∉ sr_tokens r ->
    exists e, ss_RemoveListItem sid ResumptionTokensKey x s = (Err e, s);
  get_peer_ok s sid r : records s sid r ->
    exists s', ss_GetPeer sid s = (Ok (sr_peer r), s') /\ records s' sid r;
  get_established_ok s sid r : records s sid r ->
    ss_GetEstablishedAt sid s = (Ok (sr_established r), s)
}.

Section session.
Context `{Crypto} `{ProtoRuntime} {St : Type} `{SessionStore St}.

(** [_ = storage.SetMeta(t.sessionID, NewByteSlicesMeta(..., t.deriveResumptionTokens()))] *)
Definition store_tokens (t : Transport) : prog St unit :=
  do _ <- ask (Local (ss_SetMeta (t_sessionID t)
                 (NewByteSlicesMeta ResumptionTokensKey (default [] (deriveResumptionTokens t)))));
  Ret tt.

(** A deferred call runs on a panic too, which then goes on. *)
Definition on_panic {A} (p : prog St A) (cleanup : prog St unit) : prog St A :=
  precover (fun msg => do _ <- cleanup; Panic msg) p.

(** A [defer] that runs when the function fails.  When it succeeds, the
    deferred calls of the two server functions run after the handler, which is
    called outside of the channel (see [serve]). *)
Definition on_error {A} (p : prog St (result A)) (cleanup : prog St unit) : prog St (result A) :=
  do r <- on_panic p cleanup;
  match r with
  | Ok a => Ret (Ok a)
  | Err e => do _ <- cleanup; Ret (Err e)
  end.

Definition set_deadline (t : Z) : prog St unit := do _ <- ask (SetDeadline t); Ret tt.

Definition arm_deadline (timeout : Z) : prog St unit :=
  do t <- ask Now; set_deadline (t + timeout).

(** ** server.go *)

Record Server := mkServer {
  sv_release : release;
  sv_attest : Attest;
  sv_serverName : bytes;
  sv_opts : handshakeOpts (St := St);
  sv_resumeEnabled : bool;
  sv_handlerFunc : Transport -> prog St (result unit)
}.

(** [handleNewConnection] up to the call of the handler. *)
Definition handleNewConnection (s : Server) (st : SignedTransport) : prog St (result Transport) :=
  do _ <- arm_deadline (ho_timeout (sv_opts s));
  on_error
    (match receiveIntroduction st with
     | Err e => Ret (Err (wrapf "receiving introduction" e))
     | Ok (peer, remoteVersion) =>
         match checkVersion (rel_semver (sv_release s)) remoteVersion with
         | Err e => Ret (Err (wrapf "version check" e))
         | Ok _ =>
             try _ <- ho_remoteVerifier (sv_opts s) peer or "verify remote";
             try _ <- sendIntroduction (sv_attest s) (sv_serverName s) (rel_version (sv_release s))
               or "sending introduction";
             let serde := newSignedSerde (PublicKey peer) (sv_attest s) in
             try t <- acceptHandshake serde (sv_opts s) or "accepting handshake";
             do _ <- store_tokens t;
             Ret (Ok (set_remotePeer peer t))
         end
     end) (set_deadline zero_time).

(** [sendResumeAccept(ec, s.attest, false)] and the error that follows. *)
Definition reject (s : Server) (msg : string) : prog St (result Transport) :=
  try _ <- sendResumeAccept (sv_attest s) false or "sending resume accept";
  Ret (Err (errorf msg)).

(** [handleResume] up to the call of the handler. *)
Definition handleResume (s : Server) (st : SignedTransport) : prog St (result Transport) :=
  do _ <- arm_deadline (ho_timeout (sv_opts s));
  on_error
    (match unmarshal_result (M := ResumeRequest) (st_Data st) with
     | Err e => Ret (Err (wrapf "deserializing resume request" e))
     | Ok req =>
         let sessionID := rr_SessionID req in
         do removed <- ask (Local (ss_RemoveListItem sessionID ResumptionTokensKey (rr_Token req)));
         match removed with
         | Err _ => reject s "resume rejected: token invalid"
         | Ok _ =>
             try peer <- ask (Local (ss_GetPeer sessionID)) or "get session peer";
             try establishedAt <- ask (Local (ss_GetEstablishedAt sessionID))
               or "get session established_at";
             if negb (Verify (PublicKey peer) (signingInput (st_Metadata st) (st_Data st))
                        (st_Signature st))
             then reject s "resume rejected: invalid signature"
             else
               do t <- ask Now;
               if resumptionGracePeriod <? time_Sub t establishedAt
               then reject s "resume rejected: session expired"
               else
                 try _ <- sendResumeAccept (sv_attest s) true or "sending resume accept";
                 let serde := newSignedSerde (PublicKey peer) (sv_attest s) in
                 let opts := mkHandshakeOpts (ho_remoteVerifier (sv_opts s)) sessionID
                               (ho_timeout (sv_opts s)) in
                 try t <- acceptHandshake serde opts or "accepting handshake after resume";
                 do _ <- store_tokens t;
                 Ret (Ok (set_remotePeer peer t))
         end
     end) (set_deadline zero_time).

(** The part of [serve] that runs over the channel. *)
Definition serve_over (s : Server) : prog St (result Transport) :=
  try st <- readSignedTransport or "reading transport";
  match routeFromST st with
  | Err e => Ret (Err (wrapf "extracting route" e))
  | Ok route =>
      if route =? RouteIdentity then handleNewConnection s st
      else if route =? RouteResumeRequest then
        if negb (sv_resumeEnabled s) then Ret (Err (unexpected_route RouteIdentity route))
        else handleResume s st
      else Ret (Err (unexpected_route RouteIdentity route))
  end.

(** Everything before the handler. *)
Definition establish (s : Server) : prog St (result Transport) :=
  try ec <- Accept or "accepting exchange";
  over_channel ec (serve_over s).

Definition serve (s : Server) : prog St (result unit) :=
  do r <- precover (fun _ => Ret (Err (errorf "serve panic")))
    (do r <- establish s;
     match r with
     | Err e => Ret (Err e)
     | Ok t =>
         do h <- on_panic (sv_handlerFunc s t) (set_deadline zero_time);
         do _ <- set_deadline zero_time;
         Ret (map_err (wrapf "handler") h)
     end);
  do _ <- ask CloseConn;
  Ret r.

(** ** dial.go *)

Record Dialer := mkDialer {
  d_release : release;
  d_attest : Attest;
  d_clientName : bytes;
  d_opts : handshakeOpts (St := St)
}.

Definition attemptResume (d : Dialer) : prog St (result Transport) :=
  let sessionID := ho_sessionID (d_opts d) in
  try token <- ask (Local (ss_PopList sessionID ResumptionTokensKey)) or "getting resumption token";
  try peer <- ask (Local (ss_GetPeer sessionID)) or "getting session peer";
  try _ <- sendResumeRequest (d_attest d) sessionID token or "sending resume request";
  try (accepted, reason) <- receiveResumeAccept (PublicKey peer) or "receiving resume accept";
  if negb accepted then Ret (Err (wrapf "" (Sentinel ErrResumptionRejected)))
  else
    let serde := newSignedSerde (PublicKey peer) (d_attest d) in
    try t <- requestHandshake serde (d_opts d) or "request handshake after resume";
    do _ <- store_tokens t;
    Ret (Ok (set_remotePeer peer t)).

(** [Dialer.handshake] without a session to resume, over the channel. *)
Definition introduce (d : Dialer) : prog St (result Transport) :=
  try _ <- sendIntroduction (d_attest d) (d_clientName d) (rel_version (d_release d)) or "send introduction";
  try st <- readSignedTransport or "read transport";
  match routeFromST st with
  | Err e => Ret (Err (wrapf "extracting route" e))
  | Ok r =>
      if negb (r =? RouteIdentity) then Ret (Err (unexpected_route RouteIdentity r))
      else
        match receiveIntroduction st with
        | Err e => Ret (Err (wrapf "receive introduction" e))
        | Ok (peer, remoteVersion) =>
            match checkVersion (rel_semver (d_release d)) remoteVersion with
            | Err e => Ret (Err (wrapf "version check" e))
            | Ok _ =>
                try _ <- ho_remoteVerifier (d_opts d) peer or "verify remote";
                let serde := newSignedSerde (PublicKey peer) (d_attest d) in
                try t <- requestHandshake serde (d_opts d) or "request handshake";
                do _ <- store_tokens t;
                Ret (Ok (set_remotePeer peer t))
            end
        end
  end.

(** [Dialer.handshake] between its two deferred functions. *)
Definition dial_over (d : Dialer) : prog St (result Transport) :=
  if bool_decide (ho_sessionID (d_opts d) = []) then introduce d
  else try t <- attemptResume d or "attempt resume"; Ret (Ok t).

Definition handshake_body (d : Dialer) : prog St (result Transport) :=
  do _ <- arm_deadline (ho_timeout (d_opts d));
  do r <- on_panic (try ec <- Initiate or "initiate exchange"; over_channel ec (dial_over d))
            (set_deadline zero_time);
  do _ <- set_deadline zero_time;
  Ret r.

Definition handshake (d : Dialer) : prog St (result Transport) :=
  precover (fun _ => do _ <- ask CloseConn; Ret (Err (errorf "handshake panic"))) (handshake_body d).

(** [dialed] is the outcome of [d.dial]: the connection the events refer to. *)
Definition Dial (d : Dialer) (dialed : result unit) : prog St (result Transport) :=
  match dialed with
  | Err e => Ret (Err (wrapf "dialing" e))
  | Ok _ =>
      do r <- handshake d;
      match r with
      | Err e => do _ <- ask CloseConn; Ret (Err (wrapf "handshake" e))
      | Ok t => Ret (Ok t)
      end
  end.

End session.
Arguments Server : clear implicits.
Arguments Dialer : clear implicits.

(** ** One signed message *)

Section laws.
Context `{Crypto} `{ProtoRuntime} {St : Type} `{!CryptoOk _} `{!ProtoRuntimeOk _}.
Implicit Types (w wt wu : world St).

(** What the reader of a signed message finds. *)
Definition signed_by (at_ : Attest) (st : SignedTransport) (message : bytes) (route : Route) : Prop :=
  st_Data st = message /\ routeFromST st = Ok route /\
  st_Signature st = ed25519_Sign (privateKey at_) (signingInput (st_Metadata st) message).

Lemma signed_by_verifies at_ pk st message route :
  attest_wf at_ -> MarshalPublicKey at_ = Some pk -> signed_by at_ st message route ->
  Verify pk (signingInput (st_Metadata st) (st_Data st)) (st_Signature st) = true.
Proof.
  intros Hw Hpk (Hd & _ & Hs). rewrite Hd, Hs. by eapply Verify_Sign.
Qed.

Lemma write_signed_ok me at_ message md signing route w :
  msg_wf md -> ascii_only (md_ID md) -> blen (md_ID md) <= 26 -> 0 <= md_Sequence md < 2 ^ 64 ->
  md_Route md = ToProto route -> IsValid route = true -> blen message <= maxTransportSize ->
  exists payload st w',
    follows me (write_signed at_ message md signing) [(me, payload)] w = Some (Ok tt, w') /\
    Unmarshal payload = Some st /\ signed_by at_ st message route /\
    blen payload <= frameTargetSize /\ w_store w' = w_store w.
Proof.
  intros Hmd Hasc Hid Hseq Hr Hv Hl.
  destruct (marshal_ascii md) as [mb Emb]; [by apply Forall_singleton|].
  set (sig := ed25519_Sign (privateKey at_) (signingInput mb message)).
  pose proof (metadata_size md Hid Hseq) as Hms. rewrite <- (marshal_size _ _ Emb) in Hms.
  pose proof (envelope_size message sig mb Hl (sign_len _ _) Hms) as [Hes _].
  pose proof (padSignedTransport_spec (mkSignedTransport message sig mb []) w) as Hpad. cbv zeta in Hpad.
  destruct Hpad as (pad & payload & w' & Hrun & Hpl & Hst & Hfit & _).
  destruct Hfit as [Hmax _].
  { change (with_padding _ []) with (mkSignedTransport message sig mb []).
    unfold frameTargetSize, MaxUint16, encryptionOverhead. lia. }
  exists payload, (mkSignedTransport message sig mb pad), w'. split_and!; [| |split_and!|done|done].
  - unfold write_signed, marshal_result. rewrite Emb. cbn [of_option Sign]. fold sig.
    rewrite (follows_bind_local _ _ _ _ _ _ _ Hrun). cbn.
    by rewrite eqb_reflx, bool_decide_eq_true_2.
  - apply unmarshal_marshal; [|done]. eapply SignedTransport_wf; [exact Hpl|].
    unfold frameTargetSize, MaxUint16, encryptionOverhead in Hmax. lia.
  - done.
  - unfold routeFromST, unmarshal_result. cbn [st_Metadata].
    rewrite (unmarshal_marshal _ _ Hmd Emb). cbn [of_option]. by rewrite Hr, ToProto_valid.
  - done.
Qed.

(** ** Introductions *)

(** What a side needs to introduce itself under the key [pk]. *)
Definition identity (at_ : Attest) (name version pk : bytes) : Prop :=
  attest_wf at_ /\ MarshalPublicKey at_ = Some pk /\ blen pk = 44 /\
  ascii_only name /\ blen name <= 1000 /\ ascii_only version /\ blen version <= 1000.

Definition introduced (name version pk : bytes) : Peer := mkPeer zero_time zero_time name version pk.

Lemma introduction_delivered me at_ name version pk w :
  identity at_ name version pk -> clock_ok w ->
  exists payload st w',
    follows me (sendIntroduction at_ name version) [(me, payload)] w = Some (Ok tt, w') /\
    Unmarshal payload = Some st /\ routeFromST st = Ok RouteIdentity /\
    receiveIntroduction st = Ok (introduced name version pk, version) /\
    blen payload <= frameTargetSize /\ w_store w' = w_store w.
Proof.
  intros (Hw & Hpk & Hl & Hn & Hnl & Hv & Hvl) Hc.
  set (intro := mkIntroduce name pk version).
  destruct (marshal_ascii intro) as [message Em]; [by repeat constructor|].
  assert (Hwf : msg_wf intro) by (cbn; unfold short; lia).
  assert (Hml : blen message <= maxTransportSize).
  { rewrite (marshal_size _ _ Em), size_fields. simpl fields. rewrite !wire_size_app.
    rewrite !wire_size_opt_bytes by lia. rewrite Hl.
    pose proof (blen_nonneg name). pose proof (blen_nonneg version).
    pose proof (uvarint_len_mono_3 (blen name) ltac:(lia)).
    pose proof (uvarint_len_mono_3 (blen version) ltac:(lia)).
    pose proof (uvarint_len_mono_3 44 ltac:(lia)).
    unfold maxTransportSize, MaxUint16, reservedProtocolOverhead. repeat case_match; lia. }
  set (ts := timestamp_new (w_clock w (w_tpos w))).
  set (md := mkMetadata [] (Some ts) 0 (ToProto RouteIdentity)).
  destruct (write_signed_ok me at_ message md "signing message" RouteIdentity (after_now w))
    as (payload & st & w' & Hf & Hu & Hs & Hmax & Hst); try done; [|by constructor|].
  { cbn. unfold short. split_and!; [done|by apply timestamp_new_wf, Hc|lia|lia|done|done]. }
  exists payload, st, w'. split_and!; try done.
  - unfold sendIntroduction. rewrite Hpk. unfold marshal_result. fold intro. rewrite Em.
    cbn [of_option]. unfold timestamppb_Now. cbn [pbind ask follows]. exact Hf.
  - apply Hs.
  - pose proof Hs as (Hd & Hr & _). unfold receiveIntroduction. rewrite Hr.
    change (negb (RouteIdentity =? RouteIdentity)) with false. cbv iota. rewrite Hd.
    unfold unmarshal_result. rewrite (unmarshal_marshal _ _ Hwf Em). cbn [of_option in_PublicKey intro].
    rewrite <- Hd at 1. by rewrite (signed_by_verifies at_ pk st message RouteIdentity Hw Hpk Hs).
Qed.

(** ** Resumption messages *)

Lemma resume_request_delivered me at_ sid token w :
  ascii_only sid -> blen sid <= 1000 -> blen token <= 1000 ->
  exists payload st message w',
    follows me (sendResumeRequest at_ sid token) [(me, payload)] w = Some (Ok tt, w') /\
    Unmarshal payload = Some st /\ signed_by at_ st message RouteResumeRequest /\
    Unmarshal (st_Data st) = Some (mkResumeRequest sid token) /\
    blen payload <= frameTargetSize /\ w_store w' = w_store w.
Proof.
  intros Ha Hs Ht. set (req := mkResumeRequest sid token).
  destruct (marshal_ascii req) as [message Em]; [by repeat constructor|].
  assert (Hwf : msg_wf req) by (cbn; unfold short; lia).
  assert (Hml : blen message <= maxTransportSize).
  { rewrite (marshal_size _ _ Em), size_fields. simpl fields. rewrite !wire_size_app.
    rewrite !wire_size_opt_bytes by lia.
    pose proof (blen_nonneg sid). pose proof (blen_nonneg token).
    pose proof (uvarint_len_mono_3 (blen sid) ltac:(lia)).
    pose proof (uvarint_len_mono_3 (blen token) ltac:(lia)).
    unfold maxTransportSize, MaxUint16, reservedProtocolOverhead. repeat case_match; lia. }
  set (md := mkMetadata [] None 0 (ToProto RouteResumeRequest)).
  destruct (write_signed_ok me at_ message md "signing resume request" RouteResumeRequest w)
    as (payload & st & w' & Hf & Hu & Hsb & Hmax & Hst); try done; [by constructor|].
  exists payload, st, message, w'. split_and!; try done.
  - unfold sendResumeRequest. unfold marshal_result. fold req. rewrite Em. exact Hf.
  - rewrite (proj1 Hsb). by apply unmarshal_marshal.
Qed.

Lemma resume_accept_delivered me at_ pk accepted w wt :
  attest_wf at_ -> MarshalPublicKey at_ = Some pk ->
  exists payload w',
    follows me (sendResumeAccept at_ accepted) [(me, payload)] w = Some (Ok tt, w') /\
    follows (negb me) (receiveResumeAccept pk) [(me, payload)] wt
      = Some (Ok (accepted, if accepted then [] else str "resumption not available"), wt) /\
    blen payload <= frameTargetSize /\ w_store w' = w_store w.
Proof.
  intros Hw Hpk.
  set (acc := mkResumeAccept accepted (if accepted then [] else str "resumption not available")).
  destruct (marshal_ascii acc) as [message Em].
  { destruct accepted; vm_compute; by repeat constructor. }
  assert (Hwf : msg_wf acc) by (destruct accepted; vm_compute; done).
  assert (Hml : blen message <= maxTransportSize).
  { rewrite (marshal_size _ _ Em), size_fields. destruct accepted; vm_compute; done. }
  set (md := mkMetadata [] None 0 (ToProto RouteResumeAccept)).
  destruct (write_signed_ok me at_ message md "signing resume accept" RouteResumeAccept w)
    as (payload & st & w' & Hf & Hu & Hsb & Hmax & Hst); try done; [by constructor|].
  exists payload, w'. split_and!; try done.
  - unfold sendResumeAccept, marshal_result. fold acc. rewrite Em. exact Hf.
  - pose proof Hsb as (Hd & Hr & _). unfold receiveResumeAccept, readSignedTransport.
    cbn [pbind ask follows]. assert (eqb me (negb me) = false) as -> by (by destruct me).
    unfold unmarshal_result at 1. rewrite Hu. cbn [of_option]. rewrite Hr.
    change (negb (RouteResumeAccept =? RouteResumeAccept)) with false. cbv iota.
    rewrite (signed_by_verifies at_ pk st message RouteResumeAccept Hw Hpk Hsb). cbn [negb].
    unfold unmarshal_result. rewrite Hd. by rewrite (unmarshal_marshal _ _ Hwf Em).
Qed.

End laws.

(** ** Honest sessions *)

Section honest.
Context `{Crypto} `{ProtoRuntime} {St : Type} `{SessionStore St} `{!CryptoOk _} `{!ProtoRuntimeOk _}.
Implicit Types (w wt wu : world St) (d : Dialer St) (s : Server St).

(** A verifier that accepts [peer] and keeps the storage within [I]. *)
Definition accepts (v : Peer -> prog St (result unit)) (peer : Peer) (I : St -> Prop) : Prop :=
  forall w, I (w_store w) -> exists w', run_local (v peer) w = Some (Ok tt, w') /\ I (w_store w').

(** The identities of the two sides and the releases they run. *)
Definition acquainted d s (pkA pkB : bytes) : Prop :=
  identity (d_attest d) (d_clientName d) (rel_version (d_release d)) pkA /\
  identity (sv_attest s) (sv_serverName s) (rel_version (sv_release s)) pkB /\
  release_ok (d_release d) /\ release_ok (sv_release s) /\
  compatible (rel_semver (d_release d)) (rel_semver (sv_release s)).

Lemma compatible_sym a b : compatible a b -> compatible b a.
Proof. unfold compatible. intros [E Hm]. split; [done|]. rewrite <- E. intros Hz. symmetry. auto. Qed.

Lemma checkVersion_compatible a remote b :
  parseSemver remote = Ok b -> compatible a b -> exists warn, checkVersion a remote = Ok warn.
Proof.
  intros Hp [E Hm]. unfold checkVersion. rewrite Hp, E, Z.eqb_refl. cbn [negb].
  destruct (Z.eqb_spec (major b) 0) as [Ez|]; cbn [andb].
  - rewrite Hm by congruence. rewrite Z.eqb_refl. by exists false.
  - destruct (minor a =? minor b); by eexists.
Qed.

Lemma identity_trusts a n v pk sa sb :
  identity a n v pk -> serde_attest sa = a -> serde_remote sb = pk -> trusts sb sa.
Proof. intros (Hw & Hpk & _) <- <-. by split. Qed.

Lemma follows_on_error {A} me (p : prog St (result A)) c tr w a w' :
  follows me p tr w = Some (Ok a, w') -> follows me (on_error p c) tr w = Some (Ok a, w').
Proof.
  intros Hp. unfold on_error, on_panic. apply (follows_precover _ (fun m => do _ <- c; Panic m)) in Hp.
  rewrite <- (app_nil_r tr). by ftrace Hp.
Qed.

(** The store after [store_tokens t] from the store [s]. *)
Definition tokens_stored (t : Transport) (s : St) : St :=
  snd (ss_SetMeta (t_sessionID t)
         (NewByteSlicesMeta ResumptionTokensKey (default [] (deriveResumptionTokens t))) s).

Lemma run_store_tokens t w :
  run_local (store_tokens t) w = Some (tt, set_store (tokens_stored t (w_store w)) w).
Proof.
  unfold store_tokens, tokens_stored. cbn [pbind ask run_local local_step].
  by destruct (ss_SetMeta _ _ _).
Qed.

Lemma agreed_remotePeer sid tA tB p q :
  agreed sid tA tB -> agreed sid (set_remotePeer p tA) (set_remotePeer q tB).
Proof. intros (? & ? & ? & ? & ? & ? & ?). unfold agreed. by split_and!. Qed.

(** Cold start over the channel: introductions, then the handshake. *)
Lemma cold_over d s pkA pkB I wA wB :
  acquainted d s pkA pkB -> clock_ok wA -> clock_ok wB ->
  ho_sessionID (d_opts d) = [] -> ho_sessionID (sv_opts s) = [] ->
  accepts (ho_remoteVerifier (d_opts d))
    (introduced (sv_serverName s) (rel_version (sv_release s)) pkB) I ->
  accepts (ho_remoteVerifier (sv_opts s))
    (introduced (d_clientName d) (rel_version (d_release d)) pkA) I ->
  I (w_store wA) -> I (w_store wB) ->
  exists tr tA tB wA' wB' sA sB,
    follows true (introduce d) tr wA = Some (Ok tA, wA') /\
    follows false (serve_over s) tr wB = Some (Ok tB, wB') /\
    agreed [] tA tB /\
    t_remotePeer tA = Some (introduced (sv_serverName s) (rel_version (sv_release s)) pkB) /\
    t_remotePeer tB = Some (introduced (d_clientName d) (rel_version (d_release d)) pkA) /\
    Forall (fun m => blen (snd m) <= frameTargetSize) tr /\ length tr = 8%nat /\
    I sA /\ w_store wA' = tokens_stored tA sA /\ I sB /\ w_store wB' = tokens_stored tB sB.
Proof.
  intros (IA & IB & RA & RB & HcAB) HcA HcB SA SB VA VB HIA HIB.
  destruct (checkVersion_compatible _ _ _ RB HcAB) as [warnA EcA].
  destruct (checkVersion_compatible _ _ _ RA (compatible_sym _ _ HcAB)) as [warnB EcB].
  destruct (introduction_delivered true (d_attest d) (d_clientName d) (rel_version (d_release d)) pkA wA IA HcA)
    as (pA & stA & wA1 & FA & UA & RtA & RcA & LA & StA).
  set (wB1 := after_now wB).
  destruct (VB wB1 HIB) as (wB2 & EVB & HIB2).
  destruct (introduction_delivered false (sv_attest s) (sv_serverName s) (rel_version (sv_release s)) pkB wB2 IB)
    as (pB & stB & wB3 & FB & UB & RtB & RcB & LB & StB).
  { unfold clock_ok. rewrite (run_local_clock _ _ _ _ EVB). exact HcB. }
  destruct (VA wA1) as (wA2 & EVA & HIA2); [by rewrite StA|].
  set (sA := newSignedSerde pkB (d_attest d)). set (sB := newSignedSerde pkA (sv_attest s)).
  destruct (handshake_agrees sA sB (d_opts d) (sv_opts s) wA2 wB3)
    as (tr & tA & tB & wA3 & wB4 & HA & HB & Hag & Lt & Nt & SA3 & SB4).
  { eapply identity_trusts; [exact IA|done|done]. }
  { eapply identity_trusts; [exact IB|done|done]. }
  { unfold clock_ok. rewrite (run_local_clock _ _ _ _ EVA), (follows_clock _ _ _ _ _ _ FA). exact HcA. }
  { unfold clock_ok. rewrite (follows_clock _ _ _ _ _ _ FB), (run_local_clock _ _ _ _ EVB). exact HcB. }
  { congruence. }
  { rewrite SA. by left. }
  eexists ([(true, pA)] ++ [(false, pB)] ++ tr ++ []), (set_remotePeer _ tA), (set_remotePeer _ tB),
    (set_store (tokens_stored tA (w_store wA3)) wA3), (set_store (tokens_stored tB (w_store wB4)) wB4),
    (w_store wA3), (w_store wB4). rewrite SA in Hag.
  split_and!.
  - unfold introduce. ftrace FA. unfold readSignedTransport. cbn [pbind ask follows app eqb].
    unfold unmarshal_result at 1. rewrite UB. cbn [of_option]. rewrite RtB.
    change (negb (RouteIdentity =? RouteIdentity)) with false. cbv iota. rewrite RcB, EcA.
    flocal EVA. cbn [PublicKey introduced]. fold sA. ftrace HA.
    rewrite (follows_bind_local _ _ _ _ _ _ _ (run_store_tokens tA wA3)). reflexivity.
  - unfold serve_over, readSignedTransport. cbn [pbind ask follows app eqb].
    unfold unmarshal_result at 1. rewrite UA. cbn [of_option]. rewrite RtA.
    change (RouteIdentity =? RouteIdentity) with true. cbv iota.
    unfold handleNewConnection, arm_deadline, set_deadline. cbn [pbind ask follows].
    fold wB1. apply follows_on_error. rewrite RcA, EcB. flocal EVB.
    change ((false, pB) :: tr ++ []) with ([(false, pB)] ++ tr ++ []). ftrace FB.
    cbn [PublicKey introduced]. fold sB. ftrace HB.
    rewrite (follows_bind_local _ _ _ _ _ _ _ (run_store_tokens tB wB4)). reflexivity.
  - by apply agreed_remotePeer.
  - done.
  - done.
  - repeat constructor; [done|done|]. rewrite app_nil_r. done.
  - rewrite !length_app, Nt. done.
  - by rewrite SA3.
  - done.
  - by rewrite SB4, StB.
  - done.
Qed.

(** ** Over the channel *)

Lemma sealed_small ch ch' n k tr :
  synced n k ch ch' -> 0 <= n -> 0 <= k ->
  n + Z.of_nat (length tr) < 2 ^ 64 -> k + Z.of_nat (length tr) < 2 ^ 64 ->
  Forall (fun m => blen (snd m) <= frameTargetSize) tr ->
  Forall (fun m => blen (snd m) <= MaxUint16) (sealed true ch ch' tr).
Proof.
  intros Hs Hn Hk Ln Lk Hf. revert ch ch' n k Hs Hn Hk Ln Lk.
  induction Hf as [|[[] m] tr Hm _ IH]; intros ch ch' n k Hs Hn Hk Ln Lk; cbn [length] in *;
    [constructor| |].
  - destruct (sealed_mine true ch ch' m tr n k Hs ltac:(lia)) as (ct & s' & rc & _ & Hl & E & _ & Hs').
    rewrite E. constructor; [|eapply IH; [exact Hs'|lia..]]. cbn [snd] in *. rewrite Hl.
    unfold frameTargetSize, MaxUint16, encryptionOverhead, HpkeTagSize in *. lia.
  - destruct (sealed_theirs true ch ch' m tr n k Hs ltac:(lia)) as (ct & s' & rc & _ & Hl & E & _ & Hs').
    cbn [negb] in E. rewrite E. constructor; [|eapply IH; [exact Hs'|lia..]]. cbn [snd] in *. rewrite Hl.
    unfold frameTargetSize, MaxUint16, encryptionOverhead, HpkeTagSize in *. lia.
Qed.

(** Both sides set up the channel and then follow, over it, what they follow on
    a plain connection; every message fits a frame. *)
Lemma over_exchange d s wA wB :
  exists w1 w2,
    w_store w1 = w_store wA /\ w_store w2 = w_store wB /\
    w_clock w1 = w_clock wA /\ w_clock w2 = w_clock wB /\
    forall tr tA tB wA' wB', (length tr <= 1000)%nat ->
      Forall (fun m => blen (snd m) <= frameTargetSize) tr ->
      follows true (dial_over d) tr w1 = Some (Ok tA, wA') ->
      follows false (serve_over s) tr w2 = Some (Ok tB, wB') ->
      exists tr', follows true (Dial d (Ok tt)) tr' wA = Some (Ok tA, wA') /\
        follows false (establish s) tr' wB = Some (Ok tB, wB') /\
        Forall (fun m => blen (snd m) <= MaxUint16) tr'.
Proof.
  destruct (exchange_setup (after_now wA) wB)
    as (tr3 & chI & chA & w1 & w2 & FI & FA & Hsync & L3 & Hf3 & S1 & S2).
  exists w1, w2. split_and!; try done.
  { by rewrite (follows_clock _ _ _ _ _ _ FI). }
  { by rewrite (follows_clock _ _ _ _ _ _ FA). }
  intros tr tA tB wA' wB' Hl Hf HA HB. exists (tr3 ++ sealed true chI chA tr). split_and!.
  - assert (Hin : follows true (try ec <- Initiate or "initiate exchange"; over_channel ec (dial_over d))
      (tr3 ++ sealed true chI chA tr) (after_now wA) = Some (Ok tA, wA')).
    { ftrace FI. eapply channel_transparent; [exact Hsync|lia|lia|lia|lia|exact HA]. }
    assert (Hh : follows true (handshake d) (tr3 ++ sealed true chI chA tr) wA = Some (Ok tA, wA')).
    { apply follows_precover. unfold handshake_body, arm_deadline, set_deadline.
      cbn [pbind ask follows]. rewrite <- (app_nil_r (tr3 ++ _)). unfold on_panic.
      apply (follows_precover _ (fun m => do _ <- set_deadline zero_time; Panic m)) in Hin.
      by ftrace Hin. }
    unfold Dial. rewrite <- (app_nil_r (tr3 ++ _)). by ftrace Hh.
  - unfold establish. ftrace FA.
    change (sealed true chI chA tr) with (sealed false chA chI tr).
    eapply channel_transparent; [split; apply Hsync|lia|lia|lia|lia|exact HB].
  - apply Forall_app. split; [done|]. eapply sealed_small; [exact Hsync|lia|lia|lia|lia|done].
Qed.

(** C1: Two honest parties that know nothing of each other but run compatible
    releases, and whose verifiers accept the other's introduction, establish a
    session whatever the interleaving: every schedule is finite and ends with
    both holding the two ends of one session, each knowing the other's key. *)
Theorem cold_session_established d s pkA pkB I wA wB :
  acquainted d s pkA pkB -> clock_ok wA -> clock_ok wB ->
  ho_sessionID (d_opts d) = [] -> ho_sessionID (sv_opts s) = [] ->
  accepts (ho_remoteVerifier (d_opts d))
    (introduced (sv_serverName s) (rel_version (sv_release s)) pkB) I ->
  accepts (ho_remoteVerifier (sv_opts s))
    (introduced (d_clientName d) (rel_version (d_release d)) pkA) I ->
  I (w_store wA) -> I (w_store wB) ->
  exists tA tB wA' wB' n,
    agreed [] tA tB /\
    t_remotePeer tA = Some (introduced (sv_serverName s) (rel_version (sv_release s)) pkB) /\
    t_remotePeer tB = Some (introduced (d_clientName d) (rel_version (d_release d)) pkA) /\
    let start := Config (Dial d (Ok tt)) [] wA (establish s) [] wB in
    let final := Config (Ret (Ok tA)) [] wA' (Ret (Ok tB)) [] wB' in
    sched n start final /\
    forall m e, sched m start e -> (m <= n)%nat /\ (stuck e -> e = final).
Proof.
  intros Hacq HcA HcB SA SB VA VB HIA HIB.
  destruct (over_exchange d s wA wB) as (w1 & w2 & S1 & S2 & C1 & C2 & Hover).
  destruct (cold_over d s pkA pkB I w1 w2 Hacq) as
    (tr & tA & tB & wA' & wB' & sA & sB & FA & FB & Hag & PA & PB & Lt & Nt & _); try done.
  { unfold clock_ok. by rewrite C1. }
  { unfold clock_ok. by rewrite C2. }
  { by rewrite S1. }
  { by rewrite S2. }
  destruct (Hover tr tA tB wA' wB') as (tr' & GA & GB & _); [lia|done| |done|].
  { unfold dial_over. by rewrite SA, bool_decide_eq_true_2. }
  destruct (follows_every_schedule _ _ _ _ _ _ _ _ _ GA GB) as (n & Hn & Hall).
  exists tA, tB, wA', wB', n. by split_and!.
Qed.


Context `{!SessionStoreOk St}.

Lemma agreed_tokens sid tA tB :
  agreed sid tA tB ->
  exists tokens, deriveResumptionTokens tA = Some tokens /\ deriveResumptionTokens tB = Some tokens /\
    length tokens = 20%nat /\ Forall (fun x => blen x = ElemSize) tokens.
Proof.
  intros (_ & _ & (root & EA & EB) & _). unfold deriveResumptionTokens. rewrite EA, EB.
  destruct (derive_tokens_ok root 0 (Z.to_nat resumptionTokenCount)) as (l & El & Hn & Hf).
  exists l. split_and!; done.
Qed.

Lemma store_tokens_ok t tokens sid r st :
  deriveResumptionTokens t = Some tokens -> t_sessionID t = sid -> length tokens = 20%nat ->
  Forall (fun x => blen x = ElemSize) tokens -> records st sid r ->
  records (tokens_stored t st) sid (with_tokens tokens r).
Proof.
  intros Hd Hsid Hn Hf Hr. unfold tokens_stored. rewrite Hd, Hsid. cbn [default from_option id].
  destruct (set_tokens_ok st sid r tokens Hr Hf) as (s' & E & Hr'); [lia|]. by rewrite E.
Qed.

(** The window in which a session can be resumed. *)
Definition in_window w (established : Z) : Prop :=
  forall i, time_Sub (w_clock w i) established <= resumptionGracePeriod.

(** The dialer's side of a resumption, from the server's messages. *)
Lemma resume_dialer d sid rA tok rest pB w :
  ho_sessionID (d_opts d) = sid -> ascii_only sid -> blen sid <= 24 ->
  records (w_store w) sid rA -> sr_tokens rA = tok :: rest -> PublicKey (sr_peer rA) = pB ->
  exists payload st message w1,
    Unmarshal payload = Some st /\ signed_by (d_attest d) st message RouteResumeRequest /\
    Unmarshal (st_Data st) = Some (mkResumeRequest sid tok) /\ blen payload <= frameTargetSize /\
    records (w_store w1) sid (with_tokens rest rA) /\ w_clock w1 = w_clock w /\
    forall accept tr t w2 w3,
      follows true (receiveResumeAccept pB) [(false, accept)] w1 = Some (Ok (true, []), w2) ->
      follows true (requestHandshake (newSignedSerde pB (d_attest d)) (d_opts d)) tr w2 = Some (Ok t, w3) ->
      follows true (attemptResume d) ((true, payload) :: (false, accept) :: tr) w
        = Some (Ok (set_remotePeer (sr_peer rA) t), set_store (tokens_stored t (w_store w3)) w3).
Proof.
  intros Hsid Ha Hl Hr Ht Hp.
  destruct (pop_ok _ _ _ tok rest Hr Ht) as (s1 & E1 & R1).
  destruct (get_peer_ok _ _ _ R1) as (s2 & E2 & R2). cbn [sr_peer with_tokens] in E2.
  assert (Htok : blen tok = 32).
  { pose proof (records_tokens _ _ _ Hr) as Hf. rewrite Ht in Hf. by inversion Hf. }
  destruct (resume_request_delivered true (d_attest d) sid tok (set_store s2 (set_store s1 w)))
    as (payload & st & message & w1 & F & U & Sb & D & L & S1); [done|lia|lia|].
  exists payload, st, message, w1. split_and!; try done.
  - by rewrite S1.
  - by rewrite (follows_clock _ _ _ _ _ _ F).
  - intros accept tr t w2 w3 Facc Fhs. unfold attemptResume. rewrite Hsid.
    cbn [pbind ask follows]. rewrite E1. cbn [pbind ask follows w_store set_store]. rewrite E2.
    change ((true, payload) :: (false, accept) :: tr)
      with ([(true, payload)] ++ [(false, accept)] ++ tr). ftrace F. rewrite Hp. ftrace Facc.
    cbn [negb]. rewrite <- (app_nil_r tr). ftrace Fhs.
    rewrite (follows_bind_local _ _ _ _ _ _ _ (run_store_tokens t w3)). reflexivity.
Qed.

(** The server's side of a resumption that it accepts. *)
Lemma resume_server s sid rB tok st pA w :
  records (w_store w) sid rB -> tok ∈ sr_tokens rB ->
  PublicKey (sr_peer rB) = pA -> in_window w (sr_established rB) ->
  Unmarshal (st_Data st) = Some (mkResumeRequest sid tok) ->
  Verify pA (signingInput (st_Metadata st) (st_Data st)) (st_Signature st) = true ->
  exists w1 left_, sr_tokens rB ≡ₚ tok :: left_ /\
    records (w_store w1) sid (with_tokens left_ rB) /\ w_clock w1 = w_clock w /\
    forall accept tr t w2 w3,
      follows false (sendResumeAccept (sv_attest s) true) [(false, accept)] w1 = Some (Ok tt, w2) ->
      follows false (acceptHandshake (newSignedSerde pA (sv_attest s))
        (mkHandshakeOpts (ho_remoteVerifier (sv_opts s)) sid (ho_timeout (sv_opts s)))) tr w2 = Some (Ok t, w3) ->
      follows false (handleResume s st) ((false, accept) :: tr) w
        = Some (Ok (set_remotePeer (sr_peer rB) t), set_store (tokens_stored t (w_store w3)) w3).
Proof.
  intros Hr Hin Hp Hwin D Hver.
  destruct (remove_ok _ _ _ tok Hr Hin) as (s1 & left_ & E1 & Hperm & R1).
  destruct (get_peer_ok _ _ _ R1) as (s2 & E2 & R2). cbn [sr_peer with_tokens] in E2.
  pose proof (get_established_ok _ _ _ R2) as E3. cbn [sr_established with_tokens] in E3.
  set (w0 := set_store s2 (set_store s2 (set_store s1 (after_now w)))).
  exists (after_now w0), left_. split_and!; try done.
  intros accept tr t w2 w3 Facc Fhs.
  unfold handleResume, arm_deadline, set_deadline. cbn [pbind ask follows]. apply follows_on_error.
  unfold unmarshal_result. rewrite D. cbn [of_option rr_SessionID rr_Token].
  cbn [pbind ask follows w_store after_now]. rewrite E1. cbn [pbind ask follows w_store set_store].
  rewrite E2. cbn [pbind ask follows w_store set_store]. rewrite E3, Hp, Hver. cbn [negb].
  cbn [pbind ask follows]. fold w0.
  assert (Hle : (resumptionGracePeriod <? time_Sub (w_clock w0 (w_tpos w0)) (sr_established rB)) = false)
    by (apply Z.ltb_ge; apply Hwin).
  rewrite Hle. change ((false, accept) :: tr) with ([(false, accept)] ++ tr). ftrace Facc.
  rewrite <- (app_nil_r tr). ftrace Fhs.
  rewrite (follows_bind_local _ _ _ _ _ _ _ (run_store_tokens t w3)). reflexivity.
Qed.

(** [serve] hands a resumption request to [handleResume]. *)
Lemma serve_over_resume s st payload tr w :
  sv_resumeEnabled s = true -> Unmarshal payload = Some st -> routeFromST st = Ok RouteResumeRequest ->
  follows false (serve_over s) ((true, payload) :: tr) w = follows false (handleResume s st) tr w.
Proof.
  intros Hen U Rt. unfold serve_over, readSignedTransport.
  cbn [pbind ask follows eqb]. unfold unmarshal_result at 1. rewrite U. cbn [of_option]. rewrite Rt.
  change (RouteResumeRequest =? RouteIdentity) with false.
  change (RouteResumeRequest =? RouteResumeRequest) with true. cbv iota. by rewrite Hen.
Qed.

(** A resumption over a plain connection. *)
Lemma resume_over d s pkA pkB sid rA rB tok rest wA wB :
  acquainted d s pkA pkB -> clock_ok wA -> clock_ok wB ->
  ho_sessionID (d_opts d) = sid -> ascii_only sid -> blen sid = 24 ->
  records (w_store wA) sid rA -> sr_tokens rA = tok :: rest -> PublicKey (sr_peer rA) = pkB ->
  records (w_store wB) sid rB -> tok ∈ sr_tokens rB -> PublicKey (sr_peer rB) = pkA ->
  in_window wB (sr_established rB) ->
  exists payload st tr tA tB wA' wB' tokens,
    Unmarshal payload = Some st /\ routeFromST st = Ok RouteResumeRequest /\
    Unmarshal (st_Data st) = Some (mkResumeRequest sid tok) /\
    follows true (attemptResume d) ((true, payload) :: tr) wA = Some (Ok tA, wA') /\
    follows false (handleResume s st) tr wB = Some (Ok tB, wB') /\
    agreed sid tA tB /\ length tokens = 20%nat /\
    records (w_store wA') sid (with_tokens tokens rA) /\
    records (w_store wB') sid (with_tokens tokens rB) /\
    Forall (fun m => blen (snd m) <= frameTargetSize) ((true, payload) :: tr) /\ length tr = 7%nat.
Proof.
  intros (IA & IB & _) HcA HcB Hsid Ha Hl RA TA PA RB TB PB Hwin.
  destruct (resume_dialer d sid rA tok rest pkB wA Hsid Ha ltac:(lia) RA TA PA)
    as (payload & st & message & w1 & U & Sb & D & L & R1 & C1 & Hdial).
  pose proof IA as (HwA & HkA & _). pose proof IB as (HwB & HkB & _).
  destruct (resume_server s sid rB tok st pkA wB RB TB PB Hwin D
    (signed_by_verifies _ _ _ _ _ HwA HkA Sb)) as (v1 & left_ & _ & R2 & C2 & Hserve).
  destruct (resume_accept_delivered false (sv_attest s) pkB true v1 w1 HwB HkB)
    as (accept & v2 & Facc & Grec & Lacc & Sv2).
  destruct (handshake_agrees (newSignedSerde pkB (d_attest d)) (newSignedSerde pkA (sv_attest s)) (d_opts d)
    (mkHandshakeOpts (ho_remoteVerifier (sv_opts s)) sid (ho_timeout (sv_opts s))) w1 v2)
    as (tr & tA & tB & w3 & v3 & HA & HB & Hag & Lt & Nt & S3 & Sv3).
  { eapply identity_trusts; [exact IA|done|done]. }
  { eapply identity_trusts; [exact IB|done|done]. }
  { unfold clock_ok. by rewrite C1. }
  { unfold clock_ok. by rewrite (follows_clock _ _ _ _ _ _ Facc), C2. }
  { done. }
  { rewrite Hsid. right. split; [done|by right]. }
  rewrite Hsid in Hag. destruct (agreed_tokens _ _ _ Hag) as (tokens & KA & KB & Kn & Kf).
  assert (sid <> []) by (intros ->; done).
  assert (t_sessionID tA = sid /\ t_sessionID tB = sid) as [IdA IdB].
  { destruct Hag as (_ & Eid & _ & _ & Es & _). rewrite <- Eid. split; by apply Es. }
  exists payload, st, ((false, accept) :: tr), (set_remotePeer (sr_peer rA) tA),
    (set_remotePeer (sr_peer rB) tB), (set_store (tokens_stored tA (w_store w3)) w3),
    (set_store (tokens_stored tB (w_store v3)) v3), tokens. split_and!; [done|apply Sb|done|..].
  - by eapply Hdial.
  - by eapply Hserve.
  - by apply agreed_remotePeer.
  - done.
  - cbn [w_store set_store]. rewrite S3.
    exact (store_tokens_ok tA tokens sid (with_tokens rest rA) _ KA IdA Kn Kf R1).
  - cbn [w_store set_store]. rewrite Sv3, Sv2.
    exact (store_tokens_ok tB tokens sid (with_tokens left_ rB) _ KB IdB Kn Kf R2).
  - by repeat constructor.
  - cbn [length]. by rewrite Nt.
Qed.

(** C2: Two sides that share a session record and an unused token resume the session
    in every interleaving: they end with the two ends of the same session, and
    both stores hold the same twenty fresh tokens in place of the old ones. *)
Theorem session_resumed d s pkA pkB sid rA rB tok rest wA wB :
  acquainted d s pkA pkB -> clock_ok wA -> clock_ok wB ->
  ho_sessionID (d_opts d) = sid -> ascii_only sid -> blen sid = 24 -> sv_resumeEnabled s = true ->
  records (w_store wA) sid rA -> sr_tokens rA = tok :: rest -> PublicKey (sr_peer rA) = pkB ->
  records (w_store wB) sid rB -> tok ∈ sr_tokens rB -> PublicKey (sr_peer rB) = pkA ->
  in_window wB (sr_established rB) ->
  exists tA tB wA' wB' tokens n,
    agreed sid tA tB /\ length tokens = 20%nat /\
    records (w_store wA') sid (with_tokens tokens rA) /\
    records (w_store wB') sid (with_tokens tokens rB) /\
    let start := Config (Dial d (Ok tt)) [] wA (establish s) [] wB in
    let final := Config (Ret (Ok tA)) [] wA' (Ret (Ok tB)) [] wB' in
    sched n start final /\
    forall m e, sched m start e -> (m <= n)%nat /\ (stuck e -> e = final).
Proof.
  intros Hacq HcA HcB Hsid Ha Hl Hen RA TA PA RB TB PB Hwin.
  destruct (over_exchange d s wA wB) as (w1 & w2 & S1 & S2 & C1 & C2 & Hover).
  destruct (resume_over d s pkA pkB sid rA rB tok rest w1 w2 Hacq) as
    (payload & st & tr & tA & tB & wA' & wB' & tokens & U & Rt & _ & FA & FB & Hag & Kn & KA & KB & Lt & Nt);
    unfold clock_ok, in_window; rewrite ?C1, ?C2, ?S1, ?S2; try done.
  rewrite <- (serve_over_resume s st payload) in FB by done.
  destruct (Hover ((true, payload) :: tr) tA tB wA' wB') as (tr' & GA & GB & _);
    [cbn [length]; lia|done| |exact FB|].
  { unfold dial_over. rewrite Hsid, bool_decide_eq_false_2 by (intros ->; done).
    rewrite <- (app_nil_r (_ :: tr)). by ftrace FA. }
  destruct (follows_every_schedule _ _ _ _ _ _ _ _ _ GA GB) as (n & Hn & Hall).
  exists tA, tB, wA', wB', tokens, n. by split_and!.
Qed.

End honest.

(** ** The storage fulfils the contract *)

#[global] Instance storage_sessions `{Crypto} `{ProtoRuntime} `{Bolt} : SessionStore store := {
  ss_SetMeta := SetMeta;
  ss_PopList := PopList;
  ss_RemoveListItem := RemoveListItem;
  ss_GetPeer := GetPeer;
  ss_GetEstablishedAt := GetEstablishedAt
}.

Section refinement.
Context `{Crypto} `{ProtoRuntime} `{Bolt} `{!CryptoOk _} `{!ProtoRuntimeOk _} `{!BoltOk _}.
Implicit Types (st : store).

(** The metadata of a session names a stored peer that does not expire, and a
    time. *)
Definition meta_names st sid (peer : Peer) (established : Z) : Prop :=
  has_bucket (s_db st) [PeersNamespace] = true /\
  exists claim p eb,
    view st (session_path sid "meta") PeerKey = Some claim /\ blen claim <> 0 /\
    stored_peer st claim p /\ peer_of p = peer /\
    (forall i, expired p (s_expiry st) (s_clock st i) = false) /\
    view st (session_path sid "meta") EstablishedAtKey = Some eb /\ 8 <= blen eb /\
    i64 (be_get (btake 8 eb)) = established.

Definition store_records st sid (r : session_rec) : Prop :=
  session_ready st sid ResumptionTokensKey /\ holds_list st sid ResumptionTokensKey (sr_tokens r) /\
  meta_names st sid (sr_peer r) (sr_established r).

Lemma meta_names_updated st st' sid ov peer est :
  updated st st' (session_path sid "meta") ResumptionTokensKey ov ->
  meta_names st sid peer est -> meta_names st' sid peer est.
Proof.
  intros Hu (Hb & claim & p & eb & Hv & Hn & (data & Hd & Hp) & Hpe & Hx & He & Hl & Hi).
  pose proof Hu as ((_ & Hck & Hex) & _ & Hbs & _). split; [by rewrite Hbs|].
  exists claim, p, eb. rewrite Hck, Hex. split_and!; try done.
  - by rewrite (updated_other _ _ _ _ _ _ _ Hu) by (right; vm_compute; done).
  - exists data. split; [|done]. by rewrite (updated_other _ _ _ _ _ _ _ Hu) by (by left).
  - by rewrite (updated_other _ _ _ _ _ _ _ Hu) by (right; vm_compute; done).
Qed.

Lemma store_records_updated st st' sid r l :
  updated st st' (session_path sid "meta") ResumptionTokensKey (Some (serializeList l)) ->
  Forall (fun x => blen x = ElemSize) l -> Z.of_nat (length l) <= 2 ^ 20 ->
  store_records st sid r -> store_records st' sid (with_tokens l r).
Proof.
  intros Hu Hf Hl (Hr & _ & Hm). split_and!.
  - by eapply session_ready_updated.
  - split_and!; [apply Hu|done|done].
  - by eapply meta_names_updated.
Qed.

Lemma GetPeer_records st sid r :
  store_records st sid r -> GetPeer sid st = (Ok (sr_peer r), tick st).
Proof.
  intros ((_ & Ho & _) & _ & Hb & claim & p & eb & Hv & Hn & Hs & Hp & Hx & _).
  unfold GetPeer. erewrite gbind_ok by (by apply GetMeta_ok). cbn [m_value NewBytesMeta].
  destruct (Z.eqb_spec (blen claim) 0); [done|]. unfold gwrap.
  change (Query (fun b => findPeer b (peerKey claim)) st) with (FindPeer claim st).
  rewrite (FindPeer_fresh claim p st Hb Hs); [by rewrite Hp|apply Hx].
Qed.

Lemma GetEstablishedAt_records st sid r :
  store_records st sid r -> GetEstablishedAt sid st = (Ok (sr_established r), st).
Proof.
  intros ((_ & Ho & _) & _ & Hb & claim & p & eb & _ & _ & _ & _ & _ & He & Hl & Hi).
  unfold GetEstablishedAt. erewrite gbind_ok by (by apply GetMeta_ok). cbn [m_value NewBytesMeta].
  destruct (Z.ltb_spec (blen eb) 8); [lia|]. unfold gret. by rewrite Hi.
Qed.

Lemma store_set_ok st sid r l :
  store_records st sid r -> Forall (fun x => blen x = ElemSize) l -> Z.of_nat (length l) <= 2 ^ 20 ->
  exists s', SetMeta sid (NewByteSlicesMeta ResumptionTokensKey l) st = (Ok tt, s') /\
    store_records s' sid (with_tokens l r).
Proof.
  intros Hr Hf Hl. pose proof Hr as ((He & Ho & Hk) & _).
  destruct (SetMeta_ok sid (NewByteSlicesMeta ResumptionTokensKey l) st He Ho Hk) as (s' & E & Hu).
  { cbn [m_value NewByteSlicesMeta]. rewrite blen_serializeList by (done || lia). unfold ElemSize. lia. }
  exists s'. split; [done|]. by eapply store_records_updated.
Qed.

Lemma store_pop_ok st sid r x l :
  store_records st sid r -> sr_tokens r = x :: l ->
  exists s', PopList sid ResumptionTokensKey st = (Ok x, s') /\ store_records s' sid (with_tokens l r).
Proof.
  intros Hr Ht. pose proof Hr as (Hready & Hh & _). rewrite Ht in Hh.
  destruct (PopList_ok sid ResumptionTokensKey x l st Hready Hh) as (s' & E & Hu & _ & Hf & Hl).
  exists s'. split; [done|]. by eapply store_records_updated.
Qed.

Lemma store_remove_ok st sid r x :
  store_records st sid r -> x ∈ sr_tokens r ->
  exists s' l, RemoveListItem sid ResumptionTokensKey x st = (Ok tt, s') /\
    sr_tokens r ≡ₚ x :: l /\ store_records s' sid (with_tokens l r).
Proof.
  intros Hr Hin. pose proof Hr as (Hready & Hh & _).
  pose proof (remove_item_spec x (sr_tokens r)) as Hp.
  destruct (remove_item x (sr_tokens r)) as [l|] eqn:Hrem; [|done].
  destruct (RemoveListItem_found sid ResumptionTokensKey x (sr_tokens r) l st Hready Hh Hrem)
    as (s' & E & Hu & _ & Hf & Hl).
  exists s', l. split_and!; try done. by eapply store_records_updated.
Qed.

Lemma store_remove_absent st sid r x :
  store_records st sid r -> x ∉ sr_tokens r ->
  exists e, RemoveListItem sid ResumptionTokensKey x st = (Err e, st) /\ errors_is e ErrNotFound = true.
Proof.
  intros Hr Hin. pose proof Hr as ((_ & Ho & _) & Hh & _). by eapply RemoveListItem_absent.
Qed.

#[global] Program Instance storage_sessions_ok : SessionStoreOk store := {
  records := store_records;
  unrecorded st sid := has_bucket (s_db st) (session_path sid "meta") = false;
  set_tokens_ok := store_set_ok;
  pop_ok := store_pop_ok;
  remove_ok := store_remove_ok;
  get_established_ok := GetEstablishedAt_records
}.
Next Obligation. intros st sid r (_ & (_ & Hf & _) & _). exact Hf. Qed.
Next Obligation.
  intros st sid m Hn. destruct (SetMeta_missing sid m st) as (e & E & _); [|by exists e].
  intros (_ & _ & Ho). congruence.
Qed.
Next Obligation.
  intros st sid r x Hr Hin. destruct (store_remove_absent st sid r x Hr Hin) as (e & E & _). by exists e.
Qed.
Next Obligation.
  intros st sid r Hr. exists (tick st). split; [by apply GetPeer_records|exact Hr].
Qed.

(** ** The abstract session record

    What the protocol can observe of a stored session: a multiset of tokens, a
    peer and a time. *)

Inductive op := OpPop | OpRemove (token : bytes) | OpSet (tokens : list bytes) | OpPeer | OpEstablished.

Inductive outcome := Done | Token (b : bytes) | NotFound | ThePeer (p : Peer) | TheTime (t : Z).

Inductive abs_step : op -> session_rec -> outcome -> session_rec -> Prop :=
| abs_pop r x l : sr_tokens r ≡ₚ x :: l -> abs_step OpPop r (Token x) (with_tokens l r)
| abs_pop_empty r : sr_tokens r = [] -> abs_step OpPop r NotFound r
| abs_remove r x l : sr_tokens r ≡ₚ x :: l -> abs_step (OpRemove x) r Done (with_tokens l r)
| abs_remove_absent r x : x ∉ sr_tokens r -> abs_step (OpRemove x) r NotFound r
| abs_set r l : abs_step (OpSet l) r Done (with_tokens l r)
| abs_peer r : abs_step OpPeer r (ThePeer (sr_peer r)) r
| abs_established r : abs_step OpEstablished r (TheTime (sr_established r)) r.

Inductive abs_run : list op -> session_rec -> list outcome -> session_rec -> Prop :=
| abs_done r : abs_run [] r [] r
| abs_more o ops r out r1 outs r2 :
    abs_step o r out r1 -> abs_run ops r1 outs r2 -> abs_run (o :: ops) r (out :: outs) r2.

(** The storage methods, with their results as outcomes; any other error would
    be [None]. *)
Definition outcome_of {A} (f : A -> outcome) (r : result A) : option outcome :=
  match r with
  | Ok a => Some (f a)
  | Err e => if errors_is e ErrNotFound then Some NotFound else None
  end.

Definition run_op (sid : bytes) (o : op) (st : store) : option outcome * store :=
  match o with
  | OpPop => let '(r, st') := PopList sid ResumptionTokensKey st in (outcome_of Token r, st')
  | OpRemove x =>
      let '(r, st') := RemoveListItem sid ResumptionTokensKey x st in (outcome_of (fun _ => Done) r, st')
  | OpSet l =>
      let '(r, st') := SetMeta sid (NewByteSlicesMeta ResumptionTokensKey l) st in
      (outcome_of (fun _ => Done) r, st')
  | OpPeer => let '(r, st') := GetPeer sid st in (outcome_of ThePeer r, st')
  | OpEstablished => let '(r, st') := GetEstablishedAt sid st in (outcome_of TheTime r, st')
  end.

Fixpoint run_ops (sid : bytes) (ops : list op) (st : store) : list (option outcome) * store :=
  match ops with
  | [] => ([], st)
  | o :: rest =>
      let '(out, st1) := run_op sid o st in
      let '(outs, st2) := run_ops sid rest st1 in (out :: outs, st2)
  end.

Definition op_ok (o : op) : Prop :=
  match o with
  | OpSet l => Forall (fun x => blen x = ElemSize) l /\ Z.of_nat (length l) <= 2 ^ 20
  | _ => True
  end.

Lemma pop_empty sid st :
  session_open st sid "meta" -> holds_list st sid ResumptionTokensKey [] ->
  exists e, PopList sid ResumptionTokensKey st = (Err e, st) /\ errors_is e ErrNotFound = true.
Proof.
  intros Ho (Hv & _). pose proof (meta_read true sid ResumptionTokensKey st Ho) as Hm. rewrite Hv in Hm.
  exists (wrapf "pop from" (Sentinel ErrNotFound)). split; [|done].
  unfold PopList. rewrite (Command_err _ st (Sentinel ErrNotFound) st); [by rewrite set_db_same|].
  unfold gbind in *. rewrite sessionMeta_open in * by done. rewrite Hm.
  unfold lift_result. by rewrite deserialize_serialize.
Qed.

Lemma run_op_refines sid o st r :
  store_records st sid r -> op_ok o ->
  exists out st' r', run_op sid o st = (Some out, st') /\ abs_step o r out r' /\ store_records st' sid r'.
Proof.
  intros Hr Ho. destruct o as [|x|l| |]; cbn [run_op].
  - destruct (sr_tokens r) as [|x l] eqn:Et.
    + pose proof Hr as ((_ & Hop & _) & Hh & _). rewrite Et in Hh.
      destruct (pop_empty sid st Hop Hh) as (e & E & He). exists NotFound, st, r.
      rewrite E. cbn [outcome_of]. rewrite He. split_and!; [done|by constructor|done].
    + destruct (store_pop_ok st sid r x l Hr Et) as (s' & E & Hr'). exists (Token x), s', (with_tokens l r).
      rewrite E. split_and!; [done|constructor; by rewrite Et|done].
  - destruct (decide (x ∈ sr_tokens r)) as [Hin|Hin].
    + destruct (store_remove_ok st sid r x Hr Hin) as (s' & l & E & Hp & Hr').
      exists Done, s', (with_tokens l r).
      rewrite E. split_and!; [done|by constructor|done].
    + destruct (store_remove_absent st sid r x Hr Hin) as (e & E & He).
      exists NotFound, st, r. rewrite E. cbn [outcome_of]. rewrite He.
      split_and!; [done|by constructor|done].
  - destruct Ho as [Hf Hl]. destruct (store_set_ok st sid r l Hr Hf Hl) as (s' & E & Hr').
    exists Done, s', (with_tokens l r).
    rewrite E. split_and!; [done|constructor|done].
  - exists (ThePeer (sr_peer r)), (tick st), r. rewrite (GetPeer_records st sid r Hr).
    split_and!; [done|constructor|exact Hr].
  - exists (TheTime (sr_established r)), st, r. rewrite (GetEstablishedAt_records st sid r Hr).
    split_and!; [done|constructor|done].
Qed.

(** C7: The storage refines the abstract session record: every sequence of the
    operations the protocol uses succeeds with outcomes the record allows, and
    the stored session follows the record. *)
Theorem storage_refines_session_record sid ops st r :
  store_records st sid r -> Forall op_ok ops ->
  exists outs st' r', run_ops sid ops st = (map Some outs, st') /\ abs_run ops r outs r' /\
    store_records st' sid r'.
Proof.
  intros Hr Hf. revert st r Hr. induction Hf as [|o ops Ho _ IH]; intros st r Hr.
  - exists [], st, r. split_and!; [done|constructor|done].
  - destruct (run_op_refines sid o st r Hr Ho) as (out & st1 & r1 & E1 & A1 & Hr1).
    destruct (IH st1 r1 Hr1) as (outs & st2 & r2 & E2 & A2 & Hr2).
    exists (out :: outs), st2, r2. cbn [run_ops map]. rewrite E1, E2.
    split_and!; [done|by econstructor|done].
Qed.

End refinement.

(** ** Concrete sessions *)

Section sample.
Existing Instance toy_crypto.
Existing Instance wire_runtime.
Existing Instance map_bolt.

Definition sample_time : Z := 1700000000 * Second.
Definition sample_party (n : Z) : Peer :=
  mkPeer sample_time sample_time (str "peer") (str "1.0.0") (sample_key n).
Definition sample_tokens : list bytes := [be_put 32 1; be_put 32 2].

Lemma sample_party_valid n : blen (sample_key n) = 44 -> peer_valid (sample_party n).
Proof.
  intros Hk. unfold peer_valid, sample_party. cbn [PublicKey Name AppVersionOf FirstSeen LastSeen].
  split_and!; try done; vm_compute; by repeat constructor.
Qed.

Lemma meta_key_sample key st :
  (forall q, has_bucket (s_db st) q = has_bucket (s_db (sample_store [sample_sid])) q) ->
  same_frame (sample_store [sample_sid]) st -> key_ok key -> session_ready st sample_sid key.
Proof.
  intros Hb (Hc & _) Hk. destruct (sample_ready key Hk) as (He & (H1 & H2 & H3) & Hm & Hn).
  split_and!; [by rewrite Hc|split_and!; by rewrite Hb|split; [done|by rewrite Hb]].
Qed.

(** A store with the session [sample_sid] of the peer [n]. *)
Lemma sample_recorded n :
  blen (sample_key n) = 44 ->
  exists st, store_records st sample_sid (mkRec sample_tokens (sample_party n) sample_time).
Proof.
  intros Hkey. destruct (StorePeer_ok (sample_party n) (sample_store [sample_sid]))
    as (s1 & data & _ & U1 & Hd).
  { apply sample_peers_ready. by right. }
  { by apply sample_party_valid. }
  { intros i. apply sample_clock. }
  pose proof U1 as (F1 & _ & B1 & V1 & _).
  destruct (meta_key_sample PeerKey s1 B1 F1) as (C1 & O1 & M1); [vm_compute; done|].
  destruct (SetMeta_ok sample_sid (NewBytesMeta PeerKey (sample_key n)) s1 C1 O1 M1) as (s2 & _ & U2).
  { cbn [m_value NewBytesMeta]. lia. }
  pose proof U2 as (F2 & _ & B2 & V2 & _).
  destruct (meta_key_sample EstablishedAtKey s2) as (C2 & O2 & M2);
    [intros q; by rewrite B2, B1|by transitivity s1|vm_compute; done|].
  destruct (SetMeta_ok sample_sid (NewBytesMeta EstablishedAtKey (be_put 8 sample_time)) s2 C2 O2 M2)
    as (s3 & _ & U3); [vm_compute; done|].
  pose proof U3 as (F3 & _ & B3 & V3 & _).
  assert (R3 : session_ready s3 sample_sid ResumptionTokensKey).
  { apply meta_key_sample; [intros q; by rewrite B3, B2, B1| |vm_compute; done].
    transitivity s2; [by transitivity s1|done]. }
  destruct (SetMeta_ok sample_sid (NewByteSlicesMeta ResumptionTokensKey sample_tokens) s3)
    as (s4 & _ & U4); [apply R3|apply R3|apply R3|vm_compute; done|].
  assert (Hm : meta_names s3 sample_sid (sample_party n) sample_time).
  { split; [rewrite B3, B2, B1; change (s_db (tick ?x)) with (s_db x); sample_has_bucket|].
    exists (sample_key n), (pb_of (sample_party n)), (be_put 8 sample_time).
    assert (Hv : view s3 [PeersNamespace] (peerKey (sample_key n)) = Some data).
    { rewrite (updated_other _ _ _ _ _ _ _ U3), (updated_other _ _ _ _ _ _ _ U2) by (left; done). exact V1. }
    split_and!; try done.
    - rewrite (updated_other _ _ _ _ _ _ _ U3) by (right; vm_compute; done). exact V2.
    - by exists data.
    - intros i. rewrite expired_pb_of. destruct F1 as (_ & K1 & X1), F2 as (_ & K2 & X2), F3 as (_ & K3 & X3).
      rewrite K3, K2, K1, X3, X2, X1. apply Z.ltb_ge. pose proof (Nat.mod_upper_bound i 1000).
      change (s_clock (tick (sample_store _)) i) with (sample_time + Z.of_nat (i mod 1000) * Second).
      change (FirstSeen _ + _) with (sample_time + 7 * 24 * Hour).
      unfold sample_time, Hour, Minute, Second. lia. }
  exists s4. split_and!.
  - by eapply session_ready_updated.
  - split_and!; [apply U4|by repeat constructor|simpl; lia].
  - by eapply meta_names_updated.
Qed.

Definition sample_verifier (peer : Peer) : prog store (result unit) := Ret (Ok tt).
Definition sample_dialer (sid : bytes) : Dialer store :=
  mkDialer shipped (sample_attest 1) (str "alice") (mkHandshakeOpts sample_verifier sid (30 * Second)).
Definition sample_server : Server store :=
  mkServer shipped (sample_attest 2) (str "bob") (mkHandshakeOpts sample_verifier [] (30 * Second)) true
    (fun _ => Ret (Ok tt)).

Lemma sample_acquainted sid : acquainted (sample_dialer sid) sample_server (sample_key 1) (sample_key 2).
Proof.
  unfold acquainted, identity, sample_dialer, sample_server, sample_key.
  cbn [d_attest d_clientName d_release sv_attest sv_serverName sv_release].
  split_and!; try done; try (vm_compute; by repeat constructor).
Qed.

Lemma cold_session_established_witness :
  exists tA tB wA' wB' n,
    agreed [] tA tB /\
    t_remotePeer tA = Some (introduced (str "bob") AppVersion (sample_key 2)) /\
    t_remotePeer tB = Some (introduced (str "alice") AppVersion (sample_key 1)) /\
    let start := Config (Dial (sample_dialer []) (Ok tt)) [] (sample_world 3 (sample_store []))
                        (establish sample_server) [] (sample_world 9 (sample_store [])) in
    let final := Config (Ret (Ok tA)) [] wA' (Ret (Ok tB)) [] wB' in
    sched n start final /\
    forall m e, sched m start e -> (m <= n)%nat /\ (stuck e -> e = final).
Proof.
  apply (cold_session_established (sample_dialer []) sample_server (sample_key 1) (sample_key 2)
           (fun _ => True)); try done.
  - apply sample_acquainted.
  - apply sample_clock_ok.
  - apply sample_clock_ok.
  - intros w _. by exists w.
  - intros w _. by exists w.
Defined.

Lemma session_resumed_witness :
  exists stA stB tA tB wA' wB' tokens n,
    agreed sample_sid tA tB /\ length tokens = 20%nat /\
    records (w_store wA') sample_sid (mkRec tokens (sample_party 2) sample_time) /\
    records (w_store wB') sample_sid (mkRec tokens (sample_party 1) sample_time) /\
    let start := Config (Dial (sample_dialer sample_sid) (Ok tt)) [] (sample_world 3 stA)
                        (establish sample_server) [] (sample_world 9 stB) in
    let final := Config (Ret (Ok tA)) [] wA' (Ret (Ok tB)) [] wB' in
    sched n start final /\
    forall m e, sched m start e -> (m <= n)%nat /\ (stuck e -> e = final).
Proof.
  destruct (sample_recorded 2) as (stA & RA); [vm_compute; done|].
  destruct (sample_recorded 1) as (stB & RB); [vm_compute; done|].
  exists stA, stB.
  apply (session_resumed (sample_dialer sample_sid) sample_server (sample_key 1) (sample_key 2) sample_sid
           (mkRec sample_tokens (sample_party 2) sample_time)
           (mkRec sample_tokens (sample_party 1) sample_time) (be_put 32 1) [be_put 32 2]); try done.
  - apply sample_acquainted.
  - apply sample_clock_ok.
  - apply sample_clock_ok.
  - vm_compute. by repeat constructor.
  - left.
  - intros i. cbn [w_clock sample_world sr_established]. pose proof (Nat.mod_upper_bound i 1000).
    unfold time_Sub, sample_time, resumptionGracePeriod, Hour, Minute, Second. lia.
Defined.

Lemma storage_refines_session_record_witness :
  exists st outs st' r',
    run_ops sample_sid [OpRemove (be_put 32 2); OpRemove (be_put 32 2); OpPop; OpPop; OpPeer] st
      = (map Some outs, st') /\
    abs_run [OpRemove (be_put 32 2); OpRemove (be_put 32 2); OpPop; OpPop; OpPeer]
      (mkRec sample_tokens (sample_party 1) sample_time) outs r' /\
    store_records st' sample_sid r'.
Proof.
  destruct (sample_recorded 1) as (st & Hr); [vm_compute; done|]. exists st.
  apply (storage_refines_session_record sample_sid
           [OpRemove (be_put 32 2); OpRemove (be_put 32 2); OpPop; OpPop; OpPeer] st
           (mkRec sample_tokens (sample_party 1) sample_time) Hr).
  by repeat constructor.
Defined.

End sample.
