(* ===== verification/SessionSafety.v ===== *)
(** * Session establishment against a hostile network

    What [handleResume] guarantees whatever the network delivers, and what becomes
    of the tokens of a cold session. *)

From S2P Require Import Prelude GoErr Process Wire Pb Route Version Crypto Enigma Serde.
From S2P Require Import Transport Exchange Handshake Bolt Engine Storage Sessions Session.

Section transports.
Context `{Crypto} `{ProtoRuntime} {St : Type}.
Implicit Types (w : world St).

(** The parts of a transport that never change. *)
Definition same_session (t t' : Transport) : Prop :=
  t_serde t' = t_serde t /\ t_sessionID t' = t_sessionID t.

Lemma ensures_Send t {M} `{Message M} (m : M) route :
  ensures (St := St) (Send t m route) (fun x => same_session t (snd x)).
Proof.
  unfold Send. destruct (negb (IsValid route)); [done|]. cbv zeta.
  apply ensures_bind. eapply ensures_weaken; [|apply ensures_true]. intros [[payload md]|e] _; [|done].
  unfold Encrypt. cbn [pbind ask ensures]. intros nonce. by intros [u|e].
Qed.

Lemma ensures_Receive t {M} `{Message M} :
  ensures (St := St) (Receive t (M := M)) (fun x => same_session t (snd x)).
Proof.
  unfold Receive. cbn [pbind ask ensures]. intros [payload|e].
  - destruct (accept_payload t payload) as [r t'] eqn:E. apply accept_payload_seq in E.
    destruct r as [[md m]|e]; [destruct E as [_ ->]|subst]; done.
  - by repeat case_match.
Qed.

Lemma ensures_acceptChallenge t route :
  ensures (St := St) (acceptChallenge t route) (fun x => same_session t (snd x)).
Proof.
  unfold acceptChallenge. apply ensures_bind. eapply ensures_weaken; [|apply ensures_Receive].
  intros [r t1] Hs. cbn [snd] in Hs. destruct r as [[md v]|e]; [|done]. cbv zeta.
  destruct (negb _); [done|]. apply ensures_bind. eapply ensures_weaken; [|apply ensures_Send].
  intros [x t2] Hs2. cbn [snd] in Hs2. cbn [ensures snd]. unfold same_session in *. destruct Hs, Hs2.
  split; congruence.
Qed.

Lemma ensures_sendChallenge t secret info :
  ensures (St := St) (sendChallenge t secret info) (fun x => same_session t (snd x)).
Proof.
  unfold sendChallenge. destruct (Derive _ _ _ _); [|done].
  apply ensures_bind. eapply ensures_weaken; [|apply ensures_Send].
  intros [x t1] Hs. cbn [snd] in Hs. destruct x as [md|e]; [|done].
  apply ensures_bind. eapply ensures_weaken; [|apply ensures_Receive].
  intros [y t2] Hs2. cbn [snd] in Hs2. cbn [ensures snd]. unfold same_session in *. destruct Hs, Hs2.
  split; congruence.
Qed.

(** Whatever arrives, the transport [acceptHandshake] returns speaks to the key
    it was given and, in a resumption, carries the session's ID. *)
Lemma ensures_acceptHandshake (ut : signedSerde) (o : handshakeOpts (St := St)) :
  ensures (acceptHandshake ut o) (fun r => match r with
    | Ok t => t_serde t = ut /\ (ho_sessionID o <> [] -> t_sessionID t = ho_sessionID o)
    | Err _ => True
    end).
Proof.
  unfold acceptHandshake. cbn [pbind ask ensures]. intros [reqBytes|e]; [|done].
  destruct (deserialize _ _) as [[md req]|]; [|done]. cbv zeta. destruct (negb _); [done|].
  destruct (validateHandshakeFields _ _); [|done].
  apply ensures_bind. eapply ensures_weaken; [|apply ensures_true]. intros [[secret ct]|] _; [|done].
  apply ensures_bind. eapply ensures_weaken; [|apply ensures_true]. intros key _.
  apply ensures_bind. eapply ensures_weaken; [|apply ensures_true]. intros salt _.
  apply ensures_bind. eapply ensures_weaken; [|apply ensures_true]. intros [[resp md2]|] _; [|done].
  cbn [pbind ask ensures]. intros [u|]; [|done].
  destruct (NewEnigma _ _ _); [|done]. destruct (NewEnigma _ _ _); [|done].
  apply ensures_bind. eapply ensures_weaken; [|apply ensures_acceptChallenge].
  intros [x t1] [Hs1 Hi1]. cbn [snd] in *. destruct x; [|done].
  apply ensures_bind. eapply ensures_weaken; [|apply ensures_sendChallenge].
  intros [y t2] [Hs2 Hi2]. cbn [snd] in *. destruct y; [|done]. cbn [ensures].
  assert (same_session t2 (setResumptionRoot t2 secret)) as [Hs3 Hi3]
    by (unfold setResumptionRoot; by destruct (Derive _ _ _ _)).
  rewrite Hs3, Hs2, Hs1, Hi3, Hi2, Hi1. cbn [t_serde t_sessionID newTransport]. split; [done|].
  intros Hne. by rewrite bool_decide_eq_false_2.
Qed.

End transports.

(** ** Resumption *)

Section resume.
Context `{Crypto} `{ProtoRuntime} {St : Type} `{SessionStore St} `{!SessionStoreOk St}.
Implicit Types (w : world St) (s : Server St).

Lemma exec_on_error {A} (p : prog St (result A)) c w n a w' n' :
  exec (on_error p c) w n = (Some (Ok a), w', n') -> exec p w n = (Some (Ok a), w', n').
Proof.
  unfold on_error, on_panic. rewrite exec_bind. destruct (exec p w n) as [[[r|] w1] n1] eqn:Ep.
  2: { destruct (exec_precover_panic (fun m => do _ <- c; Panic m) _ _ _ _ _ Ep) as [m ->].
       rewrite exec_bind. by destruct (exec c w1 n1) as [[[[]|] w2] n2]. }
  rewrite (exec_precover_ok _ _ _ _ _ _ _ Ep). destruct r as [a'|e]; [done|]. rewrite exec_bind.
  destruct (exec c w1 n1) as [[[[]|] w2] n2]; done.
Qed.

Lemma reject_fails s msg :
  ensures (reject s msg) (fun r => match r with Ok _ => False | Err _ => True end).
Proof.
  unfold reject. apply ensures_bind. eapply ensures_weaken; [|apply ensures_true].
  by intros [u|e] _.
Qed.

(** The last part of [handleResume]. *)
Lemma ensures_resume_tail s peer sid :
  sid <> [] ->
  ensures (try _ <- sendResumeAccept (St := St) (sv_attest s) true or "sending resume accept";
           try t <- acceptHandshake (newSignedSerde (PublicKey peer) (sv_attest s))
             (mkHandshakeOpts (ho_remoteVerifier (sv_opts s)) sid (ho_timeout (sv_opts s)))
             or "accepting handshake after resume";
           do _ <- store_tokens t; Ret (Ok (set_remotePeer peer t)))
    (fun r => match r with
       | Ok t => t_sessionID t = sid /\ t_remotePeer t = Some peer /\
                 serde_remote (t_serde t) = PublicKey peer
       | Err _ => True
       end).
Proof.
  intros Hne. apply ensures_bind. eapply ensures_weaken; [|apply ensures_true].
  intros [u|e] _; [|done]. apply ensures_bind.
  eapply ensures_weaken; [|apply ensures_acceptHandshake]. intros [t|e]; [|done].
  intros [Hs Hi]. apply ensures_bind. eapply ensures_weaken; [|apply ensures_true].
  intros [] _. cbn [ensures t_sessionID t_remotePeer t_serde set_remotePeer].
  rewrite Hs. split_and!; [by apply Hi|done|done].
Qed.

(** C3: A network that controls every byte obtains a resumed session only with a
    token the record still holds, under a signature of the recorded peer, and
    within the grace period; the session is the recorded one and speaks to the
    recorded peer's key. *)
Theorem resume_authorised s st sid tok r w n t w' n' :
  Unmarshal (st_Data st) = Some (mkResumeRequest sid tok) -> sid <> [] ->
  records (w_store w) sid r -> exec (handleResume s st) w n = (Some (Ok t), w', n') ->
  tok ∈ sr_tokens r /\
  Verify (PublicKey (sr_peer r)) (signingInput (st_Metadata st) (st_Data st)) (st_Signature st) = true /\
  (exists i, time_Sub (w_clock w i) (sr_established r) <= resumptionGracePeriod) /\
  t_sessionID t = sid /\ t_remotePeer t = Some (sr_peer r) /\
  serde_remote (t_serde t) = PublicKey (sr_peer r).
Proof.
  intros Hu Hne Hr E. unfold handleResume, arm_deadline, set_deadline in E.
  cbn [pbind ask exec net_step] in E. apply exec_on_error in E.
  unfold unmarshal_result in E. rewrite Hu in E. cbn [of_option rr_SessionID rr_Token] in E.
  cbn [pbind ask exec net_step w_store after_now] in E.
  destruct (decide (tok ∈ sr_tokens r)) as [Hin|Hin].
  2: { destruct (remove_absent _ _ _ _ Hr Hin) as (e & Er). rewrite Er in E.
       by apply (ensures_exec _ _ _ _ _ _ _ (reject_fails s _)) in E. }
  destruct (remove_ok _ _ _ _ Hr Hin) as (s1 & l & E1 & _ & R1). rewrite E1 in E.
  destruct (get_peer_ok _ _ _ R1) as (s2 & E2 & R2). cbn [sr_peer with_tokens] in E2.
  cbn [pbind ask exec net_step w_store set_store] in E. rewrite E2 in E.
  pose proof (get_established_ok _ _ _ R2) as E3. cbn [sr_established with_tokens] in E3.
  cbn [pbind ask exec net_step w_store set_store] in E. rewrite E3 in E.
  destruct (Verify (PublicKey (sr_peer r)) _ _) eqn:Hv; cbn [negb] in E.
  2: { by apply (ensures_exec _ _ _ _ _ _ _ (reject_fails s _)) in E. }
  cbn [pbind ask exec net_step] in E.
  match type of E with context [if ?b then _ else _] => destruct b eqn:Hw end.
  { by apply (ensures_exec _ _ _ _ _ _ _ (reject_fails s _)) in E. }
  apply (ensures_exec _ _ _ _ _ _ _ (ensures_resume_tail s (sr_peer r) sid Hne)) in E.
  split_and!; try done; try apply E. apply Z.ltb_ge in Hw. eexists. exact Hw.
Qed.

End resume.

Section refusals.
Context `{Crypto} `{ProtoRuntime} {St : Type} `{SessionStore St} `{!SessionStoreOk St}.
Context `{!CryptoOk _} `{!ProtoRuntimeOk _}.
Implicit Types (w : world St) (s : Server St) (n : net).

(** What a refusal may put on the wire: nothing if the write fails, else one
    message, a signed [ResumeAccept] with [Accepted = false]. *)
Definition only_refusal s n n' : Prop :=
  n_sent n' = n_sent n \/
  exists payload st,
    n_sent n' = n_sent n ++ [payload] /\ Unmarshal payload = Some st /\
    routeFromST st = Ok RouteResumeAccept /\
    Unmarshal (st_Data st) = Some (mkResumeAccept false (str "resumption not available")) /\
    st_Signature st = ed25519_Sign (privateKey (sv_attest s)) (signingInput (st_Metadata st) (st_Data st)).

(** Writing one signed message on any network. *)
Lemma exec_write_signed at_ message md signing route w n :
  msg_wf md -> ascii_only (md_ID md) -> blen (md_ID md) <= 26 -> 0 <= md_Sequence md < 2 ^ 64 ->
  md_Route md = ToProto route -> IsValid route = true -> blen message <= maxTransportSize ->
  exists r w' n' payload st,
    exec (write_signed at_ message md signing) w n = (Some r, w', n') /\ w_store w' = w_store w /\
    Unmarshal payload = Some st /\ signed_by at_ st message route /\
    match r with
    | Ok _ => n_sent n' = n_sent n ++ [payload]
    | Err _ => n_sent n' = n_sent n
    end.
Proof.
  intros Hmd Hasc Hid Hseq Hr Hv Hl.
  destruct (marshal_ascii md) as [mb Emb]; [by apply Forall_singleton|].
  set (sig := ed25519_Sign (privateKey at_) (signingInput mb message)).
  pose proof (metadata_size md Hid Hseq) as Hms. rewrite <- (marshal_size _ _ Emb) in Hms.
  pose proof (envelope_size message sig mb Hl (sign_len _ _) Hms) as [Hes _].
  pose proof (padSignedTransport_spec (mkSignedTransport message sig mb []) w) as Hpad. cbv zeta in Hpad.
  destruct Hpad as (pad & payload & w' & Hrun & Hpl & Hst & Hfit & _).
  destruct Hfit as [Hmax _].
  { change (with_padding _ []) with (mkSignedTransport message sig mb []).
    unfold frameTargetSize, MaxUint16, encryptionOverhead. lia. }
  assert (Hun : Unmarshal payload = Some (mkSignedTransport message sig mb pad)).
  { apply unmarshal_marshal; [|done]. eapply SignedTransport_wf; [exact Hpl|].
    unfold frameTargetSize, MaxUint16, encryptionOverhead in Hmax. lia. }
  assert (Hsb : signed_by at_ (mkSignedTransport message sig mb pad) message route).
  { split_and!; [done| |done]. unfold routeFromST, unmarshal_result. cbn [st_Metadata].
    rewrite (unmarshal_marshal _ _ Hmd Emb). cbn [of_option]. by rewrite Hr, ToProto_valid. }
  unfold write_signed, marshal_result. rewrite Emb. cbn [of_option Sign]. fold sig.
  rewrite exec_bind, (exec_local _ _ _ _ n Hrun). cbn [pbind ask exec net_step]. unfold net_write.
  destruct (n_writes n) as [|[[]|e] ws];
    eexists _, w', _, payload, (mkSignedTransport message sig mb pad); split_and!; done.
Qed.

Lemma exec_reject s msg w n :
  exists e w' n', exec (reject s msg) w n = (Some (Err e), w', n') /\
    w_store w' = w_store w /\ only_refusal s n n'.
Proof.
  set (acc := mkResumeAccept false (str "resumption not available")).
  destruct (marshal_ascii acc) as [message Em]; [vm_compute; by repeat constructor|].
  assert (Hml : blen message <= maxTransportSize).
  { rewrite (marshal_size _ _ Em), size_fields. vm_compute. done. }
  set (md := mkMetadata [] None 0 (ToProto RouteResumeAccept)).
  destruct (exec_write_signed (sv_attest s) message md "signing resume accept" RouteResumeAccept w n)
    as (r & w' & n' & payload & st & E & Hst & Hu & Hsb & Hsent); try done; [by constructor|].
  assert (Es : exec (sendResumeAccept (sv_attest s) false) w n = (Some r, w', n')).
  { unfold sendResumeAccept, marshal_result. fold acc. rewrite Em. exact E. }
  unfold reject. rewrite exec_bind, Es. destruct r as [u|e]; eexists _, w', n'; split_and!; try done.
  - right. exists payload, st. pose proof Hsb as (Hd & Hr & Hsig). split_and!; try done.
    + rewrite Hd. apply unmarshal_marshal; [|done]. vm_compute. done.
    + by rewrite Hsig, Hd.
  - by left.
Qed.

Lemma exec_on_error_err {A} (p : prog St (result A)) t w n e w' n' :
  exec p w n = (Some (Err e), w', n') ->
  exec (on_error p (set_deadline t)) w n = (Some (Err e), w', n').
Proof. intros E. unfold on_error, on_panic. by rewrite exec_bind, (exec_precover_ok _ _ _ _ _ _ _ E). Qed.

(** C9: A request with a token the session does not hold, such as a replayed one, is
    refused: the server answers at most with a signed refusal, starts no
    handshake and changes nothing. *)
Theorem unknown_token_refused s st sid tok r w n :
  Unmarshal (st_Data st) = Some (mkResumeRequest sid tok) ->
  records (w_store w) sid r -> tok ∉ sr_tokens r ->
  exists e w' n', exec (handleResume s st) w n = (Some (Err e), w', n') /\
    w_store w' = w_store w /\ only_refusal s n n'.
Proof.
  intros Hu Hr Hin. destruct (remove_absent _ _ _ _ Hr Hin) as (e & Er).
  destruct (exec_reject s "resume rejected: token invalid" (set_store (w_store w) (after_now w)) n)
    as (e' & w' & n' & E & Hst & Href).
  exists e', w', n'. split_and!; try done.
  unfold handleResume, arm_deadline, set_deadline. cbn [pbind ask exec net_step].
  apply exec_on_error_err. unfold unmarshal_result. rewrite Hu. cbn [of_option rr_SessionID rr_Token].
  cbn [pbind ask exec net_step w_store after_now]. rewrite Er. exact E.
Qed.

End refusals.

(** ** What becomes of the tokens of a cold session *)

Section cold_tokens.
Context `{Crypto} `{ProtoRuntime} `{Bolt} `{!CryptoOk _} `{!ProtoRuntimeOk _} `{!BoltOk _}.
Implicit Types (w : world store) (d : Dialer store) (s : Server store).

(** No session has a record yet. *)
Definition no_sessions (st : store) : Prop :=
  forall sid, has_bucket (s_db st) (session_path sid "meta") = false.

Lemma tokens_not_stored t st : no_sessions st -> tokens_stored t st = st.
Proof.
  intros Hn. unfold tokens_stored. cbn [ss_SetMeta storage_sessions].
  destruct (SetMeta_missing (t_sessionID t)
    (NewByteSlicesMeta ResumptionTokensKey (default [] (deriveResumptionTokens t))) st) as (e & E & _).
  { intros (_ & _ & Ho). by rewrite Hn in Ho. }
  by rewrite E.
Qed.

Lemma created_no_tokens st st' sid p t :
  no_sessions st -> created st st' sid p t ->
  exists e, PopList sid ResumptionTokensKey st' = (Err e, st') /\ errors_is e ErrNotFound = true.
Proof.
  intros Hn (_ & _ & Ho & _ & _ & _ & Hg).
  assert (Hnone : bucket_Get (s_db st') (session_path sid "meta") ResumptionTokensKey = None).
  { rewrite Hg by (right; split; vm_compute; done).
    destruct (bucket_Get (s_db st) _ _) eqn:E; [|done]. apply get_bucket in E. by rewrite Hn in E. }
  exists (Sentinel ErrNotFound). split; [|done]. unfold PopList.
  rewrite (Command_err _ st' (Sentinel ErrMissingItem) st'); [by rewrite set_db_same|].
  unfold gbind at 1. rewrite sessionMeta_open by done.
  unfold gbind, GetEncrypted, ns_get. unfold gbind. by rewrite Hnone.
Qed.

(** C38: When two parties meet for the first time the resumption tokens of their
    session are lost on both sides: both derive the same twenty tokens, but
    storing them fails because the session has no record yet, the error is
    dropped, and the record the application creates afterwards has no tokens. *)
Theorem cold_session_tokens_lost d s pkA pkB wA wB :
  acquainted d s pkA pkB -> clock_ok wA -> clock_ok wB ->
  ho_sessionID (d_opts d) = [] -> ho_sessionID (sv_opts s) = [] ->
  accepts (ho_remoteVerifier (d_opts d))
    (introduced (sv_serverName s) (rel_version (sv_release s)) pkB) no_sessions ->
  accepts (ho_remoteVerifier (sv_opts s))
    (introduced (d_clientName d) (rel_version (d_release d)) pkA) no_sessions ->
  no_sessions (w_store wA) -> no_sessions (w_store wB) ->
  exists tr tA tB wA' wB' tokens,
    follows true (Dial d (Ok tt)) tr wA = Some (Ok tA, wA') /\
    follows false (establish s) tr wB = Some (Ok tB, wB') /\
    deriveResumptionTokens tA = Some tokens /\ deriveResumptionTokens tB = Some tokens /\
    length tokens = 20%nat /\
    forall st st' p t, st = w_store wA' \/ st = w_store wB' ->
      created st st' (t_sessionID tA) p t ->
      exists e, PopList (t_sessionID tA) ResumptionTokensKey st' = (Err e, st') /\
        errors_is e ErrNotFound = true.
Proof.
  intros Hacq HcA HcB SA SB VA VB HIA HIB.
  destruct (over_exchange d s wA wB) as (w1 & w2 & S1 & S2 & C1 & C2 & Hover).
  destruct (cold_over d s pkA pkB no_sessions w1 w2 Hacq) as
    (tr & tA & tB & wA' & wB' & sA & sB & FA & FB & Hag & _ & _ & Lt & Nt & IA & EA & IB & EB);
    unfold clock_ok; rewrite ?C1, ?C2, ?S1, ?S2; try done.
  destruct (Hover tr tA tB wA' wB') as (tr' & GA & GB & _); [lia|done| |done|].
  { unfold dial_over. by rewrite SA, bool_decide_eq_true_2. }
  destruct (agreed_tokens _ _ _ Hag) as (tokens & KA & KB & Kn & _).
  exists tr', tA, tB, wA', wB', tokens. split_and!; try done.
  rewrite tokens_not_stored in EA, EB by done.
  intros st st' p t [->| ->] Hcr; (eapply created_no_tokens; [|exact Hcr]); [by rewrite EA|by rewrite EB].
Qed.

End cold_tokens.

(** ** Concrete runs *)

Section sample.
Existing Instance toy_crypto.
Existing Instance wire_runtime.
Existing Instance map_bolt.

Definition sample_rec (n : Z) : session_rec := mkRec sample_tokens (sample_party n) sample_time.

Lemma sample_in_window seed (st : store) : in_window (sample_world seed st) sample_time.
Proof.
  intros i. cbn [w_clock sample_world]. pose proof (Nat.mod_upper_bound i 1000).
  unfold time_Sub, sample_time, resumptionGracePeriod, Hour, Minute, Second. lia.
Qed.

Lemma resume_authorised_witness :
  exists stB st n t w' n', exec (handleResume sample_server st) (sample_world 9 stB) n = (Some (Ok t), w', n') /\
    be_put 32 1 ∈ sample_tokens /\
    Verify (sample_key 1) (signingInput (st_Metadata st) (st_Data st)) (st_Signature st) = true /\
    (exists i, time_Sub (w_clock (sample_world 9 stB) i) sample_time <= resumptionGracePeriod) /\
    t_sessionID t = sample_sid /\ t_remotePeer t = Some (sample_party 1) /\
    serde_remote (t_serde t) = sample_key 1.
Proof.
  destruct (sample_recorded 2) as (stA & RA); [vm_compute; done|].
  destruct (sample_recorded 1) as (stB & RB); [vm_compute; done|].
  destruct (resume_over (sample_dialer sample_sid) sample_server (sample_key 1) (sample_key 2) sample_sid
    (sample_rec 2) (sample_rec 1) (be_put 32 1) [be_put 32 2] (sample_world 3 stA) (sample_world 9 stB))
    as (payload & st & tr & tA & tB & wA' & wB' & tokens & _ & _ & D & _ & FB & _); try done.
  { apply sample_acquainted. }
  { apply sample_clock_ok. }
  { apply sample_clock_ok. }
  { vm_compute. by repeat constructor. }
  { left. }
  { apply sample_in_window. }
  pose proof (exec_follows false _ _ _ _ _ [] [] false FB) as E.
  eexists stB, st, _, tB, wB', _. split; [exact E|].
  eapply (resume_authorised sample_server st sample_sid (be_put 32 1) (sample_rec 1) (sample_world 9 stB)
           _ tB wB' _ D); [vm_compute; done|exact RB|exact E].
Defined.

Lemma unknown_token_refused_witness :
  exists stB data,
    Unmarshal data = Some (mkResumeRequest sample_sid (be_put 32 7)) /\
    let st := mkSignedTransport data [] [] [] in
    exists e w' n', exec (handleResume sample_server st) (sample_world 9 stB) (Net [] [] [] false)
        = (Some (Err e), w', n') /\
      w_store w' = stB /\ only_refusal sample_server (Net [] [] [] false) n'.
Proof.
  destruct (sample_recorded 1) as (stB & RB); [vm_compute; done|].
  destruct (marshal_ascii (mkResumeRequest sample_sid (be_put 32 7))) as [data Ed];
    [vm_compute; by repeat constructor|].
  exists stB, data.
  assert (D : Unmarshal data = Some (mkResumeRequest sample_sid (be_put 32 7))).
  { apply unmarshal_marshal; [vm_compute; done|done]. }
  split; [done|].
  apply (unknown_token_refused sample_server (mkSignedTransport data [] [] []) sample_sid (be_put 32 7)
           (sample_rec 1) (sample_world 9 stB) (Net [] [] [] false) D); [exact RB|].
  apply (bool_decide_unpack _). vm_compute. done.
Defined.

Lemma cold_session_tokens_lost_witness :
  exists tr tA tB wA' wB' tokens,
    follows true (Dial (sample_dialer []) (Ok tt)) tr (sample_world 3 (sample_store [])) = Some (Ok tA, wA') /\
    follows false (establish sample_server) tr (sample_world 9 (sample_store [])) = Some (Ok tB, wB') /\
    deriveResumptionTokens tA = Some tokens /\ deriveResumptionTokens tB = Some tokens /\
    length tokens = 20%nat /\
    forall st st' p t, st = w_store wA' \/ st = w_store wB' ->
      created st st' (t_sessionID tA) p t ->
      exists e, PopList (t_sessionID tA) ResumptionTokensKey st' = (Err e, st') /\
        errors_is e ErrNotFound = true.
Proof.
  apply (cold_session_tokens_lost (sample_dialer []) sample_server (sample_key 1) (sample_key 2)); try done.
  - apply sample_acquainted.
  - apply sample_clock_ok.
  - apply sample_clock_ok.
  - intros w Hw. by exists w.
  - intros w Hw. by exists w.
Defined.

End sample.
