(* ===== verification/Relay.v ===== *)
(** * The relay's wire format (pkg/relayconn: framing.go, pb/relay.proto)

    The frames the relay and its clients exchange, as the generated Go structs
    hold them; and the length-prefixed [Framing] that carries them over TCP and
    TLS.  A [Framing] wraps an [io.ReadWriteCloser], here the stream of [Conn]. *)

From S2P Require Import Prelude GoErr Wire Pb Conn.

#[local] Open Scope go_scope.

(** ** Frames *)

(** [Register.Mode]; the enum is open. *)
Definition MODE_UNSPECIFIED : Z := 0.
Definition MODE_CREATE : Z := 1.
Definition MODE_JOIN : Z := 2.

(** [oneof kind]. *)
Inductive frame_kind :=
| Frame_Register (token : bytes) (mode : Z)
| Frame_Registered (token : bytes) (ttl_seconds session_ttl_seconds : Z)
| Frame_Msg (data : bytes)
| Frame_Ping
| Frame_Pong
| Frame_Auth (psk : bytes).

Record Frame := mkFrame { Kind : option frame_kind }.

Definition kind_number (k : frame_kind) : Z :=
  match k with
  | Frame_Register _ _ => 1
  | Frame_Registered _ _ _ => 2
  | Frame_Msg _ => 3
  | Frame_Ping => 4
  | Frame_Pong => 5
  | Frame_Auth _ => 6
  end.

(** The fields of the embedded message. *)
Definition kind_fields (k : frame_kind) : list wfield :=
  match k with
  | Frame_Register token mode => opt_bytes 1 token ++ opt_varint 2 (u64 mode)
  | Frame_Registered token ttl sttl => opt_bytes 1 token ++ opt_varint 2 ttl ++ opt_varint 3 sttl
  | Frame_Msg data => opt_bytes 1 data
  | Frame_Ping | Frame_Pong => []
  | Frame_Auth psk => opt_bytes 1 psk
  end.

Definition kind_of (n : Z) (fs : list wfield) : option frame_kind :=
  if n =? 1 then Some (Frame_Register (get_bytes 1 fs) (i64 (get_varint 2 fs)))
  else if n =? 2 then Some (Frame_Registered (get_bytes 1 fs) (get_varint 2 fs) (get_varint 3 fs))
  else if n =? 3 then Some (Frame_Msg (get_bytes 1 fs))
  else if n =? 4 then Some Frame_Ping
  else if n =? 5 then Some Frame_Pong
  else if n =? 6 then Some (Frame_Auth (get_bytes 1 fs))
  else None.

Definition kind_wf (k : frame_kind) : Prop :=
  match k with
  | Frame_Register token mode => blen token < 2 ^ 60 /\ - 2 ^ 31 <= mode < 2 ^ 31
  | Frame_Registered token ttl sttl => blen token < 2 ^ 60 /\ 0 <= ttl < 2 ^ 32 /\ 0 <= sttl < 2 ^ 32
  | Frame_Msg b | Frame_Auth b => blen b < 2 ^ 60
  | Frame_Ping | Frame_Pong => True
  end.

(** The last member of the [oneof] that occurs wins. *)
Fixpoint oneof_kind (fs : list wfield) (cur : option frame_kind) : option (option frame_kind) :=
  match fs with
  | [] => Some cur
  | (n, WVarint _) :: rest => oneof_kind rest cur
  | (n, WBytes b) :: rest =>
      if (1 <=? n) && (n <=? 6) then
        match decode_fields (length b) b with
        | None => None
        | Some inner => oneof_kind rest (kind_of n inner)
        end
      else oneof_kind rest cur
  end.

Lemma kind_fields_ok k : kind_wf k -> Forall wfield_ok (kind_fields k).
Proof.
  destruct k as [token mode|token ttl sttl|data| | |psk]; cbn [kind_wf kind_fields]; intros Hk;
    try constructor; wire_ok.
  apply u64_range.
Qed.

Lemma kind_roundtrip k : kind_wf k -> kind_of (kind_number k) (kind_fields k) = Some k.
Proof.
  destruct k as [token mode|token ttl sttl|data| | |psk]; cbn [kind_wf kind_fields kind_number];
    intros Hk; try done; unfold kind_of; cbn [Z.eqb Pos.eqb]; do 2 f_equal;
    unfold get_bytes, get_varint; autorewrite with wire; cbn [Z.eqb Pos.eqb]; rewrite ?option_id;
    try (by destruct token); try (by destruct data); try (by destruct psk);
    try (apply default_opt_varint).
  - match goal with |- i64 ?a = _ => replace a with (u64 mode); [apply i64_u64; lia|] end.
    destruct (Z.eqb_spec (u64 mode) 0); simpl; congruence.
Qed.

Lemma kind_size k : kind_wf k -> wire_size (kind_fields k) <= 2 ^ 60 + 100.
Proof.
  assert (Hb : forall n b, 1 <= n <= 15 -> blen b < 2 ^ 60 -> wire_size (opt_bytes n b) <= 2 ^ 60 + 20).
  { intros n [|x b] Hn Hb; [simpl; lia|]. cbn [opt_bytes wire_size foldr wfield_size fst snd].
    pose proof (uvarint_len_10 (n * 8 + 2) ltac:(lia)). pose proof (blen_nonneg (x :: b)).
    pose proof (uvarint_len_10 (blen (x :: b)) ltac:(lia)). unfold wfield_size. cbn [fst snd]. lia. }
  assert (Hv : forall n z, 1 <= n <= 15 -> 0 <= z < 2 ^ 64 -> wire_size (opt_varint n z) <= 20).
  { intros n z Hn Hz. unfold opt_varint. destruct (z =? 0); [simpl; lia|].
    cbn [wire_size foldr]. unfold wfield_size. cbn [fst snd].
    pose proof (uvarint_len_10 (n * 8) ltac:(lia)). pose proof (uvarint_len_10 z Hz). lia. }
  destruct k as [token mode|token ttl sttl|data| | |psk]; cbn [kind_wf kind_fields]; intros Hk;
    rewrite ?wire_size_app; try (simpl; lia).
  - pose proof (Hb 1 token). pose proof (Hv 2 (u64 mode) ltac:(lia) (u64_range mode)). lia.
  - pose proof (Hb 1 token). pose proof (Hv 2 ttl). pose proof (Hv 3 sttl). lia.
  - pose proof (Hb 1 data). lia.
  - pose proof (Hb 1 psk). lia.
Qed.

#[export] Program Instance Frame_message : Message Frame := {
  fields m := match Kind m with
              | None => []
              | Some k => [(kind_number k, WBytes (encode_fields (kind_fields k)))]
              end;
  unfields fs := mkFrame <$> oneof_kind fs None;
  strings_of m := [];
  msg_wf m := match Kind m with None => True | Some k => kind_wf k end
}.
Next Obligation.
  intros [[k|]] Hk; [|constructor]. cbn [Kind] in *. apply Forall_singleton. split.
  - cbn [fst]. destruct k; simpl; lia.
  - cbn [snd]. rewrite blen_encode_fields. pose proof (kind_size k Hk). lia.
Qed.
Next Obligation.
  intros [[k|]] Hk; [|done]. cbn [Kind oneof_kind] in *.
  replace ((1 <=? kind_number k) && (kind_number k <=? 6)) with true by (by destruct k).
  rewrite decode_encode_fields; [|by apply kind_fields_ok|apply length_encode_fields].
  by rewrite kind_roundtrip.
Qed.

(** The getters of the generated code. *)
Definition GetAuth (f : Frame) : option bytes :=
  match Kind f with Some (Frame_Auth psk) => Some psk | _ => None end.
Definition GetRegister (f : Frame) : option (bytes * Z) :=
  match Kind f with Some (Frame_Register token mode) => Some (token, mode) | _ => None end.
Definition GetRegistered (f : Frame) : option (bytes * Z * Z) :=
  match Kind f with Some (Frame_Registered token ttl sttl) => Some (token, ttl, sttl) | _ => None end.

(** ** Framing *)

Record Framing := NewFraming { fr_rw : netconn; fr_maxSize : Z }.

Definition with_rw (n : netconn) (f : Framing) : Framing := NewFraming n (fr_maxSize f).

(** [io.ReadFull], which [binary.Read] uses too. *)
Definition fr_ReadFull (n : Z) : go Framing bytes := fun f =>
  let '(r, rest) := read_full (nc_in (fr_rw f)) n [] in (r, with_rw (set_in rest (fr_rw f)) f).

Definition framing_ReadBytes : go Framing bytes :=
  let* lenBuf := gwrap "read length" (fr_ReadFull 2) in
  let length := be_get lenBuf in
  let* maxSize := gget fr_maxSize in
  if (0 <? maxSize) && (maxSize <? length) then gfail (errorf "frame size exceeds max")
  else gwrap "read data" (fr_ReadFull length).

(** One [Write].  An [io.Writer] reports an error when it writes less than it
    was given. *)
Definition fr_Write (data : bytes) : go Framing unit := fun f =>
  let n := fr_rw f in
  match nc_wr n (nc_wpos n) with
  | Wrote _ => (Ok tt, with_rw (put_out data n) f)
  | WroteErr k e =>
      (Err e, with_rw (put_out (btake (Z.min (Z.max k 0) (blen data)) data) n) f)
  end.

Definition framing_WriteBytes (data : bytes) : go Framing unit :=
  gwrap "write length" (fr_Write (be_put 2 (u16 (blen data)))) ;*
  gwrap "write data" (fr_Write data).

(** The framing of [DefaultMaxFrameSize], as the clients construct it. *)
Definition DefaultMaxFrameSize : Z := 65536.

(** ** Theorems *)

(** The stream accepts every write. *)
Definition writable (n : netconn) : Prop := forall i, exists k, nc_wr n i = Wrote k.

Lemma fr_Write_ok data f :
  writable (fr_rw f) ->
  exists f', fr_Write data f = (Ok tt, f') /\ writable (fr_rw f') /\
    nc_out (fr_rw f') = nc_out (fr_rw f) ++ data.
Proof.
  intros Hw. unfold fr_Write. destruct (Hw (nc_wpos (fr_rw f))) as [k ->].
  eexists. split_and!; [reflexivity|exact Hw|done].
Qed.

(** What [WriteBytes] puts on the stream, of whatever length. *)
Lemma framing_write data f :
  writable (fr_rw f) ->
  exists f', framing_WriteBytes data f = (Ok tt, f') /\ writable (fr_rw f') /\
    nc_out (fr_rw f') = nc_out (fr_rw f) ++ be_put 2 (u16 (blen data)) ++ data.
Proof.
  intros Hw. destruct (fr_Write_ok (be_put 2 (u16 (blen data))) f Hw) as (f1 & E1 & W1 & O1).
  destruct (fr_Write_ok data f1 W1) as (f2 & E2 & W2 & O2). exists f2. split_and!; [|done|].
  - unfold framing_WriteBytes, gwrap. erewrite gbind_ok by (by rewrite E1). cbv beta. by rewrite E2.
  - by rewrite O2, O1, app_assoc.
Qed.

Fixpoint framing_write_all (msgs : list bytes) : go Framing unit :=
  match msgs with
  | [] => gret tt
  | m :: rest => framing_WriteBytes m ;* framing_write_all rest
  end.

Fixpoint framing_read_all (n : nat) : go Framing (list bytes) :=
  match n with
  | O => gret []
  | S n' => let* m := framing_ReadBytes in let* ms := framing_read_all n' in gret (m :: ms)
  end.

(** Reading one message of which the stream holds the prefix [be_put 2 n]. *)
Lemma framing_read n rest f :
  0 <= n < 65536 -> fr_maxSize f = 0 \/ n <= fr_maxSize f ->
  flatten (nc_in (fr_rw f)) = be_put 2 n ++ rest -> n <= blen rest ->
  exists f', framing_ReadBytes f = (Ok (btake n rest), f') /\
    flatten (nc_in (fr_rw f')) = bdrop n rest /\ fr_maxSize f' = fr_maxSize f.
Proof.
  intros Hn Hm Hin Hl.
  destruct (read_full_ok (nc_in (fr_rw f)) 2 []) as (r1 & E1 & F1).
  { rewrite Hin. go_len. pose proof (blen_nonneg rest). lia. }
  rewrite Hin, btake_app_exact, bdrop_app_exact in * by (by rewrite blen_be_put).
  destruct (read_full_ok r1 n []) as (r2 & E2 & F2); [rewrite F1; lia|]. rewrite F1 in *.
  eexists (with_rw _ _). unfold framing_ReadBytes, gwrap, fr_ReadFull.
  erewrite gbind_ok by (by rewrite E1). cbv beta. erewrite gbind_ok by done.
  cbn [app]. rewrite be_get_put_small by (simpl; lia). cbn [fr_maxSize with_rw].
  replace ((0 <? fr_maxSize f) && (fr_maxSize f <? n)) with false.
  2: { symmetry. apply andb_false_iff. destruct Hm as [->|Hm]; [by left|right]. by apply Z.ltb_ge. }
  cbn [fr_rw with_rw set_in nc_in]. rewrite E2. split_and!; [reflexivity|done|done].
Qed.

(** A reader that accepts every frame up to 65,535 bytes. *)
Definition unlimited (f : Framing) : Prop := fr_maxSize f = 0 \/ MaxUint16 <= fr_maxSize f.

(** Messages that fit a frame survive the framing: written by one end, they are
    read by the other in order and whole, however the stream splits them. *)
Theorem framing_roundtrip msgs f :
  writable (fr_rw f) -> nc_out (fr_rw f) = [] -> Forall (fun m => blen m <= MaxUint16) msgs ->
  exists f', framing_write_all msgs f = (Ok tt, f') /\
    (forall g tail, unlimited g -> flatten (nc_in (fr_rw g)) = nc_out (fr_rw f') ++ tail ->
     exists g', framing_read_all (length msgs) g = (Ok msgs, g') /\ flatten (nc_in (fr_rw g')) = tail).
Proof.
  intros Hw Ho Hf.
  assert (Hwrite : exists f', framing_write_all msgs f = (Ok tt, f') /\
    nc_out (fr_rw f') = nc_out (fr_rw f) ++ concat (map frame msgs)).
  { clear Ho. revert f Hw. induction Hf as [|m msgs Hm _ IH]; intros f Hw; simpl.
    { exists f. by rewrite app_nil_r. }
    destruct (framing_write m f Hw) as (f1 & E1 & W1 & O1).
    destruct (IH f1 W1) as (f2 & E2 & O2). exists f2. split.
    - by erewrite gbind_ok by exact E1.
    - rewrite O2, O1, <- app_assoc. unfold frame, u16.
      pose proof (blen_nonneg m). by rewrite Z.mod_small by (unfold MaxUint16 in Hm; lia). }
  destruct Hwrite as (f' & E & O). exists f'. split; [done|]. rewrite O, Ho. clear f f' Hw Ho E O.
  intros g tail. revert g. induction Hf as [|m msgs Hm _ IH]; intros g Hg Hin; cbn [length map concat framing_read_all] in *; [by exists g|].
  pose proof (blen_nonneg m). unfold unlimited, MaxUint16 in *.
  rewrite <- app_assoc in Hin. change (frame m) with (be_put 2 (blen m) ++ m) in Hin. rewrite <- app_assoc in Hin.
  destruct (framing_read (blen m) (m ++ concat (map frame msgs) ++ tail) g) as (g1 & E1 & F1 & M1);
    [lia|lia|done|go_len; pose proof (blen_nonneg (concat (map frame msgs))); pose proof (blen_nonneg tail); lia|].
  rewrite btake_app_exact in E1 by done. rewrite bdrop_app_exact in F1 by done.
  destruct (IH g1) as (g2 & E2 & F2); [by rewrite M1|done|]. exists g2. split; [|done].
  erewrite gbind_ok by exact E1. by erewrite gbind_ok by exact E2.
Qed.

(** [WriteBytes] does not check the length it writes: of a message of 65,536
    bytes or more the reader takes the first [len mod 65536] bytes for the whole
    message, and the rest of it for the frames that follow. *)
Lemma framing_truncates data tail f g :
  writable (fr_rw f) -> nc_out (fr_rw f) = [] -> unlimited g -> 65536 <= blen data < 2 * 65536 ->
  exists f', framing_WriteBytes data f = (Ok tt, f') /\
    (flatten (nc_in (fr_rw g)) = nc_out (fr_rw f') ++ tail ->
     exists g', framing_ReadBytes g = (Ok (btake (blen data - 65536) data), g') /\
       flatten (nc_in (fr_rw g')) = bdrop (blen data - 65536) data ++ tail).
Proof.
  intros Hw Ho Hg Hl. destruct (framing_write data f Hw) as (f' & E & _ & O). exists f'.
  split; [done|]. rewrite O, Ho. cbn [app]. intros Hin.
  assert (Hu : u16 (blen data) = blen data - 65536).
  { unfold u16. symmetry. apply (Z.mod_unique _ _ 1); lia. }
  rewrite Hu, <- app_assoc in Hin. unfold unlimited, MaxUint16 in Hg.
  destruct (framing_read (blen data - 65536) (data ++ tail) g) as (g' & E' & F' & _);
    [lia|lia|done|go_len; pose proof (blen_nonneg tail); lia|].
  exists g'. split.
  - rewrite E'. do 2 f_equal. unfold btake, blen in *. by rewrite take_app_le by lia.
  - rewrite F'. unfold bdrop, blen in *. by rewrite drop_app_le by lia.
Qed.

(** ** Witnesses *)

(** A socket that takes one byte per write. *)
Definition sample_framing (inp : list chunk) : Framing :=
  NewFraming (sample_net inp) DefaultMaxFrameSize.

Lemma sample_writable inp : writable (fr_rw (sample_framing inp)).
Proof. intros i. by exists 1. Qed.

Lemma flatten_bytewise b : flatten (map (fun x => Data [x]) b) = b.
Proof. induction b as [|x b IH]; [done|]. cbn [map]. by rewrite <- IH at 2. Qed.

Lemma framing_roundtrip_witness :
  exists f', framing_write_all sample_messages (sample_framing []) = (Ok tt, f') /\
    exists g', framing_read_all 3 (sample_framing (map (fun b => Data [b]) (nc_out (fr_rw f') ++ str "x")))
               = (Ok sample_messages, g') /\ flatten (nc_in (fr_rw g')) = str "x".
Proof.
  destruct (framing_roundtrip sample_messages (sample_framing [])) as (f' & E & Hr);
    [apply sample_writable|reflexivity|repeat constructor; vm_compute; discriminate|].
  exists f'. split; [exact E|]. apply Hr.
  - right. vm_compute. discriminate.
  - apply flatten_bytewise.
Defined.
