(* ===== verification/RelayToken.v ===== *)
(** * Relay tokens (pkg/relayconn/token.go)

    The checks on user-provided tokens, the token two contacts derive from
    their public keys, and the pool of reconnect tokens two peers derive from an
    ephemeral key exchange over their transport.

    [ValidateUserToken] computes the Shannon entropy of the 32 bytes in floating
    point and requires more than 3 bits per byte.  With [f] occurrences of each
    byte the entropy is [5 - (sum of f * log2 f) / 32], so the requirement is
    that the product of the [f ^ f] is below [2 ^ 64]; the model uses this form.
    Tokens whose product is not [2 ^ 64] are at least [3e-4] bits away from the
    bound, far more than the rounding error; the product is [2 ^ 64] only for
    frequencies that are powers of two, where the code computes 3 exactly. *)

From S2P Require Import Prelude GoErr Process Wire Pb Route Crypto Enigma Serde Transport.

Definition relayTokenSize : Z := 16.
Definition peerTokenSize : Z := 32.
Definition tokenPoolSize : nat := 3.
Definition tokenInfoPrefix : bytes := str "kamune/relay-reconnect/v1/".

Definition freq (b : byte) (token : bytes) : Z := Z.of_nat (length (filter (fun x => x = b) token)).

Definition all_bytes : list byte := map (fun i => bof (Z.of_nat i)) (seq 0 256).

(** The product over all byte values of [f ^ f]. *)
Definition frequency_product (token : bytes) : Z :=
  foldr (fun b acc => freq b token ^ freq b token * acc) 1 all_bytes.

Definition ValidateUserToken (token : bytes) : result unit :=
  if negb (blen token =? peerTokenSize) then Err (Sentinel ErrTokenTooShort)
  else if forallb (fun b => bval b =? 0) token then Err (Sentinel ErrTokenInsufficientEntropy)
  else if forallb (fun b => bool_decide (Some b = head token)) (tail token)
       then Err (Sentinel ErrTokenInsufficientEntropy)
  else if 2 ^ 64 <=? frequency_product token then Err (Sentinel ErrTokenInsufficientEntropy)
  else Ok tt.

(** [bytes.Compare]. *)
Fixpoint bytes_Compare (a b : bytes) : Z :=
  match a, b with
  | [], [] => 0
  | [], _ => -1
  | _, [] => 1
  | x :: a', y :: b' =>
      if bval x <? bval y then -1 else if bval y <? bval x then 1 else bytes_Compare a' b'
  end.

(** ** [pb.SessionData] *)

Record SessionData := mkSessionData { sd_Fields : gmap bytes bytes }.

Definition entry_fields (kv : bytes * bytes) : list wfield := [(1, WBytes (fst kv)); (2, WBytes (snd kv))].

Fixpoint read_entries (fs : list wfield) (m : gmap bytes bytes) : option (gmap bytes bytes) :=
  match fs with
  | [] => Some m
  | (n, WBytes b) :: rest =>
      if n =? 1 then
        match decode_fields (length b) b with
        | None => None
        | Some kv => read_entries rest (<[get_bytes 1 kv := get_bytes 2 kv]> m)
        end
      else read_entries rest m
  | (n, WVarint _) :: rest => read_entries rest m
  end.

Definition entry_ok (kv : bytes * bytes) : Prop := blen (fst kv) < 2 ^ 60 /\ blen (snd kv) < 2 ^ 60.

Lemma entry_roundtrip kv fs m :
  entry_ok kv ->
  read_entries ((1, WBytes (encode_fields (entry_fields kv))) :: fs) m
  = read_entries fs (<[fst kv := snd kv]> m).
Proof.
  destruct kv as [k v]. intros [Hk Hv]. cbn [fst snd] in *. cbn [read_entries].
  change (1 =? 1) with true. cbv iota.
  rewrite decode_encode_fields; [done| |apply length_encode_fields].
  repeat constructor; cbn [fst snd]; lia.
Qed.

Lemma read_entries_all l m :
  Forall entry_ok l ->
  read_entries (map (fun kv => (1, WBytes (encode_fields (entry_fields kv)))) l) m
  = Some (foldl (fun m kv => <[fst kv := snd kv]> m) m l).
Proof.
  intros Hf. revert m. induction Hf as [|kv l Hkv _ IH]; intros m; [done|].
  cbn [map foldl]. rewrite entry_roundtrip by done. apply IH.
Qed.

Lemma foldl_insert_list (l : list (bytes * bytes)) (m : gmap bytes bytes) :
  NoDup l.*1 -> foldl (fun m kv => <[fst kv := snd kv]> m) m l = list_to_map l ∪ m.
Proof.
  revert m. induction l as [|[k v] l IH]; intros m Hn; simpl; [by rewrite (left_id_L ∅ _)|].
  inversion Hn as [|? ? Hk Hn']; subst. rewrite IH by done.
  rewrite <- insert_union_l. rewrite <- insert_union_r; [done|]. by apply not_elem_of_list_to_map_1.
Qed.

#[export] Program Instance SessionData_message : Message SessionData := {
  fields m := map (fun kv => (1, WBytes (encode_fields (entry_fields kv)))) (map_to_list (sd_Fields m));
  unfields fs := mkSessionData <$> read_entries fs ∅;
  strings_of m := map fst (map_to_list (sd_Fields m));
  msg_wf m := Forall entry_ok (map_to_list (sd_Fields m))
}.
Next Obligation.
  intros m Hf. apply Forall_map. eapply Forall_impl; [exact Hf|]. intros [k v] [Hk Hv]. split; [done|].
  cbn [fst snd] in *. rewrite blen_encode_fields. cbn [entry_fields wire_size foldr fst snd].
  unfold wfield_size. cbn [fst snd].
  pose proof (uvarint_len_10 (1 * 8 + 2) ltac:(lia)). pose proof (uvarint_len_10 (2 * 8 + 2) ltac:(lia)).
  pose proof (blen_nonneg k). pose proof (blen_nonneg v).
  pose proof (uvarint_len_10 (blen k) ltac:(lia)). pose proof (uvarint_len_10 (blen v) ltac:(lia)). lia.
Qed.
Next Obligation.
  intros [m] Hf. cbn [sd_Fields] in *. rewrite read_entries_all by done. cbn. do 2 f_equal.
  rewrite foldl_insert_list by apply NoDup_fst_map_to_list.
  by rewrite (right_id_L ∅ _), list_to_map_to_list.
Qed.

Section token.
Context `{Crypto} `{ProtoRuntime} {St : Type}.
Implicit Types (w : world St).

(** What is hashed: the smaller key, then the larger one. *)
Definition token_input (a b : bytes) : bytes :=
  let '(lo, hi) := if 0 <? bytes_Compare a b then (b, a) else (a, b) in lo ++ hi.

Definition TokenFromKeys (a b : bytes) : result bytes :=
  if negb (blen a =? PublicKeySize) || negb (blen b =? PublicKeySize)
  then Err (Sentinel ErrInvalidKeySize)
  else Ok (sha256_Sum (token_input a b)).

Definition ecdh_pubkey : bytes := str "ecdh_pubkey".

(** [for i := range uint32(tokenPoolSize)]. *)
Fixpoint expand_tokens (sharedSecret : bytes) (i : Z) (n : nat) : result (list bytes) :=
  match n with
  | O => Ok []
  | S n' =>
      match hkdf_expand sharedSecret (tokenInfoPrefix ++ be_put 4 i) 32 with
      | None => Err (wrapf "hkdf expand token" (errorf "hkdf: requested key length too large"))
      | Some tok =>
          match expand_tokens sharedSecret (i + 1) n' with
          | Err e => Err e
          | Ok toks => Ok (tok :: toks)
          end
      end
  end.

(** The transport's counters advance as a side effect. *)
Definition DeriveRelayTokens (transport : Transport) : prog St (result (list bytes) * Transport) :=
  do k <- NewECDH;
  match k with
  | Err e => Ret (Err (wrapf "generating ecdh key" e), transport)
  | Ok localKey =>
      do ' (s, transport) <- Send transport (mkSessionData {[ ecdh_pubkey := ecdh_public localKey ]})
                               RouteSessionData;
      match s with
      | Err e => Ret (Err (wrapf "sending ecdh pubkey" e), transport)
      | Ok _ =>
          do ' (r, transport) <- Receive transport (M := SessionData);
          match r with
          | Err e => Ret (Err (wrapf "receiving ecdh pubkey" e), transport)
          | Ok (_, peerSession) =>
              match sd_Fields peerSession !! ecdh_pubkey with
              | None => Ret (Err (Sentinel ErrECDHPeerKeyMissing), transport)
              | Some peerPub =>
                  match ECDH_Exchange localKey peerPub with
                  | Err e => Ret (Err (wrapf "ecdh exchange" e), transport)
                  | Ok sharedSecret => Ret (expand_tokens sharedSecret 0 tokenPoolSize, transport)
                  end
              end
          end
      end
  end.

(** ** Theorems *)

Context `{!CryptoOk _} `{!ProtoRuntimeOk _}.

Lemma bytes_Compare_antisym a b : bytes_Compare a b = - bytes_Compare b a.
Proof.
  revert b. induction a as [|x a IH]; intros [|y b]; simpl; try done.
  destruct (Z.ltb_spec (bval x) (bval y)), (Z.ltb_spec (bval y) (bval x)); try lia. apply IH.
Qed.

Lemma bytes_Compare_eq a b : bytes_Compare a b = 0 -> a = b.
Proof.
  revert b. induction a as [|x a IH]; intros [|y b]; simpl; try done.
  destruct (Z.ltb_spec (bval x) (bval y)), (Z.ltb_spec (bval y) (bval x)); try done.
  intros E. f_equal; [apply bval_inj; lia|by apply IH].
Qed.

Lemma token_input_sym a b : token_input a b = token_input b a.
Proof.
  unfold token_input. rewrite (bytes_Compare_antisym b a).
  destruct (Z.ltb_spec 0 (bytes_Compare a b)), (Z.ltb_spec 0 (- bytes_Compare a b)); try done; try lia.
  assert (bytes_Compare a b = 0) as Hz by lia. apply bytes_Compare_eq in Hz. by subst.
Qed.

(** Two contacts compute the same token whoever of them computes it, and the
    bytes that are hashed determine the two keys: without a collision of
    SHA-256 no other pair of contacts has the same token. *)
Theorem TokenFromKeys_identifies_pair a b c d :
  blen a = PublicKeySize -> blen b = PublicKeySize -> blen c = PublicKeySize -> blen d = PublicKeySize ->
  TokenFromKeys a b = Ok (sha256_Sum (token_input a b)) /\ TokenFromKeys b a = TokenFromKeys a b /\
  (token_input a b = token_input c d <-> (c = a /\ d = b) \/ (c = b /\ d = a)).
Proof.
  intros La Lb Lc Ld. unfold TokenFromKeys. rewrite La, Lb, Z.eqb_refl. cbn [negb orb].
  split_and!; [done|by rewrite token_input_sym|]. split.
  - unfold token_input.
    destruct (0 <? bytes_Compare a b), (0 <? bytes_Compare c d); intros E;
      (apply app_inj_blen in E as [-> ->]; [auto|congruence]).
  - intros [[-> ->]|[-> ->]]; [done|apply token_input_sym].
Qed.

Lemma expand_tokens_ok secret i n :
  exists l, expand_tokens secret i n = Ok l /\ length l = n /\ Forall (fun t => blen t = peerTokenSize) l.
Proof.
  revert i. induction n as [|n IH]; intros i; cbn [expand_tokens]; [by exists []|].
  destruct (expand_ok secret (tokenInfoPrefix ++ be_put 4 i) 32) as (t & -> & Ht); [lia|].
  destruct (IH (i + 1)) as (l & -> & Hn & Hf). exists (t :: l). split_and!; [done|simpl; lia|by constructor].
Qed.

Lemma sendable_pubkey pub :
  blen pub = 32 -> sendable (mkSessionData {[ ecdh_pubkey := pub ]}, RouteSessionData).
Proof.
  intros Hp. set (m := mkSessionData {[ ecdh_pubkey := pub ]}).
  assert (Hl : map_to_list (sd_Fields m) = [(ecdh_pubkey, pub)]) by apply map_to_list_singleton.
  destruct (marshal_ascii m) as [b Eb].
  { cbn [strings_of SessionData_message]. rewrite Hl. vm_compute. by repeat constructor. }
  assert (Hs : blen b <= maxTransportSize).
  { rewrite (marshal_size _ _ Eb), size_fields.
    cbn [fields SessionData_message]. rewrite Hl. cbn [map wire_size foldr].
    unfold wfield_size. cbn [fst snd]. rewrite blen_encode_fields.
    cbn [entry_fields wire_size foldr fst snd]. unfold wfield_size. cbn [fst snd]. rewrite Hp.
    vm_compute. done. }
  assert (Hw : msg_wf m).
  { cbn [msg_wf SessionData_message]. rewrite Hl. apply Forall_singleton.
    split; cbn [fst snd]; [vm_compute; done|lia]. }
  clearbody m. clear Hl.
  split; [exact Hw|]. split; [reflexivity|]. split; [discriminate|]. by exists b.
Qed.

(** What one side of [DeriveRelayTokens] does: it sends one message, which
    carries its public key to the other side, and from the other side's message
    derives the tokens. *)
Lemma DeriveRelayTokens_side t u w :
  paired t u -> clock_ok w ->
  exists r key mine md w',
    x25519_GenerateKey r = Some key /\
    opens u mine (md, mkSessionData {[ ecdh_pubkey := x25519_PublicKey key ]}) /\
    md_Sequence md = u64 (t_sendSequence t + 1) /\ md_route md = RouteSessionData /\
    forall theirs md' pub t',
      accept_payload (M := SessionData) (set_send (u64 (t_sendSequence t + 1)) t) theirs
        = (Ok (md', mkSessionData {[ ecdh_pubkey := pub ]}), t') ->
      exec (DeriveRelayTokens t) w (Net [Ok theirs] [] [] false) =
      (Some (match ECDH_Exchange (mkECDH key (x25519_PublicKey key)) pub with
             | Err e => Err (wrapf "ecdh exchange" e)
             | Ok secret => expand_tokens secret 0 tokenPoolSize
             end, t'), w', Net [] [] [mine] false).
Proof.
  intros Hp Hc. destruct (x25519_gen (draw 32 w)) as [key Ek]; [by apply blen_draw|].
  destruct (Send_follows true t u (mkSessionData {[ ecdh_pubkey := x25519_PublicKey key ]})
    RouteSessionData (after_draw 32 w) Hp) as (mine & md & w' & F & _ & _ & _ & Ho & Hs & Hr).
  { apply sendable_pubkey, x25519_pub_len. }
  { exact Hc. }
  exists (draw 32 w), key, mine, md, w'. split_and!; try done.
  intros theirs md' pub t' Ea. unfold DeriveRelayTokens, NewECDH.
  cbn [pbind ask exec net_step]. rewrite Ek. cbn [ecdh_public].
  pose proof (exec_follows true _ _ _ _ _ [Ok theirs] [] false F) as E.
  cbn [side map app eqb negb] in E. rewrite exec_bind, E. unfold Receive.
  cbn [pbind ask exec net_step net_read n_reads n_writes n_sent n_closed]. rewrite Ea.
  cbn [sd_Fields]. rewrite lookup_singleton_eq.
  by destruct (ECDH_Exchange _ pub).
Qed.

(** Two ends of a session that derive reconnect tokens at the same time, each
    sending before it receives, obtain the same pool of three 32-byte tokens and
    stay in step. *)
Theorem relay_tokens_agree t u wt wu :
  paired t u -> paired u t -> clock_ok wt -> clock_ok wu ->
  t_sendSequence t = t_recvSequence u -> t_sendSequence u = t_recvSequence t ->
  exists mt mu tokens t' u' wt' wu',
    exec (DeriveRelayTokens t) wt (Net [Ok mu] [] [] false)
      = (Some (Ok tokens, t'), wt', Net [] [] [mt] false) /\
    exec (DeriveRelayTokens u) wu (Net [Ok mt] [] [] false)
      = (Some (Ok tokens, u'), wu', Net [] [] [mu] false) /\
    length tokens = 3%nat /\ Forall (fun x => blen x = peerTokenSize) tokens /\
    t_sendSequence t' = t_recvSequence u' /\ t_sendSequence u' = t_recvSequence t'.
Proof.
  intros Htu Hut Ct Cu St_ Su.
  destruct (DeriveRelayTokens_side t u wt Htu Ct) as (rt & kt & mt & mdt & wt' & Gt & Ot & Qt & Rt & Et).
  destruct (DeriveRelayTokens_side u t wu Hut Cu) as (ru & ku & mu & mdu & wu' & Gu & Ou & Qu & Ru & Eu).
  destruct (x25519_ecdh_ok _ _ _ _ Gt Gu) as [secret Es].
  destruct (expand_tokens_ok secret 0 tokenPoolSize) as (tokens & Ex & Hn & Hf).
  exists mt, mu, tokens, (set_recv (md_Sequence mdu) (set_send (u64 (t_sendSequence t + 1)) t)),
    (set_recv (md_Sequence mdt) (set_send (u64 (t_sendSequence u + 1)) u)), wt', wu'.
  split_and!; try done.
  - erewrite (Et mu mdu (x25519_PublicKey ku)).
    + unfold ECDH_Exchange. rewrite x25519_pub_ok. cbn [ecdh_private]. rewrite Es. cbn [of_option map_err].
      by rewrite Ex.
    + apply opens_accept; [exact Ou|by rewrite Ru|by rewrite Qu, Su].
  - erewrite (Eu mt mdt (x25519_PublicKey kt)).
    + unfold ECDH_Exchange. rewrite x25519_pub_ok. cbn [ecdh_private].
      rewrite x25519_commutes, Es. cbn [of_option map_err]. by rewrite Ex.
    + apply opens_accept; [exact Ot|by rewrite Rt|by rewrite Qt, St_].
Qed.

End token.

(** ** Which tokens the relay accepts *)

Definition zsum (l : list Z) : Z := foldr Z.add 0 l.
Definition zprod (l : list Z) : Z := foldr Z.mul 1 l.
Definition power_product (fs : list Z) : Z := zprod (map (fun f => f ^ f) fs).
Definition positives (fs : list Z) : Z := Z.of_nat (length (filter (fun f => 0 < f) fs)).

Lemma frequency_product_alt token :
  frequency_product token = power_product (map (fun b => freq b token) all_bytes).
Proof.
  unfold frequency_product, power_product, zprod. induction all_bytes as [|b l IH]; [done|].
  cbn [foldr map]. by rewrite IH.
Qed.

Lemma all_bytes_spec : NoDup all_bytes /\ forall b, b ∈ all_bytes.
Proof.
  split; [apply (bool_decide_unpack _); vm_compute; done|]. intros b.
  apply list_elem_of_fmap. exists (Z.to_nat (bval b)). pose proof (bval_range b).
  rewrite Z2Nat.id by lia. rewrite bof_bval. split; [done|]. apply elem_of_seq. lia.
Qed.

Lemma freq_cons b x t : freq b (x :: t) = freq b t + (if bool_decide (x = b) then 1 else 0).
Proof.
  unfold freq. rewrite filter_cons. case_bool_decide; destruct (decide (x = b)); simpl; try done; lia.
Qed.

Lemma zsum_map_add {A} (f g : A -> Z) l :
  zsum (map (fun a => f a + g a) l) = zsum (map f l) + zsum (map g l).
Proof. induction l as [|a l IH]; simpl; [done|]. unfold zsum in *. lia. Qed.

(** One occurrence of [x] counts once among distinct bytes. *)
Lemma sum_indicator (L : list byte) x :
  NoDup L -> x ∈ L -> zsum (map (fun b => if bool_decide (x = b) then 1 else 0) L) = 1.
Proof.
  assert (Hz : forall L, x ∉ L -> zsum (map (fun b => if bool_decide (x = b) then 1 else 0) L) = 0).
  { induction L0 as [|b l IH]; [done|]. intros Hx. apply not_elem_of_cons in Hx as [Hb Hl].
    cbn [map zsum foldr]. rewrite bool_decide_eq_false_2 by done. apply IH, Hl. }
  induction 1 as [|b L Hb Hn IH]; [by intros ?%elem_of_nil|]. intros [->|Hx]%elem_of_cons; cbn [map zsum foldr].
  - rewrite bool_decide_eq_true_2 by done. pose proof (Hz L Hb) as E. unfold zsum in E. by rewrite E.
  - rewrite bool_decide_eq_false_2 by (by intros ->). by apply IH.
Qed.

Lemma freq_nil b : freq b [] = 0.
Proof. done. Qed.

Lemma freq_total token : zsum (map (fun b => freq b token) all_bytes) = blen token.
Proof.
  destruct all_bytes_spec as [Hn Hin]. induction token as [|x t IH]; [by vm_compute|].
  rewrite (map_ext _ (fun b => freq b t + (if bool_decide (x = b) then 1 else 0)))
    by (intros b; apply freq_cons).
  rewrite zsum_map_add, IH, sum_indicator by auto. rewrite blen_cons. lia.
Qed.

Lemma freq_range b token : 0 <= freq b token <= blen token.
Proof. unfold freq, blen. pose proof (length_filter (fun x => x = b) token). lia. Qed.

(** The number of different bytes of a token. *)
Definition distinct (token : bytes) : Z := Z.of_nat (size (list_to_set token : gset byte)).

Lemma freq_pos b token : 0 < freq b token <-> b ∈ token.
Proof.
  unfold freq. split.
  - destruct (filter (fun x => x = b) token) as [|y l] eqn:E; [simpl; lia|]. intros _.
    assert (y ∈ filter (fun x => x = b) token) as Hy by (rewrite E; left).
    apply list_elem_of_filter in Hy as [-> Hy]. done.
  - intros Hb. assert (b ∈ filter (fun x => x = b) token) as Hy by (by apply list_elem_of_filter).
    destruct (filter (fun x => x = b) token); [by apply elem_of_nil in Hy|simpl; lia].
Qed.

Lemma positives_distinct token : positives (map (fun b => freq b token) all_bytes) = distinct token.
Proof.
  destruct all_bytes_spec as [Hn Hin]. unfold positives, distinct. f_equal.
  transitivity (length (filter (fun b => b ∈ token) all_bytes)).
  - clear Hn Hin. induction all_bytes as [|b l IH]; [done|]. cbn [map]. rewrite !filter_cons.
    pose proof (freq_pos b token). destruct (decide (0 < freq b token)), (decide (b ∈ token));
      simpl; try tauto; by rewrite IH.
  - rewrite <- (size_list_to_set (C := gset byte)) by (by apply NoDup_filter).
    f_equal. apply set_eq. intros b. rewrite !elem_of_list_to_set, list_elem_of_filter. naive_solver.
Qed.

(** [f log2 f >= (7 f - 12) / 2] for the frequencies that occur. *)
Lemma power_bound f : 0 <= f <= 32 -> 2 ^ (7 * f) <= (f ^ f) ^ 2 * 2 ^ (if 0 <? f then 12 else 0).
Proof.
  intros Hf. apply Z.leb_le.
  apply (check_range_sound (fun f => 2 ^ (7 * f) <=? (f ^ f) ^ 2 * 2 ^ (if 0 <? f then 12 else 0)) 33 0).
  - vm_compute. done.
  - lia.
Qed.

Lemma power_product_bound fs :
  Forall (fun f => 0 <= f <= 32) fs ->
  2 ^ (7 * zsum fs) <= power_product fs ^ 2 * 2 ^ (12 * positives fs) /\ 0 <= zsum fs.
Proof.
  induction 1 as [|f fs Hf _ [IH Hs]]; [done|].
  unfold power_product, positives in *. cbn [map zsum zprod foldr]. fold (zsum fs).
  fold (zprod (map (fun f => f ^ f) fs)). set (P := zprod _) in *.
  pose proof (power_bound f Hf) as Hb. rewrite filter_cons.
  rewrite Z.mul_add_distr_l, Z.pow_add_r by lia. split; [|lia].
  assert (He : 2 ^ (12 * Z.of_nat (length (if decide (0 < f) then f :: filter (fun f => 0 < f) fs
      else filter (fun f => 0 < f) fs)))
    = 2 ^ (if 0 <? f then 12 else 0) * 2 ^ (12 * Z.of_nat (length (filter (fun f => 0 < f) fs)))).
  { rewrite <- Z.pow_add_r by (destruct (0 <? f); lia). f_equal.
    destruct (decide (0 < f)), (Z.ltb_spec 0 f); try lia. cbn [length]. lia. }
  rewrite He, Z.pow_mul_l.
  transitivity ((f ^ f) ^ 2 * 2 ^ (if 0 <? f then 12 else 0)
    * (P ^ 2 * 2 ^ (12 * Z.of_nat (length (filter (fun f => 0 < f) fs))))); [|nia].
  apply Z.mul_le_mono_nonneg; try done; apply Z.pow_nonneg; lia.
Qed.

Lemma freqs_bounded token :
  blen token = 32 -> Forall (fun f => 0 <= f <= 32) (map (fun b => freq b token) all_bytes).
Proof.
  intros Hl. apply Forall_map, Forall_forall. intros b _. pose proof (freq_range b token). lia.
Qed.

Lemma power_product_nonneg fs : Forall (fun f => 0 <= f <= 32) fs -> 0 <= power_product fs.
Proof.
  unfold power_product, zprod. induction 1 as [|f fs Hf _ IH]; [done|]. cbn [map foldr].
  apply Z.mul_nonneg_nonneg; [apply Z.pow_nonneg; lia|exact IH].
Qed.

Lemma few_bytes_rejected token :
  blen token = 32 -> distinct token <= 8 -> 2 ^ 64 <= frequency_product token.
Proof.
  intros Hl Hd. rewrite frequency_product_alt.
  destruct (power_product_bound _ (freqs_bounded token Hl)) as [Hb _].
  rewrite freq_total, positives_distinct, Hl in Hb. set (P := power_product _) in *.
  assert (HP : 0 <= P) by (apply power_product_nonneg, freqs_bounded, Hl).
  assert (H96 : 2 ^ (12 * distinct token) <= 2 ^ 96) by (apply Z.pow_le_mono_r; lia).
  assert (Hsq : 2 ^ 128 * 2 ^ 96 <= P ^ 2 * 2 ^ 96).
  { rewrite <- Z.pow_add_r by lia. change (2 ^ (128 + 96)) with (2 ^ (7 * 32)).
    etransitivity; [exact Hb|]. apply Z.mul_le_mono_nonneg_l; [nia|done]. }
  assert (2 ^ 128 <= P ^ 2) by lia. destruct (Z.lt_ge_cases P (2 ^ 64)); [nia|done].
Qed.

Lemma rare_bytes_accepted token :
  blen token = 32 -> (forall b, freq b token <= 3) -> frequency_product token < 2 ^ 64.
Proof.
  intros Hl H3. rewrite frequency_product_alt.
  assert (Hf : Forall (fun f => 0 <= f <= 3) (map (fun b => freq b token) all_bytes)).
  { apply Forall_map, Forall_forall. intros b _. pose proof (freq_range b token). auto with lia. }
  assert (Hp : forall fs, Forall (fun f => 0 <= f <= 3) fs -> 0 <= power_product fs <= 3 ^ zsum fs /\ 0 <= zsum fs).
  { induction 1 as [|f fs Hf' _ [IH Hs]]; [done|]. unfold power_product in *. cbn [map zprod zsum foldr].
    fold (zsum fs). fold (zprod (map (fun f => f ^ f) fs)). set (P := zprod _) in *.
    rewrite Z.pow_add_r by lia. split; [|lia].
    assert (0 <= f ^ f <= 3 ^ f) as Hff.
    { assert (f = 0 \/ f = 1 \/ f = 2 \/ f = 3) as [->|[->|[->| ->]]] by lia; by vm_compute. }
    nia. }
  destruct (Hp _ Hf) as [[_ Hle] _]. rewrite freq_total, Hl in Hle.
  eapply Z.le_lt_trans; [exact Hle|]. by vm_compute.
Qed.

(** What the entropy check guarantees: an accepted token has 32 bytes of at
    least nine different values; and no 32-byte token in which every value
    occurs at most three times is refused. *)
Theorem ValidateUserToken_entropy token :
  (ValidateUserToken token = Ok tt -> blen token = 32 /\ 9 <= distinct token) /\
  (blen token = 32 -> (forall b, freq b token <= 3) -> ValidateUserToken token = Ok tt).
Proof.
  unfold ValidateUserToken, peerTokenSize. split.
  - destruct (Z.eqb_spec (blen token) 32) as [Hl|]; [|done]. cbn [negb]. repeat case_match; try done.
    intros _. split; [done|]. destruct (Z.le_gt_cases 9 (distinct token)) as [|Hd]; [done|].
    pose proof (few_bytes_rejected token Hl ltac:(lia)). apply Z.leb_gt in H1. lia.
  - intros Hl H3. rewrite Hl. change (32 =? 32) with true. cbn [negb].
    assert (Hsame : forall b, ~ Forall (fun x => x = b) token).
    { intros b Hall. specialize (H3 b).
      assert (freq b token = 32) as E; [|lia]. rewrite <- Hl. clear Hl H3.
      induction Hall as [|x l -> _ IH]; [done|]. rewrite freq_cons, bool_decide_eq_true_2, blen_cons, IH by done. lia. }
    destruct (forallb (fun b => bval b =? 0) token) eqn:E1.
    { exfalso. apply (Hsame Byte.x00). apply Forall_forall. intros x Hx. apply Is_true_true, forallb_True in E1.
      rewrite Forall_forall in E1. specialize (E1 x Hx). apply bval_inj. by apply Is_true_true, Z.eqb_eq in E1. }
    destruct (forallb _ (tail token)) eqn:E2.
    { exfalso. destruct token as [|x t]; [done|]. apply (Hsame x). constructor; [done|].
      cbn [tail head] in E2. apply Is_true_true, forallb_True in E2. eapply Forall_impl; [exact E2|].
      intros y Hy. apply bool_decide_spec in Hy. congruence. }
    pose proof (rare_bytes_accepted token Hl H3). destruct (Z.leb_spec (2 ^ 64) (frequency_product token)); [lia|done].
Qed.

Section sample.
Existing Instance toy_crypto.
Existing Instance wire_runtime.

Lemma TokenFromKeys_identifies_pair_witness :
  let a := be_put 32 7 in let b := be_put 32 9 in let c := be_put 32 11 in
  TokenFromKeys a b = Ok (sha256_Sum (token_input a b)) /\ TokenFromKeys b a = TokenFromKeys a b /\
  (token_input a b = token_input c b <-> (c = a /\ b = b) \/ (c = b /\ b = a)).
Proof.
  intros a b c. apply (TokenFromKeys_identifies_pair a b c b); reflexivity.
Defined.

Lemma relay_tokens_agree_witness :
  exists mt mu tokens t' u' wt' wu',
    exec (DeriveRelayTokens (sample_transport 1 2)) (sample_world 3 tt) (Net [Ok mu] [] [] false)
      = (Some (Ok tokens, t'), wt', Net [] [] [mt] false) /\
    exec (DeriveRelayTokens (sample_transport 2 1)) (sample_world 9 tt) (Net [Ok mt] [] [] false)
      = (Some (Ok tokens, u'), wu', Net [] [] [mu] false) /\
    length tokens = 3%nat /\ Forall (fun x => blen x = peerTokenSize) tokens /\
    t_sendSequence t' = t_recvSequence u' /\ t_sendSequence u' = t_recvSequence t'.
Proof.
  apply (relay_tokens_agree (sample_transport 1 2) (sample_transport 2 1) (sample_world 3 tt)
           (sample_world 9 tt)).
  - apply sample_paired.
  - apply sample_paired.
  - apply sample_clock_ok.
  - apply sample_clock_ok.
  - reflexivity.
  - reflexivity.
Defined.

End sample.
