(* ===== verification/RelayHub.v ===== *)
(** * The relay server (cmd/relay/internal: services/session.go, services/hub.go,
    handlers/ws_handler.go)

    Every connection to the relay is served by a goroutine that runs
    [handleRelayConn]: HPKE, an optional password, a registration that creates
    or joins a session, then [ReadPump], which forwards messages to the other
    member of the session.  The goroutines share one [SessionManager].

    An [*exchange.Channel] is modelled by its identity, a number.  The control
    points of the goroutine are the [phase]s; a [label] is one atomic step: the
    return of a read, one critical section of the manager's mutex, or one write.
    [step] executes a label, [run] a sequence of labels: an interleaving of all
    goroutines with the clean-up loop and with connections that break.  What a
    read returns, whether a write succeeds, the clock and the random tokens are
    chosen by the label. *)

From S2P Require Import Prelude GoErr Strconv Wire Pb Relay RelayToken.

(** ** The session manager *)

Record session := mkSession {
  se_listener : nat;
  se_dialer : option nat;
  se_expiry : Z;
  se_sessionExpiry : Z
}.

Record SessionManager := mkSessionManager {
  sessions : gmap bytes session;
  sm_ttl : Z;
  sm_sessionTTL : Z;
  sm_maxConns : Z
}.

Definition NewSessionManager (ttl maxConns sessionTTL : Z) : SessionManager :=
  mkSessionManager ∅ ttl sessionTTL maxConns.

Definition set_sessions (m : gmap bytes session) (sm : SessionManager) : SessionManager :=
  mkSessionManager m (sm_ttl sm) (sm_sessionTTL sm) (sm_maxConns sm).

(** The cases of [purgeExpired]. *)
Definition session_expired (now : Z) (s : session) : bool :=
  match se_dialer s with
  | None => se_expiry s <? now
  | Some _ => negb (is_zero_time (se_sessionExpiry s)) && (se_sessionExpiry s <? now)
  end.

Definition members (s : session) : list nat :=
  se_listener s :: match se_dialer s with None => [] | Some d => [d] end.

(** The manager without the expired sessions, and the channels it closes. *)
Definition purgeExpired (now : Z) (sm : SessionManager) : SessionManager * list nat :=
  (set_sessions (filter (fun kv => session_expired now (snd kv) = false) (sessions sm)) sm,
   concat (map (fun kv => members (snd kv))
     (map_to_list (filter (fun kv => session_expired now (snd kv) = true) (sessions sm))))).

Definition sm_full (sm : SessionManager) : bool := sm_maxConns sm <=? Z.of_nat (size (sessions sm)).

Definition new_session (listener : nat) (now : Z) (sm : SessionManager) : session :=
  mkSession listener None (now + sm_ttl sm) zero_time.

(** [Create] and [CreateWith] after [purgeExpired]; [token] is random in the
    first. *)
Definition Create (listener : nat) (token : bytes) (now : Z) (sm : SessionManager)
  : result bytes * SessionManager :=
  if sm_full sm then (Err (Sentinel ErrSessionFull), sm)
  else (Ok token, set_sessions (<[hex token := new_session listener now sm]> (sessions sm)) sm).

Definition CreateWith (listener : nat) (token : bytes) (now : Z) (sm : SessionManager)
  : result unit * SessionManager :=
  if sm_full sm then (Err (Sentinel ErrSessionFull), sm)
  else match sessions sm !! hex token with
       | Some _ => (Err (Sentinel ErrTokenInUse), sm)
       | None => (Ok tt, set_sessions (<[hex token := new_session listener now sm]> (sessions sm)) sm)
       end.

(** [now] and [now'] are the two readings of the clock. *)
Definition Join (token : bytes) (dialer : nat) (now now' : Z) (sm : SessionManager)
  : result unit * SessionManager :=
  match sessions sm !! hex token with
  | None => (Err (Sentinel ErrTokenNotFound), sm)
  | Some sess =>
      if se_expiry sess <? now
      then (Err (Sentinel ErrSessionExpired), set_sessions (delete (hex token) (sessions sm)) sm)
      else match se_dialer sess with
           | Some _ => (Err (Sentinel ErrTokenConsumed), sm)
           | None =>
               let sess' := mkSession (se_listener sess) (Some dialer) (se_expiry sess)
                              (if 0 <? sm_sessionTTL sm then now' + sm_sessionTTL sm
                               else se_sessionExpiry sess) in
               (Ok tt, set_sessions (<[hex token := sess']> (sessions sm)) sm)
           end
  end.

Definition Recipient (token : bytes) (sender : nat) (sm : SessionManager) : result nat :=
  match sessions sm !! hex token with
  | None => Err (Sentinel ErrTokenNotFound)
  | Some sess =>
      if bool_decide (sender = se_listener sess) then
        match se_dialer sess with
        | None => Err (Sentinel ErrSvcPeerNotFound)
        | Some d => Ok d
        end
      else if bool_decide (Some sender = se_dialer sess) then Ok (se_listener sess)
      else Err (Sentinel ErrSvcPeerNotFound)
  end.

(** The channel that [ClosePeerChannel] closes. *)
Definition ClosePeerChannel (token : bytes) (closed : nat) (sm : SessionManager) : option nat :=
  match sessions sm !! hex token with
  | None => None
  | Some sess =>
      if bool_decide (closed = se_listener sess) then se_dialer sess
      else if bool_decide (Some closed = se_dialer sess) then Some (se_listener sess)
      else None
  end.

Definition Remove (token : bytes) (sm : SessionManager) : SessionManager :=
  set_sessions (delete (hex token) (sessions sm)) sm.

(** ** The goroutines *)

Inductive phase :=
| AwaitFirst                                     (* reading the first frame *)
| AwaitRegister                                  (* authenticated, reading the next *)
| Creating (token : bytes)                       (* after purgeExpired; [] asks for a random token *)
| Replying (token : bytes) (ttlSeconds : Z)      (* registered, about to say so *)
| Pumping (token : bytes)                        (* ReadPump, reading *)
| Forwarding (token : bytes) (recipient : nat) (data : bytes)  (* about to write *)
| Leaving (token : bytes)                        (* ReadPump's deferred ClosePeerChannel *)
| Removing (token : bytes)                       (* Unregister *)
| Finished (token : option bytes).

(** A frame written on a channel: for whom it was forwarded, if it was. *)
Record written := Written { wr_from : option nat; wr_to : nat; wr_frame : Frame }.

Record relay := mkRelay {
  r_sm : SessionManager;
  r_phase : gmap nat phase;
  r_closed : gset nat;
  r_log : list written
}.

(** What one step observes of the world. *)
Record env := mkEnv { e_now : Z; e_now' : Z; e_random : bytes; e_write : bool }.

Inductive label :=
| Accepted (c : nat)                             (* exchange.Accept has succeeded *)
| Read (c : nat) (r : option bytes) (e : env)    (* ch.ReadBytes has returned *)
| Step (c : nat) (e : env)
| Tick (now : Z)                                 (* cleanupLoop *)
| Drop (c : nat).                                (* the peer, a timeout or a deadline closes *)

Section hub.
Context `{ProtoRuntime}.

(** The pre-shared key of the hub; empty means none. *)
Variable password : bytes.

Definition set_phase (c : nat) (p : phase) (r : relay) : relay :=
  mkRelay (r_sm r) (<[c := p]> (r_phase r)) (r_closed r) (r_log r).
Definition set_sm (sm : SessionManager) (r : relay) : relay :=
  mkRelay sm (r_phase r) (r_closed r) (r_log r).
Definition close (c : nat) (r : relay) : relay :=
  mkRelay (r_sm r) (r_phase r) ({[c]} ∪ r_closed r) (r_log r).
Definition close_all (cs : list nat) (r : relay) : relay := foldr close r cs.
Definition log (w : written) (r : relay) : relay :=
  mkRelay (r_sm r) (r_phase r) (r_closed r) (r_log r ++ [w]).

(** [handleRelayConn] returns: its deferred function closes the channel. *)
Definition finish (c : nat) (token : option bytes) (r : relay) : relay :=
  set_phase c (Finished token) (close c r).

(** [ch.WriteBytes]: whether it succeeded, and the relay afterwards. *)
Definition write (w : written) (e : env) (r : relay) : bool * relay :=
  if bool_decide (wr_to w ∈ r_closed r) || negb (e_write e) then (false, r) else (true, log w r).

Definition purge (now : Z) (r : relay) : relay :=
  let '(sm, closed) := purgeExpired now (r_sm r) in close_all closed (set_sm sm r).

(** [uint32(d.Seconds())], exact below [2 ^ 22] seconds. *)
Definition seconds (d : Z) : Z := u32 (d / Second).

(** From [frame.GetRegister()] to the first critical section. *)
Definition handle_register (c : nat) (frame : Frame) (e : env) (r : relay) : relay :=
  match GetRegister frame with
  | None => finish c None r
  | Some (token, mode) =>
      if mode =? MODE_CREATE then
        if bool_decide (token = []) then set_phase c (Creating []) (purge (e_now e) r)
        else match ValidateUserToken token with
             | Err _ => finish c None r
             | Ok _ => set_phase c (Creating token) (purge (e_now e) r)
             end
      else if mode =? MODE_JOIN then
        if bool_decide (token = []) then finish c None r
        else let '(res, sm) := Join token c (e_now e) (e_now' e) (r_sm r) in
             match res with
             | Err _ => finish c None (set_sm sm r)
             | Ok _ => set_phase c (Replying token 0) (set_sm sm r)
             end
      else finish c None r
  end.

(** The second critical section of [Create] and [CreateWith]. *)
Definition handle_create (c : nat) (token : bytes) (e : env) (r : relay) : relay :=
  let ttl := seconds (sm_ttl (r_sm r)) in
  if bool_decide (token = []) then
    let '(res, sm) := Create c (e_random e) (e_now e) (r_sm r) in
    match res with
    | Err _ => finish c None (set_sm sm r)
    | Ok sentToken => set_phase c (Replying sentToken ttl) (set_sm sm r)
    end
  else
    let '(res, sm) := CreateWith c token (e_now e) (r_sm r) in
    match res with
    | Err _ => finish c None (set_sm sm r)
    | Ok _ => set_phase c (Replying token ttl) (set_sm sm r)
    end.

(** A frame arrives in [ReadPump]. *)
Definition handle_frame (c : nat) (token : bytes) (frame : Frame) (e : env) (r : relay) : relay :=
  match Kind frame with
  | Some (Frame_Msg data) =>
      match Recipient token c (r_sm r) with
      | Err _ => r
      | Ok recipient => set_phase c (Forwarding token recipient data) r
      end
  | Some Frame_Ping => snd (write (Written None c (mkFrame (Some Frame_Pong))) e r)
  | _ => r
  end.

(** Reads fail on a closed channel. *)
Definition received (c : nat) (res : option bytes) (r : relay) : option bytes :=
  if bool_decide (c ∈ r_closed r) then None else res.

Definition step (r : relay) (l : label) : relay :=
  match l with
  | Accepted c =>
      match r_phase r !! c with
      | None => set_phase c AwaitFirst r
      | Some _ => r
      end
  | Read c res e =>
      match r_phase r !! c with
      | Some AwaitFirst =>
          match received c res r ≫= Unmarshal (M := Frame) with
          | None => finish c None r
          | Some frame =>
              match GetAuth frame with
              | Some psk =>
                  if bool_decide (password = []) then finish c None r
                  else if negb (bool_decide (psk = password)) then finish c None r
                  else set_phase c AwaitRegister
                         (snd (write (Written None c (mkFrame (Some (Frame_Auth [])))) e r))
              | None =>
                  if negb (bool_decide (password = [])) then finish c None r
                  else handle_register c frame e r
              end
          end
      | Some AwaitRegister =>
          match received c res r ≫= Unmarshal (M := Frame) with
          | None => finish c None r
          | Some frame => handle_register c frame e r
          end
      | Some (Pumping token) =>
          match received c res r with
          | None => set_phase c (Leaving token) r
          | Some data =>
              match Unmarshal (M := Frame) data with
              | None => r
              | Some frame => handle_frame c token frame e r
              end
          end
      | _ => r
      end
  | Step c e =>
      match r_phase r !! c with
      | Some (Creating token) => handle_create c token e r
      | Some (Replying token ttl) =>
          let registered := Frame_Registered token ttl (seconds (sm_sessionTTL (r_sm r))) in
          let '(ok, r) := write (Written None c (mkFrame (Some registered))) e r in
          if ok : bool then set_phase c (Pumping token) r else finish c (Some token) r
      | Some (Forwarding token recipient data) =>
          let '(ok, r) := write (Written (Some c) recipient (mkFrame (Some (Frame_Msg data)))) e r in
          let r := if ok : bool then r else close recipient (close c r) in
          set_phase c (Pumping token) r
      | Some (Leaving token) =>
          let r := match ClosePeerChannel token c (r_sm r) with
                   | None => r
                   | Some peer => close peer r
                   end in
          set_phase c (Removing token) r
      | Some (Removing token) => finish c (Some token) (set_sm (Remove token (r_sm r)) r)
      | _ => r
      end
  | Tick now => purge now r
  | Drop c => close c r
  end.

Definition run (ls : list label) (r : relay) : relay := foldl step r ls.

Definition relay_init (ttl maxConns sessionTTL : Z) : relay :=
  mkRelay (NewSessionManager ttl maxConns sessionTTL) ∅ ∅ [].

(** ** Who can talk to whom *)

(** The token a connection is registered with, kept to its end. *)
Definition phase_token (p : phase) : option bytes :=
  match p with
  | AwaitFirst | AwaitRegister | Creating _ => None
  | Replying t _ | Pumping t | Forwarding t _ _ | Leaving t | Removing t => Some t
  | Finished o => o
  end.

Definition registered_with (r : relay) (c : nat) : option bytes := r_phase r !! c ≫= phase_token.

(** What the relay forwarded, and for whom. *)
Definition forwarded (r : relay) (a b : nat) (f : Frame) : Prop := Written (Some a) b f ∈ r_log r.

(** [P] pairs channels off; sessions, pending and past deliveries respect it. *)
Record partners (P : gmap nat nat) (r : relay) : Prop := {
  pt_sym a b : P !! a = Some b -> P !! b = Some a /\ a <> b;
  pt_token a b : P !! a = Some b ->
    exists t, registered_with r a = Some t /\ registered_with r b = Some t;
  pt_session k s : sessions (r_sm r) !! k = Some s ->
    (exists t, registered_with r (se_listener s) = Some t /\ hex t = k) /\
    P !! se_listener s = se_dialer s;
  pt_forwarding c t rc data : r_phase r !! c = Some (Forwarding t rc data) -> P !! c = Some rc;
  pt_log a b f : forwarded r a b f -> P !! a = Some b
}.

(** Steps after which nobody has a new partner. *)
Record quiet (r r' : relay) : Prop := {
  q_sessions : sessions (r_sm r') ⊆ sessions (r_sm r);
  q_token c t : registered_with r c = Some t -> registered_with r' c = Some t;
  q_forwarding c t rc data :
    r_phase r' !! c = Some (Forwarding t rc data) -> r_phase r !! c = Some (Forwarding t rc data);
  q_log a b f : forwarded r' a b f -> forwarded r a b f
}.

#[global] Instance quiet_preorder : PreOrder quiet.
Proof.
  split.
  - intros r. by split.
  - intros r1 r2 r3 [] []. split; eauto. by etransitivity.
Qed.

Lemma partners_quiet P r r' : partners P r -> quiet r r' -> partners P r'.
Proof.
  intros [Hs Ht Hse Hf Hl] [Qs Qt Qf Ql]. split; eauto.
  - intros a b Hab. destruct (Ht a b Hab) as (t & ? & ?). eauto.
  - intros k s Hk. destruct (Hse k s) as [(t & ? & ?) ?]; [by eapply lookup_weaken|]. eauto.
Qed.

Lemma quiet_set_phase c p r :
  registered_with r c = None \/ registered_with r c = phase_token p ->
  (forall t rc data, p <> Forwarding t rc data) -> quiet r (set_phase c p r).
Proof.
  intros Hc Hp. split; try done.
  - intros c' t E. unfold registered_with, set_phase in *. cbn [r_phase].
    destruct (decide (c' = c)) as [->|]; [|by rewrite lookup_insert_ne].
    rewrite lookup_insert_eq. cbn. destruct Hc as [Hc|Hc]; congruence.
  - intros c' t rc data E. unfold set_phase in E. cbn [r_phase] in E.
    destruct (decide (c' = c)) as [->|]; [|by rewrite lookup_insert_ne in E].
    rewrite lookup_insert_eq in E. injection E as E. by destruct (Hp t rc data).
Qed.

Lemma quiet_close c r : quiet r (close c r).
Proof. by split. Qed.

Lemma quiet_close_all cs r : quiet r (close_all cs r).
Proof. induction cs as [|c cs IH]; [reflexivity|]. etransitivity; [exact IH|apply quiet_close]. Qed.

Lemma quiet_set_sm sm r : sessions sm ⊆ sessions (r_sm r) -> quiet r (set_sm sm r).
Proof. by split. Qed.

Lemma quiet_purge now r : quiet r (purge now r).
Proof.
  unfold purge, purgeExpired. etransitivity; [|apply quiet_close_all].
  apply quiet_set_sm, map_filter_subseteq.
Qed.

Lemma quiet_finish c r : registered_with r c = None -> quiet r (finish c None r).
Proof.
  intros Hc. unfold finish. etransitivity; [apply quiet_close|]. apply quiet_set_phase; [by left|done].
Qed.

Lemma quiet_write w e r : wr_from w = None -> quiet r (snd (write w e r)).
Proof.
  intros Hw. unfold write. case_match; [reflexivity|]. split; try done.
  intros a b f Hf. unfold forwarded, log in *. cbn [r_log] in Hf.
  apply elem_of_app in Hf as [Hf|Hf]; [done|]. apply list_elem_of_singleton in Hf. by subst.
Qed.

Lemma registered_close c c' r : registered_with (close c r) c' = registered_with r c'.
Proof. done. Qed.

Lemma registered_write w e r c : registered_with (snd (write w e r)) c = registered_with r c.
Proof. unfold write. by destruct (_ || _). Qed.

Lemma registered_purge now c r : registered_with (purge now r) c = registered_with r c.
Proof. unfold purge, purgeExpired. by induction (concat _). Qed.

(** A connection registers a new session. *)
Lemma partners_create P c t ttl now r :
  partners P r -> registered_with r c = None ->
  partners P (set_phase c (Replying t ttl)
    (set_sm (set_sessions (<[hex t := new_session c now (r_sm r)]> (sessions (r_sm r))) (r_sm r)) r)).
Proof.
  intros Hp Hc. pose proof Hp as [Hs Ht Hse Hf Hl].
  assert (HP : P !! c = None).
  { destruct (P !! c) as [b|] eqn:E; [|done]. destruct (Ht c b E) as (t' & E' & _). congruence. }
  assert (Htok : forall c' t', registered_with r c' = Some t' ->
    registered_with (set_phase c (Replying t ttl) r) c' = Some t').
  { intros c' t' E. unfold registered_with, set_phase in *. cbn [r_phase].
    rewrite lookup_insert_ne; [done|]. intros ->. congruence. }
  split; try done.
  - intros a b Hab. destruct (Ht a b Hab) as (t' & E1 & E2). exists t'. split; by apply Htok.
  - intros k s. cbn [r_sm set_phase set_sm sessions set_sessions]. intros E.
    destruct (decide (k = hex t)) as [->|Hne].
    + rewrite lookup_insert_eq in E. injection E as <-. cbn [se_listener se_dialer new_session].
      split; [|done]. exists t. split; [|done]. unfold registered_with, set_phase. cbn [r_phase].
      by rewrite lookup_insert_eq.
    + rewrite lookup_insert_ne in E by done. destruct (Hse k s E) as [(t' & E1 & E2) E3].
      split; [|done]. exists t'. split; [by apply Htok|done].
  - intros c' t' rc data E. cbn [r_phase set_phase set_sm] in E.
    destruct (decide (c' = c)) as [->|]; [by rewrite lookup_insert_eq in E|].
    rewrite lookup_insert_ne in E by done. by eapply Hf.
Qed.

(** A connection joins a waiting session. *)
Lemma partners_join P c t s expiry r :
  partners P r -> registered_with r c = None -> sessions (r_sm r) !! hex t = Some s ->
  se_dialer s = None ->
  partners (<[se_listener s := c]> (<[c := se_listener s]> P))
    (set_phase c (Replying t 0)
      (set_sm (set_sessions (<[hex t := mkSession (se_listener s) (Some c) (se_expiry s) expiry]>
                               (sessions (r_sm r))) (r_sm r)) r)).
Proof.
  intros Hp Hc Es Ed. pose proof Hp as [Hs Ht Hse Hf Hl].
  destruct (Hse _ _ Es) as [(t0 & El & Eh) HPl]. apply hex_inj in Eh as ->. rewrite Ed in HPl.
  set (l := se_listener s) in *.
  assert (Hlc : l <> c) by (intros E; rewrite E in El; congruence).
  assert (HPc : P !! c = None).
  { destruct (P !! c) as [b|] eqn:E; [|done]. destruct (Ht c b E) as (t' & E' & _). congruence. }
  assert (Hin : forall a b, P !! a = Some b -> a <> l /\ a <> c /\ b <> l /\ b <> c).
  { intros a b E. destruct (Hs a b E) as [E' _]. split_and!; congruence. }
  assert (Hext : forall a b, P !! a = Some b -> <[l := c]> (<[c := l]> P) !! a = Some b).
  { intros a b E. destruct (Hin a b E) as (? & ? & _). by rewrite !lookup_insert_ne. }
  set (r' := set_phase c _ _).
  assert (Htok : forall c' t', registered_with r c' = Some t' -> registered_with r' c' = Some t').
  { intros c' t' E. unfold registered_with, r', set_phase in *. cbn [r_phase set_sm].
    rewrite lookup_insert_ne; [done|]. intros ->. congruence. }
  assert (Htc : registered_with r' c = Some t)
    by (unfold registered_with, r', set_phase; cbn [r_phase]; by rewrite lookup_insert_eq).
  split.
  - intros a b E. apply lookup_insert_Some in E as [[<- <-]|[Ha E]].
    + split; [|done]. by rewrite lookup_insert_ne, lookup_insert_eq by done.
    + apply lookup_insert_Some in E as [[<- <-]|[Ha' E]]; [by rewrite lookup_insert_eq|].
      destruct (Hs a b E) as [E' ?]. split; [by apply Hext|done].
  - intros a b E. apply lookup_insert_Some in E as [[<- <-]|[Ha E]]; [exists t; auto|].
    apply lookup_insert_Some in E as [[<- <-]|[Ha' E]]; [exists t; auto|].
    destruct (Ht a b E) as (t' & E1 & E2). exists t'. auto.
  - intros k s'. unfold r'. cbn [r_sm set_phase set_sm sessions set_sessions]. intros E.
    destruct (decide (k = hex t)) as [->|Hne].
    + rewrite lookup_insert_eq in E. injection E as <-. cbn [se_listener se_dialer].
      split; [exists t; auto|by rewrite lookup_insert_eq].
    + rewrite lookup_insert_ne in E by done. destruct (Hse k s' E) as [(t' & E1 & E2) E3].
      split; [exists t'; auto|]. rewrite <- E3.
      assert (se_listener s' <> l) by (intros E'; rewrite E', El in E1; congruence).
      assert (se_listener s' <> c) by (intros E'; rewrite E' in E1; congruence).
      by rewrite !lookup_insert_ne.
  - intros c' t' rc data E. unfold r' in E. cbn [r_phase set_phase set_sm] in E.
    destruct (decide (c' = c)) as [->|]; [by rewrite lookup_insert_eq in E|].
    rewrite lookup_insert_ne in E by done. eapply Hext, Hf, E.
  - intros a b f E. by eapply Hext, Hl.
Qed.

(** The manager names the partner. *)
Lemma Recipient_partner P r c t rc :
  partners P r -> Recipient t c (r_sm r) = Ok rc -> P !! c = Some rc.
Proof.
  intros [Hs _ Hse _ _]. unfold Recipient. destruct (sessions _ !! hex t) as [s|] eqn:E; [|done].
  destruct (Hse _ _ E) as [_ HP]. case_bool_decide as E1.
  - subst c. destruct (se_dialer s); [|done]. by intros [= <-].
  - case_bool_decide as E2; [|done]. intros [= <-]. rewrite <- E2 in HP. by apply Hs in HP as [HP _].
Qed.

Lemma partners_forward P c t rc data r :
  partners P r -> registered_with r c = Some t -> P !! c = Some rc ->
  partners P (set_phase c (Forwarding t rc data) r).
Proof.
  intros [Hs Ht Hse Hf Hl] Hc HP.
  assert (Htok : forall c', registered_with (set_phase c (Forwarding t rc data) r) c' = registered_with r c').
  { intros c'. unfold registered_with, set_phase in *. cbn [r_phase].
    destruct (decide (c' = c)) as [->|]; [by rewrite lookup_insert_eq|by rewrite lookup_insert_ne]. }
  split; try done.
  - intros a b Hab. rewrite !Htok. by apply Ht.
  - intros k s E. rewrite Htok. by apply Hse.
  - intros c' t' rc' data' E. cbn [r_phase set_phase] in E.
    destruct (decide (c' = c)) as [->|]; [rewrite lookup_insert_eq in E; congruence|].
    rewrite lookup_insert_ne in E by done. by eapply Hf.
Qed.

(** Some pairing of the channels holds. *)
Definition paired_off (r : relay) : Prop := exists P, partners P r.

Lemma paired_quiet r r' : paired_off r -> quiet r r' -> paired_off r'.
Proof. intros [P HP] Hq. exists P. by eapply partners_quiet. Qed.

Lemma Join_cases t c now now' sm :
  (exists e, Join t c now now' sm = (Err e, sm)) \/
  (exists e, Join t c now now' sm = (Err e, set_sessions (delete (hex t) (sessions sm)) sm)) \/
  exists s expiry, sessions sm !! hex t = Some s /\ se_dialer s = None /\
    Join t c now now' sm = (Ok tt, set_sessions (<[hex t := mkSession (se_listener s) (Some c)
                                      (se_expiry s) expiry]> (sessions sm)) sm).
Proof.
  unfold Join. destruct (sessions sm !! hex t) as [s|]; [|by left; eexists].
  destruct (se_expiry s <? now); [by right; left; eexists|].
  destruct (se_dialer s) eqn:Ed; [by left; eexists|]. right. right. by eexists s, _.
Qed.

Lemma set_sm_same r : set_sm (r_sm r) r = r.
Proof. by destruct r. Qed.

Lemma paired_register c frame e r :
  paired_off r -> registered_with r c = None -> paired_off (handle_register c frame e r).
Proof.
  intros Hp Hc. pose proof (paired_quiet _ _ Hp (quiet_finish c r Hc)) as Hfin.
  assert (Hcreate : forall t, paired_off (set_phase c (Creating t) (purge (e_now e) r))).
  { intros t. eapply paired_quiet; [exact Hp|]. etransitivity; [apply quiet_purge|].
    apply quiet_set_phase; [left; by rewrite registered_purge|done]. }
  unfold handle_register. destruct (GetRegister frame) as [[token mode]|]; [|done].
  destruct (mode =? MODE_CREATE); [case_match; [done|by case_match]|].
  destruct (mode =? MODE_JOIN); [|done]. case_match; [done|].
  destruct (Join_cases token c (e_now e) (e_now' e) (r_sm r)) as [[e' ->]|[[e' ->]|(s & x & Es & Ed & ->)]].
  - by rewrite set_sm_same.
  - eapply paired_quiet; [exact Hp|]. etransitivity; [|by apply quiet_finish].
    apply quiet_set_sm. cbn. apply delete_subseteq.
  - destruct Hp as [P HP]. eexists. by apply partners_join.
Qed.

Lemma paired_create c t e r :
  paired_off r -> registered_with r c = None -> paired_off (handle_create c t e r).
Proof.
  intros Hp Hc. pose proof (paired_quiet _ _ Hp (quiet_finish c r Hc)) as Hfin. destruct Hp as [P HP].
  unfold handle_create, Create, CreateWith. repeat case_match; simplify_eq; rewrite ?set_sm_same; try done;
    exists P; by apply partners_create.
Qed.

Lemma paired_frame c t frame e r :
  paired_off r -> registered_with r c = Some t -> paired_off (handle_frame c t frame e r).
Proof.
  intros Hp Hc. unfold handle_frame. destruct (Kind frame) as [[| | data| | |]|]; try done.
  - destruct (Recipient t c (r_sm r)) as [rc|] eqn:E; [|done]. destruct Hp as [P HP]. exists P.
    apply partners_forward; [done|done|]. by eapply Recipient_partner.
  - eapply paired_quiet; [exact Hp|by apply quiet_write].
Qed.

Lemma registered_phase r c p : r_phase r !! c = Some p -> registered_with r c = phase_token p.
Proof. unfold registered_with. by intros ->. Qed.

Lemma paired_deliver c t rc data e r :
  paired_off r -> r_phase r !! c = Some (Forwarding t rc data) -> paired_off (step r (Step c e)).
Proof.
  intros Hp Hc. pose proof (registered_phase _ _ _ Hc) as Ht. cbn [step]. rewrite Hc. unfold write.
  set (w := Written _ _ _). destruct (bool_decide (wr_to w ∈ r_closed r) || negb (e_write e)).
  - eapply paired_quiet; [exact Hp|]. do 2 (etransitivity; [apply quiet_close|]).
    apply quiet_set_phase; [by right|done].
  - destruct Hp as [P HP]. exists P. pose proof HP as [Hs Htk Hse Hf Hl].
    apply (partners_quiet P (log w r)).
    + split; try done. intros a b f Hw. unfold forwarded, log in Hw. cbn [r_log] in Hw.
      apply elem_of_app in Hw as [Hw|Hw]; [by eapply Hl|]. apply list_elem_of_singleton in Hw.
      unfold w in Hw. injection Hw as -> -> ->. by eapply Hf.
    + apply quiet_set_phase; [by right|done].
Qed.

Lemma paired_step r l : paired_off r -> paired_off (step r l).
Proof.
  intros Hp. destruct l as [c|c res e|c e|now|c].
  - cbn [step]. destruct (r_phase r !! c) eqn:E; [done|]. eapply paired_quiet; [exact Hp|].
    apply quiet_set_phase; [left; unfold registered_with; by rewrite E|done].
  - cbn [step]. destruct (r_phase r !! c) as [p|] eqn:E; [|done].
    pose proof (registered_phase _ _ _ E) as Ht.
    destruct p as [| | | |t| | | |]; try done; cbn [phase_token] in Ht;
      pose proof (fun Hc => paired_quiet _ _ Hp (quiet_finish c r Hc)) as Hfin.
    + destruct (_ ≫= _) as [frame|]; [|auto]. destruct (GetAuth frame); repeat (case_match; auto).
      * eapply paired_quiet; [exact Hp|]. etransitivity; [by apply (quiet_write (Written None c (mkFrame (Some (Frame_Auth [])))) e r)|].
        apply quiet_set_phase; [left; by rewrite registered_write|done].
      * by apply paired_register.
    + destruct (_ ≫= _) as [frame|]; [|auto]. by apply paired_register.
    + destruct (received c res r) as [b|].
      * destruct (Unmarshal b) as [frame|]; [|done]. by apply paired_frame.
      * eapply paired_quiet; [exact Hp|]. apply quiet_set_phase; [by right|done].
  - destruct (r_phase r !! c) as [p|] eqn:E; [|by cbn [step]; rewrite E].
    pose proof (registered_phase _ _ _ E) as Ht.
    destruct p as [| |t|t ttl|t|t rc data|t|t|o]; try (by cbn [step]; rewrite E); cbn [phase_token] in Ht.
    + cbn [step]. rewrite E. by apply paired_create.
    + cbn [step]. rewrite E. set (w := Written _ _ _). pose proof (quiet_write w e r eq_refl) as Hq.
      destruct (write w e r) as [ok r'] eqn:Ew. cbn [snd] in Hq.
      pose proof (paired_quiet _ _ Hp Hq) as Hp'. pose proof (q_token _ _ Hq _ _ Ht) as Ht'.
      destruct ok; eapply paired_quiet; try exact Hp'; [apply quiet_set_phase; [by right|done]|].
      unfold finish. etransitivity; [apply quiet_close|]. apply quiet_set_phase; [by right|done].
    + by eapply paired_deliver.
    + cbn [step]. rewrite E. destruct (ClosePeerChannel t c (r_sm r)) as [peer|];
        eapply paired_quiet; try exact Hp; [etransitivity; [apply quiet_close|]|];
        (apply quiet_set_phase; [by right|done]).
    + cbn [step]. rewrite E. eapply paired_quiet; [exact Hp|]. unfold finish.
      etransitivity; [apply (quiet_set_sm (Remove t (r_sm r))), delete_subseteq|].
      etransitivity; [apply quiet_close|]. apply quiet_set_phase; [by right|done].
  - eapply paired_quiet; [exact Hp|apply quiet_purge].
  - eapply paired_quiet; [exact Hp|apply quiet_close].
Qed.

Lemma paired_run ls r : paired_off r -> paired_off (run ls r).
Proof. revert r. induction ls as [|l ls IH]; intros r Hp; [done|]. apply IH, paired_step, Hp. Qed.

(** C5: In every interleaving each connection exchanges messages with at most one
    other connection in its whole life, and that one registered with the same
    token: the relay never mixes sessions, even when tokens are used again. *)
Theorem relay_isolation ttl maxConns sessionTTL ls a b a' b' f f' :
  let r := run ls (relay_init ttl maxConns sessionTTL) in
  forwarded r a b f -> forwarded r a' b' f' ->
  a <> b /\ (exists t, registered_with r a = Some t /\ registered_with r b = Some t) /\
  (a = a' <-> b = b') /\ (a = b' <-> b = a').
Proof.
  intros r Hf Hf'.
  assert (paired_off r) as [P [Hs Ht _ _ Hl]].
  { apply paired_run. exists ∅. split; try done. intros x y g Hg. by apply elem_of_nil in Hg. }
  apply Hl in Hf, Hf'. destruct (Hs _ _ Hf) as [Hb ?], (Hs _ _ Hf') as [Hb' ?].
  split; [done|]. split; [exact (Ht _ _ Hf)|]. split; split; intros E; congruence.
Qed.

(** ** The life of one connection *)

(** A connection may register: it is authenticated, or there is no password. *)
Definition may_register (p : phase) : Prop := p = AwaitRegister \/ (p = AwaitFirst /\ password = []).

Inductive moves (c : nat) : option phase -> label -> phase -> Prop :=
| mv_accept : moves c None (Accepted c) AwaitFirst
| mv_auth b e : password <> [] -> Unmarshal b = Some (mkFrame (Some (Frame_Auth password))) ->
    moves c (Some AwaitFirst) (Read c (Some b) e) AwaitRegister
| mv_reject p res e : p = AwaitFirst \/ p = AwaitRegister ->
    moves c (Some p) (Read c res e) (Finished None)
| mv_create p b t e : may_register p ->
    Unmarshal b = Some (mkFrame (Some (Frame_Register t MODE_CREATE))) ->
    moves c (Some p) (Read c (Some b) e) (Creating t)
| mv_join p b t e : may_register p ->
    Unmarshal b = Some (mkFrame (Some (Frame_Register t MODE_JOIN))) ->
    moves c (Some p) (Read c (Some b) e) (Replying t 0)
| mv_created t t' ttl e : t' = t \/ t = [] -> moves c (Some (Creating t)) (Step c e) (Replying t' ttl)
| mv_refused t e : moves c (Some (Creating t)) (Step c e) (Finished None)
| mv_replied t ttl e : moves c (Some (Replying t ttl)) (Step c e) (Pumping t)
| mv_lost t ttl e : moves c (Some (Replying t ttl)) (Step c e) (Finished (Some t))
| mv_message t b rc data e : Unmarshal b = Some (mkFrame (Some (Frame_Msg data))) ->
    moves c (Some (Pumping t)) (Read c (Some b) e) (Forwarding t rc data)
| mv_forwarded t rc data e : moves c (Some (Forwarding t rc data)) (Step c e) (Pumping t)
| mv_eof t res e : moves c (Some (Pumping t)) (Read c res e) (Leaving t)
| mv_left t e : moves c (Some (Leaving t)) (Step c e) (Removing t)
| mv_removed t e : moves c (Some (Removing t)) (Step c e) (Finished (Some t)).

Definition follows_life (r r' : relay) (l : label) : Prop :=
  forall c, r_phase r' !! c = r_phase r !! c \/
    exists p, r_phase r' !! c = Some p /\ moves c (r_phase r !! c) l p.

(** A step that touches the phase of [c] only. *)
Lemma life_set_phase c p r r' l :
  r_phase r' = <[c := p]> (r_phase r) -> moves c (r_phase r !! c) l p -> follows_life r r' l.
Proof.
  intros E Hm c'. rewrite E. destruct (decide (c' = c)) as [->|]; [|left; by rewrite lookup_insert_ne].
  right. exists p. by rewrite lookup_insert_eq.
Qed.

Lemma life_same r r' l : r_phase r' = r_phase r -> follows_life r r' l.
Proof. intros E c. left. by rewrite E. Qed.

Lemma phase_close_all cs r : r_phase (close_all cs r) = r_phase r.
Proof. by induction cs. Qed.

Lemma phase_purge now r : r_phase (purge now r) = r_phase r.
Proof. unfold purge. destruct (purgeExpired _ _). by rewrite phase_close_all. Qed.

Lemma phase_write w e r : r_phase (snd (write w e r)) = r_phase r.
Proof. unfold write. by destruct (_ || _). Qed.

Lemma GetRegister_some f t m : GetRegister f = Some (t, m) -> f = mkFrame (Some (Frame_Register t m)).
Proof. destruct f as [[[]|]]; cbn; try done. by intros [= -> ->]. Qed.

Lemma life_register c p b frame e r :
  r_phase r !! c = Some p -> may_register p -> Unmarshal b = Some frame ->
  follows_life r (handle_register c frame e r) (Read c (Some b) e).
Proof.
  intros Hc Hm Hu.
  assert (Hrej : forall r', r_phase r' = r_phase r -> follows_life r (finish c None r') (Read c (Some b) e)).
  { intros r' E. eapply (life_set_phase c); [unfold finish, set_phase; cbn; by rewrite E|].
    rewrite Hc. constructor. destruct Hm as [->|[-> _]]; auto. }
  unfold handle_register. destruct (GetRegister frame) as [[token mode]|] eqn:Eg; [|by apply Hrej].
  apply GetRegister_some in Eg as ->.
  destruct (Z.eqb_spec mode MODE_CREATE) as [->|].
  { assert (Hcr : follows_life r (set_phase c (Creating token) (purge (e_now e) r)) (Read c (Some b) e)).
    { eapply (life_set_phase c); [unfold set_phase; cbn [r_phase]; by rewrite phase_purge|]. rewrite Hc. by constructor. }
    case_bool_decide as Et; [by subst|]. case_match; [done|by apply Hrej]. }
  destruct (Z.eqb_spec mode MODE_JOIN) as [->|]; [|by apply Hrej].
  case_bool_decide; [by apply Hrej|]. destruct (Join _ _ _ _ _) as [[u|e'] sm]; [|by apply Hrej].
  eapply (life_set_phase c); [done|]. rewrite Hc. by constructor.
Qed.

Lemma life_create c t e r :
  r_phase r !! c = Some (Creating t) -> follows_life r (handle_create c t e r) (Step c e).
Proof.
  intros Hc. unfold handle_create. case_bool_decide as Et.
  - destruct (Create _ _ _ _) as [[t'|e'] sm]; (eapply (life_set_phase c); [done|]); rewrite Hc;
      constructor; auto.
  - destruct (CreateWith _ _ _ _) as [[u|e'] sm]; (eapply (life_set_phase c); [done|]); rewrite Hc;
      constructor; auto.
Qed.

Lemma received_some c res r b : received c res r = Some b -> res = Some b.
Proof. unfold received. by case_bool_decide. Qed.

Lemma step_life r l : follows_life r (step r l) l.
Proof.
  destruct l as [c|c res e|c e|now|c].
  - cbn [step]. destruct (r_phase r !! c) eqn:E; [by apply life_same|].
    eapply (life_set_phase c); [done|]. rewrite E. constructor.
  - cbn [step]. destruct (r_phase r !! c) as [p|] eqn:E; [|by apply life_same].
    assert (Hrej : p = AwaitFirst \/ p = AwaitRegister -> follows_life r (finish c None r) (Read c res e)).
    { intros Hp. eapply (life_set_phase c); [done|]. rewrite E. by constructor. }
    destruct p as [| | | |t| | | |]; try (by apply life_same).
    + destruct (received c res r) as [b|] eqn:Er; [|cbn; auto]. apply received_some in Er as ->. cbn [mbind option_bind].
      destruct (Unmarshal b) as [frame|] eqn:Eu; [|auto].
      destruct (GetAuth frame) as [psk|] eqn:Ea.
      * case_bool_decide as Ep; [auto|]. case_bool_decide as Epsk; [|auto]. cbn [negb].
        eapply (life_set_phase c); [unfold set_phase; cbn [r_phase]; by rewrite phase_write|].
        rewrite E. constructor; [done|]. destruct frame as [[[]|]]; cbn in Ea; try done. by simplify_eq.
      * case_bool_decide as Ep; [|auto]. cbn [negb]. eapply life_register; [done|by right|done].
    + destruct (received c res r) as [b|] eqn:Er; [|cbn; auto]. apply received_some in Er as ->. cbn [mbind option_bind].
      destruct (Unmarshal b) as [frame|] eqn:Eu; [|auto]. eapply life_register; [done|by left|done].
    + destruct (received c res r) as [b|] eqn:Er.
      2: { eapply (life_set_phase c); [done|]. rewrite E. constructor. }
      apply received_some in Er as ->. destruct (Unmarshal b) as [frame|] eqn:Eu; [|by apply life_same].
      unfold handle_frame. destruct frame as [[[| |data| | |]|]]; cbn [Kind]; try (by apply life_same).
      * destruct (Recipient _ _ _); [|by apply life_same]. eapply (life_set_phase c); [done|]. rewrite E.
        by constructor.
      * apply life_same, phase_write.
  - cbn [step]. destruct (r_phase r !! c) as [p|] eqn:E; [|by apply life_same].
    destruct p as [| |t|t ttl|t|t rc data|t|t|o]; try (by apply life_same).
    + by apply life_create.
    + pose proof (phase_write (Written None c (mkFrame (Some (Frame_Registered t ttl
        (seconds (sm_sessionTTL (r_sm r))))))) e r) as Hw.
      destruct (write _ e r) as [[] r'] eqn:Ew; cbn [snd] in Hw;
        (eapply (life_set_phase c); [unfold finish, set_phase, close; cbn [r_phase]; by rewrite Hw|]); rewrite E; constructor.
    + pose proof (phase_write (Written (Some c) rc (mkFrame (Some (Frame_Msg data)))) e r) as Hw.
      destruct (write _ e r) as [[] r'] eqn:Ew; cbn [snd] in Hw;
        (eapply (life_set_phase c); [unfold finish, set_phase, close; cbn [r_phase]; by rewrite Hw|]); rewrite E; constructor.
    + destruct (ClosePeerChannel _ _ _); (eapply (life_set_phase c); [done|]); rewrite E; constructor.
    + eapply (life_set_phase c); [done|]. rewrite E. constructor.
  - apply life_same, phase_purge.
  - by apply life_same.
Qed.

Lemma run_snoc ls l r : run (ls ++ [l]) r = step (run ls r) l.
Proof. unfold run. by rewrite foldl_app. Qed.

Lemma phase_init ttl maxConns sessionTTL c : r_phase (relay_init ttl maxConns sessionTTL) !! c = None.
Proof. apply lookup_empty. Qed.

(** C26: With a password set, every connection that ever registered has sent it:
    among its reads is an [Auth] frame with exactly the password. *)
Theorem registration_authenticated ttl maxConns sessionTTL ls c t :
  password <> [] -> registered_with (run ls (relay_init ttl maxConns sessionTTL)) c = Some t ->
  exists b e, Read c (Some b) e ∈ ls /\ Unmarshal b = Some (mkFrame (Some (Frame_Auth password))).
Proof.
  intros Hpw. set (authed := fun ls : list label => exists b e, Read c (Some b) e ∈ ls /\
    Unmarshal b = Some (mkFrame (Some (Frame_Auth password)))).
  assert (Hinv : forall p, r_phase (run ls (relay_init ttl maxConns sessionTTL)) !! c = Some p ->
    p = AwaitFirst \/ p = Finished None \/ authed ls).
  2: { unfold registered_with. destruct (r_phase _ !! c) as [p|]; [|done].
       intros Hp. destruct (Hinv p eq_refl) as [->|[->|]]; done. }
  induction ls as [|l ls IH] using rev_ind; intros p Hp; [by cbn [run foldl] in Hp; rewrite phase_init in Hp|].
  assert (Hmono : authed ls -> authed (ls ++ [l])).
  { intros (b & e & Hin & Hu). exists b, e. split; [by apply elem_of_app; left|done]. }
  rewrite run_snoc in Hp. set (r := run ls _) in *.
  destruct (step_life r l c) as [E|(p' & E & Hm)]; rewrite E in Hp.
  { destruct (IH p Hp) as [|[|]]; auto. }
  injection Hp as <-. destruct (r_phase r !! c) as [q|] eqn:Eq; inversion Hm; subst; auto.
  1: right; right; eexists b, e; split; [apply elem_of_app; right; by left|done].
  1-2: match goal with H : may_register _ |- _ => destruct H as [->|[-> ?]] end; [|done].
  all: destruct (IH _ eq_refl) as [|[|]]; auto; done.
Qed.

(** ** What is delivered *)

(** The messages of a connection's reads, and those forwarded for it. *)
Definition message_of (b : bytes) : option bytes :=
  match Unmarshal (M := Frame) b with
  | Some (mkFrame (Some (Frame_Msg data))) => Some data
  | _ => None
  end.

Definition sent_in (c : nat) (l : label) : list bytes :=
  match l with
  | Read c' (Some b) _ => if bool_decide (c' = c) then option_list (message_of b) else []
  | _ => []
  end.
Definition sent_by (c : nat) (ls : list label) : list bytes := concat (map (sent_in c) ls).

Definition delivered_in (c : nat) (w : written) : list bytes :=
  match w with
  | Written (Some c') _ (mkFrame (Some (Frame_Msg data))) => if bool_decide (c' = c) then [data] else []
  | _ => []
  end.
Definition delivered_for (c : nat) (r : relay) : list bytes := concat (map (delivered_in c) (r_log r)).

Lemma log_close_all cs r : r_log (close_all cs r) = r_log r.
Proof. by induction cs. Qed.

Lemma log_purge now r : r_log (purge now r) = r_log r.
Proof. unfold purge. destruct (purgeExpired _ _). by rewrite log_close_all. Qed.

Lemma log_register c frame e r : r_log (handle_register c frame e r) = r_log r.
Proof.
  unfold handle_register. repeat case_match; unfold finish, set_phase, close; cbn [r_log]; rewrite ?log_purge; done.
Qed.

Lemma log_create c t e r : r_log (handle_create c t e r) = r_log r.
Proof. unfold handle_create. repeat case_match; done. Qed.

(** The log grows by at most one frame a step, and by a forwarded one only when
    its sender was about to forward it. *)
Lemma step_log r l :
  r_log (step r l) = r_log r \/
  exists w, r_log (step r l) = r_log r ++ [w] /\
    (wr_from w = None \/ exists c t rc data e, l = Step c e /\
       r_phase r !! c = Some (Forwarding t rc data) /\
       w = Written (Some c) rc (mkFrame (Some (Frame_Msg data)))).
Proof.
  assert (Hw : forall w e, r_log (snd (write w e r)) = r_log r \/ r_log (snd (write w e r)) = r_log r ++ [w]).
  { intros w e. unfold write. destruct (_ || _); auto. }
  destruct l as [c|c res e|c e|now|c]; cbn [step].
  - left. by destruct (r_phase r !! c).
  - destruct (r_phase r !! c) as [p|]; [|by left]. destruct p as [| | | |t| | | |]; try (by left).
    + destruct (_ ≫= _) as [frame|]; [|by left]. destruct (GetAuth frame); repeat (case_match; try by left).
      * destruct (Hw (Written None c (mkFrame (Some (Frame_Auth [])))) e) as [E|E]; [by left|right].
        eexists. split; [exact E|by left].
      * left. apply log_register.
    + destruct (_ ≫= _) as [frame|]; [|by left]. left. apply log_register.
    + destruct (received c res r); [|by left]. destruct (Unmarshal _) as [frame|]; [|by left].
      unfold handle_frame. repeat (case_match; try by left).
      destruct (Hw (Written None c (mkFrame (Some Frame_Pong))) e) as [E|E]; [by left|right].
      eexists. split; [exact E|by left].
  - destruct (r_phase r !! c) as [p|] eqn:E; [|by left].
    destruct p as [| |t|t ttl|t|t rc data|t|t|o]; try (by left).
    + left. apply log_create.
    + specialize (Hw (Written None c (mkFrame (Some (Frame_Registered t ttl
        (seconds (sm_sessionTTL (r_sm r))))))) e).
      destruct (write _ e r) as [[] r']; cbn [snd] in Hw; destruct Hw as [Hw|Hw]; try (by left);
        right; eexists; (split; [exact Hw|by left]).
    + specialize (Hw (Written (Some c) rc (mkFrame (Some (Frame_Msg data)))) e).
      destruct (write _ e r) as [[] r']; cbn [snd] in Hw; destruct Hw as [Hw|Hw]; try (by left);
        right; eexists; (split; [exact Hw|]); right; by eexists _, _, _, _, _.
    + left. by destruct (ClosePeerChannel _ _ _).
  - left. apply log_purge.
  - by left.
Qed.

(** What [c] has sent and not yet lost or delivered. *)
Definition pending (c : nat) (r : relay) : list bytes :=
  match r_phase r !! c with Some (Forwarding _ _ data) => [data] | _ => [] end.

Lemma pending_same c r r' : r_phase r' !! c = r_phase r !! c -> pending c r' = pending c r.
Proof. unfold pending. by intros ->. Qed.

Lemma pending_step c r l : pending c (step r l) `sublist_of` pending c r ++ sent_in c l.
Proof.
  destruct (step_life r l c) as [E|(p & E & Hm)].
  { rewrite (pending_same c r) by done. apply sublist_inserts_r. reflexivity. }
  unfold pending at 1. rewrite E. destruct p as [| | | | |t rc data| | |]; try apply sublist_nil_l.
  inversion Hm as [| | | | | | | | |? b ? ? ? Hu| | | |]; subst. apply sublist_inserts_l.
  cbn [sent_in]. rewrite bool_decide_eq_true_2 by done. unfold message_of. by rewrite Hu.
Qed.

Lemma pending_forwarded c r e t rc data :
  r_phase r !! c = Some (Forwarding t rc data) -> pending c (step r (Step c e)) = [].
Proof.
  intros E. cbn [step]. rewrite E. destruct (write _ e r) as [ok r']. unfold pending, set_phase. cbn [r_phase].
  by rewrite lookup_insert_eq.
Qed.

Lemma delivery_step c r l :
  delivered_for c (step r l) ++ pending c (step r l)
  `sublist_of` (delivered_for c r ++ pending c r) ++ sent_in c l.
Proof.
  assert (Hquiet : delivered_for c (step r l) = delivered_for c r ->
    delivered_for c (step r l) ++ pending c (step r l)
    `sublist_of` (delivered_for c r ++ pending c r) ++ sent_in c l).
  { intros ->. rewrite <- app_assoc. apply sublist_app; [done|apply pending_step]. }
  destruct (step_log r l) as [El|(w & El & Hw)].
  { apply Hquiet. unfold delivered_for. by rewrite El. }
  assert (Ed : delivered_for c (step r l) = delivered_for c r ++ delivered_in c w).
  { unfold delivered_for. rewrite El, map_app, concat_app. cbn [map concat]. by rewrite app_nil_r. }
  destruct Hw as [Hw|(c' & t & rc & data & e & -> & Ec & ->)].
  { apply Hquiet. rewrite Ed. by destruct w as [[] ? ?]; rewrite ?app_nil_r. }
  cbn [delivered_in] in Ed. case_bool_decide as Ecc.
  - subst c'. rewrite (pending_forwarded _ _ _ _ _ _ Ec), Ed. unfold pending. rewrite Ec.
    rewrite app_nil_r. by apply sublist_inserts_r.
  - apply Hquiet. by rewrite Ed, app_nil_r.
Qed.

(** C17: The relay may drop messages but does not invent, alter, repeat or reorder
    them: in every interleaving what it forwards for a connection is a
    subsequence of the messages read from that connection. *)
Theorem relay_fifo ttl maxConns sessionTTL ls c :
  delivered_for c (run ls (relay_init ttl maxConns sessionTTL)) `sublist_of` sent_by c ls.
Proof.
  set (r0 := relay_init ttl maxConns sessionTTL).
  assert (Hinv : delivered_for c (run ls r0) ++ pending c (run ls r0) `sublist_of` sent_by c ls).
  2: { etransitivity; [apply sublist_inserts_r; reflexivity|exact Hinv]. }
  induction ls as [|l ls IH] using rev_ind; [by vm_compute|].
  rewrite run_snoc. unfold sent_by. rewrite map_app, concat_app. cbn [map concat]. rewrite app_nil_r.
  etransitivity; [apply delivery_step|]. by apply sublist_app.
Qed.

(** ** Capacity *)

Definition within (n : Z) (sm : SessionManager) : Prop :=
  sm_maxConns sm = n /\ Z.of_nat (size (sessions sm)) <= n.

Lemma within_subset n m sm : within n sm -> m ⊆ sessions sm -> within n (set_sessions m sm).
Proof.
  intros [Hn Hs] Hm. split; [done|]. cbn. apply map_subseteq_size in Hm. lia.
Qed.

Lemma within_insert n k s sm :
  within n sm -> sm_full sm = false -> within n (set_sessions (<[k := s]> (sessions sm)) sm).
Proof.
  intros [Hn Hs] Hf. split; [done|]. cbn. unfold sm_full in Hf. apply Z.leb_gt in Hf.
  rewrite map_size_insert. destruct (sessions sm !! k); simpl; lia.
Qed.

Lemma within_replace n k s s' sm :
  within n sm -> sessions sm !! k = Some s -> within n (set_sessions (<[k := s']> (sessions sm)) sm).
Proof.
  intros [Hn Hs] Hk. split; [done|]. cbn. by rewrite map_size_insert, Hk.
Qed.

Lemma sm_purge now r : r_sm (purge now r) = fst (purgeExpired now (r_sm r)).
Proof. unfold purge, purgeExpired. by induction (concat _). Qed.

Lemma sm_write w e r : r_sm (snd (write w e r)) = r_sm r.
Proof. unfold write. by destruct (_ || _). Qed.

Lemma within_purge n now r : within n (r_sm r) -> within n (r_sm (purge now r)).
Proof. intros Hw. rewrite sm_purge. apply within_subset; [done|apply map_filter_subseteq]. Qed.

Lemma within_register n c frame e r :
  within n (r_sm r) -> within n (r_sm (handle_register c frame e r)).
Proof.
  intros Hw. pose proof (within_purge n (e_now e) r Hw) as Hp. unfold handle_register.
  destruct (GetRegister frame) as [[token mode]|]; [|done].
  destruct (mode =? MODE_CREATE); [repeat case_match; done|].
  destruct (mode =? MODE_JOIN); [|done]. case_match; [done|].
  destruct (Join_cases token c (e_now e) (e_now' e) (r_sm r)) as [[e' ->]|[[e' ->]|(s & x & Es & Ed & ->)]].
  - done.
  - apply within_subset; [done|apply delete_subseteq].
  - by eapply within_replace.
Qed.

Lemma within_create n c t e r : within n (r_sm r) -> within n (r_sm (handle_create c t e r)).
Proof.
  intros Hw. unfold handle_create, Create, CreateWith. destruct (sm_full (r_sm r)) eqn:Ef.
  - by destruct (bool_decide (t = [])).
  - destruct (bool_decide (t = [])); [by apply within_insert|].
    destruct (sessions (r_sm r) !! hex t); [done|by apply within_insert].
Qed.

Lemma within_step n r l : within n (r_sm r) -> within n (r_sm (step r l)).
Proof.
  intros Hw. destruct l as [c|c res e|c e|now|c]; cbn [step]; try done.
  - by destruct (r_phase r !! c).
  - destruct (r_phase r !! c) as [p|]; [|done]. destruct p as [| | | |t| | | |]; try done.
    + destruct (_ ≫= _) as [frame|]; [|done]. repeat (case_match; try done); [|by apply within_register].
      cbn [r_sm set_phase]. by rewrite sm_write.
    + destruct (_ ≫= _) as [frame|]; [|done]. by apply within_register.
    + destruct (received c res r); [|done]. destruct (Unmarshal _); [|done].
      unfold handle_frame. repeat (case_match; try done). by rewrite sm_write.
  - destruct (r_phase r !! c) as [p|]; [|done].
    destruct p as [| |t|t ttl|t|t rc data|t|t|o]; try done.
    + by apply within_create.
    + match goal with |- context [write ?w e r] => pose proof (sm_write w e r) as Es end.
      destruct (write _ e r) as [[] r']; cbn [snd] in Es; cbn; by rewrite Es.
    + match goal with |- context [write ?w e r] => pose proof (sm_write w e r) as Es end.
      destruct (write _ e r) as [[] r']; cbn [snd] in Es; cbn; by rewrite Es.
    + by destruct (ClosePeerChannel _ _ _).
    + apply within_subset; [done|apply delete_subseteq].
  - by apply within_purge.
Qed.

(** The relay never holds more sessions than it was configured for. *)
Theorem relay_capacity ttl maxConns sessionTTL ls :
  0 <= maxConns ->
  Z.of_nat (size (sessions (r_sm (run ls (relay_init ttl maxConns sessionTTL))))) <= maxConns.
Proof.
  intros Hm. apply (proj2 (A := sm_maxConns (r_sm (run ls (relay_init ttl maxConns sessionTTL))) = maxConns)).
  change (within maxConns (r_sm (run ls (relay_init ttl maxConns sessionTTL)))).
  assert (Hi : within maxConns (r_sm (relay_init ttl maxConns sessionTTL))) by (split; [done|by vm_compute]).
  revert Hi. generalize (relay_init ttl maxConns sessionTTL). induction ls as [|l ls IH]; intros r Hr; [done|].
  apply IH, within_step, Hr.
Qed.

(** ** Forwarding works *)

Definition quiet_env : env := mkEnv 0 0 [] true.

(** [c] and [d] are the members of the session with token [t], both connected. *)
Definition connected (r : relay) (t : bytes) (c d : nat) : Prop :=
  r_phase r !! c = Some (Pumping t) /\ c ∉ r_closed r /\ d ∉ r_closed r /\ c <> d /\
  exists s, sessions (r_sm r) !! hex t = Some s /\
    ((se_listener s = c /\ se_dialer s = Some d) \/ (se_listener s = d /\ se_dialer s = Some c)).

Lemma forward_one r t c d b data e :
  connected r t c d -> Unmarshal b = Some (mkFrame (Some (Frame_Msg data))) -> e_write e = true ->
  let r' := run [Read c (Some b) e; Step c e] r in
  connected r' t c d /\ (forall x, x <> c -> r_phase r' !! x = r_phase r !! x) /\
  r_log r' = r_log r ++ [Written (Some c) d (mkFrame (Some (Frame_Msg data)))].
Proof.
  intros (Hc & Hoc & Hod & Hne & s & Hs & Hm) Hu He.
  assert (Er : Recipient t c (r_sm r) = Ok d).
  { unfold Recipient. rewrite Hs. destruct Hm as [[-> ->]|[-> ->]].
    - by rewrite bool_decide_eq_true_2.
    - rewrite bool_decide_eq_false_2 by done. by rewrite bool_decide_eq_true_2. }
  cbn [run foldl step]. rewrite Hc. unfold received. rewrite bool_decide_eq_false_2 by done.
  rewrite Hu. unfold handle_frame. cbn [Kind]. rewrite Er. cbn [r_phase set_phase].
  rewrite lookup_insert_eq. unfold write. cbn [wr_to r_closed set_phase].
  rewrite bool_decide_eq_false_2 by done. rewrite He. cbn [orb negb].
  split; [|split; [|done]].
  - split_and!; try done; [cbn; by rewrite lookup_insert_eq|by exists s].
  - intros x Hx. cbn. by rewrite !lookup_insert_ne.
Qed.

(** The session is in the table, and the channels of its members are open. *)
Definition up (t : bytes) (c d : nat) (r : relay) : Prop :=
  c ∉ r_closed r /\ d ∉ r_closed r /\ c <> d /\
  exists s, sessions (r_sm r) !! hex t = Some s /\
    ((se_listener s = c /\ se_dialer s = Some d) \/ (se_listener s = d /\ se_dialer s = Some c)).

Fixpoint stays_up (t : bytes) (c d : nat) (r : relay) (ls : list label) : Prop :=
  up t c d r /\ match ls with [] => True | l :: ls => stays_up t c d (step r l) ls end.

(** [c] serves the session: it reads, forwards, or is on its way out. *)
Definition serves (t : bytes) (c d : nat) (r : relay) : Prop :=
  match r_phase r !! c with
  | Some (Pumping t') => t' = t
  | Some (Forwarding t' rc _) => t' = t /\ rc = d
  | Some (Leaving _ | Removing _ | Finished _) => True
  | _ => False
  end.

(** The messages that [ReadPump] of [c] reads. *)
Definition read_in (c : nat) (r : relay) (l : label) : list bytes :=
  match r_phase r !! c with Some (Pumping _) => sent_in c l | _ => [] end.

Fixpoint read_by (c : nat) (r : relay) (ls : list label) : list bytes :=
  match ls with [] => [] | l :: ls => read_in c r l ++ read_by c (step r l) ls end.

Lemma Recipient_up t c d r : up t c d r -> Recipient t c (r_sm r) = Ok d.
Proof.
  intros (_ & _ & Hne & s & Hs & Hm). unfold Recipient. rewrite Hs. destruct Hm as [[-> ->]|[-> ->]].
  - by rewrite bool_decide_eq_true_2.
  - rewrite bool_decide_eq_false_2 by done. by rewrite bool_decide_eq_true_2.
Qed.

(** What [c] has sent: delivered or in its hands. *)
Definition conveyed (c : nat) (r : relay) : list bytes := delivered_for c r ++ pending c r.

Lemma delivered_log c r r' : r_log r' = r_log r -> delivered_for c r' = delivered_for c r.
Proof. unfold delivered_for. by intros ->. Qed.

Lemma delivered_written c w r r' : r_log r' = r_log r ++ [w] -> delivered_for c r' = delivered_for c r ++ delivered_in c w.
Proof. unfold delivered_for. intros ->. rewrite map_app, concat_app. cbn. by rewrite app_nil_r. Qed.

(** Steps of others: [c] stays where it is, and nothing is delivered for it. *)
Lemma others_step t c d r l :
  serves t c d r -> (forall res e, l <> Read c res e) -> (forall e, l <> Step c e) ->
  serves t c d (step r l) /\ conveyed c (step r l) = conveyed c r /\ read_in c r l = [].
Proof.
  intros Hs Hr Hl. assert (Hp : r_phase (step r l) !! c = r_phase r !! c).
  { destruct (step_life r l c) as [E|(p & _ & Hm)]; [done|]. unfold serves in Hs.
    inversion Hm; subst; try (by destruct (Hr _ _ eq_refl)); try (by destruct (Hl _ eq_refl)).
    match goal with H : None = _ |- _ => rewrite <- H in Hs end. done. }
  assert (Hd : delivered_for c (step r l) = delivered_for c r).
  { destruct (step_log r l) as [E|(w & E & Hw)]; [by apply delivered_log|]. rewrite (delivered_written c w r _ E).
    destruct Hw as [Hw|(c' & t' & rc & data & e & -> & _ & ->)].
    - destruct w as [[] ? ?]; [done|]. by rewrite app_nil_r.
    - cbn. rewrite bool_decide_eq_false_2 by (intros ->; by apply (Hl e)). by rewrite app_nil_r. }
  split_and!.
  - unfold serves in *. by rewrite Hp.
  - unfold conveyed. by rewrite Hd, (pending_same c r).
  - unfold read_in. destruct (r_phase r !! c) as [[]|]; try done. destruct l as [|c' [b|] e| | |]; try done.
    cbn. rewrite bool_decide_eq_false_2 by (intros ->; by apply (Hr (Some b) e)). done.
Qed.

(** [c] reads. *)
Lemma read_step t c d r res e :
  up t c d r -> serves t c d r ->
  serves t c d (step r (Read c res e)) /\ conveyed c (step r (Read c res e)) = conveyed c r ++ read_in c r (Read c res e).
Proof.
  intros Hu Hs. pose proof (Recipient_up _ _ _ _ Hu) as Hrc. destruct Hu as (Hc & _).
  unfold serves, conveyed, read_in, pending in *. cbn [step sent_in].
  destruct (r_phase r !! c) as [[| | | |t'| | | |]|] eqn:E; try done; try (rewrite E; cbn; rewrite ?app_nil_r; done).
  subst t'. unfold received. rewrite bool_decide_eq_false_2 by done.
  destruct res as [b|]; cycle 1.
  { cbn [r_phase set_phase]. rewrite lookup_insert_eq, !app_nil_r. done. }
  rewrite bool_decide_eq_true_2 by done. unfold message_of.
  destruct (Unmarshal b) as [[k]|]; [|rewrite E; cbn; rewrite ?app_nil_r; done].
  unfold handle_frame. cbn [Kind]. destruct k as [[]|]; try (rewrite E; cbn; rewrite ?app_nil_r; done).
  - rewrite Hrc. cbn [r_phase set_phase]. rewrite lookup_insert_eq, app_nil_r. done.
  - rewrite phase_write, E, !app_nil_r. split; [done|]. unfold write. destruct (_ || _); [done|].
    etrans; [by apply delivered_written|]. by rewrite app_nil_r.
Qed.

(** [c] goes on. *)
Lemma own_step t c d r e :
  up t c d r -> serves t c d r -> up t c d (step r (Step c e)) ->
  serves t c d (step r (Step c e)) /\ conveyed c (step r (Step c e)) = conveyed c r /\
  (pending c r <> [] -> delivered_for c (step r (Step c e)) = conveyed c r).
Proof.
  intros (Hc & Hd & Hne & _) Hs Hu. unfold serves, conveyed, pending in *. cbn [step] in *.
  destruct (r_phase r !! c) as [[| | | |t'|t' rc data|t'|t'|]|] eqn:E; try done; try (by rewrite E).
  - destruct Hs as [-> ->]. unfold write in *. cbn [wr_to] in *.
    rewrite bool_decide_eq_false_2 in * by done. cbn [orb] in *. destruct (e_write e); cbn [negb] in *.
    + assert (Ed : delivered_for c (set_phase c (Pumping t) (log (Written (Some c) d (mkFrame (Some (Frame_Msg data)))) r))
        = delivered_for c r ++ [data]).
      { etrans; [by apply delivered_written|]. cbn. by rewrite bool_decide_eq_true_2. }
      cbn [r_phase set_phase]. rewrite lookup_insert_eq, Ed, app_nil_r. done.
    + destruct Hu as (_ & Hu & _). destruct Hu. cbn. set_solver.
  - assert (El : forall q, r_log (set_phase c (Removing t') match q with Some peer => close peer r | None => r end) = r_log r)
      by (by intros []).
    rewrite (delivered_log c r _ (El _)). cbn [r_phase set_phase]. by rewrite lookup_insert_eq.
  - cbn [r_phase set_phase finish]. rewrite lookup_insert_eq. done.
Qed.

Lemma conveyed_run t c d ls r :
  serves t c d r -> stays_up t c d r ls ->
  serves t c d (run ls r) /\ up t c d (run ls r) /\ conveyed c (run ls r) = conveyed c r ++ read_by c r ls.
Proof.
  revert r. induction ls as [|l ls IH]; intros r Hs [Hu Hup]; [cbn; by rewrite app_nil_r|]. cbn [read_by].
  change (run (l :: ls) r) with (run ls (step r l)).
  assert (Hl : serves t c d (step r l) /\ conveyed c (step r l) = conveyed c r ++ read_in c r l).
  { assert (Hu' : up t c d (step r l)) by (by destruct ls; destruct Hup).
    assert (Hcase : (exists res e, l = Read c res e) \/ (exists e, l = Step c e) \/
      ((forall res e, l <> Read c res e) /\ (forall e, l <> Step c e))).
    { destruct l as [x|x res e|x e|now|x]; try (by right; right);
        (destruct (decide (x = c)) as [->|]; [by eauto|right; right; split; congruence]). }
    destruct Hcase as [(res & e & ->)|[(e & ->)|[Hr Ho]]].
    - by apply read_step.
    - destruct (own_step t c d r e Hu Hs Hu') as (? & -> & _). split; [done|].
      assert (En : read_in c r (Step c e) = []) by (unfold read_in; by repeat case_match). by rewrite En, app_nil_r.
    - destruct (others_step t c d r l Hs Hr Ho) as (? & -> & ->). by rewrite app_nil_r. }
  destruct Hl as [Hs' Hl]. destruct (IH (step r l) Hs' Hup) as (? & ? & ->). by rewrite Hl, <- app_assoc.
Qed.

Lemma log_to t c d r l : serves t c d r -> (forall w, w ∈ r_log (step r l) -> wr_from w = Some c -> w ∈ r_log r \/ wr_to w = d).
Proof.
  intros Hs w Hw Hf. destruct (step_log r l) as [E|(w' & E & Hw')]; rewrite E in Hw; [by left|].
  apply elem_of_app in Hw as [Hw| ->%list_elem_of_singleton]; [by left|]. right.
  destruct Hw' as [Hn|(c' & t' & rc & data & e & -> & Ep & ->)]; [by rewrite Hn in Hf|]. injection Hf as ->.
  unfold serves in Hs. rewrite Ep in Hs. by destruct Hs.
Qed.

(** C10: A session that stays up forwards every message, in order and unchanged, to the
    other member.  In every interleaving with the other member, other connections
    and the clock, during which the session is in the table and the channels of its
    members are open, the messages that the relay has written for [c] and the one it
    is about to write are those that it has read from [c]; all of them were written
    to [d]; and the write of the last one is the next step of [c]. *)
Theorem relay_forwards r t c d ls :
  serves t c d r -> stays_up t c d r ls ->
  let r' := run ls r in
  delivered_for c r' ++ pending c r' = delivered_for c r ++ pending c r ++ read_by c r ls /\
  (forall w, w ∈ r_log r' -> wr_from w = Some c -> w ∈ r_log r \/ wr_to w = d) /\
  (forall e, e_write e = true -> pending c r' <> [] ->
     delivered_for c (step r' (Step c e)) = delivered_for c r ++ pending c r ++ read_by c r ls).
Proof.
  intros Hs Hup r'. destruct (conveyed_run t c d ls r Hs Hup) as (Hs' & Hu' & Hc). fold r' in Hs', Hu', Hc.
  unfold conveyed in Hc. rewrite <- app_assoc in Hc. split_and!; [exact Hc| |].
  - unfold r'. clear r' Hs' Hu' Hc. revert r Hs Hup. induction ls as [|l ls IH]; intros r Hs Hup; [by left|].
    destruct Hup as [Hu Hup]. intros w Hw Hf. change (run (l :: ls) r) with (run ls (step r l)) in Hw.
    destruct (conveyed_run t c d [l] r Hs) as (Hs1 & _); [split; [done|by destruct ls; destruct Hup]|].
    destruct (IH (step r l) Hs1 Hup w Hw Hf) as [Hin|]; [|by right]. by eapply log_to.
  - intros e He Hp. rewrite <- Hc.
    apply (own_step t c d r' e Hu' Hs'); [|done]. clear Hc. unfold pending in Hp. unfold serves in Hs'. cbn [step].
    destruct (r_phase r' !! c) as [[]|] eqn:Ep; try done. destruct Hs' as [-> ->]. destruct Hu' as (H1' & H2' & H3' & s & H4').
    unfold write. cbn [wr_to]. rewrite bool_decide_eq_false_2 by done. rewrite He. cbn. split_and!; try done. by exists s.
Qed.

(** ** Sessions lost *)

(** A [Join] frame. *)
Definition is_join (b t : bytes) : Prop := Unmarshal b = Some (mkFrame (Some (Frame_Register t MODE_JOIN))).

(** [Join] tests the expiry of the token before it tests whether the token has
    been used.  A third connection that presents the token of a running session
    after the token's time to live is refused, but ends the session: the two
    members stay connected, and what they send from then on is dropped. *)
Theorem late_join_ends_session r t c d x b bm data e s :
  password = [] -> connected r t c d -> sessions (r_sm r) !! hex t = Some s ->
  r_phase r !! x = Some AwaitFirst -> x ∉ r_closed r -> t <> [] -> x <> c ->
  is_join b t -> se_expiry s < e_now e ->
  Unmarshal bm = Some (mkFrame (Some (Frame_Msg data))) ->
  let r' := run [Read x (Some b) e; Read c (Some bm) quiet_env] r in
  r_phase r' !! x = Some (Finished None) /\ sessions (r_sm r') !! hex t = None /\
  r_phase r' !! c = Some (Pumping t) /\ c ∉ r_closed r' /\ r_log r' = r_log r.
Proof.
  intros Hpw (Hc & Hoc & Hod & Hne & _) Hs Hx Hox Ht Hxc Hj He Hm. cbn [run foldl].
  assert (E1 : step r (Read x (Some b) e)
    = finish x None (set_sm (set_sessions (delete (hex t) (sessions (r_sm r))) (r_sm r)) r)).
  { cbn [step]. rewrite Hx. unfold received. rewrite bool_decide_eq_false_2 by done.
    cbn [mbind option_bind]. unfold is_join in Hj. rewrite Hj. cbn [GetAuth Kind].
    rewrite bool_decide_eq_true_2 by done. cbn [negb]. unfold handle_register. cbn [GetRegister Kind].
    change (MODE_JOIN =? MODE_CREATE) with false. change (MODE_JOIN =? MODE_JOIN) with true. cbv iota.
    rewrite bool_decide_eq_false_2 by done. unfold Join. rewrite Hs.
    destruct (Z.ltb_spec (se_expiry s) (e_now e)); [done|lia]. }
  rewrite E1. set (r1 := finish _ _ _).
  assert (Hc1 : r_phase r1 !! c = Some (Pumping t)).
  { unfold r1. cbn. by rewrite lookup_insert_ne. }
  assert (Hoc1 : c ∉ r_closed r1) by (unfold r1; cbn; set_solver).
  assert (Er : step r1 (Read c (Some bm) quiet_env) = r1).
  { cbn [step]. rewrite Hc1. unfold received. rewrite bool_decide_eq_false_2 by done. rewrite Hm.
    unfold handle_frame. cbn [Kind]. unfold Recipient, r1. cbn. by rewrite lookup_delete_eq. }
  rewrite Er. split_and!; try done.
  - unfold r1. cbn. by rewrite lookup_insert_eq.
  - unfold r1. cbn. by rewrite lookup_delete_eq.
Qed.

(** [Unregister] removes whatever session has the token.  A connection whose
    session was already replaced by another one under the same token ends the
    new session when it leaves. *)
Theorem stale_unregister r t a s :
  r_phase r !! a = Some (Pumping t) -> sessions (r_sm r) !! hex t = Some s ->
  se_listener s <> a -> se_dialer s <> Some a ->
  let r' := run [Read a None quiet_env; Step a quiet_env; Step a quiet_env] r in
  sessions (r_sm r') !! hex t = None /\ r_phase r' !! se_listener s = r_phase r !! se_listener s /\
  (se_listener s ∈ r_closed r' <-> se_listener s ∈ r_closed r).
Proof.
  intros Ha Hs Hl Hd. cbn [run foldl step]. rewrite Ha.
  assert (received a None r = None) as -> by (unfold received; by case_bool_decide).
  cbn [r_phase set_phase]. rewrite lookup_insert_eq. unfold ClosePeerChannel. cbn [r_sm set_phase].
  rewrite Hs, !bool_decide_eq_false_2 by congruence. cbn [r_phase set_phase]. rewrite lookup_insert_eq.
  cbn. rewrite lookup_delete_eq, !lookup_insert_ne by congruence. split_and!; [done|done|]; set_solver.
Qed.

(** A dialer joins a waiting session, and is told so. *)
Lemma join_accepted r t d s b e :
  password = [] -> sessions (r_sm r) !! hex t = Some s -> se_dialer s = None -> e_now e <= se_expiry s ->
  r_phase r !! d = Some AwaitFirst -> d ∉ r_closed r -> t <> [] -> is_join b t -> e_write e = true ->
  exists x, run [Read d (Some b) e; Step d e] r =
    set_phase d (Pumping t)
      (log (Written None d (mkFrame (Some (Frame_Registered t 0 (seconds (sm_sessionTTL (r_sm r)))))))
        (set_phase d (Replying t 0)
          (set_sm (set_sessions (<[hex t := mkSession (se_listener s) (Some d) (se_expiry s) x]>
                                   (sessions (r_sm r))) (r_sm r)) r))).
Proof.
  intros Hpw Hs Hsd Hexp Hd Hod Ht Hj Hw. unfold is_join in Hj.
  eexists (if 0 <? sm_sessionTTL (r_sm r) then e_now' e + sm_sessionTTL (r_sm r) else se_sessionExpiry s).
  assert (E1 : step r (Read d (Some b) e) = set_phase d (Replying t 0)
    (set_sm (set_sessions (<[hex t := mkSession (se_listener s) (Some d) (se_expiry s)
       (if 0 <? sm_sessionTTL (r_sm r) then e_now' e + sm_sessionTTL (r_sm r) else se_sessionExpiry s)]>
       (sessions (r_sm r))) (r_sm r)) r)).
  { cbn [step]. rewrite Hd. unfold received. rewrite bool_decide_eq_false_2 by done.
    cbn [mbind option_bind]. rewrite Hj. cbn [GetAuth Kind]. rewrite bool_decide_eq_true_2 by done.
    cbn [negb]. unfold handle_register. cbn [GetRegister Kind].
    change (MODE_JOIN =? MODE_CREATE) with false. change (MODE_JOIN =? MODE_JOIN) with true. cbv iota.
    rewrite bool_decide_eq_false_2 by done. unfold Join. rewrite Hs.
    destruct (Z.ltb_spec (se_expiry s) (e_now e)); [lia|]. by rewrite Hsd. }
  cbn [run foldl]. rewrite E1. set (r1 := set_phase d (Replying t 0) _).
  assert (Hp1 : r_phase r1 !! d = Some (Replying t 0)) by (unfold r1, set_phase; cbn [r_phase]; by rewrite lookup_insert_eq).
  cbn [step]. rewrite Hp1. unfold write. cbn [wr_to]. change (r_closed r1) with (r_closed r).
  rewrite bool_decide_eq_false_2 by done. rewrite Hw. cbn [orb negb]. done.
Qed.

(** A session exists before its listener has been told so.  A dialer that knows
    the token can join and send in between: the listener then receives a message
    where it expects [Registered]. *)
Theorem message_before_registered r t ttl l d s b bm data e :
  password = [] -> r_phase r !! l = Some (Replying t ttl) -> sessions (r_sm r) !! hex t = Some s ->
  se_listener s = l -> se_dialer s = None -> e_now e <= se_expiry s -> e_write e = true ->
  r_phase r !! d = Some AwaitFirst -> d ∉ r_closed r -> l ∉ r_closed r -> t <> [] ->
  is_join b t -> Unmarshal bm = Some (mkFrame (Some (Frame_Msg data))) ->
  let r' := run [Read d (Some b) e; Step d e; Read d (Some bm) e; Step d e] r in
  r_phase r' !! l = Some (Replying t ttl) /\
  r_log r' = r_log r ++ [Written None d (mkFrame (Some (Frame_Registered t 0 (seconds (sm_sessionTTL (r_sm r))))));
                         Written (Some d) l (mkFrame (Some (Frame_Msg data)))].
Proof.
  intros Hpw Hl Hs Esl Esd Hexp Hw Hd Hod Hol Ht Hj Hm.
  assert (Hdl : d <> l) by congruence.
  destruct (join_accepted r t d s b e Hpw Hs Esd Hexp Hd Hod Ht Hj Hw) as [x E].
  change (run [Read d (Some b) e; Step d e; Read d (Some bm) e; Step d e] r)
    with (run [Read d (Some bm) e; Step d e] (run [Read d (Some b) e; Step d e] r)).
  rewrite E. set (r2 := set_phase d (Pumping t) _).
  assert (Hc : connected r2 t d l).
  { split_and!; try done; [unfold r2, set_phase; cbn [r_phase]; by rewrite lookup_insert_eq|].
    eexists. split; [unfold r2, set_phase, log, set_sm, set_sessions; cbn [r_sm sessions]; by rewrite lookup_insert_eq|].
    right. by rewrite Esl. }
  destruct (forward_one r2 t d l bm data e Hc Hm Hw) as (_ & Hph & Hlog). cbv zeta. split.
  - rewrite Hph by done. unfold r2, set_phase, log, set_sm. cbn [r_phase]. by rewrite !lookup_insert_ne.
  - rewrite Hlog. unfold r2, set_phase, log, set_sm. cbn [r_log]. by rewrite <- app_assoc.
Qed.

End hub.

(** ** Concrete runs *)

Section sample.
Existing Instance wire_runtime.

Definition sample_frame (k : frame_kind) : bytes := default [] (Marshal (mkFrame (Some k))).
Definition sample_token : bytes := map (fun i => bof (Z.of_nat i)) (seq 0 32).
Definition at_time (t : Z) : env := mkEnv t t (be_put 16 77) true.
Definition join_frame : bytes := sample_frame (Frame_Register sample_token MODE_JOIN).
Definition msg_frame (s : string) : bytes := sample_frame (Frame_Msg (str s)).

(** The listener [c] registers [sample_token]. *)
Definition creates (c : nat) (t : Z) : list label :=
  [Accepted c; Read c (Some (sample_frame (Frame_Register sample_token MODE_CREATE))) (at_time t);
   Step c (at_time t); Step c (at_time t)].
Definition joins (c : nat) (t : Z) : list label :=
  [Accepted c; Read c (Some join_frame) (at_time t); Step c (at_time t)].

Definition sample_session : list label := creates 1 0 ++ joins 2 10.
Definition sample_talk : list label :=
  [Read 2 (Some (msg_frame "hello")) (at_time 20); Step 2 (at_time 20);
   Read 1 (Some (msg_frame "hi")) (at_time 20); Step 1 (at_time 20)].
Definition sample_init : relay := relay_init (5 * Minute) 100 0.

Lemma relay_isolation_witness :
  let r := run [] (sample_session ++ sample_talk) sample_init in
  2%nat <> 1%nat /\ (exists t, registered_with r 2 = Some t /\ registered_with r 1 = Some t) /\
  (2 = 1 <-> 1 = 2)%nat /\ (2 = 2 <-> 1 = 1)%nat.
Proof.
  apply (relay_isolation [] (5 * Minute) 100 0 (sample_session ++ sample_talk) 2 1 1 2
           (mkFrame (Some (Frame_Msg (str "hello")))) (mkFrame (Some (Frame_Msg (str "hi"))))).
  - assert (E : r_log (run [] (sample_session ++ sample_talk) sample_init)
      !! 2%nat = Some (Written (Some 2%nat) 1 (mkFrame (Some (Frame_Msg (str "hello"))))))
      by (vm_compute; reflexivity).
    exact (list_elem_of_lookup_2 _ _ _ E).
  - assert (E : r_log (run [] (sample_session ++ sample_talk) sample_init)
      !! 3%nat = Some (Written (Some 1%nat) 2 (mkFrame (Some (Frame_Msg (str "hi"))))))
      by (vm_compute; reflexivity).
    exact (list_elem_of_lookup_2 _ _ _ E).
Defined.

Lemma registration_authenticated_witness :
  let ls := [Accepted 1; Read 1 (Some (sample_frame (Frame_Auth (str "secret")))) (at_time 0);
             Read 1 (Some (sample_frame (Frame_Register [] MODE_CREATE))) (at_time 0);
             Step 1 (at_time 0)] in
  exists b e, Read 1 (Some b) e ∈ ls /\ Unmarshal b = Some (mkFrame (Some (Frame_Auth (str "secret")))).
Proof.
  intros ls. apply (registration_authenticated (str "secret") (5 * Minute) 100 0 ls 1 (be_put 16 77)).
  - vm_compute. done.
  - vm_compute. reflexivity.
Defined.

Lemma relay_capacity_witness :
  Z.of_nat (size (sessions (r_sm (run [] (sample_session ++ creates 3 0) sample_init)))) <= 100.
Proof. apply (relay_capacity [] (5 * Minute) 100 0). lia. Defined.

Definition up_here (r : relay) : bool :=
  bool_decide (1%nat ∉ r_closed r) && bool_decide (2%nat ∉ r_closed r) &&
  match sessions (r_sm r) !! hex sample_token with
  | Some s => bool_decide (se_listener s = 1%nat) && bool_decide (se_dialer s = Some 2%nat)
  | None => false
  end.

Lemma sample_up r : up_here r = true -> up sample_token 1 2 r.
Proof.
  unfold up_here. rewrite !andb_true_iff, !bool_decide_eq_true. intros [[? ?] Hs].
  destruct (sessions (r_sm r) !! hex sample_token) as [s|] eqn:E; [|done].
  rewrite andb_true_iff, !bool_decide_eq_true in Hs. split_and!; try done. exists s. by split; [|left].
Qed.

Lemma sample_connected : connected (run [] sample_session sample_init) sample_token 1 2.
Proof.
  split_and!; [vm_compute; reflexivity|apply (bool_decide_unpack _); vm_compute; done..|done|].
  eexists. split; [vm_compute; reflexivity|left; done].
Qed.

(** Both members talk, another connection registers and the clock goes on. *)
Definition sample_traffic : list label :=
  [Read 1 (Some (msg_frame "a")) (at_time 30); Accepted 3; Read 2 (Some (msg_frame "x")) (at_time 31);
   Step 1 (at_time 32); Tick 40; Read 1 (Some (msg_frame "b")) (at_time 41); Step 2 (at_time 42)].

Lemma relay_forwards_witness :
  let r := run [] sample_session sample_init in let r' := run [] sample_traffic r in
  delivered_for 1 r' = [str "a"] /\ pending 1 r' = [str "b"] /\
  delivered_for 1 (step [] r' (Step 1 (at_time 50))) = [str "a"; str "b"].
Proof.
  destruct (relay_forwards [] (run [] sample_session sample_init) sample_token 1 2 sample_traffic) as (_ & _ & Hn).
  - vm_compute. reflexivity.
  - cbn [stays_up sample_traffic]. repeat (split; [apply sample_up; vm_compute; reflexivity|]). exact I.
  - split; [vm_compute; reflexivity|]. split; [vm_compute; reflexivity|].
    rewrite (Hn (at_time 50)); [vm_compute; reflexivity|reflexivity|vm_compute; discriminate].
Defined.

Lemma late_join_ends_session_witness :
  let r := run [] (sample_session ++ [Accepted 3]) sample_init in
  let r' := run [] [Read 3 (Some join_frame) (at_time (6 * Minute)); Read 1 (Some (msg_frame "a")) quiet_env] r in
  r_phase r' !! 3%nat = Some (Finished None) /\ sessions (r_sm r') !! hex sample_token = None /\
  r_phase r' !! 1%nat = Some (Pumping sample_token) /\ 1%nat ∉ r_closed r' /\ r_log r' = r_log r.
Proof.
  apply (late_join_ends_session [] (run [] (sample_session ++ [Accepted 3]) sample_init) sample_token 1 2 3
           join_frame (msg_frame "a") (str "a") (at_time (6 * Minute))
           (mkSession 1 (Some 2%nat) (5 * Minute) zero_time)).
  - reflexivity.
  - split_and!; [vm_compute; reflexivity|apply (bool_decide_unpack _); vm_compute; exact I..|discriminate|].
    eexists. split; [vm_compute; reflexivity|left; split; reflexivity].
  - vm_compute. reflexivity.
  - vm_compute. reflexivity.
  - apply (bool_decide_unpack _). vm_compute. exact I.
  - discriminate.
  - discriminate.
  - vm_compute. reflexivity.
  - vm_compute. reflexivity.
  - vm_compute. reflexivity.
Defined.

(** The listener [1] lets its token expire, a late dialer removes the session, and
    the listener [4] registers the token again. *)
Lemma stale_unregister_witness :
  let ls := creates 1 0 ++ [Accepted 3; Read 3 (Some join_frame) (at_time (6 * Minute))]
            ++ creates 4 (7 * Minute) in
  let r := run [] ls sample_init in
  let r' := run [] [Read 1 None quiet_env; Step 1 quiet_env; Step 1 quiet_env] r in
  sessions (r_sm r') !! hex sample_token = None /\ r_phase r' !! 4%nat = r_phase r !! 4%nat /\
  (4%nat ∈ r_closed r' <-> 4%nat ∈ r_closed r).
Proof.
  intros ls r. apply (stale_unregister [] r sample_token 1 (mkSession 4 None (12 * Minute) zero_time)).
  - vm_compute. reflexivity.
  - vm_compute. reflexivity.
  - discriminate.
  - discriminate.
Defined.

Lemma message_before_registered_witness :
  let ls := [Accepted 1; Read 1 (Some (sample_frame (Frame_Register sample_token MODE_CREATE))) (at_time 0);
             Step 1 (at_time 0); Accepted 2] in
  let r := run [] ls sample_init in
  let r' := run [] [Read 2 (Some join_frame) (at_time 0); Step 2 (at_time 0);
                    Read 2 (Some (msg_frame "a")) (at_time 0); Step 2 (at_time 0)] r in
  r_phase r' !! 1%nat = Some (Replying sample_token 300) /\
  r_log r' = r_log r ++ [Written None 2 (mkFrame (Some (Frame_Registered sample_token 0 0)));
                         Written (Some 2%nat) 1 (mkFrame (Some (Frame_Msg (str "a"))))].
Proof.
  intros ls r. apply (message_before_registered [] r sample_token 300 1 2
    (mkSession 1 None (5 * Minute) zero_time) join_frame (msg_frame "a") (str "a") (at_time 0)).
  - reflexivity.
  - vm_compute. reflexivity.
  - vm_compute. reflexivity.
  - reflexivity.
  - reflexivity.
  - vm_compute. discriminate.
  - reflexivity.
  - vm_compute. reflexivity.
  - apply (bool_decide_unpack _). vm_compute. exact I.
  - apply (bool_decide_unpack _). vm_compute. exact I.
  - discriminate.
  - vm_compute. reflexivity.
  - vm_compute. reflexivity.
Defined.

End sample.
