(* ===== verification/RelayClient.v ===== *)
(** * The relay's clients (pkg/relayconn: auth.go, dial.go, listener.go, conn.go)

    The registration a client performs over its HPKE channel and the write side of
    the connection it uses afterwards. *)

From S2P Require Import Prelude GoErr Process Strconv Wire Pb Route Crypto Enigma Serde Conn Transport Exchange.
From S2P Require Import Relay RelayToken RelayHub.

(** ** Registration *)

Section client.
Context `{Crypto} `{ProtoRuntime} {St : Type}.
Implicit Types (w : world St).

Definition write_frame (k : frame_kind) (marshalling sending : string) : prog St (result unit) :=
  match marshal_result (mkFrame (Some k)) with
  | Err e => Ret (Err (wrapf marshalling e))
  | Ok b => try _ <- ask (WriteBytes b) or sending; Ret (Ok tt)
  end.

Definition read_frame (reading unmarshalling : string) : prog St (result Frame) :=
  try b <- ask ReadBytes or reading;
  Ret (map_err (wrapf unmarshalling) (unmarshal_result (M := Frame) b)).

Definition sendAuth (password : bytes) : prog St (result unit) :=
  do r <- write_frame (Frame_Auth password) "marshal auth" "send auth";
  match r with
  | Err e => Ret (Err e)
  | Ok _ =>
      do r <- read_frame "read auth response" "unmarshal auth response";
      match r with
      | Err e => Ret (Err e)
      | Ok frame =>
          match GetAuth frame with
          | None => Ret (Err (errorf "unexpected auth response"))
          | Some _ => Ret (Ok tt)
          end
      end
  end.

(** The part of [relayHandshake] and [listenHandshake] that they share: the
    optional password, the registration and the relay's answer. *)
Definition register_over (password token : bytes) (mode : Z) : prog St (result Frame) :=
  do a <- (if bool_decide (password = []) then Ret (Ok tt) else sendAuth password);
  match a with
  | Err e => Ret (Err e)
  | Ok _ =>
      do r <- write_frame (Frame_Register token mode) "marshal register" "send register";
      match r with
      | Err e => Ret (Err e)
      | Ok _ => read_frame "read registered" "unmarshal registered"
      end
  end.

(** On an error after [Initiate] the deferred function closes the channel. *)
Definition close_on_error {A} (p : prog St (result A)) : prog St (result A) :=
  do r <- p;
  match r with
  | Ok a => Ret (Ok a)
  | Err e => do _ <- ask CloseConn; Ret (Err e)
  end.

Definition relayHandshake_over (password token : bytes) : prog St (result (Z * Z)) :=
  do r <- register_over password token MODE_JOIN;
  match r with
  | Err e => Ret (Err e)
  | Ok relayFrame =>
      match GetRegistered relayFrame with
      | None => Ret (Err (errorf "unexpected frame: expected registered"))
      | Some (_, ttl, sttl) => Ret (Ok (ttl * Second, sttl * Second))
      end
  end.

(** [GetToken] of a missing or empty token is nil. *)
Definition listenHandshake_over (password token : bytes) : prog St (result (bytes * Z * Z)) :=
  do r <- register_over password token MODE_CREATE;
  match r with
  | Err e => Ret (Err e)
  | Ok relayFrame =>
      match GetRegistered relayFrame with
      | Some (x :: token, ttl, sttl) => Ret (Ok (x :: token, ttl * Second, sttl * Second))
      | _ => Ret (Err (errorf "relay returned empty token"))
      end
  end.

Definition relayHandshake (password token : bytes) : prog St (result (Z * Z)) :=
  do r <- Initiate;
  match r with
  | Err e => do _ <- ask CloseConn; Ret (Err (wrapf "hpke initiate" e))
  | Ok ch => over_channel ch (close_on_error (relayHandshake_over password token))
  end.

Definition listenHandshake (password token : bytes) : prog St (result (bytes * Z * Z)) :=
  do r <- Initiate;
  match r with
  | Err e => do _ <- ask CloseConn; Ret (Err (wrapf "hpke initiate" e))
  | Ok ch => over_channel ch (close_on_error (listenHandshake_over password token))
  end.

(** ** A relay connection on a TCP relay *)

(** [RelayConn.WriteBytes] down to the framing. *)
Definition rc_WriteBytes (data : bytes) (s : Channel * Framing) : result unit * (Channel * Framing) :=
  let '(ch, f) := s in
  match marshal_result (mkFrame (Some (Frame_Msg data))) with
  | Err e => (Err e, s)
  | Ok b =>
      match hpke_Seal (ch_sender ch) b with
      | None => (Err (wrapf "encrypting" (errorf "hpke: seal")), s)
      | Some (encrypted, sender) =>
          let '(r, f') := framing_WriteBytes encrypted f in
          (map_err (wrapf "write encrypted") r, (newChannel sender (ch_recipient ch), f'))
      end
  end.

End client.

(** ** Theorems: registration *)

Section registration.
Context `{Crypto} `{ProtoRuntime} {St : Type} `{!ProtoRuntimeOk _}.
Implicit Types (w : world St).

Lemma frame_delivered k :
  kind_wf k -> exists b, Marshal (mkFrame (Some k)) = Some b /\ Unmarshal b = Some (mkFrame (Some k)).
Proof.
  intros Hk. destruct (marshal_ascii (mkFrame (Some k))) as [b E]; [constructor|].
  exists b. split; [done|]. by apply unmarshal_marshal.
Qed.

(** Without a password the client writes one frame and reads one. *)
Lemma exec_register token mode w b reply f :
  Marshal (mkFrame (Some (Frame_Register token mode))) = Some b -> Unmarshal reply = Some f ->
  exec (register_over [] token mode) w (Net [Ok reply] [] [] false)
  = (Some (Ok f), w, Net [] [] [b] false).
Proof.
  intros Eb Ef. unfold register_over. rewrite bool_decide_eq_true_2 by done.
  unfold write_frame, read_frame, marshal_result, unmarshal_result. rewrite Eb.
  cbn [pbind of_option ask exec net_step net_write net_read n_reads n_writes n_sent n_closed app map_err].
  by rewrite Ef.
Qed.

Lemma seconds_range d : 0 <= seconds d < 2 ^ 32.
Proof. unfold seconds, u32. apply Z.mod_pos_bound. lia. Qed.

(** The relay's side of a registration: [t] is the token it registers, [asked]
    the one it was asked for. *)
Lemma relay_creates r c b asked t e :
  r_phase r !! c = Some AwaitFirst -> c ∉ r_closed (purge (e_now e) r) -> c ∉ r_closed r ->
  Unmarshal b = Some (mkFrame (Some (Frame_Register asked MODE_CREATE))) ->
  sm_full (r_sm (purge (e_now e) r)) = false -> e_write e = true ->
  (asked = [] /\ t = e_random e) \/
  (asked = t /\ t <> [] /\ ValidateUserToken t = Ok tt /\ sessions (r_sm (purge (e_now e) r)) !! hex t = None) ->
  let r' := run [] [Read c (Some b) e; Step c e; Step c e] r in
  r_phase r' !! c = Some (Pumping t) /\
  sessions (r_sm r') !! hex t = Some (new_session c (e_now e) (r_sm r)) /\
  r_log r' = r_log r ++ [Written None c (mkFrame (Some (Frame_Registered t (seconds (sm_ttl (r_sm r)))
                            (seconds (sm_sessionTTL (r_sm r))))))].
Proof.
  intros Hc Hpc Hoc Hb Hfull Hw Ht. set (r0 := purge (e_now e) r) in *.
  assert (Hsm : sm_ttl (r_sm r0) = sm_ttl (r_sm r) /\ sm_sessionTTL (r_sm r0) = sm_sessionTTL (r_sm r) /\
    new_session c (e_now e) (r_sm r0) = new_session c (e_now e) (r_sm r))
    by (unfold r0; rewrite sm_purge; done).
  destruct Hsm as (Httl & Hsttl & Hnew).
  assert (E1 : step [] r (Read c (Some b) e) = set_phase c (Creating asked) r0).
  { cbn [step]. rewrite Hc. unfold received. rewrite bool_decide_eq_false_2 by done.
    cbn [mbind option_bind]. rewrite Hb. cbn [GetAuth Kind]. rewrite bool_decide_eq_true_2 by done.
    cbn [negb]. unfold handle_register. cbn [GetRegister Kind].
    change (MODE_CREATE =? MODE_CREATE) with true. cbv iota. fold r0.
    destruct Ht as [[-> _]|(-> & Hne & Hv & _)].
    - by rewrite bool_decide_eq_true_2.
    - rewrite bool_decide_eq_false_2 by done. by rewrite Hv. }
  cbn [run foldl]. rewrite E1. set (r1 := set_phase c (Creating asked) r0).
  assert (Hp1 : r_phase r1 !! c = Some (Creating asked))
    by (unfold r1, set_phase; cbn [r_phase]; by rewrite lookup_insert_eq).
  set (sm2 := set_sessions (<[hex t := new_session c (e_now e) (r_sm r0)]> (sessions (r_sm r0))) (r_sm r0)).
  assert (E2 : step [] r1 (Step c e) = set_phase c (Replying t (seconds (sm_ttl (r_sm r0)))) (set_sm sm2 r1)).
  { cbn [step]. rewrite Hp1. unfold handle_create. change (r_sm r1) with (r_sm r0).
    destruct Ht as [[-> ->]|(-> & Hne & _ & Hnone)].
    - rewrite bool_decide_eq_true_2 by done. unfold Create. by rewrite Hfull.
    - rewrite bool_decide_eq_false_2 by done. unfold CreateWith. by rewrite Hfull, Hnone. }
  rewrite E2. set (r2 := set_phase c (Replying t _) _).
  assert (Hp2 : r_phase r2 !! c = Some (Replying t (seconds (sm_ttl (r_sm r0)))))
    by (unfold r2, set_phase; cbn [r_phase]; by rewrite lookup_insert_eq).
  cbn [step]. rewrite Hp2. unfold write. cbn [wr_to]. change (r_closed r2) with (r_closed r0).
  rewrite bool_decide_eq_false_2 by done. rewrite Hw. cbn [orb negb].
  unfold set_phase, log. cbn [r_phase r_sm r_log]. rewrite lookup_insert_eq.
  change (r_sm r2) with sm2. change (r_log r2) with (r_log r0). unfold sm2. cbn [sessions set_sessions sm_sessionTTL].
  rewrite lookup_insert_eq, Hnew, Httl, Hsttl. unfold r0. by rewrite log_purge.
Qed.

(** C33: A client that asks for a session gets it: the frame it sends makes the relay
    register it, and the relay's answer makes [listenHandshake] return the token
    under which the relay registered it. *)
Theorem listener_registers r c asked t e w :
  r_phase r !! c = Some AwaitFirst -> c ∉ r_closed (purge (e_now e) r) -> c ∉ r_closed r ->
  sm_full (r_sm (purge (e_now e) r)) = false -> e_write e = true ->
  (asked = [] /\ t = e_random e /\ blen t = relayTokenSize) \/
  (asked = t /\ ValidateUserToken t = Ok tt /\ sessions (r_sm (purge (e_now e) r)) !! hex t = None) ->
  exists b reply f,
    let r' := run [] [Read c (Some b) e; Step c e; Step c e] r in
    exec (listenHandshake_over (St := St) [] asked) w (Net [Ok reply] [] [] false) =
      (Some (Ok (t, seconds (sm_ttl (r_sm r)) * Second, seconds (sm_sessionTTL (r_sm r)) * Second)), w,
       Net [] [] [b] false) /\
    Marshal f = Some reply /\ r_log r' = r_log r ++ [Written None c f] /\
    r_phase r' !! c = Some (Pumping t) /\
    sessions (r_sm r') !! hex t = Some (new_session c (e_now e) (r_sm r)).
Proof.
  intros Hc Hpc Hoc Hfull Hw Ht.
  assert (Hlen : (asked = [] /\ t = e_random e \/ asked = t /\ t <> [] /\ ValidateUserToken t = Ok tt /\
    sessions (r_sm (purge (e_now e) r)) !! hex t = None) /\ t <> [] /\ blen t < 2 ^ 60 /\ blen asked < 2 ^ 60).
  { unfold relayTokenSize in Ht. destruct Ht as [(-> & -> & Hl)|(-> & Hv & Hn)].
    - split_and!; [by left| |lia|done]. intros E. by rewrite E in Hl.
    - assert (Hl : blen t = 32).
      { unfold ValidateUserToken, peerTokenSize in Hv. by destruct (Z.eqb_spec (blen t) 32). }
      assert (t <> []) by (intros E; by rewrite E in Hl).
      split_and!; [right; by split_and!|done|lia|lia]. }
  destruct Hlen as (Ht' & Hne & Hl & Hla).
  destruct (frame_delivered (Frame_Register asked MODE_CREATE)) as (b & Eb & Ub); [done|].
  set (ttl := seconds (sm_ttl (r_sm r))). set (sttl := seconds (sm_sessionTTL (r_sm r))).
  destruct (frame_delivered (Frame_Registered t ttl sttl)) as (reply & Er & Ur).
  { split_and!; [done|apply seconds_range..]. }
  destruct (relay_creates r c b asked t e Hc Hpc Hoc Ub Hfull Hw Ht') as (P & S & L).
  exists b, reply, (mkFrame (Some (Frame_Registered t ttl sttl))). split_and!; try done.
  unfold listenHandshake_over. rewrite exec_bind, (exec_register _ _ _ _ _ _ Eb Ur).
  cbn [GetRegistered Kind]. by destruct t as [|x t].
Qed.

(** ** Theorems: large messages *)

Context `{!CryptoOk _}.

(** The encoding of a message frame adds 8 bytes at this size. *)
Lemma msg_frame_size data b :
  65512 <= blen data <= MaxUint16 -> Marshal (mkFrame (Some (Frame_Msg data))) = Some b ->
  blen b = blen data + 8.
Proof.
  intros Hl Eb. rewrite (marshal_size _ _ Eb), size_fields. cbn [fields Frame_message Kind].
  unfold MaxUint16 in Hl.
  assert (Hu : forall z, 16384 <= z < 2097152 -> uvarint_len z = 3).
  { intros z Hz. unfold uvarint_len, uvarint. unfold uvarint_go. cbn.
    destruct (Z.ltb_spec z 128); [lia|].
    destruct (Z.ltb_spec (z / 128) 128) as [L|L].
    { exfalso. pose proof (Z.div_le_lower_bound z 128 128). lia. }
    destruct (Z.ltb_spec (z / 128 / 128) 128) as [L2|L2]; [done|].
    exfalso. rewrite Z.div_div in L2 by lia. pose proof (Z.div_lt_upper_bound z (128 * 128) 128). lia. }
  assert (Hin : wire_size (kind_fields (Frame_Msg data)) = blen data + 4).
  { cbn [kind_fields]. rewrite wire_size_opt_bytes by lia. destruct (Z.eqb_spec (blen data) 0); [lia|].
    rewrite Hu by lia. lia. }
  cbn [wire_size foldr]. unfold wfield_size. cbn [fst snd kind_number]. rewrite blen_encode_fields, Hin.
  rewrite (Hu (blen data + 4)) by lia. change (uvarint_len (3 * 8 + 2)) with 1. lia.
Qed.

(** A payload of the largest padding bucket. *)
Lemma large_payload (t u : Transport) {M} `{Message M} (m : M) message route w :
  paired t u -> sendable (m, route) -> clock_ok w -> Marshal m = Some message -> 32768 < blen message ->
  exists ct md w',
    follows true (Send t m route) [(true, ct)] w
      = Some ((Ok md, set_send (u64 (t_sendSequence t + 1)) t), w') /\
    65512 <= blen ct <= MaxUint16 /\ opens u ct (md, m).
Proof.
  intros (Htr & Hdec & Hwf) (Hmw & Hv & _ & b & Hb & Hle) Hc Em Hbig. cbn [fst snd] in *.
  assert (b = message) as -> by congruence.
  pose proof (u64_range (t_sendSequence t + 1)) as Hseq.
  set (t1 := set_send (u64 (t_sendSequence t + 1)) t).
  destruct (serialize_delivers (t_serde u) (t_serde t1) m message route _ w Htr Hmw Em Hle Hseq Hc)
    as (p & md & w1 & Hrun & Hst & He & Hd).
  destruct He as (mb & pad & _ & _ & _ & _ & Hpl & Hlen & _ & bucket & Hin & Hbk).
  assert (Hge : blen message <= blen p).
  { rewrite (marshal_size _ _ Hpl), size_fields. cbn [fields SignedTransport_message st_Data st_Signature st_Metadata st_Padding].
    rewrite !wire_size_app. pose proof (wire_size_opt_bytes_ge 1 message ltac:(lia)).
    assert (Hnn : forall n x, 1 <= n <= 15 -> 0 <= wire_size (opt_bytes n x)).
    { intros n x Hn. pose proof (wire_size_opt_bytes_ge n x Hn). pose proof (blen_nonneg x). lia. }
    pose proof (Hnn 2 (ed25519_Sign (privateKey (serde_attest (t_serde t1))) (signingInput mb message)) ltac:(lia)).
    pose proof (Hnn 3 mb ltac:(lia)). pose proof (Hnn 4 pad ltac:(lia)). lia. }
  assert (Hbucket : bucket = frameTargetSize).
  { unfold paddingBuckets in Hin. repeat (apply elem_of_cons in Hin as [->|Hin]; [try done; lia|]).
    by apply elem_of_nil in Hin. }
  destruct (run_Encrypt (t_encoder t1) p w1 Hwf) as (ct & Hct & Hopen & Hl).
  exists ct, md, (after_draw nonceSize w1). split_and!.
  - unfold Send. rewrite Hv. cbn [negb]. fold t1.
    rewrite (follows_bind_local _ _ _ _ _ _ _ Hrun). cbn beta iota.
    rewrite (follows_bind_local _ _ _ _ _ _ _ Hct). simpl.
    by rewrite bool_decide_eq_true_2 by done.
  - rewrite Hl. unfold frameTargetSize, encryptionOverhead, MaxUint16 in *. lia.
  - rewrite Hl. unfold frameTargetSize, encryptionOverhead, MaxUint16 in *. lia.
  - exists p. by rewrite Hdec.
Qed.

(** C40: A message over 32 KiB, which the transport accepts and pads to the largest
    bucket, cannot pass a TCP or TLS relay: with the relay's frame and the channel's tag
    the message no longer fits a 16-bit length, [Framing.WriteBytes] writes the
    length modulo 65,536 and reports success, and the other end reads at most 23
    bytes as the message and takes the rest for further frames. *)
Theorem large_message_breaks_relay (t u : Transport) {M} `{Message M} (m : M) message route w
    (ch ch' : Channel) n k f :
  paired t u -> sendable (m, route) -> clock_ok w -> Marshal m = Some message -> 32768 < blen message ->
  synced n k ch ch' -> 0 <= n < 2 ^ 64 ->
  writable (fr_rw f) -> nc_out (fr_rw f) = [] ->
  exists ct md w' sealed ch1 f',
    follows true (Send t m route) [(true, ct)] w
      = Some ((Ok md, set_send (u64 (t_sendSequence t + 1)) t), w') /\ opens u ct (md, m) /\
    rc_WriteBytes ct (ch, f) = (Ok tt, (ch1, f')) /\ nc_out (fr_rw f') = be_put 2 (u16 (blen sealed)) ++ sealed /\
    65536 <= blen sealed /\
    (forall g tail, unlimited g -> flatten (nc_in (fr_rw g)) = nc_out (fr_rw f') ++ tail ->
     exists g', framing_ReadBytes g = (Ok (btake (blen sealed - 65536) sealed), g') /\
       blen sealed - 65536 <= 23 /\
       flatten (nc_in (fr_rw g')) = bdrop (blen sealed - 65536) sealed ++ tail).
Proof.
  intros Hp Hs Hc Em Hbig Hsy Hn Hw Ho.
  destruct (large_payload t u m message route w Hp Hs Hc Em Hbig) as (ct & md & w' & F & Hct & Hop).
  destruct (marshal_ascii (mkFrame (Some (Frame_Msg ct)))) as [b Eb]; [constructor|].
  pose proof (msg_frame_size ct b Hct Eb) as Hb.
  destruct (hpke_message _ _ _ b (proj1 Hsy) Hn) as (sealed & s & rc & Es & _ & El & _).
  unfold HpkeTagSize, MaxUint16 in *.
  assert (Hsl : 65536 <= blen sealed <= 65559) by lia.
  destruct (framing_write sealed f Hw) as (f1 & E1 & _ & O1).
  rewrite Ho in O1.
  exists ct, md, w', sealed, (newChannel s (ch_recipient ch)), f1. split_and!; try done; [|lia|].
  - unfold rc_WriteBytes, marshal_result. rewrite Eb. cbn [of_option]. rewrite Es, E1. done.
  - intros g tail Hg Hin.
    destruct (framing_truncates sealed tail f g Hw Ho Hg) as (f' & Ef & Hread); [lia|].
    rewrite E1 in Ef. injection Ef as <-.
    destruct (Hread Hin) as (g' & Eg & Fg). exists g'. split_and!; [done|lia|done].
Qed.

End registration.

(** ** Witnesses *)

Section sample.
Existing Instance toy_crypto.
Existing Instance wire_runtime.

Definition sample_relay : relay := run [] [Accepted 1] sample_init.

Lemma listener_registers_witness :
  exists b reply f,
    let r' := run [] [Read 1 (Some b) (at_time 7); Step 1 (at_time 7); Step 1 (at_time 7)] sample_relay in
    exec (listenHandshake_over [] []) (sample_world 3 tt) (Net [Ok reply] [] [] false) =
      (Some (Ok (be_put 16 77, 300 * Second, 0)), sample_world 3 tt, Net [] [] [b] false) /\
    Marshal f = Some reply /\ r_log r' = [Written None 1 f] /\
    r_phase r' !! 1%nat = Some (Pumping (be_put 16 77)) /\
    sessions (r_sm r') !! hex (be_put 16 77) = Some (new_session 1 7 (r_sm sample_relay)).
Proof.
  apply (listener_registers sample_relay 1 [] (be_put 16 77) (at_time 7) (sample_world 3 tt)).
  - vm_compute. reflexivity.
  - vm_compute. intros C. inversion C.
  - vm_compute. intros C. inversion C.
  - vm_compute. reflexivity.
  - reflexivity.
  - left. split_and!; reflexivity.
Defined.

Lemma sample_synced : exists ch ch', synced 0 0 ch ch'.
Proof.
  destruct (hpke_gen []) as [k _].
  destruct (hpke_setup k []) as (_ & s & rc & _ & _ & Hs).
  by exists (newChannel s rc), (newChannel s rc).
Qed.

Definition sample_large : BytesValue := mkBytesValue (replicate 40000 Byte.x41).

Lemma large_message_breaks_relay_witness :
  exists ch ct md w' sealed ch1 f',
    follows true (Send (sample_transport 1 2) sample_large RouteExchangeMessages) [(true, ct)] (sample_world 3 tt)
      = Some ((Ok md, set_send 1 (sample_transport 1 2)), w') /\
    rc_WriteBytes ct (ch, sample_framing []) = (Ok tt, (ch1, f')) /\ 65536 <= blen sealed /\
    exists g', framing_ReadBytes (sample_framing (map (fun b => Data [b]) (nc_out (fr_rw f') ++ str "x")))
               = (Ok (btake (blen sealed - 65536) sealed), g').
Proof.
  destruct (Marshal sample_large) as [b|] eqn:E; [|discriminate E].
  assert (Hb : 32768 < blen b <= maxTransportSize)
    by (rewrite (marshal_size _ _ E); vm_compute; split; [reflexivity|discriminate]).
  destruct sample_synced as (ch & ch' & Hsy). exists ch.
  destruct (large_message_breaks_relay (sample_transport 1 2) (sample_transport 2 1) sample_large b
              RouteExchangeMessages (sample_world 3 tt) ch ch' 0 0 (sample_framing []))
    as (ct & md & w' & sealed & ch1 & f' & F & _ & W & _ & L & R).
  - apply sample_paired.
  - split_and!; [vm_compute; reflexivity|reflexivity|discriminate|]. exists b. split; [exact E|apply Hb].
  - apply sample_clock_ok.
  - exact E.
  - apply Hb.
  - exact Hsy.
  - lia.
  - apply sample_writable.
  - reflexivity.
  - exists ct, md, w', sealed, ch1, f'. split; [exact F|]. split; [exact W|]. split; [exact L|].
    edestruct R as (g' & Eg & _); [| |exists g'; exact Eg].
    + right. vm_compute. discriminate.
    + apply flatten_bytewise.
Defined.

End sample.
