(* ===== verification/RelayConn.v ===== *)
(** * Relay connections and the relay listener (pkg/relayconn: conn.go, listener.go)

    The read side of a [RelayConn], at the granularity of its locks and of its
    [select], and the listener that turns the messages of one relay session into
    connections.  One goroutine at a time reads a connection and one calls
    [Accept]; pushes, deadlines, closes and the read pump interleave with them in
    any order. *)

From S2P Require Import Prelude GoErr Process Wire Pb Conn Relay.

(** ** RelayConn *)

Inductive reader :=
  | Idle                    (* no call of ReadBytes is pending *)
  | Polling                 (* at the head of its loop *)
  | Waiting (dl : Z).       (* the buffer was empty; at its select *)

Record RelayConn := mkRelayConn {
  rc_buf : list bytes;
  rc_recv : bool;           (* the token in recv, a channel of capacity 1 *)
  rc_deadline : Z;
  rc_done : bool;           (* its context is cancelled *)
  rc_reader : reader
}.

Definition newRelayConn (done : bool) : RelayConn := mkRelayConn [] false zero_time done Idle.

Inductive branch := OnRecv | OnTimeout | OnDone.

(** What callers and the clock do to a connection; [Push] is [pushData]. *)
Inductive rc_label :=
  | Push (data : bytes)
  | SetDeadline (t : Z)
  | Cancel
  | ReadCall
  | Poll (now : Z)
  | Select (now : Z) (b : branch).

Definition set_reader (r : reader) (c : RelayConn) : RelayConn :=
  mkRelayConn (rc_buf c) (rc_recv c) (rc_deadline c) (rc_done c) r.

Definition pushData (data : bytes) (c : RelayConn) : RelayConn :=
  mkRelayConn (rc_buf c ++ [data]) true (rc_deadline c) (rc_done c) (rc_reader c).

Definition rc_SetDeadline (t : Z) (c : RelayConn) : RelayConn :=
  mkRelayConn (rc_buf c) (rc_recv c) t (rc_done c) (rc_reader c).

Definition rc_cancel (c : RelayConn) : RelayConn :=
  mkRelayConn (rc_buf c) (rc_recv c) (rc_deadline c) true (rc_reader c).

Definition passed (dl now : Z) : bool := negb (is_zero_time dl) && (dl <=? now).

(** One pass of the loop of [ReadBytes] up to its [select]. *)
Definition rc_poll (now : Z) (c : RelayConn) : RelayConn * option (result bytes) :=
  match rc_buf c with
  | x :: rest => (mkRelayConn rest (rc_recv c) (rc_deadline c) (rc_done c) Idle, Some (Ok x))
  | [] =>
      if passed (rc_deadline c) now
      then (set_reader Idle c, Some (Err (Sentinel ErrDeadlineExceeded)))
      else (set_reader (Waiting (rc_deadline c)) c, None)
  end.

(** The [select]: any ready branch may be taken; the connection waits on one
    that is not ready. *)
Definition rc_select (now : Z) (b : branch) (dl : Z) (c : RelayConn) : RelayConn * option (result bytes) :=
  match b with
  | OnRecv =>
      if rc_recv c then (mkRelayConn (rc_buf c) false (rc_deadline c) (rc_done c) Polling, None)
      else (c, None)
  | OnTimeout =>
      if passed dl now then (set_reader Idle c, Some (Err (Sentinel ErrDeadlineExceeded))) else (c, None)
  | OnDone => if rc_done c then (set_reader Idle c, Some (Err (Sentinel EOF))) else (c, None)
  end.

Definition rc_step (c : RelayConn) (l : rc_label) : RelayConn * option (result bytes) :=
  match l, rc_reader c with
  | Push data, _ => (pushData data c, None)
  | SetDeadline t, _ => (rc_SetDeadline t c, None)
  | Cancel, _ => (rc_cancel c, None)
  | ReadCall, Idle => (set_reader Polling c, None)
  | Poll now, Polling => rc_poll now c
  | Select now b, Waiting dl => rc_select now b dl c
  | _, _ => (c, None)
  end.

(** The connection after a sequence of steps, and what [ReadBytes] returned. *)
Fixpoint rc_run (ls : list rc_label) (c : RelayConn) : list (result bytes) * RelayConn :=
  match ls with
  | [] => ([], c)
  | l :: ls =>
      let '(c1, r) := rc_step c l in
      let '(out, c2) := rc_run ls c1 in
      (option_list r ++ out, c2)
  end.

Definition data_of (r : result bytes) : option bytes :=
  match r with Ok b => Some b | Err _ => None end.

Definition pushed_by (l : rc_label) : option bytes :=
  match l with Push data => Some data | _ => None end.

(** ** RelayListener *)

Record RelayListener := mkListener {
  li_conn : option nat;               (* l.conn, an index of [li_conns] *)
  li_conns : list RelayConn;          (* every connection made so far *)
  li_accept : list nat;               (* the channel, of capacity 1 *)
  li_accepting : bool;                (* a call of Accept is at its select *)
  li_stopped : bool;
  li_done : bool;                     (* its context is cancelled *)
  li_closed : bool;                   (* the exchange channel is closed *)
  li_pumping : bool                   (* readPump runs *)
}.

Definition li_init : RelayListener := mkListener None [] [] false false false false true.

Definition set_conn (i : option nat) (l : RelayListener) : RelayListener :=
  mkListener i (li_conns l) (li_accept l) (li_accepting l) (li_stopped l) (li_done l) (li_closed l)
    (li_pumping l).

Definition set_conns (cs : list RelayConn) (l : RelayListener) : RelayListener :=
  mkListener (li_conn l) cs (li_accept l) (li_accepting l) (li_stopped l) (li_done l) (li_closed l)
    (li_pumping l).

Definition set_accept (q : list nat) (waiting : bool) (l : RelayListener) : RelayListener :=
  mkListener (li_conn l) (li_conns l) q waiting (li_stopped l) (li_done l) (li_closed l) (li_pumping l).

(** Cancelling the listener's context cancels those derived from it. *)
Definition li_cancel (l : RelayListener) : RelayListener :=
  mkListener (li_conn l) (rc_cancel <$> li_conns l) (li_accept l) (li_accepting l) (li_stopped l) true
    (li_closed l) (li_pumping l).

Definition li_close_channel (l : RelayListener) : RelayListener :=
  mkListener (li_conn l) (li_conns l) (li_accept l) (li_accepting l) (li_stopped l) (li_done l) true
    (li_pumping l).

(** The [closeFn] that [deliver] installs. *)
Definition conn_closeFn (l : RelayListener) : RelayListener :=
  let l := set_conn None l in
  if li_stopped l then li_close_channel (li_cancel l) else l.

(** [RelayConn.Close] of a connection of the listener. *)
Definition li_conn_Close (i : nat) (l : RelayListener) : RelayListener :=
  conn_closeFn (set_conns (alter rc_cancel i (li_conns l)) l).

(** The connection that is made while another one waits for [Accept] is dropped with
    what it was given; it stays in [li_conns]. *)
Definition deliver (data : bytes) (l : RelayListener) : RelayListener :=
  match li_conn l with
  | Some i => set_conns (alter (pushData data) i (li_conns l)) l
  | None =>
      if li_stopped l then l
      else
        let i := length (li_conns l) in
        let l := set_conns (li_conns l ++ [pushData data (newRelayConn (li_done l))]) (set_conn (Some i) l) in
        match li_accept l with
        | [] => set_accept [i] (li_accepting l) l
        | _ => set_conn None l
        end
  end.

Definition li_Close (l : RelayListener) : RelayListener :=
  let l := match li_conn l with Some i => li_conn_Close i l | None => l end in
  li_close_channel (li_cancel l).

Definition li_Stop (l : RelayListener) : RelayListener :=
  let l := mkListener (li_conn l) (li_conns l) (li_accept l) (li_accepting l) true (li_done l) (li_closed l)
             (li_pumping l) in
  match li_accept l with
  | i :: rest => li_conn_Close i (set_accept rest (li_accepting l) l)
  | [] => l
  end.

Inductive output :=
  | DidRead (i : nat) (r : result bytes)
  | DidAccept (r : result nat)
  | SentPong.

Inductive li_label :=
  | Received (b : option bytes)         (* what the channel's ReadBytes gives readPump *)
  | ConnOp (i : nat) (l : rc_label)     (* a caller of connection i *)
  | ConnClose (i : nat)
  | AcceptCall
  | AcceptSelect (done : bool)          (* [done]: the choice when both are ready *)
  | Stop
  | Close.

Definition caller_op (l : rc_label) : bool :=
  match l with Push _ | Cancel => false | _ => true end.

Section listener.
Context `{ProtoRuntime}.

Definition pump (b : option bytes) (l : RelayListener) : RelayListener * list output :=
  if negb (li_pumping l) then (l, [])
  else match b with
  | None =>
      let l := li_cancel l in
      (mkListener (li_conn l) (li_conns l) (li_accept l) (li_accepting l) (li_stopped l) (li_done l)
         (li_closed l) false, [])
  | Some b =>
      match Unmarshal (M := Frame) b with
      | Some (mkFrame (Some (Frame_Msg data))) => (deliver data l, [])
      | Some (mkFrame (Some Frame_Ping)) => (l, [SentPong])
      | _ => (l, [])
      end
  end.

Definition li_Accept (l : RelayListener) : RelayListener * list output :=
  if li_accepting l then (l, [])
  else if li_stopped l then (l, [DidAccept (Err (Sentinel ErrNetClosed))])
  else (set_accept (li_accept l) true l, []).

Definition li_accept_select (done : bool) (l : RelayListener) : RelayListener * list output :=
  if negb (li_accepting l) then (l, [])
  else match li_accept l with
  | i :: rest =>
      if li_done l && done then (set_accept (li_accept l) false l, [DidAccept (Err (Sentinel ErrNetClosed))])
      else (set_accept rest false l, [DidAccept (Ok i)])
  | [] =>
      if li_done l then (set_accept [] false l, [DidAccept (Err (Sentinel ErrNetClosed))]) else (l, [])
  end.

Definition conn_op (i : nat) (x : rc_label) (l : RelayListener) : RelayListener * list output :=
  match li_conns l !! i with
  | Some c =>
      if caller_op x
      then let '(c', r) := rc_step c x in
           (set_conns (<[i := c']> (li_conns l)) l, DidRead i <$> option_list r)
      else (l, [])
  | None => (l, [])
  end.

Definition li_step (l : RelayListener) (x : li_label) : RelayListener * list output :=
  match x with
  | Received b => pump b l
  | ConnOp i x => conn_op i x l
  | ConnClose i => match li_conns l !! i with Some _ => (li_conn_Close i l, []) | None => (l, []) end
  | AcceptCall => li_Accept l
  | AcceptSelect done => li_accept_select done l
  | Stop => (li_Stop l, [])
  | Close => (li_Close l, [])
  end.

Definition li_run (xs : list li_label) : RelayListener * list output :=
  foldl (fun s x => let '(l, out) := li_step (fst s) x in (l, snd s ++ out)) (li_init, []) xs.

(** The messages that the relay delivered before the channel failed. *)
Fixpoint messages (xs : list li_label) : list bytes :=
  match xs with
  | [] => []
  | Received None :: _ => []
  | Received (Some b) :: xs =>
      match Unmarshal (M := Frame) b with
      | Some (mkFrame (Some (Frame_Msg data))) => data :: messages xs
      | _ => messages xs
      end
  | _ :: xs => messages xs
  end.

End listener.

(** What connection [i] has handed to its readers and still holds. *)
Definition read_from (i : nat) (o : output) : option bytes :=
  match o with DidRead j (Ok b) => if Nat.eqb i j then Some b else None | _ => None end.

Definition history (outs : list output) (l : RelayListener) (i : nat) : list bytes :=
  omap (read_from i) outs ++ from_option rc_buf [] (li_conns l !! i).

(** ** Theorems: one connection *)

Definition rc_inv (c : RelayConn) : Prop :=
  forall dl, rc_reader c = Waiting dl -> rc_buf c <> [] -> rc_recv c = true.

Lemma rc_step_data c l c' r :
  rc_step c l = (c', r) ->
  option_list (r ≫= data_of) ++ rc_buf c' = rc_buf c ++ option_list (pushed_by l).
Proof.
  unfold rc_step, rc_poll, rc_select. intros E.
  destruct l, (rc_reader c); try (destruct b); cbn in E;
    repeat case_match; simplify_eq/=; rewrite ?app_nil_r; done || congruence.
Qed.

Lemma rc_step_inv c l c' r : rc_inv c -> rc_step c l = (c', r) -> rc_inv c'.
Proof.
  unfold rc_inv, rc_step, rc_poll, rc_select. intros Hi E dl.
  destruct l, (rc_reader c) eqn:Er; try (destruct b); cbn in E;
    repeat case_match; simplify_eq/=; intros; try congruence; naive_solver congruence.
Qed.

Lemma newRelayConn_inv done : rc_inv (newRelayConn done).
Proof. intros dl. discriminate. Qed.

Lemma rc_run_spec ls c out c' :
  rc_inv c -> rc_run ls c = (out, c') ->
  omap data_of out ++ rc_buf c' = rc_buf c ++ omap pushed_by ls /\ rc_inv c'.
Proof.
  revert c out. induction ls as [|l ls IH]; intros c out Hi E; cbn in E.
  { simplify_eq. by rewrite app_nil_r. }
  destruct (rc_step c l) as [c1 r] eqn:E1. destruct (rc_run ls c1) as [o c2] eqn:E2. simplify_eq.
  destruct (IH c1 o (rc_step_inv _ _ _ _ Hi E1) E2) as [D I]. split; [|done].
  pose proof (rc_step_data _ _ _ _ E1) as D1.
  rewrite omap_app, <-app_assoc, D.
  destruct r as [[b|e]|], (pushed_by l) eqn:Ep; cbn in *; rewrite ?Ep, ?app_nil_r in *; cbn in *;
    rewrite ?app_nil_r in *; rewrite <-?D1, <-?app_assoc; try done.
  all: rewrite ?app_comm_cons, D1, <-?app_assoc; done.
Qed.

(** Whatever the interleaving of pushes, deadlines, cancellations and reads,
    [ReadBytes] returns what was pushed, in order, and loses nothing: what it
    returned followed by what is still buffered is what was pushed.  No wake-up is
    lost either: a pending call with a message in the buffer can return the
    oldest one. *)
Theorem relay_conn_fifo done ls now :
  let '(out, c) := rc_run ls (newRelayConn done) in
  omap data_of out ++ rc_buf c = omap pushed_by ls /\
  (rc_reader c <> Idle -> forall b rest, rc_buf c = b :: rest ->
   fst (rc_run [Select now OnRecv; Poll now] c) = [Ok b]).
Proof.
  destruct (rc_run ls (newRelayConn done)) as [out c] eqn:E.
  destruct (rc_run_spec _ _ _ _ (newRelayConn_inv done) E) as [D I]. split; [done|].
  intros Hr b rest Hb. destruct (rc_reader c) as [| |dl] eqn:Er; [done|..]; cbn; rewrite Er.
  - cbn. rewrite Er. unfold rc_poll. by rewrite Hb.
  - cbn. rewrite (I dl Er) by (by rewrite Hb). cbn. unfold rc_poll. cbn. by rewrite Hb.
Qed.

(** A connection whose context is cancelled can report the end of the stream
    while it holds a message: the [select] of [ReadBytes] may take the
    cancellation although data arrived after the buffer was found empty. *)
Theorem relay_conn_eof_over_data data now :
  exists c, rc_run [ReadCall; Poll now; Push data; Cancel; Select now OnDone] (newRelayConn false)
    = ([Err (Sentinel EOF)], c) /\ rc_buf c = [data].
Proof. by eexists. Qed.

(** ** Theorems: the listener *)

Definition received (outs : list output) (l : RelayListener) : list bytes :=
  flat_map (history outs l) (seq 0 (length (li_conns l))).

(** A step that moves no message into a connection. *)
Definition silent (outs : list output) (l : RelayListener) (outs' : list output) (l' : RelayListener) : Prop :=
  length (li_conns l') = length (li_conns l) /\ (forall i, history outs' l' i = history outs l i) /\
  (li_conn l' = li_conn l \/ li_conn l' = None) /\ (li_stopped l = true -> li_stopped l' = true).

(** [ms] are the messages so far: the connections got them in the order of their
    creation, but for those that came when the listener was stopped and had no
    connection. *)
Definition li_inv (ms : list bytes) (outs : list output) (l : RelayListener) : Prop :=
  (forall j, li_conn l = Some j -> S j = length (li_conns l)) /\
  (forall i, (length (li_conns l) <= i)%nat -> history outs l i = []) /\
  exists rest, ms = received outs l ++ rest /\ (rest = [] \/ li_stopped l = true /\ li_conn l = None).

Lemma silent_refl outs l : silent outs l outs l.
Proof. by split_and!; [| |left|]. Qed.

Lemma silent_trans o1 l1 o2 l2 o3 l3 :
  silent o1 l1 o2 l2 -> silent o2 l2 o3 l3 -> silent o1 l1 o3 l3.
Proof.
  intros (A1 & A2 & A3 & A4) (B1 & B2 & B3 & B4). split_and!; [congruence| | |auto].
  - intros i. by rewrite B2.
  - destruct A3 as [A|A], B3 as [B|B]; rewrite ?B; auto.
Qed.

Lemma li_inv_silent ms o l o' l' : li_inv ms o l -> silent o l o' l' -> li_inv ms o' l'.
Proof.
  intros (I1 & I2 & rest & Em & Hr) (Q1 & Q2 & Q3 & Q4).
  assert (R : received o' l' = received o l).
  { unfold received. rewrite Q1. apply flat_map_ext. done. }
  split_and!.
  - intros j Hj. rewrite Q1. apply I1. destruct Q3; congruence.
  - intros i Hi. rewrite Q2. apply I2. by rewrite <-Q1.
  - exists rest. rewrite R. split; [done|]. destruct Hr as [?|[? E]]; [by left|right].
    split; [auto|]. destruct Q3; congruence.
Qed.

Lemma history_conns outs l cs i :
  from_option rc_buf [] (cs !! i) = from_option rc_buf [] (li_conns l !! i) ->
  history outs (set_conns cs l) i = history outs l i.
Proof. intros E. unfold history. cbn [li_conns set_conns]. by rewrite E. Qed.

Lemma buf_cancelled cs i k :
  from_option rc_buf [] (alter rc_cancel k cs !! i) = from_option rc_buf [] ((cs : list RelayConn) !! i).
Proof.
  destruct (decide (i = k)) as [->|Hne].
  - rewrite list_lookup_alter_eq. by destruct (cs !! k).
  - by rewrite list_lookup_alter_ne.
Qed.

Lemma silent_cancel outs l : silent outs l outs (li_cancel l).
Proof.
  split_and!; cbn; [by rewrite length_fmap| |by left|done].
  intros i. unfold history. cbn. rewrite list_lookup_fmap. by destruct (li_conns l !! i).
Qed.

Lemma silent_conn_Close outs l i : silent outs l outs (li_conn_Close i l).
Proof.
  set (l1 := set_conn None (set_conns (alter rc_cancel i (li_conns l)) l)).
  assert (Q : silent outs l outs l1).
  { split_and!; cbn; [by rewrite length_alter| |by right|done].
    intros j. apply history_conns, buf_cancelled. }
  unfold li_conn_Close, conn_closeFn. fold l1. cbn [li_stopped set_conn set_conns].
  destruct (li_stopped l1); [|done]. apply (silent_trans _ _ _ _ _ _ Q).
  apply (silent_cancel outs l1).
Qed.

Lemma silent_Close outs l : silent outs l outs (li_Close l).
Proof.
  unfold li_Close. set (l1 := match li_conn l with Some i => _ | None => _ end).
  assert (Q : silent outs l outs l1)
    by (unfold l1; case_match; [apply silent_conn_Close|apply silent_refl]).
  apply (silent_trans _ _ _ _ _ _ Q). apply (silent_cancel outs l1).
Qed.

Lemma silent_Stop outs l : silent outs l outs (li_Stop l).
Proof.
  unfold li_Stop. cbn [li_accept]. destruct (li_accept l) as [|i rest]; [by split_and!; [| |left|]|].
  set (l1 := set_accept _ _ _). assert (Q : silent outs l outs l1) by (by split_and!; [| |left|]).
  apply (silent_trans _ _ _ _ _ _ Q). apply silent_conn_Close.
Qed.

(** Steps that only append outputs other than reads. *)
Lemma history_other outs o l i :
  (forall x, x ∈ o -> read_from i x = None) -> history (outs ++ o) l i = history outs l i.
Proof.
  intros Ho. unfold history. rewrite omap_app.
  assert (E : omap (read_from i) o = []); [|by rewrite E, app_nil_r].
  induction o as [|x o IH]; [done|]. cbn. rewrite Ho by (by left). apply IH.
  intros y Hy. apply Ho. by right.
Qed.

Lemma silent_conn_op outs i x l l' o : conn_op i x l = (l', o) -> silent outs l (outs ++ o) l'.
Proof.
  unfold conn_op. intros E.
  assert (Q0 : silent outs l (outs ++ []) l) by (rewrite app_nil_r; apply silent_refl).
  destruct (li_conns l !! i) as [c|] eqn:Ec; [|by simplify_eq].
  destruct (caller_op x) eqn:Ex; [|by simplify_eq].
  destruct (rc_step c x) as [c' r] eqn:Es. simplify_eq.
  pose proof (rc_step_data _ _ _ _ Es) as D.
  assert (Hp : pushed_by x = None) by (by destruct x). rewrite Hp, app_nil_r in D.
  assert (Hi : (i < length (li_conns l))%nat) by (by eapply lookup_lt_Some).
  split_and!; cbn; [by rewrite length_insert| |by left|done].
  intros j. destruct (decide (j = i)) as [->|Hne].
  - unfold history. cbn [li_conns set_conns]. rewrite list_lookup_insert_eq by done. rewrite Ec. cbn.
    rewrite omap_app, <-app_assoc, <-D. f_equal.
    destruct r as [[b|e]|]; cbn; rewrite ?Nat.eqb_refl; done.
  - unfold history. cbn [li_conns set_conns]. rewrite list_lookup_insert_ne by done.
    rewrite omap_app. destruct r as [[b|e]|]; cbn; rewrite ?app_nil_r; [|done..].
    destruct (Nat.eqb_spec j i); [done|]. cbn. by rewrite ?app_nil_r.
Qed.

Lemma silent_accepts outs l l' o :
  li_Accept l = (l', o) \/ (exists d, li_accept_select d l = (l', o)) -> silent outs l (outs ++ o) l'.
Proof.
  intros E. assert (Q : li_conns l' = li_conns l /\ li_conn l' = li_conn l /\ li_stopped l' = li_stopped l /\
    forall i x, x ∈ o -> read_from i x = None).
  { destruct E as [E|[d E]]; unfold li_Accept, li_accept_select in E; repeat case_match; simplify_eq/=;
      split_and!; try done; intros i x Hx; set_solver. }
  destruct Q as (Q1 & Q2 & Q3 & Q4). split_and!; [by rewrite Q1| |by left|by rewrite Q3].
  intros i. rewrite history_other by (intros; by apply Q4). unfold history. by rewrite Q1.
Qed.

(** A message reaches the current connection, a new one, or, when the listener
    is stopped and has none, nobody. *)
Lemma li_inv_deliver ms outs l data :
  li_inv ms outs l -> li_inv (ms ++ [data]) outs (deliver data l).
Proof.
  intros (I1 & I2 & rest & Em & Hr). unfold deliver.
  destruct (li_conn l) as [j|] eqn:Ej.
  - assert (rest = []) as -> by (destruct Hr as [?|[_ ?]]; done). rewrite app_nil_r in Em.
    specialize (I1 j eq_refl). destruct (lookup_lt_is_Some_2 (li_conns l) j ltac:(lia)) as [c Ec].
    assert (Hh : forall i, i <> j -> history outs (set_conns (alter (pushData data) j (li_conns l)) l) i = history outs l i).
    { intros i Hi. apply history_conns. by rewrite list_lookup_alter_ne. }
    split_and!; cbn [li_conn li_conns set_conns]; rewrite ?length_alter.
    + rewrite Ej. intros k [= <-]. done.
    + intros i Hi. rewrite Hh by lia. by apply I2.
    + exists []. rewrite app_nil_r. split; [|by left]. unfold received in *. cbn [li_conns set_conns].
      rewrite length_alter, <-I1, seq_S in *. rewrite !flat_map_app in *. cbn [flat_map Nat.add] in *.
      rewrite app_nil_r in *. rewrite Em, <-app_assoc. f_equal.
      * rewrite !flat_map_concat_map. f_equal. apply map_ext_in. intros i Hi%in_seq. symmetry. apply Hh. lia.
      * unfold history. cbn [li_conns set_conns]. rewrite list_lookup_alter_eq, Ec. cbn. by rewrite <-app_assoc.
  - destruct (li_stopped l) eqn:Es.
    { split_and!; [congruence|done|]. exists (rest ++ [data]). rewrite Em, app_assoc. split; [done|by right]. }
    assert (rest = []) as -> by (destruct Hr as [?|[? _]]; [done|congruence]). rewrite app_nil_r in Em.
    set (n := length (li_conns l)). set (rc := pushData data _).
    set (l1 := set_conns _ (set_conn (Some n) l)).
    assert (Hl1 : length (li_conns l1) = S n) by (unfold l1; cbn; rewrite length_app; cbn; lia).
    assert (I : li_inv (ms ++ [data]) outs l1).
    { split_and!; [intros k [= <-]; done| |].
      - intros i Hi. unfold history, l1. cbn. rewrite lookup_app_r by lia.
        rewrite (lookup_ge_None_2 [rc]) by (cbn; lia). pose proof (I2 i ltac:(lia)) as Hh.
        unfold history in Hh. by destruct (app_eq_nil _ _ Hh) as [-> _].
      - exists []. rewrite app_nil_r. split; [|by left]. unfold received in *. rewrite Hl1, seq_S, flat_map_app.
        rewrite Em. f_equal.
        + rewrite !flat_map_concat_map. f_equal. apply map_ext_in. intros i Hi%in_seq. unfold history, l1. cbn.
          by rewrite lookup_app_l by lia.
        + cbn. rewrite app_nil_r. unfold history, l1. cbn. rewrite lookup_app_r, Nat.sub_diag by done. cbn.
          pose proof (I2 n ltac:(lia)) as Hh. unfold history in Hh. by destruct (app_eq_nil _ _ Hh) as [-> _]. }
    destruct (li_accept l1); (eapply li_inv_silent; [exact I|]); by split_and!; [| |auto|].
Qed.

Section listening.
Context `{ProtoRuntime}.

Lemma if_same (b : bool) {A} (x : A) : (if b then x else x) = x.
Proof. by destruct b. Qed.

(** What a step of the pump adds to the messages. *)
Definition arrives (l : RelayListener) (x : li_label) : list bytes :=
  if li_pumping l then messages [x] else [].

Lemma li_step_inv ms outs l x l' o :
  li_inv ms outs l -> li_step l x = (l', o) -> li_inv (ms ++ arrives l x) (outs ++ o) l'.
Proof.
  intros I E. unfold arrives.
  destruct x as [b|i x|i| |d| |]; cbn [li_step messages] in *;
    rewrite ?if_same, ?app_nil_r; try (eapply li_inv_silent; [exact I|]).
  2: by eapply silent_conn_op.
  2: case_match; simplify_eq; rewrite app_nil_r; [apply silent_conn_Close|apply silent_refl].
  2: by eapply silent_accepts; left.
  2: by eapply silent_accepts; right; eexists.
  2: simplify_eq; rewrite app_nil_r; apply silent_Stop.
  2: simplify_eq; rewrite app_nil_r; apply silent_Close.
  unfold pump in E. destruct (li_pumping l); cbn [negb] in E; cycle 1.
  { simplify_eq. by rewrite !app_nil_r. }
  destruct b as [b|]; cycle 1.
  { simplify_eq. rewrite !app_nil_r. eapply li_inv_silent; [exact I|]. apply (silent_cancel outs l). }
  destruct (Unmarshal b) as [[[k|]]|]; [destruct k|..]; simplify_eq; rewrite ?app_nil_r;
    try exact I; try (by apply li_inv_deliver).
  eapply li_inv_silent; [exact I|]. split_and!; [done| |by left|done].
  intros i. apply history_other. intros x ->%list_elem_of_singleton. done.
Qed.

Definition li_run_from (xs : list li_label) (s : RelayListener * list output) : RelayListener * list output :=
  foldl (fun s x => let '(l, out) := li_step (fst s) x in (l, snd s ++ out)) s xs.

Lemma deliver_flags data l :
  li_pumping (deliver data l) = li_pumping l /\ li_stopped (deliver data l) = li_stopped l.
Proof. unfold deliver. by repeat case_match. Qed.

Lemma conn_Close_flags i l :
  li_pumping (li_conn_Close i l) = li_pumping l /\ li_stopped (li_conn_Close i l) = li_stopped l.
Proof. unfold li_conn_Close, conn_closeFn. by case_match. Qed.

Definition ends (x : li_label) : bool := match x with Received None => true | _ => false end.

(** Only [Stop] stops the listener and only a read error ends the pump. *)
Lemma li_step_flags l x :
  li_pumping (fst (li_step l x)) = li_pumping l && negb (ends x) /\
  (x <> Stop -> li_stopped (fst (li_step l x)) = li_stopped l).
Proof.
  destruct x as [b|i x|i| |d| |]; cbn [li_step]; cycle 1.
  1-6: rewrite andb_true_r.
  - unfold conn_op. repeat case_match; done.
  - case_match; [|done]. cbn [fst]. destruct (conn_Close_flags i l). done.
  - unfold li_Accept. repeat case_match; done.
  - unfold li_accept_select. repeat case_match; done.
  - split; [|done]. unfold li_Stop. cbn [fst li_accept]. case_match; [done|].
    by rewrite (proj1 (conn_Close_flags _ _)).
  - unfold li_Close. case_match; [|done]. cbn. destruct (conn_Close_flags n l) as [-> ->]. done.
  - unfold pump. destruct (li_pumping l) eqn:Ep; cbn [negb]; [|by rewrite ?Ep].
    destruct b as [b|]; [|done].
    repeat case_match; cbn [fst]; rewrite ?Ep; try done.
    destruct (deliver_flags data l) as [-> ->]. by rewrite Ep.
Qed.

Lemma messages_cons x xs : ends x = false -> messages (x :: xs) = messages [x] ++ messages xs.
Proof. intros Hx. destruct x as [[b|]|?|?| |?| |]; cbn; try done. by repeat case_match. Qed.

Lemma li_run_inv xs ms outs l :
  li_inv ms outs l ->
  let s := li_run_from xs (l, outs) in
  li_inv (ms ++ (if li_pumping l then messages xs else [])) (snd s) (fst s) /\
  (Stop ∉ xs -> li_stopped (fst s) = li_stopped l).
Proof.
  revert ms outs l. induction xs as [|x xs IH]; intros ms outs l I.
  { cbn. by rewrite if_same, app_nil_r. }
  change (li_run_from (x :: xs) (l, outs))
    with (li_run_from xs (let '(l', o) := li_step l x in (l', outs ++ o))).
  destruct (li_step l x) as [l' o] eqn:E.
  pose proof (li_step_inv _ _ _ _ _ _ I E) as I'. destruct (li_step_flags l x) as [Fp Fs].
  rewrite E in Fp, Fs. cbn [fst] in Fp, Fs. unfold arrives in I'.
  destruct (IH _ _ _ I') as [J S]. split.
  - rewrite Fp, <-app_assoc in J. destruct (li_pumping l); cbn [andb] in J; [|exact J].
    destruct (ends x) eqn:Hx; cbn [negb] in J; [|by rewrite messages_cons].
    destruct x as [[b|]|?|?| |?| |]; done.
  - intros Hs. rewrite S by set_solver. apply Fs. set_solver.
Qed.

(** Every message went to a connection, but for a suffix that came after [Stop]. *)
Lemma received_messages xs :
  let '(l, outs) := li_run xs in
  received outs l `prefix_of` messages xs /\ (Stop ∉ xs -> received outs l = messages xs).
Proof.
  assert (I0 : li_inv [] [] li_init).
  { split_and!; [done|done|]. exists []. split; [done|by left]. }
  destruct (li_run_inv xs _ _ _ I0) as [(_ & _ & rest & Em & Hr) Hs].
  change (li_run_from xs (li_init, [])) with (li_run xs) in *.
  destruct (li_run xs) as [l outs]. cbn [fst snd li_pumping li_init app] in *. split; [by exists rest|].
  intros Hn. destruct Hr as [->|[Hst _]]; [by rewrite app_nil_r in Em|].
  by rewrite Hs in Hst.
Qed.

(** *** The connections that can be accepted

    [deliver] offers a new connection to [Accept]; while another one waits there it
    drops the new one, and nobody ever reads what it was given. *)

Definition accepted (outs : list output) : list nat :=
  omap (fun o => match o with DidAccept (Ok i) => Some i | _ => None end) outs.

(** Returned by [Accept], or waiting for it. *)
Definition offered (outs : list output) (l : RelayListener) : list nat := accepted outs ++ li_accept l.

Definition offered_data (outs : list output) (l : RelayListener) : list bytes :=
  flat_map (history outs l) (offered outs l).

(** The listener is neither stopped nor closed, and a connection is closed by whoever
    accepted it, once. *)
Fixpoint well_used (closed : list nat) (s : RelayListener * list output) (xs : list li_label) : bool :=
  match xs with
  | [] => true
  | x :: xs =>
      let '(l, out) := li_step (fst s) x in
      match x with
      | Stop | Close => false
      | ConnClose i =>
          bool_decide (i ∈ accepted (snd s)) && bool_decide (i ∉ closed) && well_used (i :: closed) (l, snd s ++ out) xs
      | _ => well_used closed (l, snd s ++ out) xs
      end
  end.

Lemma accepted_app o1 o2 : accepted (o1 ++ o2) = accepted o1 ++ accepted o2.
Proof. apply omap_app. Qed.

(** What a step does to the queue of [Accept]. *)
Definition keeps_queue (l : RelayListener) (o : list output) (l' : RelayListener) : Prop :=
  length (li_conns l') = length (li_conns l) /\ li_conn l' = li_conn l /\ li_stopped l' = li_stopped l /\
  accepted o ++ li_accept l' = li_accept l.

Lemma queue_conn_op i x l l' o : conn_op i x l = (l', o) -> keeps_queue l o l'.
Proof.
  unfold conn_op. intros E. destruct (li_conns l !! i) as [c|]; [|by simplify_eq]. destruct (caller_op x); [|by simplify_eq].
  destruct (rc_step c x) as [c' r]. simplify_eq. split_and!; cbn; [apply length_insert|done|done|by destruct r].
Qed.

Lemma queue_accepts l l' o :
  li_Accept l = (l', o) \/ (exists d, li_accept_select d l = (l', o)) -> keeps_queue l o l'.
Proof.
  intros E. destruct E as [E|[d E]]; unfold li_Accept, li_accept_select in E; repeat case_match; simplify_eq/=;
    split_and!; cbn; congruence.
Qed.

Lemma conn_Close_queue i l :
  length (li_conns (li_conn_Close i l)) = length (li_conns l) /\ li_accept (li_conn_Close i l) = li_accept l /\
  li_conn (li_conn_Close i l) = None.
Proof. unfold li_conn_Close, conn_closeFn. case_match; cbn; rewrite ?length_fmap, length_alter; done. Qed.

(** A message: to the current connection, to nobody, to a new one that is offered, or
    to a new one that is dropped. *)
Lemma deliver_cases data l :
  let l' := deliver data l in let n := length (li_conns l) in
  li_stopped l' = li_stopped l /\
  ((length (li_conns l') = n /\ li_conn l' = li_conn l /\ li_accept l' = li_accept l /\
    (li_conn l <> None \/ li_stopped l = true)) \/
   (length (li_conns l') = S n /\ li_conn l = None /\ li_accept l = [] /\ li_accept l' = [n] /\ li_conn l' = Some n) \/
   (length (li_conns l') = S n /\ li_conn l = None /\ li_accept l <> [] /\ li_accept l' = li_accept l /\ li_conn l' = None)).
Proof.
  cbn. split; [apply deliver_flags|]. unfold deliver. destruct (li_conn l) as [j|] eqn:Ej.
  { left. cbn. by rewrite length_alter, Ej; split_and!; [..|left]. }
  destruct (li_stopped l) eqn:Es; [left; by split_and!; [..|right]|]. right. cbn [set_conns li_accept set_conn].
  destruct (li_accept l) eqn:Ea; [left|right]; cbn; rewrite length_app, ?Ea; cbn; split_and!; done || lia.
Qed.

(** What a step of the pump does. *)
Lemma pump_cases b l l' o :
  pump b l = (l', o) -> keeps_queue l o l' \/ (exists data, l' = deliver data l /\ o = []).
Proof.
  unfold pump. intros E. repeat case_match; simplify_eq;
    first [by left; split_and! | by right; eauto | left; split_and!; cbn; by rewrite ?length_fmap].
Qed.

(** The connections are offered in the order of their creation. *)
Lemma offered_step outs l x l' o :
  offered outs l `sublist_of` seq 0 (length (li_conns l)) -> li_step l x = (l', o) ->
  offered (outs ++ o) l' `sublist_of` seq 0 (length (li_conns l')).
Proof.
  intros I E. unfold offered in *. rewrite accepted_app, <- app_assoc.
  assert (Hq : keeps_queue l o l' -> accepted outs ++ accepted o ++ li_accept l' `sublist_of` seq 0 (length (li_conns l')))
    by (intros (-> & _ & _ & ->); exact I).
  assert (Hl : length (li_conns l') = length (li_conns l) -> accepted o = [] -> li_accept l' `sublist_of` li_accept l ->
    accepted outs ++ accepted o ++ li_accept l' `sublist_of` seq 0 (length (li_conns l'))).
  { intros -> -> Hs. etrans; [by apply sublist_app|exact I]. }
  destruct x as [b|i x|i| |d| |]; cbn [li_step] in E.
  - apply pump_cases in E as [Hk|(data & -> & ->)]; [by apply Hq|]. cbn [accepted omap list_omap app].
    destruct (deliver_cases data l) as [_ [(-> & _ & -> & _)|[(-> & _ & Ea & -> & _)|(-> & _ & _ & -> & _)]]]; [done|..];
      rewrite seq_S; cbn [Nat.add].
    + rewrite Ea, app_nil_r in I. by apply sublist_app.
    + by apply sublist_inserts_r.
  - apply Hq. by eapply queue_conn_op.
  - destruct (li_conns l !! i); simplify_eq; [|by apply Hl].
    destruct (conn_Close_queue i l) as (? & Ea & _). apply Hl; [done|done|by rewrite Ea].
  - apply Hq, queue_accepts. by left.
  - apply Hq, queue_accepts. by right; exists d.
  - simplify_eq. unfold li_Stop in *. cbn [li_accept] in *. destruct (li_accept l) as [|i rest] eqn:Ea.
    + apply Hl; cbn; by rewrite ?Ea.
    + set (l1 := set_accept _ _ _) in *. destruct (conn_Close_queue i l1) as (El & Eq & _). apply Hl; [by rewrite El|done|].
      rewrite Eq. cbn. by apply sublist_cons.
  - simplify_eq. unfold li_Close in *. set (l1 := match li_conn l with Some i => _ | None => _ end) in *.
    assert (Hc : length (li_conns l1) = length (li_conns l) /\ li_accept l1 = li_accept l)
      by (unfold l1; case_match; [destruct (conn_Close_queue n l) as (? & ? & _)|]; done).
    destruct Hc as [Hc1 Hc2]. apply Hl; cbn; rewrite ?length_fmap, ?Hc1, ?Hc2; done.
Qed.

(** A listener that is well used: every connection is offered, and only the last one
    is not closed. *)
Definition used_inv (closed : list nat) (outs : list output) (l : RelayListener) : Prop :=
  let n := length (li_conns l) in
  offered outs l = seq 0 n /\ li_stopped l = false /\ (li_conn l = None -> li_accept l = []) /\
  (forall j, li_conn l = Some j -> S j = n) /\ (forall i, (i < n)%nat -> i ∉ closed -> li_conn l = Some i).

Lemma used_keeps closed outs l o l' : used_inv closed outs l -> keeps_queue l o l' -> used_inv closed (outs ++ o) l'.
Proof.
  intros (I1 & I2 & I3 & I4 & I5) (Q1 & Q2 & Q3 & Q4). unfold used_inv, offered in *.
  rewrite accepted_app, <- app_assoc, Q4, Q1, Q2, Q3. split_and!; try done.
  intros Hn. specialize (I3 Hn). rewrite <- Q4 in I3. by apply app_eq_nil in I3 as [_ ?].
Qed.

Lemma used_deliver closed outs l data : used_inv closed outs l -> used_inv closed outs (deliver data l).
Proof.
  intros (I1 & I2 & I3 & I4 & I5). unfold used_inv, offered in *.
  destruct (deliver_cases data l) as (Es & [(El & Ec & Ea & Hc)|[(El & Ec & Ea & Ea' & Ec')|(_ & Ec & Ea & _)]]).
  - by rewrite Es, El, Ec, Ea.
  - rewrite Es, El, Ea', Ec', seq_S. rewrite Ea, app_nil_r in I1. cbn [Nat.add]. split_and!; [by rewrite I1|done|done|by intros j [= <-]|].
    intros i Hi Hn. destruct (decide (i = length (li_conns l))) as [->|]; [done|]. rewrite (I5 i) in Ec by (done || lia). done.
  - by apply I3 in Ec.
Qed.

Lemma used_close closed outs l i :
  used_inv closed outs l -> i ∈ accepted outs -> i ∉ closed -> used_inv (i :: closed) outs (li_conn_Close i l).
Proof.
  intros (I1 & I2 & I3 & I4 & I5) Hi Hc. unfold used_inv, offered in *.
  destruct (conn_Close_queue i l) as (El & Ea & Ec). rewrite El, Ea, Ec, (proj2 (conn_Close_flags i l)).
  assert (Hin : i ∈ seq 0 (length (li_conns l))) by (rewrite <- I1; apply elem_of_app; by left).
  apply elem_of_seq in Hin. assert (Hcur : li_conn l = Some i) by (apply I5; [lia|done]).
  pose proof (I4 i Hcur) as Hlast. split_and!; try done.
  - intros _. destruct (li_accept l) as [|x q _] using rev_ind; [done|]. exfalso.
    rewrite app_assoc, <- Hlast, seq_S in I1. apply app_inj_tail in I1 as [Hall ->]. cbn in Hall.
    assert (Hi' : i ∈ seq 0 i) by (rewrite <- Hall; apply elem_of_app; by left). apply elem_of_seq in Hi'. lia.
  - intros j Hj Hn. apply not_elem_of_cons in Hn as [Hne Hn]. pose proof (I5 j Hj Hn). congruence.
Qed.

Lemma used_run xs closed outs l :
  used_inv closed outs l -> well_used closed (l, outs) xs = true ->
  let s := li_run_from xs (l, outs) in exists closed', used_inv closed' (snd s) (fst s).
Proof.
  revert closed outs l. induction xs as [|x xs IH]; intros closed outs l I; [intros _; by exists closed|]. cbn [well_used fst snd].
  change (li_run_from (x :: xs) (l, outs)) with (li_run_from xs (let '(l', o) := li_step l x in (l', outs ++ o))).
  destruct (li_step l x) as [l' o] eqn:E. destruct x as [b|i x|i| |d| |]; cbn [li_step] in E; try done.
  - apply IH. apply pump_cases in E as [Hk|(data & -> & ->)]; [by eapply used_keeps|]. rewrite app_nil_r. by apply used_deliver.
  - apply IH. eapply used_keeps; [done|]. by eapply queue_conn_op.
  - intros [[Hi%bool_decide_eq_true Hc%bool_decide_eq_true]%andb_true_iff Hw]%andb_true_iff. revert Hw. apply IH.
    assert (Hlt : (i < length (li_conns l))%nat).
    { destruct I as (I1 & _). assert (Hin : i ∈ seq 0 (length (li_conns l))) by (rewrite <- I1; apply elem_of_app; by left).
      apply elem_of_seq in Hin. lia. }
    destruct (lookup_lt_is_Some_2 _ _ Hlt) as [c Ec]. rewrite Ec in E. simplify_eq. rewrite app_nil_r. by apply used_close.
  - apply IH. eapply used_keeps; [done|]. apply queue_accepts. by left.
  - apply IH. eapply used_keeps; [done|]. apply queue_accepts. by right; exists d.
Qed.

Lemma offered_run xs outs l :
  offered outs l `sublist_of` seq 0 (length (li_conns l)) ->
  let s := li_run_from xs (l, outs) in offered (snd s) (fst s) `sublist_of` seq 0 (length (li_conns (fst s))).
Proof.
  revert outs l. induction xs as [|x xs IH]; intros outs l I; [done|].
  change (li_run_from (x :: xs) (l, outs)) with (li_run_from xs (let '(l', o) := li_step l x in (l', outs ++ o))).
  destruct (li_step l x) as [l' o] eqn:E. by apply IH, (offered_step outs l x).
Qed.

Lemma flat_map_sublist {A B} (f : A -> list B) k l : k `sublist_of` l -> flat_map f k `sublist_of` flat_map f l.
Proof. induction 1; cbn; [done|by apply sublist_app|by apply sublist_inserts_l]. Qed.

Lemma well_used_no_stop xs closed s : well_used closed s xs = true -> Stop ∉ xs.
Proof.
  revert closed s. induction xs as [|x xs IH]; intros closed s; [intros _; apply not_elem_of_nil|]. cbn [well_used].
  destruct (li_step (fst s) x) as [l o]. destruct x; try done; intros Hw; apply not_elem_of_cons; (split; [done|]).
  3: apply andb_true_iff in Hw as [_ Hw].
  all: by eapply IH.
Qed.


(** [RelayConn.Close] is not idempotent: its [closeFn] clears the listener's
    current connection, whichever it is.  So a second [Close] of an old connection
    [i], as the server's deferred one is after a handler that closed its transport,
    takes the connection [j] that meanwhile began its session off the listener:
    the next message starts another connection, and [j] never sees it. *)
Theorem stale_close_diverts l i j ci cj data :
  li_conn l = Some j -> i <> j -> li_conns l !! i = Some ci -> li_conns l !! j = Some cj ->
  li_stopped l = false ->
  let l' := deliver data (fst (li_step l (ConnClose i))) in
  li_conns l' !! j = Some cj /\
  exists c, li_conns l' !! length (li_conns l) = Some c /\ rc_buf c = [data].
Proof.
  intros Hj Hne Hci Hcj Hs. cbn [li_step]. rewrite Hci. cbn [fst].
  unfold li_conn_Close, conn_closeFn. cbn [li_stopped set_conn set_conns]. rewrite Hs.
  unfold deliver. cbn [li_conn set_conn set_conns li_stopped li_accept li_conns]. rewrite Hs, length_alter.
  set (cs := alter rc_cancel i (li_conns l) ++ _).
  assert (E : forall l1 l2, li_conns (match li_accept l with
      | [] => set_accept l1 l2 (set_conns cs (set_conn (Some (length (li_conns l))) (set_conn None (set_conns (alter rc_cancel i (li_conns l)) l))))
      | _ :: _ => set_conn None (set_conns cs (set_conn (Some (length (li_conns l))) (set_conn None (set_conns (alter rc_cancel i (li_conns l)) l))))
      end) = cs) by (by intros; case_match).
  rewrite E. unfold cs. pose proof (lookup_lt_Some _ _ _ Hcj).
  split.
  - rewrite lookup_app_l by (by rewrite length_alter). by rewrite list_lookup_alter_ne by done.
  - rewrite lookup_app_r by (by rewrite length_alter). rewrite length_alter, Nat.sub_diag. by eexists.
Qed.

(** [Stop] leaves the active connection alone: it still gets the session's
    messages, [Accept] refuses, and the close of that connection closes the
    exchange channel and ends the listener. *)
Theorem stop_keeps_active l j c data :
  li_conn l = Some j -> li_conns l !! j = Some c -> li_accept l = [] -> li_accepting l = false ->
  let l1 := li_Stop l in
  li_conns (deliver data l1) !! j = Some (pushData data c) /\ li_closed l1 = li_closed l /\
  snd (li_step l1 AcceptCall) = [DidAccept (Err (Sentinel ErrNetClosed))] /\
  (let l2 := fst (li_step l1 (ConnClose j)) in
   li_closed l2 = true /\ li_done l2 = true /\ deliver data l2 = l2).
Proof.
  intros Hj Hc Ha Hacc. unfold li_Stop. cbn [li_accept]. rewrite Ha. split_and!; cycle 3.
  1-3: cbn [li_step li_conns]; rewrite Hc; by cbn.
  - unfold deliver. cbn [li_conn]. rewrite Hj. cbn [set_conns li_conns].
    by rewrite list_lookup_alter_eq, Hc.
  - done.
  - cbn [li_step]. unfold li_Accept. cbn [li_accepting li_stopped]. by rewrite Hacc.
Qed.

End listening.

(** ** Witnesses *)

Section sample.
Existing Instance wire_runtime.

Definition sample_msg (b : bytes) : li_label :=
  Received (Marshal (mkFrame (Some (Frame_Msg b)))).

(** Two sessions, one after the other; the first was closed by its handler. *)
Definition sample_listener : RelayListener :=
  fst (li_run [sample_msg (str "a"); AcceptCall; AcceptSelect false; ConnClose 0; sample_msg (str "b"); AcceptCall; AcceptSelect false]).

Definition sample_relay_conn (b : bytes) (done : bool) : RelayConn :=
  mkRelayConn [b] true zero_time done Idle.


Lemma stale_close_diverts_witness :
  let l' := deliver (str "c") (fst (li_step sample_listener (ConnClose 0))) in
  li_conns l' !! 1%nat = Some (sample_relay_conn (str "b") false) /\
  exists c, li_conns l' !! 2%nat = Some c /\ rc_buf c = [str "c"].
Proof.
  apply (stale_close_diverts sample_listener 0 1 (sample_relay_conn (str "a") true) (sample_relay_conn (str "b") false) (str "c"));
    [vm_compute; reflexivity|discriminate|vm_compute; reflexivity..].
Defined.

Lemma stop_keeps_active_witness :
  let l1 := li_Stop sample_listener in
  li_conns (deliver (str "c") l1) !! 1%nat = Some (pushData (str "c") (sample_relay_conn (str "b") false)) /\
  li_closed l1 = li_closed sample_listener /\
  snd (li_step l1 AcceptCall) = [DidAccept (Err (Sentinel ErrNetClosed))] /\
  (let l2 := fst (li_step l1 (ConnClose 1)) in
   li_closed l2 = true /\ li_done l2 = true /\ deliver (str "c") l2 = l2).
Proof. apply (stop_keeps_active sample_listener 1 (sample_relay_conn (str "b") false) (str "c")); vm_compute; reflexivity. Defined.

End sample.
