(* ===== verification/BrokerCodec.v ===== *)
(** * The broker's packets and its client (pkg/relayconn/broker: codec.go, client.go)

    The broker introduces two peers that want to connect directly: a peer learns
    its public address with an ECHO, registers a token with a REGISTER, and is told
    of the other peer of the token by a NOTIFY, sealed for its ephemeral key.

    The client's calls are functions of what the socket does: the outcomes of the
    calls that prepare it and the datagram that answers. *)

From S2P Require Import Prelude GoErr Process Strconv Encoding NetIP Crypto Enigma.

(** ** The codec *)

Definition magic : bytes := str "KBRK".
Definition ver : byte := Byte.x01.
Definition opcodeEcho : byte := Byte.x01.
Definition opcodeRegister : byte := Byte.x02.
Definition opcodeNotify : byte := Byte.x03.
Definition tokenSize : nat := 16.
Definition x25519KeySize : nat := 32.
Definition ipv4Size : nat := 4.
Definition headerSize : Z := 6.
Definition notifyHeaderSize : Z := 38.
Definition registerSize : Z := 60.
Definition peerMatchedPayloadSize : Z := 55.
Definition tokenAssignedPayloadSize : Z := 21.

Inductive NotifyType := NotifyPeerMatched | NotifyTokenAssigned.

Record NotifyPayload := mkPayload {
  np_Token : bytes;
  np_OtherPeerEphPub : bytes;
  np_IP : bytes;
  np_TTLSeconds : Z;
  np_Port : Z;
  np_Type : NotifyType
}.

Definition byte_at (i : nat) (b : bytes) : byte := default Byte.x00 (b !! i).

Definition bytesHasPrefix (b prefix : bytes) : bool := bool_decide (prefix `prefix_of` b).

(** The four tests with which each [Parse] function begins. *)
Definition check_packet (size : Z) (opcode : byte) (pkt : bytes) : result unit :=
  if blen pkt <? size then Err (Sentinel ErrShortPacket)
  else if negb (bytesHasPrefix pkt magic) then Err (Sentinel ErrBadMagic)
  else if negb (bool_decide (byte_at 4 pkt = ver)) then Err (Sentinel ErrBadVersion)
  else if negb (bool_decide (byte_at 5 pkt = opcode)) then Err (Sentinel ErrBadOpcode)
  else Ok tt.

Definition ParseEchoRequest (pkt : bytes) : result unit := check_packet headerSize opcodeEcho pkt.

Definition padOrTruncate (b : bytes) (n : nat) : bytes := take n (b ++ replicate n Byte.x00).

Definition ParseRegister (pkt : bytes) : result (bytes * bytes * bytes * Z) :=
  match check_packet registerSize opcodeRegister pkt with
  | Err e => Err e
  | Ok _ => Ok (bslice 6 22 pkt, bslice 22 54 pkt, bslice 54 58 pkt, be_get (bslice 58 60 pkt))
  end.

Definition BuildRegister (token peerEphPub ip : bytes) (port : Z) : bytes :=
  magic ++ [ver; opcodeRegister] ++ padOrTruncate token tokenSize ++
  padOrTruncate peerEphPub x25519KeySize ++
  padOrTruncate (default (replicate ipv4Size Byte.x00) (To4 ip)) ipv4Size ++ be_put 2 port.

Definition buildNotify (brokerEphPub nonce sealed : bytes) : bytes :=
  magic ++ [ver; opcodeNotify] ++ brokerEphPub ++ nonce ++ sealed.

Definition buildAAD (brokerEphPub : bytes) : bytes := magic ++ [ver; opcodeNotify] ++ brokerEphPub.

Definition ParseNotify (pkt : bytes) : result (bytes * bytes * bytes) :=
  match check_packet (notifyHeaderSize + NonceSizeX) opcodeNotify pkt with
  | Err e => Err e
  | Ok _ => Ok (bslice 6 38 pkt, bslice 38 62 pkt, bdrop 62 pkt)
  end.

Definition PeerMatchedPlaintext (token otherPeerEphPub ip : bytes) (port : Z) : bytes :=
  Byte.x01 :: padOrTruncate token tokenSize ++ padOrTruncate otherPeerEphPub x25519KeySize ++
  padOrTruncate (default [] (To4 ip)) ipv4Size ++ be_put 2 port.

Definition TokenAssignedPlaintext (token : bytes) (ttlSeconds : Z) : bytes :=
  Byte.x02 :: padOrTruncate token tokenSize ++ be_put 4 ttlSeconds.

Definition ParseNotifyPayload (p : bytes) : result NotifyPayload :=
  match p with
  | [] => Err (Sentinel ErrShortPacket)
  | t :: _ =>
      if bool_decide (t = Byte.x01) then
        if blen p <? peerMatchedPayloadSize then Err (Sentinel ErrShortPacket)
        else Ok (mkPayload (bslice 1 17 p) (bslice 17 49 p) (bslice 49 53 p) 0 (be_get (bslice 53 55 p))
                   NotifyPeerMatched)
      else if bool_decide (t = Byte.x02) then
        if blen p <? tokenAssignedPayloadSize then Err (Sentinel ErrShortPacket)
        else Ok (mkPayload (bslice 1 17 p) [] [] (be_get (bslice 17 21 p)) 0 NotifyTokenAssigned)
      else Err (Sentinel ErrBadOpcode)
  end.

Section crypto.
Context `{Crypto}.

(** [None] is a panic; the nonce is random. *)
Definition SealNotify (aeadKey brokerEphPub plaintext nonce : bytes) : option (bytes * bytes) :=
  if blen aeadKey =? KeySize
  then Some (nonce, xchacha_seal aeadKey nonce plaintext (buildAAD brokerEphPub))
  else None.

Definition OpenNotify (aeadKey brokerEphPub nonce sealed : bytes) : result bytes :=
  if negb (blen aeadKey =? KeySize) then Err (errorf "aead key must be 32 bytes")
  else if negb (blen nonce =? NonceSizeX) then Err (errorf "nonce must be 24 bytes")
  else of_option (errorf "chacha20poly1305: message authentication failed")
         (xchacha_open aeadKey nonce sealed (buildAAD brokerEphPub)).

(** ** The client *)

Record Client := mkClient { cl_key : bytes; cl_pub : bytes }.

Definition NewClientWithKey (key : bytes) : Client := mkClient key (x25519_PublicKey key).

Definition openNotify (c : Client) (pkt : bytes) : result bytes :=
  match ParseNotify pkt with
  | Err e => Err (wrapf "parse notify" e)
  | Ok (brokerEphPub, nonce, sealed) =>
      match x25519_NewPublicKey brokerEphPub with
      | None => Err (wrapf "parse broker eph pub" (errorf "crypto/ecdh: invalid public key"))
      | Some brokerPub =>
          match x25519_ECDH (cl_key c) brokerPub with
          | None => Err (wrapf "ecdh" (errorf "crypto/ecdh: bad X25519 remote ECDH input"))
          | Some shared => OpenNotify (sha256_Sum shared) brokerEphPub nonce sealed
          end
      end
  end.

Definition decodeNotify (c : Client) (pkt : bytes) : result NotifyPayload :=
  match openNotify c pkt with
  | Err e => Err e
  | Ok plaintext => ParseNotifyPayload plaintext
  end.

Definition decodeAssignedToken (c : Client) (pkt : bytes) : result bytes :=
  match decodeNotify c pkt with
  | Err e => Err e
  | Ok payload =>
      match np_Type payload with
      | NotifyTokenAssigned => Ok (np_Token payload)
      | NotifyPeerMatched => Err (errorf "expected TOKEN_ASSIGNED")
      end
  end.

(** What the socket does for one call: the outcomes of dialing, of setting the
    deadline and of the write, and the datagram read, if one arrives in time. *)
Record socket := mkSocket {
  so_dial : result unit; so_deadline : result unit; so_write : result unit; so_read : result bytes
}.

(** The part of a call before its read; [k] is what follows. *)
Definition over_socket {A} (s : socket) (what : string) (k : result A) : result A :=
  match so_dial s with
  | Err e => Err (wrapf "dial broker" e)
  | Ok _ =>
      match so_deadline s with
      | Err e => Err (wrapf "set deadline" e)
      | Ok _ => match so_write s with Err e => Err (wrapf what e) | Ok _ => k end
      end
  end.

(** [Register] sends [BuildRegister token (cl_pub c) claimIP claimPort].  A
    datagram is read into a buffer of 1500 bytes; in static mode the whole buffer
    is decoded, in random mode the bytes that were read. *)
Definition Register (c : Client) (token : bytes) (s : socket) : result bytes :=
  over_socket s "write register"
    (match token with
     | _ :: _ =>
         match so_read s with
         | Ok pkt => decodeAssignedToken c (padOrTruncate pkt 1500)
         | Err _ => Ok token
         end
     | [] =>
         match so_read s with
         | Err e => Err (wrapf "read register response" e)
         | Ok pkt => decodeAssignedToken c (take 1500 pkt)
         end
     end).

End crypto.

Definition buildEchoRequest : bytes := str "KBRK" ++ [Byte.x01; Byte.x01].

Definition BuildEchoResponse (addr : udp_addr) : bytes :=
  JoinHostPort (IP_String (ua_IP addr)) (Itoa (ua_Port addr)) ++ [Byte.x00].

Definition parseEchoResponse (resp : bytes) : result (bytes * Z) :=
  let s := match index Byte.x00 resp with Some e => take e resp | None => resp end in
  match SplitHostPort s with
  | None => Err (wrapf "malformed echo response" (errorf "address"))
  | Some (host, portStr) =>
      match ParseIP host with
      | None => Err (errorf "parse ip: invalid")
      | Some ip =>
          match parse_digits portStr with
          | Some port => if port <=? MaxUint16 then Ok (ip, port)
                         else Err (wrapf "parse port" (errorf "value out of range"))
          | None => Err (wrapf "parse port" (errorf "invalid syntax"))
          end
      end
  end.

(** [Echo] sends [buildEchoRequest] and reads into a buffer of 64 bytes. *)
Definition Echo (s : socket) : result (bytes * Z) :=
  over_socket s "write echo"
    (match so_read s with
     | Err e => Err (wrapf "read echo response" e)
     | Ok pkt => parseEchoResponse (take 64 pkt)
     end).

(** ** Lemmas: the codec *)

Lemma length_pad b n : length (padOrTruncate b n) = n.
Proof. unfold padOrTruncate. rewrite length_take, length_app, length_replicate. lia. Qed.

Lemma blen_pad b n : blen (padOrTruncate b n) = Z.of_nat n.
Proof. unfold blen. by rewrite length_pad. Qed.

Lemma pad_exact b n : length b = n -> padOrTruncate b n = b.
Proof. intros <-. unfold padOrTruncate. by rewrite take_app_length. Qed.

(** A slice of a concatenation, by the lengths of its parts. *)
Lemma bslice_app lo hi a b c :
  lo = blen a -> hi = lo + blen b -> bslice lo hi (a ++ b ++ c) = b.
Proof.
  intros -> ->. unfold bslice. rewrite bdrop_app_exact by done. apply btake_app_exact. lia.
Qed.

Lemma bslice_app2 lo hi a a' b c :
  lo = blen a + blen a' -> hi = lo + blen b -> bslice lo hi (a ++ a' ++ b ++ c) = b.
Proof. intros Hl Hh. rewrite app_assoc. apply bslice_app; [by rewrite blen_app|done]. Qed.

Lemma bslice_app3 lo hi a a' a'' b c :
  lo = blen a + blen a' + blen a'' -> hi = lo + blen b -> bslice lo hi (a ++ a' ++ a'' ++ b ++ c) = b.
Proof. intros Hl Hh. rewrite app_assoc. apply bslice_app2; [by rewrite blen_app|done]. Qed.

(** A number at the end. *)
Lemma bslice_end lo hi a z n :
  lo = blen a -> hi = lo + Z.of_nat n -> 0 <= z < 256 ^ Z.of_nat n ->
  be_get (bslice lo hi (a ++ be_put n z)) = z.
Proof.
  intros Hl Hh Hz. rewrite <-(app_nil_r (be_put n z)).
  rewrite bslice_app; [by apply be_get_put_small|done|by rewrite blen_be_put].
Qed.

Lemma check_packet_ok size op body :
  size <= 6 + blen body -> check_packet size op (magic ++ [ver; op] ++ body) = Ok tt.
Proof.
  intros Hs. unfold check_packet.
  assert (Hl : blen (magic ++ [ver; op] ++ body) = 6 + blen body) by (rewrite !blen_app; change (blen magic) with 4; change (blen [ver; op]) with 2; lia).
  rewrite Hl. destruct (Z.ltb_spec (6 + blen body) size); [lia|].
  unfold bytesHasPrefix. rewrite bool_decide_eq_true_2 by (by eexists). cbn [negb].
  by rewrite !bool_decide_eq_true_2.
Qed.

Lemma ParseRegister_Build token pub ip ip4 port :
  blen pub = 32 -> To4 ip = Some ip4 -> 0 <= port <= MaxUint16 ->
  ParseRegister (BuildRegister token pub ip port) = Ok (padOrTruncate token tokenSize, pub, ip4, port).
Proof.
  intros Hp Hi Hport. unfold ParseRegister, BuildRegister. rewrite Hi. cbn [default from_option].
  pose proof (To4_len _ _ Hi) as H4.
  rewrite (pad_exact pub), (pad_exact ip4) by (unfold blen, x25519KeySize, ipv4Size in *; lia).
  set (tk := padOrTruncate token tokenSize).
  assert (Ht : blen tk = 16) by apply blen_pad.
  rewrite check_packet_ok; cycle 1.
  { rewrite !blen_app, Ht, Hp, H4, blen_be_put. unfold registerSize. lia. }
  set (h := magic ++ [ver; opcodeRegister]).
  change (magic ++ [ver; opcodeRegister] ++ tk ++ pub ++ ip4 ++ be_put 2 port)
    with (h ++ tk ++ pub ++ ip4 ++ be_put 2 port).
  assert (Hh : blen h = 6) by done. do 2 f_equal; [do 2 f_equal|].
  - apply bslice_app; lia.
  - apply bslice_app2; lia.
  - apply bslice_app3; lia.
  - rewrite !app_assoc. apply bslice_end; [rewrite !blen_app; lia|lia|unfold MaxUint16 in Hport; lia].
Qed.

Lemma ParseNotifyPayload_matched token pub ip ip4 port :
  blen token = 16 -> blen pub = 32 -> To4 ip = Some ip4 -> 0 <= port <= MaxUint16 ->
  ParseNotifyPayload (PeerMatchedPlaintext token pub ip port)
  = Ok (mkPayload token pub ip4 0 port NotifyPeerMatched).
Proof.
  intros Ht Hp Hi Hport. unfold ParseNotifyPayload, PeerMatchedPlaintext. rewrite Hi.
  change (default [] (Some ip4)) with ip4.
  pose proof (To4_len _ _ Hi) as H4.
  rewrite !pad_exact by (unfold blen, x25519KeySize, ipv4Size, tokenSize in *; lia).
  rewrite bool_decide_eq_true_2 by done.
  set (p := Byte.x01 :: _).
  assert (Hl : blen p = 55) by (unfold p; rewrite blen_cons, !blen_app, Ht, Hp, H4, blen_be_put; lia).
  rewrite Hl. change (55 <? peerMatchedPayloadSize) with false. cbv iota.
  change p with ([Byte.x01] ++ token ++ pub ++ ip4 ++ be_put 2 port). do 2 f_equal.
  - apply bslice_app; [done|lia].
  - apply bslice_app2; [by rewrite Ht|lia].
  - apply bslice_app3; [by rewrite Ht, Hp|lia].
  - rewrite !app_assoc.
    apply bslice_end; [by rewrite !blen_app, Ht, Hp, H4|lia|unfold MaxUint16 in Hport; lia].
Qed.

Lemma ParseNotifyPayload_assigned token ttl :
  blen token = 16 -> 0 <= ttl < 2 ^ 32 ->
  ParseNotifyPayload (TokenAssignedPlaintext token ttl) = Ok (mkPayload token [] [] ttl 0 NotifyTokenAssigned).
Proof.
  intros Ht Hr. unfold ParseNotifyPayload, TokenAssignedPlaintext.
  rewrite pad_exact by (unfold blen, tokenSize in *; lia).
  rewrite bool_decide_eq_false_2 by done. rewrite bool_decide_eq_true_2 by done.
  set (p := Byte.x02 :: _).
  assert (Hl : blen p = 21) by (unfold p; rewrite blen_cons, !blen_app, Ht, blen_be_put; lia).
  rewrite Hl. change (21 <? tokenAssignedPayloadSize) with false. cbv iota.
  change p with ([Byte.x02] ++ token ++ be_put 4 ttl). do 2 f_equal.
  - apply bslice_app; [done|lia].
  - rewrite app_assoc. apply bslice_end; [by rewrite blen_app, Ht|lia|done].
Qed.

Lemma ParseNotify_build pub nonce sealed :
  blen pub = 32 -> blen nonce = NonceSizeX -> ParseNotify (buildNotify pub nonce sealed) = Ok (pub, nonce, sealed).
Proof.
  unfold NonceSizeX. intros Hp Hn. unfold ParseNotify, buildNotify. pose proof (blen_nonneg sealed).
  rewrite check_packet_ok; cycle 1.
  { rewrite !blen_app, Hp, Hn. unfold notifyHeaderSize, NonceSizeX. lia. }
  set (h := magic ++ [ver; opcodeNotify]).
  change (magic ++ [ver; opcodeNotify] ++ pub ++ nonce ++ sealed) with (h ++ pub ++ nonce ++ sealed).
  assert (Hh : blen h = 6) by done. do 2 f_equal; [f_equal|].
  - apply bslice_app; lia.
  - apply bslice_app2; lia.
  - rewrite !app_assoc. apply bdrop_app_exact. rewrite !blen_app. lia.
Qed.

(** What the broker says of an IPv4 address is what the client reads. *)
Lemma parseEchoResponse_Build addr ip4 :
  To4 (ua_IP addr) = Some ip4 -> 0 <= ua_Port addr <= MaxUint16 ->
  parseEchoResponse (take 64 (BuildEchoResponse addr)) = Ok (v4prefix ++ ip4, ua_Port addr).
Proof.
  intros Hi Hp. unfold BuildEchoResponse, IP_String. rewrite Hi.
  pose proof (To4_len _ _ Hi) as H4.
  set (host := dotted ip4). set (port := Itoa (ua_Port addr)).
  assert (Nh : forall x, is_digit x = false -> x <> dot -> x ∉ host) by (intros; by apply dotted_no).
  assert (Np : forall x, is_digit x = false -> x ∉ port) by (intros; apply Itoa_no; [lia|done]).
  assert (Hj : JoinHostPort host port = host ++ colon :: port)
    by (unfold JoinHostPort; by rewrite has_not by (by apply Nh)).
  assert (Hpl : (length port <= 20)%nat).
  { unfold port, Itoa. destruct (Z.ltb_spec (ua_Port addr) 0); [lia|].
    pose proof (length_itoa_digits 20 (ua_Port addr) []) as Hl. cbn [length] in Hl. lia. }
  rewrite take_ge; cycle 1.
  { rewrite Hj, !length_app. cbn [length].
    assert (length host <= 15)%nat by (by apply length_dotted). lia. }
  unfold parseEchoResponse. rewrite index_app; cycle 1.
  { rewrite Hj. apply not_elem_of_app. split; [by apply Nh|]. apply not_elem_of_cons. split; [done|by apply Np]. }
  rewrite take_app_length, SplitHostPort_Join by (try apply Nh; try apply Np; done).
  unfold ParseIP. destruct (dotted_has_dot ip4 H4) as [i Hd]. fold host in Hd. rewrite Hd.
  rewrite index_none by (by apply Nh). unfold host. rewrite parseIPv4_dotted by done.
  assert (E : parse_digits port = Some (ua_Port addr)).
  { unfold port, Itoa. destruct (Z.ltb_spec (ua_Port addr) 0); [lia|]. apply parse_digits_itoa.
    unfold MaxUint16 in Hp. lia. }
  rewrite E. destruct (Z.leb_spec (ua_Port addr) MaxUint16); [done|lia].
Qed.

(** ** Lemmas: sealed packets *)

Section sealed.
Context `{Crypto} `{!CryptoOk _}.

(** A key that a party generated. *)
Definition generated (k : bytes) : Prop := exists seed, x25519_GenerateKey seed = Some k.

Lemma openNotify_sealed k bk nonce plaintext :
  generated k -> generated bk -> blen nonce = NonceSizeX ->
  exists shared sealed,
    x25519_ECDH bk (x25519_PublicKey k) = Some shared /\
    SealNotify (sha256_Sum shared) (x25519_PublicKey bk) plaintext nonce = Some (nonce, sealed) /\
    blen sealed = blen plaintext + TagSize /\
    openNotify (NewClientWithKey k) (buildNotify (x25519_PublicKey bk) nonce sealed) = Ok plaintext.
Proof.
  intros [s Hk] [s' Hbk] Hn. destruct (x25519_ecdh_ok s' s bk k Hbk Hk) as [shared Hs].
  exists shared. unfold SealNotify. rewrite sha256_len. change (32 =? KeySize) with true. cbv iota.
  eexists. split; [done|]. split; [done|]. split; [apply seal_len; [apply sha256_len|done]|].
  unfold openNotify. rewrite ParseNotify_build by (try apply x25519_pub_len; done).
  rewrite x25519_pub_ok. cbn [cl_key NewClientWithKey]. rewrite x25519_commutes, Hs.
  unfold OpenNotify. rewrite sha256_len, Hn. cbn [negb Z.eqb]. rewrite open_seal by (try apply sha256_len; done).
  done.
Qed.

End sealed.
