(* ===== verification/Broker.v ===== *)
(** * The broker service (cmd/relay/internal/broker/broker.go)

    One goroutine reads datagrams and keeps a registry of tokens: a REGISTER with
    an unknown token is held, one with the token of another peer is a match, of
    which both peers are told.  A read that times out evicts what has expired.

    [Packet] is a datagram with its source and what the handler observes: the
    answer of the rate limiter, the clock, and the random bytes of a token and of
    two keys and nonces. *)

From S2P Require Import Prelude GoErr Process Strconv Crypto Enigma NetIP BrokerCodec.

Record registration := mkReg { rg_addr : udp_addr; rg_peerEphPub : bytes; rg_expires : Z }.

Record Broker := mkBroker { registry : gmap bytes registration; br_ttl : Z }.

(** The state of [New]. *)
Definition NewBroker (ttl : Z) : Broker := mkBroker ∅ (if ttl <=? 0 then 60 * Second else ttl).

Definition set_registry (m : gmap bytes registration) (b : Broker) : Broker := mkBroker m (br_ttl b).

Record observed := mkObserved {
  ob_allow : bool;
  ob_now : Z;
  ob_token : bytes;
  ob_first : bytes * bytes;     (* seed of the key and nonce of the first NOTIFY *)
  ob_second : bytes * bytes
}.

Inductive broker_label :=
  | Packet (pkt : bytes) (src : udp_addr) (o : observed)
  | ReadTimeout (now : Z).

(** A datagram sent, and to whom. *)
Notation datagram := (udp_addr * bytes)%type.

Definition isZeroBytes (b : bytes) : bool := forallb (fun x => bool_decide (x = Byte.x00)) b.

Definition validIPv4 (ip : bytes) : bool :=
  match To4 ip with Some ip4 => negb (isZeroBytes ip4) | None => false end.

Definition ipv4FromAddr (addr : udp_addr) : option udp_addr :=
  (fun ip => mkAddr ip (ua_Port addr)) <$> To4 (ua_IP addr).

Definition hexKey (token : bytes) : bytes := hex token.

(** [now.After(r.expires)]. *)
Definition evict (now : Z) (b : Broker) : Broker :=
  set_registry (filter (fun kv => rg_expires (snd kv) <? now = false) (registry b)) b.

(** [uint32(d.Seconds())], exact below [2 ^ 22] seconds. *)
Definition ttl_seconds (d : Z) : Z := u32 (d / Second).

Section broker.
Context `{Crypto}.

(** The key of [SealNotify] is a SHA-256 sum, so it does not panic. *)
Definition sendNotify (plaintext peerEphPub : bytes) (dst : udp_addr) (r : bytes * bytes) : list datagram :=
  match x25519_GenerateKey (fst r) with
  | None => []
  | Some key =>
      let brokerECDH := mkECDH key (x25519_PublicKey key) in
      match ECDH_Exchange brokerECDH peerEphPub with
      | Err _ => []
      | Ok shared =>
          match SealNotify (sha256_Sum shared) (ecdh_public brokerECDH) plaintext (snd r) with
          | None => []
          | Some (nonce, sealed) => [(dst, buildNotify (ecdh_public brokerECDH) nonce sealed)]
          end
      end
  end.

Definition handleEcho (src : udp_addr) (o : observed) : list datagram :=
  if ob_allow o then [(src, BuildEchoResponse src)] else [].

Definition handleRandomRegister (peerEphPub : bytes) (src : udp_addr) (o : observed) (b : Broker)
  : Broker * list datagram :=
  let r := mkReg src peerEphPub (ob_now o + br_ttl b) in
  (set_registry (<[hexKey (ob_token o) := r]> (registry b)) b,
   sendNotify (TokenAssignedPlaintext (ob_token o) (ttl_seconds (br_ttl b))) peerEphPub src (ob_first o)).

Definition sendPeerMatched (token : bytes) (held : registration) (newPub : bytes) (newAddr : udp_addr)
    (newIP : bytes) (newPort : Z) (o : observed) : list datagram :=
  match ipv4FromAddr (rg_addr held) with
  | None => []
  | Some heldIP =>
      sendNotify (PeerMatchedPlaintext token (rg_peerEphPub held) (ua_IP heldIP) (u16 (ua_Port (rg_addr held))))
        newPub newAddr (ob_first o) ++
      sendNotify (PeerMatchedPlaintext token newPub newIP newPort) (rg_peerEphPub held) (rg_addr held)
        (ob_second o)
  end.

Definition handleStaticRegister (token peerEphPub : bytes) (src : udp_addr) (ip : bytes) (port : Z)
    (o : observed) (b : Broker) : Broker * list datagram :=
  match registry b !! hexKey token with
  | Some held =>
      if bool_decide (rg_peerEphPub held = peerEphPub) then
        let held' := mkReg (rg_addr held) (rg_peerEphPub held) (ob_now o + br_ttl b) in
        (set_registry (<[hexKey token := held']> (registry b)) b, [])
      else
        (set_registry (delete (hexKey token) (registry b)) b,
         sendPeerMatched token held peerEphPub src ip port o)
  | None =>
      let r := mkReg src peerEphPub (ob_now o + br_ttl b) in
      (set_registry (<[hexKey token := r]> (registry b)) b, [])
  end.

Definition handleRegister (pkt : bytes) (src : udp_addr) (o : observed) (b : Broker) : Broker * list datagram :=
  if negb (ob_allow o) then (b, [])
  else match ParseRegister pkt with
  | Err _ => (b, [])
  | Ok (token, peerEphPub, ip, port) =>
      if negb (validIPv4 ip) || (port =? 0) then (b, [])
      else if isZeroBytes peerEphPub then (b, [])
      else match ipv4FromAddr src with
      | None => (b, [])
      | Some src4 =>
          if isZeroBytes token then handleRandomRegister peerEphPub src4 o b
          else handleStaticRegister token peerEphPub src4 ip port o b
      end
  end.

Definition dispatch (pkt : bytes) (src : udp_addr) (o : observed) (b : Broker) : Broker * list datagram :=
  if blen pkt <? 6 then (b, [])
  else if negb (bytesHasPrefix pkt magic) then (b, [])
  else if negb (bool_decide (byte_at 4 pkt = Byte.x01)) then (b, [])
  else if bool_decide (byte_at 5 pkt = Byte.x01) then (b, handleEcho src o)
  else if bool_decide (byte_at 5 pkt = Byte.x02) then handleRegister pkt src o b
  else (b, []).

(** One turn of the loop of [Run]; a datagram is read into 1500 bytes. *)
Definition broker_step (b : Broker) (l : broker_label) : Broker * list datagram :=
  match l with
  | Packet pkt src o => dispatch (take 1500 pkt) src o b
  | ReadTimeout now => (evict now b, [])
  end.

Fixpoint broker_run (ls : list broker_label) (b : Broker) : Broker * list datagram :=
  match ls with
  | [] => (b, [])
  | l :: ls =>
      let '(b1, o1) := broker_step b l in
      let '(b2, o2) := broker_run ls b1 in (b2, o1 ++ o2)
  end.

(** ** Lemmas *)

Context `{!CryptoOk _}.

Lemma check_dispatch op body src o b :
  dispatch (magic ++ [ver; op] ++ body) src o b =
    if bool_decide (op = Byte.x01) then (b, handleEcho src o)
    else if bool_decide (op = Byte.x02) then handleRegister (magic ++ [ver; op] ++ body) src o b
    else (b, []).
Proof.
  unfold dispatch.
  assert (Hl : blen (magic ++ [ver; op] ++ body) = 6 + blen body)
    by (rewrite !blen_app; change (blen magic) with 4; change (blen [ver; op]) with 2; lia).
  rewrite Hl. pose proof (blen_nonneg body). destruct (Z.ltb_spec (6 + blen body) 6); [lia|].
  unfold bytesHasPrefix. rewrite bool_decide_eq_true_2 by (by eexists).
  change (byte_at 4 (magic ++ [ver; op] ++ body)) with ver.
  change (byte_at 5 (magic ++ [ver; op] ++ body)) with op.
  by rewrite (bool_decide_eq_true_2 (ver = Byte.x01)).
Qed.

(** What a well-formed registration is. *)
Definition claim (ip ip4 : bytes) (port : Z) : Prop :=
  To4 ip = Some ip4 /\ isZeroBytes ip4 = false /\ 0 < port <= MaxUint16.

Definition source (src : udp_addr) (src4 : udp_addr) : Prop :=
  ipv4FromAddr src = Some src4 /\ 0 <= ua_Port src <= MaxUint16.

Lemma handleRegister_built token pub ip ip4 port src src4 o b :
  blen pub = 32 -> isZeroBytes pub = false -> claim ip ip4 port -> source src src4 -> ob_allow o = true ->
  let tk := padOrTruncate token tokenSize in
  broker_step b (Packet (BuildRegister token pub ip port) src o) =
    if isZeroBytes tk then handleRandomRegister pub src4 o b
    else handleStaticRegister tk pub src4 ip4 port o b.
Proof.
  intros Hl Hz (Hi & Hnz & Hp) (Hs & _) Ha. cbn [broker_step].
  assert (Hlen : (length (BuildRegister token pub ip port) <= 1500)%nat).
  { unfold BuildRegister. rewrite !length_app, !length_pad, length_be_put. unfold tokenSize, x25519KeySize, ipv4Size.
    change (length magic) with 4%nat. cbn [length]. lia. }
  rewrite take_ge by done. unfold BuildRegister at 1. rewrite check_dispatch.
  rewrite bool_decide_eq_false_2, bool_decide_eq_true_2 by done.
  fold (BuildRegister token pub ip port). unfold handleRegister. rewrite Ha. cbn [negb].
  rewrite (ParseRegister_Build token pub ip ip4 port) by (try done; lia).
  unfold validIPv4. rewrite (To4_To4 _ _ Hi), Hnz. cbn [negb orb].
  destruct (Z.eqb_spec port 0); [lia|]. by rewrite Hz, Hs.
Qed.

Lemma sendNotify_opens k plaintext dst seed nonce bk :
  generated k -> x25519_GenerateKey seed = Some bk -> blen nonce = NonceSizeX ->
  exists pkt, sendNotify plaintext (x25519_PublicKey k) dst (seed, nonce) = [(dst, pkt)] /\
    openNotify (NewClientWithKey k) pkt = Ok plaintext /\ (length pkt <= 78 + length plaintext)%nat.
Proof.
  intros Hk Hbk Hn. unfold sendNotify. cbn [fst snd]. rewrite Hbk.
  destruct (openNotify_sealed k bk nonce plaintext Hk ltac:(by exists seed) Hn) as (sh & sealed & E & S & L & O).
  unfold ECDH_Exchange. rewrite x25519_pub_ok. cbn [ecdh_private ecdh_public]. rewrite E.
  cbn [of_option map_err]. rewrite S. eexists. split; [done|]. split; [done|].
  unfold buildNotify. rewrite !length_app. pose proof (x25519_pub_len bk) as Hb. unfold blen, NonceSizeX, TagSize in *.
  change (length magic) with 4%nat. cbn [length]. lia.
Qed.

(** The randomness of a NOTIFY makes a key and has the length of a nonce. *)
Definition fresh (r : bytes * bytes) : Prop :=
  (exists bk, x25519_GenerateKey (fst r) = Some bk) /\ blen (snd r) = NonceSizeX.

(** A peer: its key is generated and its public key is not zero. *)
Definition peer (k : bytes) : Prop := generated k /\ isZeroBytes (x25519_PublicKey k) = false.

Definition static_token (token : bytes) : Prop := blen token = 16 /\ isZeroBytes token = false.

Lemma pad_static token : static_token token -> padOrTruncate token tokenSize = token.
Proof. intros [Hl _]. apply pad_exact. unfold blen, tokenSize in *. lia. Qed.

(** A REGISTER with the token of another peer: both are told, and the token is
    free again. *)
Lemma match_step b token kA kB held ip ip4 port src src4 o :
  peer kA -> peer kB -> x25519_PublicKey kA <> x25519_PublicKey kB -> static_token token ->
  registry b !! hexKey token = Some held -> rg_peerEphPub held = x25519_PublicKey kA ->
  source (rg_addr held) (rg_addr held) ->
  claim ip ip4 port -> source src src4 -> ob_allow o = true -> fresh (ob_first o) -> fresh (ob_second o) ->
  exists b' pA pB,
    broker_step b (Packet (BuildRegister token (x25519_PublicKey kB) ip port) src o)
      = (b', [(src4, pB); (rg_addr held, pA)]) /\
    decodeNotify (NewClientWithKey kB) pB = Ok (mkPayload token (x25519_PublicKey kA)
        (ua_IP (rg_addr held)) 0 (ua_Port (rg_addr held)) NotifyPeerMatched) /\
    decodeNotify (NewClientWithKey kA) pA
      = Ok (mkPayload token (x25519_PublicKey kB) ip4 0 port NotifyPeerMatched) /\
    registry b' = delete (hexKey token) (registry b) /\ br_ttl b' = br_ttl b /\ (length pB <= 200)%nat /\ (length pA <= 200)%nat.
Proof.
  intros [GA _] [GB ZB] Hne Ht Hheld Hpub [Hs Hsp] Hc Hsrc Ha [[b1 F1] N1] [[b2 F2] N2].
  rewrite (handleRegister_built token _ ip ip4 port src src4 o b) by (try done; apply x25519_pub_len).
  rewrite (pad_static token Ht). rewrite (proj2 Ht). unfold handleStaticRegister. rewrite Hheld, Hpub.
  rewrite bool_decide_eq_false_2 by done. unfold sendPeerMatched. rewrite Hs, Hpub.
  destruct (ob_first o) as [s1 n1] eqn:E1, (ob_second o) as [s2 n2] eqn:E2. cbn [fst snd] in *.
  destruct Hc as (Hip & Hnz & Hport). assert (H4 : To4 (ua_IP (rg_addr held)) = Some (ua_IP (rg_addr held))).
  { unfold ipv4FromAddr in Hs. destruct (To4 (ua_IP (rg_addr held))) as [x|] eqn:Ex; [|done].
    cbn in Hs. injection Hs as Hs. rewrite <-Hs. cbn. done. }
  unfold MaxUint16 in *. assert (Hu : u16 (ua_Port (rg_addr held)) = ua_Port (rg_addr held)) by (apply Z.mod_small; lia). rewrite Hu.
  set (plB := PeerMatchedPlaintext token (x25519_PublicKey kA) _ _).
  set (plA := PeerMatchedPlaintext token (x25519_PublicKey kB) _ _).
  destruct (sendNotify_opens kB plB src4 s1 n1 b1 GB F1 N1) as (pB & SB & OB & LB).
  destruct (sendNotify_opens kA plA (rg_addr held) s2 n2 b2 GA F2 N2) as (pA & SA & OA & LA).
  eexists _, pA, pB. split; [by rewrite SB, SA|].
  unfold decodeNotify. rewrite OB, OA. destruct Ht as [Hl _].
  split; [by apply ParseNotifyPayload_matched; [|apply x25519_pub_len| |]|].
  split; [apply ParseNotifyPayload_matched; [done|apply x25519_pub_len|by eapply To4_To4|unfold MaxUint16; lia]|].
  unfold plA, plB, PeerMatchedPlaintext in LA, LB. cbn [length] in LA, LB.
  rewrite !length_app, !length_pad, length_be_put in LA, LB. unfold tokenSize, x25519KeySize, ipv4Size in LA, LB.
  split_and!; [done|done|lia|lia].
Qed.

(** Traffic that leaves a registration alone: it is about other tokens, and no
    eviction comes after the registration expires. *)
Definition spares (token : bytes) (expires : Z) (l : broker_label) : Prop :=
  match l with
  | Packet pkt _ o =>
      ob_token o <> token /\
      forall t pub ip port, ParseRegister (take 1500 pkt) = Ok (t, pub, ip, port) -> t <> token
  | ReadTimeout now => now <= expires
  end.

Lemma hexKey_ne t t' : t <> t' -> hexKey t <> hexKey t'.
Proof. intros Hne E. apply Hne. by apply hex_inj. Qed.

Lemma step_spares b token r l :
  registry b !! hexKey token = Some r -> spares token (rg_expires r) l ->
  registry (fst (broker_step b l)) !! hexKey token = Some r.
Proof.
  intros Hr Hs. destruct l as [pkt src o|now]; cbn [broker_step]; cycle 1.
  { unfold evict. cbn [fst registry set_registry]. apply map_lookup_filter_Some. split; [done|].
    cbn [spares] in Hs. cbn. apply Z.ltb_ge. lia. }
  destruct Hs as [Ho Hp]. unfold dispatch. repeat (case_match; [done..|]).
  destruct (bool_decide (byte_at 5 _ = Byte.x02)); [|done].
  unfold handleRegister. destruct (negb (ob_allow o)); [done|].
  destruct (ParseRegister (take 1500 pkt)) as [[[[t pub] ip] port]|e] eqn:E; [|done].
  specialize (Hp t pub ip port eq_refl).
  repeat (case_match; [done..|]). destruct (ipv4FromAddr src) as [src4|]; [|done].
  destruct (isZeroBytes t).
  - cbn. rewrite lookup_insert_ne; [done|]. by apply hexKey_ne.
  - unfold handleStaticRegister. repeat case_match; cbn.
    + rewrite lookup_insert_ne; [done|]. by apply hexKey_ne.
    + rewrite lookup_delete_ne; [done|]. by apply hexKey_ne.
    + rewrite lookup_insert_ne; [done|]. by apply hexKey_ne.
Qed.

Lemma run_spares ls b token r :
  registry b !! hexKey token = Some r -> Forall (spares token (rg_expires r)) ls ->
  registry (fst (broker_run ls b)) !! hexKey token = Some r.
Proof.
  revert b. induction ls as [|l ls IH]; intros b Hr Hs; [done|]. apply Forall_cons in Hs as [H1 H2].
  cbn [broker_run]. pose proof (step_spares b token r l Hr H1) as Hr1.
  destruct (broker_step b l) as [b1 o1]. specialize (IH b1 Hr1 H2). by destruct (broker_run ls b1) as [b2 o2].
Qed.

Lemma ipv4FromAddr_idem src src4 : source src src4 -> source src4 src4.
Proof.
  unfold source, ipv4FromAddr. intros [Hs Hp]. destruct (To4 (ua_IP src)) as [ip|] eqn:E; [|done].
  cbn in Hs. injection Hs as <-. cbn. by rewrite (To4_To4 _ _ E).
Qed.

(** ** Theorems *)

(** Two peers that register the same token are introduced to each other,
    whatever traffic about other tokens lies between: the first is told nothing
    until the second comes; then each gets one NOTIFY that it can open, the second
    with the key and the observed address of the first, the first with the key and
    the claimed address of the second, and the token is free again. *)
Lemma rendezvous b token kA kB ipA ipA4 portA srcA srcA4 oA mid ipB ipB4 portB srcB srcB4 oB :
  peer kA -> peer kB -> x25519_PublicKey kA <> x25519_PublicKey kB -> static_token token ->
  registry b !! hexKey token = None ->
  claim ipA ipA4 portA -> source srcA srcA4 -> ob_allow oA = true ->
  Forall (spares token (ob_now oA + br_ttl b)) mid ->
  claim ipB ipB4 portB -> source srcB srcB4 -> ob_allow oB = true -> fresh (ob_first oB) -> fresh (ob_second oB) ->
  let pubA := x25519_PublicKey kA in let pubB := x25519_PublicKey kB in
  exists b1 b3 pA pB,
    broker_step b (Packet (BuildRegister token pubA ipA portA) srcA oA) = (b1, []) /\
    broker_step (fst (broker_run mid b1)) (Packet (BuildRegister token pubB ipB portB) srcB oB)
      = (b3, [(srcB4, pB); (srcA4, pA)]) /\
    decodeNotify (NewClientWithKey kB) pB
      = Ok (mkPayload token pubA (ua_IP srcA4) 0 (ua_Port srcA4) NotifyPeerMatched) /\
    decodeNotify (NewClientWithKey kA) pA = Ok (mkPayload token pubB ipB4 0 portB NotifyPeerMatched) /\
    registry b3 !! hexKey token = None /\ (length pB <= 200)%nat /\ (length pA <= 200)%nat.
Proof.
  intros PA PB Hne Ht Hfree CA SA AA Hmid CB SB AB F1 F2 pubA pubB.
  set (r := mkReg srcA4 pubA (ob_now oA + br_ttl b)).
  set (b1 := set_registry (<[hexKey token := r]> (registry b)) b).
  assert (E1 : broker_step b (Packet (BuildRegister token pubA ipA portA) srcA oA) = (b1, [])).
  { rewrite (handleRegister_built token pubA ipA ipA4 portA srcA srcA4)
      by (try done; try apply x25519_pub_len; apply PA).
    rewrite pad_static by done. rewrite (proj2 Ht). unfold handleStaticRegister. by rewrite Hfree. }
  assert (Hr : registry (fst (broker_run mid b1)) !! hexKey token = Some r).
  { apply run_spares; [|done]. unfold b1. cbn. by rewrite lookup_insert_eq. }
  destruct (match_step _ token kA kB r ipB ipB4 portB srcB srcB4 oB PA PB Hne Ht Hr eq_refl)
    as (b3 & pA & pB & E3 & DB & DA & R3 & _ & LB & LA); try done.
  { by eapply ipv4FromAddr_idem. }
  exists b1, b3, pA, pB. split_and!; try done. rewrite R3. apply lookup_delete_eq.
Qed.

(** Where a registration comes from: a REGISTER with its key, from its address,
    for its token or, if that was zero, with the token assigned to it. *)
Definition registered_by (k : bytes) (r : registration) (l : broker_label) : Prop :=
  exists pkt src o token ip port,
    l = Packet pkt src o /\ ParseRegister (take 1500 pkt) = Ok (token, rg_peerEphPub r, ip, port) /\
    ipv4FromAddr src = Some (rg_addr r) /\
    k = hexKey (if isZeroBytes token then ob_token o else token).

Lemma step_provenance b l k r :
  registry (fst (broker_step b l)) !! k = Some r ->
  registered_by k r l \/
  exists r', registry b !! k = Some r' /\ rg_addr r' = rg_addr r /\ rg_peerEphPub r' = rg_peerEphPub r.
Proof.
  assert (Hold : registry b !! k = Some r -> exists r', registry b !! k = Some r' /\ rg_addr r' = rg_addr r /\
    rg_peerEphPub r' = rg_peerEphPub r) by eauto.
  destruct l as [pkt src o|now]; cbn [broker_step]; cycle 1.
  { unfold evict. cbn. intros [Hk _]%map_lookup_filter_Some. auto. }
  unfold dispatch. repeat (case_match; [by auto..|]).
  destruct (bool_decide (byte_at 5 _ = Byte.x02)); [|by auto].
  unfold handleRegister. destruct (negb (ob_allow o)); [by auto|].
  destruct (ParseRegister (take 1500 pkt)) as [[[[t pub] ip] port]|e] eqn:E; [|by auto].
  repeat (case_match; [by auto..|]). destruct (ipv4FromAddr src) as [src4|] eqn:Es; [|by auto].
  assert (Hnew : forall exp, registered_by (hexKey (if isZeroBytes t then ob_token o else t)) (mkReg src4 pub exp)
    (Packet pkt src o)) by (intros exp; by exists pkt, src, o, t, ip, port).
  destruct (isZeroBytes t).
  - cbn. intros [[<- <-]|[_ Hk]]%lookup_insert_Some; auto.
  - unfold handleStaticRegister. destruct (registry b !! hexKey t) as [held|] eqn:Eh; [destruct (bool_decide (rg_peerEphPub held = pub))|]; cbn.
    + intros [[<- <-]|[_ Hk]]%lookup_insert_Some; [|by auto]. right. by exists held.
    + intros [_ Hk]%lookup_delete_Some. auto.
    + intros [[<- <-]|[_ Hk]]%lookup_insert_Some; auto.
Qed.

(** The broker never introduces a peer that did not ask for it: after any
    sequence of datagrams and evictions every registration, and with it every peer
    that a match is made with, comes from a REGISTER for that token, with that
    key, from that address. *)
Theorem registry_provenance ttl ls k r :
  registry (fst (broker_run ls (NewBroker ttl))) !! k = Some r ->
  exists l, l ∈ ls /\ registered_by k r l.
Proof.
  assert (Hg : forall b, registry (fst (broker_run ls b)) !! k = Some r ->
    (exists l, l ∈ ls /\ registered_by k r l) \/
    exists r', registry b !! k = Some r' /\ rg_addr r' = rg_addr r /\ rg_peerEphPub r' = rg_peerEphPub r).
  { induction ls as [|l ls IH]; intros b Hr; [right; by exists r|]. cbn [broker_run] in Hr.
    destruct (broker_step b l) as [b1 o1] eqn:E1. destruct (broker_run ls b1) as [b2 o2] eqn:E2.
    destruct (IH b1) as [(l' & Hl & Hr')|(r' & Hk & Ha & Hp)]; [by rewrite E2|left; exists l'; split; [by right|done]|].
    destruct (step_provenance b l k r') as [(pkt & src & o & t & ip & port & H1 & H2 & H3 & H4)|(r2 & ? & ? & ?)].
    - by rewrite E1.
    - left. exists l. split; [by left|]. exists pkt, src, o, t, ip, port. rewrite <-Ha, <-Hp. done.
    - right. exists r2. split_and!; congruence. }
  intros Hr. destruct (Hg _ Hr) as [?|(r' & Hk & _)]; [done|]. unfold NewBroker in Hk. cbn in Hk.
  by rewrite lookup_empty in Hk.
Qed.

(** A peer without a token is assigned one, which its [Register] returns, and
    under which another peer finds it. *)
Theorem random_rendezvous b kA kB ipA ipA4 portA srcA srcA4 oA mid ipB ipB4 portB srcB srcB4 oB :
  peer kA -> peer kB -> x25519_PublicKey kA <> x25519_PublicKey kB -> static_token (ob_token oA) ->
  claim ipA ipA4 portA -> source srcA srcA4 -> ob_allow oA = true -> fresh (ob_first oA) ->
  Forall (spares (ob_token oA) (ob_now oA + br_ttl b)) mid ->
  claim ipB ipB4 portB -> source srcB srcB4 -> ob_allow oB = true -> fresh (ob_first oB) -> fresh (ob_second oB) ->
  let pubA := x25519_PublicKey kA in let pubB := x25519_PublicKey kB in
  exists b1 p b3 pA pB,
    broker_step b (Packet (BuildRegister [] pubA ipA portA) srcA oA) = (b1, [(srcA4, p)]) /\
    Register (NewClientWithKey kA) [] (mkSocket (Ok tt) (Ok tt) (Ok tt) (Ok p)) = Ok (ob_token oA) /\
    broker_step (fst (broker_run mid b1)) (Packet (BuildRegister (ob_token oA) pubB ipB portB) srcB oB)
      = (b3, [(srcB4, pB); (srcA4, pA)]) /\
    decodeNotify (NewClientWithKey kB) pB
      = Ok (mkPayload (ob_token oA) pubA (ua_IP srcA4) 0 (ua_Port srcA4) NotifyPeerMatched) /\
    decodeNotify (NewClientWithKey kA) pA = Ok (mkPayload (ob_token oA) pubB ipB4 0 portB NotifyPeerMatched).
Proof.
  intros PA PB Hne Ht CA SA AA FA Hmid CB SB AB F1 F2 pubA pubB.
  set (token := ob_token oA) in *. set (r := mkReg srcA4 pubA (ob_now oA + br_ttl b)).
  set (b1 := set_registry (<[hexKey token := r]> (registry b)) b).
  destruct FA as [[bk Hbk] Hn]. destruct (ob_first oA) as [seed nonce] eqn:Ef. cbn [fst snd] in *.
  set (pl := TokenAssignedPlaintext token (ttl_seconds (br_ttl b))).
  destruct (sendNotify_opens kA pl srcA4 seed nonce bk (proj1 PA) Hbk Hn) as (p & Sp & Op & Lp).
  assert (E1 : broker_step b (Packet (BuildRegister [] pubA ipA portA) srcA oA) = (b1, [(srcA4, p)])).
  { rewrite (handleRegister_built [] pubA ipA ipA4 portA srcA srcA4)
      by (try done; try apply x25519_pub_len; apply PA).
    change (isZeroBytes (padOrTruncate [] tokenSize)) with true. cbv iota.
    unfold handleRandomRegister. rewrite Ef. fold token pl. unfold pubA at 2. by rewrite Sp. }
  assert (Hr : registry (fst (broker_run mid b1)) !! hexKey token = Some r).
  { apply run_spares; [|done]. unfold b1. cbn. by rewrite lookup_insert_eq. }
  destruct (match_step _ token kA kB r ipB ipB4 portB srcB srcB4 oB PA PB Hne Ht Hr eq_refl)
    as (b3 & pA & pB & E3 & DB & DA & _ & _ & _); try done.
  { by eapply ipv4FromAddr_idem. }
  exists b1, p, b3, pA, pB. split_and!; try done.
  unfold Register, over_socket. cbn [so_dial so_deadline so_write so_read].
  rewrite take_ge; cycle 1.
  { unfold pl, TokenAssignedPlaintext in Lp. cbn [length] in Lp. rewrite length_app, length_pad, length_be_put in Lp.
    unfold tokenSize in Lp. lia. }
  unfold decodeAssignedToken, decodeNotify. rewrite Op. unfold pl.
  rewrite ParseNotifyPayload_assigned; [done|apply Ht|]. unfold ttl_seconds, u32. apply Z.mod_pos_bound. lia.
Qed.

(** A peer that registers again keeps its registration alive but not its address:
    after a change of its address the NOTIFY of a match goes to the old one. *)
Theorem refresh_keeps_old_address b token kA kB held ipA ipA4 portA srcA srcA4 oA ipB ipB4 portB srcB srcB4 oB :
  peer kA -> peer kB -> x25519_PublicKey kA <> x25519_PublicKey kB -> static_token token ->
  registry b !! hexKey token = Some held -> rg_peerEphPub held = x25519_PublicKey kA ->
  source (rg_addr held) (rg_addr held) -> srcA4 <> rg_addr held ->
  claim ipA ipA4 portA -> source srcA srcA4 -> ob_allow oA = true ->
  claim ipB ipB4 portB -> source srcB srcB4 -> ob_allow oB = true -> fresh (ob_first oB) -> fresh (ob_second oB) ->
  exists b1 b2 pA pB,
    broker_step b (Packet (BuildRegister token (x25519_PublicKey kA) ipA portA) srcA oA) = (b1, []) /\
    broker_step b1 (Packet (BuildRegister token (x25519_PublicKey kB) ipB portB) srcB oB)
      = (b2, [(srcB4, pB); (rg_addr held, pA)]) /\
    decodeNotify (NewClientWithKey kB) pB = Ok (mkPayload token (x25519_PublicKey kA)
        (ua_IP (rg_addr held)) 0 (ua_Port (rg_addr held)) NotifyPeerMatched).
Proof.
  intros PA PB Hne Ht Hh Hpub Hsh _ CA SA AA CB SB AB F1 F2.
  set (r := mkReg (rg_addr held) (rg_peerEphPub held) (ob_now oA + br_ttl b)).
  set (b1 := set_registry (<[hexKey token := r]> (registry b)) b).
  assert (E1 : broker_step b (Packet (BuildRegister token (x25519_PublicKey kA) ipA portA) srcA oA) = (b1, [])).
  { rewrite (handleRegister_built token _ ipA ipA4 portA srcA srcA4)
      by (try done; try apply x25519_pub_len; apply PA).
    rewrite pad_static by done. rewrite (proj2 Ht). unfold handleStaticRegister. rewrite Hh.
    by rewrite bool_decide_eq_true_2. }
  assert (Hr : registry b1 !! hexKey token = Some r) by apply lookup_insert_eq.
  destruct (match_step b1 token kA kB r ipB ipB4 portB srcB srcB4 oB PA PB Hne Ht Hr Hpub)
    as (b2 & pA & pB & E2 & DB & _); try done.
  by exists b1, b2, pA, pB.
Qed.

(** The second peer of a token is told of the match in the answer to its
    REGISTER, where [Register] expects at most an assigned token: the call fails.
    The hypothesis says that the cipher does not accept the packet with the rest of
    the buffer appended, unless as the same plaintext. *)
Theorem Register_matched_fails b token kA kB held ip ip4 port src src4 o :
  peer kA -> peer kB -> x25519_PublicKey kA <> x25519_PublicKey kB -> static_token token ->
  registry b !! hexKey token = Some held -> rg_peerEphPub held = x25519_PublicKey kA ->
  source (rg_addr held) (rg_addr held) ->
  claim ip ip4 port -> source src src4 -> ob_allow o = true -> fresh (ob_first o) -> fresh (ob_second o) ->
  exists b' pB out,
    broker_step b (Packet (BuildRegister token (x25519_PublicKey kB) ip port) src o) = (b', (src4, pB) :: out) /\
    ((forall p, openNotify (NewClientWithKey kB) (padOrTruncate pB 1500) = Ok p ->
        openNotify (NewClientWithKey kB) pB = Ok p) ->
     exists e, Register (NewClientWithKey kB) token (mkSocket (Ok tt) (Ok tt) (Ok tt) (Ok pB)) = Err e).
Proof.
  intros PA PB Hne Ht Hh Hpub Hsh C S A F1 F2.
  destruct (match_step b token kA kB held ip ip4 port src src4 o PA PB Hne Ht Hh Hpub)
    as (b' & pA & pB & E & DB & _); try done.
  exists b', pB, [(rg_addr held, pA)]. split; [done|]. intros Hint.
  unfold Register, over_socket. cbn [so_dial so_deadline so_write so_read].
  destruct token as [|x token]; [by destruct Ht|]. unfold decodeAssignedToken, decodeNotify in *.
  destruct (openNotify _ (padOrTruncate pB 1500)) as [p|e] eqn:Eo; [|by eexists].
  rewrite (Hint p eq_refl) in DB. rewrite DB. by eexists.
Qed.

(** A client learns the address from which the broker saw its ECHO. *)
Theorem echo_address b src ip4 o :
  To4 (ua_IP src) = Some ip4 -> 0 <= ua_Port src <= MaxUint16 -> ob_allow o = true ->
  exists resp, broker_step b (Packet buildEchoRequest src o) = (b, [(src, resp)]) /\
    Echo (mkSocket (Ok tt) (Ok tt) (Ok tt) (Ok resp)) = Ok (v4prefix ++ ip4, ua_Port src).
Proof.
  intros Hi Hp Ha. exists (BuildEchoResponse src). split.
  - cbn [broker_step]. change (take 1500 buildEchoRequest) with (magic ++ [ver; opcodeEcho] ++ []).
    rewrite check_dispatch, bool_decide_eq_true_2 by done. unfold handleEcho. by rewrite Ha.
  - unfold Echo, over_socket. cbn [so_dial so_deadline so_write so_read].
    by apply parseEchoResponse_Build.
Qed.

End broker.

(** ** Witnesses *)

Section sample.
Existing Instance toy_crypto.

Definition key_A : bytes := be_put 32 5.
Definition key_B : bytes := be_put 32 9.
Definition addr (n port : Z) : udp_addr := mkAddr (be_put 4 n) port.
Definition sample_ob (now : Z) : observed :=
  mkObserved true now (be_put 16 77) (be_put 32 (2 ^ 250), be_put 24 1) (be_put 32 12, be_put 24 2).
Definition sample_token : bytes := be_put 16 3.
Definition sample_broker : Broker := NewBroker 0.
Definition held_A : registration := mkReg (addr 167772161 4000) (x25519_PublicKey key_A) (60 * Second).
Definition holding : Broker := mkBroker {[ hexKey sample_token := held_A ]} (60 * Second).

Lemma peer_A : peer key_A.
Proof. split; [by exists key_A|vm_compute; reflexivity]. Qed.
Lemma peer_B : peer key_B.
Proof. split; [by exists key_B|vm_compute; reflexivity]. Qed.
Lemma keys_differ : x25519_PublicKey key_A <> x25519_PublicKey key_B.
Proof. vm_compute. discriminate. Qed.
Lemma token_static n : isZeroBytes (be_put 16 n) = false -> static_token (be_put 16 n).
Proof. intros Hz. split; [apply blen_be_put|done]. Qed.
Lemma addr_claim n port : isZeroBytes (be_put 4 n) = false -> 0 < port <= MaxUint16 -> claim (be_put 4 n) (be_put 4 n) port.
Proof. intros Hz Hp. unfold claim, To4. by rewrite blen_be_put. Qed.
Lemma addr_source n port : 0 <= port <= MaxUint16 -> source (addr n port) (addr n port).
Proof. intros Hp. unfold source, ipv4FromAddr, To4. cbn [ua_IP addr]. by rewrite blen_be_put. Qed.
Lemma ob_fresh t : fresh (ob_first (sample_ob t)) /\ fresh (ob_second (sample_ob t)).
Proof. split; (split; [by eexists|reflexivity]). Qed.

End sample.

(** The side conditions of the samples. *)
Ltac sample_side :=
  lazymatch goal with
  | |- peer key_A => exact peer_A
  | |- peer key_B => exact peer_B
  | |- x25519_PublicKey _ <> x25519_PublicKey _ => exact keys_differ
  | |- static_token _ => apply token_static; reflexivity
  | |- claim _ _ _ => apply addr_claim; [reflexivity|vm_compute; split; [reflexivity|discriminate]]
  | |- source _ _ => apply addr_source; vm_compute; split; discriminate
  | |- ob_allow _ = true => reflexivity
  | |- fresh (ob_first (sample_ob ?t)) => exact (proj1 (ob_fresh t))
  | |- fresh (ob_second (sample_ob ?t)) => exact (proj2 (ob_fresh t))
  | |- rg_peerEphPub held_A = _ => reflexivity
  end.

Section sample.
Existing Instance toy_crypto.

Lemma random_rendezvous_witness :
  let reg t k n port := BuildRegister t (x25519_PublicKey k) (be_put 4 n) port in
  exists b1 p b3 pA pB,
    broker_step sample_broker (Packet (reg [] key_A 7 70) (addr 6 60) (sample_ob 0)) = (b1, [(addr 6 60, p)]) /\
    Register (NewClientWithKey key_A) [] (mkSocket (Ok tt) (Ok tt) (Ok tt) (Ok p)) = Ok (be_put 16 77) /\
    broker_step (fst (broker_run [] b1)) (Packet (reg (be_put 16 77) key_B 9 90) (addr 8 80) (sample_ob 5))
      = (b3, [(addr 8 80, pB); (addr 6 60, pA)]) /\
    decodeNotify (NewClientWithKey key_B) pB
      = Ok (mkPayload (be_put 16 77) (x25519_PublicKey key_A) (be_put 4 6) 0 60 NotifyPeerMatched) /\
    decodeNotify (NewClientWithKey key_A) pA
      = Ok (mkPayload (be_put 16 77) (x25519_PublicKey key_B) (be_put 4 9) 0 90 NotifyPeerMatched).
Proof.
  intros reg.
  apply (random_rendezvous sample_broker key_A key_B (be_put 4 7) (be_put 4 7) 70 (addr 6 60) (addr 6 60)
           (sample_ob 0) [] (be_put 4 9) (be_put 4 9) 90 (addr 8 80) (addr 8 80) (sample_ob 5)); try sample_side.
  constructor.
Defined.

Lemma refresh_keeps_old_address_witness :
  let reg k n port := BuildRegister sample_token (x25519_PublicKey k) (be_put 4 n) port in
  exists b1 b2 pA pB,
    broker_step holding (Packet (reg key_A 7 70) (addr 6 60) (sample_ob 0)) = (b1, []) /\
    broker_step b1 (Packet (reg key_B 9 90) (addr 8 80) (sample_ob 5))
      = (b2, [(addr 8 80, pB); (addr 167772161 4000, pA)]) /\
    decodeNotify (NewClientWithKey key_B) pB
      = Ok (mkPayload sample_token (x25519_PublicKey key_A) (be_put 4 167772161) 0 4000 NotifyPeerMatched).
Proof.
  intros reg.
  apply (refresh_keeps_old_address holding sample_token key_A key_B held_A (be_put 4 7) (be_put 4 7) 70
           (addr 6 60) (addr 6 60) (sample_ob 0) (be_put 4 9) (be_put 4 9) 90 (addr 8 80) (addr 8 80) (sample_ob 5)); try sample_side.
  - apply lookup_singleton_eq.
  - vm_compute. discriminate.
Defined.

Lemma Register_matched_fails_witness :
  exists b' pB out,
    broker_step holding (Packet (BuildRegister sample_token (x25519_PublicKey key_B) (be_put 4 9) 90) (addr 8 80)
      (sample_ob 5)) = (b', (addr 8 80, pB) :: out) /\
    exists e, Register (NewClientWithKey key_B) sample_token (mkSocket (Ok tt) (Ok tt) (Ok tt) (Ok pB)) = Err e.
Proof.
  destruct (Register_matched_fails holding sample_token key_A key_B held_A (be_put 4 9) (be_put 4 9) 90
              (addr 8 80) (addr 8 80) (sample_ob 5)) as (b' & pB & out & E & R); try sample_side.
  - apply lookup_singleton_eq.
  - exists b', pB, out. split; [exact E|]. apply R.
    assert (Hp : pB = snd (hd (addr 8 80, []) (snd (b', (addr 8 80, pB) :: out)))) by reflexivity.
    rewrite <- E in Hp. vm_compute in Hp. rewrite Hp. intros p Ho. vm_compute in Ho. discriminate Ho.
Defined.

Lemma registry_provenance_witness :
  exists l, l ∈ [Packet (BuildRegister sample_token (x25519_PublicKey key_A) (be_put 4 7) 70) (addr 6 60) (sample_ob 0)] /\
    registered_by (hexKey sample_token) (mkReg (addr 6 60) (x25519_PublicKey key_A) (60 * Second)) l.
Proof. apply (registry_provenance 0). vm_compute. reflexivity. Defined.

Lemma echo_address_witness :
  exists resp, broker_step sample_broker (Packet buildEchoRequest (addr 167772161 4000) (sample_ob 0))
      = (sample_broker, [(addr 167772161 4000, resp)]) /\
    Echo (mkSocket (Ok tt) (Ok tt) (Ok tt) (Ok resp)) = Ok (v4prefix ++ be_put 4 167772161, 4000).
Proof.
  apply (echo_address sample_broker (addr 167772161 4000) (be_put 4 167772161) (sample_ob 0));
    [reflexivity|vm_compute; split; discriminate|reflexivity].
Defined.

End sample.
