(* ===== verification/RateLimit.v ===== *)
(** * The relay's rate limiter (cmd/relay/internal/ratelimit/ratelimit.go)

    A sliding window: for every key the times of the calls that were allowed in
    the last window are kept in an LRU cache with expiry, which is third-party code
    (github.com/hashicorp/golang-lru) and here the class [LRU].  Its laws say that
    [Get] returns nothing but what was last added; that it may return nothing, since
    entries expire and are evicted, is left open. *)

From Stdlib Require Import Sorting.Sorted.
From S2P Require Import Prelude GoErr.

Class LRU (L : Type) := {
  lru_Get : bytes -> Z -> L -> option (list Z) * L;          (* key, time *)
  lru_Add : bytes -> list Z -> Z -> L -> L                   (* key, value, time *)
}.

Class LRUOk (L : Type) `{LRU L} := {
  lru_last : L -> bytes -> option (list Z);                  (* the value last added *)
  get_last k now l v : fst (lru_Get k now l) = Some v -> lru_last l k = Some v;
  get_keeps k now l k' : lru_last (snd (lru_Get k now l)) k' = lru_last l k';
  add_last k v now l k' :
    lru_last (lru_Add k v now l) k' = if bool_decide (k' = k) then Some v else lru_last l k'
}.

Section limiter.
Context {L : Type} `{LRU L}.

Record RateLimiter := mkLimiter { rl_lru : L; rl_quota : Z; rl_window : Z }.

(** The loop that skips the times that are not after the cut-off. *)
Fixpoint prune (cutoff : Z) (stamps : list Z) : list Z :=
  match stamps with
  | s :: r => if s <=? cutoff then prune cutoff r else stamps
  | [] => []
  end.

(** For a quota that is negative, or too large for a slice,
    [make([]time.Time, 0, rl.quota)] panics in the code. *)
Definition Allow (key : bytes) (now : Z) (rl : RateLimiter) : bool * RateLimiter :=
  let '(got, lru) := lru_Get key now (rl_lru rl) in
  let stamps := prune (now - rl_window rl) (default [] got) in
  if rl_quota rl <=? Z.of_nat (length stamps) then (false, mkLimiter lru (rl_quota rl) (rl_window rl))
  else (true, mkLimiter (lru_Add key (stamps ++ [now]) now lru) (rl_quota rl) (rl_window rl)).

(** A sequence of calls: those that were allowed, and the limiter afterwards. *)
Fixpoint limit_run (calls : list (bytes * Z)) (rl : RateLimiter) : list (bytes * Z) * RateLimiter :=
  match calls with
  | [] => ([], rl)
  | (k, now) :: calls =>
      let '(ok, rl1) := Allow k now rl in
      let '(a, rl2) := limit_run calls rl1 in
      ((if ok : bool then [(k, now)] else []) ++ a, rl2)
  end.

Definition times (k : bytes) (calls : list (bytes * Z)) : list Z :=
  map snd (filter (fun c => fst c = k) calls).

Definition in_window (w t : Z) (l : list Z) : list Z := filter (fun s => t - w < s <= t) l.

Context `{!LRUOk L}.

(** The cache forgets a key only when what it held is older than the window: it
    is within its capacity, and its expiry is not shorter than the window. *)
Fixpoint retains (k : bytes) (calls : list (bytes * Z)) (rl : RateLimiter) : Prop :=
  match calls with
  | [] => True
  | (k', now) :: calls =>
      (k' = k -> fst (lru_Get k now (rl_lru rl)) = None ->
       forall v, lru_last (rl_lru rl) k = Some v -> Forall (fun s => s <= now - rl_window rl) v) /\
      retains k calls (snd (Allow k' now rl))
  end.

(** ** Lemmas *)

Lemma prune_split c l :
  StronglySorted Z.le l ->
  exists old, l = old ++ prune c l /\ Forall (fun s => s <= c) old /\ Forall (fun s => c < s) (prune c l).
Proof.
  induction 1 as [|s l Hs IH Hle]; cbn [prune]; [by exists []|].
  destruct (Z.leb_spec s c) as [Hc|Hc].
  - destruct IH as (old & E & Ho & Hn). exists (s :: old). cbn. rewrite <-E. auto.
  - exists []. split_and!; [done|done|]. constructor; [done|]. eapply Forall_impl; [exact Hle|]. cbn. lia.
Qed.

(** [A] are the times at which the key was allowed, the last one [last]. *)
Definition limit_inv (k : bytes) (A : list Z) (last : Z) (rl : RateLimiter) : Prop :=
  StronglySorted Z.le A /\ Forall (fun s => s <= last) A /\
  (forall t, Z.of_nat (length (in_window (rl_window rl) t A)) <= Z.max 0 (rl_quota rl)) /\
  match lru_last (rl_lru rl) k with
  | None => A = []
  | Some v => exists old, A = old ++ v /\ Forall (fun s => s <= last - rl_window rl) old
  end.

Lemma sorted_snoc l x : StronglySorted Z.le l -> Forall (fun s => s <= x) l -> StronglySorted Z.le (l ++ [x]).
Proof.
  induction 1 as [|s l Hs IH Hle]; intros Hf; cbn; [repeat constructor|].
  apply Forall_cons in Hf as [H1 H2]. constructor; [auto|]. apply Forall_app. split; [done|]. by constructor.
Qed.

Lemma sorted_app_r l l' : StronglySorted Z.le (l ++ l') -> StronglySorted Z.le l'.
Proof. induction l as [|x l IH]; cbn; [done|]. intros Hs. inversion Hs; auto. Qed.

(** A window that reaches past the last time counts only the recent ones. *)
Lemma window_after w old new now t :
  Forall (fun s => s <= now - w) old -> now <= t -> (length (in_window w t (old ++ new)) <= length new)%nat.
Proof.
  intros Ho Ht. unfold in_window. rewrite filter_app, length_app.
  assert (E : filter (fun s => t - w < s <= t) old = []).
  { induction Ho as [|s o Hso _ IH]; [done|]. by rewrite filter_cons_False by lia. }
  rewrite E. cbn [length Nat.add]. apply length_filter.
Qed.

Lemma window_before w t A now : t < now -> in_window w t (A ++ [now]) = in_window w t A.
Proof.
  intros Ht. unfold in_window. rewrite filter_app, filter_cons_False by lia.
  by rewrite filter_nil, app_nil_r.
Qed.

(** What the limiter looks at is the recent part of the times it allowed. *)
Lemma stamps_recent k A last now rl :
  limit_inv k A last rl -> last <= now ->
  (fst (lru_Get k now (rl_lru rl)) = None ->
   forall v, lru_last (rl_lru rl) k = Some v -> Forall (fun s => s <= now - rl_window rl) v) ->
  exists old, A = old ++ prune (now - rl_window rl) (default [] (fst (lru_Get k now (rl_lru rl)))) /\
    Forall (fun s => s <= now - rl_window rl) old.
Proof.
  intros (Hs & Hl & _ & Hk) Hn Hmiss.
  assert (Hold : forall o, Forall (fun s => s <= last - rl_window rl) o -> Forall (fun s => s <= now - rl_window rl) o).
  { intros o Ho. eapply Forall_impl; [exact Ho|]. cbn. lia. }
  destruct (fst (lru_Get k now (rl_lru rl))) as [v|] eqn:Eg; cbn [default from_option].
  - pose proof (get_last _ _ _ _ Eg) as Hlast. rewrite Hlast in Hk. destruct Hk as (old & -> & Ho).
    destruct (prune_split (now - rl_window rl) v) as (d & E & Hd & _); [by eapply sorted_app_r|].
    exists (old ++ d). split; [rewrite <-app_assoc; f_equal; exact E|]. apply Forall_app. auto.
  - exists A. change (prune _ (default [] None)) with (@nil Z). rewrite app_nil_r. split; [done|].
    destruct (lru_last (rl_lru rl) k) as [v|]; [|by subst A].
    destruct Hk as (old & -> & Ho). apply Forall_app. split; [auto|]. by apply (Hmiss eq_refl).
Qed.

Lemma Allow_same k A last now rl :
  limit_inv k A last rl -> last <= now ->
  (fst (lru_Get k now (rl_lru rl)) = None ->
   forall v, lru_last (rl_lru rl) k = Some v -> Forall (fun s => s <= now - rl_window rl) v) ->
  let '(ok, rl') := Allow k now rl in limit_inv k (A ++ (if ok : bool then [now] else [])) now rl'.
Proof.
  intros I Hn Hmiss. destruct (stamps_recent k A last now rl I Hn Hmiss) as (old & EA & Ho).
  destruct I as (Hs & Hl & Hw & Hk). unfold Allow.
  destruct (lru_Get k now (rl_lru rl)) as [got lru] eqn:Eg. cbn [fst] in *.
  set (st := prune _ _) in *. assert (Hln : Forall (fun s => s <= now) A).
  { eapply Forall_impl; [exact Hl|]. cbn. lia. }
  assert (Hlru : forall k', lru_last lru k' = lru_last (rl_lru rl) k').
  { intros k'. pose proof (get_keeps k now (rl_lru rl) k') as Hg. by rewrite Eg in Hg. }
  destruct (Z.leb_spec (rl_quota rl) (Z.of_nat (length st))) as [Hq|Hq].
  - rewrite app_nil_r. split_and!; try done. cbn [rl_lru]. rewrite Hlru.
    destruct (lru_last (rl_lru rl) k) as [v|]; [|done]. destruct Hk as (o & E & Hf). exists o. split; [done|].
    eapply Forall_impl; [exact Hf|]. cbn. lia.
  - split_and!; cbn [rl_lru rl_quota rl_window].
    + by apply sorted_snoc.
    + apply Forall_app. split; [done|]. by repeat constructor.
    + intros t. destruct (Z.lt_ge_cases t now) as [Ht|Ht]; [by rewrite window_before|].
      rewrite EA, <-app_assoc. pose proof (window_after (rl_window rl) old (st ++ [now]) now t Ho Ht) as Hle.
      rewrite length_app in Hle. cbn [length] in Hle. lia.
    + rewrite add_last, bool_decide_eq_true_2 by done. exists old. by rewrite EA, <-app_assoc.
Qed.

Lemma Allow_other k k' A last now rl :
  limit_inv k A last rl -> last <= now -> k' <> k -> limit_inv k A now (snd (Allow k' now rl)).
Proof.
  intros (Hs & Hl & Hw & Hk) Hn Hne. unfold Allow.
  destruct (lru_Get k' now (rl_lru rl)) as [got lru] eqn:Eg.
  assert (Hlru : lru_last lru k = lru_last (rl_lru rl) k).
  { pose proof (get_keeps k' now (rl_lru rl) k) as Hg. by rewrite Eg in Hg. }
  assert (Hk' : match lru_last (rl_lru rl) k with None => A = []
    | Some v => exists old, A = old ++ v /\ Forall (fun s => s <= now - rl_window rl) old end).
  { destruct (lru_last (rl_lru rl) k); [|done]. destruct Hk as (o & E & Hf). exists o. split; [done|].
    eapply Forall_impl; [exact Hf|]. cbn. lia. }
  destruct (rl_quota rl <=? _); cbn [snd]; split_and!; cbn [rl_lru rl_quota rl_window]; try done.
  all: try (eapply Forall_impl; [exact Hl|]; cbn; lia).
  - by rewrite Hlru.
  - rewrite add_last, bool_decide_eq_false_2 by done. by rewrite Hlru.
Qed.

Lemma limit_run_inv k calls A last rl :
  limit_inv k A last rl -> StronglySorted Z.le (last :: map snd calls) -> retains k calls rl ->
  exists last', limit_inv k (A ++ times k (fst (limit_run calls rl))) last' (snd (limit_run calls rl)).
Proof.
  revert A last rl. induction calls as [|[k' now] calls IH]; intros A last rl I Hs Hr.
  { exists last. cbn. by rewrite app_nil_r. }
  cbn [map snd] in Hs. apply StronglySorted_inv in Hs as [Hs Hf]. apply Forall_cons in Hf as [Hn _].
  destruct Hr as [Hmiss Hr]. cbn [limit_run]. destruct (Allow k' now rl) as [ok rl1] eqn:Ea. cbn [snd] in Hr.
  destruct (decide (k' = k)) as [->|Hne].
  - pose proof (Allow_same k A last now rl I Hn (Hmiss eq_refl)) as I1. rewrite Ea in I1.
    destruct (IH _ _ _ I1 Hs Hr) as [last' I2]. exists last'. revert I2.
    destruct (limit_run calls rl1) as [a rl2]. intros I2. cbn [fst snd] in *. unfold times in *. rewrite filter_app, map_app, app_assoc.
    destruct ok; [by rewrite filter_cons_True|]. exact I2.
  - pose proof (Allow_other k k' A last now rl I Hn Hne) as I1. rewrite Ea in I1. cbn [snd] in I1.
    destruct (IH _ _ _ I1 Hs Hr) as [last' I2]. exists last'. revert I2.
    destruct (limit_run calls rl1) as [a rl2]. intros I2. cbn [fst snd] in *. unfold times in *. rewrite filter_app, map_app.
    destruct ok; [rewrite filter_cons_False by done|]; rewrite filter_nil; cbn [map app]; exact I2.
Qed.

Lemma quota_bound k t0 calls rl t :
  lru_last (rl_lru rl) k = None -> StronglySorted Z.le (t0 :: map snd calls) -> retains k calls rl ->
  Z.of_nat (length (in_window (rl_window rl) t (times k (fst (limit_run calls rl))))) <= Z.max 0 (rl_quota rl).
Proof.
  intros H0 Hs Hr. assert (I : limit_inv k [] t0 rl).
  { split_and!; [constructor|constructor| |by rewrite H0]. intros x. cbn. lia. }
  destruct (limit_run_inv k calls [] t0 rl I Hs Hr) as [last (_ & _ & Hw & _)]. cbn [app] in Hw.
  assert (E : forall cs r, rl_window (snd (limit_run cs r)) = rl_window r /\ rl_quota (snd (limit_run cs r)) = rl_quota r).
  { clear. induction cs as [|[k' now] cs IH]; intros r; [done|]. cbn [limit_run].
    destruct (Allow k' now r) as [ok r1] eqn:Ea. specialize (IH r1).
    assert (rl_window r1 = rl_window r /\ rl_quota r1 = rl_quota r) as [<- <-].
    { unfold Allow in Ea. repeat case_match; by simplify_eq/=. }
    by destruct (limit_run cs r1). }
  specialize (Hw t). destruct (E calls rl) as [E1 E2]. by rewrite E1, E2 in Hw.
Qed.

(** No window of the configured length contains more than [quota] allowed calls
    of a key, whatever calls of other keys lie between, as long as the cache does not
    evict the key while its times are recent. *)
Theorem quota_respected k t0 calls rl t :
  lru_last (rl_lru rl) k = None -> StronglySorted Z.le (t0 :: map snd calls) -> retains k calls rl ->
  Z.of_nat (length (in_window (rl_window rl) t (times k (fst (limit_run calls rl))))) <= Z.max 0 (rl_quota rl).
Proof. apply quota_bound. Qed.

End limiter.

(** ** An executable cache *)

(** Entries expire [ttl] after they were added; the capacity is not exceeded. *)
Record map_lru := mkLRU { ml_entries : gmap bytes (list Z * Z); ml_ttl : Z }.

#[local] Instance map_lru_ops : LRU map_lru := {
  lru_Get k now l :=
    (match ml_entries l !! k with
     | Some (v, added) => if now <? added + ml_ttl l then Some v else None
     | None => None
     end, l);
  lru_Add k v now l := mkLRU (<[k := (v, now)]> (ml_entries l)) (ml_ttl l)
}.

#[local] Instance map_lru_ok : LRUOk map_lru.
Proof.
  refine {| lru_last l k := fst <$> ml_entries l !! k |}.
  - intros k now l v. cbn. destruct (ml_entries l !! k) as [[v' added]|]; [|done]. case_match; [|done].
    intros [= ->]. done.
  - done.
  - intros k v now l k'. cbn. case_bool_decide as E.
    + subst. by rewrite lookup_insert_eq.
    + by rewrite lookup_insert_ne.
Defined.

(** [New(quota, window, maxEntries)] over it. *)
Definition NewLimiter (quota window : Z) : RateLimiter (L := map_lru) :=
  mkLimiter (mkLRU ∅ (window * 2)) quota window.

Lemma quota_respected_witness :
  let calls := [(str "a", 1); (str "a", 2); (str "b", 2); (str "a", 5); (str "a", 12)] in
  let allowed := times (str "a") (fst (limit_run calls (NewLimiter 2 10))) in
  allowed = [1; 2; 12] /\ Z.of_nat (length (in_window 10 11 allowed)) <= Z.max 0 2.
Proof.
  intros calls allowed. split; [vm_compute; reflexivity|].
  apply (quota_respected (str "a") 0 calls (NewLimiter 2 10) 11).
  - reflexivity.
  - repeat constructor; vm_compute; discriminate.
  - repeat split; vm_compute; intros; discriminate.
Defined.
