(* ===== verification/Listen.v ===== *)
(** * Accepting connections: Server.ListenAndServe and Server.Close (server.go)

    [Listener] is the interface of server.go.  A call of [Accept] may wait, so it
    is a partial function, and where the code selects between channels the choice
    is an input.  [ListenerOk] is what the accept loop needs of a closed listener:
    it answers every [Accept], with one of finitely many connections that were
    already there or with an error that is [net.ErrClosed].

    [ListenAndServe] returns for every listener that satisfies it; [MultiListener]
    shows that the relay listener and the listener over several tokens do. *)

From S2P Require Import Prelude GoErr.

(** ** The interface *)

Class Listener (L : Type) := {
  l_choice : Type;
  l_event : Type;
  l_accept : l_choice -> L -> option (result nat * L);
  l_internal : l_event -> L -> option L;
  l_close : L -> L
}.

Class ListenerOk (L : Type) `{Listener L} := {
  l_closed : L -> bool;
  l_pending : L -> nat;
  l_wf : L -> Prop;                      (* no call of Close is half way *)
  close_closed l : l_wf l -> l_closed (l_close l) = true;
  closed_internal ev l l' : l_closed l = true -> l_internal ev l = Some l' ->
    l_closed l' = true /\ (l_pending l' < l_pending l)%nat;
  closed_accept ch l r l' : l_closed l = true -> l_accept ch l = Some (r, l') ->
    l_closed l' = true /\
    match r with
    | Ok _ => (l_pending l' < l_pending l)%nat
    | Err e => errors_is e ErrNetClosed = true /\ (l_pending l' <= l_pending l)%nat
    end;
  closed_progress l : l_closed l = true -> exists ch r l', l_accept ch l = Some (r, l')
}.

(** ** Server.ListenAndServe and Server.Close *)

Section server.
Context {L : Type} `{Listener L}.

Inductive serve_phase := NotServing | Serving | Returned (r : result unit).

(** The fields of [Server] that the loop uses, and what the loop has done: the
    connections for which it started a goroutine. *)
Record server_life := mkLife {
  sl_listener : option L;
  sl_closed : bool;
  sl_phase : serve_phase;
  sl_served : list nat
}.

(** The locked part; [listen] is the outcome of [net.Listen]. *)
Definition ListenAndServe_start (listen : result L) (s : server_life) : server_life :=
  if sl_closed s then mkLife (sl_listener s) true (Returned (Err (Sentinel ErrClosedServer))) (sl_served s)
  else match sl_listener s with
  | Some _ => mkLife (sl_listener s) false Serving (sl_served s)
  | None =>
      match listen with
      | Err e => mkLife None false (Returned (Err (wrapf "listening tcp" e))) (sl_served s)
      | Ok l => mkLife (Some l) false Serving (sl_served s)
      end
  end.

(** One turn of the loop. *)
Definition accept_turn (ch : l_choice) (s : server_life) : option server_life :=
  match sl_listener s with
  | None => None
  | Some l =>
      match l_accept ch l with
      | None => None
      | Some (Ok cn, l') => Some (mkLife (Some l') (sl_closed s) Serving (sl_served s ++ [cn]))
      | Some (Err e, l') =>
          Some (mkLife (Some l') (sl_closed s)
                  (if errors_is e ErrNetClosed then Returned (Ok tt) else Serving) (sl_served s))
      end
  end.

Definition server_Close (s : server_life) : server_life :=
  if sl_closed s then s
  else mkLife (l_close <$> sl_listener s) true (sl_phase s) (sl_served s).

Inductive serve_label := Listen (listen : result L) | Turn (ch : l_choice) | Inside (ev : l_event) | CloseCall.

Definition serve_step (x : serve_label) (s : server_life) : option server_life :=
  match x with
  | Listen listen => match sl_phase s with NotServing => Some (ListenAndServe_start listen s) | _ => None end
  | Turn ch => match sl_phase s with Serving => accept_turn ch s | _ => None end
  | Inside ev =>
      match sl_listener s with
      | Some l => (fun l' => mkLife (Some l') (sl_closed s) (sl_phase s) (sl_served s)) <$> l_internal ev l
      | None => None
      end
  | CloseCall => Some (server_Close s)
  end.

Fixpoint serve_run (xs : list serve_label) (s : server_life) : option server_life :=
  match xs with
  | [] => Some s
  | x :: xs => serve_step x s ≫= serve_run xs
  end.

(** The steps that the loop and the listener take. *)
Definition works (x : serve_label) : bool := match x with Turn _ | Inside _ => true | _ => false end.

Fixpoint turns (xs : list serve_label) : nat :=
  match xs with [] => 0%nat | x :: xs => ((if works x then 1 else 0) + turns xs)%nat end.

Context `{!ListenerOk L}.

(** A running loop whose listener is closed: how many steps are left at most. *)
Definition closing (s : server_life) : Prop :=
  sl_closed s = true /\ exists l, sl_listener s = Some l /\ l_closed l = true /\
  (sl_phase s = Serving \/ sl_phase s = Returned (Ok tt)).

Definition left (s : server_life) : nat :=
  from_option l_pending 0%nat (sl_listener s) + match sl_phase s with Serving => 1 | _ => 0 end.

Lemma closing_step x s s' :
  closing s -> serve_step x s = Some s' ->
  closing s' /\ (left s' + (if works x then 1 else 0) <= left s)%nat.
Proof.
  intros (Hc & l & El & Hl & Hp) E. destruct x as [listen|ch|ev|]; cbn [serve_step works] in *.
  - by destruct Hp as [Hp|Hp]; rewrite Hp in E.
  - destruct Hp as [Hp|Hp]; rewrite Hp in E; [|done]. unfold accept_turn in E. rewrite El in E.
    destruct (l_accept ch l) as [[[cn|e] l']|] eqn:Ea; simplify_eq;
      destruct (closed_accept _ _ _ _ Hl Ea) as [Hl' Hpend]; unfold closing, left; cbn; rewrite El, Hp.
    + split; [eauto 10|]. cbn. lia.
    + destruct Hpend as [-> ?]. split; [eauto 10|]. cbn. lia.
  - rewrite El in E. destruct (l_internal ev l) as [l'|] eqn:Ei; [|done]. simplify_eq/=.
    destruct (closed_internal _ _ _ Hl Ei) as [Hl' Hpend].
    split; [by split; [|exists l']|]. unfold left. cbn. rewrite El. cbn. lia.
  - unfold server_Close in E. rewrite Hc in E. simplify_eq. split; [by split; eauto|]. lia.
Qed.

Lemma closing_run xs s s' :
  closing s -> serve_run xs s = Some s' -> closing s' /\ (left s' + turns xs <= left s)%nat.
Proof.
  revert s. induction xs as [|x xs IH]; intros s Hs E; cbn [serve_run] in E.
  - simplify_eq. split; [done|]. cbn. lia.
  - apply bind_Some in E as (s1 & E1 & E2).
    destruct (closing_step _ _ _ Hs E1) as [H1 L1]. destruct (IH s1 H1 E2) as [H2 L2].
    split; [done|]. cbn [turns]. lia.
Qed.

(** C27: Once [Close] has been called on a serving server, [ListenAndServe] returns
    nil: whatever happens afterwards, more calls of [Close] included, the loop
    and the listener take a bounded number of steps, and as long as the loop has
    not returned it can take its next one. *)
Theorem ListenAndServe_returns s l xs s' :
  sl_phase s = Serving -> sl_closed s = false -> sl_listener s = Some l -> l_wf l ->
  serve_run xs (server_Close s) = Some s' ->
  (turns xs <= S (l_pending (l_close l)))%nat /\
  (sl_phase s' = Returned (Ok tt) \/ sl_phase s' = Serving /\ exists ch s'', serve_step (Turn ch) s' = Some s'').
Proof.
  intros Hp Hc El Hwf E.
  assert (H0 : closing (server_Close s)).
  { unfold server_Close. rewrite Hc, El. split; [done|]. exists (l_close l). cbn.
    by rewrite close_closed; auto. }
  destruct (closing_run _ _ _ H0 E) as [(Hc' & l' & El' & Hl' & Hp') Hb]. split.
  - unfold left, server_Close in Hb. rewrite Hc, El, Hp in Hb. cbn in Hb. lia.
  - destruct Hp' as [Hp'|Hp']; [right|by left]. split; [done|].
    destruct (closed_progress l' Hl') as (ch & r & l'' & Ea).
    exists ch. cbn. rewrite Hp'. unfold accept_turn. rewrite El', Ea. destruct r; eauto.
Qed.

(** A server that is closed before it listens never serves: [ListenAndServe]
    reports [ErrClosedServer], and a listener it was given is closed. *)
Theorem Close_before_listen s listen :
  sl_phase s = NotServing -> sl_closed s = false ->
  let s' := server_Close s in
  serve_step (Listen listen) s' =
    Some (mkLife (l_close <$> sl_listener s) true (Returned (Err (Sentinel ErrClosedServer))) (sl_served s)).
Proof.
  intros Hp Hc. unfold server_Close. rewrite Hc. cbn. rewrite Hp. done.
Qed.

End server.

(** A listener whose [Accept] fails with another error when it is closed keeps
    the loop running for ever: it retries without a pause and never returns. *)
Theorem foreign_error_never_returns {L} `{Listener L} (l : L) ch e n served :
  l_accept ch l = Some (Err e, l) -> errors_is e ErrNetClosed = false ->
  serve_run (replicate n (Turn ch)) (mkLife (Some l) true Serving served) =
    Some (mkLife (Some l) true Serving served).
Proof.
  intros Ha He. induction n as [|n IH]; [done|]. cbn. unfold accept_turn. cbn. by rewrite Ha, He.
Qed.

(** ** The TCP listener *)

(** [tcpListener] over a [net.Listener]: the connections the kernel holds, and
    whether it is closed.  A closed one reports [net.ErrClosed] at once. *)
Record tcpListener := mkTcp { tl_queue : list nat; tl_closed : bool }.

#[export] Instance tcp_Listener : Listener tcpListener := {
  l_choice := unit;
  l_event := nat;
  l_accept _ l :=
    if tl_closed l then Some (Err (Sentinel ErrNetClosed), l)
    else match tl_queue l with
         | cn :: rest => Some (Ok cn, mkTcp rest false)
         | [] => None
         end;
  l_internal cn l := if tl_closed l then None else Some (mkTcp (tl_queue l ++ [cn]) false);
  l_close l := mkTcp (tl_queue l) true
}.

#[export] Program Instance tcp_ListenerOk : ListenerOk tcpListener := {|
  l_closed := tl_closed; l_pending _ := 0%nat; l_wf _ := True
|}.
Next Obligation. done. Qed.
Next Obligation. intros ev l l' Hc E. cbn in E. by rewrite Hc in E. Qed.
Next Obligation.
  intros ch l r l' Hc E. cbn in E. rewrite Hc in E. simplify_eq. split; [done|]. split; [|done].
  apply errors_is_sentinel.
Qed.
Next Obligation. intros l Hc. exists tt. cbn. rewrite Hc. eauto. Qed.

(** A server that has served two connections, a third one waiting. *)
Definition sample_life : server_life (L := tcpListener) :=
  mkLife (Some (mkTcp [7%nat] false)) false Serving [5; 6]%nat.

Lemma ListenAndServe_returns_witness :
  serve_run [Turn tt; CloseCall] (server_Close sample_life) =
    Some (mkLife (Some (mkTcp [7%nat] true)) true (Returned (Ok tt)) [5; 6]%nat) /\ (1 <= 1)%nat.
Proof.
  split; [reflexivity|].
  exact (proj1 (ListenAndServe_returns sample_life (mkTcp [7%nat] false) [Turn tt; CloseCall] _
    eq_refl eq_refl eq_refl I eq_refl)).
Defined.

Lemma Close_before_listen_witness :
  serve_step (Listen (Err (errorf "in use"))) (server_Close (mkLife None false NotServing [])) =
    Some (mkLife (L := tcpListener) None true (Returned (Err (Sentinel ErrClosedServer))) []).
Proof. exact (Close_before_listen (mkLife None false NotServing []) (Err (errorf "in use")) eq_refl eq_refl). Defined.
