(* ===== verification/MultiListener.v ===== *)
(** * Listening with several relay tokens
      (cmd/daemon/multilistener.go, and what cmd/daemon/relay.go and network.go do with it)

    A [multiListener] runs one goroutine per listener that was added, the
    forwarder, which calls [Accept] and hands the connection over an unbuffered
    channel to whoever accepts from the multi-listener.  The listeners of the
    daemon are token trackers: their [Accept] marks the token as consumed, for
    which it needs the mutex of the daemon.

    The first part shows that the relay listener of [RelayConn] satisfies
    [ListenerOk], the second that the multi-listener over any such listeners does
    and that it neither loses nor invents connections, the third what happens when
    [handleStopServer] closes it while it holds the mutex of the daemon. *)

From S2P Require Import Prelude GoErr Process Wire Pb Relay RelayConn Listen.

(** ** The relay listener as a Listener *)

(** The listener and the frames that are on their way to [readPump]. *)
Record relay_socket := mkRelaySocket { rs_listener : RelayListener; rs_inbox : list bytes }.

Inductive relay_event :=
  | Arrive (b : bytes)                    (* a frame arrives while the channel is open *)
  | PumpFrame                             (* readPump reads the next frame *)
  | PumpFails.                            (* its read of the closed channel fails *)

Section relay.
Context `{ProtoRuntime}.

Definition relay_accept (done : bool) (s : relay_socket) : option (result nat * relay_socket) :=
  let '(l, out) := li_Accept (rs_listener s) in
  match out with
  | DidAccept r :: _ => Some (r, mkRelaySocket l (rs_inbox s))
  | _ =>
      let '(l, out) := li_accept_select done l in
      match out with
      | DidAccept r :: _ => Some (r, mkRelaySocket l (rs_inbox s))
      | _ => None
      end
  end.

Definition relay_internal (ev : relay_event) (s : relay_socket) : option relay_socket :=
  let l := rs_listener s in
  match ev with
  | Arrive b => if li_closed l then None else Some (mkRelaySocket l (rs_inbox s ++ [b]))
  | PumpFrame =>
      match rs_inbox s with
      | b :: rest => if li_pumping l then Some (mkRelaySocket (fst (pump (Some b) l)) rest) else None
      | [] => None
      end
  | PumpFails =>
      if li_closed l && li_pumping l then Some (mkRelaySocket (fst (pump None l)) (rs_inbox s)) else None
  end.

#[export] Instance relay_Listener : Listener relay_socket := {
  l_choice := bool;
  l_event := relay_event;
  l_accept := relay_accept;
  l_internal := relay_internal;
  l_close s := mkRelaySocket (li_Close (rs_listener s)) (rs_inbox s)
}.

Definition relay_closed (s : relay_socket) : bool := li_done (rs_listener s) && li_closed (rs_listener s).

Definition relay_pending (s : relay_socket) : nat :=
  2 * length (rs_inbox s) + length (li_accept (rs_listener s)) +
  (if li_pumping (rs_listener s) then 1 else 0).

Lemma deliver_frame data l :
  li_done (deliver data l) = li_done l /\ li_closed (deliver data l) = li_closed l /\
  li_pumping (deliver data l) = li_pumping l /\ (length (li_accept (deliver data l)) <= S (length (li_accept l)))%nat.
Proof. unfold deliver. repeat case_match; cbn in *; repeat split; lia. Qed.

Lemma pump_frame b l :
  let l' := fst (pump (Some b) l) in
  li_done l' = li_done l /\ li_closed l' = li_closed l /\
  li_pumping l' = li_pumping l /\ (length (li_accept l') <= S (length (li_accept l)))%nat.
Proof.
  unfold pump. destruct (li_pumping l) eqn:Ep; cbn [negb fst]; [|by rewrite Ep; auto].
  destruct (Unmarshal b) as [[[[]|]]|]; cbn [fst]; rewrite ?Ep; auto.
  rewrite <-Ep. apply deliver_frame.
Qed.

#[export] Program Instance relay_ListenerOk : ListenerOk relay_socket := {|
  l_closed := relay_closed; l_pending := relay_pending; l_wf _ := True
|}.
Next Obligation. done. Qed.
Next Obligation.
  intros ev [l inbox] s' Hc E. unfold relay_closed in *. cbn [rs_listener] in *.
  apply andb_true_iff in Hc as [Hd Hcl].
  destruct ev; cbn [l_internal relay_Listener relay_internal rs_listener rs_inbox] in E.
  - by rewrite Hcl in E.
  - destruct inbox as [|b rest]; [done|]. destruct (li_pumping l) eqn:Ep; [|done]. simplify_eq.
    destruct (pump_frame b l) as (P1 & P2 & P3 & P4). cbn [rs_listener].
    rewrite P1, P2, Hd, Hcl. split; [done|]. unfold relay_pending. cbn [rs_listener rs_inbox length].
    rewrite P3. lia.
  - rewrite Hcl in E. destruct (li_pumping l) eqn:Ep; [|done]. simplify_eq/=.
    unfold pump. rewrite Ep. cbn. rewrite Hcl. split; [done|]. unfold relay_pending. cbn. rewrite Ep. lia.
Qed.
Next Obligation.
  intros done [l inbox] r s' Hc E. unfold relay_closed in *. cbn [rs_listener] in *.
  apply andb_true_iff in Hc as [Hd Hcl].
  cbn [l_accept relay_Listener] in E. unfold relay_accept, li_Accept, li_accept_select in E.
  cbn [rs_listener rs_inbox] in E. destruct (li_accepting l) eqn:Ea, (li_stopped l); cbn in E;
    rewrite ?Ea, ?Hd in E; cbn in E; destruct (li_accept l) as [|i rest] eqn:Eq; cbn in E;
    destruct done; simplify_eq/=; rewrite ?Hd, ?Hcl; unfold relay_pending; cbn; rewrite ?Eq; cbn;
    repeat split; try lia.
Qed.
Next Obligation.
  intros [l inbox] Hc. unfold relay_closed in *. cbn [rs_listener] in *. apply andb_true_iff in Hc as [Hd _].
  exists true. cbn [l_accept relay_Listener]. unfold relay_accept, li_Accept, li_accept_select. cbn [rs_listener].
  destruct (li_accepting l) eqn:Ea, (li_stopped l); cbn; rewrite ?Ea, ?Hd; cbn; destruct (li_accept l); cbn; eauto.
Qed.

End relay.

(** ** The multi-listener *)

Section multi.
Context {L : Type} `{Listener L}.
(** Whether a listener is a [*tokenTracker]. *)
Variable tracked : L -> bool.

(** Where the goroutine of a listener is: in the [Accept] of the listener, in
    [markRelayTokenConsumed], at the [select], or at its end. *)
Inductive fw_phase := FwAccepting | FwMarking (cn : nat) | FwSending (cn : nat) | FwExited.

Record forwarder := mkForwarder { fw_listener : L; fw_at : fw_phase }.

Record multiListener := mkMulti {
  ml_forwarders : list forwarder;      (* m.listeners, each with its goroutine *)
  ml_adding : list L;                  (* calls of Add that have passed their check *)
  ml_done : bool;
  ml_returned : list nat;              (* the connections Accept has returned *)
  ml_dropped : list nat                (* those a forwarder has closed *)
}.

Definition newMultiListener : multiListener := mkMulti [] [] false [] [].

Definition set_forwarder (i : nat) (f : forwarder) (m : multiListener) : multiListener :=
  mkMulti (<[i := f]> (ml_forwarders m)) (ml_adding m) (ml_done m) (ml_returned m) (ml_dropped m).

(** [Add]: the check, and what follows it. *)
Definition add_check (l : L) (m : multiListener) : result multiListener :=
  if ml_done m then Err (Sentinel ErrNetClosed)
  else Ok (mkMulti (ml_forwarders m) (ml_adding m ++ [l]) (ml_done m) (ml_returned m) (ml_dropped m)).

Definition add_rest (m : multiListener) : option multiListener :=
  match ml_adding m with
  | [] => None
  | l :: rest => Some (mkMulti (ml_forwarders m ++ [mkForwarder l FwAccepting]) rest (ml_done m)
                         (ml_returned m) (ml_dropped m))
  end.

(** The [Accept] of listener [i] returns to its forwarder; a connection of a
    tracker is first marked.  The second component is what was accepted. *)
Definition fw_accept (i : nat) (ch : l_choice) (m : multiListener) : option (multiListener * list nat) :=
  match ml_forwarders m !! i with
  | Some (mkForwarder l FwAccepting) =>
      match l_accept ch l with
      | None => None
      | Some (Err _, l') => Some (set_forwarder i (mkForwarder l' FwExited) m, [])
      | Some (Ok cn, l') =>
          Some (set_forwarder i (mkForwarder l' (if tracked l then FwMarking cn else FwSending cn)) m, [cn])
      end
  | _ => None
  end.

Definition fw_mark (i : nat) (m : multiListener) : option multiListener :=
  match ml_forwarders m !! i with
  | Some (mkForwarder l (FwMarking cn)) => Some (set_forwarder i (mkForwarder l (FwSending cn)) m)
  | _ => None
  end.

(** The [select] of a forwarder takes [m.done]: the connection is closed. *)
Definition fw_stop (i : nat) (m : multiListener) : option multiListener :=
  match ml_forwarders m !! i with
  | Some (mkForwarder l (FwSending cn)) =>
      if ml_done m
      then Some (mkMulti (<[i := mkForwarder l FwExited]> (ml_forwarders m)) (ml_adding m) true
                   (ml_returned m) (ml_dropped m ++ [cn]))
      else None
  | _ => None
  end.

Definition fw_internal (i : nat) (ev : l_event) (m : multiListener) : option multiListener :=
  match ml_forwarders m !! i with
  | Some (mkForwarder l p) => (fun l' => set_forwarder i (mkForwarder l' p) m) <$> l_internal ev l
  | None => None
  end.

(** [Accept]: with [Some i] the [select] receives from forwarder [i], which
    continues; with [None] it takes [m.done]. *)
Definition ml_Accept (ch : option nat) (m : multiListener) : option (result nat * multiListener) :=
  match ch with
  | None => if ml_done m then Some (Err (Sentinel ErrNetClosed), m) else None
  | Some i =>
      match ml_forwarders m !! i with
      | Some (mkForwarder l (FwSending cn)) =>
          Some (Ok cn, mkMulti (<[i := mkForwarder l FwAccepting]> (ml_forwarders m)) (ml_adding m) (ml_done m)
                         (ml_returned m ++ [cn]) (ml_dropped m))
      | _ => None
      end
  end.

(** [Close]: the channel, the listeners, and the condition it waits for. *)
Definition close_done (m : multiListener) : multiListener :=
  mkMulti (ml_forwarders m) (ml_adding m) true (ml_returned m) (ml_dropped m).

Definition close_listeners (m : multiListener) : multiListener :=
  mkMulti ((fun f => mkForwarder (l_close (fw_listener f)) (fw_at f)) <$> ml_forwarders m) (ml_adding m)
    (ml_done m) (ml_returned m) (ml_dropped m).

Definition exited (f : forwarder) : bool := match fw_at f with FwExited => true | _ => false end.

Definition wg_zero (m : multiListener) : bool := forallb exited (ml_forwarders m).

Inductive fw_event := FwAccept (i : nat) (ch : l_choice) | FwMark (i : nat) | FwStop (i : nat)
  | FwInside (i : nat) (ev : l_event).

Definition fw_step (x : fw_event) (m : multiListener) : option (multiListener * list nat) :=
  match x with
  | FwAccept i ch => fw_accept i ch m
  | FwMark i => (fun m => (m, [])) <$> fw_mark i m
  | FwStop i => (fun m => (m, [])) <$> fw_stop i m
  | FwInside i ev => (fun m => (m, [])) <$> fw_internal i ev m
  end.

#[export] Instance multi_Listener : Listener multiListener := {
  l_choice := option nat;
  l_event := fw_event;
  l_accept := ml_Accept;
  l_internal x m := fst <$> fw_step x m;
  l_close m := if ml_done m then m else close_listeners (close_done m)
}.

(** *** Every interleaving *)

Inductive multi_label :=
  | AddCheck (l : L) | AddRest | Fw (x : fw_event) | AcceptFrom (ch : option nat)
  | CloseDone | CloseListeners.

Definition multi_step (x : multi_label) (m : multiListener) : option (multiListener * list nat) :=
  match x with
  | AddCheck l => match add_check l m with Ok m => Some (m, []) | Err _ => Some (m, []) end
  | AddRest => (fun m => (m, [])) <$> add_rest m
  | Fw x => fw_step x m
  | AcceptFrom ch => (fun r => (snd r, [])) <$> ml_Accept ch m
  | CloseDone => Some (close_done m, [])
  | CloseListeners => Some (close_listeners m, [])
  end.

(** The state after the steps, and the connections the listeners gave. *)
Fixpoint multi_run (xs : list multi_label) (m : multiListener) : option (multiListener * list nat) :=
  match xs with
  | [] => Some (m, [])
  | x :: xs =>
      match multi_step x m with
      | None => None
      | Some (m1, a) => (fun r => (fst r, a ++ snd r)) <$> multi_run xs m1
      end
  end.

Definition held_by (f : forwarder) : list nat :=
  match fw_at f with FwMarking cn | FwSending cn => [cn] | _ => [] end.

Definition held (m : multiListener) : list nat := flat_map held_by (ml_forwarders m).

Lemma flat_map_insert (l : list forwarder) i f g a :
  l !! i = Some f -> held_by f ++ a ≡ₚ held_by g -> flat_map held_by l ++ a ≡ₚ flat_map held_by (<[i := g]> l).
Proof.
  revert i. induction l as [|x l IH]; intros [|i] Hi Hp; cbn in *; simplify_eq.
  - rewrite <-Hp. solve_Permutation.
  - rewrite <-app_assoc. by rewrite (IH i Hi Hp).
Qed.

Lemma flat_map_insert_out (l : list forwarder) i f g a :
  l !! i = Some f -> held_by f ≡ₚ held_by g ++ a -> flat_map held_by l ≡ₚ flat_map held_by (<[i := g]> l) ++ a.
Proof.
  revert i. induction l as [|x l IH]; intros [|i] Hi Hp; cbn in *; simplify_eq.
  - rewrite Hp. solve_Permutation.
  - rewrite <-app_assoc. by rewrite <-(IH i Hi Hp).
Qed.

(** Where the accepted connections are. *)
Definition placed (m : multiListener) : list nat := ml_returned m ++ ml_dropped m ++ held m.

Lemma multi_step_placed x m m' a : multi_step x m = Some (m', a) -> placed m ++ a ≡ₚ placed m'.
Proof.
  intros E. destruct x as [l| |x|ch| |]; cbn [multi_step] in E.
  - unfold add_check in E. case_match; simplify_eq; case_match; simplify_eq; by rewrite app_nil_r.
  - unfold add_rest in E. destruct (ml_adding m); [done|]. simplify_eq/=. rewrite app_nil_r.
    unfold placed, held. cbn. rewrite flat_map_app. cbn. by rewrite !app_nil_r.
  - destruct x as [i ch|i|i|i ev]; cbn [fw_step] in E;
      unfold fw_accept, fw_mark, fw_stop, fw_internal in E;
      destruct (ml_forwarders m !! i) as [[l p]|] eqn:Ei; try done.
    + destruct p; try done. destruct (l_accept ch l) as [[[cn|e] l']|]; simplify_eq/=;
        unfold placed, held; cbn; rewrite <-!app_assoc; do 2 apply Permutation_app_head;
        (eapply flat_map_insert; [exact Ei|]); cbn; by try case_match.
    + destruct p; simplify_eq/=. unfold placed, held. cbn. rewrite <-!app_assoc. do 2 apply Permutation_app_head.
      by eapply flat_map_insert.
    + destruct p; try done. destruct (ml_done m); simplify_eq/=. rewrite app_nil_r. unfold placed, held. cbn.
      rewrite (flat_map_insert_out _ _ _ (mkForwarder l FwExited) [cn] Ei) by done. solve_Permutation.
    + destruct (l_internal ev l); simplify_eq/=. unfold placed, held. cbn. rewrite <-!app_assoc.
      do 2 apply Permutation_app_head. eapply flat_map_insert; [exact Ei|]. cbn. by rewrite app_nil_r.
  - unfold ml_Accept in E. destruct ch as [i|].
    + destruct (ml_forwarders m !! i) as [[l p]|] eqn:Ei; [|done]. destruct p; simplify_eq/=.
      rewrite app_nil_r. unfold placed, held. cbn.
      rewrite (flat_map_insert_out _ _ _ (mkForwarder l FwAccepting) [cn] Ei) by done. solve_Permutation.
    + destruct (ml_done m); simplify_eq/=. by rewrite app_nil_r.
  - simplify_eq/=. by rewrite app_nil_r.
  - simplify_eq/=. rewrite app_nil_r. unfold placed, held. cbn. do 2 apply Permutation_app_head.
    induction (ml_forwarders m) as [|[l p] fs IH]; [done|]. cbn. by rewrite IH.
Qed.

(** C31: Through every interleaving of adding, accepting, forwarding and closing, each
    connection that a listener gave is in exactly one place: returned by
    [Accept], closed by its forwarder, or still held by it. *)
Theorem multi_listener_keeps xs m a :
  multi_run xs newMultiListener = Some (m, a) -> a ≡ₚ ml_returned m ++ ml_dropped m ++ held m.
Proof.
  assert (Hgen : forall m0, multi_run xs m0 = Some (m, a) -> placed m0 ++ a ≡ₚ placed m).
  { revert a. induction xs as [|x xs IH]; intros a m0 E; cbn [multi_run] in E.
    - simplify_eq. by rewrite app_nil_r.
    - destruct (multi_step x m0) as [[m1 a1]|] eqn:E1; [|done].
      destruct (multi_run xs m1) as [[m2 a2]|] eqn:E2; simplify_eq/=.
      rewrite app_assoc, (multi_step_placed _ _ _ _ E1). by apply IH. }
  intros E. exact (Hgen _ E).
Qed.

End multi.

(** *** A closed multi-listener comes to rest *)

Section multi_ok.
Context {L : Type} `{ListenerOk L}.
Variable tracked : L -> bool.

Definition phase_weight (p : fw_phase) : nat :=
  match p with FwAccepting => 1 | FwMarking _ => 3 | FwSending _ => 2 | FwExited => 0 end.

Definition fw_weight (f : forwarder) : nat := 4 * l_pending (fw_listener f) + phase_weight (fw_at f).

Definition multi_pending (m : multiListener (L := L)) : nat := sum_list_with fw_weight (ml_forwarders m).

Definition fw_closed (f : forwarder (L := L)) : bool := l_closed (fw_listener f).

Definition multi_closed (m : multiListener (L := L)) : bool := ml_done m && forallb fw_closed (ml_forwarders m).

Lemma sum_insert (l : list (forwarder (L := L))) i f g :
  l !! i = Some f -> (fw_weight g < fw_weight f)%nat ->
  (sum_list_with fw_weight (<[i := g]> l) < sum_list_with fw_weight l)%nat.
Proof.
  revert i. induction l as [|x l IH]; intros [|i] Hi Hw; cbn in Hi; simplify_eq.
  - by apply Nat.add_lt_mono_r.
  - apply Nat.add_lt_mono_l. by apply IH.
Qed.

Lemma forallb_insert (p : forwarder (L := L) -> bool) l i g :
  forallb p l = true -> p g = true -> forallb p (<[i := g]> l) = true.
Proof.
  intros Hl Hg. revert i. induction l as [|x l IH]; intros [|i]; cbn in *; try done;
    apply andb_true_iff in Hl as [Hx Hl]; apply andb_true_iff; auto.
Qed.

Lemma forallb_at (p : forwarder (L := L) -> bool) l i f : forallb p l = true -> l !! i = Some f -> p f = true.
Proof. intros Hl Hi. rewrite forallb_forall in Hl. apply Hl. apply list_elem_of_In. by eapply list_elem_of_lookup_2. Qed.

(** A step that replaces one forwarder by a lighter one with a closed listener. *)
Lemma multi_lighter m m' i f g :
  multi_closed m = true -> ml_forwarders m !! i = Some f -> ml_forwarders m' = <[i := g]> (ml_forwarders m) ->
  ml_done m' = ml_done m -> fw_closed g = true -> (fw_weight g < fw_weight f)%nat ->
  multi_closed m' = true /\ (multi_pending m' < multi_pending m)%nat.
Proof.
  unfold multi_closed, multi_pending. intros Hc Hi Ef Ed Hg Hw. apply andb_true_iff in Hc as [Hd Hl].
  rewrite Ef, Ed, Hd. split; [by apply forallb_insert|by eapply sum_insert].
Qed.

Lemma fw_step_lighter x m m' a :
  multi_closed m = true -> fw_step tracked x m = Some (m', a) ->
  multi_closed m' = true /\ (multi_pending m' < multi_pending m)%nat.
Proof.
  intros Hc E. pose proof Hc as Hc'. apply andb_true_iff in Hc' as [Hd Hl].
  destruct x as [i ch|i|i|i ev]; cbn [fw_step] in E; unfold fw_accept, fw_mark, fw_stop, fw_internal in E;
    destruct (ml_forwarders m !! i) as [[l p]|] eqn:Ei; try done;
    pose proof (forallb_at _ _ _ _ Hl Ei) as Hcl; unfold fw_closed in Hcl; cbn [fw_listener] in Hcl.
  - destruct p; try done. destruct (l_accept ch l) as [[[cn|e] l']|] eqn:Ea; simplify_eq;
      destruct (closed_accept _ _ _ _ Hcl Ea) as [Hcl' Hp]; cbv iota in Hp;
      (eapply multi_lighter; [done|exact Ei|reflexivity|done|done|]); unfold fw_weight; cbn [fw_listener fw_at].
    + destruct (tracked l); cbn [phase_weight]; lia.
    + cbn [phase_weight]. lia.
  - destruct p; simplify_eq/=. eapply multi_lighter; [done|exact Ei|reflexivity|done|done|].
    unfold fw_weight; cbn. lia.
  - destruct p; try done. rewrite Hd in E. simplify_eq/=.
    eapply multi_lighter; [done|exact Ei|reflexivity|by cbn|done|]. unfold fw_weight; cbn. lia.
  - destruct (l_internal ev l) as [l'|] eqn:Ein; simplify_eq/=.
    destruct (closed_internal _ _ _ Hcl Ein) as [Hcl' Hp].
    eapply multi_lighter; [done|exact Ei|reflexivity|done|done|]. unfold fw_weight; cbn [fw_listener fw_at]. lia.
Qed.

#[export] Program Instance multi_ListenerOk : ListenerOk (multiListener (L := L))
    (H := multi_Listener tracked) := {|
  l_closed := multi_closed; l_pending := multi_pending;
  l_wf m := (forall f, f ∈ ml_forwarders m -> l_wf (fw_listener f)) /\
            (ml_done m = true -> multi_closed m = true)
|}.
Next Obligation.
  intros m [Hwf Hd]. cbn [l_close multi_Listener]. destruct (ml_done m) eqn:E; [by apply Hd|].
  unfold multi_closed. cbn. rewrite forallb_forall. intros f Hf.
  apply list_elem_of_In, list_elem_of_fmap in Hf as (g & -> & Hg). unfold fw_closed. cbn. auto using close_closed.
Qed.
Next Obligation.
  intros x m m' Hc E. cbn [l_internal multi_Listener] in E.
  destruct (fw_step tracked x m) as [[m1 a]|] eqn:E1; simplify_eq/=. by eapply fw_step_lighter.
Qed.
Next Obligation.
  intros ch m r m' Hc E. cbn [l_accept multi_Listener] in E. pose proof Hc as Hc'. apply andb_true_iff in Hc' as [Hd Hl].
  unfold ml_Accept in E. destruct ch as [i|].
  - destruct (ml_forwarders m !! i) as [[l p]|] eqn:Ei; [|done]. destruct p; simplify_eq/=.
    pose proof (forallb_at _ _ _ _ Hl Ei) as Hcl.
    eapply multi_lighter; [done|exact Ei|reflexivity|done|done|]. unfold fw_weight; cbn. lia.
  - rewrite Hd in E. simplify_eq. split; [done|]. split; [|lia]. apply errors_is_sentinel.
Qed.
Next Obligation.
  intros m Hc. apply andb_true_iff in Hc as [Hd _]. exists None. cbn. rewrite Hd. eauto.
Qed.

(** A run of forwarder steps. *)
Fixpoint fw_run (xs : list fw_event) (m : multiListener) : option multiListener :=
  match xs with
  | [] => Some m
  | x :: xs => (fst <$> fw_step tracked x m) ≫= fw_run xs
  end.

Lemma fw_step_enabled m :
  multi_closed m = true -> wg_zero m = false -> exists x m' a, fw_step tracked x m = Some (m', a).
Proof.
  intros Hc Hw. pose proof Hc as Hc'. apply andb_true_iff in Hc' as [Hd Hl].
  assert (exists i f, ml_forwarders m !! i = Some f /\ exited f = false) as (i & [l p] & Ei & Ex).
  { unfold wg_zero in Hw. clear Hc Hl Hd. induction (ml_forwarders m) as [|f fs IH]; [done|]. cbn in Hw.
    destruct (exited f) eqn:E; [|by exists 0%nat, f]. destruct (IH Hw) as (i & g & ? & ?). by exists (S i), g. }
  pose proof (forallb_at _ _ _ _ Hl Ei) as Hcl. destruct p; [| | |done].
  - destruct (closed_progress l Hcl) as (ch & r & l' & Ea). exists (FwAccept i ch). cbn. unfold fw_accept.
    rewrite Ei, Ea. destruct r; eauto.
  - exists (FwMark i). cbn. unfold fw_mark. rewrite Ei. cbn. eauto.
  - exists (FwStop i). cbn. unfold fw_stop. rewrite Ei, Hd. cbn. eauto.
Qed.

(** [Close] returns: after the channel and the listeners are closed the
    forwarders can take only a bounded number of steps, and as long as one of
    them has not exited some step is possible. *)
Theorem multi_Close_returns m xs m' :
  l_wf (ListenerOk := multi_ListenerOk) m -> fw_run xs (l_close (Listener := multi_Listener tracked) m) = Some m' ->
  (length xs <= multi_pending (l_close (Listener := multi_Listener tracked) m))%nat /\
  (wg_zero m' = true \/ exists x m'' a, fw_step tracked x m' = Some (m'', a)).
Proof.
  intros Hwf E. pose proof (close_closed (ListenerOk := multi_ListenerOk) m Hwf) as Hc. cbn [l_closed multi_ListenerOk] in Hc.
  revert E Hc. generalize (l_close (Listener := multi_Listener tracked) m). clear m Hwf. intros m.
  revert m. induction xs as [|x xs IH]; intros m E Hc; cbn [fw_run] in E.
  - simplify_eq. split; [cbn; lia|]. destruct (wg_zero m') eqn:Ew; [by left|right]. by apply fw_step_enabled.
  - destruct (fw_step tracked x m) as [[m1 a]|] eqn:E1; [|done]. cbn in E.
    destruct (fw_step_lighter _ _ _ _ Hc E1) as [Hc1 L1]. destruct (IH m1 E Hc1) as [L2 Hr].
    split; [cbn [length]; lia|done].
Qed.

End multi_ok.

(** [Add] and [Close] race: a listener whose [Add] passed the check before
    [Close] is started after it, open and with its forwarder running, although
    [Close] has returned. *)
Theorem late_Add_left_open {L} `{Listener L} (tracked : L -> bool) (l : L) :
  exists m, multi_run tracked [AddCheck l; CloseDone; CloseListeners] newMultiListener = Some (m, []) /\
    wg_zero m = true /\
    exists m', multi_run tracked [AddRest] m = Some (m', []) /\ ml_done m' = true /\
      ml_forwarders m' = [mkForwarder l FwAccepting].
Proof. eexists. split; [reflexivity|]. split; [reflexivity|]. by eexists. Qed.

(** ** Closing under the mutex of the daemon *)

(** [handleStopServer] (and [Shutdown]) calls [relayListeners.Close] while it
    holds [d.mu]; [markRelayTokenConsumed], which the [Accept] of a tracker calls,
    takes [d.mu]. *)

Section stopping.
Context {L : Type} `{Listener L}.
Variable tracked : L -> bool.

Inductive stop_phase := StopStarted | StopLocked | StopDone | StopWaiting | StopUnlocked.

Record stopping := mkStopping {
  st_multi : multiListener (L := L);
  st_mu : bool;                       (* the handler holds d.mu *)
  st_phase : stop_phase
}.

(** The next step of [handleStopServer]; [None] when it has to wait. *)
Definition handleStopServer_step (s : stopping) : option stopping :=
  let m := st_multi s in
  match st_phase s with
  | StopStarted => if st_mu s then None else Some (mkStopping m true StopLocked)
  | StopLocked => if ml_done m then Some (mkStopping m false StopUnlocked)
                  else Some (mkStopping (close_done m) true StopDone)
  | StopDone => Some (mkStopping (close_listeners m) true StopWaiting)
  | StopWaiting => if wg_zero m then Some (mkStopping m false StopUnlocked) else None
  | StopUnlocked => None
  end.

Inductive stop_label := Handler | Forwarder (x : fw_event (L := L)) | Acceptor (ch : option nat).

Definition stop_step (x : stop_label) (s : stopping) : option stopping :=
  let with_multi m := mkStopping m (st_mu s) (st_phase s) in
  match x with
  | Handler => handleStopServer_step s
  | Forwarder (FwMark i) => if st_mu s then None else with_multi <$> fw_mark i (st_multi s)
  | Forwarder x => with_multi <$> (fst <$> fw_step tracked x (st_multi s))
  | Acceptor ch => with_multi <$> (snd <$> ml_Accept ch (st_multi s))
  end.

Fixpoint stop_run (xs : list stop_label) (s : stopping) : option stopping :=
  match xs with
  | [] => Some s
  | x :: xs => stop_step x s ≫= stop_run xs
  end.

Definition marking (i : nat) (m : multiListener (L := L)) : Prop :=
  exists l cn, ml_forwarders m !! i = Some (mkForwarder l (FwMarking cn)).

Lemma marking_insert i j f m m' :
  marking i m -> ml_forwarders m' = <[j := f]> (ml_forwarders m) ->
  (i = j -> exists l cn, f = mkForwarder l (FwMarking cn)) -> marking i m'.
Proof.
  intros (l & cn & Ei) Ef Hj. unfold marking. rewrite Ef. destruct (decide (i = j)) as [->|Hne].
  - destruct (Hj eq_refl) as (l' & cn' & ->). apply lookup_lt_Some in Ei.
    rewrite list_lookup_insert_eq by done. eauto.
  - rewrite list_lookup_insert_ne by done. eauto.
Qed.

Lemma fw_step_marking i x m m' a :
  marking i m -> x <> FwMark i -> fw_step tracked x m = Some (m', a) ->
  marking i m' /\ ml_done m' = ml_done m.
Proof.
  intros Hm Hx E. pose proof Hm as (l0 & cn0 & Ei0).
  destruct x as [j ch|j|j|j ev]; cbn [fw_step] in E; unfold fw_accept, fw_mark, fw_stop, fw_internal in E;
    destruct (ml_forwarders m !! j) as [[l p]|] eqn:Ej; try done.
  - destruct p; try done. destruct (l_accept ch l) as [[[cn|e] l']|]; simplify_eq/=; split; try done;
      (eapply marking_insert; [done|reflexivity|]); intros ->; congruence.
  - destruct p; simplify_eq/=. split; [|done]. eapply marking_insert; [done|reflexivity|]. intros ->. congruence.
  - destruct p; try done. destruct (ml_done m) eqn:Ed; simplify_eq/=. split; [|done].
    eapply marking_insert; [done|reflexivity|]. intros ->. congruence.
  - destruct (l_internal ev l); simplify_eq/=. split; [|done]. eapply marking_insert; [done|reflexivity|].
    intros ->. rewrite Ei0 in Ej. simplify_eq. eauto.
Qed.

Definition stuck_stop (i : nat) (s : stopping) : Prop :=
  st_mu s = true /\ marking i (st_multi s) /\
  match st_phase s with
  | StopLocked => ml_done (st_multi s) = false
  | StopDone | StopWaiting => True
  | _ => False
  end.

Lemma stuck_stop_step i x s s' : stuck_stop i s -> stop_step x s = Some s' -> stuck_stop i s'.
Proof.
  intros (Hmu & Hm & Hp) E. destruct x as [|x|ch]; cbn [stop_step] in E.
  - unfold handleStopServer_step in E. destruct (st_phase s) eqn:Ep; try done.
    + rewrite Hp in E. simplify_eq. by split_and!.
    + simplify_eq. split_and!; [done| |done]. destruct Hm as (l & cn & Ei). unfold marking. cbn.
      rewrite list_lookup_fmap, Ei. cbn. eauto.
    + destruct (wg_zero (st_multi s)) eqn:Ew; [|done]. exfalso. destruct Hm as (l & cn & Ei).
      unfold wg_zero in Ew. rewrite forallb_forall in Ew.
      specialize (Ew _ (proj1 (list_elem_of_In _ _) (list_elem_of_lookup_2 _ _ _ Ei))). done.
  - assert (E' : x <> FwMark i /\
      (fun m => mkStopping m (st_mu s) (st_phase s)) <$> (fst <$> fw_step tracked x (st_multi s)) = Some s')
      by (destruct x; [done|by rewrite Hmu in E|done..]).
    destruct E' as [Hx E'].
    destruct (fw_step tracked x (st_multi s)) as [[m' a]|] eqn:E1; [|done]. cbn in E'. simplify_eq.
    destruct (fw_step_marking i _ _ _ _ Hm Hx E1) as [Hm' Hd].
    split_and!; [done|done|]. cbn. by destruct (st_phase s); rewrite ?Hd.
  - destruct (ml_Accept ch (st_multi s)) as [[r m']|] eqn:Ea; [|done]. cbn in E. simplify_eq.
    unfold ml_Accept in Ea. destruct ch as [j|]; cycle 1.
    { destruct (ml_done (st_multi s)) eqn:Ed; simplify_eq. split_and!; [done|exact Hm|]. cbn. by rewrite Ed. }
    destruct (ml_forwarders (st_multi s) !! j) as [[l p]|] eqn:Ej; [|done]. destruct p; simplify_eq/=.
    split_and!; [done| |by cbn; destruct (st_phase s)]. eapply marking_insert; [done|reflexivity|].
    intros ->. destruct Hm as (? & ? & ?). congruence.
Qed.

(** If [handleStopServer] takes the mutex of the daemon while the goroutine of a
    token has accepted a connection and not yet marked the token, it never gives
    the mutex back: it waits for the goroutine, which waits for the mutex, in every
    continuation. *)
Theorem stop_server_deadlocks i s xs s' :
  st_phase s = StopLocked -> st_mu s = true -> ml_done (st_multi s) = false -> marking i (st_multi s) ->
  stop_run xs s = Some s' -> st_mu s' = true /\ st_phase s' <> StopUnlocked.
Proof.
  intros Hp Hmu Hd Hm E.
  assert (H0 : stuck_stop i s) by (unfold stuck_stop; rewrite Hp; auto).
  assert (Hs : stuck_stop i s').
  { clear Hp Hmu Hd Hm. revert s H0 E. induction xs as [|x xs IH]; intros s H0 E; cbn in E; [by simplify_eq|].
    apply bind_Some in E as (s1 & E1 & E2). eapply IH; [|exact E2]. by eapply stuck_stop_step. }
  destruct Hs as (? & _ & Hph). split; [done|]. intros Eu. by rewrite Eu in Hph.
Qed.

End stopping.

(** ** Concrete runs *)

Section sample.
Existing Instances wire_runtime relay_Listener relay_ListenerOk.

(** A relay listener whose peer has sent its first message. *)
Definition sample_socket : relay_socket :=
  mkRelaySocket li_init [default [] (Marshal (mkFrame (Some (Frame_Msg (str "hello")))))].

Definition occurs (e : relay_event) : l_event (L := relay_socket) := e.
Definition choose (b : bool) : l_choice (L := relay_socket) := b.

Definition all_tracked (l : relay_socket) : bool := true.

Definition sample_multi : multiListener :=
  mkMulti [mkForwarder sample_socket FwAccepting] [] false [] [].

Lemma multi_listener_keeps_witness :
  exists m, multi_run all_tracked
      [AddCheck sample_socket; AddRest; Fw (FwInside 0%nat (occurs PumpFrame)); Fw (FwAccept 0%nat (choose false)); Fw (FwMark 0%nat);
       CloseDone; Fw (FwStop 0%nat)] newMultiListener = Some (m, [0%nat]) /\
    [0%nat] ≡ₚ ml_returned m ++ ml_dropped m ++ held m.
Proof.
  eexists. split; [vm_compute; reflexivity|].
  eapply (multi_listener_keeps all_tracked
      [AddCheck sample_socket; AddRest; Fw (FwInside 0%nat (occurs PumpFrame)); Fw (FwAccept 0%nat (choose false)); Fw (FwMark 0%nat);
       CloseDone; Fw (FwStop 0%nat)]). vm_compute. reflexivity.
Defined.

Lemma multi_Close_returns_witness :
  exists m', fw_run all_tracked [FwInside 0%nat (occurs PumpFrame); FwInside 0%nat (occurs PumpFails); FwAccept 0%nat (choose false); FwMark 0%nat;
      FwStop 0%nat] (l_close (Listener := multi_Listener all_tracked) sample_multi) = Some m' /\
    wg_zero m' = true /\
    (5 <= multi_pending (l_close (Listener := multi_Listener all_tracked) sample_multi))%nat.
Proof.
  eexists. split; [vm_compute; reflexivity|]. split; [reflexivity|].
  refine (proj1 (multi_Close_returns all_tracked sample_multi [FwInside 0%nat (occurs PumpFrame); FwInside 0%nat (occurs PumpFails);
    FwAccept 0%nat (choose false); FwMark 0%nat; FwStop 0%nat] _ _ _)).
  - split; [intros f _; exact I|discriminate].
  - vm_compute. reflexivity.
Defined.

(** The goroutine accepts, then the handler takes the mutex. *)
Definition sample_start : stopping := mkStopping sample_multi false StopStarted.
Definition sample_locked : stopping :=
  default sample_start
    (stop_run all_tracked [Forwarder (FwInside 0%nat (occurs PumpFrame)); Forwarder (FwAccept 0%nat (choose false)); Handler]
       sample_start).

Lemma stop_server_deadlocks_witness :
  exists s', stop_run all_tracked [Handler; Handler; Forwarder (FwInside 0%nat (occurs PumpFails))] sample_locked = Some s' /\
    st_mu s' = true /\ st_phase s' <> StopUnlocked.
Proof.
  eexists. split; [vm_compute; reflexivity|].
  apply (stop_server_deadlocks all_tracked 0%nat sample_locked
    [Handler; Handler; Forwarder (FwInside 0%nat (occurs PumpFails))]);
    [reflexivity|reflexivity|reflexivity|..|vm_compute; reflexivity].
  eexists _, _. vm_compute. reflexivity.
Defined.

End sample.
