(* ===== verification/DaemonNet.v ===== *)
(** * How the daemon finds its peers
      (cmd/daemon/relay.go, cmd/daemon/broker.go, cmd/daemon/p2p.go, cmd/daemon/p2plistener.go)

    The addresses of relays, the choice of a relay token when dialing, the
    broker client of the applications, which waits for a match on its punch
    socket, and the textual forms of keys and tokens. *)

From S2P Require Import Prelude GoErr Strconv Encoding Process Wire Pb Crypto Fingerprint Enigma Bolt Engine Storage NetIP BrokerCodec Broker Relay RelayToken.

(** ** strings.TrimSpace, TrimRight, TrimPrefix, LastIndex *)

(** The white space of [unicode.IsSpace], as UTF-8. *)
Definition white_space : list bytes :=
  map (fun b => [b]) [Byte.x09; Byte.x0a; Byte.x0b; Byte.x0c; Byte.x0d; Byte.x20] ++
  [[Byte.xc2; Byte.x85]; [Byte.xc2; Byte.xa0]; [Byte.xe1; Byte.x9a; Byte.x80]] ++
  map (fun b => [Byte.xe2; Byte.x80; b])
    [Byte.x80; Byte.x81; Byte.x82; Byte.x83; Byte.x84; Byte.x85; Byte.x86; Byte.x87; Byte.x88; Byte.x89; Byte.x8a;
     Byte.xa8; Byte.xa9; Byte.xaf] ++
  [[Byte.xe2; Byte.x81; Byte.x9f]; [Byte.xe3; Byte.x80; Byte.x80]].

(** The rest after a prefix. *)
Fixpoint cut_prefix (p b : bytes) : option bytes :=
  match p, b with
  | [], _ => Some b
  | x :: p, y :: b => if bool_decide (x = y) then cut_prefix p b else None
  | _ :: _, [] => None
  end.

(** Drop prefixes of [ps] as long as there are any; each drops a byte or more. *)
Fixpoint trim_front (fuel : nat) (ps : list bytes) (b : bytes) : bytes :=
  match fuel with
  | O => b
  | S f => match list_find (fun p => is_Some (cut_prefix p b)) ps with
           | Some (_, p) => trim_front f ps (drop (length p) b)
           | None => b
           end
  end.

Definition TrimSpace (b : bytes) : bytes :=
  let l := trim_front (length b) white_space b in
  reverse (trim_front (length l) (reverse <$> white_space) (reverse l)).

(** [strings.TrimRight(b, c)] for a one-byte set. *)
Fixpoint drop_front (c : byte) (b : bytes) : bytes :=
  match b with x :: r => if bool_decide (x = c) then drop_front c r else b | [] => [] end.

Definition TrimRight (b : bytes) (c : byte) : bytes := reverse (drop_front c (reverse b)).

(** [strings.LastIndex(b, sub)], as the parts before and after the occurrence. *)
Fixpoint cut_last (sub b : bytes) : option (bytes * bytes) :=
  match b with
  | [] => if bool_decide (sub = []) then Some ([], []) else None
  | x :: r =>
      match cut_last sub r with
      | Some (h, t) => Some (x :: h, t)
      | None => match cut_prefix sub b with Some t => Some ([], t) | None => None end
      end
  end.

(** ** Relay addresses (relay.go) *)

Definition insecure_flag : bytes := str "?insecure=".

Definition parseInsecureFlag (s : bytes) : bytes * option bool :=
  match cut_last insecure_flag s with
  | None => (s, None)
  | Some (host, val) =>
      if bool_decide (val = str "true") then (host, Some true)
      else if bool_decide (val = str "false") then (host, Some false)
      else (s, None)
  end.

Definition schemes : list bytes := map str ["tcp"; "ws"; "wss"; "tls"]%string.

Definition parseRelayAddr (addr : bytes) : bytes * bytes * option bool :=
  let addr := TrimSpace addr in
  match list_find (fun s => is_Some (cut_prefix (s ++ str "://") addr)) schemes with
  | Some (_, scheme) =>
      let '(host, o) := parseInsecureFlag (drop (length scheme + 3) addr) in (scheme, host, o)
  | None => let '(host, o) := parseInsecureFlag addr in (str "ws", host, o)
  end.

(** The loop of [dialRelayFuncMultiToken]: [dial] is the dial function of the
    scheme. *)
Fixpoint dial_tokens {A} (dial : bytes -> result A) (wrap : error -> error) (lastErr : error) (tokens : list bytes)
  : result A :=
  match tokens with
  | [] => Err lastErr
  | t :: tokens =>
      match dial t with
      | Ok conn => Ok conn
      | Err e => dial_tokens dial wrap (wrap e) tokens
      end
  end.

(** ** Keys and token lists (p2p.go) *)

Definition decodePeerPubKey (publicKeyB64 : bytes) : result bytes :=
  let cleaned := TrimSpace publicKeyB64 in
  match cleaned with
  | [] => Err (errorf "public key is required")
  | _ =>
      match DecodeString RawURLEncoding (TrimRight cleaned equals) with
      | None => Err (wrapf "decode base64" (errorf "illegal base64 data"))
      | Some pub => if blen pub =? 44 then Ok pub else Err (errorf "public key must be 44 bytes (PKIX)")
      end
  end.

Definition decodeTokenList (data : bytes) : list bytes :=
  if blen data <? 4 then []
  else
    let count := be_get (btake 4 data) in
    if (count =? 0) || (blen data <? 4 + count * ElemSize) then []
    else slices (Z.to_nat count) 4 data.

(** ** The broker client (broker.go) *)

Section broker_client.
Context `{Crypto}.

Record BrokerClient := mkBrokerClient {
  bc_key : bytes;
  bc_pub : bytes;
  bc_client : option (bytes * Client)     (* the address and the client for it *)
}.

Definition NewBrokerClient (seed : bytes) : result BrokerClient :=
  match x25519_GenerateKey seed with
  | None => Err (wrapf "generate x25519 key" (errorf "rand"))
  | Some k => Ok (mkBrokerClient k (x25519_PublicKey k) None)
  end.

(** [Client]: a client per address, always with the same key; [resolved] is the
    outcome of resolving the address. *)
Definition bc_Client (brokerAddr : bytes) (resolved : result unit) (b : BrokerClient) : result Client * BrokerClient :=
  let fresh :=
    match resolved with
    | Err e => (Err e, b)
    | Ok _ => let c := NewClientWithKey (bc_key b) in
              (Ok c, mkBrokerClient (bc_key b) (bc_pub b) (Some (brokerAddr, c)))
    end in
  match bc_client b with
  | Some (addr, c) => if bool_decide (addr = brokerAddr) then (Ok c, b) else fresh
  | None => fresh
  end.

Definition parseNotify (b : BrokerClient) (pkt : bytes) : result NotifyPayload :=
  match ParseNotify pkt with
  | Err e => Err e
  | Ok (brokerEphPub, nonce, sealed) =>
      match x25519_NewPublicKey brokerEphPub with
      | None => Err (errorf "crypto/ecdh: invalid public key")
      | Some brokerPub =>
          match x25519_ECDH (bc_key b) brokerPub with
          | None => Err (errorf "crypto/ecdh: bad X25519 remote ECDH input")
          | Some shared =>
              match OpenNotify (sha256_Sum shared) brokerEphPub nonce sealed with
              | Err e => Err e
              | Ok plaintext => ParseNotifyPayload plaintext
              end
          end
      end
  end.

(** One turn of the loop of [WaitMatch]: the context is done, the deadline cannot
    be set, the read times out, fails, or gives a datagram. *)
Inductive punch_event :=
  | PunchCancelled (e : error) | PunchDeadline (e : error) | PunchTimeout | PunchFails (e : error)
  | PunchRead (pkt : bytes).

(** The loop; [None] while it waits. *)
Fixpoint wait_loop (b : BrokerClient) (token : bytes) (evs : list punch_event) : option (result NotifyPayload) :=
  match evs with
  | [] => None
  | PunchCancelled e :: _ => Some (Err e)
  | PunchDeadline e :: _ => Some (Err (wrapf "set read deadline" e))
  | PunchTimeout :: evs => wait_loop b token evs
  | PunchFails e :: _ => Some (Err (wrapf "read notify" e))
  | PunchRead pkt :: evs =>
      match parseNotify b (take 1500 pkt) with
      | Err _ => wait_loop b token evs
      | Ok payload =>
          match np_Type payload with
          | NotifyPeerMatched =>
              if (0 <? blen token) && negb (bool_decide (np_Token payload = token)) then wait_loop b token evs
              else Some (Ok payload)
          | NotifyTokenAssigned => wait_loop b token evs
          end
      end
  end.

(** What the punch socket and the broker address do before the loop. *)
Record punch_setup := mkSetup {
  pu_open : result unit; pu_resolve : result unit; pu_echo : result (bytes * Z);
  pu_clear : result unit; pu_client : result unit; pu_write : result unit
}.

(** [WaitMatch]: the REGISTER it sends, if it gets that far, and its result. *)
Definition WaitMatch (b : BrokerClient) (brokerAddr token : bytes) (s : punch_setup) (evs : list punch_event)
  : option bytes * option (result NotifyPayload) :=
  match pu_open s with
  | Err e => (None, Some (Err (wrapf "open punch socket" e)))
  | Ok _ =>
  match pu_resolve s with
  | Err e => (None, Some (Err (wrapf "resolve broker" e)))
  | Ok _ =>
  match pu_echo s with
  | Err e => (None, Some (Err (wrapf "broker echo" e)))
  | Ok (claimIP, claimPort) =>
  match pu_clear s with
  | Err e => (None, Some (Err (wrapf "clear punch deadline" e)))
  | Ok _ =>
  match fst (bc_Client brokerAddr (pu_client s) b) with
  | Err e => (None, Some (Err (wrapf "broker client" e)))
  | Ok client =>
      let pkt := BuildRegister token (cl_pub client) claimIP claimPort in
      match pu_write s with
      | Err e => (Some pkt, Some (Err (wrapf "send register" e)))
      | Ok _ => (Some pkt, wait_loop b token evs)
      end
  end end end end end.

(** [readTokenAssigned] (p2plistener.go): a datagram counts only when it comes
    from the broker; both addresses are IPv4. *)
Fixpoint readTokenAssigned (b : BrokerClient) (broker : udp_addr) (evs : list (udp_addr * punch_event))
  : option (result bytes) :=
  match evs with
  | [] => None
  | (_, PunchCancelled e) :: _ => Some (Err e)
  | (_, PunchDeadline e) :: _ => Some (Err (wrapf "set deadline" e))
  | (_, PunchTimeout) :: evs => readTokenAssigned b broker evs
  | (_, PunchFails e) :: _ => Some (Err (wrapf "read notify" e))
  | (src, PunchRead pkt) :: evs =>
      if bool_decide (To4 (ua_IP src) = To4 (ua_IP broker)) && (ua_Port src =? ua_Port broker) then
        match parseNotify b (take 1500 pkt) with
        | Ok payload =>
            match np_Type payload with
            | NotifyTokenAssigned => Some (Ok (np_Token payload))
            | NotifyPeerMatched => readTokenAssigned b broker evs
            end
        | Err _ => readTokenAssigned b broker evs
        end
      else readTokenAssigned b broker evs
  end.

End broker_client.

(** ** Theorems: matches *)

Section matches.
Context `{Crypto} `{!CryptoOk _}.

(** The client's own decoder opens the same notifications, with the same
    content, as the one of the library. *)
Lemma parseNotify_decodeNotify b pkt p :
  parseNotify b pkt = Ok p <-> decodeNotify (NewClientWithKey (bc_key b)) pkt = Ok p.
Proof.
  unfold parseNotify, decodeNotify, openNotify. cbn [cl_key NewClientWithKey].
  destruct (ParseNotify pkt) as [[[pub nonce] sealed]|e]; [|done].
  destruct (x25519_NewPublicKey pub) as [bp|]; [|done].
  destruct (x25519_ECDH (bc_key b) bp) as [shared|]; [|done].
  by destruct (OpenNotify (sha256_Sum shared) pub nonce sealed).
Qed.

(** Events that the loop passes over: time-outs, datagrams that do not open, and
    notifications of other kinds or for other tokens. *)
Definition passed_over (b : BrokerClient) (token : bytes) (ev : punch_event) : Prop :=
  match ev with
  | PunchTimeout => True
  | PunchRead pkt =>
      forall p, parseNotify b (take 1500 pkt) = Ok p ->
        np_Type p = NotifyTokenAssigned \/ np_Token p <> token /\ token <> []
  | _ => False
  end.

Lemma wait_loop_passes b token evs evs' :
  Forall (passed_over b token) evs -> wait_loop b token (evs ++ evs') = wait_loop b token evs'.
Proof.
  induction 1 as [|ev evs Hev _ IH]; [done|]. destruct ev as [| | | |pkt]; try done. cbn [app wait_loop].
  cbn in Hev. destruct (parseNotify b (take 1500 pkt)) as [p|]; [|done].
  destruct (Hev p eq_refl) as [->|[Hn Ht]]; [done|]. destruct (np_Type p); [|done].
  rewrite bool_decide_eq_false_2 by done. destruct token as [|x token]; [done|].
  rewrite blen_cons. pose proof (blen_nonneg token). destruct (Z.ltb_spec 0 (1 + blen token)); [done|lia].
Qed.

Definition setup_ok (ip : bytes) (port : Z) : punch_setup :=
  mkSetup (Ok tt) (Ok tt) (Ok (ip, port)) (Ok tt) (Ok tt) (Ok tt).

(** A client that has a client of the library has one with its own key. *)
Definition client_wf (b : BrokerClient) : Prop :=
  bc_pub b = x25519_PublicKey (bc_key b) /\
  forall a c, bc_client b = Some (a, c) -> c = NewClientWithKey (bc_key b).

Lemma WaitMatch_setup b a token ip port evs :
  client_wf b ->
  WaitMatch b a token (setup_ok ip port) evs =
    (Some (BuildRegister token (x25519_PublicKey (bc_key b)) ip port), wait_loop b token evs).
Proof.
  intros [_ Hc]. unfold WaitMatch, setup_ok. cbn [pu_open pu_resolve pu_echo pu_clear pu_client pu_write].
  unfold bc_Client. destruct (bc_client b) as [[a' c]|] eqn:Eb; [|done].
  case_bool_decide; [|done]. cbn [fst]. by rewrite (Hc a' c eq_refl).
Qed.

Lemma wait_loop_match b token pkt p :
  decodeNotify (NewClientWithKey (bc_key b)) pkt = Ok p -> (length pkt <= 1500)%nat ->
  np_Type p = NotifyPeerMatched -> np_Token p = token -> wait_loop b token [PunchRead pkt] = Some (Ok p).
Proof.
  intros Hd Hl Hty Htok. cbn [wait_loop]. rewrite take_ge by done.
  apply parseNotify_decodeNotify in Hd. rewrite Hd, Hty, Htok, bool_decide_eq_true_2 by done.
  by rewrite andb_false_r.
Qed.


Lemma ParseNotifyPayload_token p payload : ParseNotifyPayload p = Ok payload -> blen (np_Token payload) = 16.
Proof.
  unfold ParseNotifyPayload, peerMatchedPayloadSize, tokenAssignedPayloadSize. destruct p as [|t p]; [done|].
  set (q := t :: p).
  assert (Hs : 21 <= blen q -> blen (bslice 1 17 q) = 16)
    by (intros Hq; unfold bslice; rewrite blen_btake; [done|]; rewrite blen_bdrop; lia).
  case_bool_decide; [|case_bool_decide; [|done]].
  - destruct (Z.ltb_spec (blen q) 55); [done|]. intros [= <-]. cbn. apply Hs. lia.
  - destruct (Z.ltb_spec (blen q) 21); [done|]. intros [= <-]. cbn. apply Hs. lia.
Qed.

Lemma long_token_waits b token evs payload : 16 < blen token -> wait_loop b token evs <> Some (Ok payload).
Proof.
  intros Ht. induction evs as [|ev evs IH]; [done|]. destruct ev as [| | | |pkt]; cbn [wait_loop]; try done.
  destruct (parseNotify b (take 1500 pkt)) as [p|] eqn:Ep; [|done]. destruct (np_Type p); [|done].
  assert (blen (np_Token p) = 16).
  { apply parseNotify_decodeNotify in Ep. unfold decodeNotify in Ep. destruct (openNotify _ _) as [q|]; [|done].
    by eapply ParseNotifyPayload_token. }
  rewrite bool_decide_eq_false_2 by (intros <-; lia). destruct (Z.ltb_spec 0 (blen token)); [done|lia].
Qed.

Lemma blen_hex b : blen (hex b) = 2 * blen b.
Proof. unfold hex. induction b as [|x b IH]; [done|]. cbn [map concat]. rewrite blen_app, IH, blen_cons. unfold blen. cbn. lia. Qed.

(** The tokens of a notification have 16 bytes.  [WaitMatch] compares them with
    the whole token it was given, so it never returns a match for a token that is
    derived from the keys of the peers (32 bytes), nor when it is given the
    hexadecimal text of a token in place of its bytes, which is what [handleDial]
    does. *)
Theorem p2p_match_lost b addr s evs payload :
  (forall k1 k2 token, TokenFromKeys k1 k2 = Ok token -> snd (WaitMatch b addr token s evs) <> Some (Ok payload)) /\
  (forall token, blen token = 16 -> snd (WaitMatch b addr (hex token) s evs) <> Some (Ok payload)).
Proof.
  assert (Hlong : forall token, 16 < blen token -> snd (WaitMatch b addr token s evs) <> Some (Ok payload)).
  { intros token Ht. unfold WaitMatch.
    destruct (pu_open s); [|done]. destruct (pu_resolve s); [|done]. destruct (pu_echo s) as [[ip port]|]; [|done].
    destruct (pu_clear s); [|done]. destruct (fst _); [|done]. destruct (pu_write s); [|done].
    by apply long_token_waits. }
  split.
  - intros k1 k2 token E. apply Hlong. unfold TokenFromKeys in E. destruct (_ || _); simplify_eq.
    rewrite sha256_len. lia.
  - intros token Ht. apply Hlong. rewrite blen_hex. lia.
Qed.

End matches.

(** ** Theorems: text *)

(** Every list the storage layer reads from a record, the applications' own
    decoder reads as well, and it reads back the tokens that were stored. *)
Theorem token_lists_agree :
  (forall data l, deserializeList data = Ok l -> decodeTokenList data = l) /\
  (forall l, Forall (fun t => blen t = ElemSize) l -> Z.of_nat (length l) < 2 ^ 32 ->
     decodeTokenList (serializeList l) = l).
Proof.
  assert (Hagree : forall data l, deserializeList data = Ok l -> decodeTokenList data = l).
  { intros data l. unfold deserializeList, decodeTokenList. destruct (Z.ltb_spec (blen data) 4); [by intros [= <-]|].
    destruct (Z.eqb_spec (4 + be_get (btake 4 data) * ElemSize) (blen data)) as [E|]; [|done]. cbn [negb].
    intros [= <-]. rewrite E. destruct (Z.ltb_spec (blen data) (blen data)); [lia|].
    destruct (Z.eqb_spec (be_get (btake 4 data)) 0) as [->|]; done. }
  split; [done|]. intros l Hl Hn. apply Hagree. by apply deserialize_serialize.
Qed.

(** Bytes between the space and the end of ASCII. *)
Definition visible (b : byte) : bool := (32 <? bval b) && (bval b <? 127).

Lemma white_space_heads :
  Forall (fun p => match p with y :: _ => visible y = false | [] => False end)
    (white_space ++ (reverse <$> white_space)).
Proof. repeat constructor. Qed.

Lemma trim_front_visible fuel ps x b :
  Forall (fun p => match p with y :: _ => visible y = false | [] => False end) ps -> visible x = true ->
  trim_front fuel ps (x :: b) = x :: b.
Proof.
  intros Hps Hx. destruct fuel; [done|]. cbn [trim_front].
  destruct (list_find _ ps) as [[i p]|] eqn:E; [|done]. exfalso.
  apply list_find_Some in E as (Ei & Hp & _). rewrite Forall_forall in Hps.
  specialize (Hps p (list_elem_of_lookup_2 _ _ _ Ei)). destruct p as [|y p]; [done|]. cbn [cut_prefix] in Hp.
  case_bool_decide; [congruence|]. by apply is_Some_None in Hp.
Qed.

Lemma TrimSpace_visible x y m :
  visible x = true -> visible y = true -> TrimSpace (x :: m ++ [y]) = x :: m ++ [y] /\ TrimSpace [x] = [x].
Proof.
  intros Hx Hy. pose proof white_space_heads as Hw. apply Forall_app in Hw as [H1 H2].
  unfold TrimSpace. rewrite !(trim_front_visible _ white_space) by done. cbv zeta.
  change (reverse [x]) with [x]. rewrite (trim_front_visible _ _ x) by done. split; [|done].
  rewrite reverse_cons, reverse_app. cbn [reverse rev_append app].
  change (reverse [y]) with [y]. cbn [app].
  rewrite trim_front_visible by done. rewrite reverse_cons, reverse_app, reverse_involutive.
  by change (reverse [x]) with [x].
Qed.

Lemma TrimSpace_all_visible b : Forall (fun x => visible x = true) b -> TrimSpace b = b.
Proof.
  destruct b as [|x b]; [done|]. intros Hb. apply Forall_cons in Hb as [Hx Hb].
  destruct b as [|y m _] using rev_ind; [by apply (TrimSpace_visible x x [])|].
  apply Forall_app in Hb as [_ Hy]. rewrite Forall_singleton in Hy.
  by apply (TrimSpace_visible x y m).
Qed.

(** The bytes of base64 without padding. *)
Definition url_char (x : byte) : Prop := visible x = true /\ x <> equals.

Lemma sextet_url n : 0 <= n < 64 -> url_char (sextet RawURLEncoding n).
Proof.
  intros Hn. assert (Hb : forall z, 32 < z < 127 -> z <> 61 -> url_char (bof z)).
  { intros z Hz Hne. assert (Hv : bval (bof z) = z) by (rewrite bval_bof; apply Z.mod_small; lia).
    split; [unfold visible; rewrite Hv; lia|]. intros E. apply (f_equal bval) in E. rewrite Hv in E.
    change (bval equals) with 61 in E. lia. }
  unfold sextet. destruct (Z.ltb_spec n 26); [apply Hb; lia|]. destruct (Z.ltb_spec n 52); [apply Hb; lia|].
  destruct (Z.ltb_spec n 62); [apply Hb; lia|]. by destruct (n =? 62).
Qed.

Lemma Base64_url b : Forall url_char (Base64 b).
Proof.
  unfold Base64. induction b as [b IH] using (induction_ltof1 _ (@length byte)). unfold ltof in IH.
  destruct b as [|x [|y [|z r]]]; [done| | |]; cbn [EncodeToString].
  - destruct (quantum_split (bval x * 65536) x Byte.x00 Byte.x00) as (H1 & H2 & _);
      [change (bval Byte.x00) with 0; lia|]. repeat constructor; by apply sextet_url.
  - destruct (quantum_split (bval x * 65536 + bval y * 256) x y Byte.x00) as (H1 & H2 & H3 & _);
      [change (bval Byte.x00) with 0; lia|]. repeat constructor; by apply sextet_url.
  - destruct (quantum_split _ x y z eq_refl) as (H1 & H2 & H3 & H4 & _).
    apply Forall_app. split; [|apply IH; cbn [length]; lia]. repeat constructor; by apply sextet_url.
Qed.

Lemma TrimRight_plain b c : c ∉ b -> TrimRight b c = b.
Proof.
  intros Hc. unfold TrimRight. replace (drop_front c (reverse b)) with (reverse b); [by rewrite reverse_involutive|].
  destruct (reverse b) as [|x r] eqn:E; [done|]. cbn. rewrite bool_decide_eq_false_2; [done|].
  intros ->. apply Hc. apply elem_of_reverse. rewrite E. set_solver.
Qed.

(** The text of a public key is read back as the key, and nothing but 44-byte
    keys is accepted. *)
Theorem peer_key_text :
  (forall pub, blen pub = 44 -> decodePeerPubKey (Base64 pub) = Ok pub) /\
  (forall text pub, decodePeerPubKey text = Ok pub -> blen pub = 44).
Proof.
  split.
  - intros pub Hp. unfold decodePeerPubKey. pose proof (Base64_url pub) as Hu.
    rewrite TrimSpace_all_visible by (eapply Forall_impl; [exact Hu|]; by intros ? []).
    rewrite TrimRight_plain.
    2: { intros Hin. rewrite Forall_forall in Hu. by destruct (Hu _ Hin). }
    unfold Base64 at 2. rewrite decode_encode by apply RawURLEncoding_ok. rewrite Hp.
    destruct (Base64 pub) as [|c r] eqn:E; [|done]. destruct pub as [|x [|y [|z r]]]; done.
  - intros text pub. unfold decodePeerPubKey. destruct (TrimSpace text) as [|x r]; [done|].
    destruct (DecodeString _ _) as [p|]; [|done]. destruct (Z.eqb_spec (blen p) 44); [|done]. by intros [= <-].
Qed.

Lemma cut_last_app sub h b r : cut_last sub b = Some r -> cut_last sub (h ++ b) = Some (h ++ fst r, snd r).
Proof. intros E. induction h as [|x h IH]; cbn [app cut_last]; [by destruct r|]. by rewrite IH. Qed.

Lemma cut_prefix_app p b : cut_prefix p (p ++ b) = Some b.
Proof. induction p as [|x p IH]; [done|]. cbn [app cut_prefix]. by rewrite bool_decide_eq_true_2. Qed.

Definition flag_text (o : option bool) : bytes :=
  match o with None => [] | Some true => str "?insecure=true" | Some false => str "?insecure=false" end.

(** A relay address is taken apart as it is put together: scheme, host and
    certificate flag. *)
Theorem relay_address_roundtrip scheme host o :
  scheme ∈ schemes -> cut_last insecure_flag host = None ->
  let text := scheme ++ str "://" ++ host ++ flag_text o in
  TrimSpace text = text -> parseRelayAddr text = (scheme, host, o).
Proof.
  intros Hs Hh text Ht. unfold parseRelayAddr. rewrite Ht.
  assert (Hf : parseInsecureFlag (host ++ flag_text o) = (host, o)).
  { unfold parseInsecureFlag. destruct o as [[]|]; cbn [flag_text].
    - rewrite (cut_last_app _ _ _ ([], str "true")) by reflexivity. cbn [fst snd]. by rewrite app_nil_r.
    - rewrite (cut_last_app _ _ _ ([], str "false")) by reflexivity. cbn [fst snd]. by rewrite app_nil_r.
    - by rewrite app_nil_r, Hh. }
  apply list_elem_of_lookup in Hs as [i Ei].
  rewrite (proj2 (list_find_Some _ schemes i scheme)).
  - unfold text. rewrite app_assoc. replace (length scheme + 3)%nat with (length (scheme ++ str "://"))
      by (rewrite length_app; done). by rewrite drop_app_length, Hf.
  - split; [done|]. split.
    + unfold text. rewrite app_assoc. by rewrite cut_prefix_app.
    + intros j s' Hj Hlt Hs'.
      destruct i as [|[|[|[|i]]]]; [| | | |done]; injection Ei as <-;
        (destruct j as [|[|[|j]]]; try lia; injection Hj as <-); by apply is_Some_None in Hs'.
Qed.

(** ** Witnesses *)

Section sample.
Existing Instance toy_crypto.

Definition client_A : BrokerClient := mkBrokerClient key_A (x25519_PublicKey key_A) None.
Definition client_B : BrokerClient :=
  mkBrokerClient key_B (x25519_PublicKey key_B) (Some (str "b:1", NewClientWithKey key_B)).


Lemma relay_address_roundtrip_witness :
  parseRelayAddr (str "wss://relay.example:443?insecure=true") = (str "wss", str "relay.example:443", Some true).
Proof.
  apply (relay_address_roundtrip (str "wss") (str "relay.example:443") (Some true)).
  - apply (bool_decide_unpack _). vm_compute. exact I.
  - reflexivity.
  - vm_compute. reflexivity.
Defined.

End sample.
