(* ===== verification/Daemon.v ===== *)
(** * The daemon: state, output and the commands that answer from its state
      (cmd/daemon/daemon.go, history.go, messaging.go, network.go, main.go, param.go)

    The daemon reads commands from its input and writes events to its output.  Its
    state is [Daemon]; [dm] is the state monad of its handlers, in which [None] is
    a run-time panic or a call that never returns.  Sessions are objects that
    several goroutines share, so the map of sessions holds pointers into [d_heap].
    The storage is the one of [Storage].

    What a handler gets from outside is an argument: the outcome of decoding its
    parameters, of opening a database, of the transport, of the keychain, and of
    the file system.  Texts are kept as pieces, an error as a value. *)

From S2P Require Import Prelude GoErr Strconv Encoding Process Wire Pb Route Version Crypto Fingerprint Enigma Serde Transport Bolt Engine Storage DaemonNet NetIP BrokerCodec.

(** ** Data *)

Inductive piece := P (s : string) | PB (b : bytes) | PE (e : error).
Definition text := list piece.

(** The values in an event. *)
Inductive value :=
  | VNull | VStr (b : bytes) | VText (t : text) | VInt (z : Z) | VBool (b : bool) | VTime (t : Z)
  | VList (l : list value) | VMap (l : list (string * value)).

Inductive Evt :=
  | EvtReady | EvtServerStarted | EvtServerStopped | EvtServerRunning | EvtServerStartCancel
  | EvtSessionStarted | EvtSessionClosed | EvtSessionUpdated | EvtMessageReceived | EvtMessageSent
  | EvtStatusChanged | EvtFingerprintChange | EvtVersionWarning | EvtRelayToken | EvtRelayTokens
  | EvtP2PTokens | EvtVerifyPeer | EvtHistoryUpdated | EvtHistoryLoaded | EvtLocalNameChanged
  | EvtError | EvtResponse | EvtLogEntry.

#[global] Instance Evt_eq_decision : EqDecision Evt.
Proof. solve_decision. Defined.

Record Event := mkEvent { ev_Evt : Evt; ev_ID : bytes; ev_Data : value }.

Inductive VerificationMode := VerificationModeStrict | VerificationModeQuick | VerificationModeOther (n : Z).
Definition mode_of (n : Z) : VerificationMode :=
  if n =? 0 then VerificationModeStrict else if n =? 1 then VerificationModeQuick else VerificationModeOther n.
Definition mode_number (m : VerificationMode) : Z :=
  match m with VerificationModeStrict => 0 | VerificationModeQuick => 1 | VerificationModeOther n => n end.

Inductive ConnectionStatus :=
  | StatusDisconnected | StatusConnecting | StatusConnected | StatusVerifying | StatusError.

Definition status_text (s : ConnectionStatus) : bytes :=
  str (match s with
       | StatusDisconnected => "disconnected" | StatusConnecting => "connecting" | StatusConnected => "connected"
       | StatusVerifying => "verifying" | StatusError => "error"
       end)%string.

Record LogEntryInfo := mkLogEntry { le_Timestamp : Z; le_Level : string; le_Message : text }.

Record MessageInfo := mkMessage { mi_Text : bytes; mi_Timestamp : Z; mi_IsLocal : bool }.

Record historySession := mkHist {
  hs_ID : bytes; hs_Name : bytes; hs_Loaded : bool; hs_MessageCount : Z; hs_FirstMessage : Z; hs_LastMessage : Z
}.

(** Channels that are only closed are booleans; [keepAliveDone] is replaced when
    a session reconnects, so it has a number. *)
Record liveSession := mkLive {
  ls_ID : bytes; ls_PeerName : bytes; ls_RemoteVersion : bytes; ls_RemoteAddr : bytes;
  ls_Transport : nat;
  ls_Messages : list MessageInfo;
  ls_LastActivity : Z;
  ls_ReceiveDone : bool;
  ls_IsServer : bool; ls_TransportType : bytes; ls_SessionTTL : Z; ls_SessionStartedAt : Z;
  ls_pingFailures : Z;
  ls_pongCh : list bytes;              (* of capacity 1 *)
  ls_reconnectFn : bool;
  ls_cancelled : bool;                 (* reconnectCtx *)
  ls_keepAliveDone : nat
}.

Record pendingVerification := mkPending { pv_result : list (option error); pv_peerID : bytes; pv_hex : bytes }.

Record relayToken := mkRelayToken {
  rt_Token : bytes; rt_Consumed : bool; rt_TTL : Z; rt_SessionTTL : Z; rt_ExpiresAt : Z; rt_Mode : bytes;
  rt_listener : nat; rt_sessionID : bytes
}.

Record p2pToken := mkP2PToken {
  pt_Token : bytes; pt_Consumed : bool; pt_TTL : Z; pt_ExpiresAt : Z; pt_Mode : bytes; pt_PeerPubB64 : bytes;
  pt_brokerAddr : bytes
}.

Section daemon.
Context `{Crypto} `{ProtoRuntime} `{Bolt}.

Record Daemon := mkDaemon {
  d_sessions : gmap bytes nat;
  d_heap : list liveSession;
  d_histSessions : list historySession;
  d_server : option nat;
  d_pubKey : bytes;
  d_myName : bytes;
  d_dbPath : bytes;
  d_verifMode : VerificationMode;
  d_incognito : bool;
  d_verifRequests : gmap Z pendingVerification;
  d_verifIDCounter : Z;
  d_serverAddr : bytes; d_serverTransport : bytes; d_serverRelayAddr : bytes; d_serverName : bytes; d_serverPassword : bytes;
  d_relayAddr : bytes; d_relayPassword : bytes; d_relaySessionTTL : Z;
  d_relayTokens : list relayToken;
  d_relayListeners : bool;
  d_p2pTokens : list p2pToken;
  d_startCancel : bool;
  d_status : ConnectionStatus; d_statusMsg : text;
  d_db : option store;
  d_logEntries : list LogEntryInfo;
  d_logBufferSize : nat;
  d_logLevel : bytes;
  d_fingerprintFmt : bytes;
  d_clock : nat -> Z; d_tpos : nat;
  d_out : list Event
}.

Definition set_sessions (x0 : gmap bytes nat) (d : Daemon) : Daemon :=
  mkDaemon x0 (d_heap d) (d_histSessions d) (d_server d) (d_pubKey d) (d_myName d) (d_dbPath d)
    (d_verifMode d) (d_incognito d) (d_verifRequests d) (d_verifIDCounter d) (d_serverAddr d)
    (d_serverTransport d) (d_serverRelayAddr d) (d_serverName d) (d_serverPassword d) (d_relayAddr d)
    (d_relayPassword d) (d_relaySessionTTL d) (d_relayTokens d) (d_relayListeners d) (d_p2pTokens d) (d_startCancel d)
    (d_status d) (d_statusMsg d) (d_db d) (d_logEntries d) (d_logBufferSize d) (d_logLevel d)
    (d_fingerprintFmt d) (d_clock d) (d_tpos d) (d_out d).

Definition set_heap (x0 : list liveSession) (d : Daemon) : Daemon :=
  mkDaemon (d_sessions d) x0 (d_histSessions d) (d_server d) (d_pubKey d) (d_myName d) (d_dbPath d)
    (d_verifMode d) (d_incognito d) (d_verifRequests d) (d_verifIDCounter d) (d_serverAddr d)
    (d_serverTransport d) (d_serverRelayAddr d) (d_serverName d) (d_serverPassword d) (d_relayAddr d)
    (d_relayPassword d) (d_relaySessionTTL d) (d_relayTokens d) (d_relayListeners d) (d_p2pTokens d) (d_startCancel d)
    (d_status d) (d_statusMsg d) (d_db d) (d_logEntries d) (d_logBufferSize d) (d_logLevel d)
    (d_fingerprintFmt d) (d_clock d) (d_tpos d) (d_out d).

Definition set_hist (x0 : list historySession) (d : Daemon) : Daemon :=
  mkDaemon (d_sessions d) (d_heap d) x0 (d_server d) (d_pubKey d) (d_myName d) (d_dbPath d) (d_verifMode d)
    (d_incognito d) (d_verifRequests d) (d_verifIDCounter d) (d_serverAddr d) (d_serverTransport d)
    (d_serverRelayAddr d) (d_serverName d) (d_serverPassword d) (d_relayAddr d) (d_relayPassword d)
    (d_relaySessionTTL d) (d_relayTokens d) (d_relayListeners d) (d_p2pTokens d) (d_startCancel d) (d_status d)
    (d_statusMsg d) (d_db d) (d_logEntries d) (d_logBufferSize d) (d_logLevel d) (d_fingerprintFmt d)
    (d_clock d) (d_tpos d) (d_out d).

Definition set_server (x0 : option nat) (d : Daemon) : Daemon :=
  mkDaemon (d_sessions d) (d_heap d) (d_histSessions d) x0 (d_pubKey d) (d_myName d) (d_dbPath d)
    (d_verifMode d) (d_incognito d) (d_verifRequests d) (d_verifIDCounter d) (d_serverAddr d)
    (d_serverTransport d) (d_serverRelayAddr d) (d_serverName d) (d_serverPassword d) (d_relayAddr d)
    (d_relayPassword d) (d_relaySessionTTL d) (d_relayTokens d) (d_relayListeners d) (d_p2pTokens d) (d_startCancel d)
    (d_status d) (d_statusMsg d) (d_db d) (d_logEntries d) (d_logBufferSize d) (d_logLevel d)
    (d_fingerprintFmt d) (d_clock d) (d_tpos d) (d_out d).

Definition set_pubKey (x0 : bytes) (d : Daemon) : Daemon :=
  mkDaemon (d_sessions d) (d_heap d) (d_histSessions d) (d_server d) x0 (d_myName d) (d_dbPath d)
    (d_verifMode d) (d_incognito d) (d_verifRequests d) (d_verifIDCounter d) (d_serverAddr d)
    (d_serverTransport d) (d_serverRelayAddr d) (d_serverName d) (d_serverPassword d) (d_relayAddr d)
    (d_relayPassword d) (d_relaySessionTTL d) (d_relayTokens d) (d_relayListeners d) (d_p2pTokens d) (d_startCancel d)
    (d_status d) (d_statusMsg d) (d_db d) (d_logEntries d) (d_logBufferSize d) (d_logLevel d)
    (d_fingerprintFmt d) (d_clock d) (d_tpos d) (d_out d).

Definition set_myName (x0 : bytes) (d : Daemon) : Daemon :=
  mkDaemon (d_sessions d) (d_heap d) (d_histSessions d) (d_server d) (d_pubKey d) x0 (d_dbPath d)
    (d_verifMode d) (d_incognito d) (d_verifRequests d) (d_verifIDCounter d) (d_serverAddr d)
    (d_serverTransport d) (d_serverRelayAddr d) (d_serverName d) (d_serverPassword d) (d_relayAddr d)
    (d_relayPassword d) (d_relaySessionTTL d) (d_relayTokens d) (d_relayListeners d) (d_p2pTokens d) (d_startCancel d)
    (d_status d) (d_statusMsg d) (d_db d) (d_logEntries d) (d_logBufferSize d) (d_logLevel d)
    (d_fingerprintFmt d) (d_clock d) (d_tpos d) (d_out d).

Definition set_dbPath (x0 : bytes) (d : Daemon) : Daemon :=
  mkDaemon (d_sessions d) (d_heap d) (d_histSessions d) (d_server d) (d_pubKey d) (d_myName d) x0
    (d_verifMode d) (d_incognito d) (d_verifRequests d) (d_verifIDCounter d) (d_serverAddr d)
    (d_serverTransport d) (d_serverRelayAddr d) (d_serverName d) (d_serverPassword d) (d_relayAddr d)
    (d_relayPassword d) (d_relaySessionTTL d) (d_relayTokens d) (d_relayListeners d) (d_p2pTokens d) (d_startCancel d)
    (d_status d) (d_statusMsg d) (d_db d) (d_logEntries d) (d_logBufferSize d) (d_logLevel d)
    (d_fingerprintFmt d) (d_clock d) (d_tpos d) (d_out d).

Definition set_verifMode (x0 : VerificationMode) (d : Daemon) : Daemon :=
  mkDaemon (d_sessions d) (d_heap d) (d_histSessions d) (d_server d) (d_pubKey d) (d_myName d) (d_dbPath d)
    x0 (d_incognito d) (d_verifRequests d) (d_verifIDCounter d) (d_serverAddr d) (d_serverTransport d)
    (d_serverRelayAddr d) (d_serverName d) (d_serverPassword d) (d_relayAddr d) (d_relayPassword d)
    (d_relaySessionTTL d) (d_relayTokens d) (d_relayListeners d) (d_p2pTokens d) (d_startCancel d) (d_status d)
    (d_statusMsg d) (d_db d) (d_logEntries d) (d_logBufferSize d) (d_logLevel d) (d_fingerprintFmt d)
    (d_clock d) (d_tpos d) (d_out d).

Definition set_incognito (x0 : bool) (d : Daemon) : Daemon :=
  mkDaemon (d_sessions d) (d_heap d) (d_histSessions d) (d_server d) (d_pubKey d) (d_myName d) (d_dbPath d)
    (d_verifMode d) x0 (d_verifRequests d) (d_verifIDCounter d) (d_serverAddr d) (d_serverTransport d)
    (d_serverRelayAddr d) (d_serverName d) (d_serverPassword d) (d_relayAddr d) (d_relayPassword d)
    (d_relaySessionTTL d) (d_relayTokens d) (d_relayListeners d) (d_p2pTokens d) (d_startCancel d) (d_status d)
    (d_statusMsg d) (d_db d) (d_logEntries d) (d_logBufferSize d) (d_logLevel d) (d_fingerprintFmt d)
    (d_clock d) (d_tpos d) (d_out d).

Definition set_verif (x0 : gmap Z pendingVerification) (x1 : Z) (d : Daemon) : Daemon :=
  mkDaemon (d_sessions d) (d_heap d) (d_histSessions d) (d_server d) (d_pubKey d) (d_myName d) (d_dbPath d)
    (d_verifMode d) (d_incognito d) x0 x1 (d_serverAddr d) (d_serverTransport d) (d_serverRelayAddr d)
    (d_serverName d) (d_serverPassword d) (d_relayAddr d) (d_relayPassword d) (d_relaySessionTTL d)
    (d_relayTokens d) (d_relayListeners d) (d_p2pTokens d) (d_startCancel d) (d_status d) (d_statusMsg d) (d_db d)
    (d_logEntries d) (d_logBufferSize d) (d_logLevel d) (d_fingerprintFmt d) (d_clock d) (d_tpos d)
    (d_out d).

Definition set_serverParams (x0 : bytes) (x1 : bytes) (x2 : bytes) (x3 : bytes) (x4 : bytes) (d : Daemon) : Daemon :=
  mkDaemon (d_sessions d) (d_heap d) (d_histSessions d) (d_server d) (d_pubKey d) (d_myName d) (d_dbPath d)
    (d_verifMode d) (d_incognito d) (d_verifRequests d) (d_verifIDCounter d) x0 x1 x2 x3 x4 (d_relayAddr d)
    (d_relayPassword d) (d_relaySessionTTL d) (d_relayTokens d) (d_relayListeners d) (d_p2pTokens d) (d_startCancel d)
    (d_status d) (d_statusMsg d) (d_db d) (d_logEntries d) (d_logBufferSize d) (d_logLevel d)
    (d_fingerprintFmt d) (d_clock d) (d_tpos d) (d_out d).

Definition set_relay (x0 : bytes) (x1 : bytes) (x2 : Z) (x3 : bool) (d : Daemon) : Daemon :=
  mkDaemon (d_sessions d) (d_heap d) (d_histSessions d) (d_server d) (d_pubKey d) (d_myName d) (d_dbPath d)
    (d_verifMode d) (d_incognito d) (d_verifRequests d) (d_verifIDCounter d) (d_serverAddr d)
    (d_serverTransport d) (d_serverRelayAddr d) (d_serverName d) (d_serverPassword d) x0 x1 x2
    (d_relayTokens d) x3 (d_p2pTokens d) (d_startCancel d) (d_status d) (d_statusMsg d) (d_db d) (d_logEntries d)
    (d_logBufferSize d) (d_logLevel d) (d_fingerprintFmt d) (d_clock d) (d_tpos d) (d_out d).

Definition set_relayTokens (x0 : list relayToken) (d : Daemon) : Daemon :=
  mkDaemon (d_sessions d) (d_heap d) (d_histSessions d) (d_server d) (d_pubKey d) (d_myName d) (d_dbPath d)
    (d_verifMode d) (d_incognito d) (d_verifRequests d) (d_verifIDCounter d) (d_serverAddr d)
    (d_serverTransport d) (d_serverRelayAddr d) (d_serverName d) (d_serverPassword d) (d_relayAddr d)
    (d_relayPassword d) (d_relaySessionTTL d) x0 (d_relayListeners d) (d_p2pTokens d) (d_startCancel d) (d_status d)
    (d_statusMsg d) (d_db d) (d_logEntries d) (d_logBufferSize d) (d_logLevel d) (d_fingerprintFmt d)
    (d_clock d) (d_tpos d) (d_out d).

Definition set_p2pTokens (x0 : list p2pToken) (d : Daemon) : Daemon :=
  mkDaemon (d_sessions d) (d_heap d) (d_histSessions d) (d_server d) (d_pubKey d) (d_myName d) (d_dbPath d)
    (d_verifMode d) (d_incognito d) (d_verifRequests d) (d_verifIDCounter d) (d_serverAddr d)
    (d_serverTransport d) (d_serverRelayAddr d) (d_serverName d) (d_serverPassword d) (d_relayAddr d)
    (d_relayPassword d) (d_relaySessionTTL d) (d_relayTokens d) (d_relayListeners d) x0 (d_startCancel d) (d_status d)
    (d_statusMsg d) (d_db d) (d_logEntries d) (d_logBufferSize d) (d_logLevel d) (d_fingerprintFmt d)
    (d_clock d) (d_tpos d) (d_out d).

Definition set_startCancel (x0 : bool) (d : Daemon) : Daemon :=
  mkDaemon (d_sessions d) (d_heap d) (d_histSessions d) (d_server d) (d_pubKey d) (d_myName d) (d_dbPath d)
    (d_verifMode d) (d_incognito d) (d_verifRequests d) (d_verifIDCounter d) (d_serverAddr d)
    (d_serverTransport d) (d_serverRelayAddr d) (d_serverName d) (d_serverPassword d) (d_relayAddr d)
    (d_relayPassword d) (d_relaySessionTTL d) (d_relayTokens d) (d_relayListeners d) (d_p2pTokens d) x0 (d_status d)
    (d_statusMsg d) (d_db d) (d_logEntries d) (d_logBufferSize d) (d_logLevel d) (d_fingerprintFmt d)
    (d_clock d) (d_tpos d) (d_out d).

Definition set_status_ (x0 : ConnectionStatus) (x1 : text) (d : Daemon) : Daemon :=
  mkDaemon (d_sessions d) (d_heap d) (d_histSessions d) (d_server d) (d_pubKey d) (d_myName d) (d_dbPath d)
    (d_verifMode d) (d_incognito d) (d_verifRequests d) (d_verifIDCounter d) (d_serverAddr d)
    (d_serverTransport d) (d_serverRelayAddr d) (d_serverName d) (d_serverPassword d) (d_relayAddr d)
    (d_relayPassword d) (d_relaySessionTTL d) (d_relayTokens d) (d_relayListeners d) (d_p2pTokens d) (d_startCancel d) x0 x1
    (d_db d) (d_logEntries d) (d_logBufferSize d) (d_logLevel d) (d_fingerprintFmt d) (d_clock d) (d_tpos d)
    (d_out d).

Definition set_daemon_db (x0 : option store) (d : Daemon) : Daemon :=
  mkDaemon (d_sessions d) (d_heap d) (d_histSessions d) (d_server d) (d_pubKey d) (d_myName d) (d_dbPath d)
    (d_verifMode d) (d_incognito d) (d_verifRequests d) (d_verifIDCounter d) (d_serverAddr d)
    (d_serverTransport d) (d_serverRelayAddr d) (d_serverName d) (d_serverPassword d) (d_relayAddr d)
    (d_relayPassword d) (d_relaySessionTTL d) (d_relayTokens d) (d_relayListeners d) (d_p2pTokens d) (d_startCancel d)
    (d_status d) (d_statusMsg d) x0 (d_logEntries d) (d_logBufferSize d) (d_logLevel d) (d_fingerprintFmt d)
    (d_clock d) (d_tpos d) (d_out d).

Definition set_log (x0 : list LogEntryInfo) (d : Daemon) : Daemon :=
  mkDaemon (d_sessions d) (d_heap d) (d_histSessions d) (d_server d) (d_pubKey d) (d_myName d) (d_dbPath d)
    (d_verifMode d) (d_incognito d) (d_verifRequests d) (d_verifIDCounter d) (d_serverAddr d)
    (d_serverTransport d) (d_serverRelayAddr d) (d_serverName d) (d_serverPassword d) (d_relayAddr d)
    (d_relayPassword d) (d_relaySessionTTL d) (d_relayTokens d) (d_relayListeners d) (d_p2pTokens d) (d_startCancel d)
    (d_status d) (d_statusMsg d) (d_db d) x0 (d_logBufferSize d) (d_logLevel d) (d_fingerprintFmt d)
    (d_clock d) (d_tpos d) (d_out d).

Definition set_logLevel (x0 : bytes) (d : Daemon) : Daemon :=
  mkDaemon (d_sessions d) (d_heap d) (d_histSessions d) (d_server d) (d_pubKey d) (d_myName d) (d_dbPath d)
    (d_verifMode d) (d_incognito d) (d_verifRequests d) (d_verifIDCounter d) (d_serverAddr d)
    (d_serverTransport d) (d_serverRelayAddr d) (d_serverName d) (d_serverPassword d) (d_relayAddr d)
    (d_relayPassword d) (d_relaySessionTTL d) (d_relayTokens d) (d_relayListeners d) (d_p2pTokens d) (d_startCancel d)
    (d_status d) (d_statusMsg d) (d_db d) (d_logEntries d) (d_logBufferSize d) x0 (d_fingerprintFmt d)
    (d_clock d) (d_tpos d) (d_out d).

Definition set_fmt (x0 : bytes) (d : Daemon) : Daemon :=
  mkDaemon (d_sessions d) (d_heap d) (d_histSessions d) (d_server d) (d_pubKey d) (d_myName d) (d_dbPath d)
    (d_verifMode d) (d_incognito d) (d_verifRequests d) (d_verifIDCounter d) (d_serverAddr d)
    (d_serverTransport d) (d_serverRelayAddr d) (d_serverName d) (d_serverPassword d) (d_relayAddr d)
    (d_relayPassword d) (d_relaySessionTTL d) (d_relayTokens d) (d_relayListeners d) (d_p2pTokens d) (d_startCancel d)
    (d_status d) (d_statusMsg d) (d_db d) (d_logEntries d) (d_logBufferSize d) (d_logLevel d) x0 (d_clock d)
    (d_tpos d) (d_out d).

Definition set_tpos (x0 : nat) (d : Daemon) : Daemon :=
  mkDaemon (d_sessions d) (d_heap d) (d_histSessions d) (d_server d) (d_pubKey d) (d_myName d) (d_dbPath d)
    (d_verifMode d) (d_incognito d) (d_verifRequests d) (d_verifIDCounter d) (d_serverAddr d)
    (d_serverTransport d) (d_serverRelayAddr d) (d_serverName d) (d_serverPassword d) (d_relayAddr d)
    (d_relayPassword d) (d_relaySessionTTL d) (d_relayTokens d) (d_relayListeners d) (d_p2pTokens d) (d_startCancel d)
    (d_status d) (d_statusMsg d) (d_db d) (d_logEntries d) (d_logBufferSize d) (d_logLevel d)
    (d_fingerprintFmt d) (d_clock d) x0 (d_out d).

Definition set_out (x0 : list Event) (d : Daemon) : Daemon :=
  mkDaemon (d_sessions d) (d_heap d) (d_histSessions d) (d_server d) (d_pubKey d) (d_myName d) (d_dbPath d)
    (d_verifMode d) (d_incognito d) (d_verifRequests d) (d_verifIDCounter d) (d_serverAddr d)
    (d_serverTransport d) (d_serverRelayAddr d) (d_serverName d) (d_serverPassword d) (d_relayAddr d)
    (d_relayPassword d) (d_relaySessionTTL d) (d_relayTokens d) (d_relayListeners d) (d_p2pTokens d) (d_startCancel d)
    (d_status d) (d_statusMsg d) (d_db d) (d_logEntries d) (d_logBufferSize d) (d_logLevel d)
    (d_fingerprintFmt d) (d_clock d) (d_tpos d) x0.

(** ** Handlers *)

Definition dm (A : Type) : Type := Daemon -> option (A * Daemon).
Definition dret {A} (a : A) : dm A := fun d => Some (a, d).
Definition dbind {A B} (m : dm A) (k : A -> dm B) : dm B := fun d =>
  match m d with Some (a, d') => k a d' | None => None end.
Definition dget {A} (f : Daemon -> A) : dm A := fun d => Some (f d, d).
Definition dset (f : Daemon -> Daemon) : dm unit := fun d => Some (tt, f d).

End daemon.

Declare Scope dm_scope.
Delimit Scope dm_scope with dm.
Notation "'let!' x := m 'in' k" := (dbind m (fun x => k))
  (at level 100, x name, m at level 200, k at level 200) : dm_scope.
Notation "m ;! k" := (dbind m (fun _ => k)) (at level 95, right associativity) : dm_scope.
#[local] Open Scope dm_scope.

Section handlers.
Context `{Crypto} `{ProtoRuntime} `{Bolt}.

(** [NewDaemon]; the clock is the one of the machine. *)
Definition NewDaemon (clock : nat -> Z) : Daemon :=
  mkDaemon ∅ [] [] None [] [] [] VerificationModeQuick false ∅ 0 [] [] [] [] [] [] [] 0 [] false [] false
    StatusDisconnected [P "Not connected"] None [] 200 (str "INFO") (str "hex") clock 0 [].

Definition time_Now : dm Z := fun d => Some (d_clock d (d_tpos d), set_tpos (S (d_tpos d)) d).

(** daemon.go *)

Definition emit (evt : Evt) (id : bytes) (data : value) : dm unit :=
  dset (fun d => set_out (d_out d ++ [mkEvent evt id data]) d).

Definition emitError (id : bytes) (msg : text) : dm unit := emit EvtError id (VMap [("error"%string, VText msg)]).

Definition log_value (e : LogEntryInfo) : value :=
  VMap [("timestamp"%string, VTime (le_Timestamp e)); ("level"%string, VStr (str (le_Level e)));
        ("message"%string, VText (le_Message e))].

(** [append], then the last [logBufferSize] entries. *)
Definition push_log (size : nat) (l : list LogEntryInfo) (e : LogEntryInfo) : list LogEntryInfo :=
  let l' := l ++ [e] in
  if (size <? length l')%nat then drop (length l' - size) l' else l'.

(** The entry is kept under [logMu] and sent under the lock of [emit]: here nothing
    comes between the two, while goroutines that log at the same time may send
    their entries in another order than they keep them. *)
Definition addLogEntry (level : string) (msg : text) : dm unit :=
  let! now := time_Now in
  let entry := mkLogEntry now level (P "[cmd/daemon] " :: msg) in
  dset (fun d => set_log (push_log (d_logBufferSize d) (d_logEntries d) entry) d) ;!
  emit EvtLogEntry [] (log_value entry).

Definition setStatus (status : ConnectionStatus) (msg : text) : dm unit :=
  dset (set_status_ status msg) ;!
  emit EvtStatusChanged [] (VMap [("status"%string, VStr (status_text status)); ("message"%string, VText msg)]).

(** A method of the open storage; calling one through a nil pointer panics. *)
Definition call_opt {A} (f : store -> option (result A * store)) : dm (result A) := fun d =>
  match d_db d with
  | None => None
  | Some s => match f s with Some (r, s') => Some (r, set_daemon_db (Some s') d) | None => None end
  end.
Definition call {A} (f : go store A) : dm (result A) := call_opt (fun s => Some (f s)).

(** [store := d.store(); if store == nil {...}]. *)
Definition with_store {A} (none some : dm A) : dm A := fun d =>
  match d_db d with None => none d | Some _ => some d end.

Definition requireStorage (id : bytes) : dm bool :=
  with_store (emitError id [P "storage not opened — call open_storage first"] ;! dret false) (dret true).

(** The prologue of a handler: [json.Unmarshal] into its parameters. *)
Definition with_params {X} (id : bytes) (params : result X) (k : X -> dm unit) : dm unit :=
  match params with
  | Err e => emitError id [P "invalid params: "; PE e]
  | Ok p => k p
  end.

Definition ok_status (s : string) : value := VMap [("status"%string, VStr (str s))].

(** [Storage.PublicKey] (pkg/storage/storage.go); [MarshalPublicKey] may panic. *)
Definition store_PublicKey (s : store) : option (result bytes * store) :=
  match Attester s with
  | (Ok a, s') => (fun pub => (Ok pub, s')) <$> MarshalPublicKey a
  | (Err e, s') => Some (Err (wrapf "loading attester" e), s')
  end.

(** [base64.CorruptInputError] *)
Definition illegal_base64 : error := errorf "illegal base64 data".

Definition app_name : bytes := str "daemon".

(** *** Logs *)

Definition handleGetLogs (id : bytes) : dm unit :=
  let! entries := dget d_logEntries in
  emit EvtResponse id (VMap [("entries"%string, VList (map log_value entries))]).

Definition handleClearLogs (id : bytes) : dm unit :=
  dset (set_log []) ;! emit EvtResponse id (ok_status "cleared").

(** The file: the outcome of [os.Create] and of each write. *)
Fixpoint write_entries (id : bytes) (entries : list LogEntryInfo) (writes : nat -> result unit) (i : nat) : dm bool :=
  match entries with
  | [] => dret true
  | _ :: entries =>
      match writes i with
      | Err e => emitError id [P "write file: "; PE e] ;! dret false
      | Ok _ => write_entries id entries writes (S i)
      end
  end.

Definition handleExportLogs (id : bytes) (params : result bytes) (default_name : Z -> bytes) (created : result unit)
    (writes : nat -> result unit) : dm unit :=
  with_params id params (fun path =>
    let! entries := dget d_logEntries in
    let! filePath := match path with [] => (let! now := time_Now in dret (default_name now)) | _ => dret path end in
    match created with
    | Err e => emitError id [P "create file: "; PE e]
    | Ok _ =>
        let! ok := write_entries id entries writes 0 in
        if ok then
          addLogEntry "INFO" [P "Exported logs to "; PB filePath] ;!
          emit EvtResponse id (VMap [("status"%string, VStr (str "exported")); ("file_path"%string, VStr filePath)])
        else dret tt
    end).

Definition handleGetLogLevel (id : bytes) : dm unit :=
  let! level := dget d_logLevel in emit EvtResponse id (VMap [("level"%string, VStr level)]).

Definition handleSetLogLevel (id : bytes) (params : result bytes) : dm unit :=
  with_params id params (fun level =>
    dset (set_logLevel level) ;!
    with_store (dret tt) (let! _ := call (SetSettings app_name (str "log_level") level) in dret tt) ;!
    addLogEntry "INFO" [P "Log level set to: "; PB level] ;!
    emit EvtResponse id (VMap [("status"%string, VStr (str "set")); ("level"%string, VStr level)])).

(** *** Keychain and fingerprint format *)

(** [found] is the outcome of [keyring.Get]. *)
Definition handleHasKeychainPassphrase (id : bytes) (found : result unit) : dm unit :=
  emit EvtResponse id (VMap [("has_passphrase"%string, VBool (is_ok found))]).

Definition handleClearKeychainPassphrase (id : bytes) (deleted : result unit) : dm unit :=
  match deleted with
  | Err e => emitError id [P "failed to clear keychain: "; PE e]
  | Ok _ => addLogEntry "INFO" [P "Passphrase cleared from keychain"] ;! emit EvtResponse id (ok_status "cleared")
  end.

Definition handleGetFingerprintFormat (id : bytes) : dm unit :=
  let! f := dget d_fingerprintFmt in emit EvtResponse id (VMap [("format"%string, VStr f)]).

Definition handleSetFingerprintFormat (id : bytes) (params : result bytes) : dm unit :=
  with_params id params (fun f =>
    dset (set_fmt f) ;!
    addLogEntry "DEBUG" [P "Fingerprint format set to: "; PB f] ;!
    emit EvtResponse id (VMap [("status"%string, VStr (str "set")); ("format"%string, VStr f)])).

(** *** Peers *)

Definition handleAddPeer (id : bytes) (params : result (bytes * bytes)) : dm unit :=
  with_params id params (fun '(publicKey, name) =>
    match decodePeerPubKey publicKey with
    | Err e => emitError id [PE e]
    | Ok pub =>
        with_store (emitError id [P "storage is not available"])
          (let! found := call (FindPeer pub) in
           match found with
           | Ok _ => emitError id [P "peer already exists: "; PB publicKey]
           | Err _ =>
               let name := match name with [] => Pseudonym pub | _ => name end in
               let! now := time_Now in
               let! stored := call (StorePeer (mkPeer now now name [] pub)) in
               match stored with
               | Err e => emitError id [P "store peer: "; PE e]
               | Ok _ =>
                   addLogEntry "INFO" [P "Added peer: "; PB name] ;!
                   emit EvtResponse id (VMap [("status"%string, VStr (str "added")); ("name"%string, VStr name)])
               end
           end)
    end).

Definition handleRenamePeer (id : bytes) (params : result (bytes * bytes)) : dm unit :=
  with_params id params (fun '(publicKey, newName) =>
    match decodePeerPubKey publicKey with
    | Err e => emitError id [PE e]
    | Ok pub =>
        with_store (emitError id [P "storage is not available"])
          (let! found := call (FindPeer pub) in
           match found with
           | Err _ => emitError id [P "peer not found: "; PB publicKey]
           | Ok existing =>
               let name := match newName with [] => Pseudonym pub | _ => newName end in
               let! stored := call (StorePeer (mkPeer (FirstSeen existing) (LastSeen existing) name
                                      (AppVersionOf existing) (PublicKey existing))) in
               match stored with
               | Err e => emitError id [P "store peer: "; PE e]
               | Ok _ =>
                   addLogEntry "INFO" [P "Renamed peer to "; PB newName] ;!
                   emit EvtResponse id (VMap [("status"%string, VStr (str "renamed")); ("name"%string, VStr newName)])
               end
           end)
    end).

Definition handleGetPeer (id : bytes) (params : result bytes) : dm unit :=
  with_params id params (fun publicKey =>
    match decodePeerPubKey publicKey with
    | Err e => emitError id [PE e]
    | Ok pub =>
        with_store (emitError id [P "storage is not available"])
          (let! found := call (FindPeer pub) in
           match found with
           | Err _ => emitError id [P "peer not found: "; PB publicKey]
           | Ok p =>
               emit EvtResponse id (VMap [("name"%string, VStr (Name p)); ("public_key"%string, VStr (Base64 (PublicKey p)));
                 ("first_seen"%string, VTime (FirstSeen p)); ("last_seen"%string, VTime (LastSeen p));
                 ("app_version"%string, VStr (AppVersionOf p))])
           end)
    end).

Definition peer_value (p : Peer) : value :=
  VMap [("name"%string, VStr (Name p)); ("app_version"%string, VStr (AppVersionOf p));
        ("first_seen"%string, VTime (FirstSeen p)); ("last_seen"%string, VTime (LastSeen p));
        ("public_key"%string, VStr (EncodeToString StdEncoding (PublicKey p)))].

Definition handleListPeers (id : bytes) : dm unit :=
  with_store (emitError id [P "storage is not available"])
    (let! peers := call ListPeers in
     match peers with
     | Err e => addLogEntry "ERROR" [P "Failed to list peers: "; PE e] ;!
                emitError id [P "failed to list peers: "; PE e]
     | Ok l => emit EvtResponse id (VMap [("peers"%string, VList (map peer_value l))])
     end).

Definition handleDeletePeer (id : bytes) (params : result bytes) : dm unit :=
  with_params id params (fun publicKey =>
    with_store (emitError id [P "storage is not available"])
      (match DecodeString StdEncoding publicKey with
       | None => emitError id [P "invalid base64 public_key: "; PE illegal_base64]
       | Some pub =>
           let! deleted := call (DeletePeer pub) in
           match deleted with
           | Err e => addLogEntry "ERROR" [P "Failed to delete peer: "; PE e] ;!
                      emitError id [P "failed to delete peer: "; PE e]
           | Ok _ => addLogEntry "INFO" [P "Deleted peer"] ;! emit EvtResponse id (ok_status "deleted")
           end
       end)).

(** *** History (history.go) *)

Definition loadHistorySessions : dm unit :=
  with_store (dret tt)
    (let! summaries := call ListSessionsByRecent in
     match summaries with
     | Err e => addLogEntry "WARN" [P "Could not list history sessions: "; PE e]
     | Ok l =>
         dset (set_hist (map (fun s => mkHist (ss_ID s) (ss_Name s) false (ss_MessageCount s) (ss_FirstMessage s)
                                          (ss_LastMessage s)) l)) ;!
         emit EvtHistoryUpdated [] (VMap [])
     end).

Definition hist_value (hs : historySession) : value :=
  VMap [("id"%string, VStr (hs_ID hs)); ("name"%string, VStr (hs_Name hs));
        ("message_count"%string, VInt (hs_MessageCount hs)); ("first_message"%string, VTime (hs_FirstMessage hs));
        ("last_message"%string, VTime (hs_LastMessage hs)); ("loaded"%string, VBool (hs_Loaded hs))].

Definition handleGetHistorySessions (id : bytes) : dm unit :=
  let! hs := dget d_histSessions in
  emit EvtResponse id (VMap [("sessions"%string, VList (map hist_value hs))]).

Definition SenderLocal : Z := 0.
Definition SenderPeer : Z := 1.

Definition message_of (e : ChatEntry) : MessageInfo :=
  mkMessage (ce_Data e) (ce_Timestamp e) (ce_Sender e =? SenderLocal).

Definition message_value (m : MessageInfo) : value :=
  VMap [("text"%string, VStr (mi_Text m)); ("timestamp"%string, VTime (mi_Timestamp m));
        ("is_local"%string, VBool (mi_IsLocal m))].

Definition handleGetHistoryMessages (id : bytes) (params : result bytes) : dm unit :=
  with_params id params (fun sessionID =>
    let! hist := dget d_histSessions in
    if negb (existsb (fun hs => bool_decide (hs_ID hs = sessionID) && hs_Loaded hs) hist)
    then emitError id [P "history session not loaded — call load_history first"]
    else
      with_store (emitError id [P "storage is not available"])
        (let! entries := call_opt (GetChatHistory sessionID) in
         match entries with
         | Err e => addLogEntry "ERROR" [P "Failed to get chat history: "; PE e] ;!
                    emitError id [P "failed to get chat history: "; PE e]
         | Ok l => emit EvtResponse id (VMap [("messages"%string, VList (map (fun e => message_value (message_of e)) l))])
         end)).

(** [for _, hs := range l { if hs.ID == id { update; break } }] *)
Fixpoint update_hist (sessionID : bytes) (f : historySession -> historySession) (l : list historySession)
  : list historySession :=
  match l with
  | [] => []
  | hs :: r => if bool_decide (hs_ID hs = sessionID) then f hs :: r else hs :: update_hist sessionID f r
  end.

Definition handleLoadHistory (id : bytes) (params : result bytes) : dm unit :=
  with_params id params (fun sessionID =>
    dset (fun d => set_hist (update_hist sessionID (fun hs => mkHist (hs_ID hs) (hs_Name hs) true (hs_MessageCount hs)
                                (hs_FirstMessage hs) (hs_LastMessage hs)) (d_histSessions d)) d) ;!
    emit EvtHistoryLoaded [] (VMap [("session_id"%string, VStr sessionID)]) ;!
    emit EvtResponse id (ok_status "loaded")).

Definition handleRenameHistorySession (id : bytes) (params : result (bytes * bytes)) : dm unit :=
  with_params id params (fun '(sessionID, name) =>
    with_store (emitError id [P "storage is not available"])
      (let! r := call (SetSessionName sessionID name) in
       match r with
       | Err e => addLogEntry "ERROR" [P "Failed to rename history session: "; PE e] ;!
                  emitError id [P "failed to rename: "; PE e]
       | Ok _ =>
           dset (fun d => set_hist (update_hist sessionID (fun hs => mkHist (hs_ID hs) name (hs_Loaded hs)
                     (hs_MessageCount hs) (hs_FirstMessage hs) (hs_LastMessage hs)) (d_histSessions d)) d) ;!
           emit EvtHistoryUpdated [] (VMap []) ;!
           addLogEntry "INFO" [P "Renamed history session: "; PB sessionID] ;!
           emit EvtResponse id (ok_status "ok")
       end)).

Fixpoint remove_hist (sessionID : bytes) (l : list historySession) : list historySession :=
  match l with
  | [] => []
  | hs :: r => if bool_decide (hs_ID hs = sessionID) then r else hs :: remove_hist sessionID r
  end.

Definition handleDeleteHistorySession (id : bytes) (params : result bytes) : dm unit :=
  with_params id params (fun sessionID =>
    with_store (emitError id [P "storage is not available"])
      (let! r := call (DeleteSession sessionID) in
       match r with
       | Err e => addLogEntry "ERROR" [P "Failed to delete history session: "; PE e] ;!
                  emitError id [P "failed to delete: "; PE e]
       | Ok _ =>
           dset (fun d => set_hist (remove_hist sessionID (d_histSessions d)) d) ;!
           emit EvtHistoryUpdated [] (VMap []) ;!
           addLogEntry "INFO" [P "Deleted history session: "; PB sessionID] ;!
           emit EvtResponse id (ok_status "deleted")
       end)).

Definition handleRefreshHistory (id : bytes) : dm unit :=
  loadHistorySessions ;! addLogEntry "INFO" [P "History refreshed"] ;! emit EvtResponse id (ok_status "refreshed").

(** *** Identity and settings (history.go) *)

(** [strings.Join(fingerprint.Emoji(pubKey), " • ")] *)
Definition emoji_text (pub : bytes) : bytes :=
  match Emoji pub with
  | [] => []
  | e :: es => e ++ concat (map (fun e => str " • " ++ e) es)
  end.

Definition fingerprint_value (pub : bytes) : value :=
  VMap [("emoji"%string, VStr (emoji_text pub)); ("b64"%string, VStr (Base64 pub)); ("hex"%string, VStr (Hex pub));
        ("sum"%string, VStr (Sum pub))].

Definition loadIdentity : dm unit :=
  let! pub := call_opt store_PublicKey in
  match pub with
  | Err e => addLogEntry "DEBUG" [P "No identity key found: "; PE e]
  | Ok pubKey =>
      dset (set_pubKey pubKey) ;!
      emit EvtFingerprintChange [] (fingerprint_value pubKey) ;!
      (let! name := call (GetSettings app_name (str "local_name")) in
       match name with
       | Err _ => dret tt
       | Ok n =>
           (match n with
            | [] => let! _ := call (SetSettings app_name (str "local_name") (Pseudonym pubKey)) in dret tt
            | _ => dret tt
            end) ;!
           let n := match n with [] => Pseudonym pubKey | _ => n end in
           match n with
           | [] => dret tt
           | _ => dset (set_myName n) ;! emit EvtLocalNameChanged [] (VMap [("name"%string, VStr n)])
           end
       end) ;!
      addLogEntry "INFO" [P "Loaded identity from existing storage"]
  end.

Definition loadIdentityAndHistory : dm unit :=
  with_store (dret tt)
    (loadIdentity ;!
     (let! mode := call (GetSettings app_name (str "verification_mode")) in
      match mode with
      | Ok (x :: m) => match Atoi (x :: m) with Some n => dset (set_verifMode (mode_of n)) | None => dret tt end
      | _ => dret tt
      end) ;!
     (let! inc := call (GetSettings app_name (str "incognito")) in
      match inc with
      | Ok b => if bool_decide (b = str "true") then dset (set_incognito true) else dret tt
      | Err _ => dret tt
      end) ;!
     loadHistorySessions).

(** [openStorage]: the environment variable and the outcome of
    [storage.OpenStorage]; the old storage is closed first. *)
Definition openStorage (path : bytes) (noPassphrase : bool) (env : bytes) (opened : result store) : dm (result unit) :=
  dset (set_daemon_db None) ;!
  if negb noPassphrase && bool_decide (env = []) then dret (Err (errorf "KAMUNE_DB_PASSPHRASE not set and db_no_passphrase is false; use submit_passphrase to provide one"))
  else match opened with
  | Err e => dret (Err e)
  | Ok s => dset (set_daemon_db (Some s)) ;! dset (set_dbPath path) ;! dret (Ok tt)
  end.

Definition handleOpenStorage (id : bytes) (params : result (bytes * bool)) (env : bytes) (opened : result store) : dm unit :=
  with_params id params (fun '(path, noPassphrase) =>
    match path with
    | [] => emitError id [P "storage_path is required"]
    | _ =>
        let! r := openStorage path noPassphrase env opened in
        match r with
        | Err e => emitError id [P "failed to open storage: "; PE e]
        | Ok _ =>
            loadIdentityAndHistory ;!
            emit EvtResponse id (VMap [("status"%string, VStr (str "opened")); ("storage_path"%string, VStr path)])
        end
    end).

Definition handleSubmitPassphrase (id : bytes) (params : result bytes) (opened : result store) : dm unit :=
  with_params id params (fun _ =>
    let! dbPath := dget d_dbPath in
    match dbPath with
    | [] => emitError id [P "storage not opened — call open_storage first"]
    | _ =>
        dset (set_daemon_db None) ;!
        match opened with
        | Err e => emitError id [P "failed to open storage: "; PE e]
        | Ok s =>
            dset (set_daemon_db (Some s)) ;! loadIdentityAndHistory ;! emit EvtResponse id (ok_status "opened")
        end
    end).

Definition handleGetFingerprint (id : bytes) : dm unit :=
  let! pub := dget d_pubKey in
  match pub with
  | [] => emit EvtResponse id (VMap [("emoji"%string, VStr []); ("b64"%string, VStr []); ("hex"%string, VStr []);
                                      ("sum"%string, VStr [])])
  | _ => emit EvtResponse id (fingerprint_value pub)
  end.

Definition handleGetMyName (id : bytes) : dm unit :=
  let! name := dget d_myName in emit EvtResponse id (VMap [("name"%string, VStr name)]).

Definition maxNameLength : Z := 32.

Definition handleSetMyName (id : bytes) (params : result bytes) : dm unit :=
  with_params id params (fun name =>
    if maxNameLength <? blen name then emitError id [P "name must be 32 characters or fewer"]
    else
      let! r := with_store (dret (Ok tt)) (call (SetSettings app_name (str "local_name") name)) in
      match r with
      | Err e => emitError id [P "persist name: "; PE e]
      | Ok _ =>
          dset (set_myName name) ;!
          emit EvtLocalNameChanged [] (VMap [("name"%string, VStr name)]) ;!
          emit EvtResponse id (ok_status "ok")
      end).

Definition handleGetVersion (id version : bytes) : dm unit := emit EvtResponse id (VMap [("version"%string, VStr version)]).

Definition handleGetLibraryVersion (id : bytes) : dm unit :=
  emit EvtResponse id (VMap [("version"%string, VStr AppVersion)]).

Definition handleGetIncognito (id : bytes) : dm unit :=
  let! b := dget d_incognito in emit EvtResponse id (VMap [("enabled"%string, VBool b)]).

Definition FormatBool (b : bool) : bytes := if b then str "true" else str "false".

Definition handleSetIncognito (id : bytes) (params : result bool) : dm unit :=
  with_params id params (fun enabled =>
    dset (set_incognito enabled) ;!
    with_store (dret tt) (let! _ := call (SetSettings app_name (str "incognito") (FormatBool enabled)) in dret tt) ;!
    emit EvtResponse id (VMap [("enabled"%string, VBool enabled)])).

(** *** Sessions and messages (network.go, messaging.go) *)

Definition session_fields (s : liveSession) : list (string * value) :=
  [("session_id"%string, VStr (ls_ID s)); ("peer_name"%string, VStr (ls_PeerName s));
   ("is_server"%string, VBool (ls_IsServer s)); ("msg_count"%string, VInt (Z.of_nat (length (ls_Messages s))));
   ("last_activity"%string, VTime (ls_LastActivity s)); ("transport_type"%string, VStr (ls_TransportType s));
   ("remote_version"%string, VStr (ls_RemoteVersion s)); ("session_ttl_ns"%string, VInt (ls_SessionTTL s));
   ("session_started_at"%string, VTime (ls_SessionStartedAt s)); ("remote_addr"%string, VStr (ls_RemoteAddr s))].

(** The same fields in the answer to get_session_info. *)
Definition live_fields (s : liveSession) : list (string * value) :=
  [("session_id"%string, VStr (ls_ID s)); ("peer_name"%string, VStr (ls_PeerName s));
   ("is_server"%string, VBool (ls_IsServer s)); ("msg_count"%string, VInt (Z.of_nat (length (ls_Messages s))));
   ("last_activity"%string, VTime (ls_LastActivity s)); ("transport_type"%string, VStr (ls_TransportType s));
   ("remote_version"%string, VStr (ls_RemoteVersion s)); ("session_ttl_ns"%string, VInt (ls_SessionTTL s));
   ("started_at"%string, VTime (ls_SessionStartedAt s)); ("remote_addr"%string, VStr (ls_RemoteAddr s))].

Definition sessionInfo (s : liveSession) : value := VMap (session_fields s).

(** The sessions of the map, in some order. *)
Definition live_sessions (d : Daemon) : list (nat * liveSession) :=
  omap (fun kp => (fun s => (snd kp, s)) <$> d_heap d !! snd kp) (map_to_list (d_sessions d)).

Definition find_live (sessionID : bytes) (d : Daemon) : option (nat * liveSession) :=
  snd <$> list_find (fun ps => ls_ID (snd ps) = sessionID) (live_sessions d).

Definition update_session (p : nat) (f : liveSession -> liveSession) : dm unit :=
  dset (fun d => set_heap (alter f p (d_heap d)) d).

Definition set_name (name : bytes) (s : liveSession) : liveSession :=
  mkLive (ls_ID s) name (ls_RemoteVersion s) (ls_RemoteAddr s) (ls_Transport s) (ls_Messages s) (ls_LastActivity s)
    (ls_ReceiveDone s) (ls_IsServer s) (ls_TransportType s) (ls_SessionTTL s) (ls_SessionStartedAt s)
    (ls_pingFailures s) (ls_pongCh s) (ls_reconnectFn s) (ls_cancelled s) (ls_keepAliveDone s).

Definition set_messages (ms : list MessageInfo) (now : Z) (s : liveSession) : liveSession :=
  mkLive (ls_ID s) (ls_PeerName s) (ls_RemoteVersion s) (ls_RemoteAddr s) (ls_Transport s) ms now
    (ls_ReceiveDone s) (ls_IsServer s) (ls_TransportType s) (ls_SessionTTL s) (ls_SessionStartedAt s)
    (ls_pingFailures s) (ls_pongCh s) (ls_reconnectFn s) (ls_cancelled s) (ls_keepAliveDone s).

Definition handleGetSessionInfo (id : bytes) (params : result bytes) : dm unit :=
  with_params id params (fun sessionID =>
    let! live := dget (find_live sessionID) in
    match live with
    | Some (_, s) => emit EvtResponse id (VMap (("type"%string, VStr (str "live")) :: live_fields s))
    | None =>
        let! hist := dget d_histSessions in
        match list_find (fun hs => hs_ID hs = sessionID) hist with
        | Some (_, hs) =>
            emit EvtResponse id (VMap [("type"%string, VStr (str "history")); ("session_id"%string, VStr (hs_ID hs));
              ("name"%string, VStr (hs_Name hs)); ("msg_count"%string, VInt (hs_MessageCount hs));
              ("first_message"%string, VTime (hs_FirstMessage hs)); ("last_message"%string, VTime (hs_LastMessage hs));
              ("loaded"%string, VBool (hs_Loaded hs))])
        | None => emitError id [P "session not found: "; PB sessionID]
        end
    end).

Definition handleListSessions (id : bytes) : dm unit :=
  let! l := dget live_sessions in
  emit EvtResponse id (VMap [("sessions"%string, VList (map (fun ps => sessionInfo (snd ps)) l))]).

Definition handleRenameSession (id : bytes) (params : result (bytes * bytes)) : dm unit :=
  with_params id params (fun '(sessionID, name) =>
    let! live := dget (find_live sessionID) in
    (match live with Some (p, _) => update_session p (set_name name) | None => dret tt end) ;!
    emit EvtSessionUpdated [] (VMap [("session_id"%string, VStr sessionID)]) ;!
    emit EvtResponse id (ok_status "ok")).

(** [session.Messages = append(...); session.LastActivity = time.Now()] *)
Definition append_message (p : nat) (m : MessageInfo) : dm unit :=
  let! now := time_Now in
  update_session p (fun s => set_messages (ls_Messages s ++ [m]) now s).

(** [if store := d.store(); store != nil && !d.incognito { store.AddChatEntry(...) }] *)
Definition persist_message (sessionID data : bytes) (ts sender : Z) : dm unit :=
  let! incognito := dget d_incognito in
  with_store (dret tt)
    (if incognito then dret tt else let! _ := call (AddChatEntry sessionID data ts sender) in dret tt).

(** [sent] is the outcome of [Transport.Send]: the timestamp of the message. *)
Definition handleSendMessage (id : bytes) (params : result (bytes * bytes)) (sent : bytes -> result Z) : dm unit :=
  with_params id params (fun '(sessionID, dataBase64) =>
    let! sessions := dget d_sessions in
    match sessions !! sessionID with
    | None => emitError id [P "session not found: "; PB sessionID]
    | Some p =>
        match DecodeString StdEncoding dataBase64 with
        | None => emitError id [P "invalid base64 data: "; PE illegal_base64]
        | Some data =>
            match sent data with
            | Err e => emitError id [P "failed to send message: "; PE e]
            | Ok ts =>
                append_message p (mkMessage data ts true) ;!
                persist_message sessionID data ts SenderLocal ;!
                emit EvtMessageSent id (VMap [("session_id"%string, VStr sessionID); ("timestamp"%string, VTime ts)]) ;!
                emit EvtSessionUpdated [] (VMap [("session_id"%string, VStr sessionID)]) ;!
                addLogEntry "DEBUG" [P "Sent message to "; PB sessionID]
            end
        end
    end).

(** What the receive loops do with a message that is neither ping nor pong. *)
Definition receive_message (p : nat) (sessionID data : bytes) (ts : Z) : dm unit :=
  append_message p (mkMessage data ts false) ;!
  persist_message sessionID data ts SenderPeer ;!
  emit EvtMessageReceived [] (VMap [("session_id"%string, VStr sessionID);
    ("data_base64"%string, VStr (EncodeToString StdEncoding data)); ("timestamp"%string, VTime ts)]) ;!
  emit EvtSessionUpdated [] (VMap [("session_id"%string, VStr sessionID)]) ;!
  addLogEntry "DEBUG" [P "Received message from "; PB sessionID].

Definition removeSession (sessionID : bytes) : dm nat :=
  dset (fun d => set_sessions (delete sessionID (d_sessions d)) d) ;! dget (fun d => size (d_sessions d)).

Definition setStatusIfEmpty (status : ConnectionStatus) (msg : text) : dm unit :=
  let! count := dget (fun d => size (d_sessions d)) in
  if bool_decide (count = 0%nat) then setStatus status msg else dret tt.

(** [handleCloseSession] up to the call of [Transport.Close] and after it. *)
Definition close_lookup (sessionID : bytes) : dm (option nat) :=
  let! sessions := dget d_sessions in
  match sessions !! sessionID with
  | None => dret None
  | Some p => dset (fun d => set_sessions (delete sessionID (d_sessions d)) d) ;! dret (Some p)
  end.

Definition handleCloseSession (id : bytes) (params : result bytes) : dm unit :=
  with_params id params (fun sessionID =>
    let! found := close_lookup sessionID in
    match found with
    | None => emitError id [P "session not found: "; PB sessionID]
    | Some p =>
        let! heap := dget d_heap in
        (match heap !! p with Some s => emit EvtSessionClosed [] (sessionInfo s) | None => fun _ => None end) ;!
        emit EvtResponse id (VMap [("status"%string, VStr (str "closed")); ("session_id"%string, VStr sessionID)]) ;!
        setStatusIfEmpty StatusDisconnected [P "Not connected"]
    end).

Definition handleGetStatus (id : bytes) : dm unit :=
  let! s := dget d_status in let! m := dget d_statusMsg in
  emit EvtResponse id (VMap [("status"%string, VStr (status_text s)); ("message"%string, VText m)]).

(** The latest start of a server session; the zero time when there is none. *)
Definition server_started_at (d : Daemon) : Z :=
  match d_server d with
  | None => zero_time
  | Some _ =>
      foldl (fun t ps => if ls_IsServer (snd ps) && negb (ls_SessionStartedAt (snd ps) <? t)
                         then ls_SessionStartedAt (snd ps) else t) zero_time (live_sessions d)
  end.

Definition handleGetServerStatus (id : bytes) : dm unit :=
  let! d := dget (fun d => d) in
  emit EvtResponse id (VMap [("running"%string, VBool (bool_decide (d_server d <> None)));
    ("transport"%string, VStr (d_serverTransport d)); ("addr"%string, VStr (d_serverAddr d));
    ("relay_addr"%string, VStr (d_serverRelayAddr d)); ("name"%string, VStr (d_serverName d));
    ("started_at"%string, if is_zero_time (server_started_at d) then VStr [] else VTime (server_started_at d))]).

(** [loadChatHistory] *)
Definition loadChatHistory (p : nat) (sessionID : bytes) : dm unit :=
  let! incognito := dget d_incognito in
  if incognito then dret tt
  else with_store (dret tt)
    (let! entries := call_opt (GetChatHistory sessionID) in
     match entries with
     | Err _ => addLogEntry "DEBUG" [P "No history for session: "; PB sessionID]
     | Ok l =>
         update_session p (fun s =>
           set_messages (map message_of l) (foldl (fun t e => Z.max t (ce_Timestamp e)) (ls_LastActivity s) l) s)
     end).

(** *** Versions (network.go) *)

Definition parseVer (v : bytes) : option (Z * Z) :=
  match SplitN Byte.x2e v 3 with
  | [a; b; _] => match Atoi a, Atoi b with Some maj, Some min => Some (maj, min) | _, _ => None end
  | _ => None
  end.

Definition checkMinorMismatch (local remote : bytes) : option text :=
  match remote with
  | [] => None
  | _ =>
      match parseVer local, parseVer remote with
      | Some (lmaj, lmin), Some (rmaj, rmin) =>
          if (lmaj =? rmaj) && negb (lmin =? rmin)
          then Some [P "Minor version mismatch (v"; PB remote; P " vs v"; PB local; P "): things may not work as expected"]
          else None
      | _, _ => None
      end
  end.

Definition truncateSessionID (id : bytes) : bytes :=
  if blen id <=? 16 then id else btake 8 id ++ str "..." ++ bdrop (blen id - 4) id.

Definition parseServerAddr (addr : bytes) : bytes * bytes * bool :=
  match SplitHostPort addr with
  | None => ([], [], false)
  | Some (h, p) =>
      if bool_decide (h = []) || bool_decide (h = str "0.0.0.0") then ([], p, true) else (h, p, false)
  end.

End handlers.
