(* ===== verification/DaemonLaws.v ===== *)
(** * Reasoning about the daemon's handlers

    [dpres R m]: whenever [m] returns, the daemons before and after are related by
    [R].  It composes for every preorder, so that one tactic, [dframe], shows of a
    handler what part of the state it leaves alone.  [answers id n m]: [m] emits
    exactly [n] events that carry the correlation id [id]; [danswer] counts them. *)

From S2P Require Import Prelude GoErr Strconv Encoding Process Wire Pb Route Version Crypto Fingerprint Enigma Serde Transport Bolt Engine Storage DaemonNet NetIP BrokerCodec Daemon.
#[local] Open Scope dm_scope.

Section laws.
Context `{Crypto} `{ProtoRuntime} `{Bolt}.

(** A returned value and daemon, without looking into them. *)
Lemma some_pair {A B} (a a' : A) (b b' : B) : Some (a, b) = Some (a', b') -> a = a' /\ b = b'.
Proof. by intros [= -> ->]. Qed.

(** A computation that returns, found by evaluation that does not look at the result. *)
Definition returns {A} (o : option A) : bool := match o with Some _ => true | None => false end.

Lemma returns_some {A} (o : option A) : returns o = true -> exists a, o = Some a.
Proof. destruct o as [a|]; [|done]. by exists a. Qed.

Lemma dbind_inv {A B} (m : dm A) (k : A -> dm B) d b d' :
  dbind m k d = Some (b, d') -> exists a d1, m d = Some (a, d1) /\ k a d1 = Some (b, d').
Proof. unfold dbind. destruct (m d) as [[a d1]|]; [|done]. by exists a, d1. Qed.

(** ** Preservation *)

Definition dpres (R : Daemon -> Daemon -> Prop) {A} (m : dm A) : Prop :=
  forall d a d', m d = Some (a, d') -> R d d'.

Section preorder.
Context (R : Daemon -> Daemon -> Prop) `{!PreOrder R}.

Lemma dpres_ret {A} (a : A) : dpres R (dret a).
Proof. intros d a' d' [= <- <-]. reflexivity. Qed.

Lemma dpres_get {A} (f : Daemon -> A) : dpres R (dget f).
Proof. intros d a' d' [= <- <-]. reflexivity. Qed.

Lemma dpres_stuck {A} : dpres R ((fun _ => None) : dm A).
Proof. by intros d a d'. Qed.

Lemma dpres_bind {A B} (m : dm A) (k : A -> dm B) :
  dpres R m -> (forall a, dpres R (k a)) -> dpres R (dbind m k).
Proof.
  intros Hm Hk d b d'. unfold dbind. destruct (m d) as [[a d1]|] eqn:E; [|done]. intros Hr.
  etrans; [by eapply Hm|by eapply Hk].
Qed.

Lemma dpres_set f : (forall d, R d (f d)) -> dpres R (dset f).
Proof. intros Hf d a d' [= _ <-]. apply Hf. Qed.

Lemma dpres_now : (forall d, R d (set_tpos (S (d_tpos d)) d)) -> dpres R time_Now.
Proof. intros Hf d a d' [= _ <-]. apply Hf. Qed.

Lemma dpres_store {A} (m1 m2 : dm A) : dpres R m1 -> dpres R m2 -> dpres R (with_store m1 m2).
Proof. intros H1' H2' d a d'. unfold with_store. destruct (d_db d); eauto. Qed.

Lemma dpres_call_opt {A} (f : store -> option (result A * store)) :
  (forall d s, R d (set_daemon_db s d)) -> dpres R (call_opt f).
Proof.
  intros Hf d a d'. unfold call_opt. destruct (d_db d) as [s|]; [|done].
  destruct (f s) as [[r s']|]; [|done]. intros [= _ <-]. apply Hf.
Qed.

Lemma dpres_call {A} (f : go store A) : (forall d s, R d (set_daemon_db s d)) -> dpres R (call f).
Proof. apply dpres_call_opt. Qed.

End preorder.

(** A part of the state that stays as it is. *)
Definition same {X} (f : Daemon -> X) (d d' : Daemon) : Prop := f d = f d'.

#[global] Instance same_preorder {X} (f : Daemon -> X) : PreOrder (same f).
Proof. split; unfold same; [by intros ?|intros ???; congruence]. Qed.

(** ** Events of a command *)

(** How many events carry the correlation id. *)
Definition events_of (id : bytes) (d : Daemon) : nat := length (filter (fun e => ev_ID e = id) (d_out d)).

Definition answers (id : bytes) (n : nat) {A} (m : dm A) : Prop :=
  forall d a d', m d = Some (a, d') -> events_of id d' = (events_of id d + n)%nat.

Lemma answers_run {A} id n (m : dm A) d a d' :
  m d = Some (a, d') -> answers id n m -> events_of id d' = (events_of id d + n)%nat.
Proof. intros E Hm. exact (Hm _ _ _ E). Qed.

Lemma answers_same {A} id (m : dm A) : dpres (same d_out) m -> answers id 0 m.
Proof. intros Hm d a d' E. unfold events_of. rewrite (Hm _ _ _ E). lia. Qed.

Lemma answers_ret {A} id (a : A) : answers id 0 (dret a).
Proof. apply answers_same, dpres_ret, _. Qed.

Lemma answers_get {A} id (f : Daemon -> A) : answers id 0 (dget f).
Proof. apply answers_same, dpres_get, _. Qed.

Lemma answers_set id f : (forall d, d_out (f d) = d_out d) -> answers id 0 (dset f).
Proof. intros Hf. apply answers_same, dpres_set. intros d. by unfold same. Qed.

Lemma answers_stuck {A} id n : answers id n ((fun _ => None) : dm A).
Proof. by intros d a d'. Qed.

Lemma answers_bind {A B} id n1 n2 (m : dm A) (k : A -> dm B) :
  answers id n1 m -> (forall a, answers id n2 (k a)) -> answers id (n1 + n2) (dbind m k).
Proof.
  intros Hm Hk d b d'. unfold dbind. destruct (m d) as [[a d1]|] eqn:E; [|done]. intros Hr.
  rewrite (Hk _ _ _ _ Hr), (Hm _ _ _ E). lia.
Qed.

(** The answer comes after, or before, what else the handler does. *)
Lemma answers_after {A B} id n (m : dm A) (k : A -> dm B) :
  answers id 0 m -> (forall a, answers id n (k a)) -> answers id n (dbind m k).
Proof. apply (answers_bind id 0 n). Qed.

Lemma answers_before {A B} id n (m : dm A) (k : A -> dm B) :
  answers id n m -> (forall a, answers id 0 (k a)) -> answers id n (dbind m k).
Proof. intros Hm Hk. rewrite <- (Nat.add_0_r n). by apply answers_bind. Qed.

Lemma answers_store {A} id n (m1 m2 : dm A) : answers id n m1 -> answers id n m2 -> answers id n (with_store m1 m2).
Proof. intros H1' H2' d a d'. unfold with_store. destruct (d_db d); eauto. Qed.

Lemma answers_call_opt {A} id (f : store -> option (result A * store)) : answers id 0 (call_opt f).
Proof. by apply answers_same, dpres_call_opt. Qed.

Lemma answers_call {A} id (f : go store A) : answers id 0 (call f).
Proof. apply answers_call_opt. Qed.

Lemma answers_now id : answers id 0 time_Now.
Proof. by apply answers_same, dpres_now. Qed.

Lemma answers_emit id evt v : answers id 1 (emit evt id v).
Proof.
  intros d a d' [= _ <-]. unfold events_of. cbn. rewrite filter_app, length_app. cbn.
  by rewrite decide_True.
Qed.

Lemma answers_broadcast id evt v : id <> [] -> answers id 0 (emit evt [] v).
Proof.
  intros Hi d a d' [= _ <-]. unfold events_of. cbn. rewrite filter_app, length_app. cbn.
  rewrite decide_False by congruence. cbn. lia.
Qed.

Lemma answers_error id msg : answers id 1 (emitError id msg).
Proof. apply answers_emit. Qed.

Lemma answers_log id level msg : id <> [] -> answers id 0 (addLogEntry level msg).
Proof.
  intros Hi. unfold addLogEntry. apply answers_after; [apply answers_now|intros now].
  apply answers_after; [by apply answers_set|intros _]. by apply answers_broadcast.
Qed.

Lemma answers_status id status msg : id <> [] -> answers id 0 (setStatus status msg).
Proof. intros Hi. apply answers_after; [by apply answers_set|intros _]. by apply answers_broadcast. Qed.

Lemma answers_broadcast_error id msg : id <> [] -> answers id 0 (emitError [] msg).
Proof. apply answers_broadcast. Qed.

(** A handler that needs the storage answers once either way. *)
Lemma answers_require {A} id (x : A) (k : dm A) :
  answers id 1 k -> answers id 1 (let! ok := requireStorage id in if negb ok then dret x else k).
Proof.
  intros Hk d a d'. unfold requireStorage, with_store, dbind at 1. destruct (d_db d).
  - apply Hk.
  - intros E. eapply (answers_error id). apply some_pair in E as [_ <-]. reflexivity.
Qed.

Lemma answers_params {X} id n (params : result X) (k : X -> dm unit) :
  n = 1%nat -> (forall p, answers id n (k p)) -> answers id n (with_params id params k).
Proof. intros -> Hk. destruct params; [apply Hk|apply answers_error]. Qed.

(** ** The log *)

(** The log entries that were emitted. *)
Definition log_events (d : Daemon) : list value := map ev_Data (filter (fun e => ev_Evt e = EvtLogEntry) (d_out d)).

(** The buffer holds the most recent ones. *)
Definition log_recent (d : Daemon) : Prop :=
  map log_value (d_logEntries d) = drop (length (log_events d) - d_logBufferSize d) (log_events d).

Definition keeps_log (d d' : Daemon) : Prop :=
  d_logBufferSize d' = d_logBufferSize d /\ (log_recent d -> log_recent d').

#[global] Instance keeps_log_preorder : PreOrder keeps_log.
Proof. split; unfold keeps_log; [by intros ?|]. intros d1 d2 d3 [E1 ?] [E2 ?]. split; [congruence|auto]. Qed.

Lemma keeps_log_emit evt id v : evt <> EvtLogEntry -> dpres keeps_log (emit evt id v).
Proof.
  intros He d a d' E. apply some_pair in E as [_ <-]. split; [done|].
  unfold log_recent, log_events. cbn. rewrite filter_app, filter_cons_False by done. by rewrite app_nil_r.
Qed.

Lemma map_push_log size l e es :
  map log_value l = drop (length es - size) es ->
  map log_value (push_log size l e) = drop (length (es ++ [log_value e]) - size) (es ++ [log_value e]).
Proof.
  intros Hl. assert (Hlen : length l = Nat.min size (length es)).
  { rewrite <- (length_map log_value), Hl, length_drop. lia. }
  unfold push_log. cbv zeta. rewrite !length_app. cbn [length].
  destruct (Nat.ltb_spec size (length l + 1)).
  - replace (length l + 1 - size)%nat with 1%nat by lia. rewrite <- skipn_map, map_app. cbn [map].
    destruct (decide (size = 0%nat)) as [->|].
    + rewrite !drop_ge; [done|rewrite length_app; cbn; lia|rewrite length_app, length_map; cbn; lia].
    + rewrite Hl, !drop_app_le by (rewrite ?length_drop; lia). f_equal. rewrite drop_drop. f_equal. lia.
  - replace (length es + 1 - size)%nat with 0%nat by lia. rewrite map_app. cbn. rewrite Hl.
    by replace (length es - size)%nat with 0%nat by lia.
Qed.

Lemma keeps_log_add level msg : dpres keeps_log (addLogEntry level msg).
Proof.
  intros d a d' E. unfold addLogEntry in E. apply dbind_inv in E as (now & d1 & E1 & E). apply some_pair in E1 as [_ <-].
  apply dbind_inv in E as (u & d2 & E2 & E). apply some_pair in E2 as [_ <-]. apply some_pair in E as [_ <-].
  split; [done|]. unfold log_recent, log_events.
  cbn [d_out d_logEntries d_logBufferSize set_out set_log set_tpos].
  rewrite filter_app, filter_cons_True, filter_nil, map_app by done. cbn [map ev_Data]. apply map_push_log.
Qed.

End laws.

(** ** Automation *)

Create HintDb daemon_answers discriminated.
#[export] Hint Resolve answers_ret answers_get answers_call_opt answers_call answers_now answers_emit answers_broadcast
  answers_broadcast_error answers_error answers_log answers_status answers_stuck : daemon_answers.
#[export] Hint Extern 1 (answers _ 0 (dset _)) => (apply answers_set; reflexivity) : daemon_answers.

(** Takes a handler apart; its matches become cases. *)
Ltac danswer_step :=
  match goal with
  | |- answers _ _ _ => solve [eauto 2 with daemon_answers nocore]
  | |- answers _ _ (with_params _ _ _) => apply answers_params; [reflexivity|intros ?]
  | |- answers _ _ (with_store _ _) => apply answers_store
  | |- answers _ _ (dbind (requireStorage _) _) => apply answers_require
  | |- answers _ _ (dbind _ _) => first [apply answers_after; [solve [danswer_quiet]|intros ?] | apply answers_before; [|intros ?]]
  | |- answers _ _ (let '(_, _) := ?x in _) => destruct x
  | |- answers _ _ (match ?x with _ => _ end) => destruct x
  | |- answers _ _ (if ?x then _ else _) => destruct x
  end
with danswer_quiet := repeat danswer_step.

Ltac danswer := repeat danswer_step.

Ltac dframe_step :=
  match goal with
  | |- dpres _ (dbind _ _) => apply dpres_bind; [apply _| |intros ?]
  | |- dpres _ (dret _) => apply dpres_ret, _
  | |- dpres _ (dget _) => apply dpres_get, _
  | |- dpres _ (dset _) => apply dpres_set; [reflexivity]
  | |- dpres _ time_Now => apply dpres_now; reflexivity
  | |- dpres _ (with_store _ _) => apply dpres_store
  | |- dpres _ (call_opt _) => apply dpres_call_opt; reflexivity
  | |- dpres _ (call _) => apply dpres_call; reflexivity
  | |- dpres _ (emit _ _ _) => unfold emit
  | |- dpres _ (emitError _ _) => unfold emitError
  | |- dpres _ (addLogEntry _ _) => unfold addLogEntry
  | |- dpres _ (setStatus _ _) => unfold setStatus
  | |- dpres _ (match ?x with _ => _ end) => destruct x
  | |- dpres _ (fun _ => None) => apply dpres_stuck
  end.

Ltac dframe := repeat dframe_step.

(** [dframe] for the log. *)
Ltac dlog_step :=
  match goal with
  | |- dpres _ (emit _ _ _) => apply keeps_log_emit; discriminate
  | |- dpres _ (emitError _ _) => apply keeps_log_emit; discriminate
  | |- dpres _ (addLogEntry _ _) => apply keeps_log_add
  | |- dpres _ (dset _) => apply dpres_set; intros ?; exact (conj eq_refl (fun h => h))
  | |- dpres _ time_Now => apply dpres_now; intros ?; exact (conj eq_refl (fun h => h))
  | |- dpres _ (call_opt _) => apply dpres_call_opt; intros ? ?; exact (conj eq_refl (fun h => h))
  | |- dpres _ (call _) => apply dpres_call; intros ? ?; exact (conj eq_refl (fun h => h))
  | |- dpres _ (setStatus _ _) => unfold setStatus
  | |- dpres _ (with_params _ _ _) => unfold with_params
  | |- dpres _ _ => solve [auto with daemon_log nocore]
  | |- _ => dframe_step
  end.

Create HintDb daemon_log discriminated.
Ltac dlog := repeat dlog_step.
