(* ===== verification/DaemonP2P.v ===== *)
(** * The daemon: peer-to-peer tokens (cmd/daemon/p2p.go, network.go)

    The tokens under which the daemon is registered with a broker: how one is
    derived for a peer, generated, refreshed, listed and removed, and the goroutine
    that keeps a token alive.  What the broker client returns is an argument
    ([broker_calls]).

    [p2p_token_not_refreshed] shows that the goroutine removes a token before its
    first refresh, although the interval is meant to keep it alive. *)

From S2P Require Import Prelude GoErr Strconv Encoding Process Wire Pb Route Version Crypto Fingerprint Enigma Serde Transport Bolt Engine Storage RelayToken DaemonNet NetIP BrokerCodec Daemon.
#[local] Open Scope dm_scope.

(** [30 * time.Second] *)
Definition p2pTokenRefreshInterval : Z := 30 * Second.

(** [encoding/hex]'s errors. *)
Definition illegal_hex : error := errorf "encoding/hex: invalid string".

(** [BrokerClient.Client], [Client.Echo] and [Client.Register] with a token. *)
Record broker_calls := mkCalls {
  bk_client : result unit; bk_echo : result unit; bk_register : option bytes -> result bytes
}.

Section p2p.
Context `{Crypto} `{ProtoRuntime} `{Bolt}.

(** ** Deriving a token for a peer *)

Definition parsePeerPubB64ToRaw (s : bytes) : result bytes :=
  match decodePeerPubKey s with
  | Err e => Err e
  | Ok pub =>
      match x509_ParsePKIXPublicKey pub with
      | None => Err (wrapf "parse PKIX" (errorf "x509"))
      | Some (KeyEd25519 ed) => Ok ed
      | Some KeyOther => Err (errorf "not an ed25519 public key")
      end
  end.

(** The part of [deriveP2PToken] that has found no stored token. *)
Definition static_token (peerPubB64 : bytes) : dm (result bytes) :=
  let! mine := call_opt store_PublicKey in
  match mine with
  | Err e => dret (Err (wrapf "get identity" e))
  | Ok myPubPKIX =>
      match parsePeerPubB64ToRaw (Base64 myPubPKIX) with
      | Err e => dret (Err (wrapf "decode local public key" e))
      | Ok myPubRaw =>
          match parsePeerPubB64ToRaw peerPubB64 with
          | Err e => dret (Err e)
          | Ok peerPubRaw => dret (map_err (wrapf "derive static token") (TokenFromKeys myPubRaw peerPubRaw))
          end
      end
  end.

(** [Ok None] is the nil token. *)
Definition deriveP2PToken (peerPubB64 : bytes) : dm (result (option bytes)) :=
  let some r := match r : result bytes with Ok t => Ok (Some t) | Err e => Err e end in
  match peerPubB64 with
  | [] => dret (Ok None)
  | _ =>
      with_store (dret (Err (errorf "storage is not available")))
        (match decodePeerPubKey peerPubB64 with
         | Err e => dret (Err (wrapf "decode peer public key" e))
         | Ok peerPubPKIX =>
             let! found := call (FindSessionByPeer peerPubPKIX) in
             match found with
             | Err e => dret (Err (wrapf "find session by peer" e))
             | Ok [] => let! t := static_token peerPubB64 in dret (some t)
             | Ok sessionID =>
                 let! m := call (GetMeta sessionID RelayTokensKey) in
                 match (match m with Ok m => decodeTokenList (m_value m) | Err _ => [] end) with
                 | t :: _ => dret (Ok (Some t))
                 | [] => let! t := static_token peerPubB64 in dret (some t)
                 end
             end
         end)
  end.

(** ** The list of tokens *)

Definition p2p_value (t : p2pToken) : value :=
  VMap [("token"%string, VStr (pt_Token t)); ("consumed"%string, VBool (pt_Consumed t)); ("ttl"%string, VInt (pt_TTL t));
        ("expiresAt"%string, VTime (pt_ExpiresAt t)); ("mode"%string, VStr (pt_Mode t));
        ("peerPubB64"%string, VStr (pt_PeerPubB64 t))].

Definition GetP2PTokens : dm value :=
  let! l := dget d_p2pTokens in dret (VMap [("tokens"%string, VList (map p2p_value l))]).

Definition emit_p2p : dm unit := let! v := GetP2PTokens in emit EvtP2PTokens [] v.

(** [d.p2pTokens[i].ExpiresAt = ...] for the first token that passes the test. *)
Fixpoint set_expiry (test : p2pToken -> bool) (at_ : Z) (l : list p2pToken) : list p2pToken :=
  match l with
  | [] => []
  | t :: r =>
      if test t
      then mkP2PToken (pt_Token t) (pt_Consumed t) (pt_TTL t) at_ (pt_Mode t) (pt_PeerPubB64 t) (pt_brokerAddr t) :: r
      else t :: set_expiry test at_ r
  end.

(** The list without the first entry that has the token. *)
Fixpoint drop_p2p (token : bytes) (l : list p2pToken) : option (list p2pToken) :=
  match l with
  | [] => None
  | t :: r => if bool_decide (pt_Token t = token) then Some r else cons t <$> drop_p2p token r
  end.

(** The token that serves the request already. *)
Definition reusable (brokerAddr peerPubB64 : bytes) (static : option bytes) (t : p2pToken) : bool :=
  bool_decide (pt_brokerAddr t = brokerAddr) &&
  match static with
  | Some _ => bool_decide (pt_PeerPubB64 t = peerPubB64)
  | None => negb (bool_decide (pt_Mode t = str "static"))
  end.

Definition refreshBrokerRegistration (hexToken : bytes) (c : broker_calls) : result unit :=
  match bk_client c with
  | Err e => Err (wrapf "broker client" e)
  | Ok _ =>
      match bk_echo c with
      | Err e => Err (wrapf "broker echo" e)
      | Ok _ =>
          match hex_DecodeString hexToken with
          | None => Err (wrapf "decode token" illegal_hex)
          | Some token =>
              match bk_register c (Some token) with
              | Err e => Err (wrapf "broker register" e)
              | Ok _ => Ok tt
              end
          end
      end
  end.

(** A new registration: the token in hexadecimal. *)
Definition register_p2p (static : option bytes) (c : broker_calls) : result bytes :=
  match bk_client c with
  | Err e => Err (wrapf "broker client" e)
  | Ok _ =>
      match bk_echo c with
      | Err e => Err (wrapf "broker echo" e)
      | Ok _ => match bk_register c static with Err e => Err (wrapf "broker register" e) | Ok t => Ok (hex t) end
      end
  end.

(** [has_client] is [d.brokerClient != nil]. *)
Definition GenerateP2PToken (has_client : bool) (brokerAddr peerPubB64 : bytes) (c : broker_calls) : dm (result bytes) :=
  if negb has_client then dret (Err (errorf "broker client is not initialized"))
  else if bool_decide (brokerAddr = []) then dret (Err (errorf "broker address is required"))
  else
    let! derived := deriveP2PToken peerPubB64 in
    match derived with
    | Err e => dret (Err e)
    | Ok static =>
        let! l := dget d_p2pTokens in
        match list_find (fun t => reusable brokerAddr peerPubB64 static t = true) l with
        | Some (_, existing) =>
            (match refreshBrokerRegistration (pt_Token existing) c with
             | Err e => addLogEntry "WARN" [P "Failed to refresh existing p2p token: "; PE e]
             | Ok _ =>
                 let! now := time_Now in
                 dset (fun d => set_p2pTokens (set_expiry (reusable brokerAddr peerPubB64 static)
                                  (now + p2pTokenRefreshInterval) (d_p2pTokens d)) d) ;!
                 emit_p2p ;!
                 addLogEntry "INFO" [P "Refreshed p2p token lifetime: "; PB (pt_Token existing)]
             end) ;!
            dret (Ok (pt_Token existing))
        | None =>
            match register_p2p static c with
            | Err e => dret (Err e)
            | Ok hexToken =>
                (match static with
                 | Some t =>
                     if negb (bool_decide (hex t = [])) && negb (bool_decide (hexToken = hex t))
                     then addLogEntry "WARN" [P "Broker assigned a different token than derived: "; PB hexToken;
                                              P " (expected "; PB (hex t); P ")"]
                     else dret tt
                 | None => dret tt
                 end) ;!
                let mode := match static with Some _ => str "static" | None => str "random" end in
                let! now := time_Now in
                dset (fun d => set_p2pTokens (d_p2pTokens d ++
                        [mkP2PToken hexToken false p2pTokenRefreshInterval (now + p2pTokenRefreshInterval) mode peerPubB64
                           brokerAddr]) d) ;!
                emit_p2p ;!
                addLogEntry "INFO" [P "Generated p2p token: "; PB hexToken] ;!
                dret (Ok hexToken)
            end
        end
    end.

Definition RemoveP2PToken (token : bytes) : dm (result unit) :=
  let! l := dget d_p2pTokens in
  match drop_p2p token l with
  | None => dret (Err (errorf "token not found"))
  | Some r =>
      dset (set_p2pTokens r) ;! emit_p2p ;! addLogEntry "INFO" [P "Removed p2p token: "; PB token] ;! dret (Ok tt)
  end.

Definition removeP2PTokenByValue (token : bytes) : dm unit :=
  let! l := dget d_p2pTokens in
  match drop_p2p token l with None => dret tt | Some r => dset (set_p2pTokens r) ;! emit_p2p end.

Definition refreshP2PToken (token : bytes) (c : broker_calls) : dm bool :=
  match bk_client c with
  | Err e => addLogEntry "ERROR" [P "p2p token refresh: broker client: "; PE e] ;! dret false
  | Ok _ =>
      match hex_DecodeString token with
      | None => addLogEntry "ERROR" [P "p2p token refresh: decode token: "; PE illegal_hex] ;! dret false
      | Some raw =>
          match bk_echo c with
          | Err e => addLogEntry "ERROR" [P "p2p token refresh: echo: "; PE e] ;! dret false
          | Ok _ =>
              match bk_register c (Some raw) with
              | Err e => addLogEntry "ERROR" [P "p2p token refresh: register: "; PE e] ;! dret false
              | Ok _ =>
                  let! now := time_Now in
                  dset (fun d => set_p2pTokens (set_expiry (fun t => bool_decide (pt_Token t = token))
                                   (now + p2pTokenRefreshInterval) (d_p2pTokens d)) d) ;!
                  emit_p2p ;! dret true
              end
          end
      end
  end.

(** ** The commands *)

(** [NewBrokerClient] runs when there is no client. *)
Definition handleGenerateP2PToken (id : bytes) (params : result (bytes * bytes)) (client : result unit) (c : broker_calls)
  : dm unit :=
  with_params id params (fun '(brokerAddr, peerPubB64) =>
    match client with
    | Err e => emitError id [P "broker client: "; PE e]
    | Ok _ =>
        let! r := GenerateP2PToken true brokerAddr peerPubB64 c in
        match r with
        | Err e => emitError id [P "generate p2p token: "; PE e]
        | Ok tokenHex =>
            emit EvtResponse id (VMap [("token"%string, VStr tokenHex); ("broker_addr"%string, VStr brokerAddr);
                                       ("peer_pub_b64"%string, VStr peerPubB64)])
        end
    end).

Definition handleRemoveP2PToken (id : bytes) (params : result bytes) : dm unit :=
  with_params id params (fun token =>
    let! r := RemoveP2PToken token in
    match r with Err e => emitError id [PE e] | Ok _ => emit EvtResponse id (ok_status "removed") end).

Definition handleListP2PTokens (id : bytes) : dm unit := let! v := GetP2PTokens in emit EvtResponse id v.

End p2p.

(** ** [runP2PRefresh]

    The goroutine has a ticker and an expiry timer.  A due event is handled before
    time moves past it. *)

Inductive refresh_event := Wait (t : Z) | Tick (refreshed : bool) (expiresAt : Z) | Expire | CtxDone.

Record refresh_loop := mkRefresh {
  rl_now : Z; rl_tick : Z; rl_expiry : option Z; rl_ended : bool; rl_refreshes : nat
}.

(** [scheduleExpiry] at time [now]. *)
Definition scheduleExpiry (now expiresAt : Z) : Z :=
  now + (if expiresAt - now <=? 0 then Second else expiresAt - now).

(** The goroutine of a token generated at [created], started at [now]. *)
Definition runP2PRefresh (created now : Z) : refresh_loop :=
  mkRefresh now (now + p2pTokenRefreshInterval) (Some (scheduleExpiry now (created + p2pTokenRefreshInterval))) false 0.

Definition refresh_step (l : refresh_loop) (e : refresh_event) : option refresh_loop :=
  match e with
  | Wait t =>
      if (rl_now l <? t) && (rl_ended l || (t <=? rl_tick l)) && match rl_expiry l with Some x => t <=? x | None => true end
      then Some (mkRefresh t (rl_tick l) (rl_expiry l) (rl_ended l) (rl_refreshes l)) else None
  | Tick refreshed expiresAt =>
      if negb (rl_ended l) && (rl_tick l <=? rl_now l) then
        Some (if refreshed
              then mkRefresh (rl_now l) (rl_now l + p2pTokenRefreshInterval) (Some (scheduleExpiry (rl_now l) expiresAt))
                     false (S (rl_refreshes l))
              else mkRefresh (rl_now l) (rl_tick l) None true (rl_refreshes l))
      else None
  | Expire =>
      match rl_expiry l with
      | Some x => if x <=? rl_now l then Some (mkRefresh (rl_now l) (rl_tick l) None true (rl_refreshes l)) else None
      | None => None
      end
  | CtxDone => Some (mkRefresh (rl_now l) (rl_tick l) None true (rl_refreshes l))
  end.

Fixpoint refresh_run (l : refresh_loop) (es : list refresh_event) : option refresh_loop :=
  match es with
  | [] => Some l
  | e :: es => match refresh_step l e with Some l' => refresh_run l' es | None => None end
  end.

(** ** Properties *)

(** The goroutine has ended, or it still waits for an expiry that precedes the
    first tick. *)
Definition unrefreshed (expiry : Z) (l : refresh_loop) : Prop :=
  rl_refreshes l = 0%nat /\
  (rl_ended l = true /\ rl_expiry l = None \/
   rl_ended l = false /\ rl_expiry l = Some expiry /\ expiry < rl_tick l /\ rl_now l <= expiry).

Lemma refresh_step_unrefreshed x l e l' : unrefreshed x l -> refresh_step l e = Some l' -> unrefreshed x l'.
Proof.
  destruct l as [now tick ex en n]. unfold unrefreshed. cbn. intros [-> [[-> ->]|(-> & -> & Ht & Hn)]].
  - destruct e as [t|r y| |]; cbn; [|done|done|]; [destruct (_ && _)|]; intros; simplify_eq; cbn; auto.
  - destruct e as [t|r y| |]; cbn.
    + destruct (Z.leb_spec t x); rewrite ?andb_false_r; [|done]. destruct (_ && _); intros; simplify_eq; cbn. auto 10.
    + destruct (Z.leb_spec tick now); [lia|done].
    + destruct (_ <=? _); intros; simplify_eq; cbn; auto.
    + intros; simplify_eq; cbn; auto.
Qed.

Lemma refresh_run_unrefreshed x es : forall l l', unrefreshed x l -> refresh_run l es = Some l' -> unrefreshed x l'.
Proof.
  induction es as [|e es IH]; cbn; intros l l' Hl; [by intros [= <-]|].
  destruct (refresh_step l e) eqn:E; [|done]. by apply IH, (refresh_step_unrefreshed _ _ _ _ Hl E).
Qed.

(** A peer-to-peer token is never refreshed: its expiry, set when it was generated,
    comes before the first tick of a ticker with the same interval, which starts
    later.  Thirty seconds after it was generated the token is gone. *)
Theorem p2p_token_not_refreshed created now es l :
  created < now < created + p2pTokenRefreshInterval ->
  refresh_run (runP2PRefresh created now) es = Some l ->
  rl_refreshes l = 0%nat /\ (created + p2pTokenRefreshInterval < rl_now l -> rl_ended l = true).
Proof.
  intros Hc Hr. destruct (refresh_run_unrefreshed (created + p2pTokenRefreshInterval) es
    (runP2PRefresh created now) l) as [Hn Hl]; [|done|].
  - unfold unrefreshed, runP2PRefresh, scheduleExpiry. cbn. split; [done|right].
    destruct (Z.leb_spec (created + p2pTokenRefreshInterval - now) 0); [lia|].
    split_and!; try done; try (f_equal; lia); lia.
  - split; [done|]. intros. destruct Hl as [[? _]|(_ & _ & _ & ?)]; [done|lia].
Qed.

Lemma p2p_token_not_refreshed_witness :
  let es := [Wait (30 * Second); Expire; Wait (31 * Second)] in
  0 < 1 < 0 + p2pTokenRefreshInterval /\
  exists l, refresh_run (runP2PRefresh 0 1) es = Some l /\ rl_ended l = true.
Proof.
  intros es. split; [vm_compute; auto|]. eexists. split; [reflexivity|].
  refine (proj2 (p2p_token_not_refreshed 0 1 es _ _ eq_refl) _); vm_compute; auto.
Defined.
