(* ===== verification/DaemonVerify.v ===== *)
(** * The daemon: peer verification (cmd/daemon/verifier.go)

    A handshake calls the verifier of the current mode, which may ask the user: it
    registers a request, emits it, and waits for the verdict or for two minutes.
    The user answers with the command verify_response.  Verifiers of several
    connections run at once: [verify_step] interleaves them with the answers.

    [verification_sound] shows that a verifier accepts a peer only in a mode that
    does not ask, or because the first answer to its own request accepted it. *)

From S2P Require Import Prelude GoErr Strconv Encoding Process Wire Pb Route Version Crypto Fingerprint Enigma Serde Transport Bolt Engine Storage DaemonNet NetIP BrokerCodec Daemon DaemonLaws.
#[local] Open Scope dm_scope.

Section verify.
Context `{Crypto} `{ProtoRuntime} `{Bolt}.

(** ** The verifiers *)

(** A verifier that waits: its request, the peer, whether the peer is to be stored
    if it is accepted, and the status to go back to. *)
Record waiting := mkWaiting {
  w_reqID : Z; w_peer : Peer; w_known : bool; w_status : ConnectionStatus; w_msg : text
}.

(** The prologue that the strict and the quick verifier share. *)
Definition request_verification (peer : Peer) (known : bool) (mode : string) : dm waiting :=
  let! prevStatus := dget d_status in
  let! prevMsg := dget d_statusMsg in
  let! reqID := dget (fun d => i64 (u64 (d_verifIDCounter d + 1))) in
  dset (fun d => set_verif (<[reqID := mkPending [] (Name peer) (Hex (PublicKey peer))]> (d_verifRequests d)) reqID d) ;!
  setStatus StatusVerifying [P "Verifying fingerprint of "; PB (Name peer); P "..."] ;!
  addLogEntry "INFO" [P "Verifying peer: "; PB (Name peer)] ;!
  emit EvtVerifyPeer [] (VMap [("request_id"%string, VInt reqID); ("peer_name"%string, VStr (Name peer));
    ("emoji"%string, VList (map VStr (Emoji (PublicKey peer)))); ("hex"%string, VStr (Hex (PublicKey peer)));
    ("known"%string, VBool known); ("mode"%string, VStr (str mode))]) ;!
  dret (mkWaiting reqID peer known prevStatus prevMsg).

(** [if !known && !d.incognito { peer.FirstSeen = time.Now(); store.StorePeer(peer) }] *)
Definition save_peer (peer : Peer) (known : bool) : dm unit :=
  let! incognito := dget d_incognito in
  if known || incognito then dret tt
  else
    let! now := time_Now in
    let! r := call (StorePeer (mkPeer now (LastSeen peer) (Name peer) (AppVersionOf peer) (PublicKey peer))) in
    match r with Err e => addLogEntry "WARN" [P "Failed to save peer: "; PE e] | Ok _ => dret tt end.

Definition createStrictVerifier (peer : Peer) : dm waiting :=
  let! found := call (FindPeer (PublicKey peer)) in
  request_verification peer (is_ok found) "strict".

Definition createQuickVerifier (peer : Peer) : dm (unit + waiting) :=
  let! found := call (FindPeer (PublicKey peer)) in
  match found with
  | Ok _ => addLogEntry "INFO" [P "Auto-accepted known peer: "; PB (Name peer)] ;! dret (inl tt)
  | Err _ => let! w := request_verification peer false "quick" in dret (inr w)
  end.

Definition createAutoAcceptVerifier (peer : Peer) : dm unit :=
  let! found := call (FindPeer (PublicKey peer)) in
  save_peer peer (is_ok found) ;!
  addLogEntry "INFO" [P "Auto-accepted peer: "; PB (Name peer)].

(** A verifier up to the point where it waits, if it does; [inl tt] accepts. *)
Definition getVerifier (mode : VerificationMode) (peer : Peer) : dm (unit + waiting) :=
  match mode with
  | VerificationModeStrict => let! w := createStrictVerifier peer in dret (inr w)
  | VerificationModeQuick => createQuickVerifier peer
  | VerificationModeOther _ => createAutoAcceptVerifier peer ;! dret (inl tt)
  end.

Definition remove_request (reqID : Z) : dm unit :=
  dset (fun d => set_verif (delete reqID (d_verifRequests d)) (d_verifIDCounter d) d).

(** [awaitVerification] receives a verdict, when there is one. *)
Definition receive_verdict (w : waiting) : dm (option error) := fun d =>
  match d_verifRequests d !! w_reqID w with
  | Some pv =>
      match pv_result pv with
      | verdict :: _ => (remove_request (w_reqID w) ;! dret verdict) d
      | [] => None
      end
  | None => None
  end.

(** What a verifier does with the verdict. *)
Definition conclude (w : waiting) : dm (result unit) :=
  let! verdict := receive_verdict w in
  match verdict with
  | Some e => dret (Err e)
  | None => setStatus (w_status w) (w_msg w) ;! save_peer (w_peer w) (w_known w) ;! dret (Ok tt)
  end.

(** The timer of [awaitVerification]. *)
Definition time_out (w : waiting) : dm (result unit) :=
  remove_request (w_reqID w) ;!
  setStatus StatusError [P "Verification timed out"] ;!
  addLogEntry "WARN" [P "Verification timed out for request: "; PB (Itoa (w_reqID w))] ;!
  dret (Err (errorf "verification timed out after 2m0s")).

(** A send on the channel of a request, which holds one verdict. *)
Definition offer (verdict : option error) (pv : pendingVerification) : pendingVerification :=
  match pv_result pv with
  | [] => mkPending [verdict] (pv_peerID pv) (pv_hex pv)
  | _ => pv
  end.

Definition handleVerifyResponse (id : bytes) (params : result (Z * bool)) : dm unit :=
  with_params id params (fun '(reqID, accepted) =>
    let! requests := dget d_verifRequests in
    match requests !! reqID with
    | None =>
        addLogEntry "WARN" [P "Verification request not found: "; PB (Itoa reqID)] ;!
        emitError id [P "verification request not found"]
    | Some pending =>
        let verdict := if accepted : bool then None else Some (Sentinel ErrVerificationFailed) in
        dset (fun d => set_verif (alter (offer verdict) reqID (d_verifRequests d)) (d_verifIDCounter d) d) ;!
        addLogEntry "INFO" [P (if accepted then "Accepted peer: " else "Rejected peer: ");
                            PB (truncateSessionID (pv_peerID pending))] ;!
        emit EvtResponse id (ok_status "ok")
    end).

(** ** Interleaving *)

Inductive outcome := Unasked (mode : VerificationMode) | Asked (reqID : Z).

(** The daemon, the verifiers that wait, and what has happened: the answers that
    found their request, the verdicts of the verifiers. *)
Record verify_world := mkVerify {
  vw_daemon : Daemon;
  vw_waiting : list waiting;
  vw_answers : list (Z * bool);
  vw_verdicts : list (outcome * Peer * result unit)
}.

Inductive verify_event :=
  | Begin (mode : VerificationMode) (peer : Peer)
  | Answer (id : bytes) (reqID : Z) (accepted : bool)
  | Conclude (i : nat)
  | TimeOut (i : nat).

Definition verdict_of (w : verify_world) (i : nat) (k : waiting -> dm (result unit)) : option verify_world :=
  match vw_waiting w !! i with
  | None => None
  | Some t =>
      match k t (vw_daemon w) with
      | None => None
      | Some (r, d) =>
          Some (mkVerify d (delete i (vw_waiting w)) (vw_answers w) (vw_verdicts w ++ [(Asked (w_reqID t), w_peer t, r)]))
      end
  end.

Definition verify_step (w : verify_world) (e : verify_event) : option verify_world :=
  match e with
  | Begin mode peer =>
      match getVerifier mode peer (vw_daemon w) with
      | None => None
      | Some (inl _, d) =>
          Some (mkVerify d (vw_waiting w) (vw_answers w) (vw_verdicts w ++ [(Unasked mode, peer, Ok tt)]))
      | Some (inr t, d) => Some (mkVerify d (vw_waiting w ++ [t]) (vw_answers w) (vw_verdicts w))
      end
  | Answer id reqID accepted =>
      match handleVerifyResponse id (Ok (reqID, accepted)) (vw_daemon w) with
      | None => None
      | Some (_, d) =>
          Some (mkVerify d (vw_waiting w)
                  (match d_verifRequests (vw_daemon w) !! reqID with Some _ => vw_answers w ++ [(reqID, accepted)] | None => vw_answers w end)
                  (vw_verdicts w))
      end
  | Conclude i => verdict_of w i conclude
  | TimeOut i => verdict_of w i time_out
  end.

Fixpoint verify_run (w : verify_world) (es : list verify_event) : option verify_world :=
  match es with
  | [] => Some w
  | e :: es => match verify_step w e with Some w' => verify_run w' es | None => None end
  end.

(** The answers to one request. *)
Definition answers_to (reqID : Z) (l : list (Z * bool)) : list bool :=
  map snd (filter (fun a => fst a = reqID) l).

(** ** Properties *)

(** What the requests consist of. *)
Definition requests (d : Daemon) : gmap Z pendingVerification * Z := (d_verifRequests d, d_verifIDCounter d).

Lemma save_peer_requests peer known : dpres (same requests) (save_peer peer known).
Proof. unfold save_peer. dframe. Qed.

(** A new request gets the next number and an empty channel. *)
Lemma request_spec peer known mode d w d' :
  request_verification peer known mode d = Some (w, d') ->
  let n := i64 (u64 (d_verifIDCounter d + 1)) in
  w_reqID w = n /\
  requests d' = (<[n := mkPending [] (Name peer) (Hex (PublicKey peer))]> (d_verifRequests d), n).
Proof. intros E. apply some_pair in E as [<- <-]. split; reflexivity. Qed.

(** A verifier leaves the requests alone, or it adds one. *)
Lemma getVerifier_spec mode peer d r d' :
  getVerifier mode peer d = Some (r, d') ->
  match r with
  | inl _ => requests d' = requests d /\ mode <> VerificationModeStrict /\
      (mode = VerificationModeQuick -> exists s p, d_db d = Some s /\ fst (FindPeer (PublicKey peer) s) = Ok p)
  | inr w =>
      let n := i64 (u64 (d_verifIDCounter d + 1)) in
      w_reqID w = n /\ exists pv, pv_result pv = [] /\ requests d' = (<[n := pv]> (d_verifRequests d), n)
  end.
Proof.
  destruct mode as [| |n]; cbn [getVerifier].
  - unfold createStrictVerifier, dbind, call, call_opt. destruct (d_db d) as [s|]; [|done].
    destruct (FindPeer _ s) as [f s']. destruct (request_verification _ _ _ _) as [[w d1]|] eqn:E; [|done].
    intros E'. apply some_pair in E' as [<- <-]. destruct (request_spec _ _ _ _ _ _ E) as [Hn Hr]. split; [exact Hn|]. by eexists (mkPending _ _ _).
  - unfold createQuickVerifier, dbind at 1, call, call_opt. destruct (d_db d) as [s|] eqn:Ed; [|done].
    destruct (FindPeer _ s) as [[p|e] s'] eqn:Ef.
    + intros E. apply some_pair in E as [<- <-]. split_and!; [reflexivity|done|]. intros _. exists s, p. by rewrite Ef.
    + unfold dbind. destruct (request_verification _ _ _ _) as [[w d1]|] eqn:E; [|done].
      intros E'. apply some_pair in E' as [<- <-]. destruct (request_spec _ _ _ _ _ _ E) as [Hn Hr]. split; [exact Hn|]. by eexists (mkPending _ _ _).
  - unfold dbind at 1. destruct (createAutoAcceptVerifier peer d) as [[u d1]|] eqn:E; [|done].
    intros E'. apply some_pair in E' as [<- <-]. split_and!; [|done|done]. symmetry.
    refine ((_ : dpres (same requests) (createAutoAcceptVerifier peer)) _ _ _ E).
    unfold createAutoAcceptVerifier. dframe. apply save_peer_requests.
Qed.

Definition verdict_value (accepted : bool) : option error :=
  if accepted then None else Some (Sentinel ErrVerificationFailed).

Lemma response_spec id reqID accepted d u d' :
  handleVerifyResponse id (Ok (reqID, accepted)) d = Some (u, d') ->
  requests d' = match d_verifRequests d !! reqID with
                | Some _ => (alter (offer (verdict_value accepted)) reqID (d_verifRequests d), d_verifIDCounter d)
                | None => requests d
                end.
Proof.
  unfold handleVerifyResponse, with_params, dbind at 1, dget. destruct (d_verifRequests d !! reqID) as [pv|].
  - intros E. by apply some_pair in E as [_ <-].
  - intros E. by apply some_pair in E as [_ <-].
Qed.

Lemma receive_spec w d v d' :
  receive_verdict w d = Some (v, d') ->
  requests d' = (delete (w_reqID w) (d_verifRequests d), d_verifIDCounter d) /\
  exists pv rest, d_verifRequests d !! w_reqID w = Some pv /\ pv_result pv = v :: rest.
Proof.
  unfold receive_verdict. destruct (d_verifRequests d !! w_reqID w) as [pv|]; [|done].
  destruct (pv_result pv) as [|x rest] eqn:E; [done|]. intros [= <- <-]. split; [done|]. by exists pv, rest.
Qed.

Lemma conclude_spec w d r d' :
  conclude w d = Some (r, d') ->
  requests d' = (delete (w_reqID w) (d_verifRequests d), d_verifIDCounter d) /\
  exists v pv rest, d_verifRequests d !! w_reqID w = Some pv /\ pv_result pv = v :: rest /\ (r = Ok tt -> v = None).
Proof.
  unfold conclude, dbind at 1. destruct (receive_verdict w d) as [[v d1]|] eqn:E; [|done].
  destruct (receive_spec _ _ _ _ E) as [Hr (pv & rest & Hp & Hv)]. destruct v as [e|].
  - intros [= <- <-]. split; [done|]. exists (Some e), pv, rest. by split_and!.
  - intros Hk. split; [|by exists None, pv, rest]. rewrite <- Hr. symmetry.
    refine ((_ : dpres (same requests) _) _ _ _ Hk). dframe. apply save_peer_requests.
Qed.

Lemma time_out_spec w d r d' :
  time_out w d = Some (r, d') ->
  requests d' = (delete (w_reqID w) (d_verifRequests d), d_verifIDCounter d) /\ r <> Ok tt.
Proof. intros E. apply some_pair in E as [<- <-]. split; [reflexivity|discriminate]. Qed.

(** The channel of a request holds the first answer to it. *)
Definition channel_ok (reqs : gmap Z pendingVerification) (answers : list (Z * bool)) (t : waiting) : Prop :=
  exists pv, reqs !! w_reqID t = Some pv /\
    pv_result pv = map verdict_value (take 1 (answers_to (w_reqID t) answers)).

Definition verdict_ok (answers : list (Z * bool)) (v : outcome * Peer * result unit) : Prop :=
  let '(o, _, r) := v in
  r = Ok tt ->
  match o with
  | Unasked mode => mode <> VerificationModeStrict
  | Asked reqID => head (answers_to reqID answers) = Some true
  end.

Record verify_inv (reqs : gmap Z pendingVerification) (c : Z) (threads : list waiting) (answers : list (Z * bool))
    (verdicts : list (outcome * Peer * result unit)) : Prop := mkVerifyInv {
  vi_channels : Forall (channel_ok reqs answers) threads;
  vi_threads : NoDup (map w_reqID threads);
  vi_requests : forall k pv, reqs !! k = Some pv -> 0 < k <= c;
  vi_answers : Forall (fun a => 0 < fst a <= c) answers;
  vi_verdicts : Forall (verdict_ok answers) verdicts
}.

Lemma answers_to_snoc k l a : answers_to k (l ++ [a]) = answers_to k l ++ (if decide (fst a = k) then [snd a] else []).
Proof. unfold answers_to. rewrite filter_app, map_app. f_equal. cbn. by destruct (decide (fst a = k)). Qed.

Lemma answers_to_fresh k c l : Forall (fun a => 0 < fst a <= c) l -> c < k -> answers_to k l = [].
Proof.
  intros Hl Hk. induction Hl as [|a l Ha Hl IH]; [done|]. unfold answers_to in *. rewrite filter_cons_False by lia. done.
Qed.

Lemma head_snoc_some {A} (l : list A) r x : head l = Some x -> head (l ++ r) = Some x.
Proof. by destruct l. Qed.

Lemma inv_begin reqs c threads answers verdicts t pv :
  verify_inv reqs c threads answers verdicts -> 0 <= c -> w_reqID t = c + 1 -> pv_result pv = [] ->
  verify_inv (<[c + 1 := pv]> reqs) (c + 1) (threads ++ [t]) answers verdicts.
Proof.
  intros [Hc Ht Hr Ha Hv] H0' Hid Hp.
  assert (Hlt : Forall (fun t => w_reqID t <= c) threads).
  { eapply Forall_impl; [exact Hc|]. intros t' (pv' & Hl & _). apply Hr in Hl. lia. }
  split; [| | | |done].
  - apply Forall_app. split.
    + eapply Forall_impl; [apply Forall_and; split; [exact Hc|exact Hlt]|].
      intros t' [(pv' & Hl & E) Hlt']. exists pv'. split; [|done]. by rewrite lookup_insert_ne by lia.
    + constructor; [|constructor]. exists pv. rewrite Hid, lookup_insert_eq. split; [done|].
      by rewrite (answers_to_fresh _ c) by (done || lia).
  - rewrite map_app. apply NoDup_app. split_and!; [done| |apply NoDup_singleton].
    intros x Hx. apply list_elem_of_fmap in Hx as (t' & -> & Hin). rewrite Forall_forall in Hlt.
    specialize (Hlt _ Hin). intros Hx%list_elem_of_singleton. cbn in Hx. lia.
  - intros k pv'. destruct (decide (k = c + 1)) as [->|]; [lia|]. rewrite lookup_insert_ne by done.
    intros Hl. apply Hr in Hl. lia.
  - eapply Forall_impl; [exact Ha|]. intros a; cbn; lia.
Qed.

Lemma inv_answer reqs c threads answers verdicts k b pv :
  verify_inv reqs c threads answers verdicts -> reqs !! k = Some pv ->
  verify_inv (alter (offer (verdict_value b)) k reqs) c threads (answers ++ [(k, b)]) verdicts.
Proof.
  intros [Hc Ht Hr Ha Hv] Hk. split; [|done| | |].
  - eapply Forall_impl; [exact Hc|]. intros t (pv' & Hl & E). unfold channel_ok. rewrite answers_to_snoc. cbn.
    destruct (decide (k = w_reqID t)) as [->|Hne].
    + exists (offer (verdict_value b) pv'). rewrite lookup_alter_eq, Hl. split; [done|].
      unfold offer. rewrite E. by destruct (answers_to _ _) as [|x r]; cbn.
    + exists pv'. rewrite lookup_alter_ne, app_nil_r by done. done.
  - intros k' pv' Hl. destruct (decide (k = k')) as [<-|]; [by eapply Hr|].
    rewrite lookup_alter_ne in Hl by done. by eapply Hr.
  - apply Forall_app. split; [done|]. constructor; [|constructor]. cbn. by eapply Hr.
  - eapply Forall_impl; [exact Hv|]. intros [[[m|r] p] res]; cbn; [done|].
    intros Hh Hres. rewrite answers_to_snoc. by apply head_snoc_some, Hh.
Qed.

Lemma inv_verdict reqs c threads answers verdicts i t r :
  verify_inv reqs c threads answers verdicts -> threads !! i = Some t ->
  (r = Ok tt -> head (answers_to (w_reqID t) answers) = Some true) ->
  verify_inv (delete (w_reqID t) reqs) c (delete i threads) answers (verdicts ++ [(Asked (w_reqID t), w_peer t, r)]).
Proof.
  intros [Hc Ht Hr Ha Hv] Hi Hres. pose proof (delete_Permutation _ _ _ Hi) as Hp.
  rewrite Hp in Ht. apply NoDup_cons in Ht as [Hnin Hnd]. rewrite Hp in Hc. apply Forall_cons in Hc as [_ Hc].
  split; [|done| |done|].
  - apply Forall_forall. intros t' Hin. rewrite Forall_forall in Hc. destruct (Hc _ Hin) as (pv & Hl & E).
    exists pv. split; [|done]. rewrite lookup_delete_ne; [done|]. intros Heq. apply Hnin. rewrite Heq.
    by apply list_elem_of_fmap_2.
  - intros k pv [_ Hl]%lookup_delete_Some. by eapply Hr.
  - apply Forall_app. split; [done|]. by constructor; [|constructor].
Qed.

(** The invariant of a world, after at most [n] requests. *)
Definition world_ok (n : Z) (w : verify_world) : Prop :=
  let d := vw_daemon w in
  0 <= d_verifIDCounter d <= n /\
  verify_inv (d_verifRequests d) (d_verifIDCounter d) (vw_waiting w) (vw_answers w) (vw_verdicts w).

Lemma requests_eq d r c : requests d = (r, c) -> d_verifRequests d = r /\ d_verifIDCounter d = c.
Proof. by intros [= -> ->]. Qed.

Lemma step_ok n w e w' : n + 1 < 2 ^ 63 -> world_ok n w -> verify_step w e = Some w' -> world_ok (n + 1) w'.
Proof.
  intros Hn [Hc Hi]. destruct w as [d threads answers verdicts]. unfold world_ok in *. cbn [vw_daemon vw_waiting vw_answers vw_verdicts] in *.
  assert (Hverdict : forall i t r d', threads !! i = Some t ->
    requests d' = (delete (w_reqID t) (d_verifRequests d), d_verifIDCounter d) ->
    (r = Ok tt -> head (answers_to (w_reqID t) answers) = Some true) ->
    world_ok (n + 1) (mkVerify d' (delete i threads) answers (verdicts ++ [(Asked (w_reqID t), w_peer t, r)]))).
  { intros i t r d' Ht Hr Hres. apply requests_eq in Hr as [Hr1 Hr2]. split; cbn; [lia|]. rewrite Hr1, Hr2.
    by apply inv_verdict. }
  destruct e as [mode peer|id k b|i|i]; cbn [verify_step vw_daemon vw_waiting vw_answers vw_verdicts].
  - destruct (getVerifier mode peer d) as [[[u|t] d']|] eqn:E; [| |done]; intros [= <-]; apply getVerifier_spec in E.
    + destruct E as (Hr & Hm & _). apply requests_eq in Hr as [Hr1 Hr2]. split; cbn; [lia|]. rewrite Hr1, Hr2.
      destruct Hi. split; try done. apply Forall_app. split; [done|]. constructor; [by intros _|constructor].
    + destruct E as (Hid & pv & Hp & Hr). rewrite i64_u64 in Hid, Hr by lia. apply requests_eq in Hr as [Hr1 Hr2].
      split; cbn; [lia|]. rewrite Hr1, Hr2. by apply inv_begin; [|lia|..].
  - destruct (handleVerifyResponse id _ d) as [[u d']|] eqn:E; [|done]. intros [= <-]. apply response_spec in E.
    destruct (d_verifRequests d !! k) as [pv|] eqn:El; apply requests_eq in E as [Hr1 Hr2]; split; cbn; try lia;
      rewrite Hr1, Hr2; [by eapply inv_answer|done].
  - unfold verdict_of. cbn. destruct (threads !! i) as [t|] eqn:Et; [|done].
    destruct (conclude t d) as [[r d']|] eqn:E; [|done]. intros [= <-].
    destruct (conclude_spec _ _ _ _ E) as [Hr (v & pv & rest & Hl & Hv & Hok)].
    apply Hverdict; [done|done|]. intros Hres. rewrite (Hok Hres) in Hv.
    pose proof (vi_channels _ _ _ _ _ Hi) as Hch. rewrite Forall_lookup in Hch.
    destruct (Hch _ _ Et) as (pv' & Hl' & Hv'). rewrite Hl in Hl'. simplify_eq. rewrite Hv in Hv'.
    by destruct (answers_to _ _) as [|[] r'].
  - unfold verdict_of. cbn. destruct (threads !! i) as [t|] eqn:Et; [|done].
    destruct (time_out t d) as [[r d']|] eqn:E; [|done]. intros [= <-].
    destruct (time_out_spec _ _ _ _ E) as [Hr Hne]. by apply Hverdict.
Qed.

Lemma run_ok es : forall n w w', n + Z.of_nat (length es) < 2 ^ 63 -> world_ok n w -> verify_run w es = Some w' ->
  world_ok (n + Z.of_nat (length es)) w'.
Proof.
  induction es as [|e es IH]; cbn [verify_run length]; intros n w w' Hn Hw.
  - intros [= <-]. by rewrite Z.add_0_r.
  - destruct (verify_step w e) as [w1|] eqn:E; [|done]. intros Hr.
    apply (IH (n + 1)) in Hr; [|lia|by apply (step_ok n w e); [lia|..]].
    by replace (n + Z.of_nat (S (length es))) with (n + 1 + Z.of_nat (length es)) by lia.
Qed.

(** C11: A verifier accepts a peer only if the mode does not ask, or if the first answer
    to its own request accepted it: answers to other requests, later answers and a
    timeout never make it accept.  In strict mode it always asks, and in quick mode
    it asks unless the peer is known. *)
Theorem verification_sound d es w :
  d_verifRequests d = ∅ -> d_verifIDCounter d = 0 -> Z.of_nat (length es) < 2 ^ 63 ->
  verify_run (mkVerify d [] [] []) es = Some w ->
  (forall mode peer, (Unasked mode, peer, Ok tt) ∈ vw_verdicts w -> mode <> VerificationModeStrict) /\
  (forall reqID peer, (Asked reqID, peer, Ok tt) ∈ vw_verdicts w ->
     head (answers_to reqID (vw_answers w)) = Some true) /\
  (forall peer d1 d2, getVerifier VerificationModeQuick peer d1 = Some (inl tt, d2) ->
     exists s p, d_db d1 = Some s /\ fst (FindPeer (PublicKey peer) s) = Ok p).
Proof.
  intros Hd Hc Hn Hr.
  destruct (run_ok es 0 (mkVerify d [] [] []) w) as [_ Hi]; [lia| |done|].
  { split; cbn; [lia|]. rewrite Hd. split; [constructor|constructor| |constructor|constructor].
    intros k pv. by rewrite lookup_empty. }
  pose proof (vi_verdicts _ _ _ _ _ Hi) as Hv. rewrite Forall_forall in Hv. split_and!.
  - intros mode peer Hin. by apply (Hv _ Hin).
  - intros k peer Hin. by apply (Hv _ Hin).
  - intros peer d1 d2 E. apply getVerifier_spec in E as (_ & _ & Hk). by apply Hk.
Qed.

End verify.

(** ** Witnesses *)

Section sample.
Existing Instance toy_crypto.
Existing Instance wire_runtime.
Existing Instance map_bolt.

Definition sample_daemon : Daemon :=
  set_daemon_db (Some (sample_store [])) (NewDaemon (fun n => Z.of_nat n * Second)).

Definition sample_visitor (n : Z) : Peer := mkPeer 0 0 (str "visitor") (str "1.0.0") (sample_key n).

(** Two verifiers wait; the second is first rejected and then accepted. *)
Definition sample_verify : list verify_event :=
  [Begin VerificationModeStrict (sample_visitor 1); Begin VerificationModeQuick (sample_visitor 2);
   Answer (str "a") 2 false; Answer (str "b") 1 true; Answer (str "c") 2 true; Conclude 1; Conclude 0].

Definition verdict_summary (w : verify_world) : list (option Z * bool) :=
  map (fun v => (match fst (fst v) with Asked r => Some r | Unasked _ => None end, is_ok (snd v))) (vw_verdicts w).

Lemma sample_verify_runs :
  exists w, verify_run (mkVerify sample_daemon [] [] []) sample_verify = Some w /\
    verdict_summary w = [(Some 2, false); (Some 1, true)].
Proof.
  assert (Hs : verdict_summary <$> verify_run (mkVerify sample_daemon [] [] []) sample_verify
    = Some [(Some 2, false); (Some 1, true)]) by (vm_compute; reflexivity).
  destruct (verify_run _ _) as [w|]; [|discriminate Hs]. exists w. by injection Hs.
Qed.

Lemma verification_sound_witness :
  exists w, verify_run (mkVerify sample_daemon [] [] []) sample_verify = Some w /\
    verdict_summary w = [(Some 2, false); (Some 1, true)] /\
    forall reqID peer, (Asked reqID, peer, Ok tt) ∈ vw_verdicts w -> head (answers_to reqID (vw_answers w)) = Some true.
Proof.
  destruct sample_verify_runs as (w & Hr & Hs). exists w. split; [exact Hr|]. split; [exact Hs|].
  apply (verification_sound sample_daemon sample_verify w); [reflexivity|reflexivity|reflexivity|exact Hr].
Defined.

End sample.
