(* ===== verification/DaemonServer.v ===== *)
(** * The daemon: servers, relay tokens and new sessions (cmd/daemon/network.go)

    Starting, stopping and restarting the server, the list of relay tokens, and
    what the daemon does with a transport when a session begins.  What comes from
    the relay, the broker, the sockets, [kamune.NewServer] and [kamune.NewDialer]
    is an argument; [meanwhile] is what the other goroutines do while a handler
    waits for the network. *)

From S2P Require Import Prelude GoErr Strconv Encoding Process Wire Pb Route Version Crypto Fingerprint Enigma Serde Transport Bolt Engine Storage RelayToken DaemonNet NetIP BrokerCodec Daemon DaemonP2P.
#[local] Open Scope dm_scope.

Record StartServerParams := mkStart {
  sp_Addr : bytes; sp_Transport : bytes; sp_RelayAddr : bytes; sp_Password : bytes; sp_Name : bytes;
  sp_BrokerAddr : bytes; sp_PeerPubB64 : bytes; sp_DirectPeerAddr : bytes
}.

(** What [listenRelayTracked] returns: the listener, its token and lifetimes. *)
Definition relay_listen : Type := result (nat * bytes * Z * Z).

Section server.
Context `{Crypto} `{ProtoRuntime} `{Bolt}.

Record start_inputs := mkInputs {
  si_relay : relay_listen;
  si_meanwhile : dm unit;
  si_added : result unit;                 (* multiListener.Add *)
  si_broker : result unit;                (* NewBrokerClient, if there is none yet *)
  si_calls : broker_calls;                (* what the broker client returns *)
  si_p2p_listener : result unit;          (* newP2PListener *)
  si_direct : result bytes;               (* newDirectP2PListener: its address *)
  si_server : bytes -> result (nat * bytes);  (* NewServer on an address: the server and its key *)
  si_serving : dm unit                    (* what the server and others do before its start is announced *)
}.

Definition token_value (t : relayToken) : value :=
  VMap [("token"%string, VStr (rt_Token t)); ("consumed"%string, VBool (rt_Consumed t)); ("ttl_ns"%string, VInt (rt_TTL t));
        ("session_ttl_ns"%string, VInt (rt_SessionTTL t)); ("expires_at"%string, VTime (rt_ExpiresAt t));
        ("mode"%string, VStr (rt_Mode t))].

Definition emit_tokens : dm unit :=
  let! l := dget d_relayTokens in emit EvtRelayTokens [] (VMap [("tokens"%string, VList (map token_value l))]).

(** ** Starting a server *)

(** The name a party shows: the one it was given, or a pseudonym. *)
Definition own_name (name : bytes) : dm (result bytes) :=
  let! incognito := dget d_incognito in
  if bool_decide (name = []) || incognito then
    let! pub := call_opt store_PublicKey in
    dret (match pub with Ok k => Ok (Pseudonym k) | Err e => Err e end)
  else dret (Ok name).

(** Why no listener was made: the start was cancelled, or an error. *)
Inductive start_stop := StartCancelled | StartFailed (status : option string) (log : option text) (msg : text).

(** The listener of each transport: the address the server gets, and the first
    relay token, empty for the other transports. *)
Definition start_transport (p : StartServerParams) (i : start_inputs) : dm (start_stop + bytes * bytes) :=
  if bool_decide (sp_Transport p = str "relay") then
    let! pending := dget d_startCancel in
    if negb pending then dret (inl StartCancelled)
    else
      si_meanwhile i ;!
      match si_relay i with
      | Err e =>
          let! pending := dget d_startCancel in
          if negb pending then dret (inl StartCancelled)
          else dret (inl (StartFailed (Some "Failed to connect to relay"%string)
                            (Some [P "Relay listen failed: "; PE e]) [P "relay listen: "; PE e]))
      | Ok (listener, token, ttl, sessionTTL) =>
          match si_added i with
          | Err e => dret (inl (StartFailed None None [P "add listener: "; PE e]))
          | Ok _ =>
              dset (set_relay (sp_RelayAddr p) (sp_Password p) sessionTTL true) ;!
              let! now := time_Now in
              dset (set_relayTokens [mkRelayToken token false ttl sessionTTL (now + ttl) (str "random") listener []]) ;!
              dret (inr ([], token))
          end
      end
  else if bool_decide (sp_Transport p = str "p2p") then
    match si_broker i with
    | Err e => dret (inl (StartFailed (Some "Failed to create broker client"%string) None [P "broker client: "; PE e]))
    | Ok _ =>
        let! token := GenerateP2PToken true (sp_BrokerAddr p) (sp_PeerPubB64 p) (si_calls i) in
        match token with
        | Err e => dret (inl (StartFailed (Some "Failed to create p2p token"%string) None [P "p2p token: "; PE e]))
        | Ok tokenHex =>
            match hex_DecodeString tokenHex with
            | None => dret (inl (StartFailed (Some "Failed to decode p2p token"%string) None
                                   [P "decode token: "; PE illegal_hex]))
            | Some _ =>
                match si_p2p_listener i with
                | Err e => dret (inl (StartFailed (Some "Failed to create p2p listener"%string) None
                                        [P "p2p listener: "; PE e]))
                | Ok _ => dret (inr (sp_Addr p, []))
                end
            end
        end
    end
  else if bool_decide (sp_Transport p = str "direct-p2p") then
    match si_direct i with
    | Err e => dret (inl (StartFailed (Some "Failed to create direct p2p listener"%string) None
                            [P "direct p2p listener: "; PE e]))
    | Ok addr => dret (inr (addr, []))
    end
  else dret (inr (sp_Addr p, [])).

(** The part after the server exists.  Its goroutine runs from then on ([serving]): if
    [ListenAndServe] returns before the tokens are copied, [tokens[0]] panics. *)
Definition start_announce (id : bytes) (p : StartServerParams) (addr name pubKey firstToken : bytes) (serving : dm unit)
  : dm unit :=
  emit EvtFingerprintChange [] (fingerprint_value pubKey) ;!
  emit EvtServerRunning [] (VMap [("running"%string, VBool true); ("transport"%string, VStr (sp_Transport p))]) ;!
  let statusMsg := if bool_decide (sp_Transport p = str "relay")
                   then [P "Server (relay) — connected to "; PB (sp_RelayAddr p)]
                   else [P "Server running on "; PB addr] in
  setStatus StatusConnected statusMsg ;!
  addLogEntry "INFO" (P "Server started: " :: statusMsg) ;!
  loadHistorySessions ;!
  serving ;!
  (match firstToken with
   | [] => dret tt
   | _ =>
       let! tokens := dget d_relayTokens in
       match tokens with
       | [] => fun _ => None                     (* tokens[0] *)
       | t :: _ =>
           emit EvtRelayToken [] (VMap [("token"%string, VStr firstToken); ("ttl_ns"%string, VInt (rt_TTL t));
             ("session_ttl_ns"%string, VInt (rt_SessionTTL t)); ("expires_at"%string, VTime (rt_ExpiresAt t))]) ;!
           emit EvtRelayTokens [] (VMap [("tokens"%string, VList (map token_value tokens))]) ;!
           addLogEntry "INFO" [P "Relay token: "; PB firstToken]
       end
   end) ;!
  emit EvtServerStarted id (VMap [("addr"%string, VStr addr); ("transport"%string, VStr (sp_Transport p));
    ("name"%string, VStr name); ("public_key"%string, VStr (Base64 pubKey));
    ("emoji"%string, VList (map VStr (Emoji pubKey))); ("fingerprint_hex"%string, VStr (Hex pubKey));
    ("fingerprint_sum"%string, VStr (Sum pubKey))]).

Definition start_server (id : bytes) (p : StartServerParams) (i : start_inputs) : dm unit :=
  let! name := own_name (sp_Name p) in
  match name with
  | Err e => setStatus StatusError [P "Failed to get identity"] ;! emitError id [P "getting identity: "; PE e]
  | Ok name =>
      dset (set_myName name) ;!
      (let! incognito := dget d_incognito in
       if incognito then dret tt
       else let! _ := call (SetSettings app_name (str "local_name") name) in dret tt) ;!
      let! t := start_transport p i in
      match t with
      | inl StartCancelled =>
          setStatus StatusDisconnected [P "Cancelled"] ;! emit EvtServerStartCancel [] (VMap [])
      | inl (StartFailed status log msg) =>
          (match status with Some s => setStatus StatusError [P s] | None => dret tt end) ;!
          (match log with Some l => addLogEntry "ERROR" l | None => dret tt end) ;!
          emitError id msg
      | inr (addr, firstToken) =>
          match si_server i addr with
          | Err e =>
              setStatus StatusError [P "Failed to create server"] ;!
              addLogEntry "ERROR" [P "Failed to create server: "; PE e] ;!
              emitError id [P "create server: "; PE e]
          | Ok (srv, pubKey) =>
              dset (set_pubKey pubKey) ;! dset (set_server (Some srv)) ;!
              start_announce id p addr name pubKey firstToken (si_serving i)
          end
      end
  end.

Definition handleStartServer (id : bytes) (params : result StartServerParams) (i : start_inputs) : dm unit :=
  with_params id params (fun p =>
    let! ok := requireStorage id in
    if negb ok then dret tt
    else
      setStatus StatusConnecting [P "Starting server..."] ;!
      dset (set_serverParams (sp_Addr p) (sp_Transport p) (sp_RelayAddr p) (sp_Name p) (sp_Password p)) ;!
      dset (set_startCancel true) ;!
      with_store (setStatus StatusError [P "Storage is not available"] ;! emitError id [P "storage is not available"])
        (start_server id p i) ;!
      dset (set_startCancel false)).

(** What the goroutine of the server does when [ListenAndServe] returns. *)
Definition server_returned (transport : bytes) (r : result unit) : dm unit :=
  (match r with Err e => addLogEntry "ERROR" [P "Server stopped: "; PE e] | Ok _ => dret tt end) ;!
  dset (set_relayTokens []) ;!
  dset (fun d => set_relay [] [] (d_relaySessionTTL d) false d) ;!
  dset (set_server None) ;!
  emit EvtServerRunning [] (VMap [("running"%string, VBool false); ("transport"%string, VStr transport)]) ;!
  setStatus StatusDisconnected [P "Server stopped"] ;!
  addLogEntry "INFO" [P "Server stopped"].

(** ** Stopping and restarting *)

(** What stopping a server waits for: whether [relayListeners.Close] returns, and what
    the other goroutines do while the handler waits for the sessions and for
    [ListenAndServe], which it does for a bounded time. *)
Record stop_inputs := mkStop { so_closes : bool; so_meanwhile : dm unit }.

(** [if d.relayListeners != nil { d.relayListeners.Close() }], with [d.mu] held: it
    waits for the forwarders, one of which may be waiting for [d.mu]
    (MultiListener.v). *)
Definition close_relay_listeners (closes : bool) : dm unit :=
  let! listening := dget d_relayListeners in
  if listening && negb closes then fun _ => None else dret tt.

(** The locked part: the server and the sessions it takes out of the state, to be
    closed. *)
Definition stop_locked (closes : bool) : dm (option nat * list nat) :=
  close_relay_listeners closes ;!
  let! srv := dget d_server in
  let! sessions := dget (fun d => map snd (map_to_list (d_sessions d))) in
  dset (set_server None) ;!
  dset (set_sessions ∅) ;!
  dset (set_relayTokens []) ;!
  dset (fun d => set_relay [] [] (d_relaySessionTTL d) false d) ;!
  dret (srv, sessions).

Definition handleStopServer (id : bytes) (o : stop_inputs) : dm (option nat * list nat) :=
  setStatus StatusDisconnected [P "Stopping server..."] ;!
  addLogEntry "INFO" [P "Stopping server..."] ;!
  let! closed := stop_locked (so_closes o) in
  so_meanwhile o ;!
  emit EvtServerStopped [] (VMap [("running"%string, VBool false)]) ;!
  emit EvtResponse id (ok_status "stopped") ;!
  dret closed.

Definition handleRestartServer (id : bytes) (o : stop_inputs) (i : start_inputs) : dm unit :=
  let! d := dget (fun d => d) in
  addLogEntry "INFO" [P "Restarting server to apply settings change"] ;!
  let! _ := handleStopServer id o in
  handleStartServer id (Ok (mkStart (d_serverAddr d) (d_serverTransport d) (d_serverRelayAddr d) (d_serverPassword d)
                              (d_serverName d) [] [] [])) i.

Definition handleCancelStartServer (id : bytes) : dm unit :=
  dset (set_startCancel false) ;!
  setStatus StatusDisconnected [P "Cancelled"] ;!
  addLogEntry "INFO" [P "Server start cancelled by user"] ;!
  emit EvtServerStartCancel [] (VMap []) ;!
  emit EvtResponse id (ok_status "cancelled").

(** verifier.go *)
Definition handleSetVerificationMode (id : bytes) (params : result Z) (o : stop_inputs) (i : start_inputs) : dm unit :=
  with_params id params (fun n =>
    if (n <? 0) || (2 <? n) then emitError id [P "invalid mode: "; PB (Itoa n)]
    else
      let! running := dget d_server in
      dset (set_verifMode (mode_of n)) ;!
      with_store (dret tt) (let! _ := call (SetSettings app_name (str "verification_mode") (Itoa n)) in dret tt) ;!
      emit EvtResponse id (VMap [("status"%string, VStr (str "ok")); ("mode"%string, VStr (Itoa n))]) ;!
      match running with Some _ => handleRestartServer [] o i | None => dret tt end).

Definition handleGetVerificationMode (id : bytes) : dm unit :=
  let! m := dget d_verifMode in emit EvtResponse id (VMap [("mode"%string, VStr (Itoa (mode_number m)))]).

(** ** Relay tokens *)

Fixpoint consume_token (token : bytes) (l : list relayToken) : list relayToken :=
  match l with
  | [] => []
  | t :: r =>
      if bool_decide (rt_Token t = token) && negb (rt_Consumed t)
      then mkRelayToken (rt_Token t) true (rt_TTL t) (rt_SessionTTL t) (rt_ExpiresAt t) (rt_Mode t) (rt_listener t)
             (rt_sessionID t) :: r
      else t :: consume_token token r
  end.

(** The first entry with the token, and the list without it. *)
Fixpoint take_token (token : bytes) (l : list relayToken) : option (relayToken * list relayToken) :=
  match l with
  | [] => None
  | t :: r =>
      if bool_decide (rt_Token t = token) then Some (t, r)
      else match take_token token r with Some (x, r') => Some (x, t :: r') | None => None end
  end.

Definition markRelayTokenConsumed (token : bytes) : dm unit :=
  dset (fun d => set_relayTokens (consume_token token (d_relayTokens d)) d) ;! emit_tokens.

(** What it schedules: four seconds later the token is dropped and its listener
    stopped. *)
Definition discard_token (token : bytes) : dm unit :=
  let! l := dget d_relayTokens in
  match take_token token l with
  | None => dret tt
  | Some (_, r) =>
      dset (set_relayTokens r) ;! emit_tokens ;! addLogEntry "INFO" [P "Discarded consumed relay token"]
  end.

Definition handleRemoveRelayToken (id : bytes) (params : result bytes) : dm unit :=
  with_params id params (fun token =>
    let! l := dget d_relayTokens in
    match take_token token l with
    | None => emitError id [P "token not found"]
    | Some (_, r) =>
        dset (set_relayTokens r) ;! emit_tokens ;!
        addLogEntry "INFO" [P "Removed relay token: "; PB token] ;!
        emit EvtResponse id (ok_status "removed")
    end).

Definition handleListRelayTokens (id : bytes) : dm unit :=
  let! l := dget d_relayTokens in
  emit EvtResponse id (VMap [("tokens"%string, VList (map token_value l))]).

(** [listen] is the outcome of [listenRelayTracked] with the token it is given. *)
Definition handleGenerateRelayToken (id peerPubB64 : bytes) (listen : option bytes -> relay_listen) (meanwhile : dm unit)
    (added : result unit) : dm unit :=
  let! configured := dget d_relayListeners in
  if negb configured then emitError id [P "relay is not configured — start a relay server first"]
  else
    let! static := match peerPubB64 with
                   | [] => dret None
                   | _ => let! r := deriveP2PToken peerPubB64 in
                          dret (match r with Ok t => Some t | Err _ => None end)
                   end in
    let mode := match static with Some _ => str "static" | None => str "random" end in
    meanwhile ;!
    match listen (default None static) with
    | Err e => emitError id [PE e]
    | Ok (listener, token, ttl, sessionTTL) =>
        let! configured := dget d_relayListeners in
        if negb configured then emitError id [P "server stopped while generating token"]
        else match added with
        | Err e => emitError id [P "add listener: "; PE e]
        | Ok _ =>
            let! now := time_Now in
            dset (fun d => set_relayTokens (d_relayTokens d ++
                    [mkRelayToken token false ttl sessionTTL (now + ttl) mode listener []]) d) ;!
            emit_tokens ;!
            addLogEntry "INFO" [P "Generated relay token: "; PB token] ;!
            let! later := time_Now in
            emit EvtResponse id (VMap [("token"%string, VStr token); ("ttl_ns"%string, VInt ttl);
              ("session_ttl_ns"%string, VInt sessionTTL); ("expires_at"%string, VTime (later + ttl))])
        end
    end.

(** The answer of [handleGetShareInfo]. *)
Definition share_answer (id url transport address port pubKey : bytes) (relayInfo : value) : dm unit :=
  emit EvtResponse id (VMap [("url"%string, VStr url); ("transport"%string, VStr transport);
    ("address"%string, VStr address); ("port"%string, VStr port);
    ("fingerprint_emoji"%string, VStr (emoji_text pubKey)); ("fingerprint_hex"%string, VStr (Hex pubKey));
    ("relay_info"%string, relayInfo)]).

Definition share_relay (id relayAddr relayPassword pubKey : bytes) (listen : relay_listen) (meanwhile : dm unit)
    (added : result unit) : dm unit :=
  meanwhile ;!
  match listen with
  | Err e => emitError id [P "generate relay token: "; PE e]
  | Ok (listener, token, ttl, sessionTTL) =>
      let! configured := dget d_relayListeners in
      if negb configured then emitError id [P "server stopped while generating token"]
      else match added with
      | Err e => emitError id [P "add listener: "; PE e]
      | Ok _ =>
          let! now := time_Now in
          dset (fun d => set_relayTokens (d_relayTokens d ++
                  [mkRelayToken token false ttl sessionTTL (now + ttl) [] listener []]) d) ;!
          emit_tokens ;!
          addLogEntry "INFO" [P "Share card: generated relay token: "; PB token] ;!
          let '(scheme, host, _) := parseRelayAddr relayAddr in
          let password := negb (bool_decide (relayPassword = [])) in
          share_answer id (str "relay://" ++ host ++ str "?token=" ++ token ++ str "&scheme=" ++ scheme ++
                           (if password then str "&password=1" else [])) (str "relay") [] [] pubKey
            (VMap [("address"%string, VStr host); ("scheme"%string, VStr scheme); ("token"%string, VStr token);
                   ("password"%string, VBool password)])
      end
  end.

(** [localIP] is the outcome of [detectLocalIP]. *)
Definition handleGetShareInfo (id : bytes) (localIP : result bytes) (listen : relay_listen) (meanwhile : dm unit)
    (added : result unit) : dm unit :=
  let! d := dget (fun d => d) in
  match d_server d with
  | None => emitError id [P "server is not running"]
  | Some _ =>
      let transport := d_serverTransport d in
      if bool_decide (transport ∈ [str "tcp"; str "udp"; []]) then
        let '(host, port, autoDetect) := parseServerAddr (d_serverAddr d) in
        let scheme := match transport with [] => str "tcp" | _ => transport end in
        let answer address :=
          share_answer id (scheme ++ str "://" ++ address ++ str ":" ++ port) transport address port (d_pubKey d) VNull in
        if autoDetect : bool then
          match localIP with
          | Err e => emitError id [P "detect local IP: "; PE e]
          | Ok ip => answer ip
          end
        else answer host
      else if bool_decide (transport = str "relay")
      then share_relay id (d_relayAddr d) (d_relayPassword d) (d_pubKey d) listen meanwhile added
      else emitError id [P "unknown transport: "; PB transport]
  end.

(** ** New sessions *)

(** [deriveAndStoreRelayTokens]; [tokens] is the outcome of
    [relayconn.DeriveRelayTokens]. *)
Definition deriveAndStoreRelayTokens (sessionID : bytes) (tokens : result (list bytes)) : dm unit :=
  match tokens with
  | Err e => addLogEntry "WARN" [P "Failed to derive relay tokens: "; PE e]
  | Ok l =>
      with_store (dret tt)
        (let! r := call (SetMeta sessionID (NewByteSlicesMeta RelayTokensKey l)) in
         match r with
         | Err e => addLogEntry "WARN" [P "Failed to store relay tokens: "; PE e]
         | Ok _ => dret tt
         end)
  end.

(** [if s := d.store(); s != nil && !d.incognito {...}] at the start of a session;
    the result says whether there is a store. *)
Definition record_session (sessionID peerKey : bytes) (tokens : result (list bytes)) : dm bool :=
  let! incognito := dget d_incognito in
  with_store (dret false)
    (if incognito then dret false
     else
       (let! r := call_opt (CreateSession sessionID peerKey) in
        match r with
        | Err e => addLogEntry "WARN" [P "Failed to create session record: "; PE e]
        | Ok _ => dret tt
        end) ;!
       deriveAndStoreRelayTokens sessionID tokens ;!
       dret true).

Definition warn_version (sessionID remote : bytes) : dm unit :=
  match checkMinorMismatch AppVersion remote with
  | Some msg =>
      addLogEntry "WARN" msg ;!
      emit EvtVersionWarning [] (VMap [("session_id"%string, VStr sessionID); ("message"%string, VText msg)])
  | None => dret tt
  end.

(** A new session object; the pointer to it. *)
Definition new_session (s : liveSession) : dm nat :=
  let! p := dget (fun d => length (d_heap d)) in
  dset (fun d => set_heap (d_heap d ++ [s]) d) ;! dret p.

Definition register_session (sessionID : bytes) (p : nat) : dm unit :=
  dset (fun d => set_sessions (<[sessionID := p]> (d_sessions d)) d).

(** The serverHandler links the session to the first consumed token. *)
Fixpoint link_token (sessionID : bytes) (l : list relayToken) : list relayToken :=
  match l with
  | [] => []
  | t :: r =>
      if rt_Consumed t
      then mkRelayToken (rt_Token t) true (rt_TTL t) (rt_SessionTTL t) (rt_ExpiresAt t) (rt_Mode t) (rt_listener t) sessionID :: r
      else t :: link_token sessionID r
  end.

(** [handleDial] after [Dial] has returned the transport [t]. *)
Definition dial_session (id addr transportType : bytes) (sessionTTL : Z) (t : nat) (sessionID : bytes) (peer : Peer)
    (tokens : result (list bytes)) : dm nat :=
  let! now := time_Now in
  let! started := time_Now in
  let! p := new_session (mkLive sessionID (Name peer) (AppVersionOf peer) addr t [] now false false transportType
                           sessionTTL started 0 [] false false 0) in
  let! _ := record_session sessionID (PublicKey peer) tokens in
  update_session p (fun s => mkLive (ls_ID s) (ls_PeerName s) (ls_RemoteVersion s) (ls_RemoteAddr s) (ls_Transport s)
    (ls_Messages s) (ls_LastActivity s) (ls_ReceiveDone s) (ls_IsServer s) (ls_TransportType s) (ls_SessionTTL s)
    (ls_SessionStartedAt s) (ls_pingFailures s) (ls_pongCh s) true false (ls_keepAliveDone s)) ;!
  loadChatHistory p sessionID ;!
  warn_version sessionID (AppVersionOf peer) ;!
  register_session sessionID p ;!
  (let! heap := dget d_heap in
   match heap !! p with Some s => emit EvtSessionStarted id (sessionInfo s) | None => fun _ => None end) ;!
  setStatus StatusConnected [P "Connected to "; PB addr] ;!
  addLogEntry "INFO" [P "Connected to "; PB addr; P " (session: "; PB sessionID; P ")"] ;!
  dret p.

(** *** Dialling *)

Record DialParams := mkDial {
  dp_Addr : bytes; dp_Transport : bytes; dp_RelayAddr : bytes; dp_Token : bytes; dp_Password : bytes; dp_Name : bytes;
  dp_BrokerAddr : bytes; dp_P2PToken : bytes; dp_DirectPeerAddr : bytes
}.

(** relay.go: what [dialRelayFuncWithSessionTTL] checks before it returns the dial
    function; the token. *)
Definition dialRelayFuncWithSessionTTL (relayAddr tokenHex : bytes) : result bytes :=
  if bool_decide (TrimSpace relayAddr = []) then Err (errorf "relay server address is required")
  else if bool_decide (TrimSpace tokenHex = []) then Err (errorf "relay token is required")
  else match hex_DecodeString tokenHex with
       | None => Err (wrapf "decode token" illegal_hex)
       | Some token => Ok token
       end.

(** Outcomes of the network before the connection is made: [NewBrokerClient] if
    there is none yet, [WaitMatch] on a token, [HolePunch] and [directP2PDial]. *)
Record dial_inputs := mkDialInputs {
  di_broker : result unit; di_match : bytes -> result unit; di_punch : result unit; di_direct : result unit
}.

(** The address the dialer gets. *)
Definition dial_transport (p : DialParams) (i : dial_inputs) : (option string * option text * text) + bytes :=
  if bool_decide (dp_Transport p = str "relay") then
    match dialRelayFuncWithSessionTTL (dp_RelayAddr p) (dp_Token p) with
    | Err e => inl (Some "Failed to prepare relay dial"%string, Some [P "Relay dial preparation failed: "; PE e],
                    [P "relay dial func: "; PE e])
    | Ok _ => inr (dp_RelayAddr p)
    end
  else if bool_decide (dp_Transport p = str "p2p") then
    match di_broker i with
    | Err e => inl (None, None, [P "broker client: "; PE e])
    | Ok _ =>
        match di_match i (dp_P2PToken p) with
        | Err e => inl (None, None, [P "wait match: "; PE e])
        | Ok _ =>
            match di_punch i with
            | Err e => inl (None, None, [P "hole punch: "; PE e])
            | Ok _ => inr (str "p2p")
            end
        end
    end
  else if bool_decide (dp_Transport p = str "direct-p2p") then
    match di_direct i with
    | Err e => inl (None, None, [P "direct p2p dial: "; PE e])
    | Ok _ => inr (dp_DirectPeerAddr p)
    end
  else inr (dp_Addr p).

(** [handleDial] up to its goroutine: the address to dial, unless it has answered
    with an error. *)
Definition handleDial (id : bytes) (params : result DialParams) (i : dial_inputs) : dm (option bytes) :=
  match params with
  | Err e => emitError id [P "invalid params: "; PE e] ;! dret None
  | Ok p =>
      let! ok := requireStorage id in
      if negb ok then dret None
      else
        setStatus StatusConnecting [P "Connecting to "; PB (dp_Addr p); P "..."] ;!
        with_store (emitError id [P "storage is not available"] ;! dret None)
          (let! name := own_name (dp_Name p) in
           match name with
           | Err e => emitError id [P "getting identity: "; PE e] ;! dret None
           | Ok name =>
               dset (set_myName name) ;!
               (let! incognito := dget d_incognito in
                if incognito then dret tt
                else let! _ := call (SetSettings app_name (str "local_name") name) in dret tt) ;!
               match dial_transport p i with
               | inl (status, log, msg) =>
                   (match status with Some s => setStatus StatusError [P s] | None => dret tt end) ;!
                   (match log with Some l => addLogEntry "ERROR" l | None => dret tt end) ;!
                   emitError id msg ;! dret None
               | inr addr => dret (Some addr)
               end
           end)
  end.

(** The goroutine of [handleDial]: [NewDialer], [Dial] (the transport, its session
    and peer, the session's lifetime on the relay) and whether the daemon has been
    shut down; the session, to be served. *)
Definition dial_goroutine (id addr transportType : bytes) (dialer : result unit)
    (dialed : result (nat * bytes * Peer * Z)) (shutdown : bool) (tokens : result (list bytes)) : dm (option nat) :=
  match dialer with
  | Err e =>
      setStatus StatusError [P "Failed to create dialer"] ;!
      addLogEntry "ERROR" [P "Failed to create dialer: "; PE e] ;!
      emitError id [P "create dialer: "; PE e] ;! dret None
  | Ok _ =>
      match dialed with
      | Err e =>
          setStatus StatusError [P "Connection failed"] ;!
          addLogEntry "ERROR" [P "Dial failed: "; PE e] ;!
          emitError id [P "dial: "; PE e] ;! dret None
      | Ok (t, sessionID, peer, sessionTTL) =>
          if shutdown then dret None
          else let! p := dial_session id addr transportType sessionTTL t sessionID peer tokens in dret (Some p)
      end
  end.

(** [makeReconnectFn]: the relay tokens a reconnection tries in turn, if the dial
    captured a storage; otherwise, or with fewer than two, it dials as before. *)
Definition reconnect_tokens (captured : bool) (relayAddr sessionID : bytes) : dm (list bytes) :=
  if captured && negb (bool_decide (relayAddr = [])) then
    let! m := call (GetMeta sessionID RelayTokensKey) in
    let tokens := match m with Ok m => decodeTokenList (m_value m) | Err _ => [] end in
    dret (if (1 <? length tokens)%nat && negb (bool_decide (TrimSpace relayAddr = [])) then tokens else [])
  else dret [].

(** [serverHandler] up to its receive loop. *)
Definition server_session (t : nat) (sessionID : bytes) (peer : Peer) (tokens : result (list bytes)) : dm nat :=
  let! transport := dget (fun d => match d_serverTransport d with [] => str "tcp" | x => x end) in
  let! ttl := dget d_relaySessionTTL in
  let! now := time_Now in
  let! started := time_Now in
  let! p := new_session (mkLive sessionID (Name peer) (AppVersionOf peer) [] t [] now false true transport ttl started
                           0 [] false false 0) in
  let! stored := record_session sessionID (PublicKey peer) tokens in
  (if stored && bool_decide (transport = str "relay")
   then dset (fun d => set_relayTokens (link_token sessionID (d_relayTokens d)) d) else dret tt) ;!
  loadChatHistory p sessionID ;!
  warn_version sessionID (AppVersionOf peer) ;!
  register_session sessionID p ;!
  (let! heap := dget d_heap in
   match heap !! p with Some s => emit EvtSessionStarted [] (sessionInfo s) | None => fun _ => None end) ;!
  addLogEntry "INFO" [P "New incoming connection: "; PB sessionID] ;!
  dret p.

End server.
