(* ===== verification/DaemonReturns.v ===== *)
(** * The daemon: handlers return

    A handler returns when no pointer it follows is nil and no call of the storage
    blocks.  [runs F m]: from every daemon that satisfies [holds F], [m] returns, and
    the facts hold again.  The facts are a well-formed table of sessions
    ([sessions_ok]: every entry points to a session) and what a handler has found
    out before: that the storage is open, that there is a relay token, that the
    mode is incognito, and which sessions it has created.  [druns] takes a handler
    apart.

    What a handler waits for outside the daemon is an argument of the model; so is
    whether closing the relay listeners returns, which it does not always
    (MultiListener.v). *)

From S2P Require Import Prelude GoErr Strconv Encoding Process Wire Pb Route Version Crypto Fingerprint Enigma Serde Transport Bolt Engine Storage DaemonNet NetIP BrokerCodec Daemon DaemonLaws DaemonP2P DaemonVerify DaemonServer.
#[local] Open Scope dm_scope.

Section returns.
Context `{Crypto} `{ProtoRuntime} `{Bolt}.

Definition sessions_ok (d : Daemon) : Prop := map_Forall (fun _ p => (p < length (d_heap d))%nat) (d_sessions d).

Record facts := mkFacts { f_store : bool; f_token : bool; f_incognito : bool; f_sessions : list nat }.

Definition holds (F : facts) (d : Daemon) : Prop :=
  sessions_ok d /\
  (f_store F = true -> is_Some (d_db d)) /\
  (f_token F = true -> d_relayTokens d <> []) /\
  (f_incognito F = true -> d_incognito d = true) /\
  Forall (fun p => (p < length (d_heap d))%nat) (f_sessions F).

Definition opened (F : facts) : facts := mkFacts true (f_token F) (f_incognito F) (f_sessions F).
Definition with_token (F : facts) : facts := mkFacts (f_store F) true (f_incognito F) (f_sessions F).
Definition with_session (p : nat) (F : facts) : facts := mkFacts (f_store F) (f_token F) (f_incognito F) (p :: f_sessions F).
Definition no_facts : facts := mkFacts false false false [].

Definition runs (F : facts) {A} (m : dm A) : Prop :=
  forall d, holds F d -> exists a d', m d = Some (a, d') /\ holds F d'.

(** ** The operations *)

Lemma runs_ret {A} F (a : A) : runs F (dret a).
Proof. intros d Hd. by exists a, d. Qed.

Lemma runs_get {A} F (f : Daemon -> A) : runs F (dget f).
Proof. intros d Hd. by exists (f d), d. Qed.

Lemma runs_set F f : (forall d, holds F d -> holds F (f d)) -> runs F (dset f).
Proof. intros Hf d Hd. exists tt, (f d). auto. Qed.

Lemma runs_bind {A B} F (m : dm A) (k : A -> dm B) : runs F m -> (forall a, runs F (k a)) -> runs F (dbind m k).
Proof. intros Hm Hk d Hd. destruct (Hm d Hd) as (a & d1 & E & Hd1). unfold dbind. rewrite E. by apply Hk. Qed.

Lemma runs_now F : runs F time_Now.
Proof. intros d Hd. by eexists _, _. Qed.

Lemma runs_emit F evt id v : runs F (emit evt id v).
Proof. by apply runs_set. Qed.

Lemma runs_error F id msg : runs F (emitError id msg).
Proof. apply runs_emit. Qed.

Lemma runs_log F level msg : runs F (addLogEntry level msg).
Proof.
  apply runs_bind; [apply runs_now|intros now]. apply runs_bind; [by apply runs_set|intros _]. apply runs_emit.
Qed.

Lemma runs_status F status msg : runs F (setStatus status msg).
Proof. apply runs_bind; [by apply runs_set|intros _]. apply runs_emit. Qed.

Lemma runs_call_opt {A} F (f : store -> option (result A * store)) :
  f_store F = true -> (forall s, is_Some (f s)) -> runs F (call_opt f).
Proof.
  intros HF Hf d (Hs & Hdb & Hd). destruct (Hdb HF) as [s Es]. destruct (Hf s) as [[r s'] Er].
  exists r, (set_daemon_db (Some s') d). unfold call_opt. rewrite Es, Er. split; [done|].
  exact (conj Hs (conj (fun _ => mk_is_Some _ _ eq_refl) Hd)).
Qed.

Lemma runs_call {A} F (f : go store A) : f_store F = true -> runs F (call f).
Proof. intros HF. apply runs_call_opt; [done|by eexists]. Qed.

Lemma opened_weaken F d : holds (opened F) d -> holds F d.
Proof. intros (Hs & Hdb & Hd). exact (conj Hs (conj (fun _ => Hdb eq_refl) Hd)). Qed.

Lemma opened_holds F d s : holds F d -> d_db d = Some s -> holds (opened F) d.
Proof. intros (Hs & _ & Hd) Es. exact (conj Hs (conj (fun _ => mk_is_Some _ _ Es) Hd)). Qed.

Lemma runs_opened {A} F (m : dm A) d s :
  runs (opened F) m -> holds F d -> d_db d = Some s -> exists a d', m d = Some (a, d') /\ holds F d'.
Proof.
  intros Hm Hd Es. destruct (Hm d) as (a & d' & E & Hd'); [by eapply opened_holds|].
  exists a, d'. split; [done|by apply opened_weaken].
Qed.

Lemma runs_store {A} F (m1 m2 : dm A) : runs F m1 -> runs (opened F) m2 -> runs F (with_store m1 m2).
Proof.
  intros H1' H2' d Hd. unfold with_store. destruct (d_db d) as [s|] eqn:Es; [by eapply runs_opened|by apply H1'].
Qed.

Lemma runs_require {A} F id (x : A) (k : dm A) :
  runs (opened F) k -> runs F (let! ok := requireStorage id in if negb ok then dret x else k).
Proof.
  intros Hk d Hd. unfold requireStorage, with_store, dbind at 1. destruct (d_db d) as [s|] eqn:Es.
  - by eapply runs_opened.
  - apply (runs_bind F (emitError id _) (fun _ => dret x)); [apply runs_error|intros _; apply runs_ret|done].
Qed.

Lemma runs_params {X} F id (params : result X) (k : X -> dm unit) :
  (forall p, runs F (k p)) -> runs F (with_params id params k).
Proof. intros Hk. destruct params; [apply Hk|apply runs_error]. Qed.

Lemma runs_incognito {A} F (k : bool -> dm A) :
  f_incognito F = true -> runs F (k true) -> runs F (let! incognito := dget d_incognito in k incognito).
Proof.
  intros HF Hk d Hd. unfold dbind, dget. assert (Hi : d_incognito d = true) by (by apply Hd). rewrite Hi. by apply Hk.
Qed.

(** The table of sessions. *)
Lemma runs_delete F sid : runs F (dset (fun d => set_sessions (delete sid (d_sessions d)) d)).
Proof. apply runs_set. intros d [Hs Hd]. split; [by apply map_Forall_delete|done]. Qed.

Lemma runs_clear F : runs F (dset (set_sessions ∅)).
Proof. apply runs_set. intros d [Hs Hd]. split; [apply map_Forall_empty|done]. Qed.

Lemma runs_register F sid p : p ∈ f_sessions F -> runs F (register_session sid p).
Proof.
  intros Hp. apply runs_set. intros d (Hs & Hdb & Ht & Hi & Hl). split; [|done].
  apply map_Forall_insert_2; [|done]. rewrite Forall_forall in Hl. exact (Hl p Hp).
Qed.

Lemma runs_update F p f : runs F (update_session p f).
Proof.
  apply runs_set. intros d (Hs & Hdb & Ht & Hi & Hl).
  assert (E : length (d_heap (set_heap (alter f p (d_heap d)) d)) = length (d_heap d)) by apply length_alter.
  split_and!; [|done..|]; unfold sessions_ok; by rewrite E.
Qed.

Lemma runs_new {A} F s (k : nat -> dm A) :
  (forall p, runs (with_session p F) (k p)) -> runs F (let! p := new_session s in k p).
Proof.
  intros Hk d (Hs & Hdb & Ht & Hi & Hl). set (p := length (d_heap d)).
  destruct (Hk p (set_heap (d_heap d ++ [s]) d)) as (a & d' & E & Hs' & Hdb' & Ht' & Hi' & Hl').
  { unfold holds, sessions_ok. cbn. rewrite length_app. cbn. split_and!; [|done..|].
    - eapply map_Forall_impl; [exact Hs|]. cbn. lia.
    - constructor; [unfold p; lia|]. eapply Forall_impl; [exact Hl|]. cbn. lia. }
  exists a, d'. split; [exact E|]. split_and!; [done..|by inversion Hl'].
Qed.

(** A session that was created is there. *)
Lemma runs_deref {A} F p (k : liveSession -> dm A) :
  p ∈ f_sessions F -> (forall s, runs F (k s)) ->
  runs F (let! heap := dget d_heap in match heap !! p with Some s => k s | None => fun _ => None end).
Proof.
  intros Hp Hk d Hd. assert (Hl := Hd). destruct Hl as (_ & _ & _ & _ & Hl). rewrite Forall_forall in Hl.
  destruct (lookup_lt_is_Some_2 _ _ (Hl p Hp)) as [s Es]. unfold dbind, dget. rewrite Es. by apply Hk.
Qed.

End returns.

(** ** Automation *)

Create HintDb daemon_runs discriminated.
#[export] Hint Resolve runs_ret runs_get runs_now runs_emit runs_error runs_log runs_status runs_delete runs_clear
  runs_update : daemon_runs.

(** A write to the state that leaves the facts alone. *)
Ltac dfacts :=
  first [ intros ? h; exact h
        | intros ? (? & ? & ? & ? & ?); split_and!; cbn in *; first [done | by intros] ].

Ltac druns_step :=
  match goal with
  | |- runs _ _ => solve [eauto 2 with daemon_runs nocore]
  | |- runs _ (with_params _ _ _) => apply runs_params; intros ?
  | |- runs _ (with_store _ _) => apply runs_store
  | |- runs _ (call _) => apply runs_call; reflexivity
  | |- runs _ (dset _) => apply runs_set; dfacts
  | |- runs _ (dbind (requireStorage _) _) => apply runs_require
  | |- runs _ (dbind (new_session _) _) => apply runs_new; intros ?
  | |- runs _ (dbind _ _) => apply runs_bind; [|intros ?]
  | |- runs _ (let '(_, _) := ?x in _) => destruct x
  | |- runs _ (match ?x with _ => _ end) => destruct x
  | |- runs _ (if ?x then _ else _) => destruct x
  end.
Ltac druns := repeat druns_step.

(** Back to [runs] once the daemon has been looked at. *)
Ltac fold_runs :=
  match goal with |- forall d, holds ?F d -> exists a d', ?m d = Some (a, d') /\ holds ?F d' => change (runs F m) end.

Section handlers.
Context `{Crypto} `{ProtoRuntime} `{Bolt} `{!CryptoOk _}.

(** ** Shared operations *)

(** The identity can always be marshalled. *)
Lemma store_PublicKey_returns s : is_Some (store_PublicKey s).
Proof.
  unfold store_PublicKey. destruct (Attester s) as [[a|e] s'] eqn:E; [|by eexists].
  assert (Ha : exists k, publicKey a = ed25519_Public k).
  { unfold Attester, LoadAttest in E. repeat case_match; simplify_eq/=; eauto.
    unfold gbind, gwrap, gret in *. repeat case_match; simplify_eq/=; eauto. }
  destruct Ha as [k Hk]. unfold MarshalPublicKey. rewrite Hk. destruct (pkix_total k) as (b & -> & _). by eexists.
Qed.

Lemma runs_identity F : f_store F = true -> runs F (call_opt store_PublicKey).
Proof. intros HF. apply runs_call_opt; [done|]. apply store_PublicKey_returns. Qed.

#[local] Hint Extern 1 (runs _ (call_opt store_PublicKey)) => (apply runs_identity; reflexivity) : daemon_runs.

Lemma loadHistorySessions_runs F : runs F loadHistorySessions.
Proof. unfold loadHistorySessions. druns. Qed.

#[local] Hint Resolve loadHistorySessions_runs : daemon_runs.

Lemma loadIdentityAndHistory_runs F : runs F loadIdentityAndHistory.
Proof. unfold loadIdentityAndHistory, loadIdentity. druns. Qed.

Lemma openStorage_runs F path no env r : f_store F = false -> runs F (openStorage path no env r).
Proof.
  intros HF. unfold openStorage. druns;
  apply runs_set; intros d (Hs & Hdb & Hd); (split_and!; [done|by rewrite HF|apply Hd..]).
Qed.

Lemma setStatusIfEmpty_runs F status msg : runs F (setStatusIfEmpty status msg).
Proof. unfold setStatusIfEmpty. druns. Qed.

Lemma emit_tokens_runs F : runs F emit_tokens.
Proof. unfold emit_tokens. druns. Qed.

Lemma emit_p2p_runs F : runs F emit_p2p.
Proof. unfold emit_p2p, GetP2PTokens. druns. Qed.

#[local] Hint Resolve emit_p2p_runs : daemon_runs.

Lemma append_message_runs F p m : runs F (append_message p m).
Proof. unfold append_message. druns. Qed.

Lemma persist_message_runs F sid data ts sender : runs F (persist_message sid data ts sender).
Proof. unfold persist_message. druns. Qed.

Lemma deriveP2PToken_runs F peer : runs F (deriveP2PToken peer).
Proof. unfold deriveP2PToken, static_token. druns. Qed.

#[local] Hint Resolve deriveP2PToken_runs : daemon_runs.

Lemma GenerateP2PToken_runs F has addr peer c : runs F (GenerateP2PToken has addr peer c).
Proof. unfold GenerateP2PToken. druns. Qed.

Lemma RemoveP2PToken_runs F token : runs F (RemoveP2PToken token).
Proof. unfold RemoveP2PToken. druns. Qed.

Lemma own_name_runs F name : runs (opened F) (own_name name).
Proof. unfold own_name. druns. Qed.

Lemma save_name_runs F name :
  runs (opened F) (let! incognito := dget d_incognito in
                   if incognito then dret tt
                   else let! _ := call (SetSettings app_name (str "local_name") name) in dret tt).
Proof. druns. Qed.

Lemma warn_version_runs F sid remote : runs F (warn_version sid remote).
Proof. unfold warn_version. druns. Qed.

Lemma write_entries_runs F id entries writes n : runs F (write_entries id entries writes n).
Proof. revert n. induction entries as [|e entries IH]; intros n; cbn [write_entries]; druns. Qed.

#[local] Hint Resolve loadIdentityAndHistory_runs setStatusIfEmpty_runs emit_tokens_runs append_message_runs
  persist_message_runs GenerateP2PToken_runs RemoveP2PToken_runs own_name_runs save_name_runs warn_version_runs
  write_entries_runs : daemon_runs.
#[local] Hint Extern 1 (runs _ (openStorage _ _ _ _)) => (apply openStorage_runs; reflexivity) : daemon_runs.

(** ** Starting and stopping *)

(** What runs while a handler waits returns and leaves the storage open. *)
Definition returning (m : dm unit) : Prop := runs no_facts m /\ runs (opened no_facts) m.

(** A relay server has a token. *)
Lemma start_transport_ends p i d :
  returning (si_meanwhile i) -> holds (opened no_facts) d ->
  exists r d', start_transport p i d = Some (r, d') /\
    holds (match r with inr (_, _ :: _) => with_token (opened no_facts) | _ => opened no_facts end) d'.
Proof.
  intros [_ Hm] Hd.
  assert (Hother : forall m : dm (start_stop + bytes * bytes), runs (opened no_facts) m ->
    (forall d r d', m d = Some (r, d') -> match r with inr (_, _ :: _) => False | _ => True end) ->
    exists r d', m d = Some (r, d') /\
      holds (match r with inr (_, _ :: _) => with_token (opened no_facts) | _ => opened no_facts end) d').
  { intros m Hr Hn. destruct (Hr d Hd) as (r & d' & E & Hd'). exists r, d'. split; [done|].
    specialize (Hn _ _ _ E). by destruct r as [|[addr [|x token]]]. }
  unfold start_transport. destruct (bool_decide _).
  - unfold dbind at 1, dget at 1. destruct (negb _); [by eexists _, _|].
    destruct (Hm d Hd) as (u & d1 & E1 & Hd1). unfold dbind at 1. rewrite E1.
    destruct (si_relay i) as [[[[l t] x] y]|e].
    + destruct (si_added i) as [a|e]; [|by eexists _, _].
      eexists _, _. split; [reflexivity|]. destruct Hd1 as (? & ? & ? & ? & ?).
      destruct t; split_and!; done.
    + unfold dbind, dget. destruct (negb _); by eexists _, _.
  - apply Hother.
    + druns.
    + intros d0 r d' E. destruct (bool_decide _).
      * destruct (si_broker i); [|by apply some_pair in E as [<- _]].
        apply dbind_inv in E as (tk & d1 & _ & E). repeat case_match; simplify_eq; by apply some_pair in E as [? _].
      * destruct (bool_decide _); [destruct (si_direct i)|]; by apply some_pair in E as [<- _].
Qed.

(** What the server does before its start is announced returns, leaves the storage
    open, and leaves a relay token. *)
Definition serves (m : dm unit) : Prop := runs (opened no_facts) m /\ runs (with_token (opened no_facts)) m.

Lemma start_announce_runs id p addr name key token m :
  serves m ->
  runs (match token with [] => opened no_facts | _ => with_token (opened no_facts) end)
    (start_announce id p addr name key token m).
Proof.
  intros [Hm1 Hm2]. unfold start_announce. destruct token as [|x token]; [druns|].
  do 6 (apply runs_bind; [druns|intros ?]). apply runs_bind; [|intros ?; druns].
  intros d Hd. unfold dbind at 1, dget at 1. destruct (d_relayTokens d) as [|t ts] eqn:Et.
  - destruct Hd as (_ & _ & Ht & _). by destruct (Ht eq_refl).
  - clear Et. revert d Hd. fold_runs. druns.
Qed.

Lemma with_token_weaken F d : holds (with_token F) d -> f_token F = false -> holds F d.
Proof. intros (Hs & Hdb & _ & Hd) HF. refine (conj Hs (conj Hdb (conj _ Hd))). by rewrite HF. Qed.

Lemma start_server_runs id p i :
  returning (si_meanwhile i) -> serves (si_serving i) -> runs (opened no_facts) (start_server id p i).
Proof.
  intros Hm Hv. unfold start_server. apply runs_bind; [druns|intros name]. destruct name as [name|e]; [|druns].
  do 2 (apply runs_bind; [druns|intros _]). intros d Hd.
  destruct (start_transport_ends p i d Hm Hd) as (r & d1 & E & Hd1). unfold dbind at 1. rewrite E. clear E Hd.
  destruct r as [stop|[addr token]].
  { revert d1 Hd1. fold_runs. druns. }
  assert (Hd2 : holds (match token with [] => opened no_facts | _ => with_token (opened no_facts) end) d1)
    by by destruct token.
  assert (Hr : forall m : dm unit,
    runs (match token with [] => opened no_facts | _ => with_token (opened no_facts) end) m ->
    exists a d', m d1 = Some (a, d') /\ holds (opened no_facts) d').
  { intros m Hr. destruct (Hr _ Hd2) as (a & d' & E & Hd'). exists a, d'. split; [done|].
    destruct token; [done|by apply with_token_weaken]. }
  apply Hr. destruct (si_server i addr) as [[srv key]|e].
  - do 2 (apply runs_bind; [by apply runs_set; destruct token|intros ?]). by apply start_announce_runs.
  - druns.
Qed.

(** What a start waits for returns. *)
Definition starts (i : start_inputs) : Prop := returning (si_meanwhile i) /\ serves (si_serving i).

(** What a stop waits for returns. *)
Definition stops (o : stop_inputs) : Prop := so_closes o = true /\ returning (so_meanwhile o).

Lemma handleStartServer_runs id params i : starts i -> runs no_facts (handleStartServer id params i).
Proof. intros [Hm Hv]. pose proof (fun p => start_server_runs id p i Hm Hv). unfold handleStartServer. druns. Qed.

Lemma close_relay_listeners_runs F : runs F (close_relay_listeners true).
Proof. unfold close_relay_listeners. apply runs_bind; [druns|intros b]. rewrite andb_false_r. druns. Qed.

Lemma handleStopServer_runs id o : stops o -> runs no_facts (handleStopServer id o).
Proof.
  intros [Hc [Hm _]]. unfold handleStopServer, stop_locked. rewrite Hc. pose proof (close_relay_listeners_runs no_facts). druns.
Qed.

#[local] Hint Resolve handleStartServer_runs handleStopServer_runs : daemon_runs.

Lemma handleRestartServer_runs id o i : stops o -> starts i -> runs no_facts (handleRestartServer id o i).
Proof. intros Ho Hi. unfold handleRestartServer. druns. Qed.

(** ** Sessions *)

(** A listed session is there. *)
Lemma handleCloseSession_runs id params : runs no_facts (handleCloseSession id params).
Proof.
  unfold handleCloseSession. apply runs_params. intros sid d Hd. unfold close_lookup, dbind at 1 2, dget at 1.
  destruct (d_sessions d !! sid) as [p|] eqn:Ep; [|by apply runs_error].
  assert (Hp : (p < length (d_heap d))%nat) by (by eapply (proj1 Hd)).
  destruct (lookup_lt_is_Some_2 _ _ Hp) as [s Es].
  assert (Hd1 : holds no_facts (set_sessions (delete sid (d_sessions d)) d)).
  { destruct Hd as [Hs Hd]. split; [by apply map_Forall_delete|done]. }
  unfold dbind at 1, dset at 1, dret at 1, dbind at 1, dget at 1. cbn [d_heap set_sessions]. rewrite Es.
  revert Hd1. generalize (set_sessions (delete sid (d_sessions d)) d).
  fold_runs. druns.
Qed.

Lemma handleDial_runs F id params i : runs F (handleDial id params i).
Proof.
  unfold handleDial. destruct params as [p|e]; [|druns]. apply runs_require. apply runs_bind; [druns|intros _]. druns.
Qed.

(** A session that is not recorded. *)
Lemma dial_session_runs F id addr tr ttl t sid peer tokens :
  f_incognito F = true -> runs F (dial_session id addr tr ttl t sid peer tokens).
Proof.
  intros HF. unfold dial_session. do 2 (apply runs_bind; [druns|intros ?]). apply runs_new. intros p.
  apply runs_bind; [unfold record_session; apply runs_incognito; [done|druns]|intros _].
  apply runs_bind; [druns|intros _].
  apply runs_bind; [unfold loadChatHistory; apply runs_incognito; [done|druns]|intros _].
  apply runs_bind; [druns|intros _].
  apply runs_bind; [apply runs_register; by left|intros _].
  apply runs_bind; [apply runs_deref; [by left|intros ?; druns]|intros _]. druns.
Qed.

End handlers.

#[export] Hint Resolve loadHistorySessions_runs loadIdentityAndHistory_runs setStatusIfEmpty_runs emit_tokens_runs
  emit_p2p_runs append_message_runs persist_message_runs deriveP2PToken_runs GenerateP2PToken_runs RemoveP2PToken_runs
  write_entries_runs close_relay_listeners_runs handleStartServer_runs handleStopServer_runs handleRestartServer_runs handleCloseSession_runs
  handleDial_runs : daemon_runs.
#[export] Hint Extern 1 (runs _ (openStorage _ _ _ _)) => (apply openStorage_runs; reflexivity) : daemon_runs.
