(* ===== verification/DaemonLive.v ===== *)
(** * The daemon: live sessions (cmd/daemon/messaging.go)

    The receive loop of a dialled session ([receiveMessages]) and of an accepted one
    ([receiveMessagesBlocking]), reconnection with its back-off, and the keep-alive
    loop.  A loop is a state machine whose steps are the outcomes of the transport,
    so that commands may come between any two of them. *)

From S2P Require Import Prelude GoErr Strconv Encoding Process Wire Pb Route Version Crypto Fingerprint Enigma Serde Transport Bolt Engine Storage DaemonNet NetIP BrokerCodec Daemon DaemonLaws DaemonP2P DaemonVerify DaemonServer.
#[local] Open Scope dm_scope.

Section live.
Context `{Crypto} `{ProtoRuntime} `{Bolt}.

(** ** Receiving *)

Definition set_pong (l : list bytes) (s : liveSession) : liveSession :=
  mkLive (ls_ID s) (ls_PeerName s) (ls_RemoteVersion s) (ls_RemoteAddr s) (ls_Transport s) (ls_Messages s) (ls_LastActivity s)
    (ls_ReceiveDone s) (ls_IsServer s) (ls_TransportType s) (ls_SessionTTL s) (ls_SessionStartedAt s)
    (ls_pingFailures s) l (ls_reconnectFn s) (ls_cancelled s) (ls_keepAliveDone s).

(** A send on a channel of capacity one that does not block. *)
Definition chan_offer {A} (x : A) (ch : list A) : list A := match ch with [] => [x] | _ => ch end.

(** What both loops do with a message: answer a ping (the pong is lost if sending
    fails), pass on a pong, or take the message. *)
Definition handle_received (p : nat) (sessionID : bytes) (route : Route) (data : bytes) (ts : Z) : dm (option bytes) :=
  if route =? RoutePing then dret (Some data)
  else if route =? RoutePong then update_session p (fun s => set_pong (chan_offer data (ls_pongCh s)) s) ;! dret None
  else receive_message p sessionID data ts ;! dret None.

Inductive rx_phase := RxReceive | RxReconnect (attempt : nat) | RxReturned.

(** Why the loop stops, in the order of the tests; [None] goes on. *)
Inductive rx_stop := StopPeer | StopConn | StopError.
Definition classify (e : error) : option rx_stop :=
  if errors_is e ErrPeerDisconnected then Some StopPeer
  else if errors_is e ErrConnClosed then Some StopConn
  else if errors_is e ErrReceiveTimeout then None
  else Some StopError.

Definition log_stop (sessionID : bytes) (e : error) (why : rx_stop) : dm unit :=
  match why with
  | StopPeer => addLogEntry "INFO" [P "Peer disconnected: "; PB sessionID]
  | StopConn => addLogEntry "INFO" [P "Connection closed: "; PB sessionID]
  | StopError => addLogEntry "ERROR" [P "Receive error: "; PE e]
  end.

Definition set_done (s : liveSession) : liveSession :=
  mkLive (ls_ID s) (ls_PeerName s) (ls_RemoteVersion s) (ls_RemoteAddr s) (ls_Transport s) (ls_Messages s) (ls_LastActivity s)
    true (ls_IsServer s) (ls_TransportType s) (ls_SessionTTL s) (ls_SessionStartedAt s)
    (ls_pingFailures s) (ls_pongCh s) (ls_reconnectFn s) (ls_cancelled s) (ls_keepAliveDone s).

(** The end of [receiveMessages]. *)
Definition rx_end (p : nat) (sessionID : bytes) : dm rx_phase :=
  let! _ := removeSession sessionID in
  setStatusIfEmpty StatusDisconnected [P "Not connected"] ;!
  update_session p set_done ;! dret RxReturned.

(** One outcome of [Transport.Receive] in [receiveMessages]. *)
Definition receiveMessages_step (p : nat) (received : result (Route * bytes * Z)) : dm rx_phase :=
  let! heap := dget d_heap in
  match heap !! p with
  | None => fun _ => None
  | Some s =>
      match received with
      | Ok (route, data, ts) => let! _ := handle_received p (ls_ID s) route data ts in dret RxReceive
      | Err e =>
          match classify e with
          | None => dret RxReceive
          | Some why =>
              log_stop (ls_ID s) e why ;!
              match why with
              | StopConn => if ls_reconnectFn s then dret (RxReconnect 0) else rx_end p (ls_ID s)
              | _ => rx_end p (ls_ID s)
              end
          end
      end
  end.

(** [receiveMessagesBlocking] and what [serverHandler] does after it. *)
Definition receiveMessagesBlocking_step (p : nat) (received : result (Route * bytes * Z)) : dm rx_phase :=
  let! heap := dget d_heap in
  match heap !! p with
  | None => fun _ => None
  | Some s =>
      match received with
      | Ok (route, data, ts) => let! _ := handle_received p (ls_ID s) route data ts in dret RxReceive
      | Err e =>
          match classify e with
          | None => dret RxReceive
          | Some why =>
              log_stop (ls_ID s) e why ;!
              (let! _ := removeSession (ls_ID s) in
               setStatusIfEmpty StatusDisconnected [P "Not connected"] ;!
               loadHistorySessions ;!
               addLogEntry "INFO" [P "All sessions disconnected"] ;!
               update_session p set_done ;! dret RxReturned)
          end
      end
  end.

(** ** Reconnecting *)

Definition maxAttempts : nat := 10.
Definition baseDelay : Z := 1 * Second.
Definition maxDelay : Z := 30 * Second.

(** The delay before an attempt. *)
Definition reconnect_delay (attempt : nat) : Z :=
  match attempt with O => 0 | S k => Z.min (baseDelay * Z.shiftl 1 (Z.of_nat k)) maxDelay end.

Definition set_transport (t : nat) (s : liveSession) : liveSession :=
  mkLive (ls_ID s) (ls_PeerName s) (ls_RemoteVersion s) (ls_RemoteAddr s) t (ls_Messages s) (ls_LastActivity s)
    (ls_ReceiveDone s) (ls_IsServer s) (ls_TransportType s) (ls_SessionTTL s) (ls_SessionStartedAt s)
    0 [] (ls_reconnectFn s) (ls_cancelled s) (S (ls_keepAliveDone s)).

(** One turn of [reconnectSession]'s loop, and the end of [receiveMessages] if the
    loop gives up: the context is looked at only before attempts that wait. *)
Definition reconnect_step (p attempt : nat) (redial : result nat) : dm rx_phase :=
  let! heap := dget d_heap in
  match heap !! p with
  | None => fun _ => None
  | Some s =>
      if (0 <? attempt)%nat && ls_cancelled s then rx_end p (ls_ID s)
      else
        addLogEntry "INFO" [P "Reconnecting session "; PB (ls_ID s); P " (attempt "; PB (Itoa (Z.of_nat attempt + 1)); P "/10)"] ;!
        match redial with
        | Err e =>
            addLogEntry "WARN" [P "Reconnect failed: "; PE e] ;!
            (if (S attempt <? maxAttempts)%nat then dret (RxReconnect (S attempt))
             else addLogEntry "WARN" [P "Reconnect failed after 10 attempts: "; PB (ls_ID s)] ;! rx_end p (ls_ID s))
        | Ok t =>
            update_session p (set_transport t) ;!
            addLogEntry "INFO" [P "Reconnected session "; PB (ls_ID s)] ;! dret RxReceive
        end
  end.

(** ** A receive loop among other things that happen to the daemon *)

Inductive live_event :=
  | Received (r : result (Route * bytes * Z))
  | Redialled (r : result nat)
  | Other (m : dm unit).

Definition rx_step (p : nat) (st : rx_phase * Daemon) (e : live_event) : option (rx_phase * Daemon) :=
  let '(phase, d) := st in
  match e, phase with
  | Received r, RxReceive => receiveMessages_step p r d
  | Redialled r, RxReconnect attempt => reconnect_step p attempt r d
  | Other m, _ => match m d with Some (_, d') => Some (phase, d') | None => None end
  | _, _ => None
  end.

Fixpoint rx_run (p : nat) (st : rx_phase * Daemon) (es : list live_event) : option (rx_phase * Daemon) :=
  match es with
  | [] => Some st
  | e :: es => match rx_step p st e with Some st' => rx_run p st' es | None => None end
  end.

(** ** Keep-alive *)

(** [sendPing] on a channel: what [Send] returns, what arrives between the send and
    the draining of the channel, and what arrives after it, before the timeout. *)
Definition sendPing (tok : bytes) (send : result unit) (ch before_drain after_drain : list bytes) : result unit :=
  match send with
  | Err e => Err e
  | Ok _ =>
      let drained := match foldl (fun c x => chan_offer x c) ch before_drain with [] => [] | _ :: r => r end in
      match foldl (fun c x => chan_offer x c) drained after_drain with
      | data :: _ => if bool_decide (data = tok) then Ok tt else Err (Sentinel ErrVerificationFailed)
      | [] => Err (Sentinel ErrReceiveTimeout)
      end
  end.

(** One tick of [keepAliveLoop]: the failures so far, the outcome of the ping; [None]
    closes the transport and ends the loop. *)
Definition keepAlive_tick (failures : Z) (ping : result unit) : option Z :=
  match ping with
  | Err _ => if 3 <=? failures + 1 then None else Some (failures + 1)
  | Ok _ => Some 0
  end.

Fixpoint keepAliveLoop (failures : Z) (pings : list (result unit)) : option Z :=
  match pings with
  | [] => Some failures
  | r :: pings => match keepAlive_tick failures r with None => None | Some f => keepAliveLoop f pings end
  end.

(** ** Properties *)

(** *** A closed session *)

(** The sessions a daemon knows, and the session objects. *)
Definition session_state (d : Daemon) : gmap bytes nat * list liveSession := (d_sessions d, d_heap d).

Lemma setStatusIfEmpty_sessions status msg : dpres (same session_state) (setStatusIfEmpty status msg).
Proof. unfold setStatusIfEmpty. dframe. Qed.

Lemma loadHistorySessions_sessions : dpres (same session_state) loadHistorySessions.
Proof. unfold loadHistorySessions. dframe. Qed.

Lemma addLogEntry_total level msg d : exists d', addLogEntry level msg d = Some (tt, d') /\ session_state d' = session_state d.
Proof. unfold addLogEntry, emit, dbind, dset, time_Now. eexists. split; reflexivity. Qed.

Lemma rx_end_total p sessionID d :
  exists d', rx_end p sessionID d = Some (RxReturned, d') /\
    session_state d' = (delete sessionID (d_sessions d), alter set_done p (d_heap d)).
Proof.
  unfold rx_end, setStatusIfEmpty, removeSession, dbind, dset, dget. cbn.
  destruct (bool_decide _); eexists; split; reflexivity.
Qed.

Lemma log_stop_total sessionID e why d :
  exists d', log_stop sessionID e why d = Some (tt, d') /\ session_state d' = session_state d.
Proof. destruct why; apply addLogEntry_total. Qed.

(** A command closes the session it names: it is no longer in the map, and its
    object is as it was. *)
Lemma close_sessions id sessionID p s d :
  d_sessions d !! sessionID = Some p -> d_heap d !! p = Some s ->
  exists d', handleCloseSession id (Ok sessionID) d = Some (tt, d') /\
    session_state d' = (delete sessionID (d_sessions d), d_heap d).
Proof.
  intros Hs Hp. unfold handleCloseSession, with_params, close_lookup, dbind, dget. rewrite Hs. cbn. rewrite Hp.
  unfold setStatusIfEmpty, dbind, dget. cbn. destruct (bool_decide _); eexists; split; reflexivity.
Qed.

Lemma close_unknown id sessionID d :
  d_sessions d !! sessionID = None ->
  exists d', handleCloseSession id (Ok sessionID) d = Some (tt, d') /\ session_state d' = session_state d.
Proof.
  intros Hn. unfold handleCloseSession, with_params, close_lookup, dbind, dget. rewrite Hn. eexists. split; reflexivity.
Qed.

(** The receive loop of a session, up to the point where it is connected again. *)
Lemma reconnect_once p s d e t :
  d_heap d !! p = Some s -> ls_reconnectFn s = true -> classify e = Some StopConn ->
  exists d', rx_run p (RxReceive, d) [Received (Err e); Redialled (Ok t)] = Some (RxReceive, d') /\
    session_state d' = (d_sessions d, alter (set_transport t) p (d_heap d)).
Proof.
  intros Hp Hf He. cbn [rx_run rx_step]. unfold receiveMessages_step, dbind at 1, dget at 1. rewrite Hp, He, Hf.
  destruct (log_stop_total (ls_ID s) e StopConn d) as (d1 & E1 & [= Hs1 Hh1]). unfold dbind at 1. rewrite E1.
  cbn [rx_step dret]. unfold reconnect_step, dbind at 1, dget at 1. rewrite Hh1, Hp. cbn [Nat.ltb Nat.leb andb].
  unfold dbind at 1. match goal with |- context [addLogEntry ?l ?m d1] => destruct (addLogEntry_total l m d1) as (d2 & -> & [= Hs2 Hh2]) end.
  unfold update_session, dbind, dset.
  match goal with |- context [addLogEntry ?l ?m ?x] => destruct (addLogEntry_total l m x) as (d3 & -> & [= Hs3 Hh3]) end.
  eexists. split; [reflexivity|]. unfold session_state. rewrite Hs3, Hh3. cbn. congruence.
Qed.

(** What the connection's [ReadBytes] returns once the daemon has closed it: a relay
    connection reports the end of its context as end of file; a [conn] reports
    [ErrConnClosed] if the read begins after the close, and the error of the
    network if the read was waiting. *)
Inductive closed_read := ClosedRelay | ClosedLate | ClosedWaiting.

Definition closed_read_error (k : closed_read) : error :=
  match k with
  | ClosedRelay => Sentinel EOF
  | ClosedLate => wrapf "get message length" (Sentinel ErrConnClosed)
  | ClosedWaiting => wrapf "get message length" (wrapf "reading first two bytes" (Sentinel ErrNetClosed))
  end.

(** The receive loop stops on any other error. *)
Lemma stop_once p s d e :
  d_heap d !! p = Some s -> classify e = Some StopError ->
  exists d', rx_run p (RxReceive, d) [Received (Err e)] = Some (RxReturned, d') /\
    session_state d' = (delete (ls_ID s) (d_sessions d), alter set_done p (d_heap d)).
Proof.
  intros Hp He. cbn [rx_run rx_step]. unfold receiveMessages_step, dbind at 1, dget at 1. rewrite Hp, He.
  destruct (log_stop_total (ls_ID s) e StopError d) as (d1 & E1 & [= Hs1 Hh1]). unfold dbind at 1. rewrite E1.
  destruct (rx_end_total p (ls_ID s) d1) as (d2 & -> & Hd2). eexists. split; [reflexivity|]. by rewrite Hd2, Hs1, Hh1.
Qed.

(** Closing a dialled session ends it only if its receive loop waits in a read of a
    [conn].  On a relay connection, and when the next read begins after the close,
    the loop takes the closed connection for a lost one and dials again: the
    session is connected, while the daemon no longer lists it, and another command
    to close it changes nothing. *)
Theorem closed_session_reconnects id sessionID p s d k t :
  d_sessions d !! sessionID = Some p -> d_heap d !! p = Some s -> ls_ID s = sessionID -> ls_reconnectFn s = true ->
  exists d1, handleCloseSession id (Ok sessionID) d = Some (tt, d1) /\
  let received := Received (Err (read_failure (closed_read_error k))) in
  match k with
  | ClosedWaiting =>
      exists d2, rx_run p (RxReceive, d1) [received] = Some (RxReturned, d2) /\
        d_sessions d2 = delete sessionID (d_sessions d)
  | _ =>
      exists d2, rx_run p (RxReceive, d1) [received; Redialled (Ok t)] = Some (RxReceive, d2) /\
        ls_Transport <$> d_heap d2 !! p = Some t /\ d_sessions d2 !! sessionID = None /\
        forall id', exists d3, handleCloseSession id' (Ok sessionID) d2 = Some (tt, d3) /\ session_state d3 = session_state d2
  end.
Proof.
  intros Hs Hp Hid Hf. destruct (close_sessions id _ _ _ _ Hs Hp) as (d1 & Hc & [= Hd1 Hh1]).
  exists d1. split; [done|]. intros received. rewrite <- Hh1 in Hp.
  assert (Hre : classify (read_failure (closed_read_error k)) = Some StopConn ->
    exists d2, rx_run p (RxReceive, d1) [received; Redialled (Ok t)] = Some (RxReceive, d2) /\
      ls_Transport <$> d_heap d2 !! p = Some t /\ d_sessions d2 !! sessionID = None /\
      forall id', exists d3, handleCloseSession id' (Ok sessionID) d2 = Some (tt, d3) /\ session_state d3 = session_state d2).
  { intros Hcl. destruct (reconnect_once p s d1 _ t Hp Hf Hcl) as (d2 & Hr & [= Hd2 Hh2]). exists d2.
    assert (Hgone : d_sessions d2 !! sessionID = None) by (rewrite Hd2, Hd1; apply lookup_delete_eq).
    split_and!; [done| |done|].
    - by rewrite Hh2, list_lookup_alter_eq, Hp.
    - intros id'. by apply close_unknown. }
  destruct k; [by apply Hre..|].
  destruct (stop_once p s d1 (read_failure (closed_read_error ClosedWaiting)) Hp eq_refl) as (d2 & Hr & [= Hd2 _]).
  exists d2. split; [done|]. by rewrite Hd2, Hd1, Hid, delete_delete_eq.
Qed.

(** *** Reconnection ends *)

(** One attempt that fails, and one that succeeds. *)
Lemma reconnect_fails p s d attempt e :
  d_heap d !! p = Some s -> ls_cancelled s = false ->
  exists d', reconnect_step p attempt (Err e) d =
    Some (if (S attempt <? maxAttempts)%nat then RxReconnect (S attempt) else RxReturned, d') /\
    ((S attempt < maxAttempts)%nat -> session_state d' = session_state d).
Proof.
  intros Hp Hc. unfold reconnect_step, dbind at 1, dget. rewrite Hp, Hc, andb_false_r. unfold dbind at 1.
  destruct (addLogEntry_total "INFO" [P "Reconnecting session "; PB (ls_ID s); P " (attempt ";
    PB (Itoa (Z.of_nat attempt + 1)); P "/10)"] d) as (d1 & -> & Hd1). unfold dbind at 1.
  destruct (addLogEntry_total "WARN" [P "Reconnect failed: "; PE e] d1) as (d2 & -> & Hd2).
  destruct (Nat.ltb_spec (S attempt) maxAttempts).
  - exists d2. split; [done|]. by rewrite Hd2.
  - unfold dbind. destruct (addLogEntry_total "WARN" [P "Reconnect failed after 10 attempts: "; PB (ls_ID s)] d2)
      as (d3 & -> & Hd3). destruct (rx_end_total p (ls_ID s) d3) as (d4 & -> & _). exists d4. split; [done|lia].
Qed.

Lemma reconnect_succeeds p s d attempt t :
  d_heap d !! p = Some s -> ls_cancelled s = false -> exists d', reconnect_step p attempt (Ok t) d = Some (RxReceive, d').
Proof.
  intros Hp Hc. unfold reconnect_step, dbind at 1, dget. rewrite Hp, Hc, andb_false_r. eexists. reflexivity.
Qed.

Definition attempts (f : nat -> result nat) (from n : nat) : list live_event :=
  map (fun i => Redialled (f i)) (seq from n).

Lemma reconnect_from p s f k : forall attempt d,
  d_heap d !! p = Some s -> ls_cancelled s = false -> (attempt + S k = maxAttempts)%nat ->
  exists n st, (n <= S k)%nat /\ rx_run p (RxReconnect attempt, d) (attempts f attempt n) = Some st /\
    (fst st = RxReceive /\ (exists i, attempt <= i < maxAttempts /\ is_ok (f i) = true)%nat \/
     fst st = RxReturned /\ (forall i, attempt <= i < maxAttempts -> is_ok (f i) = false)%nat).
Proof.
  induction k as [|k IH]; intros attempt d Hp Hc Hk; destruct (f attempt) as [t|e] eqn:Ef.
  1, 3: destruct (reconnect_succeeds p s d attempt t Hp Hc) as (d' & E); exists 1%nat, (RxReceive, d');
    split; [lia|]; unfold attempts; cbn [seq map rx_run rx_step]; rewrite Ef, E; split; [done|];
    left; split; [done|]; exists attempt; rewrite Ef; split; [lia|done].
  - destruct (reconnect_fails p s d attempt e Hp Hc) as (d' & E & _). exists 1%nat, (RxReturned, d').
    split; [lia|]. unfold attempts. cbn [seq map rx_run rx_step]. rewrite Ef, E.
    destruct (Nat.ltb_spec (S attempt) maxAttempts); [lia|]. split; [done|]. right. split; [done|].
    intros i Hi. replace i with attempt by lia. by rewrite Ef.
  - destruct (reconnect_fails p s d attempt e Hp Hc) as (d' & E & Hs).
    destruct (Nat.ltb_spec (S attempt) maxAttempts) as [Hlt|]; [|lia].
    specialize (Hs Hlt). injection Hs as _ Hh. rewrite <- Hh in Hp.
    destruct (IH (S attempt) d' Hp Hc ltac:(lia)) as (n & st & Hn & Hr & Hres). exists (S n), st.
    split; [lia|]. unfold attempts in *. cbn [seq map rx_run rx_step]. rewrite Ef, E. split; [exact Hr|].
    destruct Hres as [[-> (i & Hi & Ho)]|[-> Ha]]; [left|right]; (split; [done|]).
    + exists i. split; [lia|done].
    + intros i Hi. destruct (decide (i = attempt)) as [->|]; [by rewrite Ef|]. apply Ha. lia.
Qed.

(** How long the first [n] attempts wait. *)
Definition total_delay (n : nat) : Z := foldr (fun i t => reconnect_delay i + t) 0 (seq 0 n).

(** C30: Reconnection ends: after at most ten attempts, between which it waits at most 151
    seconds, the loop receives again or has returned, and it receives again
    exactly if one of the ten dials succeeds. *)
Theorem reconnect_terminates p s d f :
  d_heap d !! p = Some s -> ls_cancelled s = false ->
  exists n st, (n <= 10)%nat /\ rx_run p (RxReconnect 0, d) (attempts f 0 n) = Some st /\
    (fst st = RxReceive \/ fst st = RxReturned) /\
    (fst st = RxReceive <-> exists i, (i < 10)%nat /\ is_ok (f i) = true) /\
    total_delay n <= 151 * Second.
Proof.
  intros Hp Hc. destruct (reconnect_from p s f 9 0 d Hp Hc eq_refl) as (n & st & Hn & Hr & Hres).
  exists n, st. split; [done|]. split; [done|]. split; [by destruct Hres as [[-> _]|[-> _]]; auto|]. split.
  - destruct Hres as [[-> (i & Hi & Ho)]|[-> Ha]]; split; [|done|done|].
    + intros _. exists i. by split; [apply Hi|].
    + intros (i & Hi & Ho). rewrite Ha in Ho; [done|]. unfold maxAttempts. lia.
  - clear -Hn. do 11 (destruct n as [|n]; [vm_compute; discriminate|]). lia.
Qed.

(** *** Keep-alive *)

(** The first [k] pings fail; three pings in a row fail. *)
Definition lead (k : nat) (l : list (result unit)) : Prop := forall j, (j < k)%nat -> exists e, l !! j = Some (Err e).
Definition three_failures (l : list (result unit)) : Prop := exists i, lead 3 (drop i l).

Lemma lead_cons k x l : lead (S k) (x :: l) <-> (exists e, x = Err e) /\ lead k l.
Proof.
  split.
  - intros Hl. split; [destruct (Hl 0%nat) as [e He]; [lia|]; exists e; by injection He|].
    intros j Hj. apply (Hl (S j)). lia.
  - intros [[e ->] Hl] [|j] Hj; [by exists e|]. apply Hl. lia.
Qed.

Lemma lead_le j k l : (j <= k)%nat -> lead k l -> lead j l.
Proof. intros Hjk Hl i Hi. apply Hl. lia. Qed.

Lemma three_cons x l : three_failures (x :: l) <-> lead 3 (x :: l) \/ three_failures l.
Proof.
  split; [intros [[|i] Hi]; [by left|right; by exists i]|]. intros [Hl|[i Hi]]; [by exists 0%nat|by exists (S i)].
Qed.

Lemma keepAlive_from l : forall fails, (fails < 3)%nat ->
  keepAliveLoop (Z.of_nat fails) l = None <-> three_failures l \/ lead (3 - fails) l.
Proof.
  induction l as [|x l IH]; intros fails Hf; cbn [keepAliveLoop].
  - split; [done|]. intros [[i Hi]|Hl]; exfalso.
    + destruct (Hi 0%nat) as [e He]; [lia|]. by rewrite drop_nil in He.
    + destruct (Hl 0%nat) as [e He]; [lia|done].
  - replace (3 - fails)%nat with (S (2 - fails)) by lia. rewrite three_cons, !lead_cons.
    destruct x as [u|e]; cbn [keepAlive_tick].
    + rewrite (IH 0%nat) by lia. split; [intros [?|Hl]; [by auto|left; right; by exists 0%nat]|].
      intros [[[[? [=]] _]|?]|[[? [=]] _]]. by left.
    + destruct (Z.leb_spec 3 (Z.of_nat fails + 1)).
      * replace fails with 2%nat by lia. split; [|done]. intros _. right. split; [by eexists|]. intros j; cbn; lia.
      * replace (Z.of_nat fails + 1) with (Z.of_nat (S fails)) by lia. rewrite IH by lia.
        replace (3 - S fails)%nat with (2 - fails)%nat by lia. split.
        { intros [?|?]; [by left; right|]. right. split; [by eexists|done]. }
        intros [[[_ Hl]|?]|[_ ?]]; [right|by left|by right]. by apply (lead_le _ 2); [lia|].
Qed.

(** The keep-alive loop closes the connection exactly if three pings in a row fail. *)
Theorem keepalive_closes pings : keepAliveLoop 0 pings = None <-> three_failures pings.
Proof.
  rewrite (keepAlive_from pings 0) by lia. split; [|by left]. intros [?|Hl]; [done|by exists 0%nat].
Qed.

(** A ping succeeds if its answer comes after the channel was drained, whatever was
    left in the channel; an answer that is faster than the draining is discarded
    and the ping times out. *)
Theorem fast_pong_lost tok stale :
  (length stale <= 1)%nat ->
  sendPing tok (Ok tt) stale [] [tok] = Ok tt /\
  sendPing tok (Ok tt) [] [tok] [] = Err (Sentinel ErrReceiveTimeout).
Proof.
  intros Hs. split; [|done]. destruct stale as [|x [|y r]]; cbn in *; [..|lia]; by rewrite bool_decide_eq_true_2.
Qed.

(** *** Messages *)

Definition received_events (d : Daemon) : list value := map ev_Data (filter (fun e => ev_Evt e = EvtMessageReceived) (d_out d)).

Definition received_value (sessionID : bytes) (m : bytes * Z) : value :=
  VMap [("session_id"%string, VStr sessionID); ("data_base64"%string, VStr (EncodeToString StdEncoding (fst m)));
        ("timestamp"%string, VTime (snd m))].

Lemma persist_message_total sid data ts sender d :
  exists d', persist_message sid data ts sender d = Some (tt, d') /\ d_heap d' = d_heap d /\ d_out d' = d_out d.
Proof.
  unfold persist_message, dbind, dget, with_store, call, call_opt. destruct (d_db d) as [st|] eqn:E; [|by eexists].
  destruct (d_incognito d); [by eexists|]. rewrite E. destruct (AddChatEntry sid data ts sender st) as [r st']. by eexists.
Qed.

Lemma receive_total p s d data ts :
  d_heap d !! p = Some s ->
  exists d' s', receiveMessages_step p (Ok (RouteExchangeMessages, data, ts)) d = Some (RxReceive, d') /\
    d_heap d' !! p = Some s' /\ ls_ID s' = ls_ID s /\ ls_Messages s' = ls_Messages s ++ [mkMessage data ts false] /\
    received_events d' = received_events d ++ [received_value (ls_ID s) (data, ts)].
Proof.
  intros Hp. unfold receiveMessages_step, dbind at 1, dget. rewrite Hp. unfold handle_received.
  cbn [Z.eqb RouteExchangeMessages RoutePing RoutePong Pos.eqb]. unfold receive_message, append_message, update_session, time_Now, dbind, dset.
  set (d0 := set_heap _ (set_tpos _ d)).
  destruct (persist_message_total (ls_ID s) data ts SenderPeer d0) as (d1 & -> & Hh & Ho).
  unfold emit, addLogEntry, dbind, dset, time_Now, emit. eexists _, _. split; [reflexivity|].
  cbn [d_heap d_out set_out set_log set_tpos]. rewrite Hh, Ho. unfold d0 at 1. cbn [d_heap set_heap].
  rewrite list_lookup_alter_eq. cbn [d_heap set_tpos]. rewrite Hp. split; [reflexivity|]. split; [done|]. split; [done|].
  unfold received_events. cbn [d_out set_out set_log set_tpos d_clock d_tpos d_logEntries d_logBufferSize].
  rewrite ?Ho. unfold d0. cbn [d_out set_heap set_tpos]. rewrite <- !app_assoc, filter_app, map_app. done.
Qed.

(** C12: The messages of a session are kept and passed on in the order in which the
    transport delivers them, none lost and none twice. *)
Theorem received_in_order p msgs : forall s d,
  d_heap d !! p = Some s ->
  exists d' s', rx_run p (RxReceive, d) (map (fun m => Received (Ok (RouteExchangeMessages, fst m, snd m))) msgs)
      = Some (RxReceive, d') /\
    d_heap d' !! p = Some s' /\ ls_Messages s' = ls_Messages s ++ map (fun m => mkMessage (fst m) (snd m) false) msgs /\
    received_events d' = received_events d ++ map (received_value (ls_ID s)) msgs.
Proof.
  induction msgs as [|[data ts] msgs IH]; intros s d Hp.
  - exists d, s. cbn. by rewrite !app_nil_r.
  - destruct (receive_total p s d data ts Hp) as (d1 & s1 & E & Hp1 & Hid & Hm & Hev).
    destruct (IH s1 d1 Hp1) as (d2 & s2 & E2 & Hp2 & Hm2 & Hev2). exists d2, s2.
    cbn [map rx_run rx_step fst snd]. rewrite E. split; [exact E2|]. split; [done|].
    rewrite Hm2, Hev2, Hm, Hev, Hid, <- !app_assoc. done.
Qed.

(** *** Incognito *)

Definition unrecorded (d d' : Daemon) : Prop := d_incognito d = true -> d_incognito d' = true /\ d_db d' = d_db d.

#[local] Instance unrecorded_preorder : PreOrder unrecorded.
Proof.
  split; unfold unrecorded; [by intros ?|]. intros d1 d2 d3 H12 H23 Hi. destruct (H12 Hi) as [Hi2 E12].
  destruct (H23 Hi2) as [Hi3 E23]. split; congruence.
Qed.

Lemma persist_message_unrecorded sid data ts sender : dpres unrecorded (persist_message sid data ts sender).
Proof.
  intros d a d' E Hi. unfold persist_message, dbind, dget, with_store in E. rewrite Hi in E.
  destruct (d_db d) eqn:Ed; by apply some_pair in E as [_ <-].
Qed.

Lemma record_session_unrecorded sid key tokens : dpres unrecorded (record_session sid key tokens).
Proof.
  intros d a d' E Hi. unfold record_session, dbind at 1, dget, with_store in E. rewrite Hi in E.
  destruct (d_db d) eqn:Ed; by apply some_pair in E as [_ <-].
Qed.

Lemma loadChatHistory_unrecorded p sid : dpres unrecorded (loadChatHistory p sid).
Proof. intros d a d' E Hi. unfold loadChatHistory, dbind at 1, dget in E. rewrite Hi in E. by apply some_pair in E as [_ <-]. Qed.

Lemma save_peer_unrecorded peer known : dpres unrecorded (save_peer peer known).
Proof.
  intros d a d' E Hi. unfold save_peer, dbind at 1, dget in E. rewrite Hi, orb_true_r in E. by apply some_pair in E as [_ <-].
Qed.

Ltac dquiet :=
  repeat match goal with
  | |- dpres _ (persist_message _ _ _ _) => apply persist_message_unrecorded
  | |- dpres _ (record_session _ _ _) => apply record_session_unrecorded
  | |- dpres _ (loadChatHistory _ _) => apply loadChatHistory_unrecorded
  | |- dpres _ (dset _) => apply dpres_set; intros ? ?; done
  | |- dpres _ time_Now => apply dpres_now; intros ? ?; done
  | |- dpres _ (with_params _ _ _) => unfold with_params
  | |- _ => dframe_step
  | |- dpres _ _ => case_match
  end.

(** C37: In incognito mode the daemon writes nothing of a session to the storage: neither
    when it takes over a new transport, on either side, nor when it sends or
    receives a message, nor when it accepts a peer that was asked about.  What the
    library itself stores during the handshake is not part of this. *)
Theorem incognito_no_trace d :
  d_incognito d = true ->
  (forall id params sent u d', handleSendMessage id params sent d = Some (u, d') -> d_db d' = d_db d) /\
  (forall p r ph d', receiveMessages_step p (Ok r) d = Some (ph, d') -> d_db d' = d_db d) /\
  (forall id addr tr ttl t sid peer tokens p d',
     dial_session id addr tr ttl t sid peer tokens d = Some (p, d') -> d_db d' = d_db d) /\
  (forall t sid peer tokens p d', server_session t sid peer tokens d = Some (p, d') -> d_db d' = d_db d) /\
  (forall peer known u d', save_peer peer known d = Some (u, d') -> d_db d' = d_db d).
Proof.
  intros Hi. assert (Hq : forall A (m : dm A) a d', dpres unrecorded m -> m d = Some (a, d') -> d_db d' = d_db d).
  { intros A m a d' Hm E. by apply (Hm _ _ _ E). }
  split_and!; intros; (eapply Hq; [|eassumption]).
  - unfold handleSendMessage, append_message, update_session. dquiet.
  - unfold receiveMessages_step, handle_received, receive_message, append_message, update_session. dquiet.
  - unfold dial_session, new_session, warn_version, register_session, update_session. dquiet.
  - unfold server_session, new_session, warn_version, register_session, update_session. dquiet.
  - apply save_peer_unrecorded.
Qed.

End live.

(** ** Witnesses *)

Section sample.
Existing Instance toy_crypto.
Existing Instance wire_runtime.
Existing Instance map_bolt.

Definition sample_live : liveSession :=
  mkLive (str "s1") (str "bob") (str "1.0.0") (str "relay:1") 4 [] 0 false false (str "relay") 0 0 0 [] true false 0.

(** A daemon with one dialled session. *)
Definition live_daemon : Daemon := set_sessions {[str "s1" := 0%nat]} (set_heap [sample_live] sample_daemon).

(** The relay session is closed and dials again; transport 9 is the new one. *)
Lemma closed_session_reconnects_witness :
  exists d1 d2, handleCloseSession (str "1") (Ok (str "s1")) live_daemon = Some (tt, d1) /\
    rx_run 0 (RxReceive, d1) [Received (Err (read_failure (closed_read_error ClosedRelay))); Redialled (Ok 9%nat)]
      = Some (RxReceive, d2) /\
    ls_Transport <$> d_heap d2 !! 0%nat = Some 9%nat /\ d_sessions d2 !! str "s1" = None.
Proof.
  destruct (closed_session_reconnects (str "1") (str "s1") 0 sample_live live_daemon ClosedRelay 9%nat
    ltac:(vm_compute; reflexivity) ltac:(reflexivity) ltac:(reflexivity) ltac:(reflexivity))
    as (d1 & Hc & d2 & Hr & Ht & Hs & _). exists d1, d2. split; [exact Hc|]. split; [exact Hr|]. split; [exact Ht|exact Hs].
Defined.

(** The third dial succeeds. *)
Lemma reconnect_terminates_witness :
  let f := fun i => if (i =? 2)%nat then Ok 9%nat else Err (errorf "refused") in
  exists n st, (n <= 10)%nat /\ rx_run 0 (RxReconnect 0, live_daemon) (attempts f 0 n) = Some st /\ fst st = RxReceive.
Proof.
  intros f. destruct (reconnect_terminates 0 sample_live live_daemon f eq_refl eq_refl) as (n & st & Hn & Hr & _ & Hiff & _).
  exists n, st. split; [exact Hn|]. split; [exact Hr|]. apply Hiff. exists 2%nat. split; [lia|reflexivity].
Defined.

Lemma fast_pong_lost_witness :
  sendPing (str "token123") (Ok tt) [str "stale"] [] [str "token123"] = Ok tt /\
  sendPing (str "token123") (Ok tt) [] [str "token123"] [] = Err (Sentinel ErrReceiveTimeout).
Proof. apply (fast_pong_lost (str "token123") [str "stale"]). cbn. lia. Defined.

Lemma received_in_order_witness :
  exists d' s', rx_run 0 (RxReceive, live_daemon)
      (map (fun m => Received (Ok (RouteExchangeMessages, fst m, snd m))) [(str "one", 1); (str "two", 2)])
      = Some (RxReceive, d') /\
    d_heap d' !! 0%nat = Some s' /\ ls_Messages s' = [mkMessage (str "one") 1 false; mkMessage (str "two") 2 false].
Proof.
  destruct (received_in_order 0 [(str "one", 1); (str "two", 2)] sample_live live_daemon eq_refl)
    as (d' & s' & Hr & Hs & Hm & _). exists d', s'. split; [exact Hr|]. split; [exact Hs|exact Hm].
Defined.

Lemma incognito_no_trace_witness :
  exists d', handleSendMessage (str "1") (Ok (str "s1", str "aGk=")) (fun _ => Ok 5) (set_incognito true live_daemon)
      = Some (tt, d') /\ d_db d' = d_db live_daemon.
Proof.
  destruct (returns_some (handleSendMessage (str "1") (Ok (str "s1", str "aGk=")) (fun _ => Ok 5)
    (set_incognito true live_daemon))) as [[[] d'] E]; [vm_compute; reflexivity|].
  exists d'. split; [exact E|].
  exact (proj1 (incognito_no_trace (set_incognito true live_daemon) eq_refl) (str "1") _ _ tt d' E).
Defined.

End sample.
