(* ===== verification/DaemonCommand.v ===== *)
(** * The daemon: its commands (cmd/daemon/daemon.go)

    [handleCommand] is the dispatch over the commands of main.go; a command carries
    its decoded parameters and what its handler gets from outside.  [Run]'s loop
    decodes a line and dispatches it ([run_line]).

    [every_command_answered]: a command returns if what it waits for does, keeps the
    table of sessions well formed and emits one event with its identifier, except
    that a restart answers twice and a shutdown under no identifier.
    [log_buffer_recent]: the log buffer is the last 200 log events. *)

From S2P Require Import Prelude GoErr Strconv Encoding Process Wire Pb Route Version Crypto Fingerprint Enigma Serde Transport Bolt Engine Storage DaemonNet NetIP BrokerCodec Daemon DaemonLaws DaemonP2P DaemonVerify DaemonServer DaemonReturns.
#[local] Open Scope dm_scope.

Section command.
Context `{Crypto} `{ProtoRuntime} `{Bolt}.

Inductive command :=
  | CmdOpenStorage (params : result (bytes * bool)) (env : bytes) (opened : result store)
  | CmdSubmitPassphrase (params : result bytes) (opened : result store)
  | CmdStartServer (params : result StartServerParams) (i : start_inputs)
  | CmdStopServer (o : stop_inputs)
  | CmdRestartServer (o : stop_inputs) (i : start_inputs)
  | CmdCancelStartServer
  | CmdGetServerStatus
  | CmdGetStatus
  | CmdDial (params : result DialParams) (i : dial_inputs) (dialer : result unit)
      (dialed : result (nat * bytes * Peer * Z)) (shutdown : bool) (tokens : result (list bytes))
  | CmdSendMessage (params : result (bytes * bytes)) (sent : bytes -> result Z)
  | CmdListSessions
  | CmdCloseSession (params : result bytes)
  | CmdRenameSession (params : result (bytes * bytes))
  | CmdGenerateRelayToken (peerPubB64 : bytes) (listen : option bytes -> relay_listen) (meanwhile : dm unit)
      (added : result unit)
  | CmdRemoveRelayToken (params : result bytes)
  | CmdListRelayTokens
  | CmdGenerateP2PToken (params : result (bytes * bytes)) (client : result unit) (c : broker_calls)
  | CmdRemoveP2PToken (params : result bytes)
  | CmdListP2PTokens
  | CmdGetShareInfo (localIP : result bytes) (listen : relay_listen) (meanwhile : dm unit) (added : result unit)
  | CmdVerifyResponse (params : result (Z * bool))
  | CmdSetVerificationMode (params : result Z) (o : stop_inputs) (i : start_inputs)
  | CmdGetVerificationMode
  | CmdGetHistorySessions
  | CmdGetHistoryMessages (params : result bytes)
  | CmdLoadHistory (params : result bytes)
  | CmdRenameHistorySession (params : result (bytes * bytes))
  | CmdDeleteHistorySession (params : result bytes)
  | CmdRefreshHistory
  | CmdListPeers
  | CmdDeletePeer (params : result bytes)
  | CmdGetFingerprint
  | CmdGetMyName
  | CmdSetMyName (params : result bytes)
  | CmdGetVersion (version : bytes)
  | CmdGetLibraryVersion
  | CmdGetIncognito
  | CmdSetIncognito (params : result bool)
  | CmdAddPeer (params : result (bytes * bytes))
  | CmdRenamePeer (params : result (bytes * bytes))
  | CmdGetPeer (params : result bytes)
  | CmdGetSessionInfo (params : result bytes)
  | CmdGetLogs
  | CmdClearLogs
  | CmdExportLogs (params : result bytes) (default_name : Z -> bytes) (created : result unit) (writes : nat -> result unit)
  | CmdGetLogLevel
  | CmdSetLogLevel (params : result bytes)
  | CmdHasKeychainPassphrase (found : result unit)
  | CmdClearKeychainPassphrase (deleted : result unit)
  | CmdGetFingerprintFormat
  | CmdSetFingerprintFormat (params : result bytes)
  | CmdShutdown (o : stop_inputs) (joined : bool)
  | CmdUnknown (name : bytes).

(** [Shutdown]: the server and the sessions it closes.  It waits for the relay
    listeners as [handleStopServer] does, for [ListenAndServe], and for every
    goroutine of the daemon ([joined]: whether [d.wg.Wait] returns). *)
Definition Shutdown (o : stop_inputs) (joined : bool) : dm (option nat * list nat) :=
  close_relay_listeners (so_closes o) ;!
  let! srv := dget d_server in
  let! sessions := dget (fun d => map snd (map_to_list (d_sessions d))) in
  dset (fun d => set_relay (d_relayAddr d) (d_relayPassword d) (d_relaySessionTTL d) false d) ;!
  dset (set_server None) ;!
  dset (set_sessions ∅) ;!
  so_meanwhile o ;!
  (if joined then dret tt else fun _ => None) ;!
  dset (set_daemon_db None) ;!
  emit EvtResponse [] (ok_status "shutdown") ;!
  dret (srv, sessions).

(** [handleDial], then its goroutine up to the receive loop. *)
Definition run_dial (id : bytes) (params : result DialParams) (i : dial_inputs) (dialer : result unit)
    (dialed : result (nat * bytes * Peer * Z)) (shutdown : bool) (tokens : result (list bytes)) : dm unit :=
  let! job := handleDial id params i in
  match job with
  | None => dret tt
  | Some addr =>
      let transport := match params with Ok p => dp_Transport p | Err _ => [] end in
      let! _ := dial_goroutine id addr transport dialer dialed shutdown tokens in dret tt
  end.

Definition handleCommand (id : bytes) (cmd : command) : dm unit :=
  match cmd with
  | CmdOpenStorage params env opened => handleOpenStorage id params env opened
  | CmdSubmitPassphrase params opened => handleSubmitPassphrase id params opened
  | CmdStartServer params i => handleStartServer id params i
  | CmdStopServer o => let! _ := handleStopServer id o in dret tt
  | CmdRestartServer o i => handleRestartServer id o i
  | CmdCancelStartServer => handleCancelStartServer id
  | CmdGetServerStatus => handleGetServerStatus id
  | CmdGetStatus => handleGetStatus id
  | CmdDial params i dialer dialed shutdown tokens => run_dial id params i dialer dialed shutdown tokens
  | CmdSendMessage params sent => handleSendMessage id params sent
  | CmdListSessions => handleListSessions id
  | CmdCloseSession params => handleCloseSession id params
  | CmdRenameSession params => handleRenameSession id params
  | CmdGenerateRelayToken peer listen meanwhile added => handleGenerateRelayToken id peer listen meanwhile added
  | CmdRemoveRelayToken params => handleRemoveRelayToken id params
  | CmdListRelayTokens => handleListRelayTokens id
  | CmdGenerateP2PToken params client c => handleGenerateP2PToken id params client c
  | CmdRemoveP2PToken params => handleRemoveP2PToken id params
  | CmdListP2PTokens => handleListP2PTokens id
  | CmdGetShareInfo localIP listen meanwhile added => handleGetShareInfo id localIP listen meanwhile added
  | CmdVerifyResponse params => handleVerifyResponse id params
  | CmdSetVerificationMode params o i => handleSetVerificationMode id params o i
  | CmdGetVerificationMode => handleGetVerificationMode id
  | CmdGetHistorySessions => handleGetHistorySessions id
  | CmdGetHistoryMessages params => handleGetHistoryMessages id params
  | CmdLoadHistory params => handleLoadHistory id params
  | CmdRenameHistorySession params => handleRenameHistorySession id params
  | CmdDeleteHistorySession params => handleDeleteHistorySession id params
  | CmdRefreshHistory => handleRefreshHistory id
  | CmdListPeers => handleListPeers id
  | CmdDeletePeer params => handleDeletePeer id params
  | CmdGetFingerprint => handleGetFingerprint id
  | CmdGetMyName => handleGetMyName id
  | CmdSetMyName params => handleSetMyName id params
  | CmdGetVersion version => handleGetVersion id version
  | CmdGetLibraryVersion => handleGetLibraryVersion id
  | CmdGetIncognito => handleGetIncognito id
  | CmdSetIncognito params => handleSetIncognito id params
  | CmdAddPeer params => handleAddPeer id params
  | CmdRenamePeer params => handleRenamePeer id params
  | CmdGetPeer params => handleGetPeer id params
  | CmdGetSessionInfo params => handleGetSessionInfo id params
  | CmdGetLogs => handleGetLogs id
  | CmdClearLogs => handleClearLogs id
  | CmdExportLogs params name created writes => handleExportLogs id params name created writes
  | CmdGetLogLevel => handleGetLogLevel id
  | CmdSetLogLevel params => handleSetLogLevel id params
  | CmdHasKeychainPassphrase found => handleHasKeychainPassphrase id found
  | CmdClearKeychainPassphrase deleted => handleClearKeychainPassphrase id deleted
  | CmdGetFingerprintFormat => handleGetFingerprintFormat id
  | CmdSetFingerprintFormat params => handleSetFingerprintFormat id params
  | CmdShutdown o joined => let! _ := Shutdown o joined in dret tt
  | CmdUnknown name => emitError id [P "unknown command: "; PB name]
  end.

(** One line of the input: empty, not JSON, not of type "cmd", or a command. *)
Inductive line := EmptyLine | BadLine (e : error) | OtherType (id type : bytes) | CmdLine (id : bytes) (cmd : command).

Definition run_line (l : line) : dm unit :=
  match l with
  | EmptyLine => dret tt
  | BadLine e => emitError [] [P "invalid JSON: "; PE e]
  | OtherType id type => emitError id [P "unknown message type: "; PB type]
  | CmdLine id cmd => handleCommand id cmd
  end.

(** ** Properties *)

(** What runs while a handler waits neither answers the command nor cancels the
    start; a dial is not overtaken by a shutdown. *)
Definition quiet (id : bytes) (m : dm unit) : Prop := answers id 0 m /\ dpres (same d_startCancel) m.

Definition quiet_start (id : bytes) (i : start_inputs) : Prop := quiet id (si_meanwhile i) /\ answers id 0 (si_serving i).

Definition undisturbed (id : bytes) (cmd : command) : Prop :=
  match cmd with
  | CmdStartServer _ i => quiet_start id i
  | CmdStopServer o | CmdShutdown o _ => answers id 0 (so_meanwhile o)
  | CmdRestartServer o i | CmdSetVerificationMode _ o i => answers id 0 (so_meanwhile o) /\ quiet_start id i
  | CmdGenerateRelayToken _ _ m _ | CmdGetShareInfo _ _ m _ => quiet id m
  | CmdDial _ _ _ _ shutdown _ => shutdown = false
  | _ => True
  end.

Definition answer_count (cmd : command) : nat :=
  match cmd with CmdRestartServer _ _ => 2 | CmdShutdown _ _ => 0 | _ => 1 end.

(** What the handlers share emits nothing under the identifier. *)
Section silent.
Context (id : bytes) (Hid : id <> []).

Lemma loadHistorySessions_silent : answers id 0 loadHistorySessions.
Proof. unfold loadHistorySessions. danswer. Qed.

Lemma loadIdentityAndHistory_silent : answers id 0 loadIdentityAndHistory.
Proof.
  unfold loadIdentityAndHistory, loadIdentity. pose proof loadHistorySessions_silent. danswer.
Qed.

Lemma openStorage_silent path no env opened : answers id 0 (openStorage path no env opened).
Proof. unfold openStorage. danswer. Qed.

Lemma setStatusIfEmpty_silent status msg : answers id 0 (setStatusIfEmpty status msg).
Proof. unfold setStatusIfEmpty. danswer. Qed.

Lemma emit_tokens_silent : answers id 0 emit_tokens.
Proof. unfold emit_tokens. danswer. Qed.

Lemma emit_p2p_silent : answers id 0 emit_p2p.
Proof. unfold emit_p2p, GetP2PTokens. danswer. Qed.

Lemma append_message_silent p m : answers id 0 (append_message p m).
Proof. unfold append_message, update_session. danswer. Qed.

Lemma persist_message_silent sid data ts sender : answers id 0 (persist_message sid data ts sender).
Proof. unfold persist_message. danswer. Qed.

Lemma deriveP2PToken_silent peer : answers id 0 (deriveP2PToken peer).
Proof. unfold deriveP2PToken, static_token. danswer. Qed.

Lemma own_name_silent name : answers id 0 (own_name name).
Proof. unfold own_name. danswer. Qed.

Lemma close_lookup_silent sid : answers id 0 (close_lookup sid).
Proof. unfold close_lookup. danswer. Qed.

Lemma loadChatHistory_silent p sid : answers id 0 (loadChatHistory p sid).
Proof. unfold loadChatHistory, update_session. danswer. Qed.

Lemma record_session_silent sid key tokens : answers id 0 (record_session sid key tokens).
Proof. unfold record_session, deriveAndStoreRelayTokens. danswer. Qed.

Lemma warn_version_silent sid remote : answers id 0 (warn_version sid remote).
Proof. unfold warn_version. danswer. Qed.

Lemma new_session_silent s : answers id 0 (new_session s).
Proof. unfold new_session. danswer. Qed.

Lemma GenerateP2PToken_silent has addr peer c : answers id 0 (GenerateP2PToken has addr peer c).
Proof.
  pose proof emit_p2p_silent. pose proof (deriveP2PToken_silent peer). unfold GenerateP2PToken.
  repeat (danswer_step || case_match).
Qed.

Lemma RemoveP2PToken_silent token : answers id 0 (RemoveP2PToken token).
Proof. pose proof emit_p2p_silent. unfold RemoveP2PToken. danswer. Qed.

Lemma start_transport_silent p i : answers id 0 (si_meanwhile i) -> answers id 0 (start_transport p i).
Proof.
  intros Hm. pose proof (fun h a b => GenerateP2PToken_silent h a b (si_calls i)). unfold start_transport. danswer.
Qed.

End silent.

#[local] Hint Resolve loadHistorySessions_silent loadIdentityAndHistory_silent openStorage_silent setStatusIfEmpty_silent
  emit_tokens_silent emit_p2p_silent append_message_silent persist_message_silent deriveP2PToken_silent own_name_silent
  close_lookup_silent loadChatHistory_silent record_session_silent warn_version_silent new_session_silent
  GenerateP2PToken_silent RemoveP2PToken_silent start_transport_silent : daemon_answers.

(** *** Starting a server *)

Lemma own_name_cancel name : dpres (same d_startCancel) (own_name name).
Proof. unfold own_name. dframe. Qed.

Lemma start_not_cancelled p i d r d' :
  dpres (same d_startCancel) (si_meanwhile i) -> d_startCancel d = true ->
  start_transport p i d = Some (r, d') -> r <> inl StartCancelled.
Proof.
  intros Hm Hd. unfold start_transport. destruct (bool_decide _).
  - unfold dbind at 1, dget at 1. rewrite Hd. cbn [negb]. intros E. apply dbind_inv in E as (u & d1 & E1 & E).
    assert (Hd1 : d_startCancel d1 = true) by (rewrite <- (Hm _ _ _ E1); done).
    destruct (si_relay i) as [[[[l t] x] y]|e].
    + destruct (si_added i); by apply some_pair in E as [<- _].
    + unfold dbind, dget in E. rewrite Hd1 in E. by apply some_pair in E as [<- _].
  - destruct (bool_decide _).
    + destruct (si_broker i) as [b|e]; [|intros E; by apply some_pair in E as [<- _]]. intros E.
      apply dbind_inv in E as (t & d1 & _ & E).
      repeat case_match; by apply some_pair in E as [<- _].
    + destruct (bool_decide _); [|intros E; by apply some_pair in E as [<- _]].
      destruct (si_direct i); intros E; by apply some_pair in E as [<- _].
Qed.

Lemma start_announce_answers id p addr name key token m :
  id <> [] -> answers id 0 m -> answers id 1 (start_announce id p addr name key token m).
Proof. intros Hid Hm. unfold start_announce. danswer. Qed.

Lemma start_announce_broadcast id p addr name key token m :
  id <> [] -> answers id 0 m -> answers id 0 (start_announce [] p addr name key token m).
Proof. intros Hid Hm. unfold start_announce. danswer. Qed.

(** What [start_server] does before it makes a listener. *)
Lemma dpres_same_eq {X A} (f : Daemon -> X) (m : dm A) d a d' : dpres (same f) m -> m d = Some (a, d') -> f d' = f d.
Proof. intros Hm E. symmetry. exact (Hm _ _ _ E). Qed.

(** A start of which nothing was cancelled. *)
Lemma start_server_answers id p i d u d' :
  id <> [] -> quiet_start id i -> d_startCancel d = true ->
  start_server id p i d = Some (u, d') -> events_of id d' = (events_of id d + 1)%nat.
Proof.
  intros Hid [[Hq Hc] Hv] Hd E. unfold start_server in E. apply dbind_inv in E as (name & d1 & E1 & E).
  pose proof (dpres_same_eq _ _ _ _ _ (own_name_cancel _) E1) as Hd1.
  assert (Hev1 : events_of id d1 = events_of id d).
  { rewrite <- (Nat.add_0_r (events_of id d)). refine ((_ : answers id 0 _) _ _ _ E1). auto with daemon_answers. }
  rewrite <- Hev1. clear E1.
  destruct name as [name|e].
  2: { apply (answers_run _ _ _ _ _ _ E). danswer. }
  apply dbind_inv in E as (x & d2 & E2 & E). apply some_pair in E2 as [_ <-].
  apply dbind_inv in E as (x2 & d3 & E3 & E).
  set (save := let! incognito := dget d_incognito in _) in E3.
  assert (Hs : answers id 0 save) by (unfold save; danswer).
  assert (Hs' : dpres (same d_startCancel) save) by (unfold save; dframe).
  pose proof (dpres_same_eq _ _ _ _ _ Hs' E3) as Hd3. pose proof (Hs _ _ _ E3) as Hev. clearbody save. clear E3 Hs Hs'.
  apply dbind_inv in E as (r & d4 & E4 & E).
  assert (Ht : answers id 0 (start_transport p i)) by auto with daemon_answers.
  pose proof (Ht _ _ _ E4) as Hev4.
  assert (Hr : r <> inl StartCancelled) by (eapply start_not_cancelled; [exact Hc| |exact E4]; rewrite Hd3; cbn; congruence).
  change (events_of id (set_myName name d1)) with (events_of id d1) in Hev.
  replace (events_of id d1) with (events_of id d4) by lia. clear -Hid Hr Hv E.
  apply (answers_run _ _ _ _ _ _ E). pose proof (fun p addr name key token => start_announce_answers id p addr name key token _ Hid Hv).
  destruct r as [[|status log msg]|[addr token]]; [done|danswer|danswer].
Qed.

Lemma handleStartServer_answers id params i :
  id <> [] -> quiet_start id i -> answers id 1 (handleStartServer id params i).
Proof.
  intros Hid Hq. unfold handleStartServer. apply answers_params; [done|intros p]. apply answers_require.
  do 2 (apply answers_after; [danswer|intros ?]). intros d u d' E.
  apply dbind_inv in E as (x & d1 & E1 & E). apply some_pair in E1 as [_ <-].
  apply dbind_inv in E as (x2 & d2 & E2 & E). apply some_pair in E as [_ <-].
  change (events_of id (set_startCancel false d2)) with (events_of id d2).
  change (events_of id d) with (events_of id (set_startCancel true d)).
  unfold with_store in E2. destruct (d_db _).
  - by eapply start_server_answers.
  - apply (answers_run _ _ _ _ _ _ E2). danswer.
Qed.

Lemma handleStartServer_broadcast id params i :
  id <> [] -> answers id 0 (si_meanwhile i) -> answers id 0 (si_serving i) -> answers id 0 (handleStartServer [] params i).
Proof.
  intros Hid Hq Hv. pose proof (fun p addr name key token => start_announce_broadcast id p addr name key token _ Hid Hv).
  unfold handleStartServer, with_params, requireStorage, start_server.
  destruct params; danswer.
Qed.

Lemma close_relay_listeners_silent id closes : answers id 0 (close_relay_listeners closes).
Proof. unfold close_relay_listeners. danswer. Qed.

#[local] Hint Resolve close_relay_listeners_silent : daemon_answers.

Lemma handleStopServer_answers id o : id <> [] -> answers id 0 (so_meanwhile o) -> answers id 1 (handleStopServer id o).
Proof. intros Hid Ho. unfold handleStopServer, stop_locked. danswer. Qed.

Lemma handleStopServer_broadcast id o : id <> [] -> answers id 0 (so_meanwhile o) -> answers id 0 (handleStopServer [] o).
Proof. intros Hid Ho. unfold handleStopServer, stop_locked. danswer. Qed.

Lemma handleRestartServer_answers id o i :
  id <> [] -> answers id 0 (so_meanwhile o) -> quiet_start id i -> answers id 2 (handleRestartServer id o i).
Proof.
  intros Hid Ho Hq. unfold handleRestartServer. do 2 (apply answers_after; [danswer|intros ?]).
  apply (answers_bind id 1 1); [by apply handleStopServer_answers|intros _]. by apply handleStartServer_answers.
Qed.

Lemma handleRestartServer_broadcast id o i :
  id <> [] -> answers id 0 (so_meanwhile o) -> quiet_start id i -> answers id 0 (handleRestartServer [] o i).
Proof.
  intros Hid Ho [[Hq _] Hv]. pose proof (handleStopServer_broadcast id o Hid Ho).
  pose proof (fun p => handleStartServer_broadcast id p i Hid Hq Hv). unfold handleRestartServer. danswer.
Qed.

(** *** The other handlers that answer late *)

Lemma write_entries_answers id entries writes :
  forall n d b d', write_entries id entries writes n d = Some (b, d') ->
  events_of id d' = (events_of id d + if b then 0 else 1)%nat.
Proof.
  induction entries as [|e entries IH]; intros n d b d' E; cbn [write_entries] in E.
  - apply some_pair in E as [<- <-]. lia.
  - destruct (writes n) as [u|err]; [by apply IH in E|].
    apply dbind_inv in E as (x & d1 & E1 & E). apply some_pair in E as [<- <-].
    apply (answers_run _ _ _ _ _ _ E1), answers_error.
Qed.

Lemma handleExportLogs_answers id params name created writes :
  id <> [] -> answers id 1 (handleExportLogs id params name created writes).
Proof.
  intros Hid. unfold handleExportLogs. apply answers_params; [done|intros path].
  apply answers_after; [danswer|intros entries]. apply answers_after; [danswer|intros file].
  destruct created as [u|e]; [|danswer]. intros d x d' E. apply dbind_inv in E as (b & d1 & E1 & E).
  apply write_entries_answers in E1. destruct b.
  - rewrite Nat.add_0_r in E1. rewrite <- E1. apply (answers_run _ _ _ _ _ _ E). danswer.
  - apply some_pair in E as [_ <-]. done.
Qed.

(** [handleDial] answers unless it leaves a dial to its goroutine. *)
Lemma handleDial_answers id params i d job d' :
  id <> [] -> handleDial id params i d = Some (job, d') ->
  events_of id d' = (events_of id d + match job with None => 1 | Some _ => 0 end)%nat.
Proof.
  intros Hid E.
  assert (Hnone : forall (m : dm unit), answers id 1 m -> forall d job d', (m ;! dret None) d = Some (job, d') ->
    events_of id d' = (events_of id d + match job : option bytes with None => 1 | Some _ => 0 end)%nat).
  { intros m Hm d0 j d1 E0. apply dbind_inv in E0 as (x & d2 & E1 & E0). apply some_pair in E0 as [<- <-].
    exact (Hm _ _ _ E1). }
  unfold handleDial in E. destruct params as [p|e]; [|by apply (Hnone _ (answers_error id _)) in E].
  unfold requireStorage, with_store, dbind at 1 in E. destruct (d_db d) as [s|] eqn:Es.
  2: { apply some_pair in E as [<- <-]. eapply (answers_error id). reflexivity. }
  cbn [negb dret] in E. apply dbind_inv in E as (x & d1 & E1 & E).
  apply (answers_run id 0) in E1; [|danswer]. rewrite Nat.add_0_r in E1. rewrite <- E1. clear E1 Es.
  destruct (d_db d1); [|by apply (Hnone _ (answers_error id _)) in E].
  apply dbind_inv in E as (name & d2 & E2 & E).
  apply (answers_run id 0) in E2; [|danswer]. rewrite Nat.add_0_r in E2. rewrite <- E2. clear E2.
  destruct name as [name|e]; [|by apply (Hnone _ (answers_error id _)) in E].
  apply dbind_inv in E as (y & d3 & E3 & E). apply some_pair in E3 as [_ <-].
  apply dbind_inv in E as (z & d4 & E4 & E). apply (answers_run id 0) in E4; [|danswer]. rewrite Nat.add_0_r in E4.
  change (events_of id d2) with (events_of id (set_myName name d2)). rewrite <- E4. clear E4.
  destruct (dial_transport p i) as [[[status log] msg]|addr].
  - apply dbind_inv in E as (a & d5 & E5 & E). apply (answers_run id 0) in E5; [|danswer]. rewrite Nat.add_0_r in E5.
    apply dbind_inv in E as (b & d6 & E6 & E). apply (answers_run id 0) in E6; [|danswer]. rewrite Nat.add_0_r in E6.
    rewrite <- E5, <- E6. by apply (Hnone _ (answers_error id _)) in E.
  - apply some_pair in E as [<- <-]. lia.
Qed.

Lemma run_dial_answers id params i dialer dialed tokens :
  id <> [] -> answers id 1 (run_dial id params i dialer dialed false tokens).
Proof.
  intros Hid d u d' E. unfold run_dial in E. apply dbind_inv in E as (job & d1 & E1 & E).
  apply handleDial_answers in E1; [|done]. destruct job as [addr|].
  - rewrite Nat.add_0_r in E1. rewrite <- E1. apply (answers_run _ _ _ _ _ _ E).
    unfold dial_goroutine, dial_session, update_session, register_session. danswer.
  - apply some_pair in E as [_ <-]. done.
Qed.

#[local] Hint Resolve handleStartServer_answers handleStopServer_answers handleRestartServer_answers
  handleRestartServer_broadcast handleExportLogs_answers run_dial_answers : daemon_answers.

(** The handlers that are taken apart as they stand. *)
#[local] Ltac unfold_handlers :=
  unfold handleAddPeer, handleCancelStartServer, handleClearKeychainPassphrase, handleClearLogs,
    handleCloseSession, handleCommand, handleDeleteHistorySession, handleDeletePeer, handleGenerateP2PToken,
    handleGenerateRelayToken, handleGetFingerprint, handleGetFingerprintFormat, handleGetHistoryMessages,
    handleGetHistorySessions, handleGetIncognito, handleGetLibraryVersion, handleGetLogLevel, handleGetLogs,
    handleGetMyName, handleGetPeer, handleGetServerStatus, handleGetSessionInfo, handleGetShareInfo,
    handleGetStatus, handleGetVerificationMode, handleGetVersion, handleHasKeychainPassphrase,
    handleListP2PTokens, handleListPeers, handleListRelayTokens, handleListSessions, handleLoadHistory,
    handleOpenStorage, handleRefreshHistory, handleRemoveP2PToken, handleRemoveRelayToken,
    handleRenameHistorySession, handleRenamePeer, handleRenameSession, handleSendMessage,
    handleSetFingerprintFormat, handleSetIncognito, handleSetLogLevel, handleSetMyName,
    handleSetVerificationMode, handleSubmitPassphrase, handleVerifyResponse, GetP2PTokens, share_relay, share_answer,
    update_session.

Lemma handleCommand_answers id cmd d u d' :
  id <> [] -> undisturbed id cmd -> handleCommand id cmd d = Some (u, d') ->
  events_of id d' = (events_of id d + answer_count cmd)%nat.
Proof.
  intros Hid Hq E. apply (answers_run _ _ _ _ _ _ E). clear E.
  destruct cmd; cbn [handleCommand answer_count undisturbed] in *; subst;
    unfold_handlers; unfold Shutdown;
    first [solve [danswer] | destruct Hq; danswer].
Qed.

(** *** Every command returns *)

(** What runs meanwhile returns, and a server that is being started keeps its tokens
    until the start is announced; closing the relay listeners returns, and at a
    shutdown the goroutines end; a dial that succeeds is not recorded, since
    [CreateSession] may block; the history that is read is not damaged. *)
Definition completes (cmd : command) (d : Daemon) : Prop :=
  match cmd with
  | CmdStartServer _ i => starts i
  | CmdStopServer o => stops o
  | CmdRestartServer o i | CmdSetVerificationMode _ o i => stops o /\ starts i
  | CmdShutdown o joined => stops o /\ joined = true
  | CmdGenerateRelayToken _ _ m _ | CmdGetShareInfo _ _ m _ => returning m
  | CmdDial _ _ dialer dialed _ _ => is_ok dialer && is_ok dialed = true -> d_incognito d = true
  | CmdGetHistoryMessages (Ok sid) => forall s, d_db d = Some s -> is_Some (GetChatHistory sid s)
  | _ => True
  end.

Lemma handleGetHistoryMessages_returns id params d :
  completes (CmdGetHistoryMessages params) d -> holds no_facts d ->
  exists u d', handleGetHistoryMessages id params d = Some (u, d') /\ holds no_facts d'.
Proof.
  intros Hc Hd. unfold handleGetHistoryMessages. destruct params as [sid|e]; [|by apply runs_error].
  cbn [with_params]. unfold dbind at 1, dget at 1. destruct (negb _); [by apply runs_error|].
  unfold with_store. destruct (d_db d) as [s|] eqn:Es; [|by apply runs_error].
  destruct (Hc s Es) as [[r s'] Er]. unfold dbind at 1, call_opt. rewrite Es, Er.
  assert (Hd1 : holds no_facts (set_daemon_db (Some s') d)) by (destruct Hd as [? _]; by split_and!).
  revert Hd1. generalize (set_daemon_db (Some s') d). fold_runs. druns.
Qed.

Lemma Shutdown_runs o : stops o -> runs no_facts (Shutdown o true).
Proof.
  intros [Hc [Hm _]]. unfold Shutdown. rewrite Hc. pose proof (close_relay_listeners_runs no_facts). druns.
Qed.

#[local] Hint Resolve Shutdown_runs : daemon_runs.

Context `{!CryptoOk _}.

Lemma run_dial_returns id params i dialer dialed shutdown tokens d :
  completes (CmdDial params i dialer dialed shutdown tokens) d -> holds no_facts d ->
  exists u d', run_dial id params i dialer dialed shutdown tokens d = Some (u, d') /\ holds no_facts d'.
Proof.
  intros Hc Hd. set (F := mkFacts false false (is_ok dialer && is_ok dialed) []).
  assert (Hr : runs F (run_dial id params i dialer dialed shutdown tokens)).
  { unfold run_dial. apply runs_bind; [druns|intros job]. destruct job as [addr|]; [|druns].
    apply runs_bind; [|intros ?; druns]. unfold dial_goroutine. destruct dialer; [|druns]. destruct dialed as [[[[t sid] peer] ttl]|e]; [|druns].
    destruct shutdown; [druns|]. apply runs_bind; [by apply dial_session_runs|intros ?; druns]. }
  destruct (Hr d) as (u & d' & E & Hs & _).
  - destruct Hd as (? & _). by split_and!.
  - exists u, d'. split; [done|]. by split_and!.
Qed.

Lemma handleCommand_returns id cmd d :
  completes cmd d -> sessions_ok d -> exists u d', handleCommand id cmd d = Some (u, d') /\ sessions_ok d'.
Proof.
  intros Hc Hs. assert (Hd : holds no_facts d) by by split_and!.
  enough (exists u d', handleCommand id cmd d = Some (u, d') /\ holds no_facts d') as (u & d' & E & Hs' & _) by eauto.
  destruct cmd;
    try (by apply handleGetHistoryMessages_returns); try (by apply run_dial_returns);
    clear Hs; cbn [handleCommand completes] in *;
    try (match type of Hc with _ /\ _ => destruct Hc; subst | _ => pose proof (proj1 Hc) end); revert d Hd; fold_runs.
  all: unfold_handlers; unfold handleExportLogs; druns.
Qed.


(** *** The log *)

Fixpoint run_lines (ls : list line) : dm unit :=
  match ls with [] => dret tt | l :: ls => run_line l ;! run_lines ls end.

Definition start_keeps_log (i : start_inputs) : Prop := dpres keeps_log (si_meanwhile i) /\ dpres keeps_log (si_serving i).

(** The line does not clear the log, and neither does what runs meanwhile. *)
Definition keeps_log_line (l : line) : Prop :=
  match l with
  | CmdLine _ CmdClearLogs => False
  | CmdLine _ (CmdStartServer _ i) => start_keeps_log i
  | CmdLine _ (CmdStopServer o | CmdShutdown o _) => dpres keeps_log (so_meanwhile o)
  | CmdLine _ (CmdRestartServer o i | CmdSetVerificationMode _ o i) => dpres keeps_log (so_meanwhile o) /\ start_keeps_log i
  | CmdLine _ (CmdGenerateRelayToken _ _ m _ | CmdGetShareInfo _ _ m _) => dpres keeps_log m
  | _ => True
  end.

Lemma write_entries_log id entries writes n : dpres keeps_log (write_entries id entries writes n).
Proof. revert n. induction entries as [|e entries IH]; intros n; cbn [write_entries]; dlog. Qed.

Lemma loadHistorySessions_log : dpres keeps_log loadHistorySessions.
Proof. unfold loadHistorySessions. dlog. Qed.

#[local] Hint Resolve loadHistorySessions_log : daemon_log.

Lemma loadIdentityAndHistory_log : dpres keeps_log loadIdentityAndHistory.
Proof. unfold loadIdentityAndHistory, loadIdentity. dlog. Qed.

Lemma openStorage_log path no env opened : dpres keeps_log (openStorage path no env opened).
Proof. unfold openStorage. dlog. Qed.

Lemma setStatusIfEmpty_log status msg : dpres keeps_log (setStatusIfEmpty status msg).
Proof. unfold setStatusIfEmpty. dlog. Qed.

Lemma emit_tokens_log : dpres keeps_log emit_tokens.
Proof. unfold emit_tokens. dlog. Qed.

Lemma emit_p2p_log : dpres keeps_log emit_p2p.
Proof. unfold emit_p2p, GetP2PTokens. dlog. Qed.

Lemma append_message_log p m : dpres keeps_log (append_message p m).
Proof. unfold append_message, update_session. dlog. Qed.

Lemma persist_message_log sid data ts sender : dpres keeps_log (persist_message sid data ts sender).
Proof. unfold persist_message. dlog. Qed.

Lemma deriveP2PToken_log peer : dpres keeps_log (deriveP2PToken peer).
Proof. unfold deriveP2PToken, static_token. dlog. Qed.

Lemma own_name_log name : dpres keeps_log (own_name name).
Proof. unfold own_name. dlog. Qed.

Lemma requireStorage_log id : dpres keeps_log (requireStorage id).
Proof. unfold requireStorage. dlog. Qed.

Lemma close_lookup_log sid : dpres keeps_log (close_lookup sid).
Proof. unfold close_lookup. dlog. Qed.

Lemma loadChatHistory_log p sid : dpres keeps_log (loadChatHistory p sid).
Proof. unfold loadChatHistory, update_session. dlog. Qed.

Lemma record_session_log sid key tokens : dpres keeps_log (record_session sid key tokens).
Proof. unfold record_session, deriveAndStoreRelayTokens. dlog. Qed.

Lemma warn_version_log sid remote : dpres keeps_log (warn_version sid remote).
Proof. unfold warn_version. dlog. Qed.

Lemma new_session_log s : dpres keeps_log (new_session s).
Proof. unfold new_session. dlog. Qed.

Lemma close_relay_listeners_log closes : dpres keeps_log (close_relay_listeners closes).
Proof. unfold close_relay_listeners. dlog. Qed.

#[local] Hint Resolve close_relay_listeners_log : daemon_log.

Lemma handleStopServer_log id o : dpres keeps_log (so_meanwhile o) -> dpres keeps_log (handleStopServer id o).
Proof. intros Ho. unfold handleStopServer, stop_locked. dlog. Qed.

#[local] Hint Resolve loadIdentityAndHistory_log openStorage_log setStatusIfEmpty_log emit_tokens_log
  emit_p2p_log append_message_log persist_message_log deriveP2PToken_log own_name_log requireStorage_log
  close_lookup_log loadChatHistory_log record_session_log warn_version_log new_session_log handleStopServer_log : daemon_log.

Lemma GenerateP2PToken_log has addr peer c : dpres keeps_log (GenerateP2PToken has addr peer c).
Proof. unfold GenerateP2PToken. repeat (dlog_step || case_match). Qed.

Lemma RemoveP2PToken_log token : dpres keeps_log (RemoveP2PToken token).
Proof. unfold RemoveP2PToken. dlog. Qed.

Lemma start_announce_log id p addr name key token m :
  dpres keeps_log m -> dpres keeps_log (start_announce id p addr name key token m).
Proof. intros Hm. unfold start_announce. dlog. Qed.

#[local] Hint Resolve GenerateP2PToken_log RemoveP2PToken_log start_announce_log write_entries_log : daemon_log.

Lemma start_transport_log p i : dpres keeps_log (si_meanwhile i) -> dpres keeps_log (start_transport p i).
Proof. intros Hm. unfold start_transport. dlog. Qed.

#[local] Hint Resolve start_transport_log : daemon_log.

Lemma handleStartServer_log id params i : start_keeps_log i -> dpres keeps_log (handleStartServer id params i).
Proof. intros [Hm Hv]. unfold handleStartServer, start_server. dlog. Qed.

#[local] Hint Resolve handleStartServer_log : daemon_log.

Lemma handleRestartServer_log id o i :
  dpres keeps_log (so_meanwhile o) -> start_keeps_log i -> dpres keeps_log (handleRestartServer id o i).
Proof. intros Ho Hm. unfold handleRestartServer. dlog. Qed.

Lemma run_dial_log id params i dialer dialed shutdown tokens :
  dpres keeps_log (run_dial id params i dialer dialed shutdown tokens).
Proof.
  unfold run_dial, handleDial, dial_goroutine, dial_session, update_session, register_session.
  repeat (dlog_step || case_match).
Qed.

#[local] Hint Resolve handleRestartServer_log run_dial_log : daemon_log.

Lemma run_line_log l : keeps_log_line l -> dpres keeps_log (run_line l).
Proof.
  destruct l as [|e|id type|id cmd]; cbn [run_line keeps_log_line]; intros Hl; [dlog..|].
  destruct cmd; cbn [handleCommand] in *; try done;
    try (match type of Hl with _ /\ _ => destruct Hl end);
    unfold handleAddPeer, handleCancelStartServer, handleClearKeychainPassphrase, handleCloseSession,
      handleCommand, handleDeleteHistorySession, handleDeletePeer, handleExportLogs, handleGenerateP2PToken,
      handleGenerateRelayToken, handleGetFingerprint, handleGetFingerprintFormat, handleGetHistoryMessages,
      handleGetHistorySessions, handleGetIncognito, handleGetLibraryVersion, handleGetLogLevel, handleGetLogs,
      handleGetMyName, handleGetPeer, handleGetServerStatus, handleGetSessionInfo, handleGetShareInfo,
      handleGetStatus, handleGetVerificationMode, handleGetVersion, handleHasKeychainPassphrase,
      handleListP2PTokens, handleListPeers, handleListRelayTokens, handleListSessions, handleLoadHistory,
      handleOpenStorage, handleRefreshHistory, handleRemoveP2PToken, handleRemoveRelayToken,
      handleRenameHistorySession, handleRenamePeer, handleRenameSession, handleSendMessage,
      handleSetFingerprintFormat, handleSetIncognito, handleSetLogLevel, handleSetMyName,
      handleSetVerificationMode, handleSubmitPassphrase, handleVerifyResponse, Shutdown, GetP2PTokens, share_relay, share_answer, update_session;
    dlog.
Qed.

(** C32: The answer to get_logs is exactly the last 200 log events the client was sent,
    whatever commands came in between, as long as none of them clears the log. *)
Theorem log_buffer_recent clock ls u d :
  Forall keeps_log_line ls -> run_lines ls (NewDaemon clock) = Some (u, d) ->
  map log_value (d_logEntries d) = drop (length (log_events d) - 200) (log_events d).
Proof.
  intros Hls Hr. assert (Hk : keeps_log (NewDaemon clock) d).
  { revert Hr. generalize (NewDaemon clock). induction Hls as [|l ls Hl Hls IH]; intros d0 E; cbn [run_lines] in E.
    - apply some_pair in E as [_ <-]. reflexivity.
    - apply dbind_inv in E as (x & d1 & E1 & E). etrans; [exact (run_line_log l Hl _ _ _ E1)|by apply IH]. }
  destruct Hk as [Hsize Hrec]. cbn in Hsize. rewrite <- Hsize. by apply Hrec.
Qed.

End command.

(** ** Witnesses *)

Section sample.
Existing Instance toy_crypto.
Existing Instance wire_runtime.
Existing Instance map_bolt.

(** The start of a relay server, during which nothing else happens. *)
Definition sample_start : command :=
  CmdStartServer (Ok (mkStart [] (str "relay") (str "relay.example:443") [] (str "alice") [] [] []))
    (mkInputs (Ok (4%nat, str "00ff", 60, 600)) (dret tt) (Ok tt) (Ok tt)
       (mkCalls (Ok tt) (Ok tt) (fun _ => Ok [])) (Ok tt) (Ok []) (fun _ => Ok (9%nat, str "key")) (dret tt)).


(** Many settings are changed; the client asks for none of the log. *)
Definition sample_lines : list line :=
  repeat (CmdLine (str "1") (CmdSetFingerprintFormat (Ok (str "emoji")))) 205.

Lemma log_buffer_recent_witness :
  exists d, run_lines sample_lines (NewDaemon (fun n => Z.of_nat n)) = Some (tt, d) /\
    length (log_events d) = 205%nat /\ length (d_logEntries d) = 200%nat /\
    map log_value (d_logEntries d) = drop (length (log_events d) - 200) (log_events d).
Proof.
  assert (Hn : option_map (fun ud => (length (log_events (snd ud)), length (d_logEntries (snd ud))))
    (run_lines sample_lines (NewDaemon (fun n => Z.of_nat n))) = Some (205%nat, 200%nat)) by (vm_compute; reflexivity).
  destruct (run_lines sample_lines (NewDaemon (fun n => Z.of_nat n))) as [[[] d]|] eqn:E; [|discriminate Hn].
  exists d. injection Hn as Hn1 Hn2. split; [reflexivity|]. split; [exact Hn1|]. split; [exact Hn2|].
  refine (log_buffer_recent (fun n => Z.of_nat n) sample_lines tt d _ E). apply Forall_forall. intros l Hl.
  apply list_elem_of_In, repeat_spec in Hl. rewrite Hl. exact I.
Defined.

End sample.
