(* ===== verification/RelayProcess.v ===== *)
(** * The relay process (cmd/relay: run, internal/config, internal/services/services.go,
      internal/handlers: router.go, tcp_handler.go, handlers.go)

    A configuration is validated and becomes a service: the session manager, the
    hub and the rate limiter.  [Run] starts the enabled servers, waits for an error
    or a signal, and shuts them down.  A connection is admitted by the rate limiter
    under a key: the address of the peer for TCP and TLS, [clientIP] of the request
    for WebSockets.

    Inputs of the model: the file, the environment and what the TOML package makes
    of them; the outcomes of Listen, Accept and of loading certificates; the clock.
    The third-party cache of the limiter is the class [LRU] with its constructor. *)

From Stdlib Require Import Sorting.Sorted.
From S2P Require Import Prelude GoErr Process Strconv Encoding NetIP Wire Pb Relay RelayToken RelayHub RateLimit DaemonNet.

(** ** config.go *)

Record listen := mkListen { l_Enabled : bool; l_Address : bytes }.
Record tls_listen := mkTLS { tl_Enabled : bool; tl_Address : bytes; tl_CertFile : bytes; tl_KeyFile : bytes }.
Record session_config := mkSessionConfig {
  sc_TokenTTL : Z; sc_SessionTTL : Z; sc_HandshakeTimeout : Z; sc_MaxConcurrentSessions : Z; sc_MaxMessageSize : Z
}.
Record broker_config := mkBrokerConfig { bc_Enabled : bool; bc_Address : bytes; bc_RegistrationTTL : Z }.
Record limit_config := mkLimitConfig { rc_Disabled : bool; rc_TimeWindow : Z; rc_Quota : Z; rc_MaxEntries : Z }.

Record Config := mkConfig {
  c_Password : bytes; c_Diagnose : listen; c_Session : session_config; c_RateLimit : limit_config;
  c_WS : listen; c_TCP : listen; c_TLS : tls_listen; c_WSS : tls_listen; c_Broker : broker_config
}.

Definition IsEnabled (rl : limit_config) : bool := negb (rc_Disabled rl).

(** One of the two files without the other. *)
Definition half_pair (t : tls_listen) : bool :=
  tl_Enabled t && negb (eqb (bool_decide (tl_CertFile t = [])) (bool_decide (tl_KeyFile t = []))).

Definition nothing_enabled (c : Config) : bool :=
  negb (l_Enabled (c_Diagnose c)) && negb (l_Enabled (c_WS c)) && negb (l_Enabled (c_TCP c)) &&
  negb (tl_Enabled (c_TLS c)) && negb (tl_Enabled (c_WSS c)) && negb (bc_Enabled (c_Broker c)).

Definition Validate (c : Config) : option error :=
  let s := c_Session c in
  if sc_MaxConcurrentSessions s <=? 0 then Some (errorf "session.max_concurrent_sessions must be > 0")
  else if sc_TokenTTL s <=? 0 then Some (errorf "session.token_ttl must be > 0")
  else if sc_SessionTTL s <? 0 then Some (errorf "session.session_ttl must be >= 0 (0 = no limit)")
  else if sc_MaxMessageSize s <? 0 then Some (errorf "session.max_message_size must be >= 0 (0 = no limit)")
  else if half_pair (c_TLS c) then Some (errorf "tls.cert_file and tls.key_file must both be set or both be empty")
  else if half_pair (c_WSS c) then Some (errorf "wss.cert_file and wss.key_file must both be set or both be empty")
  else if nothing_enabled c
  then Some (errorf "at least one server must be enabled (diagnose, ws, tcp, tls, wss, or broker)")
  else None.

(** [config.New]: the file, the variable KAMUNE_RELAY_CONFIG, [toml.Unmarshal]. *)
Definition config_New (path : bytes) (file : result bytes) (env : option bytes) (unmarshal : bytes -> result Config)
  : result Config :=
  let parse data := map_err (wrapf "unmarshal") (unmarshal data) in
  match path with
  | _ :: _ => match file with Err e => Err (wrapf "reading config" e) | Ok raw => parse raw end
  | [] => match env with
          | Some ((_ :: _) as raw) => parse raw
          | _ => Err (errorf "no config file (-c) and KAMUNE_RELAY_CONFIG env var not set")
          end
  end.

(** ** services.go, hub.go *)

(** [expirable.NewLRU(size, nil, ttl)]: a new cache holds nothing. *)
Class LRUNew (L : Type) := { lru_New : Z -> Z -> L }.
Class LRUNewOk (L : Type) `{LRUOk L} `{!LRUNew L} := { new_empty size ttl k : lru_last (lru_New size ttl) k = None }.

Section service.
Context {L : Type} `{LRU L} `{!LRUNew L}.

(** [ratelimit.New]. *)
Definition limiter_New (quota window maxEntries : Z) : RateLimiter (L := L) :=
  mkLimiter (lru_New maxEntries (window * 2)) quota window.

Record Hub := NewHub {
  h_sessions : SessionManager; h_password : bytes; h_maxMsgSize : Z;
  h_rateLimiter : option (RateLimiter (L := L)); h_handshakeTimeout : Z
}.

Record Service := mkService { sv_hub : Hub; sv_sessions : SessionManager; sv_cfg : Config; sv_startedAt : Z }.

(** Unset is 30 s, negative is off. *)
Definition handshake_timeout (configured : Z) : Z :=
  if 0 <? configured then configured else if configured <? 0 then 0 else 30 * Second.

(** [int(quota)] wraps. *)
Definition services_New (cfg : Config) (now : Z) : result Service :=
  match Validate cfg with
  | Some e => Err (wrapf "invalid config" e)
  | None =>
      let s := c_Session cfg in
      let sessions := NewSessionManager (sc_TokenTTL s) (sc_MaxConcurrentSessions s) (sc_SessionTTL s) in
      let rl := if IsEnabled (c_RateLimit cfg)
                then Some (limiter_New (i64 (rc_Quota (c_RateLimit cfg))) (rc_TimeWindow (c_RateLimit cfg))
                             (rc_MaxEntries (c_RateLimit cfg)))
                else None in
      Ok (mkService (NewHub sessions (c_Password cfg) (sc_MaxMessageSize s) rl (handshake_timeout (sc_HandshakeTimeout s)))
            sessions cfg now)
  end.

End service.

(** ** router.go *)

(** [net.ParseCIDR]: the first address of the block and the length of the prefix. *)
Definition ParseCIDR (s : bytes) : option (bytes * Z) :=
  match break_at Byte.x2f s with
  | (addr, Some mask) =>
      match ParseIP addr, parse_digits mask with
      | Some ip, Some n =>
          let ip := if has colon addr then ip else bdrop 12 ip in
          if n <=? 8 * blen ip then Some (ip, n) else None
      | _, _ => None
      end
  | _ => None
  end.

(** [net.IPNet.Contains]: the same prefix. *)
Definition block_Contains (block : bytes * Z) (ip : bytes) : bool :=
  let x := match To4 ip with Some x => x | None => ip end in
  (blen x =? blen (fst block)) &&
  (be_get x / 2 ^ (8 * blen x - snd block) =? be_get (fst block) / 2 ^ (8 * blen x - snd block)).

Definition privateRanges : list (bytes * Z) :=
  omap (fun s => ParseCIDR (str s))
    ["10.0.0.0/8"; "172.16.0.0/12"; "192.168.0.0/16"; "127.0.0.0/8"; "169.254.0.0/16"; "::1/128"; "fc00::/7"; "fe80::/10"]%string.

Definition isPrivateIP (ip : bytes) : bool := existsb (fun b => block_Contains b ip) privateRanges.

Definition extractIP (s : bytes) : bytes :=
  let s := TrimSpace s in
  match s with
  | [] => []
  | _ => match SplitHostPort s with Some (host, _) => host | None => s end
  end.

Definition validateIP (s : bytes) : bytes :=
  match extractIP s with
  | [] => []
  | raw => match ParseIP raw with Some ip => IP_String ip | None => [] end
  end.

(** [textproto.CanonicalMIMEHeaderKey] of letters and hyphens. *)
Definition to_upper (b : byte) : byte := if (97 <=? bval b) && (bval b <=? 122) then bof (bval b - 32) else b.
Definition to_lower (b : byte) : byte := if (65 <=? bval b) && (bval b <=? 90) then bof (bval b + 32) else b.
Fixpoint canonical (upper : bool) (s : bytes) : bytes :=
  match s with
  | [] => []
  | c :: r => (if upper then to_upper c else to_lower c) :: canonical (bool_decide (c = Byte.x2d)) r
  end.

(** A request: its headers under their canonical names, and [RemoteAddr]. *)
Record Request := mkRequest { r_Header : gmap bytes (list bytes); r_RemoteAddr : bytes }.
Definition Header_Get (r : Request) (name : bytes) : bytes :=
  default [] (head (default [] (r_Header r !! canonical true name))).

Definition singleHeader (r : Request) (name : string) : bytes := validateIP (Header_Get r (str name)).

Fixpoint forwarded_parts (firstValid : bytes) (parts : list bytes) : bytes :=
  match parts with
  | [] => firstValid
  | part :: parts =>
      match validateIP part with
      | [] => forwarded_parts firstValid parts
      | ip =>
          let firstValid := match firstValid with [] => ip | _ => firstValid end in
          match ParseIP ip with
          | Some parsed => if isPrivateIP parsed then forwarded_parts firstValid parts else ip
          | None => forwarded_parts firstValid parts
          end
      end
  end.

Definition ParseForwardedIP (header : bytes) : bytes :=
  match header with [] => [] | _ => forwarded_parts [] (Split Byte.x2c header) end.

Definition ip_headers : list string :=
  ["X-Real-Ip"; "True-Client-IP"; "CF-Connecting-IP"; "Fly-Client-IP"; "Fastly-Client-IP"]%string.

Definition clientIP (r : Request) : bytes :=
  match list_find (fun h => singleHeader r h <> []) ip_headers with
  | Some (_, h) => singleHeader r h
  | None =>
      match ParseForwardedIP (Header_Get r (str "X-Forwarded-For")) with
      | [] => match validateIP (r_RemoteAddr r) with [] => extractIP (r_RemoteAddr r) | ip => ip end
      | ip => ip
      end
  end.

Example clientIP_examples :
  let req hs := mkRequest (list_to_map (map (fun kv => (str (fst kv), [str (snd kv)])) hs)) (str "192.0.2.9:4000") in
  map clientIP [req []; req [("X-Real-Ip", "203.0.113.7")]; req [("X-Forwarded-For", "10.0.0.1, 2001:DB8::1 , 8.8.8.8")];
                req [("X-Forwarded-For", "10.0.0.1,fe80::1")]; req [("Cf-Connecting-Ip", "[::1]:80"); ("X-Real-Ip", "nonsense")]]%string
  = map str ["192.0.2.9"; "203.0.113.7"; "2001:db8::1"; "10.0.0.1"; "::1"]%string.
Proof. vm_compute. reflexivity. Qed.

(** ** tcp_handler.go, ws_handler.go: admission *)

Section admission.
Context {L : Type} `{LRU L} `{!LRUNew L}.

Definition set_limiter (rl : RateLimiter (L := L)) (h : Hub (L := L)) : Hub :=
  NewHub (h_sessions h) (h_password h) (h_maxMsgSize h) (Some rl) (h_handshakeTimeout h).

(** [rl := hub.RateLimiter(); rl != nil && !rl.Allow(key)] *)
Definition allow_conn (key : bytes) (now : Z) (h : Hub (L := L)) : bool * Hub (L := L) :=
  match h_rateLimiter h with
  | None => (true, h)
  | Some rl => let '(ok, rl') := Allow key now rl in (ok, set_limiter rl' h)
  end.

(** A connection: refused, or served with this deadline. *)
Inductive admission := Refused | Served (deadline : option Z).

Definition served_until (h : Hub (L := L)) (now : Z) : admission :=
  Served (if 0 <? h_handshakeTimeout h then Some (now + h_handshakeTimeout h) else None).

(** What [Accept] returns, in order. *)
Inductive accept_event := AcceptFailed (closed : bool) | Accepted (remoteAddr : bytes) (now : Z).

(** The connections, what became of them, and whether the loop has ended. *)
Fixpoint acceptLoop (es : list accept_event) (h : Hub (L := L)) : list (bytes * Z * admission) * Hub (L := L) * bool :=
  match es with
  | [] => ([], h, false)
  | AcceptFailed true :: _ => ([], h, true)
  | AcceptFailed false :: es => acceptLoop es h
  | Accepted addr now :: es =>
      let '(ok, h1) := allow_conn (extractIP addr) now h in
      let '(l, h2, ended) := acceptLoop es h1 in
      ((addr, now, if ok : bool then served_until h1 now else Refused) :: l, h2, ended)
  end.

(** [ServeTCP] and [ServeTLS]. *)
Definition ServeTCP (listened : result unit) (es : list accept_event) (h : Hub (L := L))
  : list (bytes * Z * admission) * Hub (L := L) * option (option error) :=
  match listened with
  | Err e => ([], h, Some (Some e))
  | Ok _ => let '(l, h, ended) := acceptLoop es h in (l, h, if ended : bool then Some None else None)
  end.

(** [WebSocketHandler]: the outcome of the upgrade; the read limit, the address it
    reports and the time of the handshake timer if the connection is served. *)
Inductive upgrade := WSFailed | WSRefused | WSServed (limit : option Z) (remoteAddr : bytes) (timer : option Z).

Definition WebSocketHandler (accepted : result unit) (r : Request) (now : Z) (h : Hub (L := L)) : upgrade * Hub (L := L) :=
  match accepted with
  | Err _ => (WSFailed, h)
  | Ok _ =>
      let remoteAddr := clientIP r in
      let '(ok, h) := allow_conn remoteAddr now h in
      if ok : bool then
        (WSServed (if 0 <? h_maxMsgSize h then Some (h_maxMsgSize h) else None) remoteAddr
           (if 0 <? h_handshakeTimeout h then Some (now + h_handshakeTimeout h) else None), h)
      else (WSRefused, h)
  end.

Fixpoint upgrades (rs : list (Request * Z)) (h : Hub (L := L)) : list upgrade :=
  match rs with
  | [] => []
  | (r, now) :: rs => let '(u, h) := WebSocketHandler (Ok tt) r now h in u :: upgrades rs h
  end.

(** handlers.go: the answer of [HealthHandler], with [time.Time.String] as a
    function, and of [EchoIPHandler]. *)
Definition HealthHandler (time_String : Z -> bytes) (s : Service (L := L)) (sessionCount : Z) : list (string * bytes) :=
  [("status", str "ok"); ("uptime", time_String (sv_startedAt s)); ("sessionCount", Itoa sessionCount)]%string.

Definition EchoIPHandler (r : Request) : list (string * bytes) := [("ip"%string, clientIP r)].

(** ** Lemmas *)

(** The calls of the limiter that the loop makes. *)
Fixpoint accept_calls (es : list accept_event) : list (bytes * Z) :=
  match es with
  | [] | AcceptFailed true :: _ => []
  | AcceptFailed false :: es => accept_calls es
  | Accepted addr now :: es => (extractIP addr, now) :: accept_calls es
  end.

Definition served_calls (l : list (bytes * Z * admission)) : list (bytes * Z) :=
  omap (fun x => match snd x with Served _ => Some (extractIP (fst (fst x)), snd (fst x)) | Refused => None end) l.

Lemma acceptLoop_calls es h rl :
  h_rateLimiter h = Some rl -> served_calls (fst (fst (acceptLoop es h))) = fst (limit_run (accept_calls es) rl).
Proof.
  revert h rl. induction es as [|[[]|addr now] es IH]; intros h rl Hrl; cbn [acceptLoop accept_calls limit_run]; auto.
  unfold allow_conn. rewrite Hrl. destruct (Allow (extractIP addr) now rl) as [ok rl'].
  specialize (IH (set_limiter rl' h) rl' eq_refl). destruct (acceptLoop es (set_limiter rl' h)) as [[l h2] ended].
  destruct (limit_run (accept_calls es) rl') as [a rl2]. cbn [fst] in *. unfold served_calls in *. cbn [omap list_omap snd fst].
  destruct ok; cbn; by rewrite IH.
Qed.

End admission.

(** A TCP address: the host is the key. *)
Definition TCPAddr_String (ip : bytes) (port : Z) : bytes := JoinHostPort (IP_String ip) (Itoa port).

Lemma SplitHostPort_bracket host port :
  colon ∈ host -> Byte.x5b ∉ host -> Byte.x5d ∉ host -> colon ∉ port -> Byte.x5b ∉ port -> Byte.x5d ∉ port ->
  SplitHostPort (JoinHostPort host port) = Some (host, port).
Proof.
  intros Hc H1 H2 P1 P2 P3. unfold JoinHostPort, has at 1. rewrite bool_decide_eq_true_2 by done.
  set (s := [Byte.x5b] ++ host ++ [Byte.x5d; colon] ++ port).
  assert (Es : s = (Byte.x5b :: host) ++ Byte.x5d :: colon :: port) by done.
  assert (El : s = (Byte.x5b :: host ++ [Byte.x5d]) ++ colon :: port) by (unfold s; cbn; by rewrite <- app_assoc).
  assert (E1 : last_index colon s = Some (S (S (length host)))).
  { rewrite El, last_index_app by done. cbn [length]. rewrite length_app. cbn [length]. f_equal. lia. }
  assert (E2 : index Byte.x5d s = Some (S (length host))).
  { rewrite Es, index_app; [done|]. by apply not_elem_of_cons. }
  assert (E3 : drop (S (S (length host))) s = colon :: port).
  { rewrite El. change (S (S (length host))) with (S (1 + length host)). rewrite drop_app_length'; [done|].
    cbn [length]. rewrite length_app. cbn [length]. lia. }
  unfold SplitHostPort. rewrite E1. change (head s) with (Some Byte.x5b). rewrite bool_decide_eq_true_2, E2, Nat.eqb_refl by done.
  change (drop 1 s) with (host ++ Byte.x5d :: colon :: port).
  rewrite has_not by (apply not_elem_of_app; split; [done|]; by do 2 (apply not_elem_of_cons; split; [done|])).
  rewrite E3, has_not by (by apply not_elem_of_cons). cbn [orb]. rewrite Nat.sub_succ, Nat.sub_0_r, take_app_length.
  replace (drop (S (S (S (length host)))) s) with port; [done|].
  change (S (S (S (length host)))) with (1 + S (S (length host)))%nat. by rewrite Nat.add_comm, <- drop_drop, E3.
Qed.

Lemma visible_hex d : 0 <= d < 16 -> visible (hex_digit d) = true.
Proof.
  intros Hd. assert (Hall : forallb (fun n => visible (hex_digit (Z.of_nat n))) (seq 0 16) = true) by by vm_compute.
  rewrite forallb_forall in Hall. rewrite <- (Z2Nat.id d) by lia. apply Hall, in_seq. lia.
Qed.

(** The bytes of a printed address. *)
Lemma IP_String_bytes ip x :
  length ip = 16%nat -> x ∈ IP_String ip -> is_digit x = true \/ x = dot \/ x = colon \/ unhex_digit x <> None.
Proof.
  intros Hl Hx. unfold IP_String in Hx. destruct (To4 ip) as [ip4|].
  - destruct (is_digit x) eqn:Ed; [auto|]. destruct (decide (x = dot)); [auto|]. exfalso. by apply (dotted_no x ip4).
  - destruct (ip6_String_bytes ip Hl) as [_ Hno]. destruct (unhex_digit x) eqn:Eh; [auto|].
    destruct (decide (x = colon)); [auto|]. exfalso. by apply (Hno x).
Qed.

Lemma ip_byte_visible x : is_digit x = true \/ x = dot \/ x = colon \/ unhex_digit x <> None -> visible x = true.
Proof. by destruct x; vm_compute; intros [?|[?|[?|?]]]. Qed.

Lemma IP_String_plain ip : length ip = 16%nat -> IP_String ip <> [] /\ TrimSpace (IP_String ip) = IP_String ip.
Proof.
  intros Hl. split.
  - intros E. pose proof (ParseIP_String ip Hl) as Hp. by rewrite E in Hp.
  - apply TrimSpace_all_visible, Forall_forall. intros x Hx. by apply ip_byte_visible, (IP_String_bytes ip).
Qed.

Lemma extractIP_TCPAddr ip port :
  length ip = 16%nat -> 0 <= port -> extractIP (TCPAddr_String ip port) = IP_String ip.
Proof.
  intros Hl Hp. unfold TCPAddr_String, extractIP.
  assert (Hno : forall x, is_digit x = false -> x ∉ Itoa port) by (intros; by apply Itoa_no).
  assert (Hb : forall x, x ∈ [Byte.x5b; Byte.x5d] -> x ∉ IP_String ip).
  { intros x Hx Hin. apply IP_String_bytes in Hin; [|done]. revert Hin.
    do 2 (apply elem_of_cons in Hx as [->|Hx]; [by vm_compute; intros [?|[?|[?|?]]]|]). by apply elem_of_nil in Hx. }
  assert (Es : SplitHostPort (JoinHostPort (IP_String ip) (Itoa port)) = Some (IP_String ip, Itoa port)).
  { destruct (decide (colon ∈ IP_String ip)); [apply SplitHostPort_bracket|apply SplitHostPort_Join]; try done;
      try (by apply Hno); apply Hb; set_solver. }
  rewrite TrimSpace_all_visible; cycle 1.
  { apply Forall_forall. intros x Hx.
    assert (Hcases : x ∈ IP_String ip \/ x ∈ Itoa port \/ x ∈ [Byte.x5b; Byte.x5d; colon])
      by (revert Hx; unfold JoinHostPort; destruct (has colon (IP_String ip)); set_solver).
    destruct Hcases as [Hx'|[Hx'|Hx']].
    - by apply ip_byte_visible, (IP_String_bytes ip).
    - apply ip_byte_visible. destruct (is_digit x) eqn:Ed; [auto|]. exfalso. by apply (Hno x).
    - do 3 (apply elem_of_cons in Hx' as [->|Hx']; [done|]). by apply elem_of_nil in Hx'. }
  rewrite Es. destruct (JoinHostPort (IP_String ip) (Itoa port)) eqn:E; [discriminate Es|done].
Qed.

Lemma two_colons ip : length ip = 16%nat -> exists a r, ip6_String ip = a ++ colon :: r /\ colon ∈ a.
Proof.
  intros Hl. destruct (ip6_String_shape ip Hl) as (a & n & b & _ & _ & Hlen & [(-> & -> & ->)|(_ & ->)]); cbn [length] in Hlen.
  - destruct a as [|f [|g [|h fs]]]; cbn [length] in Hlen; try lia.
    exists (hex16 f ++ colon :: hex16 g), (join_groups (h :: fs)). split; [|apply elem_of_app; right; left].
    cbn [join_groups]. by rewrite <- app_assoc.
  - exists (join_groups a ++ [colon]), (join_groups b). split; [by rewrite <- app_assoc|]. apply elem_of_app. right. left.
Qed.

Lemma last_index_ge x a r i : last_index x (a ++ x :: r) = Some i -> (length a <= i)%nat.
Proof.
  revert i. induction a as [|y a IH]; intros i; cbn [app last_index length]; [lia|].
  destruct (last_index x (a ++ x :: r)) as [j|] eqn:E; [|case_bool_decide; [|done]].
  - intros [= <-]. specialize (IH j eq_refl). lia.
  - exfalso. clear -E. induction a as [|z a IH]; cbn [app last_index] in E.
    + destruct (last_index x r); [done|]. by rewrite bool_decide_eq_true_2 in E.
    + destruct (last_index x (a ++ x :: r)); [done|]. by apply IH.
Qed.

(** A printed address is its own host, and its own canonical form. *)
Lemma extractIP_String ip : length ip = 16%nat -> extractIP (IP_String ip) = IP_String ip.
Proof.
  intros Hl. destruct (IP_String_plain ip Hl) as [Hne Ht]. unfold extractIP. rewrite Ht.
  assert (Es : SplitHostPort (IP_String ip) = None).
  { unfold IP_String in *. destruct (To4 ip) as [ip4|].
    - unfold SplitHostPort. by rewrite last_index_none by (by apply dotted_no).
    - destruct (two_colons ip Hl) as (a & r & E & Ha). destruct (ip6_String_bytes ip Hl) as [_ Hno]. unfold SplitHostPort.
      destruct (last_index colon (ip6_String ip)) as [i|] eqn:Ei; [|done].
      rewrite bool_decide_eq_false_2 by (intros Hh%head_Some_elem_of; by apply (Hno Byte.x5b)).
      rewrite E in Ei |- *. apply last_index_ge in Ei. unfold has at 1. rewrite bool_decide_eq_true_2; [done|].
      rewrite take_app_ge by done. apply elem_of_app. by left. }
  rewrite Es. by destruct (IP_String ip).
Qed.

Lemma validateIP_String ip : length ip = 16%nat -> validateIP (IP_String ip) = IP_String ip.
Proof.
  intros Hl. unfold validateIP. rewrite extractIP_String by done. destruct (IP_String_plain ip Hl) as [Hne _].
  destruct (IP_String ip) eqn:E; [done|]. by rewrite <- E, ParseIP_String.
Qed.

(** Parsed addresses have 16 bytes. *)
Lemma mapM_length {A B} (f : A -> option B) l k : mapM f l = Some k -> length k = length l.
Proof. intros E. apply mapM_Some_1 in E. by apply Forall2_length in E. Qed.

Lemma parseIPv4_length s ip : parseIPv4 s = Some ip -> length ip = 4%nat.
Proof.
  unfold parseIPv4. destruct (Nat.eqb_spec (length (Split dot s)) 4) as [E|]; [|done]. intros Em.
  apply mapM_length in Em. lia.
Qed.

Lemma groups_length n ip ell s ip' ell' s' :
  (length ip + 2 * n = 16)%nat -> match ell with Some e => (e <= length ip)%nat | None => True end ->
  groups n ip ell s = Some (ip', ell', s') ->
  (length ip' <= 16)%nat /\ match ell' with Some e => (e <= length ip')%nat | None => True end.
Proof.
  revert ip ell s. induction n as [|n IH]; intros ip ell s Hl He; cbn [groups]; [intros [= <- <- <-]; split; [lia|done]|].
  assert (Hput : forall z, length (ip ++ be_put 2 z) = (length ip + 2)%nat) by (intros; by rewrite length_app, length_be_put).
  assert (He' : forall z, match ell with Some e => (e <= length (ip ++ be_put 2 z))%nat | None => True end)
    by (intros; rewrite Hput; destruct ell; [lia|done]).
  destruct (read_group 0 0 s) as [[[[|off] acc] [|c r]]|]; try done.
  - intros [= <- <- <-]. rewrite length_app. cbn [length]. split; [lia|]. destruct ell; [lia|done].
  - case_bool_decide.
    + destruct (_ || _) eqn:Eb; [done|]. destruct (parseIPv4 s) as [ip4|] eqn:E4; [|done]. intros [= <- <- <-].
      apply parseIPv4_length in E4. apply orb_false_iff in Eb as [_ Eb%Z.ltb_ge]. unfold blen in Eb. rewrite length_app, E4.
      split; [lia|]. destruct ell; [lia|done].
    + case_bool_decide; [|done]. destruct r as [|c2 r2]; [done|]. case_bool_decide.
      * destruct ell; [done|]. destruct r2; [intros [= <- <- <-]; rewrite length_app; cbn [length]; split; lia|].
        apply IH; [rewrite Hput; lia|done].
      * apply IH; [rewrite Hput; lia|apply He'].
Qed.

Lemma ParseIP_length s ip : ParseIP s = Some ip -> length ip = 16%nat.
Proof.
  assert (H4 : forall x, app v4prefix <$> parseIPv4 s = Some x -> length x = 16%nat).
  { intros x. destruct (parseIPv4 s) as [ip4|] eqn:E; [|done]. intros [= <-]. apply parseIPv4_length in E. cbn. lia. }
  assert (H6 : forall x, parse_ip6 s = Some x -> length x = 16%nat).
  { intros x. unfold parse_ip6. destruct (has _ s); [done|].
    assert (Hx : forall ell t, match ell with Some e => (e <= 0)%nat | None => True end ->
      match groups 8 [] ell t with Some y => expand y | None => None end = Some x -> length x = 16%nat).
    { intros ell t He. destruct (groups 8 [] ell t) as [[[i e] r]|] eqn:Eg; [|done].
      apply groups_length in Eg as [Hi Hle]; [|done|done]. unfold expand. destruct r; [|done]. unfold blen.
      destruct (Z.ltb_spec (Z.of_nat (length i)) 16); destruct e; try done; intros [= <-]; [|lia].
      rewrite !length_app, length_replicate, length_take, length_drop. lia. }
    destruct s as [|c1 [|c2 r]]; [by apply Hx..|]. destruct (_ && _); [|by apply Hx].
    destruct r; [intros [= <-]; done|]. by apply Hx. }
  unfold ParseIP. destruct (index dot s), (index colon s); auto; [|done]. destruct (_ <? _)%nat; auto.
Qed.

(** [validateIP] gives nothing or the text of an address. *)
Lemma validateIP_cases s : validateIP s = [] \/ exists ip, length ip = 16%nat /\ validateIP s = IP_String ip.
Proof.
  unfold validateIP. destruct (extractIP s); [by left|]. destruct (ParseIP _) as [ip|] eqn:E; [|by left].
  right. exists ip. split; [by eapply ParseIP_length|done].
Qed.

(** ** Properties of the admission *)

Definition public (ip : bytes) : bool := match ParseIP ip with Some p => negb (isPrivateIP p) | None => false end.

Lemma forwarded_parts_spec first parts :
  forwarded_parts first parts =
  let ips := filter (.≠ []) (map validateIP parts) in
  match list_find public ips with
  | Some (_, ip) => ip
  | None => match first with [] => default [] (head ips) | _ => first end
  end.
Proof.
  revert first. induction parts as [|p parts IH]; intros first; cbn [forwarded_parts map]; [by destruct first|].
  destruct (validateIP p) as [|c r] eqn:Ev; cbn zeta.
  - rewrite filter_cons_False by (intros Hn; by apply Hn). apply IH.
  - rewrite filter_cons_True by done. cbn [list_find head].
    assert (Ef : forwarded_parts match first with [] => c :: r | _ => first end parts =
      let ips := filter (.≠ []) (map validateIP parts) in
      match list_find public ips with
      | Some (_, ip) => ip
      | None => match first with [] => c :: r | _ => first end
      end) by (rewrite IH; by destruct first).
    destruct (public (c :: r)) eqn:Ep; unfold public in Ep; destruct (ParseIP (c :: r)) as [ip|]; try done.
    + rewrite decide_True by done. by destruct (isPrivateIP ip).
    + rewrite decide_False by (intros []). destruct (isPrivateIP ip); [|done]. rewrite Ef. cbn zeta.
      destruct (list_find public _) as [[i x]|]; cbn; by destruct first.
    + rewrite decide_False by (intros []). rewrite Ef. cbn zeta.
      destruct (list_find public _) as [[i x]|]; cbn; by destruct first.
Qed.

(** The address taken from X-Forwarded-For: the first public one, or else the first
    one; texts that are not addresses are skipped. *)
Lemma ParseForwardedIP_spec header :
  ParseForwardedIP header =
  let ips := filter (.≠ []) (map validateIP (Split Byte.x2c header)) in
  match list_find public ips with Some (_, ip) => ip | None => default [] (head ips) end.
Proof. unfold ParseForwardedIP. destruct header; [done|]. apply forwarded_parts_spec. Qed.

(** An address in X-Real-Ip is what the relay takes for the address of the client. *)
Lemma clientIP_header r ip :
  length ip = 16%nat -> r_Header r !! str "X-Real-Ip" = Some [IP_String ip] -> clientIP r = IP_String ip.
Proof.
  intros Hl Hh. unfold clientIP, ip_headers. cbn [list_find].
  assert (E : singleHeader r "X-Real-Ip" = IP_String ip).
  { unfold singleHeader, Header_Get. change (canonical true (str "X-Real-Ip")) with (str "X-Real-Ip"). rewrite Hh.
    cbn [default from_option head id]. by apply validateIP_String. }
  destruct (IP_String_plain ip Hl) as [Hne _]. rewrite decide_True by (by rewrite E). done.
Qed.

Section quota.
Context {L : Type} `{LRUOk L} `{!LRUNew L} `{!LRUNewOk L}.

(** C22: Through TCP and TLS no window holds more than [quota] connections of one
    address that were served, whatever port they come from and whatever other
    addresses connect, as long as the cache keeps what it was given. *)
Theorem tcp_quota_enforced cfg now0 s rl ip es t :
  services_New (L := L) cfg now0 = Ok s -> h_rateLimiter (sv_hub s) = Some rl -> length ip = 16%nat ->
  StronglySorted Z.le (now0 :: map snd (accept_calls es)) -> retains (IP_String ip) (accept_calls es) rl ->
  Z.of_nat (length (in_window (rc_TimeWindow (c_RateLimit cfg)) t
    (omap (fun x => match x with
                    | (addr, now, Served _) => if bool_decide (extractIP addr = IP_String ip) then Some now else None
                    | _ => None
                    end) (fst (fst (acceptLoop es (sv_hub s)))))))
  <= Z.max 0 (i64 (rc_Quota (c_RateLimit cfg))) /\
  forall port, 0 <= port -> extractIP (TCPAddr_String ip port) = IP_String ip.
Proof.
  intros Hs Hrl Hl Hsort Hret. split; [|intros; by apply extractIP_TCPAddr].
  assert (Hq : rl_quota rl = i64 (rc_Quota (c_RateLimit cfg)) /\ rl_window rl = rc_TimeWindow (c_RateLimit cfg) /\
               forall k, lru_last (rl_lru rl) k = None).
  { unfold services_New in Hs. destruct (Validate cfg); [done|]. injection Hs as <-. cbn in Hrl.
    destruct (IsEnabled _); [|done]. injection Hrl as <-. cbn. split_and!; [done|done|]. intros. apply new_empty. }
  destruct Hq as (<- & <- & Hnew).
  assert (E : forall l, omap (fun x => match x with
      | (addr, now, Served _) => if bool_decide (extractIP addr = IP_String ip) then Some now else None
      | _ => None end) l = times (IP_String ip) (served_calls l)).
  { unfold times, served_calls. induction l as [|[[addr now] [|d]] l IH]; [done|exact IH|]. cbn [omap list_omap snd fst].
    case_bool_decide as Eb.
    - rewrite filter_cons_True by done. cbn [map snd]. by rewrite <- IH.
    - rewrite filter_cons_False by done. exact IH. }
  rewrite E, (acceptLoop_calls es (sv_hub s) rl Hrl). by apply (quota_bound _ now0).
Qed.

(** Calls under keys that are new to the limiter are all allowed. *)
Lemma fresh_keys_allowed calls rl :
  1 <= rl_quota rl -> NoDup (map fst calls) -> Forall (fun k => lru_last (rl_lru rl) k = None) (map fst calls) ->
  fst (limit_run calls rl) = calls.
Proof.
  revert rl. induction calls as [|[k now] calls IH]; intros rl Hq Hnd Hf; [done|]. cbn [map fst limit_run] in *.
  apply NoDup_cons in Hnd as [Hk Hnd]. apply Forall_cons in Hf as [Hnone Hf]. unfold Allow.
  destruct (lru_Get k now (rl_lru rl)) as [got lru] eqn:Eg.
  assert (Hgot : got = None).
  { destruct got as [v|]; [|done]. pose proof (get_last k now (rl_lru rl) v) as Hg. rewrite Eg in Hg.
    specialize (Hg eq_refl). congruence. }
  subst got. cbn [default from_option prune length]. destruct (Z.leb_spec (rl_quota rl) (Z.of_nat 0)); [lia|].
  cbn iota beta. set (rl1 := mkLimiter _ _ _). specialize (IH rl1 Hq Hnd). destruct (limit_run calls rl1) as [a rl2]. cbn [fst] in *. rewrite IH; [done|].
  apply Forall_forall. intros k' Hk'. cbn. rewrite add_last, bool_decide_eq_false_2 by congruence.
  pose proof (get_keeps k now (rl_lru rl) k') as Hg. rewrite Eg in Hg. cbn in Hg. rewrite Hg.
  rewrite Forall_forall in Hf. by apply Hf.
Qed.

Lemma upgrades_calls rs h rl :
  h_rateLimiter h = Some rl ->
  fst (limit_run (map (fun x => (clientIP (fst x), snd x)) rs) rl) = map (fun x => (clientIP (fst x), snd x)) rs ->
  Forall (fun u => match u with WSServed _ _ _ => True | _ => False end) (upgrades rs h).
Proof.
  revert h rl. induction rs as [|[r now] rs IH]; intros h rl Hrl; cbn [map limit_run upgrades fst snd]; [constructor|].
  unfold WebSocketHandler, allow_conn. rewrite Hrl. destruct (Allow (clientIP r) now rl) as [ok rl'].
  specialize (IH (set_limiter rl' h) rl' eq_refl). destruct (limit_run _ rl') as [a rl2] eqn:El. cbn [fst].
  assert (Hlen : (length a <= length rs)%nat).
  { assert (Hg : forall cs r0, (length (fst (limit_run cs r0)) <= length cs)%nat).
    { clear. induction cs as [|[k n] cs IHc]; intros r0; cbn [limit_run]; [done|]. destruct (Allow k n r0) as [[] r1];
        specialize (IHc r1); destruct (limit_run cs r1); cbn in *; lia. }
    specialize (Hg (map (fun x => (clientIP (fst x), snd x)) rs) rl'). by rewrite El, length_map in Hg. }
  destruct ok; cbn [app].
  - intros [= E]. constructor; [done|]. by apply IH.
  - intros E. exfalso. rewrite E in Hlen. cbn in Hlen. rewrite length_map in Hlen. lia.
Qed.

(** Through WebSockets the quota binds nobody: a peer that names another address in
    X-Real-Ip in each request is served every time, however many requests it makes
    and whatever the window. *)
Theorem ws_quota_bypassed cfg now0 s peer (rs : list (bytes * Z)) :
  services_New (L := L) cfg now0 = Ok s -> 1 <= i64 (rc_Quota (c_RateLimit cfg)) ->
  NoDup (map fst rs) -> Forall (fun ip => length ip = 16%nat) (map fst rs) ->
  Forall (fun u => match u with WSServed _ _ _ => True | _ => False end)
    (upgrades (map (fun x => (mkRequest {[str "X-Real-Ip" := [IP_String (fst x)]]} peer, snd x)) rs) (sv_hub s)).
Proof.
  intros Hs Hq Hnd Hf. set (req := fun x : bytes * Z => _).
  destruct (h_rateLimiter (sv_hub s)) as [rl|] eqn:Erl; cycle 1.
  { generalize dependent (sv_hub s). clear. intros h Hn. induction rs as [|[ip now] rs IH]; [constructor|].
    cbn [map upgrades]. unfold req at 1, WebSocketHandler, allow_conn. cbn [fst snd]. rewrite Hn. constructor; [done|]. apply IH. }
  apply (upgrades_calls _ _ rl Erl).
  assert (Hnew : 1 <= rl_quota rl /\ forall k, lru_last (rl_lru rl) k = None).
  { unfold services_New in Hs. destruct (Validate cfg); [done|]. injection Hs as <-. cbn in Erl.
    destruct (IsEnabled _); [|done]. injection Erl as <-. cbn. split; [done|]. intros. apply new_empty. }
  destruct Hnew as [Hq1 Hnone]. apply fresh_keys_allowed; [done| |by apply Forall_forall].
  assert (Ek : map fst (map (fun x => (clientIP (fst x), snd x)) (map req rs)) = map IP_String (map fst rs)).
  { clear -Hf. induction rs as [|[ip now] rs IH]; [done|]. cbn [map fst snd] in *. apply Forall_cons in Hf as [Hl Hf].
    rewrite IH by done. f_equal. apply (clientIP_header _ ip Hl). unfold req. cbn [fst r_Header]. apply lookup_singleton_eq. }
  rewrite Ek. clear -Hf Hnd. induction (map fst rs) as [|ip ips IH]; cbn [map]; [constructor|].
  apply Forall_cons in Hf as [Hl Hf]. apply NoDup_cons in Hnd as [Hin Hnd]. constructor; [|auto].
  intros (ip' & E & Hin')%list_elem_of_fmap. rewrite Forall_forall in Hf.
  assert (ip = ip') as ->; [|done]. apply (f_equal ParseIP) in E. rewrite !ParseIP_String in E by auto. by injection E.
Qed.

End quota.

Section configured.
Context {L : Type} `{LRU L} `{!LRUNew L}.

Lemma Allow_zero key now (rl : RateLimiter (L := L)) :
  rl_quota rl <= 0 -> exists rl', Allow key now rl = (false, rl') /\ rl_quota rl' = rl_quota rl.
Proof.
  intros Hq. unfold Allow. destruct (lru_Get key now (rl_lru rl)) as [got lru].
  destruct (Z.leb_spec (rl_quota rl) (Z.of_nat (length (prune (now - rl_window rl) (default [] got))))); [|lia]. by eexists.
Qed.

(** A quota of zero, which is what a configuration without a quota has, is accepted
    by [Validate], and the relay then refuses every connection. *)
Theorem zero_quota_refuses_all cfg now0 s es rs :
  services_New (L := L) cfg now0 = Ok s -> rc_Disabled (c_RateLimit cfg) = false -> rc_Quota (c_RateLimit cfg) = 0 ->
  served_calls (fst (fst (acceptLoop es (sv_hub s)))) = [] /\ Forall (eq WSRefused) (upgrades rs (sv_hub s)).
Proof.
  intros Hs Hen Hq0.
  assert (Hh : exists rl, h_rateLimiter (sv_hub s) = Some rl /\ rl_quota rl <= 0).
  { unfold services_New, IsEnabled in Hs. destruct (Validate cfg); [done|]. injection Hs as <-. cbn. rewrite Hen, Hq0. cbn.
    by eexists. }
  destruct Hh as (rl & Hrl & Hq). generalize dependent (sv_hub s). intros h Hrl. split.
  - rewrite (acceptLoop_calls es h rl Hrl). clear Hrl h. revert rl Hq. induction (accept_calls es) as [|[k now] cs IH]; intros rl Hq; [done|].
    cbn [limit_run]. destruct (Allow_zero k now rl Hq) as (rl' & -> & Eq). specialize (IH rl'). rewrite Eq in IH. specialize (IH Hq).
    by destruct (limit_run cs rl').
  - clear es. revert h rl Hrl Hq. induction rs as [|[r now] rs IH]; intros h rl Hrl Hq; cbn [upgrades]; [constructor|].
    unfold WebSocketHandler, allow_conn. rewrite Hrl. destruct (Allow_zero (clientIP r) now rl Hq) as (rl' & -> & Eq).
    constructor; [done|]. apply (IH _ rl'); [done|lia].
Qed.

Context `{!ProtoRuntime}.

(** Both files or none, where the server is enabled. *)
Definition whole_pair (t : tls_listen) : Prop := tl_Enabled t = true -> (tl_CertFile t = [] <-> tl_KeyFile t = []).

Definition some_server (c : Config) : Prop :=
  l_Enabled (c_Diagnose c) = true \/ l_Enabled (c_WS c) = true \/ l_Enabled (c_TCP c) = true \/
  tl_Enabled (c_TLS c) = true \/ tl_Enabled (c_WSS c) = true \/ bc_Enabled (c_Broker c) = true.

(** What a configuration must have; the quota, the window and the size of the cache
    of the rate limiter and the addresses are not looked at. *)
Definition startable (c : Config) : Prop :=
  let s := c_Session c in
  0 < sc_MaxConcurrentSessions s /\ 0 < sc_TokenTTL s /\ 0 <= sc_SessionTTL s /\ 0 <= sc_MaxMessageSize s /\
  whole_pair (c_TLS c) /\ whole_pair (c_WSS c) /\ some_server c.

Lemma half_pair_whole t : half_pair t = false <-> whole_pair t.
Proof.
  unfold half_pair, whole_pair. destruct (tl_Enabled t); [|by split].
  destruct (bool_decide_reflect (tl_CertFile t = [])), (bool_decide_reflect (tl_KeyFile t = [])); cbn; naive_solver.
Qed.

Lemma nothing_enabled_some c : nothing_enabled c = false <-> some_server c.
Proof.
  unfold nothing_enabled, some_server.
  destruct (l_Enabled (c_Diagnose c)), (l_Enabled (c_WS c)), (l_Enabled (c_TCP c)), (tl_Enabled (c_TLS c)),
    (tl_Enabled (c_WSS c)), (bc_Enabled (c_Broker c)); cbn; intuition congruence.
Qed.

Lemma Validate_startable c : Validate c = None <-> startable c.
Proof.
  unfold Validate, startable. cbn zeta. rewrite <- !half_pair_whole, <- nothing_enabled_some.
  destruct (Z.leb_spec (sc_MaxConcurrentSessions (c_Session c)) 0); [split; [done|lia]|].
  destruct (Z.leb_spec (sc_TokenTTL (c_Session c)) 0); [split; [done|lia]|].
  destruct (Z.ltb_spec (sc_SessionTTL (c_Session c)) 0); [split; [done|lia]|].
  destruct (Z.ltb_spec (sc_MaxMessageSize (c_Session c)) 0); [split; [done|lia]|].
  destruct (half_pair (c_TLS c)), (half_pair (c_WSS c)), (nothing_enabled c); naive_solver.
Qed.


End configured.

(** ** run.go *)

(** The servers, in the order of their start. *)
Inductive srv := SDiagnose | SWS | STCP | STLS | SWSS | SBroker.
#[global] Instance srv_eq_decision : EqDecision srv.
Proof. solve_decision. Defined.

Definition loadTLSConfig (certFile keyFile : bytes) (selfSigned loaded : result unit) : result unit :=
  if bool_decide (certFile = []) && bool_decide (keyFile = []) then selfSigned else map_err (wrapf "load tls cert") loaded.

(** [generateSelfSignedCertInMemory] and [createSelfSignedCert]. *)
Definition createSelfSignedCert (key serial cert : result unit) : result unit :=
  match key with
  | Err e => Err (wrapf "generate key" e)
  | Ok _ => match serial with
            | Err e => Err (wrapf "generate serial" e)
            | Ok _ => map_err (wrapf "create cert") cert
            end
  end.
Definition generateSelfSignedCertInMemory (created parsed : result unit) : result unit :=
  match created with
  | Err e => Err (wrapf "generate self-signed cert" e)
  | Ok _ => map_err (wrapf "parse self-signed cert") parsed
  end.

Definition when (b : bool) (s : srv) : list srv := if b then [s] else [].

(** The start: the servers whose goroutines run, and the error with which [Run]
    returns at once. *)
Definition Run_start (cfg : Config) (tls wss broker : result unit) : list srv * option error :=
  let s1 := when (l_Enabled (c_Diagnose cfg)) SDiagnose ++ when (l_Enabled (c_WS cfg)) SWS ++ when (l_Enabled (c_TCP cfg)) STCP in
  let step (en : bool) (r : result unit) (what : string) (s : srv) (k : list srv -> list srv * option error) (started : list srv) :=
    if en then match r with Err e => (started, Some (wrapf what e)) | Ok _ => k (started ++ [s]) end else k started in
  step (tl_Enabled (c_TLS cfg)) tls "load tls config" STLS
    (step (tl_Enabled (c_WSS cfg)) wss "load wss config" SWSS
      (step (bc_Enabled (c_Broker cfg)) broker "new broker" SBroker (fun l => (l, None)))) s1.

Inductive control := Selecting | Stopping (startup : option error) | Exited (r : option error).

(** [errCh] with its capacity, and the goroutines that wait to send. *)
Record process := mkProcess { p_running : list srv; p_errs : list error; p_blocked : list error; p_control : control }.
Definition errCh_cap : nat := 5.

Inductive process_event :=
  | SrvReturns (s : srv) (r : option error)     (* [None]: closed *)
  | TakeError | Signal
  | Waited (shutdown : list error).             (* the errors of [srv.Shutdown] *)

(** What a goroutine sends; [broker.Run] returns no error. *)
Definition sent_error (s : srv) (r : option error) : option error :=
  match s, r with
  | SBroker, _ | _, None => None
  | SDiagnose, Some e => Some (wrapf "diagnose" e)
  | SWS, Some e => Some (wrapf "ws" e)
  | STCP, Some e => Some (wrapf "tcp" e)
  | STLS, Some e => Some (wrapf "tls" e)
  | SWSS, Some e => Some (wrapf "wss" e)
  end.

Definition errors_Join (es : list error) : option error := match es with [] => None | _ => Some (Errorf "" es) end.

Definition process_step (p : process) (e : process_event) : option process :=
  match e with
  | SrvReturns s r =>
      if bool_decide (s ∈ p_running p) then
        let running := filter (.≠ s) (p_running p) in
        Some match sent_error s r with
             | None => mkProcess running (p_errs p) (p_blocked p) (p_control p)
             | Some e => if (length (p_errs p) <? errCh_cap)%nat
                         then mkProcess running (p_errs p ++ [e]) (p_blocked p) (p_control p)
                         else mkProcess running (p_errs p) (p_blocked p ++ [e]) (p_control p)
             end
      else None
  | TakeError =>
      match p_control p, p_errs p with
      | Selecting, e :: es =>
          Some (mkProcess (p_running p) (es ++ take 1 (p_blocked p)) (drop 1 (p_blocked p))
                  (Stopping (Some (wrapf "starting server" e))))
      | _, _ => None
      end
  | Signal =>
      match p_control p with
      | Selecting => Some (mkProcess (p_running p) (p_errs p) (p_blocked p) (Stopping None))
      | _ => None
      end
  | Waited errs =>
      match p_control p, p_running p, p_blocked p with
      | Stopping startup, [], [] =>
          Some (mkProcess [] (p_errs p) []
                  (Exited (match startup with Some e => Some e | None => errors_Join errs end)))
      | _, _, _ => None
      end
  end.

Fixpoint process_run (p : process) (es : list process_event) : option process :=
  match es with [] => Some p | e :: es => match process_step p e with Some p => process_run p es | None => None end end.

Definition Run_process (servers : list srv) : process := mkProcess servers [] [] Selecting.

(** ** The process ends *)

Definition senders (l : list srv) : nat := length (filter (.≠ SBroker) l).

Definition errors_fit (p : process) : Prop :=
  NoDup (p_running p) /\ p_blocked p = [] /\ (senders (p_running p) + length (p_errs p) <= errCh_cap)%nat.

Lemma filter_without (s : srv) (l : list srv) : s ∉ l -> filter (.≠ s) l = l.
Proof.
  induction l as [|y l IH]; intros Hn; [done|]. apply not_elem_of_cons in Hn as [Hy Hn].
  rewrite filter_cons_True by congruence. by rewrite IH.
Qed.

Lemma senders_remove s l : NoDup l -> s ∈ l -> s <> SBroker -> S (senders (filter (.≠ s) l)) = senders l.
Proof.
  unfold senders. induction l as [|x l IH]; intros Hnd Hin Hs; [by apply elem_of_nil in Hin|]. apply NoDup_cons in Hnd as [Hx Hnd].
  destruct (decide (x = s)) as [->|Hne].
  - rewrite (filter_cons_False (.≠ s)) by (intros Hn; by apply Hn). rewrite (filter_cons_True (.≠ SBroker) s) by done. cbn [length].
    by rewrite (filter_without s l).
  - rewrite (filter_cons_True (.≠ s)) by done. apply elem_of_cons in Hin as [->|Hin]; [done|].
    destruct (decide (x = SBroker)) as [->|Hb].
    + rewrite !(filter_cons_False (.≠ SBroker)) by (intros Hn; by apply Hn). by apply IH.
    + rewrite !(filter_cons_True (.≠ SBroker)) by done. cbn [length]. by rewrite IH.
Qed.

Lemma senders_filter s l : (senders (filter (.≠ s) l) <= senders l)%nat.
Proof.
  unfold senders. induction l as [|x l IH]; [done|]. destruct (decide (x = s)) as [->|].
  - rewrite (filter_cons_False (.≠ s)) by (intros Hn; by apply Hn). rewrite IH. rewrite filter_cons. case_match; cbn; lia.
  - rewrite (filter_cons_True (.≠ s)) by done. rewrite !(filter_cons (.≠ SBroker)). case_match; cbn; lia.
Qed.

Lemma errors_fit_step p e p' : errors_fit p -> process_step p e = Some p' -> errors_fit p'.
Proof.
  intros (Hnd & Hb & Hc). destruct e as [s r| | |errs]; cbn [process_step].
  - case_bool_decide as Hin; [|done]. intros [= <-]. pose proof (senders_filter s (p_running p)).
    assert (Hnd' : NoDup (filter (.≠ s) (p_running p))) by (by apply NoDup_filter).
    destruct (sent_error s r) as [e|] eqn:Es; [|split_and!; cbn [p_running p_blocked p_errs]; [done|done|lia]].
    assert (Hs : s <> SBroker) by (by intros ->). pose proof (senders_remove s (p_running p) Hnd Hin Hs).
    destruct (Nat.ltb_spec (length (p_errs p)) errCh_cap); [|lia]. split_and!; cbn [p_running p_blocked p_errs]; [done|done|].
    rewrite length_app. cbn [length]. lia.
  - destruct (p_control p); try done. destruct (p_errs p) as [|e es] eqn:Ee; [done|]. intros [= <-]. rewrite Hb. cbn [length] in Hc.
    split_and!; cbn [p_running p_blocked p_errs]; [done|done|]. rewrite app_nil_r. lia.
  - destruct (p_control p); try done. intros [= <-]. by split_and!.
  - destruct (p_control p); try done. destruct (p_running p); [|done]. destruct (p_blocked p); [|done]. intros [= <-].
    split_and!; cbn [p_running p_blocked p_errs]; [constructor|done|exact Hc].
Qed.

Lemma errors_fit_run p es p' : errors_fit p -> process_run p es = Some p' -> errors_fit p'.
Proof.
  revert p. induction es as [|e es IH]; intros p Hp; cbn [process_run]; [by intros [= <-]|].
  destruct (process_step p e) as [p1|] eqn:E; [|done]. apply IH. by eapply errors_fit_step.
Qed.

Lemma Run_start_servers cfg tls wss broker : NoDup (fst (Run_start cfg tls wss broker)).
Proof.
  unfold Run_start, when.
  destruct (l_Enabled (c_Diagnose cfg)), (l_Enabled (c_WS cfg)), (l_Enabled (c_TCP cfg)), (tl_Enabled (c_TLS cfg)), tls,
    (tl_Enabled (c_WSS cfg)), wss, (bc_Enabled (c_Broker cfg)), broker; apply (bool_decide_unpack _); vm_compute; exact I.
Qed.

(** Once every goroutine has returned, so does [Run]. *)
Lemma stopping_ends rs p startup errs :
  errors_fit p -> p_control p = Stopping startup ->
  exists p', process_run p (map (fun s => SrvReturns s (rs s)) (p_running p) ++ [Waited errs]) = Some p' /\
    p_control p' = Exited (match startup with Some e => Some e | None => errors_Join errs end).
Proof.
  remember (length (p_running p)) as n eqn:En. revert p En. induction n as [|n IH]; intros p En Hp Hc.
  - destruct (p_running p) as [|s l] eqn:Er; [|done]. cbn. destruct Hp as (_ & Hb & _). rewrite Hc, Er, Hb. by eexists.
  - destruct (p_running p) as [|s l] eqn:Er; [done|]. cbn [map app process_run].
    destruct (process_step p (SrvReturns s (rs s))) as [p1|] eqn:E1; cycle 1.
    { exfalso. revert E1. cbn [process_step]. rewrite Er. by rewrite bool_decide_eq_true_2 by left. }
    assert (Hp1 : errors_fit p1) by (by eapply errors_fit_step).
    assert (p_running p1 = l /\ p_control p1 = Stopping startup) as [Hl Hc1].
    { destruct Hp as (Hnd & _). rewrite Er in Hnd. apply NoDup_cons in Hnd as [Hs _].
      revert E1. cbn [process_step]. rewrite Er. rewrite bool_decide_eq_true_2 by left.
      rewrite filter_cons_False by (intros Hn; by apply Hn). rewrite filter_without by done. intros [= <-].
      destruct (sent_error s (rs s)); [|done]. by destruct (_ <? _)%nat. }
    rewrite <- Hl. apply IH; [by rewrite Hl; cbn in En; lia|done|done].
Qed.

(** C23: The relay process ends in order: whatever servers are enabled and however they
    fail, none of their goroutines ever waits to report its error, and once [Run] has
    seen an error or a signal it returns as soon as the remaining servers have
    returned, with the error of the start or with those of the shutdown. *)
Theorem relay_process_ends cfg tls wss broker es p :
  snd (Run_start cfg tls wss broker) = None ->
  process_run (Run_process (fst (Run_start cfg tls wss broker))) es = Some p ->
  p_blocked p = [] /\
  forall startup rs errs, p_control p = Stopping startup ->
    exists p', process_run p (map (fun s => SrvReturns s (rs s)) (p_running p) ++ [Waited errs]) = Some p' /\
      p_control p' = Exited (match startup with Some e => Some e | None => errors_Join errs end).
Proof.
  intros _ Hr.
  assert (Hp : errors_fit p).
  { eapply errors_fit_run; [|exact Hr]. split_and!; [apply Run_start_servers|done|]. unfold Run_process, Run_start, when. cbn [p_running p_errs].
    destruct (l_Enabled (c_Diagnose cfg)), (l_Enabled (c_WS cfg)), (l_Enabled (c_TCP cfg)), (tl_Enabled (c_TLS cfg)), tls,
      (tl_Enabled (c_WSS cfg)), wss, (bc_Enabled (c_Broker cfg)), broker; vm_compute; lia. }
  split; [apply Hp|]. intros startup rs errs Hc. by apply stopping_ends.
Qed.

(** A certificate that cannot be loaded: [Run] returns, and servers that were started
    before are still running. *)
Lemma tls_failure_leaves_servers cfg e wss broker :
  tl_Enabled (c_TLS cfg) = true -> l_Enabled (c_WS cfg) = true ->
  snd (Run_start cfg (Err e) wss broker) = Some (wrapf "load tls config" e) /\ SWS ∈ fst (Run_start cfg (Err e) wss broker).
Proof. intros Ht Hw. unfold Run_start, when. rewrite Ht, Hw. split; [done|]. cbn. set_solver. Qed.

(** ** Witnesses *)

Section sample.
Existing Instances map_lru_ops map_lru_ok.

#[local] Instance map_lru_new : LRUNew map_lru := { lru_New size ttl := mkLRU ∅ ttl }.
#[local] Instance map_lru_new_ok : LRUNewOk map_lru.
Proof. split. intros. cbn. by rewrite lookup_empty. Qed.

(** TCP and WebSockets, [quota] connections in a minute. *)
Definition sample_config (quota : Z) : Config :=
  mkConfig [] (mkListen false []) (mkSessionConfig (600 * Second) 0 0 10 65536)
    (mkLimitConfig false (60 * Second) quota 0) (mkListen true (str ":8888")) (mkListen true (str ":8889"))
    (mkTLS false [] [] []) (mkTLS false [] [] []) (mkBrokerConfig false [] 0).

Definition sample_service (quota : Z) : Service (L := map_lru) :=
  match services_New (sample_config quota) 0 with Ok s => s | Err _ => mkService (NewHub (NewSessionManager 0 0 0) [] 0 None 0) (NewSessionManager 0 0 0) (sample_config 0) 0 end.

Definition sample_ip : bytes := v4prefix ++ be_put 4 3221225985.   (* 192.0.2.1 *)

Definition sample_accepts : list accept_event :=
  [Accepted (TCPAddr_String sample_ip 5000) 1; Accepted (TCPAddr_String sample_ip 5001) 2; AcceptFailed false;
   Accepted (TCPAddr_String sample_ip 5002) 3].

Lemma tcp_quota_enforced_witness :
  map snd (fst (fst (acceptLoop sample_accepts (sv_hub (sample_service 2))))) =
    [Served (Some (1 + 30 * Second)); Served (Some (2 + 30 * Second)); Refused] /\
  extractIP (TCPAddr_String sample_ip 5000) = IP_String sample_ip.
Proof.
  split; [vm_compute; reflexivity|].
  destruct (tcp_quota_enforced (sample_config 2) 0 (sample_service 2) (limiter_New 2 (60 * Second) 0) sample_ip sample_accepts 3)
    as [_ Hkey]; [reflexivity|reflexivity|reflexivity| | |].
  - vm_compute. repeat constructor; discriminate.
  - cbn [sample_accepts accept_calls retains]. split_and!; [intros _ E v Ev..|exact I].
    all: first [vm_compute in Ev; discriminate Ev|vm_compute in E; discriminate E].
  - apply Hkey. discriminate.
Defined.

(** Three requests from one address within a minute, with a quota of one. *)
Lemma ws_quota_bypassed_witness :
  Forall (fun u => match u with WSServed _ _ _ => True | _ => False end)
    (upgrades (map (fun x => (mkRequest {[str "X-Real-Ip" := [IP_String (fst x)]]} (str "192.0.2.1:5000"), snd x))
       [(be_put 16 1, 1); (be_put 16 2, 2); (v4prefix ++ be_put 4 134744072, 3)]) (sv_hub (sample_service 1))).
Proof.
  apply (ws_quota_bypassed (sample_config 1) 0 (sample_service 1)); [reflexivity|vm_compute; discriminate| |].
  - apply (bool_decide_unpack _). vm_compute. exact I.
  - repeat constructor.
Defined.

Lemma zero_quota_refuses_all_witness :
  Validate (sample_config 0) = None /\ served_calls (fst (fst (acceptLoop sample_accepts (sv_hub (sample_service 0))))) = [].
Proof.
  split; [reflexivity|].
  apply (zero_quota_refuses_all (sample_config 0) 0 (sample_service 0) sample_accepts []); reflexivity.
Defined.

(** The TCP server cannot listen; the WebSocket server is told to stop. *)
Lemma relay_process_ends_witness :
  let e := errorf "address already in use" in
  exists p p', process_run (Run_process (fst (Run_start (sample_config 1) (Ok tt) (Ok tt) (Ok tt)))) [SrvReturns STCP (Some e); TakeError] = Some p /\
    p_running p = [SWS] /\ process_run p [SrvReturns SWS None; Waited []] = Some p' /\
    p_control p' = Exited (Some (wrapf "starting server" (wrapf "tcp" e))).
Proof.
  intros e. destruct (relay_process_ends (sample_config 1) (Ok tt) (Ok tt) (Ok tt) [SrvReturns STCP (Some e); TakeError]
    (mkProcess [SWS] [] [] (Stopping (Some (wrapf "starting server" (wrapf "tcp" e)))))) as [_ Hend]; [reflexivity|reflexivity|].
  destruct (Hend _ (fun _ => None) [] eq_refl) as (p' & E & Hc). eexists _, p'. split_and!; [reflexivity|reflexivity|exact E|exact Hc].
Defined.

End sample.
