(* ===== verification/Tui.v ===== *)
(** * The terminal application (cmd/tui)

    A Bubble Tea program: [Update] handles one message after the other and returns
    a command, [View] draws the model, and goroutines (dials, servers, verifiers,
    the receive loop, the keep-alive loop) send messages and share the model.

    A handler is a function of type [tm A] on the [world]: the model, the storage,
    the clock, and what has happened to channels, contexts, servers and transports.
    [None] is a run-time panic or a call of the storage that blocks for ever.  The
    one place where [Update] itself waits is [cleanup], for the keep-alive loop:
    there it returns [Waiting], and [resume] is the rest.

    The widgets (bubbles) are the class [Bubbles].  Styling (lipgloss) is kept as a
    constructor: a line on the screen is a list of styled texts. *)

From S2P Require Import Prelude GoErr Strconv TimeFormat Encoding Process Wire Pb Route Version Crypto Fingerprint Enigma Serde Transport Bolt Engine Storage DaemonNet NetIP BrokerCodec Daemon DaemonP2P.

(** ** Messages and styles (tea.go) *)

Inductive appState := stateWelcome | stateInput | stateConnecting | stateVerify | stateChat | stateHistory.
Inductive inputMode := modeDirectDial | modeDirectServe | modeRelayDial | modeRelayServe.

#[global] Instance appState_eq_decision : EqDecision appState.
Proof. solve_decision. Defined.
#[global] Instance inputMode_eq_decision : EqDecision inputMode.
Proof. solve_decision. Defined.

Inductive style :=
  | title | bold | muted | err_ | highlight | good | userPrefix | userText | peerPrefix | peerText.

(** A line: texts in a style, or plain. *)
Inductive span := Plain (t : text) | Styled (s : style) (t : text).
Definition line := list span.

(** A [*kamune.Transport]: its identity, [SessionID()] and [RemotePeer()]. *)
Record transport := mkT { t_id : nat; t_SessionID : bytes; t_RemotePeer : option Peer }.

Record verifyRequest := mkVerifyReq {
  vr_peer : Peer; vr_isNew : bool; vr_emojiFP : bytes; vr_hexFP : bytes; vr_responseCh : nat
}.

Inductive keyType := KeyUp | KeyDown | KeyEnter | KeyRunes | KeyTab | KeyShiftTab | KeyEsc | KeyCtrlC | KeyOther.
#[global] Instance keyType_eq_decision : EqDecision keyType.
Proof. solve_decision. Defined.

(** A [tea.KeyMsg]: its type and [String()]. *)
Record key := mkKey { k_Type : keyType; k_String : bytes }.

Inductive Msg :=
  | connectedMsg (t : transport) (isServer : bool) (sessionTTL : Z)
  | connectFailedMsg (e : error)
  | verifyMsg (r : verifyRequest)
  | tickMsg
  | relayReadyMsg (token : bytes) (sessionTTL : Z)
  | chatMessageMsg (sender : Z) (text : bytes) (time : Z)
  | peerDisconnectedMsg
  | receiveErrorMsg (e : error)
  | historySessionsMsg (sessions : result (list SessionSummary))
  | historyMessagesMsg (sessionID : bytes) (messages : list text)
  | historyLoadedMsg (messages : list line)
  | WindowSizeMsg (width height : Z)
  | KeyMsg (k : key)
  | OtherMsg.

Inductive Cmd :=
  | NoCmd | Quit | Tick | WidgetCmd
  | waitConnCmd (ctx ch : option nat) (isServer : bool)
  | failCmd (e : error)
  | loadSessionsCmd
  | loadChatHistoryCmd
  | loadSessionMessagesCmd (sessionID : bytes)
  | Batch (cmds : list Cmd).

(** What a viewport shows: text wrapped at a width, or as it is. *)
Inductive content := Wrapped (width : Z) (lines : list line) | AsIs (lines : list text).

(** The widgets. *)
Class Bubbles := {
  textinput : Type; textarea : Type; viewport : Type;
  ti_New : bytes -> bytes -> Z -> Z -> textinput;      (* placeholder, value, CharLimit, Width *)
  ti_Value : textinput -> bytes;
  ti_Focus : textinput -> textinput;
  ti_Focused : textinput -> bool;
  ti_Update : Msg -> textinput -> textinput;
  ti_View : textinput -> bytes;
  ta_New : bytes -> bytes -> Z -> Z -> Z -> textarea;  (* placeholder, prompt, CharLimit, width, height *)
  ta_SetWidth : Z -> textarea -> textarea;
  ta_Height : textarea -> Z;
  ta_Value : textarea -> bytes;
  ta_Reset : textarea -> textarea;
  ta_Update : Msg -> textarea -> textarea;
  ta_View : textarea -> bytes;
  vp_zero : viewport;                                  (* viewport.Model{} *)
  ta_zero : textarea;
  vp_New : Z -> Z -> viewport;
  vp_Width : viewport -> Z;
  vp_Resize : Z -> Z -> viewport -> viewport;
  vp_SetContent : content -> viewport -> viewport;
  vp_GotoBottom : viewport -> viewport;
  vp_Update : Msg -> viewport -> viewport;
  vp_View : viewport -> bytes;
  gap_height : Z                                       (* lipgloss.Height of two newlines *)
}.

(** ** version.go *)

Definition tui_parseVer (version : bytes) : option (Z * Z) :=
  match Split Byte.x2e version with
  | a :: b :: _ => match Atoi a, Atoi b with Some maj, Some min => Some (maj, min) | _, _ => None end
  | _ => None
  end.

Definition tui_checkMinorMismatch (local remote : bytes) : option text :=
  match remote with
  | [] => None
  | _ =>
      match tui_parseVer local, tui_parseVer remote with
      | Some (lmaj, lmin), Some (rmaj, rmin) =>
          if (lmaj =? rmaj) && negb (lmin =? rmin)
          then Some [P "Minor version mismatch (v"; PB local; P " vs v"; PB remote; P "): things may not work as expected"]
          else None
      | _, _ => None
      end
  end.

Section tui.
Context `{Crypto} `{ProtoRuntime} `{Bolt} `{Bubbles}.

(** ** The model *)

Record model := mkModel {
  m_state : appState;
  m_cursor : Z;
  m_mode : inputMode;
  m_inputs : list textinput;
  m_connectErr : option error;
  m_connCtx : option nat;
  m_connCancel : option nat;
  m_srv : option nat;
  m_doneCh : option nat;
  m_connCh : option nat;
  m_relayToken : option bytes;
  m_relaySessionTTL : Z;
  m_sessionExpiry : Z;
  m_verifyReq : option verifyRequest;
  m_transport : option transport;
  m_pingFailures : Z;
  m_lastPongAt : Z;
  m_pongCh : option nat;
  m_keepAliveDone : option nat;
  m_vp : viewport;
  m_ta : textarea;
  m_messages : list line;
  m_versionWarn : text;
  m_sessions : list SessionSummary;
  m_histCursor : Z;
  m_histVP : viewport;
  m_histMsgs : list text;
  m_histViewing : bool;
  m_width : Z;
  m_height : Z
}.

Definition put_state (x : appState) (m : model) : model :=
  mkModel x (m_cursor m) (m_mode m) (m_inputs m) (m_connectErr m) (m_connCtx m) (m_connCancel m) (m_srv m) (m_doneCh
    m) (m_connCh m) (m_relayToken m) (m_relaySessionTTL m) (m_sessionExpiry m) (m_verifyReq m) (m_transport m)
    (m_pingFailures m) (m_lastPongAt m) (m_pongCh m) (m_keepAliveDone m) (m_vp m) (m_ta m) (m_messages m)
    (m_versionWarn m) (m_sessions m) (m_histCursor m) (m_histVP m) (m_histMsgs m) (m_histViewing m) (m_width m)
    (m_height m).
Definition put_cursor (x : Z) (m : model) : model :=
  mkModel (m_state m) x (m_mode m) (m_inputs m) (m_connectErr m) (m_connCtx m) (m_connCancel m) (m_srv m) (m_doneCh
    m) (m_connCh m) (m_relayToken m) (m_relaySessionTTL m) (m_sessionExpiry m) (m_verifyReq m) (m_transport m)
    (m_pingFailures m) (m_lastPongAt m) (m_pongCh m) (m_keepAliveDone m) (m_vp m) (m_ta m) (m_messages m)
    (m_versionWarn m) (m_sessions m) (m_histCursor m) (m_histVP m) (m_histMsgs m) (m_histViewing m) (m_width m)
    (m_height m).
Definition put_mode (x : inputMode) (m : model) : model :=
  mkModel (m_state m) (m_cursor m) x (m_inputs m) (m_connectErr m) (m_connCtx m) (m_connCancel m) (m_srv m)
    (m_doneCh m) (m_connCh m) (m_relayToken m) (m_relaySessionTTL m) (m_sessionExpiry m) (m_verifyReq m)
    (m_transport m) (m_pingFailures m) (m_lastPongAt m) (m_pongCh m) (m_keepAliveDone m) (m_vp m) (m_ta m)
    (m_messages m) (m_versionWarn m) (m_sessions m) (m_histCursor m) (m_histVP m) (m_histMsgs m) (m_histViewing m)
    (m_width m) (m_height m).
Definition put_inputs (x : list textinput) (m : model) : model :=
  mkModel (m_state m) (m_cursor m) (m_mode m) x (m_connectErr m) (m_connCtx m) (m_connCancel m) (m_srv m) (m_doneCh
    m) (m_connCh m) (m_relayToken m) (m_relaySessionTTL m) (m_sessionExpiry m) (m_verifyReq m) (m_transport m)
    (m_pingFailures m) (m_lastPongAt m) (m_pongCh m) (m_keepAliveDone m) (m_vp m) (m_ta m) (m_messages m)
    (m_versionWarn m) (m_sessions m) (m_histCursor m) (m_histVP m) (m_histMsgs m) (m_histViewing m) (m_width m)
    (m_height m).
Definition put_connectErr (x : option error) (m : model) : model :=
  mkModel (m_state m) (m_cursor m) (m_mode m) (m_inputs m) x (m_connCtx m) (m_connCancel m) (m_srv m) (m_doneCh m)
    (m_connCh m) (m_relayToken m) (m_relaySessionTTL m) (m_sessionExpiry m) (m_verifyReq m) (m_transport m)
    (m_pingFailures m) (m_lastPongAt m) (m_pongCh m) (m_keepAliveDone m) (m_vp m) (m_ta m) (m_messages m)
    (m_versionWarn m) (m_sessions m) (m_histCursor m) (m_histVP m) (m_histMsgs m) (m_histViewing m) (m_width m)
    (m_height m).
Definition put_connCtx (x : option nat) (m : model) : model :=
  mkModel (m_state m) (m_cursor m) (m_mode m) (m_inputs m) (m_connectErr m) x (m_connCancel m) (m_srv m) (m_doneCh
    m) (m_connCh m) (m_relayToken m) (m_relaySessionTTL m) (m_sessionExpiry m) (m_verifyReq m) (m_transport m)
    (m_pingFailures m) (m_lastPongAt m) (m_pongCh m) (m_keepAliveDone m) (m_vp m) (m_ta m) (m_messages m)
    (m_versionWarn m) (m_sessions m) (m_histCursor m) (m_histVP m) (m_histMsgs m) (m_histViewing m) (m_width m)
    (m_height m).
Definition put_connCancel (x : option nat) (m : model) : model :=
  mkModel (m_state m) (m_cursor m) (m_mode m) (m_inputs m) (m_connectErr m) (m_connCtx m) x (m_srv m) (m_doneCh m)
    (m_connCh m) (m_relayToken m) (m_relaySessionTTL m) (m_sessionExpiry m) (m_verifyReq m) (m_transport m)
    (m_pingFailures m) (m_lastPongAt m) (m_pongCh m) (m_keepAliveDone m) (m_vp m) (m_ta m) (m_messages m)
    (m_versionWarn m) (m_sessions m) (m_histCursor m) (m_histVP m) (m_histMsgs m) (m_histViewing m) (m_width m)
    (m_height m).
Definition put_srv (x : option nat) (m : model) : model :=
  mkModel (m_state m) (m_cursor m) (m_mode m) (m_inputs m) (m_connectErr m) (m_connCtx m) (m_connCancel m) x
    (m_doneCh m) (m_connCh m) (m_relayToken m) (m_relaySessionTTL m) (m_sessionExpiry m) (m_verifyReq m)
    (m_transport m) (m_pingFailures m) (m_lastPongAt m) (m_pongCh m) (m_keepAliveDone m) (m_vp m) (m_ta m)
    (m_messages m) (m_versionWarn m) (m_sessions m) (m_histCursor m) (m_histVP m) (m_histMsgs m) (m_histViewing m)
    (m_width m) (m_height m).
Definition put_doneCh (x : option nat) (m : model) : model :=
  mkModel (m_state m) (m_cursor m) (m_mode m) (m_inputs m) (m_connectErr m) (m_connCtx m) (m_connCancel m) (m_srv m)
    x (m_connCh m) (m_relayToken m) (m_relaySessionTTL m) (m_sessionExpiry m) (m_verifyReq m) (m_transport m)
    (m_pingFailures m) (m_lastPongAt m) (m_pongCh m) (m_keepAliveDone m) (m_vp m) (m_ta m) (m_messages m)
    (m_versionWarn m) (m_sessions m) (m_histCursor m) (m_histVP m) (m_histMsgs m) (m_histViewing m) (m_width m)
    (m_height m).
Definition put_connCh (x : option nat) (m : model) : model :=
  mkModel (m_state m) (m_cursor m) (m_mode m) (m_inputs m) (m_connectErr m) (m_connCtx m) (m_connCancel m) (m_srv m)
    (m_doneCh m) x (m_relayToken m) (m_relaySessionTTL m) (m_sessionExpiry m) (m_verifyReq m) (m_transport m)
    (m_pingFailures m) (m_lastPongAt m) (m_pongCh m) (m_keepAliveDone m) (m_vp m) (m_ta m) (m_messages m)
    (m_versionWarn m) (m_sessions m) (m_histCursor m) (m_histVP m) (m_histMsgs m) (m_histViewing m) (m_width m)
    (m_height m).
Definition put_relayToken (x : option bytes) (m : model) : model :=
  mkModel (m_state m) (m_cursor m) (m_mode m) (m_inputs m) (m_connectErr m) (m_connCtx m) (m_connCancel m) (m_srv m)
    (m_doneCh m) (m_connCh m) x (m_relaySessionTTL m) (m_sessionExpiry m) (m_verifyReq m) (m_transport m)
    (m_pingFailures m) (m_lastPongAt m) (m_pongCh m) (m_keepAliveDone m) (m_vp m) (m_ta m) (m_messages m)
    (m_versionWarn m) (m_sessions m) (m_histCursor m) (m_histVP m) (m_histMsgs m) (m_histViewing m) (m_width m)
    (m_height m).
Definition put_relaySessionTTL (x : Z) (m : model) : model :=
  mkModel (m_state m) (m_cursor m) (m_mode m) (m_inputs m) (m_connectErr m) (m_connCtx m) (m_connCancel m) (m_srv m)
    (m_doneCh m) (m_connCh m) (m_relayToken m) x (m_sessionExpiry m) (m_verifyReq m) (m_transport m) (m_pingFailures
    m) (m_lastPongAt m) (m_pongCh m) (m_keepAliveDone m) (m_vp m) (m_ta m) (m_messages m) (m_versionWarn m)
    (m_sessions m) (m_histCursor m) (m_histVP m) (m_histMsgs m) (m_histViewing m) (m_width m) (m_height m).
Definition put_sessionExpiry (x : Z) (m : model) : model :=
  mkModel (m_state m) (m_cursor m) (m_mode m) (m_inputs m) (m_connectErr m) (m_connCtx m) (m_connCancel m) (m_srv m)
    (m_doneCh m) (m_connCh m) (m_relayToken m) (m_relaySessionTTL m) x (m_verifyReq m) (m_transport m)
    (m_pingFailures m) (m_lastPongAt m) (m_pongCh m) (m_keepAliveDone m) (m_vp m) (m_ta m) (m_messages m)
    (m_versionWarn m) (m_sessions m) (m_histCursor m) (m_histVP m) (m_histMsgs m) (m_histViewing m) (m_width m)
    (m_height m).
Definition put_verifyReq (x : option verifyRequest) (m : model) : model :=
  mkModel (m_state m) (m_cursor m) (m_mode m) (m_inputs m) (m_connectErr m) (m_connCtx m) (m_connCancel m) (m_srv m)
    (m_doneCh m) (m_connCh m) (m_relayToken m) (m_relaySessionTTL m) (m_sessionExpiry m) x (m_transport m)
    (m_pingFailures m) (m_lastPongAt m) (m_pongCh m) (m_keepAliveDone m) (m_vp m) (m_ta m) (m_messages m)
    (m_versionWarn m) (m_sessions m) (m_histCursor m) (m_histVP m) (m_histMsgs m) (m_histViewing m) (m_width m)
    (m_height m).
Definition put_transport (x : option transport) (m : model) : model :=
  mkModel (m_state m) (m_cursor m) (m_mode m) (m_inputs m) (m_connectErr m) (m_connCtx m) (m_connCancel m) (m_srv m)
    (m_doneCh m) (m_connCh m) (m_relayToken m) (m_relaySessionTTL m) (m_sessionExpiry m) (m_verifyReq m) x
    (m_pingFailures m) (m_lastPongAt m) (m_pongCh m) (m_keepAliveDone m) (m_vp m) (m_ta m) (m_messages m)
    (m_versionWarn m) (m_sessions m) (m_histCursor m) (m_histVP m) (m_histMsgs m) (m_histViewing m) (m_width m)
    (m_height m).
Definition put_pingFailures (x : Z) (m : model) : model :=
  mkModel (m_state m) (m_cursor m) (m_mode m) (m_inputs m) (m_connectErr m) (m_connCtx m) (m_connCancel m) (m_srv m)
    (m_doneCh m) (m_connCh m) (m_relayToken m) (m_relaySessionTTL m) (m_sessionExpiry m) (m_verifyReq m)
    (m_transport m) x (m_lastPongAt m) (m_pongCh m) (m_keepAliveDone m) (m_vp m) (m_ta m) (m_messages m)
    (m_versionWarn m) (m_sessions m) (m_histCursor m) (m_histVP m) (m_histMsgs m) (m_histViewing m) (m_width m)
    (m_height m).
Definition put_lastPongAt (x : Z) (m : model) : model :=
  mkModel (m_state m) (m_cursor m) (m_mode m) (m_inputs m) (m_connectErr m) (m_connCtx m) (m_connCancel m) (m_srv m)
    (m_doneCh m) (m_connCh m) (m_relayToken m) (m_relaySessionTTL m) (m_sessionExpiry m) (m_verifyReq m)
    (m_transport m) (m_pingFailures m) x (m_pongCh m) (m_keepAliveDone m) (m_vp m) (m_ta m) (m_messages m)
    (m_versionWarn m) (m_sessions m) (m_histCursor m) (m_histVP m) (m_histMsgs m) (m_histViewing m) (m_width m)
    (m_height m).
Definition put_pongCh (x : option nat) (m : model) : model :=
  mkModel (m_state m) (m_cursor m) (m_mode m) (m_inputs m) (m_connectErr m) (m_connCtx m) (m_connCancel m) (m_srv m)
    (m_doneCh m) (m_connCh m) (m_relayToken m) (m_relaySessionTTL m) (m_sessionExpiry m) (m_verifyReq m)
    (m_transport m) (m_pingFailures m) (m_lastPongAt m) x (m_keepAliveDone m) (m_vp m) (m_ta m) (m_messages m)
    (m_versionWarn m) (m_sessions m) (m_histCursor m) (m_histVP m) (m_histMsgs m) (m_histViewing m) (m_width m)
    (m_height m).
Definition put_keepAliveDone (x : option nat) (m : model) : model :=
  mkModel (m_state m) (m_cursor m) (m_mode m) (m_inputs m) (m_connectErr m) (m_connCtx m) (m_connCancel m) (m_srv m)
    (m_doneCh m) (m_connCh m) (m_relayToken m) (m_relaySessionTTL m) (m_sessionExpiry m) (m_verifyReq m)
    (m_transport m) (m_pingFailures m) (m_lastPongAt m) (m_pongCh m) x (m_vp m) (m_ta m) (m_messages m)
    (m_versionWarn m) (m_sessions m) (m_histCursor m) (m_histVP m) (m_histMsgs m) (m_histViewing m) (m_width m)
    (m_height m).
Definition put_vp (x : viewport) (m : model) : model :=
  mkModel (m_state m) (m_cursor m) (m_mode m) (m_inputs m) (m_connectErr m) (m_connCtx m) (m_connCancel m) (m_srv m)
    (m_doneCh m) (m_connCh m) (m_relayToken m) (m_relaySessionTTL m) (m_sessionExpiry m) (m_verifyReq m)
    (m_transport m) (m_pingFailures m) (m_lastPongAt m) (m_pongCh m) (m_keepAliveDone m) x (m_ta m) (m_messages m)
    (m_versionWarn m) (m_sessions m) (m_histCursor m) (m_histVP m) (m_histMsgs m) (m_histViewing m) (m_width m)
    (m_height m).
Definition put_ta (x : textarea) (m : model) : model :=
  mkModel (m_state m) (m_cursor m) (m_mode m) (m_inputs m) (m_connectErr m) (m_connCtx m) (m_connCancel m) (m_srv m)
    (m_doneCh m) (m_connCh m) (m_relayToken m) (m_relaySessionTTL m) (m_sessionExpiry m) (m_verifyReq m)
    (m_transport m) (m_pingFailures m) (m_lastPongAt m) (m_pongCh m) (m_keepAliveDone m) (m_vp m) x (m_messages m)
    (m_versionWarn m) (m_sessions m) (m_histCursor m) (m_histVP m) (m_histMsgs m) (m_histViewing m) (m_width m)
    (m_height m).
Definition put_messages (x : list line) (m : model) : model :=
  mkModel (m_state m) (m_cursor m) (m_mode m) (m_inputs m) (m_connectErr m) (m_connCtx m) (m_connCancel m) (m_srv m)
    (m_doneCh m) (m_connCh m) (m_relayToken m) (m_relaySessionTTL m) (m_sessionExpiry m) (m_verifyReq m)
    (m_transport m) (m_pingFailures m) (m_lastPongAt m) (m_pongCh m) (m_keepAliveDone m) (m_vp m) (m_ta m) x
    (m_versionWarn m) (m_sessions m) (m_histCursor m) (m_histVP m) (m_histMsgs m) (m_histViewing m) (m_width m)
    (m_height m).
Definition put_versionWarn (x : text) (m : model) : model :=
  mkModel (m_state m) (m_cursor m) (m_mode m) (m_inputs m) (m_connectErr m) (m_connCtx m) (m_connCancel m) (m_srv m)
    (m_doneCh m) (m_connCh m) (m_relayToken m) (m_relaySessionTTL m) (m_sessionExpiry m) (m_verifyReq m)
    (m_transport m) (m_pingFailures m) (m_lastPongAt m) (m_pongCh m) (m_keepAliveDone m) (m_vp m) (m_ta m)
    (m_messages m) x (m_sessions m) (m_histCursor m) (m_histVP m) (m_histMsgs m) (m_histViewing m) (m_width m)
    (m_height m).
Definition put_sessions (x : list SessionSummary) (m : model) : model :=
  mkModel (m_state m) (m_cursor m) (m_mode m) (m_inputs m) (m_connectErr m) (m_connCtx m) (m_connCancel m) (m_srv m)
    (m_doneCh m) (m_connCh m) (m_relayToken m) (m_relaySessionTTL m) (m_sessionExpiry m) (m_verifyReq m)
    (m_transport m) (m_pingFailures m) (m_lastPongAt m) (m_pongCh m) (m_keepAliveDone m) (m_vp m) (m_ta m)
    (m_messages m) (m_versionWarn m) x (m_histCursor m) (m_histVP m) (m_histMsgs m) (m_histViewing m) (m_width m)
    (m_height m).
Definition put_histCursor (x : Z) (m : model) : model :=
  mkModel (m_state m) (m_cursor m) (m_mode m) (m_inputs m) (m_connectErr m) (m_connCtx m) (m_connCancel m) (m_srv m)
    (m_doneCh m) (m_connCh m) (m_relayToken m) (m_relaySessionTTL m) (m_sessionExpiry m) (m_verifyReq m)
    (m_transport m) (m_pingFailures m) (m_lastPongAt m) (m_pongCh m) (m_keepAliveDone m) (m_vp m) (m_ta m)
    (m_messages m) (m_versionWarn m) (m_sessions m) x (m_histVP m) (m_histMsgs m) (m_histViewing m) (m_width m)
    (m_height m).
Definition put_histVP (x : viewport) (m : model) : model :=
  mkModel (m_state m) (m_cursor m) (m_mode m) (m_inputs m) (m_connectErr m) (m_connCtx m) (m_connCancel m) (m_srv m)
    (m_doneCh m) (m_connCh m) (m_relayToken m) (m_relaySessionTTL m) (m_sessionExpiry m) (m_verifyReq m)
    (m_transport m) (m_pingFailures m) (m_lastPongAt m) (m_pongCh m) (m_keepAliveDone m) (m_vp m) (m_ta m)
    (m_messages m) (m_versionWarn m) (m_sessions m) (m_histCursor m) x (m_histMsgs m) (m_histViewing m) (m_width m)
    (m_height m).
Definition put_histMsgs (x : list text) (m : model) : model :=
  mkModel (m_state m) (m_cursor m) (m_mode m) (m_inputs m) (m_connectErr m) (m_connCtx m) (m_connCancel m) (m_srv m)
    (m_doneCh m) (m_connCh m) (m_relayToken m) (m_relaySessionTTL m) (m_sessionExpiry m) (m_verifyReq m)
    (m_transport m) (m_pingFailures m) (m_lastPongAt m) (m_pongCh m) (m_keepAliveDone m) (m_vp m) (m_ta m)
    (m_messages m) (m_versionWarn m) (m_sessions m) (m_histCursor m) (m_histVP m) x (m_histViewing m) (m_width m)
    (m_height m).
Definition put_histViewing (x : bool) (m : model) : model :=
  mkModel (m_state m) (m_cursor m) (m_mode m) (m_inputs m) (m_connectErr m) (m_connCtx m) (m_connCancel m) (m_srv m)
    (m_doneCh m) (m_connCh m) (m_relayToken m) (m_relaySessionTTL m) (m_sessionExpiry m) (m_verifyReq m)
    (m_transport m) (m_pingFailures m) (m_lastPongAt m) (m_pongCh m) (m_keepAliveDone m) (m_vp m) (m_ta m)
    (m_messages m) (m_versionWarn m) (m_sessions m) (m_histCursor m) (m_histVP m) (m_histMsgs m) x (m_width m)
    (m_height m).
Definition put_width (x : Z) (m : model) : model :=
  mkModel (m_state m) (m_cursor m) (m_mode m) (m_inputs m) (m_connectErr m) (m_connCtx m) (m_connCancel m) (m_srv m)
    (m_doneCh m) (m_connCh m) (m_relayToken m) (m_relaySessionTTL m) (m_sessionExpiry m) (m_verifyReq m)
    (m_transport m) (m_pingFailures m) (m_lastPongAt m) (m_pongCh m) (m_keepAliveDone m) (m_vp m) (m_ta m)
    (m_messages m) (m_versionWarn m) (m_sessions m) (m_histCursor m) (m_histVP m) (m_histMsgs m) (m_histViewing m) x
    (m_height m).
Definition put_height (x : Z) (m : model) : model :=
  mkModel (m_state m) (m_cursor m) (m_mode m) (m_inputs m) (m_connectErr m) (m_connCtx m) (m_connCancel m) (m_srv m)
    (m_doneCh m) (m_connCh m) (m_relayToken m) (m_relaySessionTTL m) (m_sessionExpiry m) (m_verifyReq m)
    (m_transport m) (m_pingFailures m) (m_lastPongAt m) (m_pongCh m) (m_keepAliveDone m) (m_vp m) (m_ta m)
    (m_messages m) (m_versionWarn m) (m_sessions m) (m_histCursor m) (m_histVP m) (m_histMsgs m) (m_histViewing m)
    (m_width m) x.

(** main.go: [&model{store: store, state: stateWelcome, s: defaultStyles()}] *)
Definition initial_model : model :=
  mkModel stateWelcome 0 modeDirectDial [] None None None None None None None 0 zero_time None None 0 zero_time None None
    vp_zero ta_zero [] [] [] 0 vp_zero [] false 0 0.

(** ** The world *)

Inductive job :=
  | JDial | JRelayDial (addr token : bytes) | JRelayServe (addr : bytes) (connCh doneCh : nat)
  | JServe (srv connCh doneCh : nat) | JReceive | JKeepAlive.

Record world := mkWorld {
  w_m : model;
  w_store : store;
  w_clock : nat -> Z; w_tpos : nat; w_zone : Z;
  w_next : nat;                             (* the next channel or context *)
  w_closed : list nat;                      (* closed channels *)
  w_cancelled : list nat;                   (* cancelled contexts *)
  w_stopped : list nat;                     (* servers that were closed *)
  w_hungup : list nat;                      (* transports that were closed *)
  w_verdicts : list (nat * option error);   (* sent to verifiers *)
  w_jobs : list job                         (* goroutines that were started *)
}.

Definition upd (f : model -> model) (w : world) : world :=
  mkWorld (f (w_m w)) (w_store w) (w_clock w) (w_tpos w) (w_zone w) (w_next w) (w_closed w) (w_cancelled w) (w_stopped w)
    (w_hungup w) (w_verdicts w) (w_jobs w).

Definition tm (A : Type) : Type := world -> option (A * world).
Definition tret {A} (a : A) : tm A := fun w => Some (a, w).
Definition tbind {A B} (m : tm A) (k : A -> tm B) : tm B := fun w =>
  match m w with Some (a, w') => k a w' | None => None end.
Definition tpanic {A} : tm A := fun _ => None.
Definition tget {A} (f : model -> A) : tm A := fun w => Some (f (w_m w), w).
Definition tput (f : model -> model) : tm unit := fun w => Some (tt, upd f w).

End tui.

Declare Scope tm_scope.
Delimit Scope tm_scope with tm.
Notation "'let?' x := m 'in' k" := (tbind m (fun x => k))
  (at level 100, x name, m at level 200, k at level 200) : tm_scope.
Notation "m ;? k" := (tbind m (fun _ => k)) (at level 95, right associativity) : tm_scope.
#[local] Open Scope tm_scope.

Section handlers.
Context `{Crypto} `{ProtoRuntime} `{Bolt} `{Bubbles}.

Definition tui_now : tm Z := fun w =>
  Some (w_clock w (w_tpos w),
        mkWorld (w_m w) (w_store w) (w_clock w) (S (w_tpos w)) (w_zone w) (w_next w) (w_closed w) (w_cancelled w)
          (w_stopped w) (w_hungup w) (w_verdicts w) (w_jobs w)).

(** [make(chan ...)], [context.WithCancel]. *)
Definition fresh : tm nat := fun w =>
  Some (w_next w,
        mkWorld (w_m w) (w_store w) (w_clock w) (w_tpos w) (w_zone w) (S (w_next w)) (w_closed w) (w_cancelled w)
          (w_stopped w) (w_hungup w) (w_verdicts w) (w_jobs w)).

Definition go_start (j : job) : tm unit := fun w =>
  Some (tt, mkWorld (w_m w) (w_store w) (w_clock w) (w_tpos w) (w_zone w) (w_next w) (w_closed w) (w_cancelled w)
              (w_stopped w) (w_hungup w) (w_verdicts w) (w_jobs w ++ [j])).

(** Closing a closed channel panics. *)
Definition close_chan (c : nat) : tm unit := fun w =>
  if bool_decide (c ∈ w_closed w) then None
  else Some (tt, mkWorld (w_m w) (w_store w) (w_clock w) (w_tpos w) (w_zone w) (w_next w) (c :: w_closed w) (w_cancelled w)
                   (w_stopped w) (w_hungup w) (w_verdicts w) (w_jobs w)).

Definition cancel_ctx (c : nat) : tm unit := fun w =>
  Some (tt, mkWorld (w_m w) (w_store w) (w_clock w) (w_tpos w) (w_zone w) (w_next w) (w_closed w) (c :: w_cancelled w)
              (w_stopped w) (w_hungup w) (w_verdicts w) (w_jobs w)).

Definition stop_server (s : nat) : tm unit := fun w =>
  Some (tt, mkWorld (w_m w) (w_store w) (w_clock w) (w_tpos w) (w_zone w) (w_next w) (w_closed w) (w_cancelled w)
              (s :: w_stopped w) (w_hungup w) (w_verdicts w) (w_jobs w)).

Definition hang_up (t : nat) : tm unit := fun w =>
  Some (tt, mkWorld (w_m w) (w_store w) (w_clock w) (w_tpos w) (w_zone w) (w_next w) (w_closed w) (w_cancelled w)
              (w_stopped w) (t :: w_hungup w) (w_verdicts w) (w_jobs w)).

(** A send on the channel of a verifier, which holds one verdict. *)
Definition send_verdict (c : nat) (v : option error) : tm unit := fun w =>
  Some (tt, mkWorld (w_m w) (w_store w) (w_clock w) (w_tpos w) (w_zone w) (w_next w) (w_closed w) (w_cancelled w)
              (w_stopped w) (w_hungup w) (w_verdicts w ++ [(c, v)]) (w_jobs w)).

Definition set_store (s : store) (w : world) : world :=
  mkWorld (w_m w) s (w_clock w) (w_tpos w) (w_zone w) (w_next w) (w_closed w) (w_cancelled w) (w_stopped w) (w_hungup w)
    (w_verdicts w) (w_jobs w).
Definition scall_opt {A} (f : store -> option (result A * store)) : tm (result A) := fun w =>
  match f (w_store w) with Some (r, s) => Some (r, set_store s w) | None => None end.
Definition scall {A} (f : go store A) : tm (result A) := scall_opt (fun s => Some (f s)).

(** A method of the transport through a pointer that may be nil. *)
Definition the_transport : tm transport :=
  let? t := tget m_transport in match t with Some t => tret t | None => tpanic end.

(** [l[i]] panics out of range. *)
Definition index {A} (l : list A) (i : Z) : tm A :=
  match (if i <? 0 then None else l !! Z.to_nat i) with Some a => tret a | None => tpanic end.

(** ** Leaving (tea.go) *)

Definition if_some {A} (o : option A) (k : A -> tm unit) : tm unit :=
  match o with Some a => k a | None => tret tt end.

Definition cancelConnect : tm unit :=
  (let? c := tget m_connCancel in if_some c (fun c => cancel_ctx c ;? tput (put_connCancel None))) ;?
  (let? s := tget m_srv in if_some s (fun s => stop_server s ;? tput (put_srv None))) ;?
  tput (fun m => put_connCh None (put_doneCh None (put_relayToken None (put_relaySessionTTL 0 (put_sessionExpiry zero_time m))))).

(** [cleanup] up to the receive from [keepAliveDone]: the channel it waits for. *)
Definition cleanup_begin : tm (option nat) :=
  (let? c := tget m_connCancel in if_some c (fun c => cancel_ctx c ;? tput (put_connCancel None))) ;?
  (let? d := tget m_doneCh in if_some d (fun d => close_chan d ;? tput (put_doneCh None))) ;?
  tget m_keepAliveDone.

(** The rest of [cleanup]. *)
Definition cleanup_end : tm unit :=
  tput (put_keepAliveDone None) ;?
  (let? t := tget m_transport in if_some t (fun t => hang_up (t_id t) ;? tput (put_transport None))) ;?
  (let? s := tget m_srv in if_some s (fun s => stop_server s ;? tput (put_srv None))) ;?
  tput (fun m => put_connCh None (put_relayToken None (put_relaySessionTTL 0 (put_sessionExpiry zero_time m)))).

(** What follows [cleanup] in [Update] (Ctrl-C) and in [updateChat] (Esc). *)
Inductive after := ThenQuit | ThenWelcome.

Definition resume (a : after) : tm Cmd :=
  cleanup_end ;?
  match a with
  | ThenQuit => tret Quit
  | ThenWelcome =>
      tput (fun m => put_messages [] (put_versionWarn [] (put_state stateWelcome m))) ;? tret NoCmd
  end.

(** [Update] returns a command, or waits for a channel. *)
Inductive handled := Returned (c : Cmd) | Waiting (ch : nat) (a : after).

Definition leave (a : after) : tm handled :=
  let? done := cleanup_begin in
  match done with
  | Some ch =>
      fun w => if bool_decide (ch ∈ w_closed w) then (let? c := resume a in tret (Returned c)) w
               else Some (Waiting ch a, w)
  | None => let? c := resume a in tret (Returned c)
  end.

(** ** Connecting (tea.go, client.go, server.go, relayclient.go, relayserver.go) *)

(** What calls outside the model return to [Update]: [NewServer], and
    [Transport.Send] of a text, with the timestamp of the message. *)
Record inputs := mkIn { in_NewServer : result nat; in_Send : bytes -> result Z }.

Definition tui_serve (created : result nat) : result nat := map_err (wrapf "create server") created.

Definition dial (dialer : result unit) (dialed : result transport) : result transport :=
  match dialer with Err e => Err (wrapf "create dialer" e) | Ok _ => dialed end.

Definition relayDial (tokenHex : bytes) (dialer : result unit) (dialed : result (transport * Z)) : result (transport * Z) :=
  match hex_DecodeString tokenHex with
  | None => Err (wrapf "decode token" illegal_hex)
  | Some _ => match dialer with Err e => Err (wrapf "create dialer" e) | Ok _ => dialed end
  end.

(** [listened]: the token and the session's lifetime. *)
Definition relayServe (listened : result (bytes * Z)) (created : result nat) : result (nat * bytes * Z) :=
  match listened with
  | Err e => Err (wrapf "relay listen" e)
  | Ok (token, ttl) => match tui_serve created with Err e => Err e | Ok srv => Ok (srv, token, ttl) end
  end.

Definition startConnect (i : inputs) : tm Cmd :=
  (let? c := fresh in tput (fun m => put_connCtx (Some c) (put_connCancel (Some c) m))) ;?
  let? mode := tget m_mode in
  match mode with
  | modeDirectDial => go_start JDial ;? tret NoCmd
  | modeDirectServe =>
      let? connCh := fresh in let? doneCh := fresh in
      tput (fun m => put_connCh (Some connCh) (put_doneCh (Some doneCh) m)) ;?
      let? l := tget m_inputs in let? _ := index l 0 in
      match tui_serve (in_NewServer i) with
      | Err e => tret (failCmd e)
      | Ok srv =>
          go_start (JServe srv connCh doneCh) ;?
          tput (put_srv (Some srv)) ;?
          let? ctx := tget m_connCtx in tret (waitConnCmd ctx (Some connCh) true)
      end
  | modeRelayDial =>
      let? l := tget m_inputs in let? addr := index l 0 in let? token := index l 1 in
      go_start (JRelayDial (ti_Value addr) (ti_Value token)) ;? tret NoCmd
  | modeRelayServe =>
      let? connCh := fresh in let? doneCh := fresh in
      tput (fun m => put_connCh (Some connCh) (put_doneCh (Some doneCh) m)) ;?
      let? l := tget m_inputs in let? addr := index l 0 in
      go_start (JRelayServe (ti_Value addr) connCh doneCh) ;?
      let? ctx := tget m_connCtx in tret (waitConnCmd ctx (Some connCh) true)
  end.

(** The goroutines of [startConnect] when their calls have returned: the message
    they send.  [t.RemotePeer().AppVersion] panics without a peer. *)
Definition dialled (r : result (transport * Z)) : tm Msg :=
  match r with
  | Err e => tret (connectFailedMsg e)
  | Ok (t, ttl) =>
      match t_RemotePeer t with
      | None => tpanic
      | Some peer =>
          tput (put_versionWarn (default [] (tui_checkMinorMismatch AppVersion (AppVersionOf peer)))) ;?
          tret (connectedMsg t false ttl)
      end
  end.

Definition relay_served (r : result (nat * bytes * Z)) : tm Msg :=
  match r with
  | Err e => tret (connectFailedMsg e)
  | Ok (srv, token, ttl) => tput (put_srv (Some srv)) ;? tret (relayReadyMsg token ttl)
  end.

(** [waitConn]: the channel holds a transport, or the context is cancelled. *)
Definition waitConn (offered : option transport) (isServer : bool) : option Msg :=
  match offered with Some t => Some (connectedMsg t isServer 0) | None => None end.

(** [mkVerifier] up to its request, and after the verdict. *)
Definition verifier_ask (peer : Peer) : tm verifyRequest :=
  let? found := scall (FindPeer (PublicKey peer)) in
  let? respCh := fresh in
  tret (mkVerifyReq peer (negb (is_ok found)) (emoji_text (PublicKey peer)) (Hex (PublicKey peer)) respCh).

Definition verifier_end (r : verifyRequest) (verdict : option error) : tm (option error) :=
  match verdict with
  | None =>
      (if vr_isNew r then
         let? now := tui_now in
         let peer := vr_peer r in
         let? _ := scall (StorePeer (mkPeer now (LastSeen peer) (Name peer) (AppVersionOf peer) (PublicKey peer))) in tret tt
       else tret tt) ;?
      tret verdict
  | Some _ => tret verdict
  end.

(** ** The chat (tea.go, chat.go) *)

(** [m.vp.SetContent(renderChatContent(m)); m.vp.GotoBottom()] *)
Definition show_messages : tm unit :=
  tput (fun m => put_vp (vp_GotoBottom (vp_SetContent (Wrapped (vp_Width (m_vp m)) (m_messages m)) (m_vp m))) m).

Definition add_line (l : line) : tm unit := tput (fun m => put_messages (m_messages m ++ [l]) m) ;? show_messages.

Definition chat_height (m : model) : Z := m_height m - ta_Height (m_ta m) - gap_height.

Definition enterChat : tm Cmd :=
  tput (put_state stateChat) ;?
  let? mode := tget m_mode in let? ttl := tget m_relaySessionTTL in
  (if bool_decide (mode = modeRelayServe) && (0 <? ttl)
   then let? now := tui_now in tput (put_sessionExpiry (now + ttl)) else tret tt) ;?
  let? t := the_transport in
  (match t_RemotePeer t with
   | Some peer => let? _ := scall_opt (CreateSession (t_SessionID t) (PublicKey peer)) in tret tt
   | None => tret tt
   end) ;?
  tput (put_ta (ta_New (str "Send a message...") (str "┃ ") 280 30 3)) ;?
  let? w := tget m_width in let? h := tget m_height in
  (if 0 <? w then tput (fun m => put_ta (ta_SetWidth w (m_ta m)) m) else tret tt) ;?
  let? chat := tget chat_height in
  let vp := vp_Resize (if 0 <? w then w else 30) (if 0 <? h then chat else 5) (vp_New 30 5) in
  let? warn := tget m_versionWarn in
  (match warn with [] => tret tt | _ => tput (put_messages [[Styled highlight (P "⚠ " :: warn)]]) end) ;?
  tput (put_vp (vp_SetContent (AsIs [[P "Session ID is "; PB (t_SessionID t); P ". Loading history…"]]) vp)) ;?
  go_start JReceive ;?
  (let? c := fresh in tput (put_pongCh (Some c))) ;?
  (let? c := fresh in tput (put_keepAliveDone (Some c))) ;?
  go_start JKeepAlive ;?
  let? expiry := tget m_sessionExpiry in
  tret (if is_zero_time expiry then loadChatHistoryCmd else Batch [loadChatHistoryCmd; Tick]).

Definition entry_line (zone : Z) (e : ChatEntry) : line :=
  let local := ce_Sender e =? SenderLocal in
  [Styled (if local then userPrefix else peerPrefix)
     [P "["; PB (DateTime zone (ce_Timestamp e)); P "] "; P (if local then "You" else "Peer"); P ": "];
   Styled (if local then userText else peerText) [PB (ce_Data e)]].

(** The command [loadChatHistory]; [None] is no message. *)
Definition tui_loadChatHistory : tm (option Msg) :=
  let? t := the_transport in
  let? entries := scall_opt (GetChatHistory (t_SessionID t)) in
  match entries with
  | Err _ => tret None
  | Ok es => fun w =>
      let header := match es with
                    | [] => [P "Session ID is "; PB (t_SessionID t); P ". Happy Chatting!"]
                    | _ => [P "Session ID is "; PB (t_SessionID t); P ". Restored "; PB (Itoa (Z.of_nat (length es)));
                            P " message(s). Happy Chatting!"]
                    end in
      Some (Some (historyLoadedMsg ([Styled muted header] :: map (entry_line (w_zone w)) es)), w)
  end.

Definition handleChatMessage (txt : bytes) (ts : Z) : tm unit :=
  (fun w => add_line [Styled peerPrefix [P "["; PB (DateTime (w_zone w) ts); P "] Peer: "]; Styled peerText [PB txt]] w) ;?
  let? t := the_transport in
  let? _ := scall (AddChatEntry (t_SessionID t) txt ts SenderPeer) in tret tt.

(** The receive loop: the call of [Receive], and what follows its return. *)
Inductive received := RecvAgain | RecvReply (data : bytes) | RecvPong (data : bytes) | RecvSend (m : Msg) | RecvEnd (m : Msg).

Definition recv_call : tm nat := let? t := the_transport in tret (t_id t).

Definition recv_return (r : result (Route * bytes * Z)) : tm received :=
  match r with
  | Err e =>
      tret (if errors_is e ErrPeerDisconnected then RecvEnd peerDisconnectedMsg
            else if errors_is e ErrConnClosed then RecvEnd peerDisconnectedMsg
            else if errors_is e ErrReceiveTimeout then RecvAgain
            else RecvEnd (receiveErrorMsg e))
  | Ok (route, data, ts) =>
      if bool_decide (route = RoutePing) then let? _ := the_transport in tret (RecvReply data)
      else if bool_decide (route = RoutePong) then tret (RecvPong data)
      else tret (RecvSend (chatMessageMsg SenderPeer data ts))
  end.

Definition updateChat (i : inputs) (msg : Msg) : tm handled :=
  tput (fun m => put_vp (vp_Update msg (m_vp m)) (put_ta (ta_Update msg (m_ta m)) m)) ;?
  let both := Returned (Batch [WidgetCmd; WidgetCmd]) in
  match msg with
  | WindowSizeMsg w h =>
      tput (fun m => put_ta (ta_SetWidth w (m_ta m)) m) ;?
      tput (fun m => put_vp (vp_Resize w (h - ta_Height (m_ta m) - gap_height) (m_vp m)) m) ;?
      tput (fun m => match m_messages m with
                     | [] => m
                     | l => put_vp (vp_SetContent (Wrapped (vp_Width (m_vp m)) l) (m_vp m)) m
                     end) ;?
      tput (fun m => put_vp (vp_GotoBottom (m_vp m)) m) ;?
      tret both
  | KeyMsg k =>
      match k_Type k with
      | KeyEsc => leave ThenWelcome
      | KeyEnter =>
          let? ta := tget m_ta in
          let txt := ta_Value ta in
          if bool_decide (TrimSpace txt = []) then tret (Returned WidgetCmd)
          else
            let? t := the_transport in
            match in_Send i txt with
            | Err e => add_line [Styled err_ [P "Send error: "; PE e]] ;? tret (Returned WidgetCmd)
            | Ok ts =>
                let? _ := scall (AddChatEntry (t_SessionID t) txt ts SenderLocal) in
                (fun w => add_line [Styled userPrefix [P "["; PB (DateTime (w_zone w) ts); P "] You: "];
                                    Styled userText [PB txt]] w) ;?
                tput (fun m => put_ta (ta_Reset (m_ta m)) m) ;?
                tret both
            end
      | _ => tret both
      end
  | _ => tret both
  end.

(** ** The menu and the input fields (welcome.go) *)

Definition menuItems : list string :=
  ["Direct Connect (TCP)"; "Start Server (TCP)"; "Connect via Relay"; "Start Relay Server"; "View Chat History"; "Quit"]%string.
Definition menu_len : Z := Z.of_nat (length menuItems).

Definition mkInput (placeholder defaultVal : string) : textinput := ti_New (str placeholder) (str defaultVal) 200 50.

(** [m.inputs[0].Focus()] if there is one. *)
Definition focus_first (l : list textinput) : list textinput :=
  match l with [] => [] | x :: r => ti_Focus x :: r end.

Definition selectMode (idx : Z) : tm Cmd :=
  let enter set :=
    tput set ;? tput (fun m => put_connectErr None (put_state stateInput m)) ;?
    tput (fun m => put_inputs (focus_first (m_inputs m)) m) ;? tret NoCmd in
  if idx =? 0 then
    enter (fun m => put_mode modeDirectDial (put_inputs [mkInput "Address (host:port)" "localhost:9000"] m))
  else if idx =? 1 then
    enter (fun m => put_mode modeDirectServe (put_inputs [mkInput "Address (host:port)" ":9000"] m))
  else if idx =? 2 then
    enter (fun m => put_mode modeRelayDial
      (put_inputs [mkInput "Relay address (host:port)" "localhost:9001"; mkInput "Token (hex)" ""] m))
  else if idx =? 3 then
    enter (fun m => put_mode modeRelayServe (put_inputs [mkInput "Relay address (host:port)" "localhost:9001"] m))
  else if idx =? 4 then tret loadSessionsCmd
  else if idx =? 5 then tret Quit
  else enter (fun m => m).

(** Comparison of strings. *)
Fixpoint bytes_leb (a b : bytes) : bool :=
  match a, b with
  | [], _ => true
  | _, [] => false
  | x :: a, y :: b => (bval x <? bval y) || ((bval x =? bval y) && bytes_leb a b)
  end.

Definition move_cursor (by_ : Z) : tm Cmd :=
  tput (fun m => put_cursor ((m_cursor m + by_ + menu_len) mod menu_len) m) ;? tret NoCmd.

Definition updateWelcome (msg : Msg) : tm Cmd :=
  match msg with
  | KeyMsg k =>
      match k_Type k with
      | KeyUp => move_cursor (-1)
      | KeyDown => move_cursor 1
      | KeyEnter => let? c := tget m_cursor in selectMode c
      | KeyRunes =>
          let ch := k_String k in
          if bool_decide (ch = str "k") then move_cursor (-1)
          else if bool_decide (ch = str "j") then move_cursor 1
          else if bytes_leb (str "1") ch && bytes_leb ch (str "6")
          then match ch with x :: _ => selectMode ((bval x - 49) mod 256) | [] => tpanic end
          else tret NoCmd
      | KeyTab => move_cursor 1
      | _ => tret NoCmd
      end
  | _ => tret NoCmd
  end.

(** The index of the first input that has the focus. *)
Fixpoint focused_index (i : Z) (l : list textinput) : option Z :=
  match l with [] => None | x :: r => if ti_Focused x then Some i else focused_index (i + 1) r end.

Definition nextInput (l : list textinput) : Z :=
  match focused_index 0 l with Some i => (i + 1) mod Z.of_nat (length l) | None => 0 end.
Definition prevInput (l : list textinput) : Z :=
  match focused_index 0 l with Some i => (i - 1 + Z.of_nat (length l)) mod Z.of_nat (length l) | None => 0 end.

(** [m.inputs[i].Focus()] *)
Definition focus (i : Z) : tm unit :=
  let? l := tget m_inputs in
  let? x := index l i in tput (put_inputs (<[Z.to_nat i := ti_Focus x]> l)).

Definition updateInputs (msg : Msg) : tm Cmd :=
  tput (fun m => put_inputs (map (ti_Update msg) (m_inputs m)) m) ;? tret WidgetCmd.

Definition updateInput (i : inputs) (msg : Msg) : tm Cmd :=
  match msg with
  | KeyMsg k =>
      match k_Type k with
      | KeyEsc => tput (put_state stateWelcome) ;? tret NoCmd
      | KeyEnter =>
          let? mode := tget m_mode in
          let? l := tget m_inputs in
          let? x := index l 0 in
          let? empty :=
            (if bool_decide (ti_Value x = []) then tret true
             else if bool_decide (mode = modeRelayDial)
             then let? y := index l 1 in tret (bool_decide (ti_Value y = [])) else tret false) in
          if empty : bool then tret NoCmd else tput (put_state stateConnecting) ;? startConnect i
      | KeyTab => let? l := tget m_inputs in focus (nextInput l) ;? tret NoCmd
      | KeyShiftTab => let? l := tget m_inputs in focus (prevInput l) ;? tret NoCmd
      | _ => updateInputs msg
      end
  | _ => updateInputs msg
  end.

Definition updateConnecting (msg : Msg) : tm Cmd :=
  match msg with
  | KeyMsg k =>
      if bool_decide (k_Type k = KeyEsc) then cancelConnect ;? tput (put_state stateWelcome) ;? tret NoCmd else tret NoCmd
  | _ => tret NoCmd
  end.

(** ** The verification (welcome.go) *)

Definition accept_key (k : key) : bool :=
  bool_decide (k_Type k = KeyEnter) || bool_decide (k_String k ∈ [str "y"; str "Y"]).
Definition reject_key (k : key) : bool :=
  bool_decide (k_Type k = KeyEsc) || bool_decide (k_String k ∈ [str "n"; str "N"]).

Definition rejected_error : error := errorf "peer verification rejected".

(** [m.verifyReq.responseCh <- v; m.verifyReq = nil] *)
Definition answer (v : option error) : tm unit :=
  let? r := tget m_verifyReq in
  match r with
  | None => tpanic
  | Some r => send_verdict (vr_responseCh r) v ;? tput (put_verifyReq None)
  end.

(** A server goes on waiting for connections. *)
Definition verified (v : option error) (client : model -> model) : tm Cmd :=
  answer v ;?
  let? srv := tget m_srv in
  match srv with
  | Some _ =>
      tput (put_state stateConnecting) ;?
      let? ctx := tget m_connCtx in let? ch := tget m_connCh in tret (waitConnCmd ctx ch true)
  | None => tput client ;? tret NoCmd
  end.

(** The test for Esc in the second branch never holds: the key is Enter or a rune. *)
Definition updateVerify (msg : Msg) : tm Cmd :=
  match msg with
  | KeyMsg k =>
      match k_Type k with
      | KeyEnter | KeyRunes =>
          if accept_key k then verified None (put_state stateConnecting)
          else if reject_key k then
            verified (Some rejected_error) (fun m => put_connectErr (Some rejected_error) (put_state stateWelcome m))
          else tret NoCmd
      | _ => tret NoCmd
      end
  | _ => tret NoCmd
  end.

(** ** The history (history.go) *)

Definition updateHistory (msg : Msg) : tm Cmd :=
  let up := tput (fun m => if negb (m_histViewing m) && (0 <? m_histCursor m) then put_histCursor (m_histCursor m - 1) m else m) in
  let down := tput (fun m => if negb (m_histViewing m) && (m_histCursor m <? Z.of_nat (length (m_sessions m)) - 1)
                             then put_histCursor (m_histCursor m + 1) m else m) in
  let rest := tput (fun m => if m_histViewing m then put_histVP (vp_Update msg (m_histVP m)) m else m) ;?
              let? viewing := tget m_histViewing in tret (if viewing : bool then WidgetCmd else NoCmd) in
  match msg with
  | KeyMsg k =>
      match k_Type k with
      | KeyEsc =>
          let? viewing := tget m_histViewing in
          (if viewing : bool then tput (fun m => put_histMsgs [] (put_histViewing false m))
           else tput (put_state stateWelcome)) ;? tret NoCmd
      | KeyUp => up ;? rest
      | KeyDown => down ;? rest
      | KeyEnter =>
          let? viewing := tget m_histViewing in let? l := tget m_sessions in
          if negb viewing && (0 <? Z.of_nat (length l)) then
            let? c := tget m_histCursor in let? s := index l c in tret (loadSessionMessagesCmd (ss_ID s))
          else rest
      | KeyRunes =>
          let ch := k_String k in
          let? viewing := tget m_histViewing in let? c := tget m_histCursor in let? l := tget m_sessions in
          if bool_decide (ch = str "k") && negb viewing && (0 <? c) then up ;? rest
          else if bool_decide (ch = str "j") && negb viewing && (c <? Z.of_nat (length l) - 1) then down ;? rest
          else if bool_decide (ch = str "q") && negb viewing then tput (put_state stateWelcome) ;? tret NoCmd
          else rest
      | _ => rest
      end
  | WindowSizeMsg w h =>
      tput (fun m => if m_histViewing m && (0 <? vp_Width (m_histVP m))
                     then put_histVP (vp_Resize (w - 2) (h - 4) (m_histVP m)) m else m) ;? rest
  | _ => rest
  end.

(** The commands [loadSessions] and [loadSessionMessages]. *)
Definition loadSessions : tm Msg := let? r := scall ListSessionsByRecent in tret (historySessionsMsg r).

Definition entry_text (zone : Z) (e : ChatEntry) : text :=
  [P "["; PB (DateTime zone (ce_Timestamp e)); P "] "; P (if ce_Sender e =? SenderLocal then "You" else "Peer"); P ": ";
   PB (ce_Data e)].

Definition loadSessionMessages (sessionID : bytes) : tm Msg :=
  let? entries := scall_opt (GetChatHistory sessionID) in
  match entries with
  | Err e => tret (historyMessagesMsg sessionID [[P "Error loading messages: "; PE e]])
  | Ok [] => tret (historyMessagesMsg sessionID [[P "(no messages)"]])
  | Ok es => fun w => Some (historyMessagesMsg sessionID (map (entry_text (w_zone w)) es), w)
  end.

(** ** [Update] *)

Definition returned (m : tm Cmd) : tm handled := let? c := m in tret (Returned c).

(** The handler of the current screen. *)
Definition update_screen (i : inputs) (msg : Msg) : tm handled :=
  let? st := tget m_state in
  match st with
  | stateWelcome => returned (updateWelcome msg)
  | stateInput => returned (updateInput i msg)
  | stateConnecting => returned (updateConnecting msg)
  | stateVerify => returned (updateVerify msg)
  | stateChat => updateChat i msg
  | stateHistory => returned (updateHistory msg)
  end.

(** Whether [strings.Join(messages, "\n")] is empty. *)
Definition blank_piece (p : piece) : bool :=
  match p with P s => bool_decide (s = EmptyString) | PB b => bool_decide (b = []) | PE _ => false end.
Definition blank (l : list text) : bool := match l with [] => true | [t] => forallb blank_piece t | _ => false end.

Definition Update (i : inputs) (msg : Msg) : tm handled :=
  let none := tret (Returned NoCmd) in
  let only_in s (m : tm handled) := let? st := tget m_state in if bool_decide (st = s) then m else none in
  match msg with
  | connectedMsg t _ ttl =>
      tput (put_transport (Some t)) ;?
      (if 0 <? ttl then tput (put_relaySessionTTL ttl) else tret tt) ;?
      returned enterChat
  | connectFailedMsg e =>
      only_in stateConnecting (tput (put_connectErr (Some e)) ;? cancelConnect ;? tput (put_state stateWelcome) ;? none)
  | verifyMsg r => only_in stateConnecting (tput (fun m => put_verifyReq (Some r) (put_state stateVerify m)) ;? none)
  | tickMsg =>
      let? st := tget m_state in let? expiry := tget m_sessionExpiry in
      tret (Returned (if bool_decide (st = stateChat) && negb (is_zero_time expiry) then Tick else NoCmd))
  | relayReadyMsg token ttl => tput (fun m => put_relayToken (Some token) (put_relaySessionTTL ttl m)) ;? none
  | chatMessageMsg _ txt ts => handleChatMessage txt ts ;? none
  | peerDisconnectedMsg =>
      only_in stateChat (add_line [Styled highlight [P "Peer disconnected. Press Esc to return."]] ;? none)
  | receiveErrorMsg e => only_in stateChat (add_line [Styled err_ [P "Error: "; PE e]] ;? none)
  | historySessionsMsg (Err e) => tput (fun m => put_connectErr (Some e) (put_state stateWelcome m)) ;? none
  | historySessionsMsg (Ok l) =>
      tput (fun m => put_sessions l (put_histCursor 0 (put_state stateHistory m))) ;? none
  | historyMessagesMsg _ ms =>
      tput (fun m => put_histMsgs ms (put_histViewing true m)) ;?
      tput (fun m => put_histVP (vp_SetContent
              (AsIs (if blank ms then [[P "(no messages)"]] else ms))
              (vp_New (m_width m - 2) (m_height m - 4))) m) ;? none
  | historyLoadedMsg ls =>
      only_in stateChat (tput (fun m => put_messages (ls ++ m_messages m) m) ;? show_messages ;? none)
  | WindowSizeMsg w h => tput (fun m => put_height h (put_width w m)) ;? update_screen i msg
  | KeyMsg k => if bool_decide (k_Type k = KeyCtrlC) then leave ThenQuit else update_screen i msg
  | OtherMsg => update_screen i msg
  end.

End handlers.

(** ** [View] *)

(** A screen: lines, inside a padding or not; a widget draws itself. *)
Inductive part := Line (l : line) | Drawn (b : bytes).
Record view := mkView { v_padded : bool; v_parts : list part }.

Section views.
Context `{Crypto} `{ProtoRuntime} `{Bolt} `{Bubbles}.

Definition viewWelcome (m : model) : view :=
  mkView true ([Line [Styled title [P " Kamune Chat (TUI)"]]; Line []] ++
    imap (fun i item =>
      let here := Z.of_nat i =? m_cursor m in
      Line [Plain [P (if here then "▸ " else "  ")]; Styled muted [P "("; PB (Itoa (Z.of_nat i + 1)); P ")"]; Plain [P " "];
            Styled (if here then bold else muted) [P item]]) menuItems ++
    match m_connectErr m with Some e => [Line []; Line [Styled err_ [P "Error: "; PE e]]] | None => [] end ++
    [Line []; Line [Plain [P "  Select with ↑↓ or number key"]]]).

Definition mode_label (mode : inputMode) : string :=
  match mode with
  | modeDirectDial => "Direct Connect" | modeDirectServe => "Start Server"
  | modeRelayDial => "Connect via Relay" | modeRelayServe => "Start Relay Server"
  end.

Definition viewInput (m : model) : view :=
  mkView true ([Line [Styled title [P " "; P (mode_label (m_mode m))]]; Line []] ++ map (fun ti => Drawn (ti_View ti)) (m_inputs m) ++
    [Line []; Line [Styled muted [P "[Enter] connect  [Esc] back  [Tab] next field"]]]).

(** [m.inputs[0]] panics if there is no input. *)
Definition viewConnecting (m : model) : option view :=
  match m_inputs m with
  | [] => None
  | ti :: _ =>
      let label := match m_mode m with
                   | modeDirectDial => "Dialing " | modeDirectServe => "Listening on "
                   | modeRelayDial => "Connecting via relay " | modeRelayServe => "Relay server on "
                   end%string in
      let token := match m_mode m, m_relayToken m with
                   | modeRelayServe, Some token =>
                       [Line []; Line [Plain [P "Token: "]; Styled highlight [PB (hex token)]]; Line [];
                        Line [Styled muted [P "Share this token with your peer."]]]
                   | _, _ => []
                   end in
      Some (mkView true ([Line [Styled title [P " Connecting..."]]; Line []; Line [Plain [P label; PB (ti_Value ti)]]] ++
              token ++ [Line []; Line [Styled muted [P "[Esc] cancel"]]]))
  end.

Definition viewVerify (m : model) : view :=
  match m_verifyReq m with
  | None => mkView false []
  | Some r =>
      let name := match Name (vr_peer r) with [] => str "(unnamed)" | n => n end in
      mkView true [Line [Styled title [P " Verify Peer Identity"]]; Line [];
        Line [Plain [P "Connection from: "]; Styled bold [PB name]];
        Line [Plain [P "App version: "; PB (AppVersionOf (vr_peer r))]]; Line [];
        Line [Plain [P "Emoji fingerprint:"]]; Line [Plain [P "  "; PB (vr_emojiFP r)]]; Line [];
        Line [Plain [P "Hex fingerprint:"]]; Line [Plain [P "  "]; Styled muted [PB (vr_hexFP r)]]; Line [];
        Line [if vr_isNew r then Styled highlight [P "⚠ This peer is not known to you."]
              else Styled good [P "✓ This peer has connected before."]]; Line [];
        Line [Plain [P "  [Y] Accept  [N] Reject  [Esc] Back"]]]
  end.

(** [now] is the time of drawing. *)
Definition viewChat (now : Z) (m : model) : view :=
  mkView false
    ((if is_zero_time (m_sessionExpiry m) then []
      else let remaining := m_sessionExpiry m - now in
           if 0 <? remaining
           then [Line [Styled muted [P "Session expires in "; PB (duration_String (round_second remaining))]]]
           else [Line [Styled err_ [P "Session expired"]]]) ++
     [Drawn (vp_View (m_vp m)); Line []; Drawn (ta_View (m_ta m))]).

Definition session_line (zone : Z) (here : bool) (s : SessionSummary) : part :=
  let sid := if 16 <? blen (ss_ID s) then btake 16 (ss_ID s) ++ str "..." else ss_ID s in
  let name := match ss_Name s with [] => sid | n => n end in
  Line [Plain [P (if here then "▸ " else "  ")]; Styled bold [PB name]; Plain [P "  "];
        Styled muted [PB (Itoa (ss_MessageCount s)); P " msgs"]; Plain [P "  "];
        Styled muted [PB (DateTime zone (ss_LastMessage s))]].

Definition viewHistoryList (zone : Z) (m : model) : view :=
  mkView true ([Line [Styled title [P " Chat History"]]; Line []] ++
    match m_sessions m with
    | [] => [Line [Styled muted [P "No chat history found."]]; Line []; Line [Styled muted [P "[Esc] back"]]]
    | l => imap (fun i s => session_line zone (Z.of_nat i =? m_histCursor m) s) l ++
           [Line []; Line [Styled muted [P "[Enter] view  [Esc/q] back"]]]
    end).

Definition viewHistory (zone : Z) (m : model) : view :=
  if m_histViewing m then mkView false [Drawn (vp_View (m_histVP m))] else viewHistoryList zone m.

Definition View (zone now : Z) (m : model) : option view :=
  match m_state m with
  | stateWelcome => Some (viewWelcome m)
  | stateInput => Some (viewInput m)
  | stateConnecting => viewConnecting m
  | stateVerify => Some (viewVerify m)
  | stateChat => Some (viewChat now m)
  | stateHistory => Some (viewHistory zone m)
  end.

End views.
