(* ===== verification/TuiLaws.v ===== *)
(** * The terminal application: its handlers return

    [wf]: what the handlers rely on.  The cursor is on an item of the menu, the
    input fields are those of the mode, a verification screen has a request, a chat
    has a transport, and [doneCh] is open.  [truns I m]: from every world with [I],
    [m] returns and [I] holds again. *)

From S2P Require Import Prelude GoErr Strconv TimeFormat Encoding Process Wire Pb Route Version Crypto Fingerprint Enigma Serde Transport Bolt Engine Storage DaemonNet NetIP BrokerCodec Daemon DaemonP2P Tui.
#[local] Open Scope tm_scope.

Section laws.
Context `{Crypto} `{ProtoRuntime} `{Bolt} `{Bubbles}.

(** How many fields a mode has. *)
Definition fields (mode : inputMode) : nat := match mode with modeRelayDial => 2 | _ => 1 end.

Definition has_fields (s : appState) : bool :=
  match s with stateInput | stateConnecting | stateVerify => true | _ => false end.

Record wf (w : world) : Prop := mkWf {
  wf_cursor : 0 <= m_cursor (w_m w) < menu_len;
  wf_inputs : has_fields (m_state (w_m w)) = true -> length (m_inputs (w_m w)) = fields (m_mode (w_m w));
  wf_verify : m_state (w_m w) = stateVerify -> m_verifyReq (w_m w) <> None;
  wf_chat : m_state (w_m w) = stateChat -> m_transport (w_m w) <> None;
  wf_history : 0 <= m_histCursor (w_m w) /\
    (m_sessions (w_m w) <> [] -> m_histCursor (w_m w) < Z.of_nat (length (m_sessions (w_m w))));
  wf_done : match m_doneCh (w_m w) with Some d => d ∉ w_closed w /\ (d < w_next w)%nat | None => True end;
  wf_closed : Forall (fun c => (c < w_next w)%nat) (w_closed w)
}.

(** ** Running handlers *)

Definition truns (I : world -> Prop) {A} (m : tm A) : Prop :=
  forall w, I w -> exists a w', m w = Some (a, w') /\ I w'.

Lemma truns_ret {A} I (a : A) : truns I (tret a).
Proof. intros w Hw. by exists a, w. Qed.

Lemma truns_get {A} I (f : model -> A) : truns I (tget f).
Proof. intros w Hw. by exists (f (w_m w)), w. Qed.

Lemma truns_bind {A B} I (m : tm A) (k : A -> tm B) : truns I m -> (forall a, truns I (k a)) -> truns I (tbind m k).
Proof. intros Hm Hk w Hw. destruct (Hm w Hw) as (a & w1 & E & Hw1). unfold tbind. rewrite E. by apply Hk. Qed.

Lemma truns_put I f : (forall w, I w -> I (upd f w)) -> truns I (tput f).
Proof. intros Hf w Hw. exists tt, (upd f w). auto. Qed.

(** A call of the storage that returns leaves the rest alone. *)
Lemma truns_scall {A} (f : go store A) : truns wf (scall f).
Proof.
  intros w [? ? ? ? ? ? ?]. unfold scall, scall_opt. destruct (f (w_store w)) as [r s]. eexists _, _. by split.
Qed.

Lemma truns_now : truns wf tui_now.
Proof. intros w [? ? ? ? ? ? ?]. eexists _, _. by split. Qed.

Lemma truns_start j : truns wf (go_start j).
Proof. intros w [? ? ? ? ? ? ?]. eexists _, _. by split. Qed.

Lemma truns_if_some {A} I (o : option A) k : (forall a, truns I (k a)) -> truns I (if_some o k).
Proof. intros Hk. destruct o as [a|]; [apply Hk|apply truns_ret]. Qed.

(** A new channel is open. *)
Lemma truns_fresh {A} (k : nat -> tm A) :
  (forall c w, wf w -> c ∉ w_closed w -> (c < w_next w)%nat -> exists a w', k c w = Some (a, w') /\ wf w') ->
  truns wf (let? c := fresh in k c).
Proof.
  intros Hk w Hw. unfold tbind, fresh. apply Hk; cbn.
  - destruct Hw as [? ? ? ? ? Hd Hc]. split; cbn; try done.
    + destruct (m_doneCh (w_m w)); [|done]. destruct Hd. split; [done|lia].
    + eapply Forall_impl; [done|]. cbn. lia.
  - intros Hc. pose proof (wf_closed w Hw) as Hf. rewrite Forall_forall in Hf. specialize (Hf _ Hc). lia.
  - lia.
Qed.

End laws.

(** ** Automation *)

(** A write to the model that keeps [wf]. *)
Ltac twf :=
  intros [[] ? ? ? ? ? ? ? ? ? ? ?] [? ? ? ? ? ? ?]; split; cbn in *;
  first [done | lia | by intros; simplify_eq | (intros; simplify_eq; by eauto)].

Ltac truns_step :=
  match goal with
  | |- truns _ (tret _) => apply truns_ret
  | |- truns _ (tget _) => apply truns_get
  | |- truns _ (tput _) => apply truns_put; twf
  | |- truns _ (scall _) => apply truns_scall
  | |- truns _ tui_now => apply truns_now
  | |- truns _ (go_start _) => apply truns_start
  | |- truns _ (if_some _ _) => apply truns_if_some; intros ?
  | |- truns _ (tbind _ _) => apply truns_bind; [|intros ?]
  | |- truns _ (match ?x with _ => _ end) => destruct x
  | |- truns _ (if ?x then _ else _) => destruct x
  end.
Ltac truns_auto := repeat (truns_step || solve [auto]).

Section handlers.
Context `{Crypto} `{ProtoRuntime} `{Bolt} `{Bubbles}.

(** ** Handlers *)

Lemma cancel_ctx_runs c : truns wf (cancel_ctx c).
Proof. intros w [? ? ? ? ? ? ?]. eexists _, _. by split. Qed.

Lemma stop_server_runs c : truns wf (stop_server c).
Proof. intros w [? ? ? ? ? ? ?]. eexists _, _. by split. Qed.

Lemma add_line_runs l : truns wf (add_line l).
Proof. unfold add_line, show_messages. truns_auto. Qed.

Lemma cancelConnect_runs : truns wf cancelConnect.
Proof. pose proof cancel_ctx_runs. pose proof stop_server_runs. unfold cancelConnect. truns_auto. Qed.

(** ** From one world

    [tends w m]: [m] returns from [w]; the rules run it forward. *)

Definition tends (w : world) {A} (m : tm A) : Prop := exists a w', m w = Some (a, w') /\ wf w'.

Lemma tends_runs {A} w (m : tm A) : truns wf m -> wf w -> tends w m.
Proof. intros Hm Hw. by apply Hm. Qed.

Lemma tends_get {A B} w (f : model -> A) (k : A -> tm B) : tends w (k (f (w_m w))) -> tends w (let? x := tget f in k x).
Proof. done. Qed.

Lemma tends_put {B} w f (k : tm B) : tends (upd f w) k -> tends w (tput f ;? k).
Proof. done. Qed.

Lemma tends_bind {A B} w (m : tm A) (k : A -> tm B) :
  tends w m -> (forall a w', wf w' -> tends w' (k a)) -> tends w (tbind m k).
Proof. intros (a & w1 & E & Hw1) Hk. unfold tends, tbind. rewrite E. by apply Hk. Qed.

Lemma tends_ret {A} w (a : A) : wf w -> tends w (tret a).
Proof. intros Hw. by exists a, w. Qed.

Lemma tends_index {A B} w (l : list A) i (k : A -> tm B) :
  0 <= i < Z.of_nat (length l) -> (forall a, tends w (k a)) -> tends w (let? x := index l i in k x).
Proof.
  intros Hi Hk. unfold tends, tbind, index. destruct (Z.ltb_spec i 0); [lia|].
  destruct (lookup_lt_is_Some_2 l (Z.to_nat i)) as [a ->]; [lia|]. apply Hk.
Qed.

Lemma selectMode_runs idx w : wf w -> 0 <= idx < menu_len -> tends w (selectMode idx).
Proof.
  intros Hw Hi. change menu_len with 6 in Hi. unfold selectMode.
  assert (Hidx : idx = 0 \/ idx = 1 \/ idx = 2 \/ idx = 3 \/ idx = 4 \/ idx = 5) by lia.
  destruct w as [[] ? ? ? ? ? ? ? ? ? ? ?], Hw as [? ? ? ? ? ? ?].
  destruct Hidx as [->|[->|[->|[->|[->| ->]]]]]; cbn [Z.eqb Pos.eqb];
    repeat apply tends_put; apply tends_ret; by split.
Qed.

Lemma move_cursor_runs d : truns wf (move_cursor d).
Proof.
  unfold move_cursor. apply truns_bind; [|intros; truns_auto]. apply truns_put.
  intros [[] ? ? ? ? ? ? ? ? ? ? ?] [? ? ? ? ? ? ?]. split; cbn in *; try done. apply Z.mod_pos_bound. done.
Qed.

(** A key from "1" to "6" names an item of the menu. *)
Lemma menu_key x r :
  bytes_leb (str "1") (x :: r) && bytes_leb (x :: r) (str "6") = true -> 0 <= (bval x - 49) mod 256 < menu_len.
Proof.
  change (str "1") with [Byte.x31]. change (str "6") with [Byte.x36]. change menu_len with 6. cbn [bytes_leb].
  change (bval Byte.x31) with 49. change (bval Byte.x36) with 54. intros Hx.
  rewrite Z.mod_small; destruct (Z.ltb_spec 49 (bval x)), (Z.eqb_spec 49 (bval x)), (Z.ltb_spec (bval x) 54),
    (Z.eqb_spec (bval x) 54); cbn in Hx; (discriminate || lia).
Qed.

Lemma updateWelcome_runs msg : truns wf (updateWelcome msg).
Proof.
  pose proof move_cursor_runs. destruct msg as [| | | | | | | | | | | |k|]; try apply truns_ret.
  cbn [updateWelcome]. destruct (k_Type k); try solve [truns_auto].
  - intros w Hw. apply tends_get. apply selectMode_runs; [done|apply Hw].
  - destruct (k_String k) as [|x r] eqn:Ek; [change (bytes_leb (str "1") []) with false; cbn [andb]; truns_auto|].
    destruct (bool_decide _); [truns_auto|]. destruct (bool_decide _); [truns_auto|].
    destruct (bytes_leb _ _ && bytes_leb _ _) eqn:Hx; [|truns_auto].
    intros w Hw. apply selectMode_runs; [done|]. by apply menu_key in Hx.
Qed.

(** *** Connecting *)

Lemma startConnect_runs i w :
  wf w -> m_state (w_m w) = stateConnecting -> tends w (startConnect i).
Proof.
  intros Hw Hs. pose proof (wf_inputs w Hw) as Hf. rewrite Hs in Hf. specialize (Hf eq_refl).
  destruct w as [[] ? ? ? ? ? ? ? ? ? ? ?], Hw as [? ? ? ? ? Hdone Hcl]. cbn in *.
  assert (Hnew : w_next ∉ w_closed /\ S w_next ∉ w_closed /\ S (S w_next) ∉ w_closed).
  { rewrite Forall_forall in Hcl. split_and!; intros Hc; specialize (Hcl _ Hc); lia. }
  assert (Hcl' : forall n, Forall (fun c => (c < n + w_next)%nat) w_closed)
    by (intros n; eapply Forall_impl; [exact Hcl|cbn; lia]).
  destruct Hnew as (? & ? & ?). unfold startConnect, tends, tbind, fresh, tput, tget, go_start, index, tui_serve, map_err, tret.
  cbn. destruct m_mode; cbn in Hf.
  - eexists _, _. split; [reflexivity|]. split; cbn; try done; [|apply (Hcl' 1%nat)]. destruct m_doneCh; [|done].
    destruct Hdone. split; [done|lia].
  - destruct m_inputs as [|x []]; try discriminate. cbn. destruct (in_NewServer i); cbn;
      (eexists _, _; split; [reflexivity|]; split; cbn; try done; [split; [done|lia]|apply (Hcl' 3%nat)]).
  - destruct m_inputs as [|x [|y []]]; try discriminate. cbn. eexists _, _. split; [reflexivity|].
    split; cbn; try done; [|apply (Hcl' 1%nat)]. destruct m_doneCh; [|done]. destruct Hdone. split; [done|lia].
  - destruct m_inputs as [|x []]; try discriminate. cbn. eexists _, _. split; [reflexivity|].
    split; cbn; try done; [split; [done|lia]|apply (Hcl' 3%nat)].
Qed.

Lemma focused_index_range l : forall i j, focused_index i l = Some j -> i <= j < i + Z.of_nat (length l).
Proof.
  induction l as [|x l IH]; intros i j Hj; [done|]. cbn [focused_index length] in *.
  destruct (ti_Focused x); [simplify_eq; lia|]. apply IH in Hj. lia.
Qed.

Lemma nextInput_range l : l <> [] -> 0 <= nextInput l < Z.of_nat (length l).
Proof.
  intros Hl. assert (0 < Z.of_nat (length l)) by (destruct l; [done|cbn; lia]).
  unfold nextInput. destruct (focused_index 0 l); [by apply Z.mod_pos_bound|lia].
Qed.

Lemma prevInput_range l : l <> [] -> 0 <= prevInput l < Z.of_nat (length l).
Proof.
  intros Hl. assert (0 < Z.of_nat (length l)) by (destruct l; [done|cbn; lia]).
  unfold prevInput. destruct (focused_index 0 l); [by apply Z.mod_pos_bound|lia].
Qed.

(** The fields of the input screen stay the fields of the mode. *)
Lemma set_inputs_wf l w : wf w -> length l = length (m_inputs (w_m w)) -> wf (upd (put_inputs l) w).
Proof.
  destruct w as [[] ? ? ? ? ? ? ? ? ? ? ?]. intros [? ? ? ? ? ? ?] Hl. split; cbn in *; try done. by rewrite Hl.
Qed.

Lemma focus_runs i w : wf w -> 0 <= i < Z.of_nat (length (m_inputs (w_m w))) -> tends w (focus i ;? tret NoCmd).
Proof.
  intros Hw Hi. unfold focus. apply (tends_bind w (let? l := tget m_inputs in _)); [|intros; by apply tends_ret].
  apply tends_get, tends_index; [done|]. intros x. eexists _, _. split; [reflexivity|].
  apply set_inputs_wf; [done|]. apply length_insert.
Qed.

Lemma updateInputs_runs msg : truns wf (updateInputs msg).
Proof.
  unfold updateInputs. apply truns_bind; [|intros; truns_auto]. apply truns_put. intros w Hw.
  refine (set_inputs_wf (map (ti_Update msg) (m_inputs (w_m w))) w Hw _). apply length_map.
Qed.

Lemma put_state_wf s w :
  wf w -> s <> stateVerify -> s <> stateChat -> (has_fields s = true -> has_fields (m_state (w_m w)) = true) ->
  wf (upd (put_state s) w).
Proof.
  destruct w as [[] ? ? ? ? ? ? ? ? ? ? ?]. intros [? ? ? ? ? ? ?] Hv Hc Hs. split; cbn in *; try done. auto.
Qed.

Lemma updateInput_runs i msg w : wf w -> m_state (w_m w) = stateInput -> tends w (updateInput i msg).
Proof.
  intros Hw Hs. pose proof (wf_inputs w Hw) as Hf. rewrite Hs in Hf. specialize (Hf eq_refl).
  assert (Hl : m_inputs (w_m w) <> []) by (intros E; rewrite E in Hf; by destruct (m_mode (w_m w))).
  assert (Hu : tends w (updateInputs msg)) by (by apply tends_runs; [apply updateInputs_runs|]).
  destruct msg as [| | | | | | | | | | | |k|]; try exact Hu. cbn [updateInput]. destruct (k_Type k); try exact Hu.
  - do 2 apply tends_get. apply tends_index; [destruct (m_inputs (w_m w)); [done|cbn; lia]|]. intros x.
    assert (Hgo : tends w (tput (put_state stateConnecting) ;? startConnect i)).
    { apply tends_put, startConnect_runs; [|done]. apply put_state_wf; by rewrite ?Hs. }
    assert (Hstay : tends w (tret NoCmd)) by by apply tends_ret.
    unfold tends, tbind at 1. destruct (bool_decide (ti_Value x = [])); [exact Hstay|].
    destruct (bool_decide_reflect (m_mode (w_m w) = modeRelayDial)) as [Em|]; [|exact Hgo].
    rewrite Em in Hf. destruct (m_inputs (w_m w)) as [|a [|b []]]; try discriminate.
    change ((let? y := index [a; b] 1 in tret (bool_decide (ti_Value y = []))) w) with (Some (bool_decide (ti_Value b = []), w)).
    destruct (bool_decide (ti_Value b = [])); [exact Hstay|exact Hgo].
  - apply tends_get, focus_runs; [done|by apply nextInput_range].
  - apply tends_get, focus_runs; [done|by apply prevInput_range].
  - apply tends_put, tends_ret, put_state_wf; by rewrite ?Hs.
Qed.

Lemma updateConnecting_runs msg : truns wf (updateConnecting msg).
Proof.
  pose proof cancelConnect_runs. unfold updateConnecting. destruct msg; try apply truns_ret.
  destruct (bool_decide _); [|apply truns_ret]. apply truns_bind; [done|intros _].
  apply truns_bind; [|intros; truns_auto]. apply truns_put. intros w Hw. by apply put_state_wf.
Qed.

Lemma verified_runs v client w :
  wf w -> m_state (w_m w) = stateVerify ->
  (client = put_state stateConnecting \/ client = (fun m => put_connectErr (Some rejected_error) (put_state stateWelcome m))) ->
  tends w (verified v client).
Proof.
  intros Hw Hs Hc. pose proof (wf_verify w Hw Hs) as Hv. pose proof (wf_inputs w Hw) as Hf.
  destruct w as [[] ? ? ? ? ? ? ? ? ? ? ?], Hw as [? ? ? ? ? ? ?]. cbn in *. subst. specialize (Hf eq_refl).
  destruct m_verifyReq as [r|]; [|done].
  unfold tends, verified, answer, tbind, tget, send_verdict, tput, tret. cbn.
  destruct m_srv; [|destruct Hc as [-> | ->]]; (eexists _, _; split; [reflexivity|]; by split).
Qed.

Lemma updateVerify_runs msg w : wf w -> m_state (w_m w) = stateVerify -> tends w (updateVerify msg).
Proof.
  intros Hw Hs. assert (Hn : tends w (tret NoCmd)) by by apply tends_ret.
  destruct msg as [| | | | | | | | | | | |k|]; try exact Hn. cbn [updateVerify].
  destruct (k_Type k); try exact Hn;
    (destruct (accept_key k); [apply verified_runs; auto|]; destruct (reject_key k); [apply verified_runs; auto|exact Hn]).
Qed.

(** *** The history *)

Lemma upd_if_wf (b : model -> bool) f w : wf w -> wf (upd f w) -> wf (upd (fun m => if b m then f m else m) w).
Proof.
  intros Hw Hf. unfold upd. destruct (b (w_m w)) eqn:E; [exact Hf|]. by destruct w.
Qed.

Lemma put_histVP_wf f w : wf w -> wf (upd (fun m => put_histVP (f m) m) w).
Proof. intros [? ? ? ? ? ? ?]. by split. Qed.

Lemma hist_move_wf (d : Z) (b : bool) w :
  wf w -> (b = true -> 0 <= m_histCursor (w_m w) + d /\
    (m_sessions (w_m w) <> [] -> m_histCursor (w_m w) + d < Z.of_nat (length (m_sessions (w_m w))))) ->
  wf (upd (fun m => if b then put_histCursor (m_histCursor m + d) m else m) w).
Proof.
  destruct w as [[] ? ? ? ? ? ? ? ? ? ? ?]. intros [? ? ? ? ? ? ?] Hb. destruct b; split; cbn in *; auto.
Qed.

Lemma updateHistory_runs msg : truns wf (updateHistory msg).
Proof.
  assert (Hrest : truns wf (tput (fun m => if m_histViewing m then put_histVP (vp_Update msg (m_histVP m)) m else m) ;?
                            let? viewing := tget m_histViewing in tret (if viewing : bool then WidgetCmd else NoCmd))).
  { apply truns_bind; [|intros; truns_auto]. apply truns_put.
    intros w Hw. by apply upd_if_wf, put_histVP_wf. }
  assert (Hup : truns wf (tput (fun m => if negb (m_histViewing m) && (0 <? m_histCursor m)
                                         then put_histCursor (m_histCursor m - 1) m else m))).
  { apply truns_put. intros w Hw. destruct (wf_history w Hw) as [Hlo Hhi].
    apply (hist_move_wf (-1) (negb (m_histViewing (w_m w)) && (0 <? m_histCursor (w_m w))) w Hw).
    intros Hb. apply andb_true_iff in Hb as [_ Hb]. split; [lia|intros Hn; specialize (Hhi Hn); lia]. }
  assert (Hdown : truns wf (tput (fun m => if negb (m_histViewing m) && (m_histCursor m <? Z.of_nat (length (m_sessions m)) - 1)
                                           then put_histCursor (m_histCursor m + 1) m else m))).
  { apply truns_put. intros w Hw. destruct (wf_history w Hw) as [Hlo Hhi].
    apply (hist_move_wf 1 (negb (m_histViewing (w_m w)) && (m_histCursor (w_m w) <? Z.of_nat (length (m_sessions (w_m w))) - 1)) w Hw).
    intros Hb. apply andb_true_iff in Hb as [_ Hb]. split; [lia|intros Hn; specialize (Hhi Hn); lia]. }
  assert (Hwel : truns wf (tput (put_state stateWelcome))) by (apply truns_put; intros; by apply put_state_wf).
  destruct msg as [| | | | | | | | | | |x y|k|]; cbn [updateHistory]; try exact Hrest.
  - apply truns_bind; [|auto]. apply truns_put.
    intros w Hw. by apply upd_if_wf, put_histVP_wf.
  - destruct (k_Type k); try exact Hrest; try (apply truns_bind; auto; fail).
    + intros w Hw. do 2 apply tends_get. destruct (negb _ && _) eqn:E; [|by apply Hrest].
      apply tends_get, tends_index; [|intros; by apply tends_ret]. apply andb_true_iff in E as [_ E].
      destruct (wf_history w Hw) as [? Hh]. split; [done|]. apply Hh. intros El. rewrite El in E. done.
    + intros w Hw. do 3 apply tends_get.
      destruct (_ && _); [by apply truns_bind; auto|]. destruct (_ && _); [by apply truns_bind; auto|].
      destruct (_ && _); [|by apply Hrest]. apply (truns_bind wf); [done|intros; truns_auto|done].
    + apply truns_bind; [truns_auto|intros viewing]. apply truns_bind; [destruct viewing|intros; truns_auto]; truns_auto.
Qed.

(** *** Leaving *)

Lemma cleanup_begin_runs : truns wf cleanup_begin.
Proof.
  unfold cleanup_begin. apply truns_bind.
  { pose proof cancel_ctx_runs. truns_auto. }
  intros _. apply truns_bind; [|intros; truns_auto]. intros w Hw. apply tends_get.
  destruct w as [m ? ? ? ? ? ? ? ? ? ? ?], Hw as [? ? ? ? ? Hd ?]. cbn in *. destruct (m_doneCh m) as [d|] eqn:Em; cbn [if_some].
  - destruct Hd as [Hd1 Hd2]. unfold tends, tbind, close_chan. cbn. rewrite bool_decide_eq_false_2 by done.
    eexists _, _. split; [reflexivity|]. split; cbn; try done. by constructor.
  - eexists _, _. split; [reflexivity|]. split; cbn; try done. by rewrite Em.
Qed.

(** After [cleanup] the program ends or is at the menu again. *)
Lemma resume_returns a w :
  wf w -> exists c w', resume a w = Some (c, w') /\ match a with ThenQuit => c = Quit | ThenWelcome => c = NoCmd /\ wf w' end.
Proof.
  destruct w as [[] ? ? ? ? ? ? ? ? ? ? ?]. intros [? ? ? ? ? ? ?]. cbn in *.
  unfold resume, cleanup_end, tbind, tget, tput, if_some, hang_up, stop_server, tret. cbn.
  destruct m_transport, m_srv, a; (eexists _, _; split; [reflexivity|]); try done; (split; [done|]); by split.
Qed.

Lemma cleanup_begin_waits w done w' : cleanup_begin w = Some (done, w') -> done = m_keepAliveDone (w_m w).
Proof.
  unfold cleanup_begin, cancel_ctx, close_chan, if_some, tbind, tget, tput, tret.
  repeat (cbn; case_match); intros; simplify_eq/=; done.
Qed.

(** The key that leaves a chat or the program. *)
Definition leaving (msg : Msg) (w : world) : option after :=
  match msg with
  | KeyMsg k =>
      if bool_decide (k_Type k = KeyCtrlC) then Some ThenQuit
      else if bool_decide (m_state (w_m w) = stateChat) && bool_decide (k_Type k = KeyEsc) then Some ThenWelcome else None
  | _ => None
  end.

(** How a message is handled: [Update] returns in a well-formed world or quits; or it
    waits for the keep-alive loop of the chat that the user leaves, and returns in
    the same way from wherever the wait ends. *)
Definition handles (msg : Msg) (w : world) (h : handled) (w' : world) : Prop :=
  match h with
  | Returned c => c = Quit \/ wf w'
  | Waiting ch a =>
      leaving msg w = Some a /\ m_keepAliveDone (w_m w) = Some ch /\ ch ∉ w_closed w' /\ wf w' /\
      forall w2, wf w2 -> exists c w3, resume a w2 = Some (c, w3) /\ (c = Quit \/ wf w3)
  end.

Lemma resume_handles a w : wf w -> exists c w', resume a w = Some (c, w') /\ (c = Quit \/ wf w').
Proof.
  intros Hw. destruct (resume_returns a w Hw) as (c & w' & E & Ha). exists c, w'. split; [done|].
  destruct a; [by left|right; by destruct Ha].
Qed.

Lemma leave_returns msg w0 a w :
  wf w -> leaving msg w0 = Some a -> m_keepAliveDone (w_m w) = m_keepAliveDone (w_m w0) ->
  exists h w', leave a w = Some (h, w') /\ handles msg w0 h w'.
Proof.
  intros Hw Ha Hk. destruct (cleanup_begin_runs w Hw) as (done & w1 & E & Hw1). unfold leave, tbind at 1. rewrite E.
  apply cleanup_begin_waits in E as ->.
  assert (Hr : exists h w', (let? c := resume a in tret (Returned c)) w1 = Some (h, w') /\ handles msg w0 h w').
  { destruct (resume_handles a w1 Hw1) as (c & w2 & Er & Hc). exists (Returned c), w2. unfold tbind. by rewrite Er. }
  destruct (m_keepAliveDone (w_m w)) as [ch|] eqn:Ek; [|exact Hr]. case_bool_decide; [exact Hr|].
  exists (Waiting ch a), w1. cbn. split_and!; try done. intros w2 Hw2. by apply resume_handles.
Qed.

(** [prompt m]: [m] does not wait. *)
Definition prompt (m : tm handled) : Prop := forall w h w', m w = Some (h, w') -> exists c, h = Returned c.

Lemma prompt_ret c : prompt (tret (Returned c)).
Proof. intros w h w' [= <- _]. by exists c. Qed.

Lemma prompt_bind {A} (m : tm A) (k : A -> tm handled) : (forall a, prompt (k a)) -> prompt (tbind m k).
Proof. intros Hk w h w'. unfold tbind. destruct (m w) as [[a w1]|]; [|done]. apply Hk. Qed.

Lemma prompt_handles msg w0 w (m : tm handled) :
  prompt m -> tends w m -> exists h w', m w = Some (h, w') /\ handles msg w0 h w'.
Proof. intros Hm (h & w' & E & Hw'). exists h, w'. split; [done|]. destruct (Hm _ _ _ E) as [c ->]. by right. Qed.

End handlers.

Ltac prompt_auto :=
  repeat first [ apply prompt_ret | apply prompt_bind; intros ?
               | match goal with |- prompt (match ?x with _ => _ end) => destruct x end ].

Section chat.
Context `{Crypto} `{ProtoRuntime} `{Bolt} `{Bubbles}.

(** *** The chat *)

Lemma tends_transport {B} w (k : transport -> tm B) :
  m_transport (w_m w) <> None -> (forall t, m_transport (w_m w) = Some t -> tends w (k t)) ->
  tends w (let? t := the_transport in k t).
Proof.
  intros Ht Hk. destruct (m_transport (w_m w)) as [t|] eqn:E; [|done].
  unfold tends, the_transport, tbind, tget. rewrite E. by apply Hk.
Qed.

Lemma put_widgets_wf f g w : wf w -> wf (upd (fun m => put_vp (f m) (put_ta (g m) m)) w).
Proof. intros [? ? ? ? ? ? ?]. by split. Qed.

Lemma updateChat_returns i msg w :
  wf w -> m_state (w_m w) = stateChat -> (forall k, msg = KeyMsg k -> k_Type k <> KeyCtrlC) ->
  exists h w', updateChat i msg w = Some (h, w') /\ handles msg w h w'.
Proof.
  intros Hw Hs Hc. pose proof (wf_chat w Hw Hs) as Ht. unfold updateChat, tbind at 1, tput at 1.
  pose proof (put_widgets_wf (fun m => vp_Update msg (m_vp m)) (fun m => ta_Update msg (m_ta m)) w Hw) as Hw1.
  set (w1 := upd _ w) in *. assert (Ht1 : m_transport (w_m w1) <> None) by done.
  assert (Hk1 : m_keepAliveDone (w_m w1) = m_keepAliveDone (w_m w)) by done. clearbody w1.
  pose proof (fun m => prompt_handles msg w w1 m) as Hend.
  destruct msg as [| | | | | | | | | | |x y|k|]; try (apply Hend; [apply prompt_ret|apply tends_ret, Hw1]).
  - apply Hend; [prompt_auto|]. apply tends_runs; [|done]. truns_auto.
    apply truns_put. intros w2 Hw2. destruct Hw2 as [? ? ? ? ? ? ?]. unfold upd. by destruct (m_messages (w_m w2)); split.
  - destruct (k_Type k) eqn:Ek; try (apply Hend; [apply prompt_ret|apply tends_ret, Hw1]).
    + apply Hend; [prompt_auto|]. apply tends_get. destruct (bool_decide _); [by apply tends_ret|].
      apply tends_transport; [done|].
      intros t _. pose proof add_line_runs. destruct (in_Send i _); (apply tends_runs; [|done]); truns_auto.
      intros w2. apply add_line_runs.
    + apply leave_returns; [done| |done]. cbn. rewrite bool_decide_eq_false_2 by auto.
      by rewrite Hs, Ek.
Qed.

(** *** Entering the chat *)

(** [CreateSession] blocks for ever if the record of the peer has expired. *)
Definition recordable (t : transport) (s : store) : Prop :=
  match t_RemotePeer t with Some p => is_Some (CreateSession (t_SessionID t) (PublicKey p) s) | None => True end.

Lemma create_session_runs t w :
  recordable t (w_store w) -> wf w ->
  tends w (match t_RemotePeer t with
           | Some peer => let? _ := scall_opt (CreateSession (t_SessionID t) (PublicKey peer)) in tret tt
           | None => tret tt
           end).
Proof.
  unfold recordable. intros Hr Hw. destruct (t_RemotePeer t) as [p|]; [|by apply tends_ret].
  destruct Hr as [[r s] Er]. unfold tends, tbind, scall_opt. rewrite Er. eexists _, _. split; [reflexivity|].
  destruct Hw. by split.
Qed.

Lemma fresh_put_runs f : (forall c w, wf w -> wf (upd (f c) w)) -> truns wf (let? c := fresh in tput (f c)).
Proof. intros Hf. apply truns_fresh. intros c w Hw _ _. eexists _, _. split; [reflexivity|]. by apply Hf. Qed.

(** What [enterChat] does once the record is made. *)
Lemma enterChat_runs t w :
  wf w -> m_transport (w_m w) = Some t -> recordable t (w_store w) -> tends w enterChat.
Proof.
  intros Hw Ht Hr. unfold enterChat. apply tends_put, tends_get, tends_get.
  assert (Hw1 : wf (upd (put_state stateChat) w)).
  { destruct Hw. split; cbn; try done. by rewrite Ht. }
  set (w1 := upd _ w) in *. assert (Ht1 : m_transport (w_m w1) = Some t) by done.
  assert (Hr1 : recordable t (w_store w1)) by done. clearbody w1. clear Ht Hr Hw w. rename w1 into w.
  assert (Hexp : exists w2, wf w2 /\ m_transport (w_m w2) = Some t /\ w_store w2 = w_store w /\
    (if bool_decide (m_mode (w_m w) = modeRelayServe) && (0 <? m_relaySessionTTL (w_m w))
     then let? now := tui_now in tput (put_sessionExpiry (now + m_relaySessionTTL (w_m w))) else tret tt) w = Some (tt, w2)).
  { destruct (_ && _); [|by exists w]. refine (ex_intro _ _ (conj _ (conj _ (conj _ eq_refl)))); [|done|done]. destruct Hw1. by split. }
  destruct Hexp as (w2 & Hw2 & Ht2 & Es2 & E2). unfold tends, tbind at 1. rewrite E2. clear E2.
  apply tends_transport; [by rewrite Ht2|]. intros t' Et. rewrite Ht2 in Et. injection Et as <-.
  apply tends_bind; [apply create_session_runs; [by rewrite Es2|done]|]. intros _ w3 Hw3. apply tends_runs; [|done].
  assert (Hp : truns wf (let? c := fresh in tput (put_pongCh (Some c)))).
  { apply fresh_put_runs. intros c w' Hw'. destruct Hw'. by split. }
  assert (Hk : truns wf (let? c := fresh in tput (put_keepAliveDone (Some c)))).
  { apply fresh_put_runs. intros c w' Hw'. destruct Hw'. by split. }
  repeat match goal with
  | |- truns _ (tbind (tbind fresh _) _) => apply truns_bind; [assumption|intros ?]
  | |- truns _ _ => truns_step
  end.
Qed.

End chat.
