(* ===== verification/TuiRun.v ===== *)
(** * The terminal application: its properties

    [update_handles]: in a well-formed world every message is handled without a
    panic, and [Update] returns unless it waits for a keep-alive loop.
    [tui_verdicts]: a verifier hears only what the user typed on the screen that
    showed its peer.  The keep-alive loop runs beside [Update] ([sys_step]);
    [escape_freezes]: leaving a chat that was dialled waits for a loop that does not
    end; [escape_decided]: leaving one that was served shows the menu, unless a ping
    is due in that moment. *)

From S2P Require Import Prelude GoErr Strconv TimeFormat Encoding Process Wire Pb Route Version Crypto Fingerprint Enigma Serde Transport Bolt Engine Storage DaemonNet NetIP BrokerCodec Daemon DaemonP2P Tui TuiLaws.
#[local] Open Scope tm_scope.

(** ** The keep-alive loop (tea.go)

    In each turn the loop reads [m.doneCh] anew and waits for it or for a tick; a
    nil channel is never ready. *)

(** [KaSending]: in [m.program.Send] after the third failure. *)
Inductive ka_at := KaStart | KaSelect (done : option nat) | KaPing | KaSending | KaOver.
Record ka := mkKa { ka_done : option nat; ka_pos : ka_at }.

Inductive ka_event := KaBegin | KaStop | KaTick | KaPinged (r : result unit) | KaSent.

Section run.
Context `{Crypto} `{ProtoRuntime} `{Bolt} `{Bubbles}.

(** [tuiSendPing]: [before] holds what is in the channel when the ping has been
    sent, [after_] what arrives before the timeout. *)
Definition tuiSendPing (tok : bytes) (sent : result unit) (before after_ : list bytes) : result unit :=
  match sent with
  | Err e => Err e
  | Ok _ =>
      match drop 1 before ++ after_ with
      | [] => Err (Sentinel ErrReceiveTimeout)
      | data :: _ => if bool_decide (data = tok) then Ok tt else Err (Sentinel ErrVerificationFailed)
      end
  end.

(** The end of the loop closes the channel it read when it started. *)
Definition ka_end (k : ka) : tm ka :=
  match ka_done k with Some c => close_chan c ;? tret (mkKa (ka_done k) KaOver) | None => tpanic end.

(** [None]: the event cannot happen now. *)
Definition keepAlive_step (k : ka) (e : ka_event) (w : world) : option (tm (ka * option Msg)) :=
  match ka_pos k, e with
  | KaStart, KaBegin =>
      Some (let? done := tget m_keepAliveDone in let? d := tget m_doneCh in tret (mkKa done (KaSelect d), None))
  | KaSelect (Some d), KaStop =>
      if bool_decide (d ∈ w_closed w) then Some (let? k := ka_end k in tret (k, None)) else None
  | KaSelect _, KaTick => Some (let? _ := the_transport in tret (mkKa (ka_done k) KaPing, None))
  | KaPing, KaPinged (Ok _) =>
      Some (let? now := tui_now in tput (fun m => put_lastPongAt now (put_pingFailures 0 m)) ;?
            let? d := tget m_doneCh in tret (mkKa (ka_done k) (KaSelect d), None))
  | KaPing, KaPinged (Err _) =>
      Some (tput (fun m => put_pingFailures (m_pingFailures m + 1) m) ;?
            let? n := tget m_pingFailures in
            if 3 <=? n then tret (mkKa (ka_done k) KaSending, None)
            else let? d := tget m_doneCh in tret (mkKa (ka_done k) (KaSelect d), None))
  | KaSending, KaSent => Some (let? k := ka_end k in tret (k, Some peerDisconnectedMsg))
  | _, _ => None
  end.

(** ** [Update] beside the goroutines *)

Inductive main := Idle | Blocked (ch : nat) (a : after) | Ended.
Record sys := mkSys { s_w : world; s_main : main; s_loops : list ka }.

(** Messages come from anywhere; the goroutines of a dial and of a relay server
    write to the model themselves. *)
Inductive event :=
  | Deliver (i : inputs) (m : Msg)
  | Resume
  | Loop (n : nat) (e : ka_event)
  | Dialled (r : result (transport * Z))
  | RelayServed (r : result (nat * bytes * Z)).

(** A step: not possible ([None]), a crash, or the next state. *)
Inductive outcome := Crash | Next (s : sys).

Definition after_cmd (c : Cmd) : main := match c with Quit => Ended | _ => Idle end.

(** The keep-alive loops that were started since [jobs]. *)
Definition new_loops (jobs : list job) (w : world) : list ka :=
  omap (fun j => match j with JKeepAlive => Some (mkKa None KaStart) | _ => None end) (drop (length jobs) (w_jobs w)).

Definition sys_step (s : sys) (e : event) : option outcome :=
  match e with
  | Deliver i m =>
      match s_main s with
      | Idle =>
          Some match Update i m (s_w s) with
               | None => Crash
               | Some (h, w) =>
                   Next (mkSys w (match h with Returned c => after_cmd c | Waiting ch a => Blocked ch a end)
                           (s_loops s ++ new_loops (w_jobs (s_w s)) w))
               end
      | _ => None
      end
  | Resume =>
      match s_main s with
      | Blocked ch a =>
          if bool_decide (ch ∈ w_closed (s_w s)) then
            Some match resume a (s_w s) with
                 | None => Crash
                 | Some (c, w) => Next (mkSys w (after_cmd c) (s_loops s))
                 end
          else None
      | _ => None
      end
  | Loop n e =>
      match s_loops s !! n with
      | None => None
      | Some k =>
          match keepAlive_step k e (s_w s) with
          | None => None
          | Some m =>
              Some match m (s_w s) with
                   | None => Crash
                   | Some ((k', _), w) => Next (mkSys w (s_main s) (<[n := k']> (s_loops s)))
                   end
          end
      end
  | Dialled r => Some match dialled r (s_w s) with None => Crash | Some (_, w) => Next (mkSys w (s_main s) (s_loops s)) end
  | RelayServed r =>
      Some match relay_served r (s_w s) with None => Crash | Some (_, w) => Next (mkSys w (s_main s) (s_loops s)) end
  end.

Fixpoint sys_run (s : sys) (es : list event) : option sys :=
  match es with
  | [] => Some s
  | e :: es => match sys_step s e with Some (Next s') => sys_run s' es | _ => None end
  end.

(** ** Every message is handled *)

(** A chat message needs a transport, and [CreateSession] must not block. *)
Definition enabled (msg : Msg) (w : world) : Prop :=
  match msg with
  | connectedMsg t _ _ => recordable t (w_store w)
  | chatMessageMsg _ _ _ => m_transport (w_m w) <> None
  | _ => True
  end.

Lemma update_screen_returns i msg w :
  wf w -> (forall k, msg = KeyMsg k -> k_Type k <> KeyCtrlC) ->
  exists h w', update_screen i msg w = Some (h, w') /\ handles msg w h w'.
Proof.
  intros Hw Hc. unfold update_screen, tbind at 1, tget at 1.
  assert (Hret : forall m : tm Cmd, tends w m -> exists h w', returned m w = Some (h, w') /\ handles msg w h w').
  { intros m Hm. apply prompt_handles; [unfold returned; prompt_auto|]. unfold returned.
    apply tends_bind; [done|]. intros; by apply tends_ret. }
  destruct (m_state (w_m w)) eqn:Es.
  - apply Hret, updateWelcome_runs, Hw.
  - by apply Hret, updateInput_runs.
  - apply Hret, updateConnecting_runs, Hw.
  - by apply Hret, updateVerify_runs.
  - by apply updateChat_returns.
  - apply Hret, updateHistory_runs, Hw.
Qed.

Lemma view_defined zone now w : wf w -> is_Some (View zone now (w_m w)).
Proof.
  intros Hw. unfold View. destruct (m_state (w_m w)) eqn:Es; try by eexists.
  unfold viewConnecting. pose proof (wf_inputs w Hw) as Hf. rewrite Es in Hf. specialize (Hf eq_refl).
  destruct (m_inputs (w_m w)); [by destruct (m_mode (w_m w))|by eexists].
Qed.

(** C14: In a well-formed world the screen can be drawn, and every message is handled
    without a panic: no cursor, no field, no request and no transport is missing
    where a handler uses it.  [Update] returns in a well-formed world or quits,
    except that a key that leaves a chat (Esc) or the program (Ctrl-C) while a
    keep-alive loop has not ended makes it wait for that loop; when the wait ends,
    in whatever well-formed world, the rest of the handler does not panic either and
    returns in the same way.  Two messages have a condition: a chat message needs a
    transport, and the record of a new session must not block. *)
Theorem update_handles i msg zone now w :
  wf w -> enabled msg w ->
  is_Some (View zone now (w_m w)) /\
  exists h w', Update i msg w = Some (h, w') /\ handles msg w h w'.
Proof.
  intros Hw He. split; [by apply view_defined|].
  assert (Hend : forall m : tm handled, prompt m -> tends w m -> exists h w', m w = Some (h, w') /\ handles msg w h w')
    by (intros m; apply prompt_handles).
  pose proof add_line_runs as Hadd. pose proof cancelConnect_runs as Hcancel.
  assert (Hwel : truns wf (tput (put_state stateWelcome))) by (apply truns_put; intros; by apply put_state_wf).
  destruct msg as [t isServer ttl|e|r| |tok ttl|sender txt ts| |e|[l|e]|sid ms|ls|x y|k|]; cbn [Update enabled] in *.
  - apply Hend; [prompt_auto|]; apply tends_put. destruct (0 <? ttl).
    + apply (tends_put _ (put_relaySessionTTL ttl)). apply tends_bind; [|intros; by apply tends_ret].
      apply (enterChat_runs t); [|done..]. destruct Hw. by split.
    + apply (tends_bind _ enterChat); [|intros; by apply tends_ret]. apply (enterChat_runs t); [|done..]. destruct Hw. by split.
  - apply Hend; [prompt_auto|]; apply tends_runs; [|done]. truns_auto.
  - apply Hend; [prompt_auto|]; apply tends_get. destruct (bool_decide_reflect (m_state (w_m w) = stateConnecting)) as [Es|]; [|by apply tends_ret].
    apply tends_put, tends_ret. pose proof (wf_inputs w Hw) as Hf. rewrite Es in Hf. destruct Hw. split; cbn; try done.
  - apply Hend; [prompt_auto|]; apply tends_runs; [|done]. truns_auto.
  - apply Hend; [prompt_auto|]; apply tends_runs; [|done]. truns_auto.
  - apply Hend; [prompt_auto|]. unfold handleChatMessage. apply tends_bind; [|intros; by apply tends_ret].
    destruct (Hadd [Styled peerPrefix [P "["; PB (DateTime (w_zone w) ts); P "] Peer: "]; Styled peerText [PB txt]] w Hw)
      as ([] & w1 & E1 & Hw1). unfold tends, tbind at 1. rewrite E1. apply tends_transport; [|intros; apply tends_runs; [truns_auto|done]].
    unfold add_line, show_messages, tbind, tput in E1. injection E1 as <-. done.
  - apply Hend; [prompt_auto|]; apply tends_runs; [|done]. truns_auto.
  - apply Hend; [prompt_auto|]; apply tends_runs; [|done]. truns_auto.
  - apply Hend; [prompt_auto|]; apply tends_put, tends_ret. destruct Hw. split; cbn; try done. split; [done|]. destruct l; [done|cbn; lia].
  - apply Hend; [prompt_auto|]; apply tends_put, tends_ret. destruct Hw. by split.
  - apply Hend; [prompt_auto|]; apply tends_runs; [|done]. truns_auto.
  - apply Hend; [prompt_auto|]; apply tends_runs; [|done]. truns_auto; unfold show_messages; truns_auto.
  - destruct (update_screen_returns i (WindowSizeMsg x y) (upd (fun m => put_height y (put_width x m)) w)) as (h & w' & E & Hh);
      [destruct Hw; by split|done|]. exists h, w'. split; [exact E|]. by destruct h.
  - case_bool_decide as Hk; [apply leave_returns; [done| |done]; cbn; by rewrite bool_decide_eq_true_2|].
    apply update_screen_returns; [done|]. by intros ? [= <-].
  - by apply update_screen_returns.
Qed.

(** ** Verdicts *)

(** [quiet m]: [m] sends no verdict and shows no request. *)
Definition quiet {A} (m : tm A) : Prop := forall w a w', m w = Some (a, w') ->
  w_verdicts w' = w_verdicts w /\ m_verifyReq (w_m w') = m_verifyReq (w_m w).

Lemma quiet_ret {A} (a : A) : quiet (tret a).
Proof. by intros w a' w' [= <- <-]. Qed.

Lemma quiet_bind {A B} (m : tm A) (k : A -> tm B) : quiet m -> (forall a, quiet (k a)) -> quiet (tbind m k).
Proof.
  intros Hm Hk w b w'. unfold tbind. destruct (m w) as [[a w1]|] eqn:E; [|done]. intros E'.
  destruct (Hm _ _ _ E) as [<- <-]. exact (Hk a _ _ _ E').
Qed.

Lemma quiet_get {A} (f : model -> A) : quiet (tget f).
Proof. by intros w a' w' [= <- <-]. Qed.

Lemma quiet_put f : (forall m, m_verifyReq (f m) = m_verifyReq m) -> quiet (tput f).
Proof. intros Hf w a' w' [= <- <-]. cbn. auto. Qed.

Lemma quiet_panic {A} : quiet (tpanic : tm A).
Proof. by intros w a w'. Qed.

Lemma quiet_scall_opt {A} (f : store -> option (result A * store)) : quiet (scall_opt f).
Proof. intros w a w'. unfold scall_opt. destruct (f _) as [[]|]; [|done]. by intros [= <- <-]. Qed.

Lemma quiet_fresh : quiet fresh.
Proof. by intros w a w' [= <- <-]. Qed.

Lemma quiet_now : quiet tui_now.
Proof. by intros w a w' [= <- <-]. Qed.

Lemma quiet_start j : quiet (go_start j).
Proof. by intros w a w' [= <- <-]. Qed.

Lemma quiet_cancel c : quiet (cancel_ctx c).
Proof. by intros w a w' [= <- <-]. Qed.

Lemma quiet_stop c : quiet (stop_server c).
Proof. by intros w a w' [= <- <-]. Qed.

Lemma quiet_hang c : quiet (hang_up c).
Proof. by intros w a w' [= <- <-]. Qed.

Lemma quiet_close_chan c : quiet (close_chan c).
Proof. intros w a w'. unfold close_chan. destruct (bool_decide _); [done|]. by intros [= <- <-]. Qed.

Lemma quiet_zone {A} (m : world -> tm A) : (forall w, quiet (m w)) -> quiet (fun w => m w w).
Proof. intros Hm w. apply Hm. Qed.

Ltac quiet_step :=
  match goal with
  | |- quiet (tret _) => apply quiet_ret
  | |- quiet (tbind _ _) => apply quiet_bind; [|intros ?]
  | |- quiet (tget _) => apply quiet_get
  | |- quiet (tput _) => apply quiet_put; intros []; reflexivity
  | |- quiet tpanic => apply quiet_panic
  | |- quiet (scall _) => apply quiet_scall_opt
  | |- quiet (scall_opt _) => apply quiet_scall_opt
  | |- quiet fresh => apply quiet_fresh
  | |- quiet tui_now => apply quiet_now
  | |- quiet (go_start _) => apply quiet_start
  | |- quiet (cancel_ctx _) => apply quiet_cancel
  | |- quiet (stop_server _) => apply quiet_stop
  | |- quiet (hang_up _) => apply quiet_hang
  | |- quiet (close_chan _) => apply quiet_close_chan
  | |- quiet (fun w => add_line (@?l w) w) => refine (quiet_zone (fun w => add_line (l w)) _); intros ?
  | |- quiet (match ?x with _ => _ end) => destruct x
  | |- quiet (if ?x then _ else _) => destruct x
  | |- quiet ?m => progress unfold if_some, add_line, show_messages, index, the_transport, cancelConnect, returned
  end.
Ltac quiet_auto := repeat quiet_step.

Lemma leave_quiet a : quiet (leave a).
Proof.
  assert (Hr : quiet (let? c := resume a in tret (Returned c))) by (unfold resume, cleanup_end; quiet_auto).
  unfold leave, cleanup_begin. apply quiet_bind; [quiet_auto|]. intros [ch|]; [|exact Hr].
  intros w h w'. destruct (bool_decide _); [apply Hr|]. by intros [= <- <-].
Qed.

Definition verdict_of (k : key) : option error := if accept_key k then None else Some rejected_error.

(** A key on the verification screen answers the request it shows. *)
Lemma verified_verdict v client w c w' :
  (forall m, m_verifyReq (client m) = m_verifyReq m) -> verified v client w = Some (c, w') ->
  exists r, m_verifyReq (w_m w) = Some r /\ m_verifyReq (w_m w') = None /\
    w_verdicts w' = w_verdicts w ++ [(vr_responseCh r, v)].
Proof.
  intros Hc. unfold verified, answer, tbind at 1 2, tget at 1. destruct (m_verifyReq (w_m w)) as [r|]; [|done].
  unfold tbind at 1, send_verdict. intros E. exists r. split; [done|].
  unfold tbind at 1, tput at 1, upd in E. cbn -[put_verifyReq] in E.
  set (w1 := mkWorld _ _ _ _ _ _ _ _ _ _ _ _) in E.
  assert (Hq : quiet (let? srv := tget m_srv in match srv with
      | Some _ => tput (put_state stateConnecting) ;?
          let? ctx := tget m_connCtx in let? ch := tget m_connCh in tret (waitConnCmd ctx ch true)
      | None => tput client ;? tret NoCmd end)).
  { quiet_auto. by apply quiet_put. }
  destruct (Hq w1 _ _ E) as [-> ->]. done.
Qed.

(** The other screens send none. *)
Lemma screens_quiet i msg :
  quiet (updateWelcome msg) /\ quiet (updateInput i msg) /\ quiet (updateConnecting msg) /\ quiet (updateChat i msg) /\
  quiet (updateHistory msg).
Proof.
  pose proof leave_quiet. split_and!.
  - unfold updateWelcome, move_cursor, selectMode. quiet_auto.
  - unfold updateInput, updateInputs, startConnect, focus, tui_serve. quiet_auto.
  - unfold updateConnecting. quiet_auto.
  - unfold updateChat. destruct msg; repeat (quiet_step || apply leave_quiet);
      apply quiet_put; intros m; by destruct (m_messages m).
  - unfold updateHistory. destruct msg; repeat quiet_step;
      apply quiet_put; intros m; by repeat case_match.
Qed.

Definition answered (msg : Msg) (w w' : world) : Prop :=
  exists r k, msg = KeyMsg k /\ m_state (w_m w) = stateVerify /\ m_verifyReq (w_m w) = Some r /\
    m_verifyReq (w_m w') = None /\ w_verdicts w' = w_verdicts w ++ [(vr_responseCh r, verdict_of k)].

Definition silent (w w' : world) : Prop :=
  w_verdicts w' = w_verdicts w /\ m_verifyReq (w_m w') = m_verifyReq (w_m w).

Lemma update_screen_verdicts i msg w h w' :
  update_screen i msg w = Some (h, w') -> silent w w' \/ answered msg w w'.
Proof.
  destruct (screens_quiet i msg) as (H3' & H4' & H5' & H6' & H7').
  unfold update_screen, tbind at 1, tget at 1. destruct (m_state (w_m w)) eqn:Es.
  - intros E. left. exact (quiet_bind _ _ H3' (fun c => quiet_ret (Returned c)) _ _ _ E).
  - intros E. left. exact (quiet_bind _ _ H4' (fun c => quiet_ret (Returned c)) _ _ _ E).
  - intros E. left. exact (quiet_bind _ _ H5' (fun c => quiet_ret (Returned c)) _ _ _ E).
  - unfold returned, tbind. destruct (updateVerify msg w) as [[c w1]|] eqn:E; [|done]. intros [= _ ->].
    destruct msg as [| | | | | | | | | | | |k|]; try (injection E as _ <-; by left). cbn [updateVerify] in E.
    assert (Hk : (if accept_key k then verified None (put_state stateConnecting)
                  else if reject_key k then verified (Some rejected_error)
                    (fun m => put_connectErr (Some rejected_error) (put_state stateWelcome m))
                  else tret NoCmd) w = Some (c, w') -> silent w w' \/ answered (KeyMsg k) w w').
    { unfold answered, verdict_of. destruct (accept_key k) eqn:Ek; [|destruct (reject_key k)].
      - intros (r & Hr & Hn & Hv)%verified_verdict; [|done]. right. exists r, k. by rewrite Ek.
      - intros (r & Hr & Hn & Hv)%verified_verdict; [|done]. right. exists r, k. by rewrite Ek.
      - intros [= _ <-]. by left. }
    destruct (k_Type k); try (injection E as _ <-; by left); auto.
  - intros E. left. exact (H6' _ _ _ E).
  - intros E. left. exact (quiet_bind _ _ H7' (fun c => quiet_ret (Returned c)) _ _ _ E).
Qed.

Lemma update_verdicts i msg w h w' :
  Update i msg w = Some (h, w') ->
  silent w w' \/ answered msg w w' \/
  exists r, msg = verifyMsg r /\ w_verdicts w' = w_verdicts w /\ m_verifyReq (w_m w') = Some r.
Proof.
  assert (Hq : forall m : tm handled, quiet m -> m w = Some (h, w') -> silent w w' \/ answered msg w w' \/
    exists r, msg = verifyMsg r /\ w_verdicts w' = w_verdicts w /\ m_verifyReq (w_m w') = Some r)
    by (intros m Hm E; left; exact (Hm _ _ _ E)).
  destruct msg as [t isServer ttl|e|r| |tok ttl|sender txt ts| |e|[l|e]|sid ms|ls|x y|k|]; cbn [Update].
  - apply Hq. unfold enterChat. quiet_auto.
  - apply Hq. quiet_auto.
  - unfold tbind at 1, tget. destruct (bool_decide _).
    + intros [= _ <-]. right. right. by exists r.
    + intros [= _ <-]. by left.
  - apply Hq. quiet_auto.
  - apply Hq. quiet_auto.
  - apply Hq. unfold handleChatMessage. quiet_auto.
  - apply Hq. quiet_auto.
  - apply Hq. quiet_auto.
  - apply Hq. quiet_auto.
  - apply Hq. quiet_auto.
  - apply Hq. quiet_auto.
  - apply Hq. quiet_auto.
  - unfold tbind at 1, tput at 1. intros E. apply update_screen_verdicts in E as [E|(r & k & E & _)]; [by left|done].
  - destruct (bool_decide _); [apply Hq, leave_quiet|]. intros E. apply update_screen_verdicts in E as [?|?]; auto.
  - intros E. apply update_screen_verdicts in E as [?|?]; auto.
Qed.

Lemma sys_step_verdicts s e s' :
  sys_step s e = Some (Next s') ->
  silent (s_w s) (s_w s') \/
  (exists i m, e = Deliver i m /\ answered m (s_w s) (s_w s')) \/
  (exists i r, e = Deliver i (verifyMsg r) /\ w_verdicts (s_w s') = w_verdicts (s_w s) /\
     m_verifyReq (w_m (s_w s')) = Some r).
Proof.
  destruct e as [i m| |n e|r|r]; cbn [sys_step].
  - destruct (s_main s); try done. destruct (Update i m (s_w s)) as [[h w]|] eqn:E; [|done]. intros [= <-].
    apply update_verdicts in E as [?|[?|(r & -> & ?)]]; [by left|right; left; eauto|right; right; eauto].
  - destruct (s_main s) as [|ch a|]; try done. destruct (bool_decide _); [|done].
    destruct (resume a (s_w s)) as [[c w]|] eqn:E; [|done]. intros [= <-]. left.
    assert (Hq : quiet (resume a)) by (unfold resume, cleanup_end; quiet_auto). exact (Hq _ _ _ E).
  - destruct (s_loops s !! n) as [k|]; [|done]. destruct (keepAlive_step k e (s_w s)) as [m|] eqn:Em; [|done].
    destruct (m (s_w s)) as [[[k' o] w]|] eqn:E; [|done]. intros [= <-]. left.
    assert (Hq : quiet m); [|exact (Hq _ _ _ E)]. clear E. unfold keepAlive_step, ka_end in Em.
    repeat case_match; simplify_eq; quiet_auto.
  - destruct (dialled r (s_w s)) as [[c w]|] eqn:E; [|done]. intros [= <-]. left.
    assert (Hq : quiet (dialled r)) by (unfold dialled; quiet_auto). exact (Hq _ _ _ E).
  - destruct (relay_served r (s_w s)) as [[c w]|] eqn:E; [|done]. intros [= <-]. left.
    assert (Hq : quiet (relay_served r)) by (unfold relay_served; quiet_auto). exact (Hq _ _ _ E).
Qed.

Lemma sys_run_app s es es' : sys_run s (es ++ es') = match sys_run s es with Some s' => sys_run s' es' | None => None end.
Proof.
  revert s. induction es as [|e es IH]; intros s; [done|]. cbn [app sys_run]. destruct (sys_step s e) as [[]|]; auto.
Qed.

(** The requests that reached the program. *)
Definition requests (es : list event) : list nat :=
  omap (fun e => match e with Deliver _ (verifyMsg r) => Some (vr_responseCh r) | _ => None end) es.

(** The verdict was typed on the screen that showed the request. *)
Definition typed (s0 : sys) (es : list event) (c : nat) (v : option error) : Prop :=
  exists es1 i k es2 s1 r, es = es1 ++ Deliver i (KeyMsg k) :: es2 /\ sys_run s0 es1 = Some s1 /\
    m_state (w_m (s_w s1)) = stateVerify /\ m_verifyReq (w_m (s_w s1)) = Some r /\ vr_responseCh r = c /\ v = verdict_of k.

(** C21: Each verifier hears at most one verdict, and it accepts its peer only because the
    user typed Enter or y on the screen that showed this peer: whatever else
    happens, messages of other connections, keys on other screens and the end of a
    connection included, does not answer a request. *)
Theorem tui_verdicts s0 es s :
  w_verdicts (s_w s0) = [] -> m_verifyReq (w_m (s_w s0)) = None -> NoDup (requests es) -> sys_run s0 es = Some s ->
  NoDup (map fst (w_verdicts (s_w s))) /\ forall c v, (c, v) ∈ w_verdicts (s_w s) -> typed s0 es c v.
Proof.
  intros Hv0 Hr0. set (shown w := match m_verifyReq (w_m w) with Some r => [vr_responseCh r] | None => [] end).
  assert (Hinv : NoDup (requests es) -> sys_run s0 es = Some s ->
    NoDup (map fst (w_verdicts (s_w s)) ++ shown (s_w s)) /\
    (forall c, c ∈ map fst (w_verdicts (s_w s)) ++ shown (s_w s) -> c ∈ requests es) /\
    (forall c v, (c, v) ∈ w_verdicts (s_w s) -> typed s0 es c v)).
  2: { intros Hnd Hr. destruct (Hinv Hnd Hr) as (Hn & _ & Ht). split; [|exact Ht]. by apply NoDup_app in Hn as [Hn _]. }
  revert s. induction es as [|e es IH] using rev_ind; intros s Hnd Hr.
  { injection Hr as <-. unfold shown. rewrite Hv0, Hr0. split_and!; [constructor|by intros c Hc; inversion Hc|by intros c v Hc; inversion Hc]. }
  rewrite sys_run_app in Hr. destruct (sys_run s0 es) as [s1|] eqn:E1; [|done]. cbn [sys_run] in Hr.
  destruct (sys_step s1 e) as [[|s2]|] eqn:E2; try done. injection Hr as ->.
  assert (Hreq : requests (es ++ [e]) = requests es ++ requests [e]) by apply omap_app.
  rewrite Hreq in Hnd |- *. apply NoDup_app in Hnd as (Hnd & Hdis & _). destruct (IH s1 Hnd eq_refl) as (Hn & Hsub & Ht).
  assert (Hmono : forall c v, typed s0 es c v -> typed s0 (es ++ [e]) c v).
  { intros c v (es1 & i & k & es2 & s3 & r & -> & Hx). exists es1, i, k, (es2 ++ [e]), s3, r. by rewrite <- app_assoc. }
  apply sys_step_verdicts in E2 as [[Ev Er]|[(i & m & -> & r & k & -> & Hs & Hreqs & Er & Ev)|(i & r & -> & Ev & Er)]].
  - unfold shown in *. rewrite Ev, Er. split_and!; [done| |eauto]. intros c Hc. apply elem_of_app. left. by apply Hsub.
  - unfold shown in *. rewrite Ev, Er, map_app, app_nil_r. cbn [map fst]. rewrite Hreqs in Hn, Hsub. split_and!; [done| |].
    + intros c Hc. apply elem_of_app. left. by apply Hsub.
    + intros c v [Hc|Hc%list_elem_of_singleton]%elem_of_app; [by auto|]. injection Hc as -> ->.
      exists es, i, k, [], s1, r. done.
  - unfold shown in *. rewrite Ev, Er. cbn in Hdis. split_and!.
    + apply NoDup_app in Hn as (Hn & _ & _). apply NoDup_app. split_and!; [done| |apply NoDup_singleton].
      intros c Hc ->%list_elem_of_singleton. apply (Hdis (vr_responseCh r)); [|left]. apply Hsub, elem_of_app. by left.
    + intros c [Hc|Hc]%elem_of_app; apply elem_of_app; [left; apply Hsub, elem_of_app; by left|right; exact Hc].
    + eauto.
Qed.

(** ** Leaving a chat *)

(** The loop that closes [ch] waits for a nil channel, for a pong, or for the program
    to take its message. *)
Definition stuck (ch : nat) (k : ka) : Prop :=
  ka_pos k <> KaStart /\
  (ka_done k = Some ch -> ka_pos k = KaSelect None \/ ka_pos k = KaPing \/ ka_pos k = KaSending).

Definition frozen (ch : nat) (s : sys) : Prop :=
  s_main s = Blocked ch ThenWelcome /\ m_doneCh (w_m (s_w s)) = None /\ ch ∉ w_closed (s_w s) /\ Forall (stuck ch) (s_loops s).

Lemma ka_end_stuck ch k w k' w' :
  stuck ch k -> (ka_pos k <> KaSending) -> ka_pos k <> KaSelect None -> ka_pos k <> KaPing -> ch ∉ w_closed w ->
  ka_end k w = Some (k', w') -> stuck ch k' /\ w_m w' = w_m w /\ ch ∉ w_closed w'.
Proof.
  intros [_ Hk] ? ? ? Hc. unfold ka_end. destruct (ka_done k) as [c|]; [|done].
  unfold tbind, close_chan. destruct (bool_decide _); [done|]. intros [= <- <-]. cbn.
  assert (c <> ch) by (intros ->; destruct (Hk eq_refl) as [?|[?|?]]; congruence).
  split_and!; [|done|by apply not_elem_of_cons]. split; [done|]. cbn. congruence.
Qed.

Lemma keepAlive_stuck ch k e m w k' o w' :
  stuck ch k -> e <> KaSent -> m_doneCh (w_m w) = None -> ch ∉ w_closed w ->
  keepAlive_step k e w = Some m -> m w = Some ((k', o), w') ->
  stuck ch k' /\ m_doneCh (w_m w') = None /\ ch ∉ w_closed w'.
Proof.
  intros Hk He Hd Hc. unfold keepAlive_step.
  assert (Hst : forall p, p = KaSelect None \/ p = KaPing \/ p = KaSending -> stuck ch (mkKa (ka_done k) p))
    by (intros p Hp; split; cbn; [by destruct Hp as [ ->|[ ->| ->]]|auto]).
  unfold the_transport, tbind, tget, tput, tret, tui_now, tpanic.
  destruct (ka_pos k) as [|[d|]| | |] eqn:Ep; [by destruct Hk|..]; destruct e as [| | |[|]|]; try done.
  - case_bool_decide; [|done]. intros [= <-].
    destruct (ka_end k w) as [[k1 w1]|] eqn:E; [|done]. intros [= <- <- <-].
    destruct (ka_end_stuck ch k w k1 w1 Hk) as (? & -> & ?); by rewrite ?Ep.
  - intros [= <-]. destruct (m_transport (w_m w)); [|done]. intros [= <- <- <-]. auto.
  - intros [= <-]. destruct (m_transport (w_m w)); [|done]. intros [= <- <- <-]. auto.
  - intros [= <-] [= <- <- <-]. cbn. rewrite Hd. auto.
  - intros [= <-]. cbn. destruct (3 <=? _); intros [= <- <- <-]; cbn; rewrite ?Hd; auto.
Qed.

Lemma frozen_step ch s e s' :
  frozen ch s -> (forall n, e <> Loop n KaSent) -> sys_step s e = Some (Next s') -> frozen ch s'.
Proof.
  intros (Hm & Hd & Hc & Hl) He. destruct e as [i m| |n e|r|r]; cbn [sys_step]; rewrite ?Hm; try done.
  - by rewrite bool_decide_eq_false_2.
  - destruct (s_loops s !! n) as [k|] eqn:En; [|done]. destruct (keepAlive_step k e (s_w s)) as [m|] eqn:Em; [|done].
    destruct (m (s_w s)) as [[[k' o] w]|] eqn:E; [|done]. intros [= <-].
    destruct (keepAlive_stuck ch k e m (s_w s) k' o w) as (? & ? & ?); try done.
    + by eapply (Forall_lookup_1 _ _ n k) in Hl.
    + intros ->. by apply (He n).
    + split_and!; cbn; try done. by apply Forall_insert.
  - destruct r as [[t ttl]|]; cbn; [|by intros [= <-]]. destruct (t_RemotePeer t); [|done]. by intros [= <-].
  - destruct r as [[[srv token] ttl]|]; cbn; by intros [= <-].
Qed.

Lemma frozen_run ch es s s' :
  frozen ch s -> (forall n, Loop n KaSent ∉ es) -> sys_run s es = Some s' -> frozen ch s'.
Proof.
  revert s. induction es as [|e es IH]; intros s Hs He; [by intros [= <-]|]. cbn [sys_run].
  destruct (sys_step s e) as [[|s1]|] eqn:E; try done. apply IH; [|intros n Hn; apply (He n); by right].
  eapply frozen_step; [done| |done]. intros n ->. apply (He n). left.
Qed.

Definition widgets (msg : Msg) (m : model) : model := put_vp (vp_Update msg (m_vp m)) (put_ta (ta_Update msg (m_ta m)) m).

Lemma escape_leaves i k w :
  m_state (w_m w) = stateChat -> k_Type k = KeyEsc ->
  Update i (KeyMsg k) w = leave ThenWelcome (upd (widgets (KeyMsg k)) w).
Proof.
  intros Hs Hk. unfold Update. rewrite Hk. change (bool_decide (KeyEsc = KeyCtrlC)) with false. cbn iota. unfold update_screen, tbind at 1, tget at 1. rewrite Hs.
  unfold updateChat. by rewrite Hk.
Qed.

Lemma leave_waits a w ch :
  m_keepAliveDone (w_m w) = Some ch -> m_doneCh (w_m w) = None -> ch ∉ w_closed w ->
  exists w', leave a w = Some (Waiting ch a, w') /\ m_doneCh (w_m w') = None /\ w_closed w' = w_closed w /\ w_jobs w' = w_jobs w.
Proof.
  intros Hk Hd Hc. unfold leave, cleanup_begin, if_some, tbind, tget, tput, tret, cancel_ctx.
  destruct (m_connCancel (w_m w)); cbn -[bool_decide]; rewrite Hd; cbn -[bool_decide]; rewrite Hk, bool_decide_eq_false_2 by done;
    refine (ex_intro _ _ (conj eq_refl _)); done.
Qed.

(** Esc in a chat that was dialled: [cleanup] has no [doneCh] to close and waits for
    the keep-alive loop, which waits for a nil channel.  The program takes no key
    and no message from then on, for ever unless three pings fail and [Send] returns
    although nobody takes its message. *)
Theorem escape_freezes i k s ch :
  s_main s = Idle -> m_state (w_m (s_w s)) = stateChat -> m_doneCh (w_m (s_w s)) = None ->
  m_keepAliveDone (w_m (s_w s)) = Some ch -> ch ∉ w_closed (s_w s) -> Forall (stuck ch) (s_loops s) -> k_Type k = KeyEsc ->
  exists s1, sys_step s (Deliver i (KeyMsg k)) = Some (Next s1) /\
    forall es s', (forall n, Loop n KaSent ∉ es) -> sys_run s1 es = Some s' -> s_main s' = Blocked ch ThenWelcome.
Proof.
  intros Hm Hs Hd Hk Hc Hl Hesc.
  destruct (leave_waits ThenWelcome (upd (widgets (KeyMsg k)) (s_w s)) ch) as (w1 & E & Hd1 & Hc1 & Hj); [done..|].
  exists (mkSys w1 (Blocked ch ThenWelcome) (s_loops s)). split.
  - cbn [sys_step]. rewrite Hm, escape_leaves, E by done. unfold new_loops. rewrite Hj, drop_all. cbn [omap list_omap].
    by rewrite app_nil_r.
  - intros es s' He Hr. apply (frozen_run ch) in Hr as [Hb _]; [done| |done]. split_and!; cbn; try done. by rewrite Hc1.
Qed.

Lemma leave_closes a w ch d :
  m_keepAliveDone (w_m w) = Some ch -> m_doneCh (w_m w) = Some d -> d <> ch -> d ∉ w_closed w -> ch ∉ w_closed w ->
  exists w', leave a w = Some (Waiting ch a, w') /\ w_closed w' = d :: w_closed w /\ w_jobs w' = w_jobs w /\
    m_transport (w_m w') = m_transport (w_m w) /\ m_srv (w_m w') = m_srv (w_m w) /\ m_doneCh (w_m w') = None.
Proof.
  intros Hk Hd Hne Hcd Hcc. unfold leave, cleanup_begin, if_some, tbind, tget, tput, tret, cancel_ctx, close_chan.
  destruct (m_connCancel (w_m w)); cbn -[bool_decide]; rewrite Hd; cbn -[bool_decide]; rewrite bool_decide_eq_false_2 by done;
    cbn -[bool_decide]; rewrite Hk, bool_decide_eq_false_2 by (apply not_elem_of_cons; done);
    refine (ex_intro _ _ (conj eq_refl _)); done.
Qed.

Lemma resume_welcome w t :
  m_transport (w_m w) = Some t ->
  exists w', resume ThenWelcome w = Some (NoCmd, w') /\ m_state (w_m w') = stateWelcome /\ m_transport (w_m w') = None /\
    t_id t ∈ w_hungup w' /\ m_srv (w_m w') = None /\ (forall v, m_srv (w_m w) = Some v -> v ∈ w_stopped w').
Proof.
  intros Ht. unfold resume, cleanup_end, if_some, tbind, tget, tput, tret, stop_server, hang_up. cbn. rewrite Ht. cbn.
  destruct (m_srv (w_m w)) eqn:Es; refine (ex_intro _ _ (conj eq_refl _)); cbn; split_and!; try done; try by left.
  intros ? [= <-]. left.
Qed.

(** A chat that was served, with its keep-alive loop at its select. *)
Record serving (s : sys) (n ch d : nat) (t : transport) : Prop := mkServing {
  sv_main : s_main s = Idle;
  sv_state : m_state (w_m (s_w s)) = stateChat;
  sv_transport : m_transport (w_m (s_w s)) = Some t;
  sv_doneCh : m_doneCh (w_m (s_w s)) = Some d;
  sv_keepAlive : m_keepAliveDone (w_m (s_w s)) = Some ch;
  sv_apart : d <> ch;
  sv_open : d ∉ w_closed (s_w s) /\ ch ∉ w_closed (s_w s);
  sv_loop : s_loops s !! n = Some (mkKa (Some ch) (KaSelect (Some d)));
  sv_others : forall m k, m <> n -> s_loops s !! m = Some k -> ka_pos k <> KaStart /\ ka_done k <> Some ch
}.

(** No relay server of an earlier attempt comes up meanwhile and takes the place of
    the server. *)
Definition calm (e : event) : Prop := match e with RelayServed (Ok _) => False | _ => True end.

(** Hung up, the server stopped, at the menu. *)
Definition at_menu (t : transport) (srv : option nat) (s : sys) : Prop :=
  s_main s = Idle /\ m_state (w_m (s_w s)) = stateWelcome /\ m_transport (w_m (s_w s)) = None /\
  t_id t ∈ w_hungup (s_w s) /\ m_srv (w_m (s_w s)) = None /\ (forall v, srv = Some v -> v ∈ w_stopped (s_w s)).

(** What a loop does to the rest; [KaStart] reads the channels of the model. *)
Lemma keepAlive_frame k e m w k' o w' :
  ka_pos k <> KaStart -> keepAlive_step k e w = Some m -> m w = Some ((k', o), w') ->
  ka_pos k' <> KaStart /\ ka_done k' = ka_done k /\
  m_transport (w_m w') = m_transport (w_m w) /\ m_srv (w_m w') = m_srv (w_m w) /\ m_doneCh (w_m w') = m_doneCh (w_m w) /\
  (w_closed w' = w_closed w \/ exists c, ka_done k = Some c /\ w_closed w' = c :: w_closed w).
Proof.
  intros Hk. unfold keepAlive_step, ka_end, close_chan, the_transport, tbind, tget, tput, tret, tui_now, tpanic.
  destruct (ka_pos k) as [|[d|]| | |]; [done|..]; destruct e as [| | |[|]|]; try done;
    intros Em E; repeat (simplify_eq/=; try case_match); simplify_eq/=; split_and!; eauto.
Qed.

Section leaving_served.
Context (n ch d : nat) (t : transport) (srv : option nat).

(** After Esc: the loop has to see that [doneCh] is closed ([l] is where it is). *)
Definition waiting (l : ka_at) (s : sys) : Prop :=
  s_main s = Blocked ch ThenWelcome /\ m_doneCh (w_m (s_w s)) = None /\ m_transport (w_m (s_w s)) = Some t /\
  m_srv (w_m (s_w s)) = srv /\ d ∈ w_closed (s_w s) /\ (ch ∈ w_closed (s_w s) <-> l = KaOver) /\
  s_loops s !! n = Some (mkKa (Some ch) l) /\
  forall m k, m <> n -> s_loops s !! m = Some k -> ka_pos k <> KaStart /\ ka_done k <> Some ch.

(** The steps of everything else leave the wait as it is. *)
Lemma waiting_step l s e s' :
  waiting l s -> calm e -> e <> Resume -> (forall x, e <> Loop n x) -> sys_step s e = Some (Next s') -> waiting l s'.
Proof.
  intros (Hm & Hd & Ht & Hs & Hcd & Hcc & Hn & Ho) Hcalm Hres Hl. destruct e as [i m| |m e|r|r]; cbn [sys_step]; rewrite ?Hm; try done.
  - destruct (s_loops s !! m) as [k|] eqn:Em; [|done]. destruct (keepAlive_step k e (s_w s)) as [f|] eqn:Ef; [|done].
    destruct (f (s_w s)) as [[[k' o] w]|] eqn:E; [|done]. intros [= <-].
    assert (Hmn : m <> n) by (intros ->; by apply (Hl e)). destruct (Ho m k Hmn Em) as [Hk1 Hk2].
    destruct (keepAlive_frame k e f (s_w s) k' o w Hk1 Ef E) as (Hk3 & Hk4 & Ht' & Hs' & Hd' & Hc).
    assert (Hc' : (forall x, x ∈ w_closed (s_w s) -> x ∈ w_closed w) /\ (ch ∈ w_closed w -> ch ∈ w_closed (s_w s))).
    { destruct Hc as [ ->|(c & Ec & ->)]; [done|]. split; [by right|]. intros [ ->|?]%elem_of_cons; [by destruct Hk2|done]. }
    destruct Hc' as [Hc1 Hc2]. split_and!; cbn; rewrite ?Ht', ?Hs', ?Hd'; try done; [by apply Hc1| |by rewrite list_lookup_insert_ne|].
    + split; [intros Hx; by apply Hcc, Hc2|intros Hx; by apply Hc1, Hcc].
    + intros m' k0 Hm'. destruct (decide (m' = m)) as [ ->|Hne].
      * rewrite list_lookup_insert_eq by (by apply lookup_lt_Some in Em). intros [= <-]. by rewrite Hk4.
      * rewrite list_lookup_insert_ne by done. by apply Ho.
  - destruct r as [[t' ttl]|]; cbn; [|by intros [= <-]]. destruct (t_RemotePeer t'); [|done]. by intros [= <-].
  - by destruct r as [[[srv' token] ttl]|]; cbn; [destruct Hcalm|intros [= <-]].
Qed.

(** The loop stops, or a tick comes first and it looks at [m.doneCh] again. *)
Lemma waiting_loop s x s' :
  waiting (KaSelect (Some d)) s -> sys_step s (Loop n x) = Some (Next s') ->
  (x = KaStop /\ waiting KaOver s') \/ (x = KaTick /\ frozen ch s').
Proof.
  intros (Hm & Hd & Ht & Hs & Hcd & Hcc & Hn & Ho). cbn [sys_step]. rewrite Hn. unfold keepAlive_step. cbn [ka_pos].
  destruct x as [| | |r|]; try done.
  - rewrite bool_decide_eq_true_2 by done. unfold ka_end, tbind, close_chan. cbn [ka_done].
    rewrite bool_decide_eq_false_2 by (intros Hx; by apply Hcc in Hx). intros [= <-]. left. split; [done|].
    split_and!; cbn; try done; [by right|by split; [|left]| |].
    + rewrite list_lookup_insert_eq by (by apply lookup_lt_Some in Hn). done.
    + intros m k Hne. rewrite list_lookup_insert_ne by done. by apply Ho.
  - unfold the_transport, tbind, tget. rewrite Ht. intros [= <-]. right. split; [done|].
    split_and!; cbn; try done; [intros Hx; by apply Hcc in Hx|]. apply Forall_lookup. intros m k.
    destruct (decide (m = n)) as [ ->|Hne].
    + rewrite list_lookup_insert_eq by (by apply lookup_lt_Some in Hn). intros [= <-]. split; cbn; auto.
    + rewrite list_lookup_insert_ne by done. intros Hk. destruct (Ho m k Hne Hk). by split.
Qed.

Lemma waiting_can_stop s : waiting (KaSelect (Some d)) s -> exists s', sys_step s (Loop n KaStop) = Some (Next s').
Proof.
  intros (Hm & Hd & Ht & Hs & Hcd & Hcc & Hn & Ho). cbn [sys_step]. rewrite Hn. unfold keepAlive_step. cbn [ka_pos].
  rewrite bool_decide_eq_true_2 by done. unfold ka_end, tbind, close_chan. cbn [ka_done].
  rewrite bool_decide_eq_false_2 by (intros Hx; by apply Hcc in Hx). by eexists.
Qed.

Lemma waiting_can_resume s : waiting KaOver s -> exists s', sys_step s Resume = Some (Next s') /\ at_menu t srv s'.
Proof.
  intros (Hm & Hd & Ht & Hs & Hcd & Hcc & Hn & Ho). cbn [sys_step]. rewrite Hm, bool_decide_eq_true_2 by (by apply Hcc).
  destruct (resume_welcome (s_w s) t Ht) as (w' & -> & ? & ? & ? & ? & Hv). eexists. split; [reflexivity|].
  split_and!; cbn; try done. intros v ->. by apply Hv.
Qed.

Definition reaches_menu (s : sys) (es : list event) : Prop :=
  exists es1 es2 s2, es = es1 ++ Resume :: es2 /\ sys_run s (es1 ++ [Resume]) = Some s2 /\ at_menu t srv s2.

Lemma reaches_menu_cons s e s1 es : sys_step s e = Some (Next s1) -> reaches_menu s1 es -> reaches_menu s (e :: es).
Proof. intros E (es1 & es2 & s2 & -> & Hr & Hm). exists (e :: es1), es2, s2. cbn [app sys_run]. by rewrite E. Qed.

Lemma loop_event e : (exists x, e = Loop n x) \/ (forall x, e <> Loop n x).
Proof.
  destruct e as [| |m x| |]; try (by right). destruct (decide (m = n)) as [ ->|]; [left; eauto|right; congruence].
Qed.

Lemma over_run s es s' :
  waiting KaOver s -> Forall calm es -> sys_run s es = Some s' -> waiting KaOver s' \/ reaches_menu s es.
Proof.
  revert s. induction es as [|e es IH]; intros s Hw Hc; [intros [= <-]; by left|]. cbn [sys_run].
  apply Forall_cons in Hc as [Hce Hc]. destruct (sys_step s e) as [[|s1]|] eqn:E; try done. intros Hr.
  destruct (loop_event e) as [[x ->]|Hl].
  { cbn [sys_step] in E. destruct Hw as (_ & _ & _ & _ & _ & _ & Hn & _). rewrite Hn in E. by destruct x. }
  assert (He : e = Resume \/ e <> Resume) by (destruct e; auto; by right). destruct He as [ ->|He].
  - right. destruct (waiting_can_resume s Hw) as (s2 & E2 & Hm). exists [], es, s2. split_and!; [done| |done]. cbn [app sys_run]. by rewrite E2.
  - destruct (IH s1) as [?|Hm]; [by eapply waiting_step|done|done|by left|right]. by eapply reaches_menu_cons.
Qed.

(** No tick: the loop waits to stop, has stopped, or the menu has been reached. *)
Lemma waiting_run s es s' :
  waiting (KaSelect (Some d)) s -> Forall calm es -> Loop n KaTick ∉ es -> sys_run s es = Some s' ->
  waiting (KaSelect (Some d)) s' \/ waiting KaOver s' \/ reaches_menu s es.
Proof.
  revert s. induction es as [|e es IH]; intros s Hw Hc Hk; [intros [= <-]; by left|]. cbn [sys_run].
  apply Forall_cons in Hc as [Hce Hc]. apply not_elem_of_cons in Hk as [Hke Hk].
  destruct (sys_step s e) as [[|s1]|] eqn:E; try done. intros Hr.
  destruct (loop_event e) as [[x ->]|Hl].
  - apply waiting_loop in E as E'; [|done]. destruct E' as [[-> Hw1]|[-> _]]; [|done].
    destruct (over_run s1 es s' Hw1 Hc Hr) as [?|Hm]; [by auto|]. right. right. by eapply reaches_menu_cons.
  - assert (He : e <> Resume).
    { intros ->. cbn [sys_step] in E. destruct Hw as (Hm & _ & _ & _ & _ & Hcc & _). rewrite Hm in E.
      rewrite bool_decide_eq_false_2 in E by (intros Hx; by apply Hcc in Hx). done. }
    destruct (IH s1) as [?|[?|Hm]]; [by eapply waiting_step|done|done|done|by auto..|]. right. right. by eapply reaches_menu_cons.
Qed.

(** A tick first. *)
Lemma tick_run s es1 es2 s' :
  waiting (KaSelect (Some d)) s -> Forall calm (es1 ++ Loop n KaTick :: es2) -> Loop n KaStop ∉ es1 ->
  (forall m, Loop m KaSent ∉ es1 ++ Loop n KaTick :: es2) -> sys_run s (es1 ++ Loop n KaTick :: es2) = Some s' -> frozen ch s'.
Proof.
  revert s. induction es1 as [|e es1 IH]; intros s Hw Hc Hk Hsent; cbn [app sys_run];
    cbn [app] in Hc, Hsent; apply Forall_cons in Hc as [Hce Hc];
    (destruct (sys_step s _) as [[|s1]|] eqn:E; try done); intros Hr.
  - apply waiting_loop in E as [[? _]|[_ Hf]]; [done| |done]. eapply frozen_run; [exact Hf| |exact Hr].
    intros m Hm. apply (Hsent m). by right.
  - apply not_elem_of_cons in Hk as [Hke Hk]. assert (Hsent' : forall m, Loop m KaSent ∉ es1 ++ Loop n KaTick :: es2)
      by (intros m Hm; apply (Hsent m); by right).
    destruct (loop_event e) as [[x ->]|Hl].
    + apply waiting_loop in E as [[-> _]|[-> Hf]]; [done| |done]. by eapply frozen_run.
    + assert (He : e <> Resume).
      { intros ->. cbn [sys_step] in E. destruct Hw as (Hm & _ & _ & _ & _ & Hcc & _). rewrite Hm in E.
        rewrite bool_decide_eq_false_2 in E by (intros Hx; by apply Hcc in Hx). done. }
      eapply (IH s1); try done. by eapply waiting_step.
Qed.

End leaving_served.


(** ** Other consequences *)

(** A message that the receive loop had queued before [cleanup]. *)
Lemma late_message_panics i sender txt ts w : m_transport (w_m w) = None -> Update i (chatMessageMsg sender txt ts) w = None.
Proof.
  intros Ht. cbn [Update]. unfold handleChatMessage, add_line, show_messages, the_transport, tbind, tput, tget. cbn. by rewrite Ht.
Qed.

(** The receive loop itself, when it comes back to [m.transport.Receive]. *)
Lemma late_receive_panics w : m_transport (w_m w) = None -> recv_call w = None.
Proof. intros Ht. unfold recv_call, the_transport, tbind, tget. by rewrite Ht. Qed.

End run.

(** What the text fields promise. *)
Class BubblesOk `{Bubbles} := { ti_Focus_focused x : ti_Focused (ti_Focus x) = true }.

Section fields.
Context `{Crypto} `{ProtoRuntime} `{Bolt} `{BubblesOk}.

(** Tab gives the focus to the second field and does not take it from the first: what
    is typed next goes into both, and Tab never comes back. *)
Lemma tab_focuses_both i k x y w :
  m_state (w_m w) = stateInput -> m_inputs (w_m w) = [x; y] -> ti_Focused x = true -> k_Type k = KeyTab ->
  exists w', Update i (KeyMsg k) w = Some (Returned NoCmd, w') /\ m_inputs (w_m w') = [x; ti_Focus y] /\
    forallb ti_Focused (m_inputs (w_m w')) = true /\ nextInput (m_inputs (w_m w')) = 1.
Proof.
  intros Hs Hi Hx Hk. unfold Update. rewrite Hk. change (bool_decide (KeyTab = KeyCtrlC)) with false. cbn iota.
  unfold update_screen, returned, updateInput, focus, nextInput, focused_index, tbind, tget, tput, tret. cbn. rewrite Hs. rewrite Hk, Hi, Hx. cbn.
  refine (ex_intro _ _ (conj eq_refl _)). change (Z.to_nat ((0 + 1) `mod` Z.of_nat 2)) with 1%nat. cbn. by rewrite Hx, ti_Focus_focused.
Qed.

End fields.

(** ** Witnesses *)

(** Widgets that keep what they were given. *)
Definition plain_bubbles : Bubbles := {|
  textinput := bytes * bool; textarea := bytes * Z; viewport := Z;
  ti_New _ v _ _ := (v, false);
  ti_Value := fst; ti_Focus x := (fst x, true); ti_Focused := snd;
  ti_Update m x := match m with
                   | KeyMsg k => if snd x && bool_decide (k_Type k = KeyRunes) then (fst x ++ k_String k, true) else x
                   | _ => x
                   end;
  ti_View := fst;
  ta_New _ _ _ _ h := ([], h);
  ta_SetWidth _ x := x; ta_Height := snd; ta_Value := fst; ta_Reset x := ([], snd x);
  ta_Update m x := match m with
                   | KeyMsg k => if bool_decide (k_Type k = KeyRunes) then (fst x ++ k_String k, snd x) else x
                   | _ => x
                   end;
  ta_View := fst;
  vp_zero := 0; ta_zero := ([], 0);
  vp_New w _ := w; vp_Width w := w; vp_Resize w _ _ := w;
  vp_SetContent _ w := w; vp_GotoBottom w := w; vp_Update _ w := w; vp_View _ := [];
  gap_height := 3
|}.

Section sample.
Existing Instance toy_crypto.
Existing Instance wire_runtime.
Existing Instance map_bolt.
Existing Instance plain_bubbles.

#[local] Instance plain_bubbles_ok : BubblesOk.
Proof. by split. Qed.

Definition tui_start : world :=
  mkWorld initial_model (sample_store []) (fun n => Z.of_nat n * Second) 0 0 0 [] [] [] [] [] [].
Definition sys_start : sys := mkSys tui_start Idle [].

Definition sample_in : inputs := mkIn (Ok 5%nat) (fun _ => Ok 7).
Definition press (t : keyType) (s : string) : event := Deliver sample_in (KeyMsg (mkKey t (str s))).
Definition sample_peer (n : Z) : Peer := mkPeer 0 0 (str "bob") (str "1.0.0") (sample_key n).
Definition sample_transport : transport := mkT 9 (str "s1") (Some (sample_peer 1)).

Lemma tui_start_wf : wf tui_start.
Proof. split; cbn; try done. Qed.

Definition after_events (es : list event) : sys := default sys_start (sys_run sys_start es).

Lemma after_events_run es : match sys_run sys_start es with Some _ => true | None => false end = true -> sys_run sys_start es = Some (after_events es).
Proof. unfold after_events. by destruct (sys_run sys_start es). Qed.

(** Direct Connect: the dial succeeds, the chat opens, the keep-alive loop starts. *)
Definition dialled_chat : list event :=
  [press KeyRunes "1"; press KeyEnter "enter"; Dialled (Ok (sample_transport, 0));
   Deliver sample_in (connectedMsg sample_transport false 0); Loop 0 KaBegin].

(** Start Server: a peer is verified with y, and its chat opens. *)
Definition served_chat : list event :=
  [press KeyRunes "2"; press KeyEnter "enter";
   Deliver sample_in (verifyMsg (mkVerifyReq (sample_peer 1) true [] [] 40));
   press KeyRunes "y"; Deliver sample_in (connectedMsg sample_transport true 0); Loop 0 KaBegin].

Lemma served_wf : wf (s_w (after_events served_chat)).
Proof.
  split; try (vm_compute; done). vm_compute. split; [apply not_elem_of_nil|]. repeat constructor.
Qed.

(** Esc in a chat that was served. *)
Lemma update_handles_witness :
  let esc := KeyMsg (mkKey KeyEsc (str "esc")) in let w := s_w (after_events served_chat) in
  leaving esc w = Some ThenWelcome /\ is_Some (View 0 0 (w_m w)) /\
  exists h w', Update sample_in esc w = Some (h, w') /\ handles esc w h w'.
Proof.
  split; [vm_compute; reflexivity|].
  apply (update_handles sample_in (KeyMsg (mkKey KeyEsc (str "esc"))) 0 0 (s_w (after_events served_chat)) served_wf I).
Defined.

Lemma tui_verdicts_witness :
  w_verdicts (s_w (after_events served_chat)) = [(40%nat, None)] /\ typed sys_start served_chat 40 None.
Proof.
  split; [vm_compute; reflexivity|].
  destruct (tui_verdicts sys_start served_chat (after_events served_chat)) as [_ Ht];
    [reflexivity|reflexivity|vm_compute; apply NoDup_singleton|apply after_events_run; vm_compute; reflexivity|].
  apply Ht. vm_compute. left.
Defined.

(** The freeze goes on while pings are answered. *)
Lemma escape_freezes_witness :
  let s := after_events dialled_chat in
  exists s1, sys_step s (press KeyEsc "esc") = Some (Next s1) /\
    forall s', sys_run s1 [Loop 0 KaTick; Loop 0 (KaPinged (Ok tt)); Loop 0 KaTick] = Some s' -> s_main s' = Blocked 2 ThenWelcome.
Proof.
  destruct (escape_freezes sample_in (mkKey KeyEsc (str "esc")) (after_events dialled_chat) 2) as (s1 & E & Hall);
    [vm_compute; reflexivity..|vm_compute; intros Hn; by apply elem_of_nil in Hn| |reflexivity|].
  - vm_compute. repeat constructor; cbn; auto. discriminate.
  - exists s1. split; [exact E|]. intros s'. apply Hall. intros n Hn.
    repeat (apply elem_of_cons in Hn as [Hn|Hn]; [discriminate|]). by apply elem_of_nil in Hn.
Defined.

Example frozen_chat :
  match sys_run (after_events dialled_chat) [press KeyEsc "esc"; Loop 0 KaTick; Loop 0 (KaPinged (Ok tt)); Loop 0 KaTick] with
  | Some s => s_main s
  | None => Ended
  end = Blocked 2 ThenWelcome.
Proof. vm_compute. reflexivity. Qed.

Lemma serving_sample : serving (after_events served_chat) 0 4 2 sample_transport.
Proof.
  split; try (vm_compute; reflexivity); [discriminate| |].
  - vm_compute. split; intros Hn; by apply elem_of_nil in Hn.
  - intros m k Hm. destruct m; [by destruct (Hm eq_refl)|]. intros Hk. vm_compute in Hk. discriminate Hk.
Qed.


(** Esc while the dial is under way, and the dial succeeds: the chat opens. *)
Example cancelled_dial_connects :
  m_state (w_m (s_w (after_events
    [press KeyRunes "1"; press KeyEnter "enter"; press KeyEsc "esc"; Dialled (Ok (sample_transport, 0));
     Deliver sample_in (connectedMsg sample_transport false 0)]))) = stateChat.
Proof. vm_compute. reflexivity. Qed.

(** Two pings fail in the first chat; in the second, one failure ends the loop. *)
Example ping_failures_kept :
  let failing := [Loop 0 KaTick; Loop 0 (KaPinged (Err (Sentinel ErrReceiveTimeout)))] in
  let again := [press KeyEsc "esc"; Loop 0 KaStop; Resume; press KeyRunes "2"; press KeyEnter "enter";
                Deliver sample_in (connectedMsg sample_transport true 0); Loop 1 KaBegin; Loop 1 KaTick;
                Loop 1 (KaPinged (Err (Sentinel ErrReceiveTimeout)))] in
  ka_pos <$> s_loops (after_events (served_chat ++ failing ++ failing ++ again)) !! 1%nat = Some KaSending.
Proof. vm_compute. reflexivity. Qed.

(** The address and the token of a relay: typed after Tab, x goes into both fields. *)
Example typed_into_both :
  map ti_Value (m_inputs (w_m (s_w (after_events [press KeyRunes "3"; press KeyTab "tab"; press KeyRunes "x"])))) =
  [str "localhost:9001x"; str "x"].
Proof. vm_compute. reflexivity. Qed.

End sample.
