(* ===== verification/Bus.v ===== *)
(** * The desktop application (cmd/bus): state, settings, history, peers, log
      (app.go, peers.go, loghandler.go)

    [App] with the objects it points to: live sessions are in a heap, since the
    receive loop, the keep-alive loop and the list of sessions share them.  A method
    is a function of type [bm A]; [None] is a run-time panic or a call of the
    storage that blocks for ever.  What the frontend is told ([EventsEmit]) is
    recorded in [a_events].

    The storage is opened when it is first used ([bus_store]), under the passphrase
    the application holds at that moment; [a_disk] are the files. *)

From S2P Require Import Prelude GoErr Strconv TimeFormat Encoding Process Wire Pb Route Version Crypto Fingerprint Enigma Serde Transport Bolt Engine Storage DaemonNet NetIP BrokerCodec Daemon DaemonP2P.

(** ** Data *)

(** [liveSession]; [bs_cancelled]: [reconnectCtx] is cancelled. *)
Record busSession := mkBusSession {
  bs_ID : bytes; bs_PeerName : bytes; bs_RemoteVersion : bytes;
  bs_Transport : nat;
  bs_Messages : list MessageInfo;
  bs_LastActivity : Z;
  bs_ReceiveDone : bool;
  bs_IsServer : bool; bs_TransportType : bytes; bs_SessionTTL : Z; bs_SessionStartedAt : Z;
  bs_pingFailures : Z; bs_lastPongAt : Z;
  bs_pongCh : list bytes;              (* of capacity 1 *)
  bs_reconnectFn : bool; bs_cancelled : bool;
  bs_keepAliveDone : nat
}.

Definition with_PeerName (x : bytes) (s : busSession) : busSession :=
  mkBusSession (bs_ID s) x (bs_RemoteVersion s) (bs_Transport s) (bs_Messages s) (bs_LastActivity s)
    (bs_ReceiveDone s) (bs_IsServer s) (bs_TransportType s) (bs_SessionTTL s) (bs_SessionStartedAt s)
    (bs_pingFailures s) (bs_lastPongAt s) (bs_pongCh s) (bs_reconnectFn s) (bs_cancelled s) (bs_keepAliveDone s).
Definition with_Transport (x : nat) (s : busSession) : busSession :=
  mkBusSession (bs_ID s) (bs_PeerName s) (bs_RemoteVersion s) x (bs_Messages s) (bs_LastActivity s)
    (bs_ReceiveDone s) (bs_IsServer s) (bs_TransportType s) (bs_SessionTTL s) (bs_SessionStartedAt s)
    (bs_pingFailures s) (bs_lastPongAt s) (bs_pongCh s) (bs_reconnectFn s) (bs_cancelled s) (bs_keepAliveDone s).
Definition with_Messages (x : list MessageInfo) (s : busSession) : busSession :=
  mkBusSession (bs_ID s) (bs_PeerName s) (bs_RemoteVersion s) (bs_Transport s) x (bs_LastActivity s)
    (bs_ReceiveDone s) (bs_IsServer s) (bs_TransportType s) (bs_SessionTTL s) (bs_SessionStartedAt s)
    (bs_pingFailures s) (bs_lastPongAt s) (bs_pongCh s) (bs_reconnectFn s) (bs_cancelled s) (bs_keepAliveDone s).
Definition with_LastActivity (x : Z) (s : busSession) : busSession :=
  mkBusSession (bs_ID s) (bs_PeerName s) (bs_RemoteVersion s) (bs_Transport s) (bs_Messages s) x (bs_ReceiveDone s)
    (bs_IsServer s) (bs_TransportType s) (bs_SessionTTL s) (bs_SessionStartedAt s) (bs_pingFailures s)
    (bs_lastPongAt s) (bs_pongCh s) (bs_reconnectFn s) (bs_cancelled s) (bs_keepAliveDone s).
Definition with_ReceiveDone (x : bool) (s : busSession) : busSession :=
  mkBusSession (bs_ID s) (bs_PeerName s) (bs_RemoteVersion s) (bs_Transport s) (bs_Messages s) (bs_LastActivity s) x
    (bs_IsServer s) (bs_TransportType s) (bs_SessionTTL s) (bs_SessionStartedAt s) (bs_pingFailures s)
    (bs_lastPongAt s) (bs_pongCh s) (bs_reconnectFn s) (bs_cancelled s) (bs_keepAliveDone s).
Definition with_SessionStartedAt (x : Z) (s : busSession) : busSession :=
  mkBusSession (bs_ID s) (bs_PeerName s) (bs_RemoteVersion s) (bs_Transport s) (bs_Messages s) (bs_LastActivity s)
    (bs_ReceiveDone s) (bs_IsServer s) (bs_TransportType s) (bs_SessionTTL s) x (bs_pingFailures s)
    (bs_lastPongAt s) (bs_pongCh s) (bs_reconnectFn s) (bs_cancelled s) (bs_keepAliveDone s).
Definition with_pingFailures (x : Z) (s : busSession) : busSession :=
  mkBusSession (bs_ID s) (bs_PeerName s) (bs_RemoteVersion s) (bs_Transport s) (bs_Messages s) (bs_LastActivity s)
    (bs_ReceiveDone s) (bs_IsServer s) (bs_TransportType s) (bs_SessionTTL s) (bs_SessionStartedAt s) x
    (bs_lastPongAt s) (bs_pongCh s) (bs_reconnectFn s) (bs_cancelled s) (bs_keepAliveDone s).
Definition with_lastPongAt (x : Z) (s : busSession) : busSession :=
  mkBusSession (bs_ID s) (bs_PeerName s) (bs_RemoteVersion s) (bs_Transport s) (bs_Messages s) (bs_LastActivity s)
    (bs_ReceiveDone s) (bs_IsServer s) (bs_TransportType s) (bs_SessionTTL s) (bs_SessionStartedAt s)
    (bs_pingFailures s) x (bs_pongCh s) (bs_reconnectFn s) (bs_cancelled s) (bs_keepAliveDone s).
Definition with_pongCh (x : list bytes) (s : busSession) : busSession :=
  mkBusSession (bs_ID s) (bs_PeerName s) (bs_RemoteVersion s) (bs_Transport s) (bs_Messages s) (bs_LastActivity s)
    (bs_ReceiveDone s) (bs_IsServer s) (bs_TransportType s) (bs_SessionTTL s) (bs_SessionStartedAt s)
    (bs_pingFailures s) (bs_lastPongAt s) x (bs_reconnectFn s) (bs_cancelled s) (bs_keepAliveDone s).
Definition with_cancelled (x : bool) (s : busSession) : busSession :=
  mkBusSession (bs_ID s) (bs_PeerName s) (bs_RemoteVersion s) (bs_Transport s) (bs_Messages s) (bs_LastActivity s)
    (bs_ReceiveDone s) (bs_IsServer s) (bs_TransportType s) (bs_SessionTTL s) (bs_SessionStartedAt s)
    (bs_pingFailures s) (bs_lastPongAt s) (bs_pongCh s) (bs_reconnectFn s) x (bs_keepAliveDone s).
Definition with_keepAliveDone (x : nat) (s : busSession) : busSession :=
  mkBusSession (bs_ID s) (bs_PeerName s) (bs_RemoteVersion s) (bs_Transport s) (bs_Messages s) (bs_LastActivity s)
    (bs_ReceiveDone s) (bs_IsServer s) (bs_TransportType s) (bs_SessionTTL s) (bs_SessionStartedAt s)
    (bs_pingFailures s) (bs_lastPongAt s) (bs_pongCh s) (bs_reconnectFn s) (bs_cancelled s) x.

(** [relayToken]; the listener is a [tokenTracker] with its own session ID. *)
Record busToken := mkBusToken {
  bt_Token : bytes; bt_Consumed : bool; bt_TTL : Z; bt_SessionTTL : Z; bt_ExpiresAt : Z; bt_Mode : bytes; bt_PeerPubB64 : bytes;
  bt_listener : nat; bt_sessionID : bytes
}.

Record PeerInfo := mkPeerInfo {
  pi_Name : bytes; pi_PublicKeyBase64 : bytes; pi_FirstSeen : Z; pi_LastSeen : Z; pi_FingerprintEmoji : bytes
}.

(** The parameters of the last [StartServer]. *)
Record serverParams := mkServerParams {
  sp_addr : bytes; sp_transport : bytes; sp_relayAddr : bytes; sp_name : bytes; sp_password : bytes; sp_brokerAddr : bytes;
  sp_peerPubB64 : bytes; sp_directPeerAddr : bytes; sp_useP2P : bool; sp_useBroker : bool
}.

(** The variable KAMUNE_DB_PATH, the database below the home directory, and what
    [os.MkdirAll] and [bolt.Open] return for a path. *)
Record busOS := mkOS {
  os_env : bytes; os_home_db : result bytes; os_Mkdir : bytes -> result unit; os_Open : bytes -> result unit
}.

Section app.
Context `{Crypto} `{ProtoRuntime} `{Bolt}.

Record App := mkApp {
  a_sessions : list nat;
  a_heap : list busSession;
  a_histSessions : list historySession;
  a_server : option nat;
  a_serverDone : option nat;
  a_serverTransportType : bytes;
  a_relayAddr : bytes;
  a_relayPassword : bytes;
  a_relaySessionTTL : Z;
  a_relayTokens : list busToken;
  a_relayListeners : option nat;
  a_p2pListener : option bytes;
  a_p2pTokens : list p2pToken;
  a_startCancel : option nat;
  a_dbPath : bytes;
  a_db : option (bytes * store);   (* with the path it was opened under *)
  a_passphrase : bytes;
  a_storageReady : bool;
  a_pubKey : bytes;
  a_myName : bytes;
  a_status : ConnectionStatus;
  a_statusMsg : text;
  a_activeSessionID : bytes;
  a_verifMode : Z;
  a_fingerprintFmt : bytes;
  a_params : serverParams;
  a_logEntries : list LogEntryInfo;
  a_logBufferSize : nat;
  a_logLevel : bytes;
  a_theme : bytes;
  a_verifRequests : gmap Z pendingVerification;
  a_verifIDCounter : Z;
  a_radio : list bool;
  a_incognito : bool;
  a_peers : list PeerInfo;
  a_os : busOS;   (* environment and outcomes of system calls *)
  a_disk : gmap bytes db;   (* the files *)
  a_machine : store;   (* randomness and clock of the storage *)
  a_clock : nat -> Z;
  a_tpos : nat;
  a_next : nat;   (* the next channel, context, transport *)
  a_events : list (string * list value);
  a_hungup : list nat;   (* closed transports *)
  a_stopped : list nat;   (* closed servers *)
  a_cancelled : list nat   (* cancelled contexts *)
}.

Definition put_sessions (x : list nat) (a : App) : App :=
  mkApp x (a_heap a) (a_histSessions a) (a_server a) (a_serverDone a) (a_serverTransportType a) (a_relayAddr a)
    (a_relayPassword a) (a_relaySessionTTL a) (a_relayTokens a) (a_relayListeners a) (a_p2pListener a) (a_p2pTokens
    a) (a_startCancel a) (a_dbPath a) (a_db a) (a_passphrase a) (a_storageReady a) (a_pubKey a) (a_myName a)
    (a_status a) (a_statusMsg a) (a_activeSessionID a) (a_verifMode a) (a_fingerprintFmt a) (a_params a)
    (a_logEntries a) (a_logBufferSize a) (a_logLevel a) (a_theme a) (a_verifRequests a) (a_verifIDCounter a)
    (a_radio a) (a_incognito a) (a_peers a) (a_os a) (a_disk a) (a_machine a) (a_clock a) (a_tpos a) (a_next a)
    (a_events a) (a_hungup a) (a_stopped a) (a_cancelled a).
Definition put_heap (x : list busSession) (a : App) : App :=
  mkApp (a_sessions a) x (a_histSessions a) (a_server a) (a_serverDone a) (a_serverTransportType a) (a_relayAddr a)
    (a_relayPassword a) (a_relaySessionTTL a) (a_relayTokens a) (a_relayListeners a) (a_p2pListener a) (a_p2pTokens
    a) (a_startCancel a) (a_dbPath a) (a_db a) (a_passphrase a) (a_storageReady a) (a_pubKey a) (a_myName a)
    (a_status a) (a_statusMsg a) (a_activeSessionID a) (a_verifMode a) (a_fingerprintFmt a) (a_params a)
    (a_logEntries a) (a_logBufferSize a) (a_logLevel a) (a_theme a) (a_verifRequests a) (a_verifIDCounter a)
    (a_radio a) (a_incognito a) (a_peers a) (a_os a) (a_disk a) (a_machine a) (a_clock a) (a_tpos a) (a_next a)
    (a_events a) (a_hungup a) (a_stopped a) (a_cancelled a).
Definition put_histSessions (x : list historySession) (a : App) : App :=
  mkApp (a_sessions a) (a_heap a) x (a_server a) (a_serverDone a) (a_serverTransportType a) (a_relayAddr a)
    (a_relayPassword a) (a_relaySessionTTL a) (a_relayTokens a) (a_relayListeners a) (a_p2pListener a) (a_p2pTokens
    a) (a_startCancel a) (a_dbPath a) (a_db a) (a_passphrase a) (a_storageReady a) (a_pubKey a) (a_myName a)
    (a_status a) (a_statusMsg a) (a_activeSessionID a) (a_verifMode a) (a_fingerprintFmt a) (a_params a)
    (a_logEntries a) (a_logBufferSize a) (a_logLevel a) (a_theme a) (a_verifRequests a) (a_verifIDCounter a)
    (a_radio a) (a_incognito a) (a_peers a) (a_os a) (a_disk a) (a_machine a) (a_clock a) (a_tpos a) (a_next a)
    (a_events a) (a_hungup a) (a_stopped a) (a_cancelled a).
Definition put_server (x : option nat) (a : App) : App :=
  mkApp (a_sessions a) (a_heap a) (a_histSessions a) x (a_serverDone a) (a_serverTransportType a) (a_relayAddr a)
    (a_relayPassword a) (a_relaySessionTTL a) (a_relayTokens a) (a_relayListeners a) (a_p2pListener a) (a_p2pTokens
    a) (a_startCancel a) (a_dbPath a) (a_db a) (a_passphrase a) (a_storageReady a) (a_pubKey a) (a_myName a)
    (a_status a) (a_statusMsg a) (a_activeSessionID a) (a_verifMode a) (a_fingerprintFmt a) (a_params a)
    (a_logEntries a) (a_logBufferSize a) (a_logLevel a) (a_theme a) (a_verifRequests a) (a_verifIDCounter a)
    (a_radio a) (a_incognito a) (a_peers a) (a_os a) (a_disk a) (a_machine a) (a_clock a) (a_tpos a) (a_next a)
    (a_events a) (a_hungup a) (a_stopped a) (a_cancelled a).
Definition put_serverDone (x : option nat) (a : App) : App :=
  mkApp (a_sessions a) (a_heap a) (a_histSessions a) (a_server a) x (a_serverTransportType a) (a_relayAddr a)
    (a_relayPassword a) (a_relaySessionTTL a) (a_relayTokens a) (a_relayListeners a) (a_p2pListener a) (a_p2pTokens
    a) (a_startCancel a) (a_dbPath a) (a_db a) (a_passphrase a) (a_storageReady a) (a_pubKey a) (a_myName a)
    (a_status a) (a_statusMsg a) (a_activeSessionID a) (a_verifMode a) (a_fingerprintFmt a) (a_params a)
    (a_logEntries a) (a_logBufferSize a) (a_logLevel a) (a_theme a) (a_verifRequests a) (a_verifIDCounter a)
    (a_radio a) (a_incognito a) (a_peers a) (a_os a) (a_disk a) (a_machine a) (a_clock a) (a_tpos a) (a_next a)
    (a_events a) (a_hungup a) (a_stopped a) (a_cancelled a).
Definition put_serverTransportType (x : bytes) (a : App) : App :=
  mkApp (a_sessions a) (a_heap a) (a_histSessions a) (a_server a) (a_serverDone a) x (a_relayAddr a)
    (a_relayPassword a) (a_relaySessionTTL a) (a_relayTokens a) (a_relayListeners a) (a_p2pListener a) (a_p2pTokens
    a) (a_startCancel a) (a_dbPath a) (a_db a) (a_passphrase a) (a_storageReady a) (a_pubKey a) (a_myName a)
    (a_status a) (a_statusMsg a) (a_activeSessionID a) (a_verifMode a) (a_fingerprintFmt a) (a_params a)
    (a_logEntries a) (a_logBufferSize a) (a_logLevel a) (a_theme a) (a_verifRequests a) (a_verifIDCounter a)
    (a_radio a) (a_incognito a) (a_peers a) (a_os a) (a_disk a) (a_machine a) (a_clock a) (a_tpos a) (a_next a)
    (a_events a) (a_hungup a) (a_stopped a) (a_cancelled a).
Definition put_relayAddr (x : bytes) (a : App) : App :=
  mkApp (a_sessions a) (a_heap a) (a_histSessions a) (a_server a) (a_serverDone a) (a_serverTransportType a) x
    (a_relayPassword a) (a_relaySessionTTL a) (a_relayTokens a) (a_relayListeners a) (a_p2pListener a) (a_p2pTokens
    a) (a_startCancel a) (a_dbPath a) (a_db a) (a_passphrase a) (a_storageReady a) (a_pubKey a) (a_myName a)
    (a_status a) (a_statusMsg a) (a_activeSessionID a) (a_verifMode a) (a_fingerprintFmt a) (a_params a)
    (a_logEntries a) (a_logBufferSize a) (a_logLevel a) (a_theme a) (a_verifRequests a) (a_verifIDCounter a)
    (a_radio a) (a_incognito a) (a_peers a) (a_os a) (a_disk a) (a_machine a) (a_clock a) (a_tpos a) (a_next a)
    (a_events a) (a_hungup a) (a_stopped a) (a_cancelled a).
Definition put_relayPassword (x : bytes) (a : App) : App :=
  mkApp (a_sessions a) (a_heap a) (a_histSessions a) (a_server a) (a_serverDone a) (a_serverTransportType a)
    (a_relayAddr a) x (a_relaySessionTTL a) (a_relayTokens a) (a_relayListeners a) (a_p2pListener a) (a_p2pTokens a)
    (a_startCancel a) (a_dbPath a) (a_db a) (a_passphrase a) (a_storageReady a) (a_pubKey a) (a_myName a) (a_status
    a) (a_statusMsg a) (a_activeSessionID a) (a_verifMode a) (a_fingerprintFmt a) (a_params a) (a_logEntries a)
    (a_logBufferSize a) (a_logLevel a) (a_theme a) (a_verifRequests a) (a_verifIDCounter a) (a_radio a) (a_incognito
    a) (a_peers a) (a_os a) (a_disk a) (a_machine a) (a_clock a) (a_tpos a) (a_next a) (a_events a) (a_hungup a)
    (a_stopped a) (a_cancelled a).
Definition put_relaySessionTTL (x : Z) (a : App) : App :=
  mkApp (a_sessions a) (a_heap a) (a_histSessions a) (a_server a) (a_serverDone a) (a_serverTransportType a)
    (a_relayAddr a) (a_relayPassword a) x (a_relayTokens a) (a_relayListeners a) (a_p2pListener a) (a_p2pTokens a)
    (a_startCancel a) (a_dbPath a) (a_db a) (a_passphrase a) (a_storageReady a) (a_pubKey a) (a_myName a) (a_status
    a) (a_statusMsg a) (a_activeSessionID a) (a_verifMode a) (a_fingerprintFmt a) (a_params a) (a_logEntries a)
    (a_logBufferSize a) (a_logLevel a) (a_theme a) (a_verifRequests a) (a_verifIDCounter a) (a_radio a) (a_incognito
    a) (a_peers a) (a_os a) (a_disk a) (a_machine a) (a_clock a) (a_tpos a) (a_next a) (a_events a) (a_hungup a)
    (a_stopped a) (a_cancelled a).
Definition put_relayTokens (x : list busToken) (a : App) : App :=
  mkApp (a_sessions a) (a_heap a) (a_histSessions a) (a_server a) (a_serverDone a) (a_serverTransportType a)
    (a_relayAddr a) (a_relayPassword a) (a_relaySessionTTL a) x (a_relayListeners a) (a_p2pListener a) (a_p2pTokens
    a) (a_startCancel a) (a_dbPath a) (a_db a) (a_passphrase a) (a_storageReady a) (a_pubKey a) (a_myName a)
    (a_status a) (a_statusMsg a) (a_activeSessionID a) (a_verifMode a) (a_fingerprintFmt a) (a_params a)
    (a_logEntries a) (a_logBufferSize a) (a_logLevel a) (a_theme a) (a_verifRequests a) (a_verifIDCounter a)
    (a_radio a) (a_incognito a) (a_peers a) (a_os a) (a_disk a) (a_machine a) (a_clock a) (a_tpos a) (a_next a)
    (a_events a) (a_hungup a) (a_stopped a) (a_cancelled a).
Definition put_relayListeners (x : option nat) (a : App) : App :=
  mkApp (a_sessions a) (a_heap a) (a_histSessions a) (a_server a) (a_serverDone a) (a_serverTransportType a)
    (a_relayAddr a) (a_relayPassword a) (a_relaySessionTTL a) (a_relayTokens a) x (a_p2pListener a) (a_p2pTokens a)
    (a_startCancel a) (a_dbPath a) (a_db a) (a_passphrase a) (a_storageReady a) (a_pubKey a) (a_myName a) (a_status
    a) (a_statusMsg a) (a_activeSessionID a) (a_verifMode a) (a_fingerprintFmt a) (a_params a) (a_logEntries a)
    (a_logBufferSize a) (a_logLevel a) (a_theme a) (a_verifRequests a) (a_verifIDCounter a) (a_radio a) (a_incognito
    a) (a_peers a) (a_os a) (a_disk a) (a_machine a) (a_clock a) (a_tpos a) (a_next a) (a_events a) (a_hungup a)
    (a_stopped a) (a_cancelled a).
Definition put_p2pListener (x : option bytes) (a : App) : App :=
  mkApp (a_sessions a) (a_heap a) (a_histSessions a) (a_server a) (a_serverDone a) (a_serverTransportType a)
    (a_relayAddr a) (a_relayPassword a) (a_relaySessionTTL a) (a_relayTokens a) (a_relayListeners a) x (a_p2pTokens
    a) (a_startCancel a) (a_dbPath a) (a_db a) (a_passphrase a) (a_storageReady a) (a_pubKey a) (a_myName a)
    (a_status a) (a_statusMsg a) (a_activeSessionID a) (a_verifMode a) (a_fingerprintFmt a) (a_params a)
    (a_logEntries a) (a_logBufferSize a) (a_logLevel a) (a_theme a) (a_verifRequests a) (a_verifIDCounter a)
    (a_radio a) (a_incognito a) (a_peers a) (a_os a) (a_disk a) (a_machine a) (a_clock a) (a_tpos a) (a_next a)
    (a_events a) (a_hungup a) (a_stopped a) (a_cancelled a).
Definition put_p2pTokens (x : list p2pToken) (a : App) : App :=
  mkApp (a_sessions a) (a_heap a) (a_histSessions a) (a_server a) (a_serverDone a) (a_serverTransportType a)
    (a_relayAddr a) (a_relayPassword a) (a_relaySessionTTL a) (a_relayTokens a) (a_relayListeners a) (a_p2pListener
    a) x (a_startCancel a) (a_dbPath a) (a_db a) (a_passphrase a) (a_storageReady a) (a_pubKey a) (a_myName a)
    (a_status a) (a_statusMsg a) (a_activeSessionID a) (a_verifMode a) (a_fingerprintFmt a) (a_params a)
    (a_logEntries a) (a_logBufferSize a) (a_logLevel a) (a_theme a) (a_verifRequests a) (a_verifIDCounter a)
    (a_radio a) (a_incognito a) (a_peers a) (a_os a) (a_disk a) (a_machine a) (a_clock a) (a_tpos a) (a_next a)
    (a_events a) (a_hungup a) (a_stopped a) (a_cancelled a).
Definition put_startCancel (x : option nat) (a : App) : App :=
  mkApp (a_sessions a) (a_heap a) (a_histSessions a) (a_server a) (a_serverDone a) (a_serverTransportType a)
    (a_relayAddr a) (a_relayPassword a) (a_relaySessionTTL a) (a_relayTokens a) (a_relayListeners a) (a_p2pListener
    a) (a_p2pTokens a) x (a_dbPath a) (a_db a) (a_passphrase a) (a_storageReady a) (a_pubKey a) (a_myName a)
    (a_status a) (a_statusMsg a) (a_activeSessionID a) (a_verifMode a) (a_fingerprintFmt a) (a_params a)
    (a_logEntries a) (a_logBufferSize a) (a_logLevel a) (a_theme a) (a_verifRequests a) (a_verifIDCounter a)
    (a_radio a) (a_incognito a) (a_peers a) (a_os a) (a_disk a) (a_machine a) (a_clock a) (a_tpos a) (a_next a)
    (a_events a) (a_hungup a) (a_stopped a) (a_cancelled a).
Definition put_dbPath (x : bytes) (a : App) : App :=
  mkApp (a_sessions a) (a_heap a) (a_histSessions a) (a_server a) (a_serverDone a) (a_serverTransportType a)
    (a_relayAddr a) (a_relayPassword a) (a_relaySessionTTL a) (a_relayTokens a) (a_relayListeners a) (a_p2pListener
    a) (a_p2pTokens a) (a_startCancel a) x (a_db a) (a_passphrase a) (a_storageReady a) (a_pubKey a) (a_myName a)
    (a_status a) (a_statusMsg a) (a_activeSessionID a) (a_verifMode a) (a_fingerprintFmt a) (a_params a)
    (a_logEntries a) (a_logBufferSize a) (a_logLevel a) (a_theme a) (a_verifRequests a) (a_verifIDCounter a)
    (a_radio a) (a_incognito a) (a_peers a) (a_os a) (a_disk a) (a_machine a) (a_clock a) (a_tpos a) (a_next a)
    (a_events a) (a_hungup a) (a_stopped a) (a_cancelled a).
Definition put_db (x : option (bytes * store)) (a : App) : App :=
  mkApp (a_sessions a) (a_heap a) (a_histSessions a) (a_server a) (a_serverDone a) (a_serverTransportType a)
    (a_relayAddr a) (a_relayPassword a) (a_relaySessionTTL a) (a_relayTokens a) (a_relayListeners a) (a_p2pListener
    a) (a_p2pTokens a) (a_startCancel a) (a_dbPath a) x (a_passphrase a) (a_storageReady a) (a_pubKey a) (a_myName
    a) (a_status a) (a_statusMsg a) (a_activeSessionID a) (a_verifMode a) (a_fingerprintFmt a) (a_params a)
    (a_logEntries a) (a_logBufferSize a) (a_logLevel a) (a_theme a) (a_verifRequests a) (a_verifIDCounter a)
    (a_radio a) (a_incognito a) (a_peers a) (a_os a) (a_disk a) (a_machine a) (a_clock a) (a_tpos a) (a_next a)
    (a_events a) (a_hungup a) (a_stopped a) (a_cancelled a).
Definition put_passphrase (x : bytes) (a : App) : App :=
  mkApp (a_sessions a) (a_heap a) (a_histSessions a) (a_server a) (a_serverDone a) (a_serverTransportType a)
    (a_relayAddr a) (a_relayPassword a) (a_relaySessionTTL a) (a_relayTokens a) (a_relayListeners a) (a_p2pListener
    a) (a_p2pTokens a) (a_startCancel a) (a_dbPath a) (a_db a) x (a_storageReady a) (a_pubKey a) (a_myName a)
    (a_status a) (a_statusMsg a) (a_activeSessionID a) (a_verifMode a) (a_fingerprintFmt a) (a_params a)
    (a_logEntries a) (a_logBufferSize a) (a_logLevel a) (a_theme a) (a_verifRequests a) (a_verifIDCounter a)
    (a_radio a) (a_incognito a) (a_peers a) (a_os a) (a_disk a) (a_machine a) (a_clock a) (a_tpos a) (a_next a)
    (a_events a) (a_hungup a) (a_stopped a) (a_cancelled a).
Definition put_storageReady (x : bool) (a : App) : App :=
  mkApp (a_sessions a) (a_heap a) (a_histSessions a) (a_server a) (a_serverDone a) (a_serverTransportType a)
    (a_relayAddr a) (a_relayPassword a) (a_relaySessionTTL a) (a_relayTokens a) (a_relayListeners a) (a_p2pListener
    a) (a_p2pTokens a) (a_startCancel a) (a_dbPath a) (a_db a) (a_passphrase a) x (a_pubKey a) (a_myName a)
    (a_status a) (a_statusMsg a) (a_activeSessionID a) (a_verifMode a) (a_fingerprintFmt a) (a_params a)
    (a_logEntries a) (a_logBufferSize a) (a_logLevel a) (a_theme a) (a_verifRequests a) (a_verifIDCounter a)
    (a_radio a) (a_incognito a) (a_peers a) (a_os a) (a_disk a) (a_machine a) (a_clock a) (a_tpos a) (a_next a)
    (a_events a) (a_hungup a) (a_stopped a) (a_cancelled a).
Definition put_pubKey (x : bytes) (a : App) : App :=
  mkApp (a_sessions a) (a_heap a) (a_histSessions a) (a_server a) (a_serverDone a) (a_serverTransportType a)
    (a_relayAddr a) (a_relayPassword a) (a_relaySessionTTL a) (a_relayTokens a) (a_relayListeners a) (a_p2pListener
    a) (a_p2pTokens a) (a_startCancel a) (a_dbPath a) (a_db a) (a_passphrase a) (a_storageReady a) x (a_myName a)
    (a_status a) (a_statusMsg a) (a_activeSessionID a) (a_verifMode a) (a_fingerprintFmt a) (a_params a)
    (a_logEntries a) (a_logBufferSize a) (a_logLevel a) (a_theme a) (a_verifRequests a) (a_verifIDCounter a)
    (a_radio a) (a_incognito a) (a_peers a) (a_os a) (a_disk a) (a_machine a) (a_clock a) (a_tpos a) (a_next a)
    (a_events a) (a_hungup a) (a_stopped a) (a_cancelled a).
Definition put_myName (x : bytes) (a : App) : App :=
  mkApp (a_sessions a) (a_heap a) (a_histSessions a) (a_server a) (a_serverDone a) (a_serverTransportType a)
    (a_relayAddr a) (a_relayPassword a) (a_relaySessionTTL a) (a_relayTokens a) (a_relayListeners a) (a_p2pListener
    a) (a_p2pTokens a) (a_startCancel a) (a_dbPath a) (a_db a) (a_passphrase a) (a_storageReady a) (a_pubKey a) x
    (a_status a) (a_statusMsg a) (a_activeSessionID a) (a_verifMode a) (a_fingerprintFmt a) (a_params a)
    (a_logEntries a) (a_logBufferSize a) (a_logLevel a) (a_theme a) (a_verifRequests a) (a_verifIDCounter a)
    (a_radio a) (a_incognito a) (a_peers a) (a_os a) (a_disk a) (a_machine a) (a_clock a) (a_tpos a) (a_next a)
    (a_events a) (a_hungup a) (a_stopped a) (a_cancelled a).
Definition put_status (x : ConnectionStatus) (a : App) : App :=
  mkApp (a_sessions a) (a_heap a) (a_histSessions a) (a_server a) (a_serverDone a) (a_serverTransportType a)
    (a_relayAddr a) (a_relayPassword a) (a_relaySessionTTL a) (a_relayTokens a) (a_relayListeners a) (a_p2pListener
    a) (a_p2pTokens a) (a_startCancel a) (a_dbPath a) (a_db a) (a_passphrase a) (a_storageReady a) (a_pubKey a)
    (a_myName a) x (a_statusMsg a) (a_activeSessionID a) (a_verifMode a) (a_fingerprintFmt a) (a_params a)
    (a_logEntries a) (a_logBufferSize a) (a_logLevel a) (a_theme a) (a_verifRequests a) (a_verifIDCounter a)
    (a_radio a) (a_incognito a) (a_peers a) (a_os a) (a_disk a) (a_machine a) (a_clock a) (a_tpos a) (a_next a)
    (a_events a) (a_hungup a) (a_stopped a) (a_cancelled a).
Definition put_statusMsg (x : text) (a : App) : App :=
  mkApp (a_sessions a) (a_heap a) (a_histSessions a) (a_server a) (a_serverDone a) (a_serverTransportType a)
    (a_relayAddr a) (a_relayPassword a) (a_relaySessionTTL a) (a_relayTokens a) (a_relayListeners a) (a_p2pListener
    a) (a_p2pTokens a) (a_startCancel a) (a_dbPath a) (a_db a) (a_passphrase a) (a_storageReady a) (a_pubKey a)
    (a_myName a) (a_status a) x (a_activeSessionID a) (a_verifMode a) (a_fingerprintFmt a) (a_params a)
    (a_logEntries a) (a_logBufferSize a) (a_logLevel a) (a_theme a) (a_verifRequests a) (a_verifIDCounter a)
    (a_radio a) (a_incognito a) (a_peers a) (a_os a) (a_disk a) (a_machine a) (a_clock a) (a_tpos a) (a_next a)
    (a_events a) (a_hungup a) (a_stopped a) (a_cancelled a).
Definition put_activeSessionID (x : bytes) (a : App) : App :=
  mkApp (a_sessions a) (a_heap a) (a_histSessions a) (a_server a) (a_serverDone a) (a_serverTransportType a)
    (a_relayAddr a) (a_relayPassword a) (a_relaySessionTTL a) (a_relayTokens a) (a_relayListeners a) (a_p2pListener
    a) (a_p2pTokens a) (a_startCancel a) (a_dbPath a) (a_db a) (a_passphrase a) (a_storageReady a) (a_pubKey a)
    (a_myName a) (a_status a) (a_statusMsg a) x (a_verifMode a) (a_fingerprintFmt a) (a_params a) (a_logEntries a)
    (a_logBufferSize a) (a_logLevel a) (a_theme a) (a_verifRequests a) (a_verifIDCounter a) (a_radio a) (a_incognito
    a) (a_peers a) (a_os a) (a_disk a) (a_machine a) (a_clock a) (a_tpos a) (a_next a) (a_events a) (a_hungup a)
    (a_stopped a) (a_cancelled a).
Definition put_verifMode (x : Z) (a : App) : App :=
  mkApp (a_sessions a) (a_heap a) (a_histSessions a) (a_server a) (a_serverDone a) (a_serverTransportType a)
    (a_relayAddr a) (a_relayPassword a) (a_relaySessionTTL a) (a_relayTokens a) (a_relayListeners a) (a_p2pListener
    a) (a_p2pTokens a) (a_startCancel a) (a_dbPath a) (a_db a) (a_passphrase a) (a_storageReady a) (a_pubKey a)
    (a_myName a) (a_status a) (a_statusMsg a) (a_activeSessionID a) x (a_fingerprintFmt a) (a_params a)
    (a_logEntries a) (a_logBufferSize a) (a_logLevel a) (a_theme a) (a_verifRequests a) (a_verifIDCounter a)
    (a_radio a) (a_incognito a) (a_peers a) (a_os a) (a_disk a) (a_machine a) (a_clock a) (a_tpos a) (a_next a)
    (a_events a) (a_hungup a) (a_stopped a) (a_cancelled a).
Definition put_fingerprintFmt (x : bytes) (a : App) : App :=
  mkApp (a_sessions a) (a_heap a) (a_histSessions a) (a_server a) (a_serverDone a) (a_serverTransportType a)
    (a_relayAddr a) (a_relayPassword a) (a_relaySessionTTL a) (a_relayTokens a) (a_relayListeners a) (a_p2pListener
    a) (a_p2pTokens a) (a_startCancel a) (a_dbPath a) (a_db a) (a_passphrase a) (a_storageReady a) (a_pubKey a)
    (a_myName a) (a_status a) (a_statusMsg a) (a_activeSessionID a) (a_verifMode a) x (a_params a) (a_logEntries a)
    (a_logBufferSize a) (a_logLevel a) (a_theme a) (a_verifRequests a) (a_verifIDCounter a) (a_radio a) (a_incognito
    a) (a_peers a) (a_os a) (a_disk a) (a_machine a) (a_clock a) (a_tpos a) (a_next a) (a_events a) (a_hungup a)
    (a_stopped a) (a_cancelled a).
Definition put_params (x : serverParams) (a : App) : App :=
  mkApp (a_sessions a) (a_heap a) (a_histSessions a) (a_server a) (a_serverDone a) (a_serverTransportType a)
    (a_relayAddr a) (a_relayPassword a) (a_relaySessionTTL a) (a_relayTokens a) (a_relayListeners a) (a_p2pListener
    a) (a_p2pTokens a) (a_startCancel a) (a_dbPath a) (a_db a) (a_passphrase a) (a_storageReady a) (a_pubKey a)
    (a_myName a) (a_status a) (a_statusMsg a) (a_activeSessionID a) (a_verifMode a) (a_fingerprintFmt a) x
    (a_logEntries a) (a_logBufferSize a) (a_logLevel a) (a_theme a) (a_verifRequests a) (a_verifIDCounter a)
    (a_radio a) (a_incognito a) (a_peers a) (a_os a) (a_disk a) (a_machine a) (a_clock a) (a_tpos a) (a_next a)
    (a_events a) (a_hungup a) (a_stopped a) (a_cancelled a).
Definition put_logEntries (x : list LogEntryInfo) (a : App) : App :=
  mkApp (a_sessions a) (a_heap a) (a_histSessions a) (a_server a) (a_serverDone a) (a_serverTransportType a)
    (a_relayAddr a) (a_relayPassword a) (a_relaySessionTTL a) (a_relayTokens a) (a_relayListeners a) (a_p2pListener
    a) (a_p2pTokens a) (a_startCancel a) (a_dbPath a) (a_db a) (a_passphrase a) (a_storageReady a) (a_pubKey a)
    (a_myName a) (a_status a) (a_statusMsg a) (a_activeSessionID a) (a_verifMode a) (a_fingerprintFmt a) (a_params
    a) x (a_logBufferSize a) (a_logLevel a) (a_theme a) (a_verifRequests a) (a_verifIDCounter a) (a_radio a)
    (a_incognito a) (a_peers a) (a_os a) (a_disk a) (a_machine a) (a_clock a) (a_tpos a) (a_next a) (a_events a)
    (a_hungup a) (a_stopped a) (a_cancelled a).
Definition put_logBufferSize (x : nat) (a : App) : App :=
  mkApp (a_sessions a) (a_heap a) (a_histSessions a) (a_server a) (a_serverDone a) (a_serverTransportType a)
    (a_relayAddr a) (a_relayPassword a) (a_relaySessionTTL a) (a_relayTokens a) (a_relayListeners a) (a_p2pListener
    a) (a_p2pTokens a) (a_startCancel a) (a_dbPath a) (a_db a) (a_passphrase a) (a_storageReady a) (a_pubKey a)
    (a_myName a) (a_status a) (a_statusMsg a) (a_activeSessionID a) (a_verifMode a) (a_fingerprintFmt a) (a_params
    a) (a_logEntries a) x (a_logLevel a) (a_theme a) (a_verifRequests a) (a_verifIDCounter a) (a_radio a)
    (a_incognito a) (a_peers a) (a_os a) (a_disk a) (a_machine a) (a_clock a) (a_tpos a) (a_next a) (a_events a)
    (a_hungup a) (a_stopped a) (a_cancelled a).
Definition put_logLevel (x : bytes) (a : App) : App :=
  mkApp (a_sessions a) (a_heap a) (a_histSessions a) (a_server a) (a_serverDone a) (a_serverTransportType a)
    (a_relayAddr a) (a_relayPassword a) (a_relaySessionTTL a) (a_relayTokens a) (a_relayListeners a) (a_p2pListener
    a) (a_p2pTokens a) (a_startCancel a) (a_dbPath a) (a_db a) (a_passphrase a) (a_storageReady a) (a_pubKey a)
    (a_myName a) (a_status a) (a_statusMsg a) (a_activeSessionID a) (a_verifMode a) (a_fingerprintFmt a) (a_params
    a) (a_logEntries a) (a_logBufferSize a) x (a_theme a) (a_verifRequests a) (a_verifIDCounter a) (a_radio a)
    (a_incognito a) (a_peers a) (a_os a) (a_disk a) (a_machine a) (a_clock a) (a_tpos a) (a_next a) (a_events a)
    (a_hungup a) (a_stopped a) (a_cancelled a).
Definition put_theme (x : bytes) (a : App) : App :=
  mkApp (a_sessions a) (a_heap a) (a_histSessions a) (a_server a) (a_serverDone a) (a_serverTransportType a)
    (a_relayAddr a) (a_relayPassword a) (a_relaySessionTTL a) (a_relayTokens a) (a_relayListeners a) (a_p2pListener
    a) (a_p2pTokens a) (a_startCancel a) (a_dbPath a) (a_db a) (a_passphrase a) (a_storageReady a) (a_pubKey a)
    (a_myName a) (a_status a) (a_statusMsg a) (a_activeSessionID a) (a_verifMode a) (a_fingerprintFmt a) (a_params
    a) (a_logEntries a) (a_logBufferSize a) (a_logLevel a) x (a_verifRequests a) (a_verifIDCounter a) (a_radio a)
    (a_incognito a) (a_peers a) (a_os a) (a_disk a) (a_machine a) (a_clock a) (a_tpos a) (a_next a) (a_events a)
    (a_hungup a) (a_stopped a) (a_cancelled a).
Definition put_verifRequests (x : gmap Z pendingVerification) (a : App) : App :=
  mkApp (a_sessions a) (a_heap a) (a_histSessions a) (a_server a) (a_serverDone a) (a_serverTransportType a)
    (a_relayAddr a) (a_relayPassword a) (a_relaySessionTTL a) (a_relayTokens a) (a_relayListeners a) (a_p2pListener
    a) (a_p2pTokens a) (a_startCancel a) (a_dbPath a) (a_db a) (a_passphrase a) (a_storageReady a) (a_pubKey a)
    (a_myName a) (a_status a) (a_statusMsg a) (a_activeSessionID a) (a_verifMode a) (a_fingerprintFmt a) (a_params
    a) (a_logEntries a) (a_logBufferSize a) (a_logLevel a) (a_theme a) x (a_verifIDCounter a) (a_radio a)
    (a_incognito a) (a_peers a) (a_os a) (a_disk a) (a_machine a) (a_clock a) (a_tpos a) (a_next a) (a_events a)
    (a_hungup a) (a_stopped a) (a_cancelled a).
Definition put_verifIDCounter (x : Z) (a : App) : App :=
  mkApp (a_sessions a) (a_heap a) (a_histSessions a) (a_server a) (a_serverDone a) (a_serverTransportType a)
    (a_relayAddr a) (a_relayPassword a) (a_relaySessionTTL a) (a_relayTokens a) (a_relayListeners a) (a_p2pListener
    a) (a_p2pTokens a) (a_startCancel a) (a_dbPath a) (a_db a) (a_passphrase a) (a_storageReady a) (a_pubKey a)
    (a_myName a) (a_status a) (a_statusMsg a) (a_activeSessionID a) (a_verifMode a) (a_fingerprintFmt a) (a_params
    a) (a_logEntries a) (a_logBufferSize a) (a_logLevel a) (a_theme a) (a_verifRequests a) x (a_radio a)
    (a_incognito a) (a_peers a) (a_os a) (a_disk a) (a_machine a) (a_clock a) (a_tpos a) (a_next a) (a_events a)
    (a_hungup a) (a_stopped a) (a_cancelled a).
Definition put_radio (x : list bool) (a : App) : App :=
  mkApp (a_sessions a) (a_heap a) (a_histSessions a) (a_server a) (a_serverDone a) (a_serverTransportType a)
    (a_relayAddr a) (a_relayPassword a) (a_relaySessionTTL a) (a_relayTokens a) (a_relayListeners a) (a_p2pListener
    a) (a_p2pTokens a) (a_startCancel a) (a_dbPath a) (a_db a) (a_passphrase a) (a_storageReady a) (a_pubKey a)
    (a_myName a) (a_status a) (a_statusMsg a) (a_activeSessionID a) (a_verifMode a) (a_fingerprintFmt a) (a_params
    a) (a_logEntries a) (a_logBufferSize a) (a_logLevel a) (a_theme a) (a_verifRequests a) (a_verifIDCounter a) x
    (a_incognito a) (a_peers a) (a_os a) (a_disk a) (a_machine a) (a_clock a) (a_tpos a) (a_next a) (a_events a)
    (a_hungup a) (a_stopped a) (a_cancelled a).
Definition put_incognito (x : bool) (a : App) : App :=
  mkApp (a_sessions a) (a_heap a) (a_histSessions a) (a_server a) (a_serverDone a) (a_serverTransportType a)
    (a_relayAddr a) (a_relayPassword a) (a_relaySessionTTL a) (a_relayTokens a) (a_relayListeners a) (a_p2pListener
    a) (a_p2pTokens a) (a_startCancel a) (a_dbPath a) (a_db a) (a_passphrase a) (a_storageReady a) (a_pubKey a)
    (a_myName a) (a_status a) (a_statusMsg a) (a_activeSessionID a) (a_verifMode a) (a_fingerprintFmt a) (a_params
    a) (a_logEntries a) (a_logBufferSize a) (a_logLevel a) (a_theme a) (a_verifRequests a) (a_verifIDCounter a)
    (a_radio a) x (a_peers a) (a_os a) (a_disk a) (a_machine a) (a_clock a) (a_tpos a) (a_next a) (a_events a)
    (a_hungup a) (a_stopped a) (a_cancelled a).
Definition put_peers (x : list PeerInfo) (a : App) : App :=
  mkApp (a_sessions a) (a_heap a) (a_histSessions a) (a_server a) (a_serverDone a) (a_serverTransportType a)
    (a_relayAddr a) (a_relayPassword a) (a_relaySessionTTL a) (a_relayTokens a) (a_relayListeners a) (a_p2pListener
    a) (a_p2pTokens a) (a_startCancel a) (a_dbPath a) (a_db a) (a_passphrase a) (a_storageReady a) (a_pubKey a)
    (a_myName a) (a_status a) (a_statusMsg a) (a_activeSessionID a) (a_verifMode a) (a_fingerprintFmt a) (a_params
    a) (a_logEntries a) (a_logBufferSize a) (a_logLevel a) (a_theme a) (a_verifRequests a) (a_verifIDCounter a)
    (a_radio a) (a_incognito a) x (a_os a) (a_disk a) (a_machine a) (a_clock a) (a_tpos a) (a_next a) (a_events a)
    (a_hungup a) (a_stopped a) (a_cancelled a).
Definition put_os (x : busOS) (a : App) : App :=
  mkApp (a_sessions a) (a_heap a) (a_histSessions a) (a_server a) (a_serverDone a) (a_serverTransportType a)
    (a_relayAddr a) (a_relayPassword a) (a_relaySessionTTL a) (a_relayTokens a) (a_relayListeners a) (a_p2pListener
    a) (a_p2pTokens a) (a_startCancel a) (a_dbPath a) (a_db a) (a_passphrase a) (a_storageReady a) (a_pubKey a)
    (a_myName a) (a_status a) (a_statusMsg a) (a_activeSessionID a) (a_verifMode a) (a_fingerprintFmt a) (a_params
    a) (a_logEntries a) (a_logBufferSize a) (a_logLevel a) (a_theme a) (a_verifRequests a) (a_verifIDCounter a)
    (a_radio a) (a_incognito a) (a_peers a) x (a_disk a) (a_machine a) (a_clock a) (a_tpos a) (a_next a) (a_events
    a) (a_hungup a) (a_stopped a) (a_cancelled a).
Definition put_disk (x : gmap bytes db) (a : App) : App :=
  mkApp (a_sessions a) (a_heap a) (a_histSessions a) (a_server a) (a_serverDone a) (a_serverTransportType a)
    (a_relayAddr a) (a_relayPassword a) (a_relaySessionTTL a) (a_relayTokens a) (a_relayListeners a) (a_p2pListener
    a) (a_p2pTokens a) (a_startCancel a) (a_dbPath a) (a_db a) (a_passphrase a) (a_storageReady a) (a_pubKey a)
    (a_myName a) (a_status a) (a_statusMsg a) (a_activeSessionID a) (a_verifMode a) (a_fingerprintFmt a) (a_params
    a) (a_logEntries a) (a_logBufferSize a) (a_logLevel a) (a_theme a) (a_verifRequests a) (a_verifIDCounter a)
    (a_radio a) (a_incognito a) (a_peers a) (a_os a) x (a_machine a) (a_clock a) (a_tpos a) (a_next a) (a_events a)
    (a_hungup a) (a_stopped a) (a_cancelled a).
Definition put_machine (x : store) (a : App) : App :=
  mkApp (a_sessions a) (a_heap a) (a_histSessions a) (a_server a) (a_serverDone a) (a_serverTransportType a)
    (a_relayAddr a) (a_relayPassword a) (a_relaySessionTTL a) (a_relayTokens a) (a_relayListeners a) (a_p2pListener
    a) (a_p2pTokens a) (a_startCancel a) (a_dbPath a) (a_db a) (a_passphrase a) (a_storageReady a) (a_pubKey a)
    (a_myName a) (a_status a) (a_statusMsg a) (a_activeSessionID a) (a_verifMode a) (a_fingerprintFmt a) (a_params
    a) (a_logEntries a) (a_logBufferSize a) (a_logLevel a) (a_theme a) (a_verifRequests a) (a_verifIDCounter a)
    (a_radio a) (a_incognito a) (a_peers a) (a_os a) (a_disk a) x (a_clock a) (a_tpos a) (a_next a) (a_events a)
    (a_hungup a) (a_stopped a) (a_cancelled a).
Definition put_clock (x : nat -> Z) (a : App) : App :=
  mkApp (a_sessions a) (a_heap a) (a_histSessions a) (a_server a) (a_serverDone a) (a_serverTransportType a)
    (a_relayAddr a) (a_relayPassword a) (a_relaySessionTTL a) (a_relayTokens a) (a_relayListeners a) (a_p2pListener
    a) (a_p2pTokens a) (a_startCancel a) (a_dbPath a) (a_db a) (a_passphrase a) (a_storageReady a) (a_pubKey a)
    (a_myName a) (a_status a) (a_statusMsg a) (a_activeSessionID a) (a_verifMode a) (a_fingerprintFmt a) (a_params
    a) (a_logEntries a) (a_logBufferSize a) (a_logLevel a) (a_theme a) (a_verifRequests a) (a_verifIDCounter a)
    (a_radio a) (a_incognito a) (a_peers a) (a_os a) (a_disk a) (a_machine a) x (a_tpos a) (a_next a) (a_events a)
    (a_hungup a) (a_stopped a) (a_cancelled a).
Definition put_tpos (x : nat) (a : App) : App :=
  mkApp (a_sessions a) (a_heap a) (a_histSessions a) (a_server a) (a_serverDone a) (a_serverTransportType a)
    (a_relayAddr a) (a_relayPassword a) (a_relaySessionTTL a) (a_relayTokens a) (a_relayListeners a) (a_p2pListener
    a) (a_p2pTokens a) (a_startCancel a) (a_dbPath a) (a_db a) (a_passphrase a) (a_storageReady a) (a_pubKey a)
    (a_myName a) (a_status a) (a_statusMsg a) (a_activeSessionID a) (a_verifMode a) (a_fingerprintFmt a) (a_params
    a) (a_logEntries a) (a_logBufferSize a) (a_logLevel a) (a_theme a) (a_verifRequests a) (a_verifIDCounter a)
    (a_radio a) (a_incognito a) (a_peers a) (a_os a) (a_disk a) (a_machine a) (a_clock a) x (a_next a) (a_events a)
    (a_hungup a) (a_stopped a) (a_cancelled a).
Definition put_next (x : nat) (a : App) : App :=
  mkApp (a_sessions a) (a_heap a) (a_histSessions a) (a_server a) (a_serverDone a) (a_serverTransportType a)
    (a_relayAddr a) (a_relayPassword a) (a_relaySessionTTL a) (a_relayTokens a) (a_relayListeners a) (a_p2pListener
    a) (a_p2pTokens a) (a_startCancel a) (a_dbPath a) (a_db a) (a_passphrase a) (a_storageReady a) (a_pubKey a)
    (a_myName a) (a_status a) (a_statusMsg a) (a_activeSessionID a) (a_verifMode a) (a_fingerprintFmt a) (a_params
    a) (a_logEntries a) (a_logBufferSize a) (a_logLevel a) (a_theme a) (a_verifRequests a) (a_verifIDCounter a)
    (a_radio a) (a_incognito a) (a_peers a) (a_os a) (a_disk a) (a_machine a) (a_clock a) (a_tpos a) x (a_events a)
    (a_hungup a) (a_stopped a) (a_cancelled a).
Definition put_events (x : list (string * list value)) (a : App) : App :=
  mkApp (a_sessions a) (a_heap a) (a_histSessions a) (a_server a) (a_serverDone a) (a_serverTransportType a)
    (a_relayAddr a) (a_relayPassword a) (a_relaySessionTTL a) (a_relayTokens a) (a_relayListeners a) (a_p2pListener
    a) (a_p2pTokens a) (a_startCancel a) (a_dbPath a) (a_db a) (a_passphrase a) (a_storageReady a) (a_pubKey a)
    (a_myName a) (a_status a) (a_statusMsg a) (a_activeSessionID a) (a_verifMode a) (a_fingerprintFmt a) (a_params
    a) (a_logEntries a) (a_logBufferSize a) (a_logLevel a) (a_theme a) (a_verifRequests a) (a_verifIDCounter a)
    (a_radio a) (a_incognito a) (a_peers a) (a_os a) (a_disk a) (a_machine a) (a_clock a) (a_tpos a) (a_next a) x
    (a_hungup a) (a_stopped a) (a_cancelled a).
Definition put_hungup (x : list nat) (a : App) : App :=
  mkApp (a_sessions a) (a_heap a) (a_histSessions a) (a_server a) (a_serverDone a) (a_serverTransportType a)
    (a_relayAddr a) (a_relayPassword a) (a_relaySessionTTL a) (a_relayTokens a) (a_relayListeners a) (a_p2pListener
    a) (a_p2pTokens a) (a_startCancel a) (a_dbPath a) (a_db a) (a_passphrase a) (a_storageReady a) (a_pubKey a)
    (a_myName a) (a_status a) (a_statusMsg a) (a_activeSessionID a) (a_verifMode a) (a_fingerprintFmt a) (a_params
    a) (a_logEntries a) (a_logBufferSize a) (a_logLevel a) (a_theme a) (a_verifRequests a) (a_verifIDCounter a)
    (a_radio a) (a_incognito a) (a_peers a) (a_os a) (a_disk a) (a_machine a) (a_clock a) (a_tpos a) (a_next a)
    (a_events a) x (a_stopped a) (a_cancelled a).
Definition put_stopped (x : list nat) (a : App) : App :=
  mkApp (a_sessions a) (a_heap a) (a_histSessions a) (a_server a) (a_serverDone a) (a_serverTransportType a)
    (a_relayAddr a) (a_relayPassword a) (a_relaySessionTTL a) (a_relayTokens a) (a_relayListeners a) (a_p2pListener
    a) (a_p2pTokens a) (a_startCancel a) (a_dbPath a) (a_db a) (a_passphrase a) (a_storageReady a) (a_pubKey a)
    (a_myName a) (a_status a) (a_statusMsg a) (a_activeSessionID a) (a_verifMode a) (a_fingerprintFmt a) (a_params
    a) (a_logEntries a) (a_logBufferSize a) (a_logLevel a) (a_theme a) (a_verifRequests a) (a_verifIDCounter a)
    (a_radio a) (a_incognito a) (a_peers a) (a_os a) (a_disk a) (a_machine a) (a_clock a) (a_tpos a) (a_next a)
    (a_events a) (a_hungup a) x (a_cancelled a).
Definition put_cancelled (x : list nat) (a : App) : App :=
  mkApp (a_sessions a) (a_heap a) (a_histSessions a) (a_server a) (a_serverDone a) (a_serverTransportType a)
    (a_relayAddr a) (a_relayPassword a) (a_relaySessionTTL a) (a_relayTokens a) (a_relayListeners a) (a_p2pListener
    a) (a_p2pTokens a) (a_startCancel a) (a_dbPath a) (a_db a) (a_passphrase a) (a_storageReady a) (a_pubKey a)
    (a_myName a) (a_status a) (a_statusMsg a) (a_activeSessionID a) (a_verifMode a) (a_fingerprintFmt a) (a_params
    a) (a_logEntries a) (a_logBufferSize a) (a_logLevel a) (a_theme a) (a_verifRequests a) (a_verifIDCounter a)
    (a_radio a) (a_incognito a) (a_peers a) (a_os a) (a_disk a) (a_machine a) (a_clock a) (a_tpos a) (a_next a)
    (a_events a) (a_hungup a) (a_stopped a) x.

Definition bm (A : Type) : Type := App -> option (A * App).
Definition bret {A} (x : A) : bm A := fun a => Some (x, a).
Definition bbind {A B} (m : bm A) (k : A -> bm B) : bm B := fun a =>
  match m a with Some (x, a') => k x a' | None => None end.
Definition bget {A} (f : App -> A) : bm A := fun a => Some (f a, a).
Definition bset (f : App -> App) : bm unit := fun a => Some (tt, f a).
Definition bpanic {A} : bm A := fun _ => None.

End app.

Declare Scope bm_scope.
Delimit Scope bm_scope with bm.
Notation "'let@' x := m 'in' k" := (bbind m (fun x => k))
  (at level 100, x name, m at level 200, k at level 200) : bm_scope.
Notation "m ;@ k" := (bbind m (fun _ => k)) (at level 95, right associativity) : bm_scope.
#[local] Open Scope bm_scope.

Section handlers.
Context `{Crypto} `{ProtoRuntime} `{Bolt}.

(** ** Events, time, log, status *)

Definition EventsEmit (name : string) (data : list value) : bm unit :=
  bset (fun a => put_events (a_events a ++ [(name, data)]) a).

Definition bus_now : bm Z := fun a => Some (a_clock a (a_tpos a), put_tpos (S (a_tpos a)) a).
Definition bus_fresh : bm nat := fun a => Some (a_next a, put_next (S (a_next a)) a).

Definition bus_addLogEntry (level : string) (msg : text) : bm unit :=
  let@ now := bus_now in
  let entry := mkLogEntry now level (P "[cmd/bus] " :: msg) in
  bset (fun a => put_logEntries (push_log (a_logBufferSize a) (a_logEntries a) entry) a) ;@
  EventsEmit "log-entry" [log_value entry].

Definition bus_setStatus (status : ConnectionStatus) (msg : text) : bm unit :=
  bset (fun a => put_status status (put_statusMsg msg a)) ;@
  EventsEmit "status-changed" [VStr (status_text status); VText msg].

(** ** The storage *)

(** [OpenStorage] (pkg/storage/storage.go) with a path and a passphrase handler: the
    path it resolves and the open store. *)
Definition OpenStorage (dbPath : bytes) (handler : result bytes) : bm (result (bytes * store)) := fun a =>
  match (match dbPath with
         | [] => match os_env (a_os a) with
                 | [] => map_err (wrapf "getting user's home directory") (os_home_db (a_os a))
                 | env => Ok env
                 end
         | _ => Ok dbPath
         end) with
  | Err e => Some (Err e, a)
  | Ok path =>
      match os_Mkdir (a_os a) path with
      | Err e => Some (Err (wrapf "creating database directory" e), a)
      | Ok _ =>
          match handler with
          | Err e => Some (Err (wrapf "getting passphrase" e), a)
          | Ok pass =>
              let file := a_disk a !! path in
              let base := set_db (default empty_db file) (a_machine a) in
              let '(r, s) := NewBoltDB true (bool_decide (is_Some file)) (os_Open (a_os a) path) pass base in
              let a := match os_Open (a_os a) path with
                       | Ok _ => put_disk (<[path := s_db s]> (a_disk a)) a
                       | Err _ => a
                       end in
              match r with
              | Err e => Some (Err (wrapf "opening kamune db" e), put_machine s a)
              | Ok _ => Some (Ok (path, s), a)
              end
          end
      end
  end.

(** [a.store()]: whether it is not nil. *)
Definition bus_store : bm bool :=
  let@ db := bget a_db in
  match db with
  | Some _ => bret true
  | None =>
      let@ path := bget a_dbPath in let@ pass := bget a_passphrase in
      let@ r := OpenStorage path (Ok pass) in
      match r with Err _ => bret false | Ok x => bset (put_db (Some x)) ;@ bret true end
  end.

(** [if a.db != nil { a.db.Close(); a.db = nil }] *)
Definition close_db : bm unit := fun a =>
  Some (tt, match a_db a with
            | None => a
            | Some (path, s) => put_db None (put_machine s (put_disk (<[path := s_db s]> (a_disk a)) a))
            end).

(** A method of the open storage; calling one through a nil pointer panics. *)
Definition bcall_opt {A} (f : store -> option (result A * store)) : bm (result A) := fun a =>
  match a_db a with
  | None => None
  | Some (path, s) => match f s with Some (r, s') => Some (r, put_db (Some (path, s')) a) | None => None end
  end.
Definition bcall {A} (f : go store A) : bm (result A) := bcall_opt (fun s => Some (f s)).

(** [if store := a.store(); store != nil {...}] *)
Definition with_bus_store {A} (none some : bm A) : bm A :=
  let@ ok := bus_store in if ok : bool then some else none.

Definition bus_name : bytes := str "bus".

(** [_ = store.SetSettings("bus", key, value)] *)
Definition save_setting (key : string) (v : bytes) : bm unit :=
  with_bus_store (bret tt) (let@ _ := bcall (SetSettings bus_name (str key) v) in bret tt).

(** ** History *)

Definition bus_loadHistorySessions : bm unit :=
  let@ r := bcall ListSessionsByRecent in
  match r with
  | Err e => bus_addLogEntry "WARN" [P "Could not list history sessions: "; PE e]
  | Ok summaries =>
      bset (put_histSessions (map (fun s => mkHist (ss_ID s) (ss_Name s) false (ss_MessageCount s) (ss_FirstMessage s)
                                      (ss_LastMessage s)) summaries)) ;@
      EventsEmit "history-updated" []
  end.

Definition RenameHistorySession (sessionID name : bytes) : bm unit :=
  with_bus_store (bret tt)
    (let@ r := bcall (SetSessionName sessionID name) in
     match r with
     | Err e => bus_addLogEntry "ERROR" [P "Failed to rename history session: "; PE e]
     | Ok _ =>
         bset (fun a => put_histSessions (update_hist sessionID (fun hs => mkHist (hs_ID hs) name (hs_Loaded hs)
                            (hs_MessageCount hs) (hs_FirstMessage hs) (hs_LastMessage hs)) (a_histSessions a)) a) ;@
         EventsEmit "history-updated" [] ;@ bus_addLogEntry "INFO" [P "Renamed history session: "; PB sessionID]
     end).

Definition DeleteHistorySession (sessionID : bytes) : bm unit :=
  with_bus_store (bret tt)
    (let@ r := bcall (DeleteSession sessionID) in
     match r with
     | Err e => bus_addLogEntry "ERROR" [P "Failed to delete history session: "; PE e]
     | Ok _ =>
         bset (fun a => put_histSessions (remove_hist sessionID (a_histSessions a)) a) ;@
         EventsEmit "history-updated" [] ;@ bus_addLogEntry "INFO" [P "Deleted history session: "; PB sessionID]
     end).

Definition RefreshHistory : bm unit :=
  with_bus_store (bret tt) (bus_loadHistorySessions ;@ bus_addLogEntry "INFO" [P "History refreshed"]).

Definition LoadHistoryMessages (sessionID : bytes) : bm unit :=
  bset (fun a => put_histSessions (update_hist sessionID (fun hs => mkHist (hs_ID hs) (hs_Name hs) true (hs_MessageCount hs)
                     (hs_FirstMessage hs) (hs_LastMessage hs)) (a_histSessions a)) a) ;@
  EventsEmit "history-loaded" [VStr sessionID].

(** [nil] is [None]. *)
Definition GetHistoryMessages (sessionID : bytes) : bm (option (list MessageInfo)) :=
  let@ hist := bget a_histSessions in
  if negb (existsb (fun hs => bool_decide (hs_ID hs = sessionID) && hs_Loaded hs) hist) then bret None
  else with_bus_store (bret None)
    (let@ r := bcall_opt (GetChatHistory sessionID) in
     match r with
     | Err e => bus_addLogEntry "ERROR" [P "Failed to get chat history: "; PE e] ;@ bret None
     | Ok l => bret (Some (map message_of l))
     end).

(** ** Peers (peers.go) *)

Definition peerToInfo (p : Peer) : PeerInfo :=
  mkPeerInfo (Name p) (Base64 (PublicKey p)) (FirstSeen p) (LastSeen p) (emoji_text (PublicKey p)).

(** The order of [sort.SliceStable]: not (y before x). *)
Definition peer_le (x y : PeerInfo) : bool :=
  if pi_LastSeen x =? pi_LastSeen y then key_le (pi_Name x) (pi_Name y) else pi_LastSeen y <? pi_LastSeen x.

Definition refreshPeersCache : bm unit :=
  with_bus_store (bret tt)
    (let@ r := bcall ListPeers in
     match r with
     | Err e => bus_addLogEntry "WARN" [P "Failed to refresh peers cache: "; PE e]
     | Ok ps => bset (put_peers (sort_by peer_le (map peerToInfo ps))) ;@ EventsEmit "peers-updated" []
     end).

Definition peerKeyMatches (p : PeerInfo) (pub : bytes) : bool := bool_decide (pi_PublicKeyBase64 p = Base64 pub).

Definition ListKnownPeers : bm (list PeerInfo) := bget a_peers.

Definition bus_GetPeer (publicKeyB64 : bytes) : bm (result PeerInfo) :=
  match decodePeerPubKey publicKeyB64 with
  | Err e => bret (Err e)
  | Ok pub =>
      let@ ps := bget a_peers in
      bret (match list_find (fun p => peerKeyMatches p pub = true) ps with
            | Some (_, p) => Ok p
            | None => Err (errorf "peer not found")
            end)
  end.

Definition AddPeer (publicKeyB64 name : bytes) : bm (result unit) :=
  match decodePeerPubKey publicKeyB64 with
  | Err e => bret (Err e)
  | Ok pub =>
      with_bus_store (bret (Err (errorf "storage is not available")))
        (let@ found := bcall (FindPeer pub) in
         match found with
         | Ok _ => bret (Err (errorf "peer already exists"))
         | Err _ =>
             let name := match name with [] => Pseudonym pub | _ => name end in
             let@ now := bus_now in
             let@ stored := bcall (StorePeer (mkPeer now now name [] pub)) in
             match stored with
             | Err e => bret (Err (wrapf "store peer" e))
             | Ok _ => refreshPeersCache ;@ bus_addLogEntry "INFO" [P "Added peer: "; PB name] ;@ bret (Ok tt)
             end
         end)
  end.

Definition bus_DeletePeer (publicKeyB64 : bytes) : bm (result unit) :=
  match decodePeerPubKey publicKeyB64 with
  | Err e => bret (Err e)
  | Ok pub =>
      with_bus_store (bret (Err (errorf "storage is not available")))
        (let@ r := bcall (DeletePeer pub) in
         match r with
         | Err e => bret (Err (wrapf "delete peer" e))
         | Ok _ => refreshPeersCache ;@ bus_addLogEntry "INFO" [P "Deleted peer: "; PB publicKeyB64] ;@ bret (Ok tt)
         end)
  end.

Definition RenamePeer (publicKeyB64 name : bytes) : bm (result unit) :=
  match decodePeerPubKey publicKeyB64 with
  | Err e => bret (Err e)
  | Ok pub =>
      match TrimSpace name with
      | [] => bret (Err (errorf "name is required"))
      | trimmed =>
          with_bus_store (bret (Err (errorf "storage is not available")))
            (let@ found := bcall (FindPeer pub) in
             match found with
             | Err _ => bret (Err (errorf "peer not found"))
             | Ok p =>
                 let@ stored := bcall (StorePeer (mkPeer (FirstSeen p) (LastSeen p) trimmed (AppVersionOf p) (PublicKey p))) in
                 match stored with
                 | Err e => bret (Err (wrapf "store peer" e))
                 | Ok _ => refreshPeersCache ;@ bus_addLogEntry "INFO" [P "Renamed peer to "; PB trimmed] ;@ bret (Ok tt)
                 end
             end)
      end
  end.

(** ** Start-up, passphrase, keychain (app.go) *)

(** What the operating system's keyring is asked is recorded with the events. *)
Definition keyring (call : string) (args : list value) : bm unit := EventsEmit call args.

Definition keychainService : bytes := str "kamune".
Definition keychainAccount (dbPath : bytes) : bytes := str "db-passphrase:" ++ dbPath.

Definition no_fingerprint : bm unit := EventsEmit "fingerprint-changed" [VStr []; VStr []; VStr []; VStr []].

Definition fingerprint_changed (pubKey : bytes) : bm unit :=
  EventsEmit "fingerprint-changed" [VStr (emoji_text pubKey); VStr (Base64 pubKey); VStr (Hex pubKey); VStr (Sum pubKey)].

Definition check_radio (mode : Z) (radio : list bool) : list bool :=
  let off := map (fun _ => false) radio in
  if (0 <=? mode) && (mode <? Z.of_nat (length off)) then <[Z.to_nat mode := true]> off else off.

Definition bus_get_setting (key : string) : bm (result bytes) := bcall (GetSettings bus_name (str key)).

(** The parts of [initFromStorage] for a loaded identity. *)
Definition load_name (pubKey : bytes) : bm unit :=
  let@ name := bus_get_setting "local_name" in
  match name with
  | Err _ => bret tt
  | Ok name =>
      let@ name := match name with
                   | [] => let n := Pseudonym pubKey in
                           let@ _ := bcall (SetSettings bus_name (str "local_name") n) in bret n
                   | _ => bret name
                   end in
      bset (put_myName name) ;@ EventsEmit "local-name-changed" [VStr name]
  end.

Definition load_mode : bm unit :=
  let@ modeStr := bus_get_setting "verification_mode" in
  match modeStr with
  | Ok ((_ :: _) as modeStr) =>
      match Atoi modeStr with
      | None => bret tt
      | Some mode =>
          bset (fun a => put_verifMode mode (put_radio (check_radio mode (a_radio a)) a)) ;@
          EventsEmit "verification-mode-changed" [VInt mode]
      end
  | _ => bret tt
  end.

Definition load_incognito : bm unit :=
  let@ inc := bus_get_setting "incognito" in
  match inc with
  | Ok inc => if bool_decide (inc = str "true") then bset (put_incognito true) ;@ EventsEmit "incognito-changed" [VBool true]
              else bret tt
  | Err _ => bret tt
  end.

Definition load_log_level : bm unit :=
  let@ level := bus_get_setting "log_level" in
  match level with
  | Ok ((_ :: _) as level) => bset (put_logLevel level) ;@ EventsEmit "log-level-changed" [VStr level]
  | _ => bret tt
  end.

Definition load_theme : bm unit :=
  let@ theme := bus_get_setting "theme" in
  match theme with
  | Ok ((_ :: _) as theme) => bset (put_theme theme) ;@ EventsEmit "theme-changed" [VStr theme]
  | _ => bret tt
  end.

Definition load_settings (pubKey : bytes) : bm unit :=
  load_name pubKey ;@ load_mode ;@ load_incognito ;@ load_log_level ;@ load_theme.

Definition initFromStorage : bm unit :=
  let@ path := bget a_dbPath in let@ disk := bget a_disk in
  if negb (bool_decide (is_Some (disk !! path))) then
    bus_addLogEntry "DEBUG" [P "No existing storage to load from"] ;@
    bset (fun a => put_pubKey [] (put_storageReady true a)) ;@
    EventsEmit "storage-ready" [] ;@ no_fingerprint
  else
    with_bus_store (bus_addLogEntry "ERROR" [P "Storage is not available"])
      (let@ r := bcall_opt store_PublicKey in
       match r with
       | Ok pubKey =>
           bset (fun a => put_pubKey pubKey (put_storageReady true a)) ;@
           load_settings pubKey ;@
           EventsEmit "storage-ready" [] ;@ fingerprint_changed pubKey ;@
           bus_addLogEntry "INFO" [P "Loaded fingerprint from existing identity"]
       | Err e =>
           bset (fun a => put_pubKey [] (put_storageReady true a)) ;@
           EventsEmit "storage-ready" [] ;@ no_fingerprint ;@
           bus_addLogEntry "DEBUG" [P "No identity key found: "; PE e]
       end ;@
       bus_loadHistorySessions ;@ refreshPeersCache).

(** A passphrase of the keychain: opened with it, or forgotten. *)
Definition try_keychain (passphrase : bytes) (loaded invalid : string) : bm bool :=
  bset (put_passphrase passphrase) ;@
  let@ path := bget a_dbPath in
  let@ r := OpenStorage path (Ok passphrase) in
  match r with
  | Ok x => bset (put_db (Some x)) ;@ bus_addLogEntry "INFO" [P loaded] ;@ initFromStorage ;@ bret true
  | Err _ =>
      bset (put_passphrase []) ;@
      keyring "keyring.Delete" [VStr keychainService; VStr (keychainAccount path)] ;@
      bus_addLogEntry "WARN" [P invalid] ;@ bret false
  end.

(** [startup]; [key] is what [keyring.Get] returns. *)
Definition startup (key : result bytes) : bm unit :=
  let@ os := bget a_os in
  match os_home_db os with
  | Err e => bus_addLogEntry "ERROR" [P "Failed to get home dir: "; PE e]
  | Ok home =>
      bset (put_dbPath (match os_env os with [] => home | env => env end)) ;@
      let@ path := bget a_dbPath in
      keyring "keyring.Get" [VStr keychainService; VStr (keychainAccount path)] ;@
      let@ opened := match key with
                     | Ok [] => try_keychain [] "Loaded empty passphrase from keychain — no password"
                                  "Saved empty passphrase is invalid, clearing and prompting"
                     | Ok p => try_keychain p "Loaded passphrase from keychain"
                                 "Keychain passphrase is invalid, clearing and prompting"
                     | Err e => bus_addLogEntry "WARN" [P "Keychain lookup failed: "; PE e] ;@ bret false
                     end in
      if opened : bool then bret tt else bus_addLogEntry "INFO" [P "Application started — awaiting passphrase"]
  end.

(** [SubmitPassphrase]; [saved] is what [keyring.Set] returns. *)
Definition SubmitPassphrase (passphrase : bytes) (saveToKeychain : bool) (saved : result unit) : bm (result unit) :=
  bset (put_passphrase passphrase) ;@ close_db ;@
  with_bus_store
    (bset (put_passphrase []) ;@ bret (Err (errorf "wrong passphrase or corrupted database")))
    ((if saveToKeychain then
        let@ path := bget a_dbPath in
        keyring "keyring.Set" [VStr keychainService; VStr (keychainAccount path); VStr passphrase] ;@
        match saved with
        | Err e => bus_addLogEntry "WARN" [P "Failed to save passphrase to keychain: "; PE e]
        | Ok _ => bus_addLogEntry "INFO" [P "Passphrase saved to keychain"]
        end
      else bret tt) ;@
     initFromStorage ;@ bret (Ok tt)).

Definition HasKeychainPassphrase (key : result bytes) : bm bool :=
  let@ path := bget a_dbPath in
  keyring "keyring.Get" [VStr keychainService; VStr (keychainAccount path)] ;@ bret (is_ok key).

Definition ClearKeychainPassphrase (deleted : result unit) : bm (result unit) :=
  let@ path := bget a_dbPath in
  keyring "keyring.Delete" [VStr keychainService; VStr (keychainAccount path)] ;@
  match deleted with
  | Err e => bret (Err (wrapf "failed to clear keychain" e))
  | Ok _ => bus_addLogEntry "INFO" [P "Passphrase cleared from keychain"] ;@ bret (Ok tt)
  end.

Definition SetDBPath (path : bytes) : bm unit :=
  bset (fun a => put_dbPath path (put_passphrase [] (put_pubKey [] (put_storageReady false a)))) ;@
  close_db ;@ no_fingerprint ;@ EventsEmit "request-passphrase" [] ;@
  bus_addLogEntry "INFO" [P "DB path changed to: "; PB path].

(** ** Settings *)

Definition maxNameLength : Z := 32.

Definition SetMyName (name : bytes) : bm (result unit) :=
  if maxNameLength <? blen name then bret (Err (errorf "name must be 32 characters or fewer"))
  else
    let@ stored := with_bus_store (bret (Ok tt)) (bcall (SetSettings bus_name (str "local_name") name)) in
    match stored with
    | Err e => bret (Err (wrapf "persist name" e))
    | Ok _ => bset (put_myName name) ;@ EventsEmit "local-name-changed" [VStr name] ;@ bret (Ok tt)
    end.

Definition GetFingerprint : bm (bytes * bytes * bytes * bytes) :=
  let@ k := bget a_pubKey in
  bret (match k with [] => ([], [], [], []) | _ => (emoji_text k, Base64 k, Hex k, Sum k) end).

Definition SetIncognito (on : bool) : bm bool :=
  let@ cur := bget a_incognito in
  if Bool.eqb cur on then bret false
  else
    bset (put_incognito on) ;@ save_setting "incognito" (FormatBool on) ;@
    bus_addLogEntry "INFO" [P "Incognito mode: "; PB (FormatBool on)] ;@
    EventsEmit "incognito-changed" [VBool on] ;@ bret true.

Definition SetTheme (theme : bytes) : bm unit :=
  let@ cur := bget a_theme in
  if bool_decide (cur = theme) then bret tt
  else
    bset (put_theme theme) ;@ save_setting "theme" theme ;@
    bus_addLogEntry "INFO" [P "Theme: "; PB theme] ;@ EventsEmit "theme-changed" [VStr theme].

Definition SetFingerprintFormat (fmt : bytes) : bm unit :=
  bset (put_fingerprintFmt fmt) ;@ EventsEmit "fingerprint-format-changed" [VStr fmt] ;@
  bus_addLogEntry "DEBUG" [P "Fingerprint format set to: "; PB fmt].

Definition SetLogLevel (level : bytes) : bm unit := bset (put_logLevel level) ;@ save_setting "log_level" level.

Definition VerificationModeStrict : Z := 0.
Definition VerificationModeQuick : Z := 1.
Definition VerificationModeAutoAccept : Z := 2.

Definition verifModeName (m : Z) : string :=
  if m =? VerificationModeStrict then "Strict"
  else if m =? VerificationModeQuick then "Quick"
  else if m =? VerificationModeAutoAccept then "Auto-Accept"
  else "Unknown".

(** [SetVerificationMode]; [answer] is what the dialog returns, [restartServer] the
    method of network.go. *)
Definition SetVerificationMode (restartServer : bm (result unit)) (answer : result bytes) (mode : Z) : bm bool :=
  let@ oldMode := bget a_verifMode in
  if oldMode =? mode then bret false
  else
    let@ server := bget a_server in
    let serverRunning := bool_decide (is_Some server) in
    if serverRunning && match answer with Err _ => true | Ok r => bool_decide (r = str "Cancel") end then bret false
    else
      bset (put_verifMode mode) ;@ save_setting "verification_mode" (Itoa mode) ;@
      bus_addLogEntry "INFO" [P "Verification mode set to: "; P (verifModeName mode)] ;@
      EventsEmit "verification-mode-changed" [VInt mode] ;@
     (if serverRunning then
        let@ r := restartServer in
        match r with
        | Ok _ => bret true
        | Err e =>
            bus_addLogEntry "ERROR" [P "Failed to restart server after mode change: "; PE e] ;@
            bset (put_verifMode oldMode) ;@ save_setting "verification_mode" (Itoa oldMode) ;@
            EventsEmit "verification-mode-changed" [VInt oldMode] ;@ bret false
        end
      else bret true).

(** [radioItems[i].Checked = true] after clearing all; out of range panics. *)
Definition radio_select (i : Z) : bm unit :=
  bset (fun a => put_radio (map (fun _ => false) (a_radio a)) a) ;@
  let@ radio := bget a_radio in
  if (0 <=? i) && (i <? Z.of_nat (length radio)) then bset (put_radio (<[Z.to_nat i := true]> radio)) else bpanic.

(** The menu's click handlers (main.go, [buildMenu]). *)
Definition setVerifMode (restartServer : bm (result unit)) (answer : result bytes) (mode : Z) : bm unit :=
  let@ ok := SetVerificationMode restartServer answer mode in
  if ok : bool then radio_select mode else let@ prev := bget a_verifMode in radio_select prev.


(** [incognitoItem.Click]. *)
Definition incognito_click : bm unit :=
  let@ current := bget a_incognito in
  if current : bool then let@ _ := SetIncognito false in bret tt else EventsEmit "request-incognito-confirm" [].

(** ** Sessions and history as the frontend reads them *)

Definition session_at (p : nat) : bm busSession := fun a => (fun s => (s, a)) <$> a_heap a !! p.

(** The first session of the list with this ID. *)
Definition live_session (sessionID : bytes) : bm (option nat) := fun a =>
  Some (snd <$> list_find (fun p => (bs_ID <$> a_heap a !! p) = Some sessionID) (a_sessions a), a).

Definition bus_SetActiveSession (sessionID : bytes) : bm unit := bset (put_activeSessionID sessionID).

Definition alter_session (p : nat) (f : busSession -> busSession) : bm unit :=
  bset (fun a => put_heap (alter f p (a_heap a)) a).

Definition RenameSession (sessionID name : bytes) : bm unit :=
  let@ found := live_session sessionID in
  match found with Some p => alter_session p (with_PeerName name) | None => bret tt end ;@
  EventsEmit "session-updated" [].

(** [msgs[i].Timestamp.Before(msgs[j].Timestamp)], as an order. *)
Definition earlier (x y : MessageInfo) : bool := mi_Timestamp x <=? mi_Timestamp y.

Definition GetSessionMessages (sessionID : bytes) : bm (option (list MessageInfo)) :=
  let@ found := live_session sessionID in
  match found with
  | None => bret None
  | Some p => let@ s := session_at p in bret (Some (sort_by earlier (bs_Messages s)))
  end.

Definition bus_session_value (s : busSession) : value :=
  VMap [("id"%string, VStr (bs_ID s)); ("peerName"%string, VStr (bs_PeerName s)); ("isServer"%string, VBool (bs_IsServer s));
        ("msgCount"%string, VInt (Z.of_nat (length (bs_Messages s)))); ("lastActivity"%string, VTime (bs_LastActivity s));
        ("transportType"%string, VStr (bs_TransportType s)); ("remoteVersion"%string, VStr (bs_RemoteVersion s));
        ("sessionTTL"%string, VInt (bs_SessionTTL s)); ("sessionStartedAt"%string, VTime (bs_SessionStartedAt s))].

Definition GetSessions : bm (list value) := fun a =>
  (fun l => (map bus_session_value l, a)) <$> mapM (fun p => a_heap a !! p) (a_sessions a).

Definition GetHistorySessions : bm (list value) := let@ l := bget a_histSessions in bret (map hist_value l).

Definition GetSessionInfo (zone : Z) (sessionID : bytes) : bm value :=
  let@ found := live_session sessionID in
  match found with
  | Some p =>
      let@ s := session_at p in
      bret (VMap [("type"%string, VStr (str "live")); ("peerName"%string, VStr (bs_PeerName s));
                  ("sessionID"%string, VStr (bs_ID s)); ("messageCount"%string, VInt (Z.of_nat (length (bs_Messages s))));
                  ("lastActivity"%string, VStr (RFC3339 zone (bs_LastActivity s)));
                  ("isServer"%string, VBool (bs_IsServer s)); ("transportType"%string, VStr (bs_TransportType s));
                  ("remoteVersion"%string, VStr (bs_RemoteVersion s))])
  | None =>
      let@ hist := bget a_histSessions in
      bret (match list_find (fun hs => hs_ID hs = sessionID) hist with
            | Some (_, hs) =>
                VMap [("type"%string, VStr (str "history")); ("name"%string, VStr (hs_Name hs));
                      ("sessionID"%string, VStr (hs_ID hs)); ("messageCount"%string, VInt (hs_MessageCount hs));
                      ("firstMessage"%string, VStr (RFC3339 zone (hs_FirstMessage hs)));
                      ("lastMessage"%string, VStr (RFC3339 zone (hs_LastMessage hs)))]
            | None => VNull
            end)
  end.

Definition GetRelayToken : bm bytes := let@ l := bget a_relayTokens in bret (from_option bt_Token [] (last l)).

(** ** Files *)

(** [fmt.Fprintf(f, ...)] of one entry. *)
Definition log_line (zone : Z) (e : LogEntryInfo) : text :=
  [PB (RFC3339 zone (le_Timestamp e)); P " ["; P (le_Level e); P "] "] ++ le_Message e ++ [PB [Byte.x0a]].

(** The lines the goroutine of [ExportLogsToFile] writes, [failing] the first
    write that fails, if any. *)
Definition export_lines (zone : Z) (entries : list LogEntryInfo) (created : result unit) (failing : option (nat * error))
  : bm (list text) :=
  match created with
  | Err e => bus_addLogEntry "ERROR" [P "Export logs: create file: "; PE e] ;@ bret []
  | Ok _ =>
      match failing with
      | Some (n, e) =>
          if (n <? length entries)%nat then
            bus_addLogEntry "ERROR" [P "Export logs: write: "; PE e] ;@ bret (map (log_line zone) (take n entries))
          else bret (map (log_line zone) entries)
      | None => bret (map (log_line zone) entries)
      end
  end.

(** [ExportLogsToFile]; [picked] is the path the dialog returns.  The file, when one
    is to be written, with what the goroutine will do. *)
Definition ExportLogsToFile (zone : Z) (picked : result bytes) (created : result unit) (failing : option (nat * error))
  : bm (result (option (bytes * bm (list text)))) :=
  let@ entries := bget a_logEntries in
  let@ _ := bus_now in
  bret (match picked with
        | Err e => Err (wrapf "save dialog" e)
        | Ok [] => Ok None
        | Ok path => Ok (Some (path, export_lines zone entries created failing))
        end).

Definition ClearLogs : bm unit := bset (put_logEntries []).

Definition png_prefix : bytes := str "data:image/png;base64,".

(** [SaveCardPNG]; the result is the file written. *)
Definition SaveCardPNG (dataURL : bytes) (picked : result bytes) (write : result unit) : bm (result (option (bytes * bytes))) :=
  match cut_prefix png_prefix dataURL with
  | None => bret (Err (errorf "invalid data URL"))
  | Some enc =>
      match DecodeString StdEncoding enc with
      | None => bret (Err (errorf "decode base64"))
      | Some data =>
          let@ _ := bus_now in
          bret (match picked with
                | Err e => Err (wrapf "save dialog" e)
                | Ok [] => Ok None
                | Ok path => match write with Err e => Err (wrapf "write file" e) | Ok _ => Ok (Some (path, data)) end
                end)
      end
  end.

(** ** The slog handler (loghandler.go) *)

Definition LevelDebug : Z := -4.
Definition LevelInfo : Z := 0.
Definition LevelWarn : Z := 4.
Definition LevelError : Z := 8.

Definition modulePrefix : bytes := str "github.com/kamune-org/kamune/".

(** The bytes before the first occurrence of [sep]. *)
Fixpoint before (sep b : bytes) : option bytes :=
  match cut_prefix sep b with
  | Some _ => Some []
  | None => match b with [] => None | x :: b' => cons x <$> before sep b' end
  end.

(** [callerPackage] of the function name [runtime.FuncForPC] finds. *)
Definition callerPackage (fn : option bytes) : bytes :=
  match fn with
  | None => []
  | Some name =>
      let name := match before (str ".(") name with
                  | Some b => b
                  | None => from_option fst name (cut_last (str ".") name)
                  end in
      if bool_decide (name = str "github.com/kamune-org/kamune") then str "kamune"
      else default name (cut_prefix modulePrefix name)
  end.

Definition level_name (level : Z) : string :=
  if LevelError <=? level then "ERROR"
  else if LevelWarn <=? level then "WARN"
  else if LevelDebug <=? level then "DEBUG"
  else "INFO".

(** [" |"] before the first attribute, then [" key=value"] for each. *)
Definition attrs_text (attrs : list (bytes * bytes)) : text :=
  match attrs with
  | [] => []
  | _ => P " |" :: concat (map (fun '(k, v) => [P " "; PB k; P "="; PB v]) attrs)
  end.

(** [Handle]; [stderr] is what the text handler returns. *)
Definition Handle (stderr : result unit) (fn : option bytes) (level : Z) (message : bytes) (attrs : list (bytes * bytes))
  : bm (result unit) :=
  match stderr with
  | Err e => bret (Err e)
  | Ok _ =>
      let msg := match callerPackage fn with [] => [PB message] | pkg => [P "["; PB pkg; P "] "; PB message] end ++ attrs_text attrs in
      let@ now := bus_now in
      let entry := mkLogEntry now (level_name level) msg in
      bset (fun a => put_logEntries (push_log (a_logBufferSize a) (a_logEntries a) entry) a) ;@
      EventsEmit "log-entry" [log_value entry] ;@ bret (Ok tt)
  end.


(** ** A new application *)

(** [NewApp] with the menu of [buildMenu], on a machine. *)
Definition NewApp (os : busOS) (disk : gmap bytes db) (machine : store) (clock : nat -> Z) : App :=
  mkApp [] [] [] None None [] [] [] 0 [] None None [] None [] None [] false [] [] StatusDisconnected [P "Not connected"] []
    VerificationModeQuick (str "hex") (mkServerParams [] [] [] [] [] [] [] [] false false) [] 200 (str "INFO") [] ∅ 0
    [false; true; false] false [] os disk machine clock 0 0 [] [] [] [].

End handlers.
