(* ===== verification/BusNet.v ===== *)
(** * The desktop application: servers, connections, sessions
      (cmd/bus/network.go, messaging.go, verifier.go, p2p.go, relay.go)

    Starting and stopping a server, the relay and broker tokens, dialling, the
    sessions that result, their receive and keep-alive loops, and the verifiers.
    What comes from the relay, the broker, the sockets, [kamune.NewServer] and
    [kamune.NewDialer] is an argument; [meanwhile] is what the other goroutines do
    while a method waits. *)

From S2P Require Import Prelude GoErr Strconv TimeFormat Encoding Process Wire Pb Route Version Crypto Fingerprint Enigma Serde Transport Bolt Engine Storage RelayToken DaemonNet NetIP BrokerCodec Daemon DaemonLaws DaemonP2P DaemonVerify DaemonServer DaemonLive Bus.
#[local] Open Scope bm_scope.

(** The first consumed token, and its listener, get the session's ID. *)
Fixpoint link_bus_token (sessionID : bytes) (l : list busToken) : list busToken :=
  match l with
  | [] => []
  | t :: r =>
      if bt_Consumed t
      then mkBusToken (bt_Token t) true (bt_TTL t) (bt_SessionTTL t) (bt_ExpiresAt t) (bt_Mode t) (bt_PeerPubB64 t)
             (bt_listener t) sessionID :: r
      else t :: link_bus_token sessionID r
  end.

(** The first unconsumed entry with the token is consumed. *)
Fixpoint consume_bus_token (token : bytes) (l : list busToken) : list busToken :=
  match l with
  | [] => []
  | t :: r =>
      if bool_decide (bt_Token t = token) && negb (bt_Consumed t)
      then mkBusToken (bt_Token t) true (bt_TTL t) (bt_SessionTTL t) (bt_ExpiresAt t) (bt_Mode t) (bt_PeerPubB64 t)
             (bt_listener t) (bt_sessionID t) :: r
      else t :: consume_bus_token token r
  end.

(** The list without the first entry that has the token. *)
Fixpoint drop_bus_token (token : bytes) (l : list busToken) : option (list busToken) :=
  match l with
  | [] => None
  | t :: r => if bool_decide (bt_Token t = token) then Some r else cons t <$> drop_bus_token token r
  end.

Section net.
Context `{Crypto} `{ProtoRuntime} `{Bolt}.

(** ** Verifiers (verifier.go) *)

Definition bus_request_verification (peer : Peer) (known : bool) (mode : string) : bm waiting :=
  let@ prevStatus := bget a_status in
  let@ prevMsg := bget a_statusMsg in
  let@ reqID := bget (fun a => i64 (u64 (a_verifIDCounter a + 1))) in
  bset (fun a => put_verifIDCounter reqID
          (put_verifRequests (<[reqID := mkPending [] (Name peer) (Hex (PublicKey peer))]> (a_verifRequests a)) a)) ;@
  bus_setStatus StatusVerifying [P "Verifying fingerprint of "; PB (Name peer); P "..."] ;@
  bus_addLogEntry "INFO" [P "Verifying peer: "; PB (Name peer)] ;@
  EventsEmit "verify-peer" [VMap [("requestID"%string, VInt reqID); ("peerID"%string, VStr (Name peer));
    ("peerName"%string, VStr (Name peer)); ("emoji"%string, VStr (emoji_text (PublicKey peer)));
    ("hex"%string, VStr (Hex (PublicKey peer))); ("known"%string, VBool known); ("mode"%string, VStr (str mode))]] ;@
  bret (mkWaiting reqID peer known prevStatus prevMsg).

(** [if !known && !a.incognito {...}], with the refresh of the cache. *)
Definition bus_save_peer (peer : Peer) (known : bool) : bm unit :=
  let@ incognito := bget a_incognito in
  if known || incognito then bret tt
  else
    let@ now := bus_now in
    let@ r := bcall (StorePeer (mkPeer now (LastSeen peer) (Name peer) (AppVersionOf peer) (PublicKey peer))) in
    match r with Err e => bus_addLogEntry "WARN" [P "Failed to save peer: "; PE e] | Ok _ => bret tt end ;@
    refreshPeersCache.

Definition bus_createStrictVerifier (peer : Peer) : bm waiting :=
  let@ found := bcall (FindPeer (PublicKey peer)) in
  bus_request_verification peer (is_ok found) "strict".

Definition bus_createQuickVerifier (peer : Peer) : bm (unit + waiting) :=
  let@ found := bcall (FindPeer (PublicKey peer)) in
  match found with
  | Ok _ => bus_addLogEntry "INFO" [P "Auto-accepted known peer: "; PB (Name peer)] ;@ bret (inl tt)
  | Err _ => let@ w := bus_request_verification peer false "quick" in bret (inr w)
  end.

Definition bus_createAutoAcceptVerifier (peer : Peer) : bm unit :=
  let@ found := bcall (FindPeer (PublicKey peer)) in
  bus_save_peer peer (is_ok found) ;@
  bus_addLogEntry "INFO" [P "Auto-accepted peer: "; PB (Name peer)].

(** The verifier of the mode that [getVerifier] reads, up to the point where it
    waits, if it does; [inl tt] accepts. *)
Definition bus_getVerifier (mode : Z) (peer : Peer) : bm (unit + waiting) :=
  if mode =? VerificationModeStrict then let@ w := bus_createStrictVerifier peer in bret (inr w)
  else if mode =? VerificationModeQuick then bus_createQuickVerifier peer
  else bus_createAutoAcceptVerifier peer ;@ bret (inl tt).

Definition bus_remove_request (reqID : Z) : bm unit :=
  bset (fun a => put_verifRequests (delete reqID (a_verifRequests a)) a).

(** [awaitVerification], then the rest of the verifier, for a verdict that is
    there; the model is stuck ([None]) where the code waits. *)
Definition bus_conclude (w : waiting) : bm (result unit) :=
  let@ requests := bget a_verifRequests in
  match requests !! w_reqID w with
  | Some (mkPending (verdict :: _) _ _) =>
      bus_remove_request (w_reqID w) ;@
      match verdict with
      | Some e => bret (Err e)
      | None => bus_setStatus (w_status w) (w_msg w) ;@ bus_save_peer (w_peer w) (w_known w) ;@ bret (Ok tt)
      end
  | _ => bpanic
  end.

Definition bus_time_out (w : waiting) : bm (result unit) :=
  bus_remove_request (w_reqID w) ;@
  bus_setStatus StatusError [P "Verification timed out"] ;@
  bus_addLogEntry "WARN" [P "Verification timed out for request: "; PB (Itoa (w_reqID w))] ;@
  bret (Err (errorf "verification timed out after 2m0s")).

Definition VerifyResponse (requestID : Z) (accepted : bool) : bm unit :=
  let@ requests := bget a_verifRequests in
  match requests !! requestID with
  | None => bus_addLogEntry "WARN" [P "Verification request not found: "; PB (Itoa requestID)]
  | Some pending =>
      let verdict := if accepted then None else Some (Sentinel ErrVerificationFailed) in
      bset (fun a => put_verifRequests (alter (offer verdict) requestID (a_verifRequests a)) a) ;@
      bus_addLogEntry "INFO" [P (if accepted then "Accepted peer: " else "Rejected peer: ");
                              PB (truncateSessionID (pv_peerID pending))]
  end.

(** ** Peer-to-peer tokens (p2p.go) *)

Definition bus_static_token (peerPubB64 : bytes) : bm (result bytes) :=
  let@ mine := bcall_opt store_PublicKey in
  match mine with
  | Err e => bret (Err (wrapf "get identity" e))
  | Ok myPubPKIX =>
      match parsePeerPubB64ToRaw (Base64 myPubPKIX) with
      | Err e => bret (Err (wrapf "decode local public key" e))
      | Ok myPubRaw =>
          match parsePeerPubB64ToRaw peerPubB64 with
          | Err e => bret (Err e)
          | Ok peerPubRaw => bret (map_err (wrapf "derive static token") (TokenFromKeys myPubRaw peerPubRaw))
          end
      end
  end.

(** [Ok None] is the nil token. *)
Definition bus_deriveP2PToken (peerPubB64 : bytes) : bm (result (option bytes)) :=
  let some r := match r : result bytes with Ok t => Ok (Some t) | Err e => Err e end in
  match peerPubB64 with
  | [] => bret (Ok None)
  | _ =>
      with_bus_store (bret (Err (errorf "storage is not available")))
        (match decodePeerPubKey peerPubB64 with
         | Err e => bret (Err (wrapf "decode peer public key" e))
         | Ok peerPubPKIX =>
             let@ found := bcall (FindSessionByPeer peerPubPKIX) in
             match found with
             | Err e => bret (Err (wrapf "find session by peer" e))
             | Ok [] => let@ t := bus_static_token peerPubB64 in bret (some t)
             | Ok sessionID =>
                 let@ m := bcall (GetMeta sessionID RelayTokensKey) in
                 match (match m with Ok m => decodeTokenList (m_value m) | Err _ => [] end) with
                 | t :: _ => bret (Ok (Some t))
                 | [] => let@ t := bus_static_token peerPubB64 in bret (some t)
                 end
             end
         end)
  end.

(** [p2pTokensSnapshot], emitted. *)
Definition emit_p2p_tokens : bm unit :=
  let@ l := bget a_p2pTokens in EventsEmit "p2p-tokens" [VList (map p2p_value l)].

Definition bus_GenerateP2PToken (brokerAddr peerPubB64 : bytes) (c : broker_calls) : bm (result bytes) :=
  if bool_decide (brokerAddr = []) then bret (Err (errorf "broker address is required"))
  else
    let@ derived := bus_deriveP2PToken peerPubB64 in
    match derived with
    | Err e => bret (Err e)
    | Ok static =>
        let@ l := bget a_p2pTokens in
        match list_find (fun t => reusable brokerAddr peerPubB64 static t = true) l with
        | Some (_, existing) =>
            match refreshBrokerRegistration (pt_Token existing) c with
            | Err e => bus_addLogEntry "WARN" [P "Failed to refresh existing p2p token: "; PE e]
            | Ok _ =>
                let@ now := bus_now in
                bset (fun a => put_p2pTokens (set_expiry (reusable brokerAddr peerPubB64 static)
                                 (now + p2pTokenRefreshInterval) (a_p2pTokens a)) a) ;@
                emit_p2p_tokens ;@
                bus_addLogEntry "INFO" [P "Refreshed p2p token lifetime: "; PB (pt_Token existing)]
            end ;@
            bret (Ok (pt_Token existing))
        | None =>
            match register_p2p static c with
            | Err e => bret (Err e)
            | Ok hexToken =>
                match static with
                | Some t =>
                    if negb (bool_decide (hex t = [])) && negb (bool_decide (hexToken = hex t))
                    then bus_addLogEntry "WARN" [P "Broker assigned a different token than derived: "; PB hexToken;
                                                 P " (expected "; PB (hex t); P ")"]
                    else bret tt
                | None => bret tt
                end ;@
                let mode := match static with Some _ => str "static" | None => str "random" end in
                let@ now := bus_now in
                bset (fun a => put_p2pTokens (a_p2pTokens a ++
                        [mkP2PToken hexToken false p2pTokenRefreshInterval (now + p2pTokenRefreshInterval) mode peerPubB64
                           brokerAddr]) a) ;@
                emit_p2p_tokens ;@
                bus_addLogEntry "INFO" [P (match static with Some _ => "Generated static p2p token: " | None => "Generated p2p token: " end);
                                        PB hexToken] ;@
                bret (Ok hexToken)
            end
        end
    end.

Definition bus_RemoveP2PToken (token : bytes) : bm (result unit) :=
  let@ l := bget a_p2pTokens in
  match drop_p2p token l with
  | None => bret (Err (errorf "token not found"))
  | Some r =>
      bset (put_p2pTokens r) ;@ emit_p2p_tokens ;@ bus_addLogEntry "INFO" [P "Removed p2p token: "; PB token] ;@
      bret (Ok tt)
  end.

Definition bus_removeP2PTokenByValue (token : bytes) : bm unit :=
  let@ l := bget a_p2pTokens in
  match drop_p2p token l with None => bret tt | Some r => bset (put_p2pTokens r) ;@ emit_p2p_tokens end.

Definition bus_refreshP2PToken (token : bytes) (c : broker_calls) : bm bool :=
  match bk_client c with
  | Err e => bus_addLogEntry "ERROR" [P "p2p token refresh: broker client: "; PE e] ;@ bret false
  | Ok _ =>
      match hex_DecodeString token with
      | None => bus_addLogEntry "ERROR" [P "p2p token refresh: decode token: "; PE illegal_hex] ;@ bret false
      | Some raw =>
          match bk_echo c with
          | Err e => bus_addLogEntry "ERROR" [P "p2p token refresh: echo: "; PE e] ;@ bret false
          | Ok _ =>
              match bk_register c (Some raw) with
              | Err e => bus_addLogEntry "ERROR" [P "p2p token refresh: register: "; PE e] ;@ bret false
              | Ok _ =>
                  let@ now := bus_now in
                  bset (fun a => put_p2pTokens (set_expiry (fun t => bool_decide (pt_Token t = token))
                                   (now + p2pTokenRefreshInterval) (a_p2pTokens a)) a) ;@
                  emit_p2p_tokens ;@ bret true
              end
          end
      end
  end.

(** The token of a dialer: a peer's, or one the listener has shared. *)
Definition resolveP2PDialerToken (peerPubB64 tokenHex : bytes) : bm (result (option bytes)) :=
  match peerPubB64, tokenHex with
  | _ :: _, _ :: _ => bret (Err (errorf "peer and token are mutually exclusive"))
  | _ :: _, [] => bus_deriveP2PToken peerPubB64
  | [], [] => bret (Err (errorf "either a peer or a token is required"))
  | [], _ =>
      bret (match hex_DecodeString tokenHex with
            | None => Err (wrapf "decode token" illegal_hex)
            | Some raw => Ok (Some raw)
            end)
  end.

Definition RegisterP2PDialer (brokerAddr peerPubB64 tokenHex : bytes) (c : broker_calls) : bm (result bytes) :=
  if bool_decide (brokerAddr = []) then bret (Err (errorf "broker address is required"))
  else
    let@ token := match peerPubB64, tokenHex with
                  | [], [] => bret (Err (errorf "either peer or token is required to register on the broker"))
                  | _, _ => resolveP2PDialerToken peerPubB64 tokenHex
                  end in
    match token with
    | Err e => bret (Err e)
    | Ok token =>
        match register_p2p token c with
        | Err e => bret (Err e)
        | Ok hexToken =>
            bus_addLogEntry "INFO" [P "Registered p2p dialer with token: "; PB hexToken] ;@ bret (Ok hexToken)
        end
    end.

(** ** Sessions (network.go) *)

Definition relay_token_value (t : busToken) : value :=
  VMap [("token"%string, VStr (bt_Token t)); ("consumed"%string, VBool (bt_Consumed t)); ("ttl"%string, VInt (bt_TTL t));
        ("sessionTtl"%string, VInt (bt_SessionTTL t)); ("expiresAt"%string, VTime (bt_ExpiresAt t));
        ("mode"%string, VStr (bt_Mode t)); ("peerPubB64"%string, VStr (bt_PeerPubB64 t))].

Definition emit_relay_tokens : bm unit :=
  let@ l := bget a_relayTokens in EventsEmit "relay-tokens" [VList (map relay_token_value l)].

(** [tokens] is the outcome of [relayconn.DeriveRelayTokens]. *)
Definition bus_deriveAndStoreRelayTokens (sessionID : bytes) (tokens : result (list bytes)) : bm unit :=
  match tokens with
  | Err e => bus_addLogEntry "WARN" [P "Failed to derive relay tokens: "; PE e]
  | Ok l =>
      with_bus_store (bret tt)
        (let@ r := bcall (SetMeta sessionID (NewByteSlicesMeta RelayTokensKey l)) in
         match r with
         | Err e => bus_addLogEntry "WARN" [P "Failed to store relay tokens: "; PE e]
         | Ok _ => bret tt
         end)
  end.

(** [if store := a.store(); store != nil && !a.incognito {...}] *)
Definition bus_record_session (sessionID peerKey : bytes) (tokens : result (list bytes)) : bm unit :=
  with_bus_store (bret tt)
    (let@ incognito := bget a_incognito in
     if incognito : bool then bret tt
     else
       let@ r := bcall_opt (CreateSession sessionID peerKey) in
       match r with
       | Err e => bus_addLogEntry "WARN" [P "Failed to create session record: "; PE e]
       | Ok _ => bret tt
       end ;@
       bus_deriveAndStoreRelayTokens sessionID tokens).

Definition bus_loadChatHistory (p : nat) : bm unit :=
  let@ incognito := bget a_incognito in
  if incognito : bool then bret tt
  else with_bus_store (bret tt)
    (let@ s := session_at p in
     let@ r := bcall_opt (GetChatHistory (bs_ID s)) in
     match r with
     | Err _ => bus_addLogEntry "DEBUG" [P "No history for session: "; PB (bs_ID s)]
     | Ok l =>
         alter_session p (fun s =>
           with_LastActivity (foldl (fun t e => Z.max t (ce_Timestamp e)) (bs_LastActivity s) l)
             (with_Messages (map message_of l) s))
     end).

Definition bus_warn_version (sessionID remote : bytes) : bm unit :=
  match checkMinorMismatch AppVersion remote with
  | Some msg => bus_addLogEntry "WARN" msg ;@ EventsEmit "version-warning" [VStr sessionID; VText msg]
  | None => bret tt
  end.

(** A new session object; the pointer to it. *)
Definition bus_new_session (s : busSession) : bm nat :=
  let@ p := bget (fun a => length (a_heap a)) in
  bset (fun a => put_heap (a_heap a ++ [s]) a) ;@ bret p.

(** [a.sessions = append(a.sessions, session)] and the two events. *)
Definition announce_session (p : nat) : bm unit :=
  bset (fun a => put_sessions (a_sessions a ++ [p]) a) ;@
  let@ s := session_at p in
  let@ started := bus_now in
  EventsEmit "session-new" [bus_session_value (with_SessionStartedAt started s)] ;@
  EventsEmit "session-messages" [VStr (bs_ID s); VList (map message_value (bs_Messages s))].

(** The pointers before and after the first session with the ID. *)
Fixpoint remove_first (heap : list busSession) (sessionID : bytes) (l : list nat) : list nat :=
  match l with
  | [] => []
  | p :: r => if bool_decide ((bs_ID <$> heap !! p) = Some sessionID) then r else p :: remove_first heap sessionID r
  end.

Definition bus_removeSession (sessionID : bytes) : bm nat :=
  bset (fun a => put_sessions (remove_first (a_heap a) sessionID (a_sessions a)) a) ;@
  bget (fun a => length (a_sessions a)).

(** [serverHandler] up to its receive loop. *)
Definition bus_serverHandler (t : nat) (sessionID : bytes) (peer : Peer) (tokens : result (list bytes)) : bm nat :=
  let@ transport := bget (fun a => match a_serverTransportType a with [] => str "tcp" | x => x end) in
  let@ ttl := bget a_relaySessionTTL in
  let@ now := bus_now in
  let@ started := bus_now in
  let@ ch := bus_fresh in
  let@ p := bus_new_session (mkBusSession sessionID (Name peer) (AppVersionOf peer) t [] now false true transport ttl started
                               0 zero_time [] false false ch) in
  bus_record_session sessionID (PublicKey peer) tokens ;@
  bset (fun a => put_relayTokens (link_bus_token sessionID (a_relayTokens a)) a) ;@
  bus_loadChatHistory p ;@
  bus_warn_version sessionID (AppVersionOf peer) ;@
  announce_session p ;@
  bus_addLogEntry "INFO" [P "New incoming connection: "; PB sessionID] ;@
  bret p.

(** ** Relay tokens *)

Definition bus_markRelayTokenConsumed (token : bytes) : bm unit :=
  bset (fun a => put_relayTokens (consume_bus_token token (a_relayTokens a)) a) ;@ emit_relay_tokens.

(** What it schedules: four seconds later the token is dropped. *)
Definition bus_discard_token (token : bytes) : bm unit :=
  let@ l := bget a_relayTokens in
  match drop_bus_token token l with
  | None => bret tt
  | Some r =>
      bset (put_relayTokens r) ;@ emit_relay_tokens ;@ bus_addLogEntry "INFO" [P "Discarded consumed relay token"]
  end.

(** [listen] is the outcome of [listenRelayTracked] with the token it is given. *)
Definition GenerateRelayToken (peerPubB64 : bytes) (listen : option bytes -> relay_listen) (meanwhile : bm unit)
    (added : result unit) : bm (result bytes) :=
  let@ listeners := bget a_relayListeners in
  match listeners with
  | None => bret (Err (errorf "relay is not configured — start a relay server first"))
  | Some _ =>
      let@ derived := bus_deriveP2PToken peerPubB64 in
      let staticToken := match derived with Ok t => t | Err _ => None end in
      meanwhile ;@
      match listen staticToken with
      | Err e => bret (Err e)
      | Ok (listener, token, ttl, sessionTTL) =>
          let relayMode := match staticToken with Some (_ :: _) => str "static" | _ => str "random" end in
          let@ listeners := bget a_relayListeners in
          match listeners with
          | None => bret (Err (errorf "server stopped while generating token"))
          | Some _ =>
              match added with
              | Err e => bret (Err (wrapf "add listener" e))
              | Ok _ =>
                  let@ now := bus_now in
                  bset (fun a => put_relayTokens (a_relayTokens a ++
                          [mkBusToken token false ttl sessionTTL (now + ttl) relayMode peerPubB64 listener []]) a) ;@
                  emit_relay_tokens ;@
                  bus_addLogEntry "INFO" [P "Generated relay token: "; PB token] ;@ bret (Ok token)
              end
          end
      end
  end.

Definition RemoveRelayToken (token : bytes) : bm (result unit) :=
  let@ l := bget a_relayTokens in
  match drop_bus_token token l with
  | None => bret (Err (errorf "token not found"))
  | Some r =>
      bset (put_relayTokens r) ;@ emit_relay_tokens ;@
      bus_addLogEntry "INFO" [P "Removed relay token: "; PB token] ;@ bret (Ok tt)
  end.

(** ** Starting a server *)

(** [bi_p2p]: [newP2PListener] with a token: the listener's token and address. *)
Record bus_start_inputs := mkBusStart {
  bi_relay : option bytes -> relay_listen;
  bi_meanwhile : bm unit;
  bi_added : result unit;                     (* multiListener.Add *)
  bi_p2p : option bytes -> result (bytes * bytes);
  bi_direct : result bytes;                   (* newDirectP2PListener: its address *)
  bi_calls : broker_calls;
  bi_server : bytes -> result (nat * bytes)   (* NewServer on an address: the server and its key *)
}.

(** The name a party shows: the one it was given, or a pseudonym. *)
Definition bus_own_name (name : bytes) : bm (result bytes) :=
  let@ incognito := bget a_incognito in
  if bool_decide (name = []) || incognito then
    let@ pub := bcall_opt store_PublicKey in
    bret (match pub with Ok k => Ok (Pseudonym k) | Err e => Err (wrapf "getting identity" e) end)
  else bret (Ok name).

(** [a.myName = name], and the setting unless the mode is incognito. *)
Definition set_own_name (name : bytes) : bm unit :=
  bset (put_myName name) ;@
  let@ incognito := bget a_incognito in
  if incognito : bool then bret tt
  else let@ _ := bcall (SetSettings bus_name (str "local_name") name) in bret tt.

Definition start_cancelled : bm (result (bytes * bytes)) :=
  bus_setStatus StatusDisconnected [P "Cancelled"] ;@
  bus_addLogEntry "INFO" [P "Server start cancelled"] ;@ bret (Err (errorf "cancelled")).

Definition start_failed (status : string) (log : text) (e : error) : bm (result (bytes * bytes)) :=
  bus_setStatus StatusError [P status] ;@ bus_addLogEntry "ERROR" log ;@ bret (Err e).

(** The relay's listener: the address of the server and the first token. *)
Definition start_relay (p : serverParams) (i : bus_start_inputs) : bm (result (bytes * bytes)) :=
  let@ pending := bget a_startCancel in
  match pending with
  | None => start_cancelled
  | Some _ =>
      let@ derived := bus_deriveP2PToken (sp_peerPubB64 p) in
      let static := match derived with Ok t => t | Err _ => None end in
      let relayMode := match static with Some (_ :: _) => str "static" | _ => str "random" end in
      bi_meanwhile i ;@
      match bi_relay i static with
      | Err e =>
          let@ pending := bget a_startCancel in
          match pending with
          | None => start_cancelled
          | Some _ => start_failed "Failed to connect to relay" [P "Relay listen failed: "; PE e] (wrapf "relay listen" e)
          end
      | Ok (listener, token, ttl, sessionTTL) =>
          match bi_added i with
          | Err e => bret (Err (wrapf "add listener" e))
          | Ok _ =>
              let@ ml := bus_fresh in
              let@ now := bus_now in
              bset (fun a => put_relayAddr (sp_relayAddr p) (put_relayPassword (sp_password p) (put_relaySessionTTL sessionTTL
                (put_relayListeners (Some ml) (put_relayTokens
                  [mkBusToken token false ttl sessionTTL (now + ttl) relayMode (sp_peerPubB64 p) listener []] a))))) ;@
              bret (Ok ([], token))
          end
      end
  end.

(** The listener that registers with a broker. *)
Definition start_p2p (p : serverParams) (addr : bytes) (i : bus_start_inputs) : bm (result (bytes * bytes)) :=
  let@ derived := bus_deriveP2PToken (sp_peerPubB64 p) in
  match derived with
  | Err e => start_failed "Failed to derive p2p token" [P "Failed to derive p2p token: "; PE e] (wrapf "derive p2p token" e)
  | Ok token =>
      match bi_p2p i token with
      | Err e => start_failed "Failed to start p2p listener" [P "p2p listener failed: "; PE e] (wrapf "p2p listener" e)
      | Ok (tokenHex, udp) =>
          match bi_added i with
          | Err e => bret (Err (wrapf "add p2p listener" e))
          | Ok _ =>
              let mode := match sp_peerPubB64 p with [] => str "random" | _ => str "static" end in
              let@ now := bus_now in
              bset (fun a => put_p2pListener (Some udp) (put_p2pTokens (a_p2pTokens a ++
                [mkP2PToken tokenHex false p2pTokenRefreshInterval (now + p2pTokenRefreshInterval) mode (sp_peerPubB64 p)
                   (sp_brokerAddr p)]) a)) ;@
              emit_p2p_tokens ;@ bret (Ok (addr, []))
          end
      end
  end.

(** The listener of each transport: the address the server gets, and the first
    relay token, empty for the other transports. *)
Definition bus_start_transport (p : serverParams) (addr : bytes) (i : bus_start_inputs) : bm (result (bytes * bytes)) :=
  if bool_decide (sp_transport p = str "relay") then start_relay p i
  else if bool_decide (sp_transport p = str "udp") then
    if sp_useP2P p && sp_useBroker p && negb (bool_decide (sp_brokerAddr p = [])) then start_p2p p addr i
    else if sp_useP2P p && negb (bool_decide (sp_directPeerAddr p = [])) then
      match bi_direct i with
      | Err e => start_failed "Failed to start direct p2p listener" [P "direct p2p listener failed: "; PE e]
                   (wrapf "direct p2p listener" e)
      | Ok udp =>
          match bi_added i with
          | Err e => bret (Err (wrapf "add direct p2p listener" e))
          | Ok _ => bset (put_p2pListener (Some udp)) ;@ bret (Ok (addr, []))
          end
      end
    else bret (Ok (addr, []))
  else bret (Ok (addr, [])).

(** The label of a transport: "p2p" for a punched UDP connection. *)
Definition transportTypeFor (transport : bytes) (useP2P : bool) : bytes :=
  if bool_decide (transport = str "udp") && useP2P then str "p2p" else transport.

(** The part after the server exists. *)
Definition bus_start_announce (p : serverParams) (addr pubKey firstToken : bytes) (i : bus_start_inputs) : bm bytes :=
  let label := transportTypeFor (sp_transport p) (sp_useP2P p) in
  fingerprint_changed pubKey ;@
  EventsEmit "server-running" [VBool true; VStr label] ;@
  let@ q := bget a_params in
  let@ l := bget a_p2pListener in
  (if bool_decide (sp_transport p = str "udp") && sp_useP2P q && sp_useBroker q && negb (bool_decide (sp_brokerAddr q = [])) &&
      bool_decide (l = None)
   then
     let@ r := bus_GenerateP2PToken (sp_brokerAddr q) (sp_peerPubB64 q) (bi_calls i) in
     match r with Err e => bus_addLogEntry "ERROR" [P "Failed to register p2p token: "; PE e] | Ok _ => bret tt end
   else bret tt) ;@
  let statusMsg :=
    if bool_decide (sp_transport p = str "relay") then [P "Server (relay) — connected to "; PB (sp_relayAddr p)]
    else match l with
         | Some udp => if bool_decide (sp_transport p = str "udp") then [P "Server (udp+p2p) — listening on "; PB udp]
                       else [P "Server running on "; PB addr]
         | None => [P "Server running on "; PB addr]
         end in
  bus_setStatus StatusConnected statusMsg ;@
  bus_addLogEntry "INFO" (P "Server started: " :: statusMsg) ;@
  bus_loadHistorySessions ;@
  match firstToken with
  | [] => bret tt
  | _ =>
      EventsEmit "relay-token" [VStr firstToken] ;@ emit_relay_tokens ;@
      bus_addLogEntry "INFO" [P "Relay token: "; PB firstToken]
  end ;@
  bret (emoji_text pubKey).

(** [StartServer] with the storage open. *)
Definition bus_start (p : serverParams) (i : bus_start_inputs) : bm (result (bytes * bytes)) :=
  let@ name := bus_own_name (sp_name p) in
  match name with
  | Err e => bret (Err e)
  | Ok name =>
      let addr := if bool_decide (sp_transport p = str "udp") && sp_useP2P p && bool_decide (sp_addr p = []) then str ":0"
                  else sp_addr p in
      set_own_name name ;@
      let@ t := bus_start_transport p addr i in
      match t with
      | Err e => bret (Err e)
      | Ok (addr, firstToken) =>
          match bi_server i addr with
          | Err e => start_failed "Failed to create server" [P "Failed to create server: "; PE e] (wrapf "create server" e)
          | Ok (srv, pubKey) =>
              let@ done := bus_fresh in
              bset (fun a => put_pubKey pubKey (put_server (Some srv) (put_serverDone (Some done)
                (put_serverTransportType (transportTypeFor (sp_transport p) (sp_useP2P p)) a)))) ;@
              let@ emoji := bus_start_announce p addr pubKey firstToken i in
              bret (Ok (emoji, firstToken))
          end
      end
  end.

(** [StartServer]: the fingerprint and the first relay token. *)
Definition StartServer (p : serverParams) (i : bus_start_inputs) : bm (result (bytes * bytes)) :=
  let@ running := bget a_server in
  match running with
  | Some _ => bret (Err (errorf "server is already running"))
  | None =>
      bus_setStatus StatusConnecting [P "Starting server..."] ;@
      bset (put_params p) ;@
      let@ ctx := bus_fresh in
      bset (fun a => put_startCancel (Some ctx)
              (put_cancelled (match a_startCancel a with Some c => a_cancelled a ++ [c] | None => a_cancelled a end) a)) ;@
      let@ r := with_bus_store (bret (Err (errorf "storage is not available"))) (bus_start p i) in
      bset (put_startCancel None) ;@ bret r
  end.

(** What the goroutine of the server does when [ListenAndServe] returns. *)
Definition bus_server_returned (r : result unit) : bm unit :=
  match r with Err e => bus_addLogEntry "ERROR" [P "Server stopped: "; PE e] | Ok _ => bret tt end ;@
  bset (fun a => let q := a_params a in
    put_relayTokens [] (put_relayAddr [] (put_relayPassword [] (put_relayListeners None (put_p2pListener None
      (put_server None (put_serverTransportType [] (put_p2pTokens []
        (put_params (mkServerParams (sp_addr q) (sp_transport q) (sp_relayAddr q) (sp_name q) (sp_password q) [] [] [] false false)
           a))))))))) ;@
  emit_p2p_tokens ;@
  let@ stopLabel := bget a_serverTransportType in
  EventsEmit "server-running" [VBool false; VStr stopLabel] ;@
  bus_setStatus StatusDisconnected [P "Server stopped"] ;@
  bus_addLogEntry "INFO" [P "Server stopped"].

(** ** Stopping *)

(** [answer] is what the dialog returns. *)
Definition ConfirmStopServer (answer : result bytes) : bm bool :=
  let@ l := bget a_sessions in
  match l with
  | [] => bret true
  | _ => bret (match answer with Err _ => false | Ok r => negb (bool_decide (r ∈ [str "Cancel"; []])) end)
  end.

(** The locked part of [StopServer] and [shutdown]: the server is closed, and the
    sessions are taken out of the list. *)
Definition take_sessions : bm (list nat) :=
  let@ l := bget a_sessions in
  bset (fun a => put_relayListeners None (put_server None (put_sessions [] (put_serverDone None
    (put_stopped (match a_server a with Some srv => a_stopped a ++ [srv] | None => a_stopped a end) a))))) ;@
  bret l.

(** [s.Transport.Close()] *)
Definition hang_up (p : nat) : bm unit :=
  let@ s := session_at p in bset (fun a => put_hungup (a_hungup a ++ [bs_Transport s]) a).

Fixpoint hang_up_all (l : list nat) : bm unit :=
  match l with [] => bret tt | p :: r => hang_up p ;@ hang_up_all r end.

Definition StopServer (meanwhile : bm unit) : bm (result unit) :=
  bus_setStatus StatusDisconnected [P "Stopping server..."] ;@
  bus_addLogEntry "INFO" [P "Stopping server..."] ;@
  let@ l := take_sessions in
  bset (fun a => put_relayTokens [] (put_relayAddr [] (put_relayPassword [] a))) ;@
  hang_up_all l ;@ meanwhile ;@ bret (Ok tt).

Definition bus_shutdown (meanwhile : bm unit) : bm unit :=
  bus_addLogEntry "INFO" [P "Application shutting down"] ;@
  let@ l := take_sessions in
  hang_up_all l ;@ meanwhile ;@ close_db ;@
  bus_addLogEntry "INFO" [P "Shutdown complete"].

Definition restartServer (meanwhile : bm unit) (i : bus_start_inputs) : bm (result unit) :=
  let@ p := bget a_params in
  bus_addLogEntry "INFO" [P "Restarting server to apply verification mode change"] ;@
  let@ stopped := StopServer meanwhile in
  match stopped with
  | Err e => bret (Err (wrapf "stop server" e))
  | Ok _ =>
      let@ r := StartServer p i in
      bret (match r with Ok _ => Ok tt | Err e => Err e end)
  end.

Definition CancelStartServer : bm unit :=
  bset (fun a => match a_startCancel a with
                 | Some c => put_startCancel None (put_cancelled (a_cancelled a ++ [c]) a)
                 | None => a
                 end) ;@
  bus_setStatus StatusDisconnected [P "Cancelled"] ;@
  bus_addLogEntry "INFO" [P "Server start cancelled by user"].

(** ** Dialling *)

Record connectParams := mkConnect {
  cp_addr : bytes; cp_transport : bytes; cp_relayAddr : bytes; cp_token : bytes; cp_name : bytes; cp_password : bytes;
  cp_brokerAddr : bytes; cp_peerPubB64 : bytes; cp_p2pToken : bytes; cp_useP2P : bool; cp_useBroker : bool
}.

(** [ci_match]: [WaitMatch] with a token: the peer's address; [ci_dialed]: [Dial]
    with the name it sends: the transport, its session and peer, the session's
    lifetime on the relay; [ci_tokens]: [DeriveRelayTokens]. *)
Record connect_inputs := mkConnectInputs {
  ci_match : option bytes -> result bytes; ci_punch : result unit; ci_direct : result unit; ci_dialer : result unit;
  ci_dialed : bytes -> result (nat * bytes * Peer * Z); ci_tokens : result (list bytes)
}.

(** [ConnectResult] and the error. *)
Inductive ConnectResult := ConnectedTo (sessionID : bytes) | ConnectError (code : string) (e : error).

(** The first part of [ConnectToServer]: the address to dial and the name to send. *)
Definition connect_peer (p : connectParams) (i : connect_inputs) : bm (string * error + bytes * bytes) :=
  let udp := bool_decide (cp_transport p = str "udp") in
  if udp && cp_useP2P p && cp_useBroker p then
    if bool_decide (cp_peerPubB64 p = []) && bool_decide (cp_p2pToken p = [])
    then bret (inl ("missing_peer_or_token"%string, errorf "P2P via broker requires either a known peer or a shared token"))
    else
      let@ token := resolveP2PDialerToken (cp_peerPubB64 p) (cp_p2pToken p) in
      match token with
      | Err e => bret (inl ("invalid_token"%string, e))
      | Ok token =>
          match ci_match i token with
          | Err e => bret (inl ("match_timeout"%string, wrapf "wait for match" e))
          | Ok peer =>
              bus_addLogEntry "INFO" [P "P2P match: peer at "; PB peer] ;@
              match ci_punch i with
              | Err e => bret (inl ("hole_punch_failed"%string, wrapf "hole-punch" e))
              | Ok _ =>
                  bus_addLogEntry "INFO" [P "Hole-punch succeeded"] ;@
                  bret (inr (str "p2p://" ++ peer, cp_name p))
              end
          end
      end
  else if udp && cp_useP2P p && negb (bool_decide (cp_addr p = [])) then
    bus_addLogEntry "INFO" [P "Direct P2P: punching "; PB (cp_addr p)] ;@
    match ci_direct i with
    | Err e => bret (inl ("hole_punch_failed"%string, wrapf "direct p2p dial" e))
    | Ok _ =>
        bus_addLogEntry "INFO" [P "Direct P2P: hole-punch succeeded"] ;@
        bret (inr (str "p2p://" ++ cp_addr p, cp_name p))
    end
  else
    let@ name := bus_own_name (cp_name p) in
    bret (match name with
          | Err e => inl ("identity_unavailable"%string, e)
          | Ok name => inr (cp_addr p, name)
          end).

(** The dial function of the transport: the address the dialer gets. *)
Definition connect_transport (p : connectParams) (addr : bytes) : bm (string * error + bytes) :=
  if bool_decide (cp_transport p = str "udp") && cp_useP2P p then bret (inr addr)
  else if bool_decide (cp_transport p = str "relay") then
    let@ tokenHex := match cp_peerPubB64 p with
                     | [] => bret (Ok (cp_token p))
                     | _ =>
                         let@ t := bus_deriveP2PToken (cp_peerPubB64 p) in
                         bret (match t with
                               | Ok t => Ok (hex (default [] t))
                               | Err e => Err (wrapf "derive static token" e)
                               end)
                     end in
    match tokenHex with
    | Err e => bret (inl ("invalid_peer_key"%string, e))
    | Ok tokenHex =>
        match dialRelayFuncWithSessionTTL (cp_relayAddr p) tokenHex with
        | Err e =>
            bus_setStatus StatusError [P "Failed to prepare relay dial"] ;@
            bus_addLogEntry "ERROR" [P "Relay dial preparation failed: "; PE e] ;@
            bret (inl ("relay_dial_failed"%string, wrapf "relay dial func" e))
        | Ok _ => bret (inr (cp_relayAddr p))
        end
    end
  else bret (inr addr).

(** [ConnectToServer] after [Dial] has returned the transport [t]. *)
Definition connect_session (p : connectParams) (addr : bytes) (t : nat) (sessionID : bytes) (peer : Peer) (ttl : Z)
    (tokens : result (list bytes)) : bm nat :=
  let@ now := bus_now in
  let@ started := bus_now in
  let@ ch := bus_fresh in
  let@ s := bus_new_session (mkBusSession sessionID (Name peer) (AppVersionOf peer) t [] now false false
                               (transportTypeFor (cp_transport p) (cp_useP2P p)) ttl started 0 zero_time [] true false ch) in
  bus_record_session sessionID (PublicKey peer) tokens ;@
  bus_loadChatHistory s ;@
  bus_warn_version sessionID (AppVersionOf peer) ;@
  announce_session s ;@
  bus_setStatus StatusConnected [P "Connected to "; PB addr] ;@
  bus_addLogEntry "INFO" [P "Connected | addr="; PB addr; P " session_id="; PB sessionID] ;@
  bret s.

Definition ConnectToServer (p : connectParams) (i : connect_inputs) : bm ConnectResult :=
  let fail x := bret (ConnectError (fst x) (snd x)) in
  bus_setStatus StatusConnecting [P "Connecting to "; PB (cp_addr p); P "..."] ;@
  with_bus_store (fail ("storage_unavailable"%string, errorf "storage is not available"))
    (let@ peer := connect_peer p i in
     match peer with
     | inl x => fail x
     | inr (addr, name) =>
         set_own_name name ;@
         let@ dial := connect_transport p addr in
         match dial with
         | inl x => fail x
         | inr addr =>
             match ci_dialer i with
             | Err e =>
                 bus_setStatus StatusError [P "Failed to create dialer"] ;@
                 bus_addLogEntry "ERROR" [P "Failed to create dialer: "; PE e] ;@
                 fail ("dialer_init_failed"%string, wrapf "create dialer" e)
             | Ok _ =>
                 match ci_dialed i name with
                 | Err e =>
                     bus_setStatus StatusError [P "Connection failed"] ;@
                     bus_addLogEntry "ERROR" [P "Dial failed: "; PE e] ;@
                     fail ("dial_failed"%string, wrapf "dial" e)
                 | Ok (t, sessionID, peer, ttl) =>
                     let@ _ := connect_session p addr t sessionID peer ttl (ci_tokens i) in
                     bret (ConnectedTo sessionID)
                 end
             end
         end
     end).

(** The relay tokens a reconnection tries in turn; with fewer than two it dials as
    before. *)
Definition bus_reconnect_tokens (relayAddr sessionID : bytes) : bm (list bytes) :=
  if bool_decide (relayAddr = []) then bret []
  else
    let@ m := bcall (GetMeta sessionID RelayTokensKey) in
    let tokens := match m with Ok m => decodeTokenList (m_value m) | Err _ => [] end in
    bret (if (1 <? length tokens)%nat && negb (bool_decide (TrimSpace relayAddr = [])) then tokens else []).

(** [DisconnectSession]; [meanwhile] covers the wait for the receive loop. *)
Definition DisconnectSession (sessionID : bytes) (meanwhile : bm unit) : bm (result unit) :=
  let@ found := live_session sessionID in
  match found with
  | None => bret (Err (errorf "session not found"))
  | Some p =>
      bset (fun a => put_sessions (remove_first (a_heap a) sessionID (a_sessions a)) a) ;@
      with_bus_store (bret tt)
        (let@ r := bcall (SetMeta sessionID (NewByteSlicesMeta ResumptionTokensKey [])) in
         match r with
         | Err e => bus_addLogEntry "WARN" [P "Failed to clear resumption tokens: "; PE e]
         | Ok _ => bret tt
         end) ;@
      alter_session p (fun s => if bs_reconnectFn s then with_cancelled true s else s) ;@
      hang_up p ;@ meanwhile ;@
      with_bus_store (bret tt) bus_loadHistorySessions ;@
      EventsEmit "session-closed" [VStr sessionID] ;@
      bus_addLogEntry "INFO" [P "Disconnected session: "; PB sessionID] ;@ bret (Ok tt)
  end.

(** ** The share card *)

(** [net.IP.IsLoopback]. *)
Definition IsLoopback (ip : bytes) : bool :=
  match To4 ip with
  | Some v4 => bool_decide (head v4 = Some Byte.x7f)
  | None => bool_decide (ip = replicate 15 Byte.x00 ++ [Byte.x01])
  end.

(** [detectLocalIP] of the addresses [net.InterfaceAddrs] returns, those that are
    networks. *)
Definition detectLocalIP (addrs : result (list bytes)) : result bytes :=
  match addrs with
  | Err e => Err e
  | Ok l =>
      match list_find (fun ip => negb (IsLoopback ip) && bool_decide (is_Some (To4 ip)) = true) l with
      | Some (_, ip) => Ok (IP_String ip)
      | None => Err (errorf "no non-loopback IPv4 address found")
      end
  end.

(** [ShareInfo]; the last component is [RelayInfo]: address, scheme, token, whether
    there is a password. *)
Record ShareInfo := mkShare {
  sh_URL : bytes; sh_Transport : bytes; sh_Address : bytes; sh_Port : bytes; sh_Emoji : bytes; sh_Hex : bytes;
  sh_Relay : option (bytes * bytes * bytes * bool)
}.

Definition bus_share_relay (relayAddr relayPassword pubKey : bytes) (listen : relay_listen) (meanwhile : bm unit)
    (added : result unit) : bm (result ShareInfo) :=
  meanwhile ;@
  match listen with
  | Err e => bret (Err (wrapf "generate relay token" e))
  | Ok (listener, token, ttl, sessionTTL) =>
      let@ listeners := bget a_relayListeners in
      match listeners with
      | None => bret (Err (errorf "server stopped while generating token"))
      | Some _ =>
          match added with
          | Err e => bret (Err (wrapf "add listener" e))
          | Ok _ =>
              let@ now := bus_now in
              bset (fun a => put_relayTokens (a_relayTokens a ++
                      [mkBusToken token false ttl sessionTTL (now + ttl) (str "random") [] listener []]) a) ;@
              emit_relay_tokens ;@
              bus_addLogEntry "INFO" [P "Share card: generated relay token: "; PB token] ;@
              let '(scheme, host, _) := parseRelayAddr relayAddr in
              let password := negb (bool_decide (relayPassword = [])) in
              bret (Ok (mkShare (str "relay://" ++ host ++ str "?token=" ++ token ++ str "&scheme=" ++ scheme ++
                                 (if password then str "&password=1" else [])) (str "relay") [] []
                          (emoji_text pubKey) (Hex pubKey) (Some (host, scheme, token, password))))
          end
      end
  end.

Definition GetShareInfo (addrs : result (list bytes)) (listen : relay_listen) (meanwhile : bm unit) (added : result unit)
  : bm (result ShareInfo) :=
  let@ a := bget (fun a => a) in
  match a_server a with
  | None => bret (Err (errorf "server is not running"))
  | Some _ =>
      let transport := a_serverTransportType a in
      if bool_decide (transport ∈ [str "tcp"; str "udp"]) then
        let '(host, port, autoDetect) := parseServerAddr (sp_addr (a_params a)) in
        match (if autoDetect : bool then detectLocalIP addrs else Ok host) with
        | Err e => bret (Err (wrapf "detect local IP" e))
        | Ok address =>
            bret (Ok (mkShare (transport ++ str "://" ++ address ++ str ":" ++ port) transport address port
                        (emoji_text (a_pubKey a)) (Hex (a_pubKey a)) None))
        end
      else if bool_decide (transport = str "relay")
      then bus_share_relay (a_relayAddr a) (a_relayPassword a) (a_pubKey a) listen meanwhile added
      else bret (Err (errorf "unknown transport"))
  end.

End net.
