(* ===== verification/BusChat.v ===== *)
(** * The desktop application: chatting and staying connected
      (cmd/bus/messaging.go, the reconnect loop of relay.go)

    Sending, the receive loop with its reconnection, the keep-alive loop, and the
    loop that registers a relay server again.  A loop is a state machine whose
    steps are the outcomes of the transport, so that methods may run between any
    two of them. *)

From S2P Require Import Prelude GoErr Strconv TimeFormat Encoding Process Wire Pb Route Version Crypto Fingerprint Enigma Serde Transport Bolt Engine Rotate Storage Sessions RelayToken DaemonNet NetIP BrokerCodec Daemon DaemonLaws DaemonP2P DaemonVerify DaemonServer DaemonLive Bus BusNet.
#[local] Open Scope bm_scope.

Section chat.
Context `{Crypto} `{ProtoRuntime} `{Bolt}.

(** ** Sending *)

Definition bus_append_message (p : nat) (m : MessageInfo) : bm unit :=
  let@ now := bus_now in
  alter_session p (fun s => with_LastActivity now (with_Messages (bs_Messages s ++ [m]) s)).

(** [if store := a.store(); store != nil && !a.incognito { store.AddChatEntry(...) }] *)
Definition bus_persist_message (sessionID data : bytes) (ts sender : Z) : bm unit :=
  with_bus_store (bret tt)
    (let@ incognito := bget a_incognito in
     if incognito : bool then bret tt else let@ _ := bcall (AddChatEntry sessionID data ts sender) in bret tt).

(** [sent] is the outcome of [Transport.Send]: the timestamp and the ID. *)
Definition bus_SendMessage (sessionID text : bytes) (sent : bytes -> result (Z * bytes)) : bm (result unit) :=
  match TrimSpace text with
  | [] => bret (Ok tt)
  | text =>
      let@ found := live_session sessionID in
      match found with
      | None => bret (Err (errorf "session not found"))
      | Some p =>
          match sent text with
          | Err e => bret (Err e)
          | Ok (ts, id) =>
              bus_append_message p (mkMessage text ts true) ;@
              bus_persist_message sessionID text ts SenderLocal ;@
              EventsEmit "message-sent" [VStr sessionID; message_value (mkMessage text ts true)] ;@
              EventsEmit "session-updated" [VStr sessionID] ;@
              bus_addLogEntry "DEBUG" [P "Sent message | session_id="; PB sessionID; P " msg_id="; PB id] ;@
              bret (Ok tt)
          end
      end
  end.

(** ** Receiving *)

Definition preview (text : bytes) : bytes := if 50 <? blen text then btake 50 text ++ str "..." else text.

(** A message that is neither ping nor pong. *)
Definition bus_receive_message (p : nat) (sessionID data : bytes) (ts : Z) (id : bytes) : bm unit :=
  bus_append_message p (mkMessage data ts false) ;@
  let@ active := bget a_activeSessionID in
  bus_persist_message sessionID data ts SenderPeer ;@
  (if bool_decide (active = sessionID) then bret tt
   else EventsEmit "notification" [VStr (str "New Message"); VStr (preview data)]) ;@
  EventsEmit "message-received" [VStr sessionID; message_value (mkMessage data ts false)] ;@
  EventsEmit "session-updated" [VStr sessionID] ;@
  bus_addLogEntry "DEBUG" [P "Received message | session_id="; PB sessionID; P " msg_id="; PB id].

(** [pong] is what the [Send] of the answer to a ping returns. *)
Definition bus_handle_received (p : nat) (sessionID : bytes) (route : Route) (data : bytes) (ts : Z) (id : bytes)
    (pong : result unit) : bm unit :=
  if route =? RoutePing then
    match pong with Err e => bus_addLogEntry "WARN" [P "Failed to send pong: "; PE e] | Ok _ => bret tt end
  else if route =? RoutePong then alter_session p (fun s => with_pongCh (chan_offer data (bs_pongCh s)) s)
  else bus_receive_message p sessionID data ts id.

Definition bus_log_stop (sessionID : bytes) (e : error) (why : rx_stop) : bm unit :=
  match why with
  | StopPeer => bus_addLogEntry "INFO" [P "Peer disconnected: "; PB sessionID]
  | StopConn => bus_addLogEntry "INFO" [P "Connection closed: "; PB sessionID]
  | StopError => bus_addLogEntry "ERROR" [P "Receive error: "; PE e]
  end.

(** The end of [receiveMessages]. *)
Definition bus_rx_end (p : nat) (sessionID : bytes) : bm rx_phase :=
  let@ remaining := bus_removeSession sessionID in
  with_bus_store (bret tt) bus_loadHistorySessions ;@
  EventsEmit "session-closed" [VStr sessionID] ;@
  match remaining with
  | O => bus_setStatus StatusDisconnected [P "Not connected"] ;@ bus_addLogEntry "INFO" [P "All sessions disconnected"]
  | _ => bret tt
  end ;@
  alter_session p (with_ReceiveDone true) ;@ bret RxReturned.

(** One outcome of [Transport.Receive] in [receiveMessages]: the route, the data,
    the timestamp and the ID of the message, and what answering a ping returns. *)
Definition bus_receiveMessages_step (p : nat) (received : result (Route * bytes * Z * bytes * result unit)) : bm rx_phase :=
  let@ s := session_at p in
  match received with
  | Ok (route, data, ts, id, pong) => bus_handle_received p (bs_ID s) route data ts id pong ;@ bret RxReceive
  | Err e =>
      match classify e with
      | None => bret RxReceive
      | Some why =>
          bus_log_stop (bs_ID s) e why ;@
          match why with
          | StopConn => if bs_reconnectFn s then bret (RxReconnect 0) else bus_rx_end p (bs_ID s)
          | _ => bus_rx_end p (bs_ID s)
          end
      end
  end.

(** One turn of [reconnectSession]'s loop; [redial] is the outcome of
    [reconnectFn]: the transport, and the relay tokens it derived. *)
Definition bus_reconnect_step (p attempt : nat) (redial : result (nat * result (list bytes))) : bm rx_phase :=
  let@ s := session_at p in
  if (0 <? attempt)%nat && bs_cancelled s then bus_rx_end p (bs_ID s)
  else
    let n := Itoa (Z.of_nat attempt + 1) in
    bus_addLogEntry "INFO" [P "Reconnecting session "; PB (bs_ID s); P " (attempt "; PB n; P "/10)"] ;@
    EventsEmit "session-reconnecting" [VStr (bs_ID s); VInt (Z.of_nat attempt + 1); VInt 10] ;@
    match redial with
    | Err e =>
        bus_addLogEntry "WARN" [P "Reconnect failed: "; PE e] ;@
        if (S attempt <? maxAttempts)%nat then bret (RxReconnect (S attempt))
        else bus_addLogEntry "WARN" [P "Reconnect failed after 10 attempts: "; PB (bs_ID s)] ;@ bus_rx_end p (bs_ID s)
    | Ok (t, tokens) =>
        bus_deriveAndStoreRelayTokens (bs_ID s) tokens ;@
        let@ ch := bus_fresh in
        alter_session p (fun s => with_Transport t (with_pingFailures 0 (with_pongCh [] (with_keepAliveDone ch s)))) ;@
        bus_addLogEntry "INFO" [P "Reconnected session "; PB (bs_ID s)] ;@
        EventsEmit "session-reconnected" [VStr (bs_ID s)] ;@ bret RxReceive
    end.

Inductive bus_event :=
  | BusReceived (r : result (Route * bytes * Z * bytes * result unit))
  | BusRedialled (r : result (nat * result (list bytes)))
  | BusOther (m : bm unit).

Definition bus_rx_step (p : nat) (st : rx_phase * App) (e : bus_event) : option (rx_phase * App) :=
  let '(phase, a) := st in
  match e, phase with
  | BusReceived r, RxReceive => bus_receiveMessages_step p r a
  | BusRedialled r, RxReconnect attempt => bus_reconnect_step p attempt r a
  | BusOther m, _ => match m a with Some (_, a') => Some (phase, a') | None => None end
  | _, _ => None
  end.

Fixpoint bus_rx_run (p : nat) (st : rx_phase * App) (es : list bus_event) : option (rx_phase * App) :=
  match es with
  | [] => Some st
  | e :: es => match bus_rx_step p st e with Some st' => bus_rx_run p st' es | None => None end
  end.

(** ** Keep-alive *)

(** One tick of [keepAliveLoop], with the outcome of the ping; whether the loop goes
    on. *)
Definition bus_keepAlive_tick (p : nat) (ping : result unit) : bm bool :=
  let@ s := session_at p in
  bus_addLogEntry "DEBUG" [P "keepalive: pinging peer | session_id="; PB (bs_ID s); P " failures="; PB (Itoa (bs_pingFailures s))] ;@
  match ping with
  | Err e =>
      let failures := bs_pingFailures s + 1 in
      alter_session p (with_pingFailures failures) ;@
      bus_addLogEntry "DEBUG" [P "keepalive: ping failed | session_id="; PB (bs_ID s); P " error="; PE e; P " failures=";
                               PB (Itoa failures)] ;@
      if 3 <=? failures then
        bus_addLogEntry "WARN" [P "Peer unresponsive: "; PB (bs_PeerName s)] ;@ hang_up p ;@ bret false
      else bret true
  | Ok _ =>
      alter_session p (with_pingFailures 0) ;@
      let@ now := bus_now in
      alter_session p (with_lastPongAt now) ;@
      bus_addLogEntry "DEBUG" [P "keepalive: pong received | session_id="; PB (bs_ID s)] ;@ bret true
  end.

(** ** Registering the relay server again (relay.go) *)

(** The start of [relayReconnectLoop]: the session of the last tracker; every
    listener in the list is one. *)
Definition relay_reconnect_start : bm (option bytes) :=
  let@ l := bget a_relayTokens in bret (bt_sessionID <$> last l).

(** The tokens in turn, until one is registered: [listen] is the outcome of
    [listenRelayTracked] with a token, [added] that of [multiListener.Add]. *)
Fixpoint register_again (sessionID : bytes) (listen : bytes -> relay_listen) (added : nat -> result unit) (tokens : list bytes)
  : bm bool :=
  match tokens with
  | [] => bret false
  | t :: rest =>
      match listen t with
      | Err _ => register_again sessionID listen added rest
      | Ok (listener, tokenHex, ttl, sessionTTL) =>
          match added listener with
          | Err _ => register_again sessionID listen added rest
          | Ok _ =>
              let@ now := bus_now in
              bset (fun a => put_relayTokens (a_relayTokens a ++
                [mkBusToken tokenHex false ttl sessionTTL (now + ttl) (str "ecdh") [] listener sessionID]) a) ;@
              if blen tokenHex <? 8 then bpanic (* tokenHex[:8] *) else bret true
          end
      end
  end.

(** One turn of the loop, after the listener has died; whether it goes on. *)
Definition relay_reconnect_turn (sessionID : bytes) (listen : bytes -> relay_listen) (added : nat -> result unit) : bm bool :=
  let@ server := bget a_server in
  match server with
  | None => bret false
  | Some _ =>
      with_bus_store (bret false)
        (let@ m := bcall (GetMeta sessionID RelayTokensKey) in
         match (match m with Ok m => decodeTokenList (m_value m) | Err _ => [] end) with
         | [] => bret false
         | tokens =>
             let@ registered := register_again sessionID listen added tokens in
             if registered : bool then bret true
             else EventsEmit "relay-pool-exhausted" [VStr sessionID] ;@ bret false
         end)
  end.

End chat.
