(* ===== verification/BusLaws.v ===== *)
(** * The desktop application: restarts, first use, conversations, relay servers

    [settings_survive_restart]: a setting that the user changes is in force again
    when the application is started the next time.  [first_use_unprotected]: a
    setting changed before the passphrase is given creates the database without a
    passphrase.  [conversation_shown]: the window shows the messages exchanged.
    [relay_never_registered_again]: the loop that is to register a relay server
    again gives up. *)

From Stdlib Require Import Sorting.Sorted.
From S2P Require Import Prelude GoErr Strconv TimeFormat Encoding Process Wire Pb Route Version Crypto Fingerprint Enigma Serde Transport Bolt Engine Rotate Storage Sessions RelayToken DaemonNet NetIP BrokerCodec Daemon DaemonLaws DaemonP2P DaemonVerify DaemonServer DaemonLive Bus BusNet BusChat.
#[local] Open Scope bm_scope.

Section laws.
Context `{Crypto} `{ProtoRuntime} `{Bolt} `{!CryptoOk _} `{!BoltOk _}.
Implicit Types (a : App) (s : store).

(** ** Running a method *)

(** What logging and events leave alone. *)
Definition core a : option (bytes * store) * bytes * gmap bytes db * busOS * Z :=
  (a_db a, a_dbPath a, a_disk a, a_os a, a_verifMode a).

(** [m] returns and keeps the core. *)
Definition quiet {A} (m : bm A) : Prop := forall a, exists x a', m a = Some (x, a') /\ core a' = core a.

(** [m] returns, keeps the storage open and what [f] reads. *)
Definition steady {B} (f : App -> B) {A} (m : bm A) : Prop :=
  forall a, is_Some (a_db a) -> exists x a', m a = Some (x, a') /\ is_Some (a_db a') /\ f a' = f a.

Lemma quiet_log level msg : quiet (bus_addLogEntry level msg).
Proof. intros a. unfold bus_addLogEntry, bus_now, EventsEmit, bbind, bset. eexists _, _. split; reflexivity. Qed.

Lemma steady_bind {B} (f : App -> B) {A A'} (m : bm A) (k : A -> bm A') :
  steady f m -> (forall x, steady f (k x)) -> steady f (bbind m k).
Proof.
  intros Hm Hk a Ha. destruct (Hm a Ha) as (x & a1 & E & D & V). destruct (Hk x a1 D) as (y & a2 & E' & D' & V').
  exists y, a2. unfold bbind. rewrite E, E'. split_and!; [done|done|]. by rewrite V', V.
Qed.

Lemma steady_ret {B} (f : App -> B) {A} (x : A) : steady f (bret x).
Proof. intros a Ha. by eexists _, _. Qed.

Lemma steady_get {B} (f : App -> B) {A} (g : App -> A) : steady f (bget g).
Proof. intros a Ha. by eexists _, _. Qed.

Lemma steady_set {B} (f : App -> B) (g : App -> App) :
  (forall a, a_db (g a) = a_db a) -> (forall a, f (g a) = f a) -> steady f (bset g).
Proof. intros Hd Hf a Ha. eexists _, _. split; [reflexivity|]. by rewrite Hd, Hf. Qed.

Lemma steady_now {B} (f : App -> B) : (forall n a, f (put_tpos n a) = f a) -> steady f bus_now.
Proof. intros Hf a Ha. eexists _, _. split; [reflexivity|]. by rewrite Hf. Qed.

Lemma steady_call {B} (f : App -> B) {A} (m : go store A) :
  (forall x a, f (put_db x a) = f a) -> steady f (bcall m).
Proof.
  intros Hf a [[path s] Ha]. unfold bcall, bcall_opt. rewrite Ha. destruct (m s) as [r s']. eexists _, _.
  split; [reflexivity|]. split; [by eexists|apply Hf].
Qed.

Lemma steady_store {B} (f : App -> B) {A} (none some : bm A) : steady f some -> steady f (with_bus_store none some).
Proof.
  intros Hs a [[path s] Ha]. unfold with_bus_store, bus_store, bbind, bget. rewrite Ha. by apply Hs; rewrite Ha.
Qed.

End laws.

(** Runs through a method that keeps the storage open and what a projection reads. *)
Ltac steady :=
  repeat match goal with
  | |- steady _ (bbind _ _) => apply steady_bind; [|intros ?]
  | |- steady _ (with_bus_store _ _) => apply steady_store
  | |- steady _ (bset _) => apply steady_set; intros ?; reflexivity
  | |- steady _ (bget _) => apply steady_get
  | |- steady _ (bret _) => apply steady_ret
  | |- steady _ (bcall _) => apply steady_call; intros ? ?; reflexivity
  | |- steady _ bus_now => apply steady_now; intros ? ?; reflexivity
  | |- steady _ (bus_addLogEntry _ _) => unfold bus_addLogEntry
  | |- steady _ (EventsEmit _ _) => unfold EventsEmit
  | |- steady _ (match ?x with _ => _ end) => destruct x
  | |- _ => solve [auto]
  end.

Section restart.
Context `{Crypto} `{ProtoRuntime} `{Bolt} `{!CryptoOk _} `{!BoltOk _}.
Implicit Types (a : App) (s : store).

Lemma history_steady : steady a_verifMode bus_loadHistorySessions.
Proof. unfold bus_loadHistorySessions. steady. Qed.

Lemma peers_steady : steady a_verifMode refreshPeersCache.
Proof. unfold refreshPeersCache. steady. Qed.

(** ** Settings *)

Lemma GetSettings_pure app key s :
  app <> [] -> has_bucket (s_db s) [SettingsNamespace] = true -> exists r, GetSettings app key s = (r, s).
Proof.
  intros Ha Hb. unfold GetSettings, Query. destruct (Z.eqb_spec (blen app) 0) as [E|_]; [by apply blen_zero_nil in E|].
  pose proof (GetEncrypted_view _ false [SettingsNamespace] (settings_key app key) s eq_refl) as Hr.
  unfold gbind, Sub, sub_path. cbn [List.app]. rewrite Hb.
  destruct (view _ _ _) as [v|]; [rewrite Hr; by eexists|].
  destruct Hr as (e & -> & _). destruct (errors_is e ErrMissingItem); by eexists.
Qed.

(** The storage is open, and the setting [key] is [v]. *)
Definition stored a (key : string) (v : bytes) : Prop :=
  exists path s, a_db a = Some (path, s) /\ settings_ready s /\ GetSettings bus_name (str key) s = (Ok v, s).

Lemma save_ok key v a path s :
  a_db a = Some (path, s) -> settings_ready s -> key_ok (settings_key bus_name (str key)) -> blen v <= 2 ^ 20 ->
  exists s1, save_setting key v a = Some (tt, put_db (Some (path, s1)) a) /\
    SetSettings bus_name (str key) v s = (Ok tt, s1) /\ settings_ready s1 /\ same_frame s s1 /\
    (forall q, has_bucket (s_db s1) q = has_bucket (s_db s) q) /\
    (forall q j, q <> [SettingsNamespace] \/ j <> settings_key bus_name (str key) ->
       bucket_Get (s_db s1) q j = bucket_Get (s_db s) q j) /\
    GetSettings bus_name (str key) s1 = (Ok v, s1).
Proof.
  intros Ha Hr Hk Hv. destruct (SetSettings_ok bus_name (str key) v s) as (s1 & E & R1 & F1 & B1 & O1 & G1); [done..|].
  exists s1. split_and!; [|done..]. unfold save_setting, with_bus_store, bus_store, bbind, bget. rewrite Ha.
  unfold bret, bcall, bcall_opt. by rewrite Ha, E.
Qed.

Lemma words_short : Forall (fun w => blen (str w) <= 64) (adjectives ++ nouns).
Proof. apply (bool_decide_unpack _). vm_compute. done. Qed.

Lemma numbers_short : Forall (fun n => blen (Itoa n) <= 64) (seqZ 1 99).
Proof. apply (bool_decide_unpack _). vm_compute. done. Qed.

Lemma Pseudonym_short k : blen (Pseudonym k) <= 2 ^ 20.
Proof.
  pose proof words_short as Hw. rewrite Forall_app, !Forall_forall in Hw. destruct Hw as [Ha Hn].
  set (hash := sha256_Sum k).
  destruct (pick_in adjectives (be_get (bslice 0 4 hash))) as (a1 & H1' & E1); [apply be_get_nonneg|done|].
  destruct (pick_in adjectives (be_get (bslice 4 8 hash))) as (a2 & H2' & E2); [apply be_get_nonneg|done|].
  destruct (pick_in nouns (be_get (bslice 8 12 hash))) as (n & H3' & E3); [apply be_get_nonneg|done|].
  unfold Pseudonym. fold hash. cbv zeta. set (num := be_get (bslice 12 16 hash) mod 99 + 1). rewrite E1, E2, E3.
  pose proof (Z.mod_pos_bound (be_get (bslice 12 16 hash)) 99).
  pose proof numbers_short as Hd. rewrite Forall_forall in Hd.
  assert (blen (Itoa num) <= 64) by (apply Hd, elem_of_seqZ; unfold num; lia).
  rewrite !blen_app. change (blen (str " ")) with 1. specialize (Ha _ H1') as L1. specialize (Ha _ H2') as L2.
  specialize (Hn _ H3'). lia.
Qed.

(** Writing the name leaves the verification mode alone. *)
Lemma name_keeps_mode v s m :
  settings_ready s -> blen v <= 2 ^ 20 -> GetSettings bus_name (str "verification_mode") s = (Ok m, s) ->
  exists s1, SetSettings bus_name (str "local_name") v s = (Ok tt, s1) /\ settings_ready s1 /\
    GetSettings bus_name (str "verification_mode") s1 = (Ok m, s1).
Proof.
  intros Hr Hv Hm.
  destruct (settings_isolated bus_name (str "local_name") v bus_name (str "verification_mode") s) as (s1 & E & R1 & _ & O1);
    [done|done|split; by vm_compute|done|].
  exists s1. split_and!; [done|done|]. destruct (GetSettings_pure bus_name (str "verification_mode") s1) as [r Er]; [done|apply R1|].
  rewrite Er, Hm in O1. cbn in O1. rewrite Er. f_equal. apply O1; [apply (bool_decide_unpack _); by vm_compute..|by right].
Qed.

Lemma get_setting_ok key v a : stored a key v -> bus_get_setting key a = Some (Ok v, a).
Proof.
  intros (path & s & Ha & _ & Hg). unfold bus_get_setting, bcall, bcall_opt. rewrite Ha, Hg. f_equal. f_equal.
  by destruct a; cbn in *; subst.
Qed.

Lemma load_name_ok pubKey a m :
  stored a "verification_mode" m ->
  exists a1, load_name pubKey a = Some (tt, a1) /\ stored a1 "verification_mode" m.
Proof.
  intros (path & s & Ha & Hr & Hm).
  destruct (GetSettings_pure bus_name (str "local_name") s) as [r Er]; [done|apply Hr|].
  unfold load_name, bus_get_setting, bbind, bcall at 1, bcall_opt at 1. rewrite Ha, Er. destruct r as [[|x name]|e].
  - destruct (name_keeps_mode (Pseudonym pubKey) s m Hr (Pseudonym_short _) Hm) as (s1 & E & R1 & G1).
    unfold bcall, bcall_opt. cbn [a_db put_db]. rewrite E. eexists. split; [reflexivity|]. by exists path, s1.
  - eexists. split; [reflexivity|]. by exists path, s.
  - eexists. split; [reflexivity|]. by exists path, s.
Qed.

Lemma load_mode_ok a mode :
  MinInt64 <= mode <= MaxInt64 -> stored a "verification_mode" (Itoa mode) ->
  exists a1, load_mode a = Some (tt, a1) /\ is_Some (a_db a1) /\ a_verifMode a1 = mode.
Proof.
  intros Hrange Hst. unfold load_mode, bbind at 1. rewrite (get_setting_ok _ _ _ Hst).
  destruct (Itoa mode) as [|x m] eqn:Ei.
  { pose proof (Atoi_Itoa mode Hrange) as Ha. by rewrite Ei in Ha. }
  rewrite <- Ei, Atoi_Itoa by done. destruct Hst as (path & s & Ha & _).
  eexists. split; [reflexivity|]. split; [by exists (path, s)|reflexivity].
Qed.

(** The mode that is stored is in force once the settings are loaded. *)
Lemma load_settings_mode pubKey a mode :
  MinInt64 <= mode <= MaxInt64 -> stored a "verification_mode" (Itoa mode) ->
  exists a', load_settings pubKey a = Some (tt, a') /\ is_Some (a_db a') /\ a_verifMode a' = mode.
Proof.
  intros Hrange Hst. destruct (load_name_ok pubKey a _ Hst) as (a1 & E1 & Hst1).
  destruct (load_mode_ok a1 mode Hrange Hst1) as (a2 & E2 & D2 & V2).
  assert (Hs : steady a_verifMode (load_incognito ;@ load_log_level ;@ load_theme)).
  { unfold load_incognito, load_log_level, load_theme, bus_get_setting. steady. }
  destruct (Hs a2 D2) as ([] & a3 & E3 & D3 & V3). exists a3.
  unfold load_settings. unfold bbind at 1. rewrite E1. unfold bbind at 1. rewrite E2. split_and!; [done|done|congruence].
Qed.

(** ** Starting the application *)

(** The stored identity has the public key [pub]. *)
Definition has_identity s (pub : bytes) : Prop :=
  has_bucket (s_db s) [DefaultNamespace] = true /\
  exists id at_, view s [DefaultNamespace] attestKey = Some id /\ LoadAttest id = Ok at_ /\ MarshalPublicKey at_ = Some pub.

Lemma PublicKey_ok s pub : has_identity s pub -> store_PublicKey s = Some (Ok pub, s).
Proof.
  intros (Hb & id & at_ & Hv & Hl & Hm). unfold store_PublicKey, Attester, Query, gbind, Sub, sub_path. cbn [List.app]. rewrite Hb.
  pose proof (GetEncrypted_view _ false [DefaultNamespace] attestKey s eq_refl) as Hr. rewrite Hv in Hr.
  by rewrite Hr, Hl, Hm.
Qed.

Lemma initFromStorage_mode a path s pub mode :
  a_db a = Some (path, s) -> is_Some (a_disk a !! a_dbPath a) -> has_identity s pub ->
  MinInt64 <= mode <= MaxInt64 -> stored a "verification_mode" (Itoa mode) ->
  exists a', initFromStorage a = Some (tt, a') /\ a_verifMode a' = mode.
Proof.
  intros Ha Hd Hid Hrange Hst. unfold initFromStorage, bbind at 1 2, bget at 1 2. rewrite bool_decide_eq_true_2 by done.
  cbn [negb]. unfold with_bus_store, bus_store, bbind at 1 2, bget. rewrite Ha. unfold bret at 1.
  unfold bbind at 1, bcall_opt. rewrite Ha, (PublicKey_ok s pub Hid).
  replace (put_db (Some (path, s)) a) with a by (destruct a; cbn in *; by subst).
  set (a0 := put_pubKey pub (put_storageReady true a)).
  destruct (load_settings_mode pub a0 mode Hrange Hst) as (a1 & E1 & D1 & V1).
  assert (Hs : steady a_verifMode ((EventsEmit "storage-ready" [] ;@ fingerprint_changed pub ;@
                bus_addLogEntry "INFO" [P "Loaded fingerprint from existing identity"]) ;@
                bus_loadHistorySessions ;@ refreshPeersCache)).
  { unfold fingerprint_changed. steady; [apply history_steady|apply peers_steady]. }
  destruct (Hs a1 D1) as ([] & a2 & E2 & _ & V2). exists a2. split; [|congruence].
  rewrite <- E2. unfold bbind, bset. fold a0. by rewrite E1.
Qed.

(** The path [startup] uses, and a machine on which it can be opened. *)
Definition opens (os : busOS) (path : bytes) : Prop :=
  path <> [] /\ (exists home, os_home_db os = Ok home /\ path = match os_env os with [] => home | env => env end) /\
  os_Mkdir os path = Ok tt /\ os_Open os path = Ok tt.

Lemma OpenStorage_ok os path pass s1 a :
  opens os path -> a_os a = os ->
  NewBoltDB true (bool_decide (is_Some (a_disk a !! path))) (Ok tt) pass
    (set_db (default empty_db (a_disk a !! path)) (a_machine a)) = (Ok tt, s1) ->
  OpenStorage path (Ok pass) a = Some (Ok (path, s1), put_disk (<[path := s_db s1]> (a_disk a)) a).
Proof.
  intros (Hne & _ & Hm & Ho) Hos E. unfold OpenStorage. destruct path as [|x path]; [done|].
  rewrite Hos, Hm, Ho. by rewrite E.
Qed.

(** What a reader finds depends on the contents and the key only. *)
Definition same_contents s s' : Prop :=
  s_cipher s' = s_cipher s /\ forall q j, bucket_Get (s_db s') q j = bucket_Get (s_db s) q j.

Lemma same_view s s' q j : same_contents s s' -> view s' q j = view s q j.
Proof. intros [Hc Hg]. unfold view. by rewrite Hc, Hg. Qed.

Lemma GetSettings_same app key s s' v :
  app <> [] -> same_contents s s' -> has_bucket (s_db s) [SettingsNamespace] = true ->
  has_bucket (s_db s') [SettingsNamespace] = true ->
  GetSettings app key s = (Ok v, s) -> GetSettings app key s' = (Ok v, s').
Proof.
  intros Ha Hs Hb Hb' Hg. pose proof (GetSettings_spec app key s Ha Hb) as R.
  pose proof (GetSettings_spec app key s' Ha Hb') as R'. rewrite (same_view s s' _ _ Hs) in R'.
  destruct (view s _ _) as [v0|] eqn:Ev; [rewrite R'; congruence|]. destruct Hs as [Hc Hget]. rewrite Hget in R'.
  destruct (bucket_Get (s_db s) [SettingsNamespace] (settings_key app key)) as [ct|] eqn:Eg.
  - exfalso. pose proof (GetEncrypted_view _ false [SettingsNamespace] (settings_key app key) s eq_refl) as Hr.
    rewrite Ev in Hr. destruct Hr as (e & Er & Hm). rewrite Eg, bool_decide_eq_false_2 in Hm by done.
    unfold GetSettings, Query, gbind, Sub, sub_path in Hg. cbn [List.app] in Hg. rewrite Hb, Er, Hm in Hg.
    by destruct (blen app =? 0).
  - rewrite (R eq_refl) in Hg. rewrite (R' eq_refl). congruence.
Qed.

(** The passphrase of the keychain opens the database. *)
Lemma try_keychain_mode os path pass pub mode a s loaded invalid :
  opens os path -> a_os a = os -> a_dbPath a = path ->
  NewBoltDB true (bool_decide (is_Some (a_disk a !! path))) (Ok tt) pass
    (set_db (default empty_db (a_disk a !! path)) (a_machine a)) = (Ok tt, s) ->
  settings_ready s -> has_identity s pub -> MinInt64 <= mode <= MaxInt64 ->
  GetSettings bus_name (str "verification_mode") s = (Ok (Itoa mode), s) ->
  exists a', try_keychain pass loaded invalid a = Some (true, a') /\ a_verifMode a' = mode.
Proof.
  intros Hos Ea Hp E Hr Hid Hrange Hg. unfold try_keychain, bbind at 1 2 3, bset at 1, bget.
  change (a_dbPath (put_passphrase pass a)) with (a_dbPath a). rewrite Hp.
  rewrite (OpenStorage_ok os path pass s (put_passphrase pass a) Hos Ea E).
  unfold bbind at 1, bset at 1. set (a1 := put_db _ _).
  destruct (quiet_log "INFO" [P loaded] a1) as ([] & a2 & E2 & [= D2 P2 K2 _ _]).
  destruct (initFromStorage_mode a2 path s pub mode) as (a3 & E3 & V3).
  - by rewrite D2.
  - rewrite P2, K2. cbn. rewrite Hp, lookup_insert_eq. by eexists.
  - done.
  - done.
  - exists path, s. by rewrite D2.
  - exists a3. split; [|done]. unfold bbind. by rewrite E2, E3.
Qed.

(** A start-up with the passphrase in the keychain. *)
Lemma startup_mode os path pass secret pub mode a s :
  opens os path -> a_os a = os -> a_disk a !! path = Some (s_db s) -> keyed s pass secret ->
  settings_ready s -> has_bucket (s_db s) [] = false -> has_identity s pub ->
  MinInt64 <= mode <= MaxInt64 -> GetSettings bus_name (str "verification_mode") s = (Ok (Itoa mode), s) ->
  exists a', startup (Ok pass) a = Some (tt, a') /\ a_verifMode a' = mode.
Proof.
  intros Hos Ea Hd Hk (He & Hb & Hs) Hroot Hid Hrange Hg.
  destruct (reopen_keyed pass secret s (set_db (s_db s) (a_machine a)) true Hk Hroot) as (s3 & E3 & C3 & B3 & G3); [done|].
  cbn [s_db set_db] in B3, G3. assert (Hsc : same_contents s s3) by done.
  assert (Hr3 : settings_ready s3).
  { split_and!; [by rewrite C3|by rewrite B3, Hb, orb_true_r|]. intros k. by rewrite B3, Hs, orb_false_r. }
  assert (Hid3 : has_identity s3 pub).
  { destruct Hid as (Hdb & id & at_ & Hv & Hl). split; [by rewrite B3, Hdb, orb_true_r|]. exists id, at_.
    by rewrite (same_view s s3). }
  pose proof (GetSettings_same bus_name (str "verification_mode") s s3 _ ltac:(done) Hsc Hb ltac:(apply Hr3) Hg) as Hg3.
  pose proof Hos as (_ & (home & Hh & Hpath) & _).
  unfold startup, bbind at 1, bget at 1. rewrite Ea, Hh, <- Hpath.
  unfold bbind at 1, bset at 1, bbind at 1, bget at 1, bbind at 1, keyring, EventsEmit, bset.
  change (a_dbPath (put_dbPath path a)) with path. set (a1 := put_events _ _).
  assert (Hnew : NewBoltDB true (bool_decide (is_Some (a_disk a1 !! path))) (Ok tt) pass
            (set_db (default empty_db (a_disk a1 !! path)) (a_machine a1)) = (Ok tt, s3)).
  { change (a_disk a1) with (a_disk a). rewrite Hd, bool_decide_eq_true_2 by (by eexists). exact E3. }
  pose proof (fun l i => try_keychain_mode os path pass pub mode a1 s3 l i Hos Ea eq_refl Hnew Hr3 Hid3 Hrange Hg3) as Htry.
  unfold bbind. destruct pass as [|x pass].
  - destruct (Htry "Loaded empty passphrase from keychain — no password"%string
      "Saved empty passphrase is invalid, clearing and prompting"%string) as (a' & -> & V). by exists a'.
  - destruct (Htry "Loaded passphrase from keychain"%string
      "Keychain passphrase is invalid, clearing and prompting"%string) as (a' & -> & V). by exists a'.
Qed.

(** ** Changing a setting, and closing the application *)

Lemma Itoa_short n : blen (Itoa n) <= 2 ^ 20.
Proof.
  assert (Hd : forall f m acc, blen (itoa_digits f m acc) <= Z.of_nat f + blen acc).
  { induction f as [|f IH]; intros m acc; cbn [itoa_digits]; [lia|]. destruct (m <? 10); [rewrite blen_cons; lia|].
    etrans; [apply IH|]. rewrite blen_cons. lia. }
  unfold Itoa. destruct (n <? 0); [rewrite blen_app|]; (etrans; [|apply (Z.leb_le 30); reflexivity]).
  - change (blen (str "-")) with 1. pose proof (Hd 20%nat (- n) []). change (blen []) with 0 in *. lia.
  - etrans; [apply Hd|]. by vm_compute.
Qed.

Lemma log_sessions level msg a :
  exists a', bus_addLogEntry level msg a = Some (tt, a') /\ core a' = core a /\ a_sessions a' = a_sessions a /\ a_heap a' = a_heap a.
Proof. unfold bus_addLogEntry, bus_now, EventsEmit, bbind, bset. eexists. split_and!; reflexivity. Qed.

(** Without a server the mode is set, saved and announced. *)
Lemma SetVerificationMode_saves restart answer mode a a1 :
  a_server a = None -> mode <> a_verifMode a ->
  save_setting "verification_mode" (Itoa mode) (put_verifMode mode a) = Some (tt, a1) ->
  exists a2, SetVerificationMode restart answer mode a = Some (true, a2) /\
    core a2 = core a1 /\ a_sessions a2 = a_sessions a1 /\ a_heap a2 = a_heap a1.
Proof.
  intros Hsrv Hne E.
  destruct (log_sessions "INFO" [P "Verification mode set to: "; P (verifModeName mode)] a1) as (a2 & E2 & C2 & S2 & H2').
  eexists. split.
  - unfold SetVerificationMode, bbind at 1, bget at 1. destruct (Z.eqb_spec (a_verifMode a) mode); [congruence|].
    unfold bbind at 1, bget. rewrite Hsrv, bool_decide_eq_false_2 by (by intros [? ?]). cbn [andb].
    unfold bbind, bset. rewrite E, E2. unfold EventsEmit, bset, bret. reflexivity.
  - split_and!; [exact C2|exact S2|exact H2'].
Qed.

Lemma SetVerificationMode_ok restart answer mode a path s :
  a_db a = Some (path, s) -> settings_ready s -> a_server a = None -> mode <> a_verifMode a ->
  exists a1 s1, SetVerificationMode restart answer mode a = Some (true, a1) /\
    core a1 = (Some (path, s1), a_dbPath a, a_disk a, a_os a, mode) /\
    a_sessions a1 = a_sessions a /\ a_heap a1 = a_heap a /\
    settings_ready s1 /\ same_frame s s1 /\
    (forall q, has_bucket (s_db s1) q = has_bucket (s_db s) q) /\
    (forall q j, q <> [SettingsNamespace] -> bucket_Get (s_db s1) q j = bucket_Get (s_db s) q j) /\
    GetSettings bus_name (str "verification_mode") s1 = (Ok (Itoa mode), s1).
Proof.
  intros Ha Hr Hsrv Hne.
  destruct (save_ok "verification_mode" (Itoa mode) (put_verifMode mode a) path s) as (s1 & E & _ & R1 & F1 & B1 & O1 & G1);
    [done|done|split; by vm_compute|apply Itoa_short|].
  destruct (SetVerificationMode_saves restart answer mode a _ Hsrv Hne E) as (a2 & E2 & C2 & S2 & H2').
  exists a2, s1. split_and!; try done. intros q j Hq. apply O1. by left.
Qed.

Lemma hang_up_all_ok l a :
  Forall (fun p => (p < length (a_heap a))%nat) l -> exists a', hang_up_all l a = Some (tt, a') /\ core a' = core a.
Proof.
  intros Hl. revert a Hl. induction l as [|p l IH]; intros a Hl; [by eexists|]. inversion Hl as [|? ? Hp Hl']; subst.
  cbn [hang_up_all]. unfold bbind at 1, hang_up, session_at, bbind at 1. destruct (lookup_lt_is_Some_2 _ _ Hp) as [x ->]. cbn [fmap option_fmap option_map].
  unfold bset at 1. set (a1 := put_hungup _ _). destruct (IH a1) as (a' & E & C); [done|]. exists a'. by rewrite E.
Qed.

Lemma take_sessions_ok a :
  exists a', take_sessions a = Some (a_sessions a, a') /\ core a' = core a /\ a_heap a' = a_heap a.
Proof. unfold take_sessions, bbind, bget, bset, bret. eexists. split_and!; reflexivity. Qed.

Lemma close_db_ok a path s :
  a_db a = Some (path, s) -> exists a', close_db a = Some (tt, a') /\ a_disk a' = <[path := s_db s]> (a_disk a).
Proof. intros Ha. unfold close_db. rewrite Ha. eexists. split; reflexivity. Qed.

(** Closing the application writes the storage to its file. *)
Lemma bus_shutdown_ok a path s :
  a_db a = Some (path, s) -> Forall (fun p => (p < length (a_heap a))%nat) (a_sessions a) ->
  exists a', bus_shutdown (bret tt) a = Some (tt, a') /\ a_disk a' = <[path := s_db s]> (a_disk a).
Proof.
  intros Ha Hl. unfold bus_shutdown.
  destruct (log_sessions "INFO" [P "Application shutting down"] a) as (a1 & E1 & C1 & S1 & H1').
  destruct (take_sessions_ok a1) as (a2 & E2 & C2 & H2').
  destruct (hang_up_all_ok (a_sessions a1) a2) as (a3 & E3 & C3); [by rewrite H2', H1', S1|].
  assert (C : core a3 = core a) by congruence.
  assert (D3 : a_db a3 = a_db a) by (exact (f_equal (fun c => c.1.1.1.1) C)).
  assert (K3 : a_disk a3 = a_disk a) by (exact (f_equal (fun c => c.1.1.2) C)).
  destruct (close_db_ok a3 path s) as (a4 & E4 & K4); [by rewrite D3|].
  destruct (quiet_log "INFO" [P "Shutdown complete"] a4) as ([] & a5 & E5 & C5).
  exists a5. unfold bbind, bret. rewrite E1, E2, E3, E4. split; [exact E5|].
  rewrite <- K3, <- K4. exact (f_equal (fun c => c.1.1.2) C5).
Qed.

(** C20: A verification mode that the user chooses is stored, survives the end of the
    application, and is in force when the application is started again with the
    passphrase in the keychain: the new process opens the file with the same data
    key, loads the identity and the settings, and has that mode. *)
Theorem settings_survive_restart a path s pass secret pub mode restart answer os machine clock :
  a_db a = Some (path, s) -> keyed s pass secret -> settings_ready s -> has_bucket (s_db s) [] = false ->
  has_identity s pub -> a_server a = None -> Forall (fun p => (p < length (a_heap a))%nat) (a_sessions a) ->
  mode <> a_verifMode a -> MinInt64 <= mode <= MaxInt64 -> opens os path ->
  exists a1 a2 a3, SetVerificationMode restart answer mode a = Some (true, a1) /\
    bus_shutdown (bret tt) a1 = Some (tt, a2) /\
    startup (Ok pass) (NewApp os (a_disk a2) machine clock) = Some (tt, a3) /\ a_verifMode a3 = mode.
Proof.
  intros Ha Hk Hr Hroot Hid Hsrv Hl Hne Hrange Hos.
  destruct (SetVerificationMode_ok restart answer mode a path s Ha Hr Hsrv Hne)
    as (a1 & s1 & E1 & C1 & Hs1 & Hh1 & R1 & F1 & B1 & O1 & G1).
  assert (D1 : a_db a1 = Some (path, s1)) by (exact (f_equal (fun c => c.1.1.1.1) C1)).
  destruct (bus_shutdown_ok a1 path s1 D1) as (a2 & E2 & K2); [by rewrite Hs1, Hh1|].
  assert (Hdef : forall j, bucket_Get (s_db s1) [DefaultNamespace] j = bucket_Get (s_db s) [DefaultNamespace] j)
    by (intros j; by apply O1).
  destruct (startup_mode os path pass secret pub mode (NewApp os (a_disk a2) machine clock) s1) as (a3 & E3 & V3);
    [exact Hos|reflexivity| | |exact R1| | |exact Hrange|exact G1|].
  - change (a_disk a2 !! path = Some (s_db s1)). by rewrite K2, lookup_insert_eq.
  - destruct Hk as (Hlen & meta & kc & Hm & Hk). split; [done|]. exists meta, kc. destruct F1 as (-> & _).
    split; [|done]. unfold read_meta in *. by rewrite !Hdef.
  - by rewrite B1.
  - destruct Hid as (Hdb & id & at_ & Hv & Hl'). split; [by rewrite B1|]. exists id, at_. split; [|done].
    unfold view in *. destruct F1 as (-> & _). by rewrite Hdef.
  - by exists a1, a2, a3.
Qed.

(** ** Before the passphrase is given *)

(** The storage is opened when it is first used. *)
Lemma bus_store_opens a path s0 :
  a_db a = None -> a_dbPath a = path -> opens (a_os a) path -> a_disk a !! path = None ->
  NewBoltDB true false (Ok tt) (a_passphrase a) (set_db empty_db (a_machine a)) = (Ok tt, s0) ->
  bus_store a = Some (true, put_db (Some (path, s0)) (put_disk (<[path := s_db s0]> (a_disk a)) a)).
Proof.
  intros Hdb Hp Hos Hd E. unfold bus_store, bbind at 1, bget at 1. rewrite Hdb. unfold bbind at 1 2, bget. rewrite Hp.
  unfold bbind at 1. rewrite (OpenStorage_ok _ path _ s0 a Hos eq_refl); [reflexivity|]. by rewrite Hd.
Qed.

Lemma with_store_opens {A} (none some : bm A) a a1 path s0 :
  bus_store a = Some (true, a1) -> a_db a1 = Some (path, s0) ->
  with_bus_store none some a = with_bus_store none some a1.
Proof.
  intros E Ha. unfold with_bus_store, bbind. rewrite E. unfold bus_store, bbind, bget. by rewrite Ha.
Qed.

(** A new database can hold settings. *)
Lemma new_settings_ready pass secret s :
  keyed s pass secret -> (forall q, has_bucket (s_db s) q = bool_decide (q ∈ (fun n => [n]) <$> top_level)) -> settings_ready s.
Proof.
  intros Hk Hb. split_and!; [by eapply keyed_wf|by rewrite Hb|]. intros k. rewrite Hb. apply bool_decide_eq_false_2.
  intros Hin. by apply list_elem_of_fmap in Hin as (? & ? & _).
Qed.

(** C39: On a first use the menu of the verification modes works before the user has
    been asked for a passphrase: choosing a mode creates the database, and its data
    key is wrapped under the empty passphrase.  Whoever has the file opens it
    without a passphrase. *)
Theorem first_use_unprotected a path mode restart answer :
  a_db a = None -> a_passphrase a = [] -> a_dbPath a = path -> opens (a_os a) path -> a_disk a !! path = None ->
  a_server a = None -> mode <> a_verifMode a ->
  exists a1 s1 secret, SetVerificationMode restart answer mode a = Some (true, a1) /\ a_db a1 = Some (path, s1) /\
    keyed s1 [] secret /\
    exists a2, close_db a1 = Some (tt, a2) /\
      forall a3, a_os a3 = a_os a -> a_disk a3 !! path = a_disk a2 !! path ->
        exists s3 a4, OpenStorage path (Ok []) a3 = Some (Ok (path, s3), a4) /\ s_cipher s3 = s_cipher s1.
Proof.
  intros Hdb Hpass Hp Hos Hd Hsrv Hne.
  destruct (open_new [] (set_db empty_db (a_machine a)) eq_refl) as (s0 & secret & E0 & K0 & B0).
  set (a0 := put_verifMode mode a).
  pose proof (bus_store_opens a0 path s0 Hdb Hp Hos Hd) as Hopen. change (a_passphrase a0) with (a_passphrase a) in Hopen.
  rewrite Hpass in Hopen. specialize (Hopen E0). set (b := put_db _ _) in Hopen.
  destruct (save_ok "verification_mode" (Itoa mode) b path s0) as (s1 & E1 & _ & _ & F1 & B1 & O1 & _);
    [done|by eapply new_settings_ready|split; by vm_compute|apply Itoa_short|].
  assert (E : save_setting "verification_mode" (Itoa mode) a0 = Some (tt, put_db (Some (path, s1)) b))
    by (rewrite <- E1; exact (with_store_opens _ _ a0 b path s0 Hopen eq_refl)).
  destruct (SetVerificationMode_saves restart answer mode a _ Hsrv Hne E) as (a1 & E2 & C2 & _ & _).
  assert (D1 : a_db a1 = Some (path, s1)) by (exact (f_equal (fun c => c.1.1.1.1) C2)).
  assert (K1 : keyed s1 [] secret).
  { destruct K0 as (Hlen & meta & kc & Hm & Hk). split; [done|]. exists meta, kc. destruct F1 as (-> & _).
    split; [|done]. unfold read_meta in *. by rewrite !O1 by (by left). }
  exists a1, s1, secret. split_and!; [done|done|done|].
  destruct (close_db_ok a1 path s1 D1) as (a2 & E3 & K2). exists a2. split; [done|]. intros a3 Hos3 Hd3.
  rewrite K2, lookup_insert_eq in Hd3.
  destruct (reopen_keyed [] secret s1 (set_db (s_db s1) (a_machine a3)) true K1) as (s3 & E4 & C3 & _);
    [by rewrite B1, B0|done|].
  exists s3. eexists. split; [|exact C3]. apply (OpenStorage_ok (a_os a)); [done|done|].
  by rewrite Hd3, bool_decide_eq_true_2 by (by eexists).
Qed.

(** ** A conversation *)

Definition session_heap a : list nat * list busSession := (a_sessions a, a_heap a).

(** What the user sends and what the peer sends, with timestamps and IDs. *)
Inductive chat_op := ChatSent (text : bytes) (ts : Z) (id : bytes) | ChatReceived (data : bytes) (ts : Z) (id : bytes).

Definition chat_message (o : chat_op) : MessageInfo :=
  match o with
  | ChatSent text ts _ => mkMessage (TrimSpace text) ts true
  | ChatReceived data ts _ => mkMessage data ts false
  end.

Definition chat_event (sessionID : bytes) (o : chat_op) : bus_event :=
  match o with
  | ChatSent text ts id => BusOther (let@ _ := bus_SendMessage sessionID text (fun _ => Ok (ts, id)) in bret tt)
  | ChatReceived data ts id => BusReceived (Ok (RouteExchangeMessages, data, ts, id, Ok tt))
  end.

(** A message of spaces only is not sent. *)
Definition chat_ok (o : chat_op) : Prop := match o with ChatSent text _ _ => TrimSpace text <> [] | _ => True end.

(** The storage is open, and [p] is the session that methods find under the ID. *)
Definition chatting a (p : nat) (x : busSession) : Prop :=
  is_Some (a_db a) /\ a_heap a !! p = Some x /\ live_session (bs_ID x) a = Some (Some p, a).

Lemma persist_steady sid data ts sender : steady session_heap (bus_persist_message sid data ts sender).
Proof. unfold bus_persist_message. steady. Qed.

(** Appending a message changes that session only. *)
Lemma append_ok p m a x :
  chatting a p x -> exists a1 x1, bus_append_message p m a = Some (tt, a1) /\ chatting a1 p x1 /\
    bs_ID x1 = bs_ID x /\ bs_Messages x1 = bs_Messages x ++ [m].
Proof.
  intros (Hd & Hp & Hl). unfold bus_append_message, bbind, bus_now, alter_session, bset.
  set (f := fun s : busSession => _). set (a1 := put_heap _ _). exists a1, (f x).
  assert (Hh : a_heap a1 = alter f p (a_heap a)) by reflexivity.
  assert (Hp1 : a_heap a1 !! p = Some (f x)) by (by rewrite Hh, list_lookup_alter_eq, Hp).
  split; [reflexivity|]. split; [|split; reflexivity]. split; [exact Hd|]. split; [exact Hp1|].
  unfold live_session in *. injection Hl as Hl. change (bs_ID (f x)) with (bs_ID x). f_equal. f_equal.
  change (a_sessions a1) with (a_sessions a). rewrite <- Hl. f_equal. apply list_find_ext. intros q.
  rewrite Hh. destruct (decide (q = p)) as [->|Hne].
  - rewrite list_lookup_alter_eq, Hp. done.
  - by rewrite list_lookup_alter_ne.
Qed.

Lemma chatting_steady {A} (m : bm A) a p x :
  steady session_heap m -> chatting a p x -> exists y a1, m a = Some (y, a1) /\ chatting a1 p x.
Proof.
  intros Hm (Hd & Hp & Hl). destruct (Hm a Hd) as (y & a1 & E & D1 & [= Hs1 Hh1]). exists y, a1. split; [done|].
  unfold chatting, live_session in *. rewrite Hs1, Hh1. split_and!; [done|done|]. injection Hl as Hl. by rewrite Hl.
Qed.

(** One message, sent or received. *)
Lemma chat_step o p a x :
  chatting a p x -> chat_ok o ->
  exists a1 x1, bus_rx_step p (RxReceive, a) (chat_event (bs_ID x) o) = Some (RxReceive, a1) /\ chatting a1 p x1 /\
    bs_ID x1 = bs_ID x /\ bs_Messages x1 = bs_Messages x ++ [chat_message o].
Proof.
  intros Hc Ho. destruct (append_ok p (chat_message o) a x Hc) as (a1 & x1 & E1 & Hc1 & Hid & Hm).
  destruct o as [text ts id|data ts id]; cbn [chat_event bus_rx_step chat_message] in *.
  - destruct Hc as (_ & _ & Hl). unfold bbind at 1, bus_SendMessage.
    destruct (TrimSpace text) as [|b t] eqn:Et; [done|]. unfold bbind at 1. rewrite Hl. unfold bbind at 1. rewrite E1.
    match goal with |- context [?m a1] => destruct (chatting_steady m a1 p x1) as (y & a2 & -> & Hc2) end; [|done|].
    + steady. apply persist_steady.
    + by exists a2, x1.
  - destruct Hc as (_ & Hp & _). unfold bus_receiveMessages_step, session_at, bbind at 1. rewrite Hp. cbn [fmap option_fmap option_map].
    unfold bbind at 1, bus_handle_received. change (RouteExchangeMessages =? RoutePing) with false.
    change (RouteExchangeMessages =? RoutePong) with false. unfold bus_receive_message, bbind at 1. rewrite E1.
    match goal with |- context [?m a1] => destruct (chatting_steady m a1 p x1) as (y & a2 & -> & Hc2) end; [|done|].
    + steady. apply persist_steady.
    + by exists a2, x1.
Qed.

Lemma chat_run ops p : forall a x,
  chatting a p x -> Forall chat_ok ops ->
  exists a1 x1, bus_rx_run p (RxReceive, a) (map (chat_event (bs_ID x)) ops) = Some (RxReceive, a1) /\ chatting a1 p x1 /\
    bs_ID x1 = bs_ID x /\ bs_Messages x1 = bs_Messages x ++ map chat_message ops.
Proof.
  induction ops as [|o ops IH]; intros a x Hc Ho; [exists a, x; by rewrite app_nil_r|].
  inversion Ho as [|? ? Ho1 Ho2]; subst. destruct (chat_step o p a x Hc Ho1) as (a1 & x1 & E1 & Hc1 & Hid & Hm).
  destruct (IH a1 x1 Hc1 Ho2) as (a2 & x2 & E2 & Hc2 & Hid2 & Hm2). exists a2, x2. cbn [map bus_rx_run]. rewrite E1, <- Hid.
  split_and!; [exact E2|done|congruence|]. by rewrite Hm2, Hm, <- app_assoc.
Qed.

(** A stable sort keeps the order of the messages of one time. *)
Lemma insert_stable x l t :
  filter (fun m => mi_Timestamp m = t) (insert_by earlier x l) = filter (fun m => mi_Timestamp m = t) (x :: l).
Proof.
  induction l as [|y l IH]; [done|]. cbn [insert_by]. destruct (earlier x y) eqn:E; [done|].
  unfold earlier in E. apply Z.leb_gt in E. rewrite filter_cons, IH, !filter_cons.
  destruct (decide (mi_Timestamp y = t)), (decide (mi_Timestamp x = t)); (done || lia).
Qed.

Lemma sort_stable l t :
  filter (fun m => mi_Timestamp m = t) (sort_by earlier l) = filter (fun m => mi_Timestamp m = t) l.
Proof.
  induction l as [|x l IH]; [done|]. change (sort_by earlier (x :: l)) with (insert_by earlier x (sort_by earlier l)).
  by rewrite insert_stable, !filter_cons, IH.
Qed.

Lemma sorted_times l : Sorted (fun m n => mi_Timestamp m <= mi_Timestamp n) (sort_by earlier l).
Proof.
  assert (Hs : Sorted earlier (sort_by earlier l)).
  { apply sort_by_sorted. unfold earlier. intros m n E. apply Z.leb_gt in E. apply Z.leb_le. lia. }
  induction Hs as [|m r _ IH Hr]; constructor; [done|]. destruct Hr as [|n r Hn]; constructor.
  by apply Is_true_eq_true, Z.leb_le in Hn.
Qed.

(** C15: The conversation that the window shows is what was exchanged: after any
    interleaving of messages that the user sends and messages that the peer sends,
    every message is there once, ordered by time, and those of one time in the
    order in which they were sent and received. *)
Theorem conversation_shown ops p a x :
  chatting a p x -> Forall chat_ok ops ->
  exists a1 shown, bus_rx_run p (RxReceive, a) (map (chat_event (bs_ID x)) ops) = Some (RxReceive, a1) /\
    GetSessionMessages (bs_ID x) a1 = Some (Some shown, a1) /\
    let exchanged := bs_Messages x ++ map chat_message ops in
    shown ≡ₚ exchanged /\ Sorted (fun m n => mi_Timestamp m <= mi_Timestamp n) shown /\
    forall t, filter (fun m => mi_Timestamp m = t) shown = filter (fun m => mi_Timestamp m = t) exchanged.
Proof.
  intros Hc Ho. destruct (chat_run ops p a x Hc Ho) as (a1 & x1 & E1 & (_ & Hp & Hl) & Hid & Hm).
  exists a1, (sort_by earlier (bs_Messages x1)). split; [done|]. split.
  - unfold GetSessionMessages, bbind at 1. rewrite <- Hid, Hl. unfold bbind, session_at. by rewrite Hp.
  - cbv zeta. rewrite <- Hm. split_and!; [apply sort_by_perm| |apply sort_stable].
    apply sorted_times.
Qed.

(** ** The relay's listener *)

(** The loop that [StartServer] begins for a relay server reads the session of the
    token once, before there is a session, and looks up the stored tokens under
    that empty ID: whenever the listener dies it finds none and returns, and the
    server is not registered again. *)
Theorem relay_never_registered_again p i a addr token a1 :
  start_relay p i a = Some (Ok (addr, token), a1) ->
  relay_reconnect_start a1 = Some (Some [], a1) /\
  forall a2 path s listen added, a_db a2 = Some (path, s) -> ~ session_open s [] "meta" ->
    exists a3, relay_reconnect_turn [] listen added a2 = Some (false, a3) /\ a_relayTokens a3 = a_relayTokens a2.
Proof.
  intros E. split.
  - unfold start_relay, bbind at 1, bget in E. destruct (a_startCancel a); [|discriminate].
    unfold bbind at 1 in E. destruct (bus_deriveP2PToken _ a) as [[derived b]|]; [|discriminate].
    unfold bbind at 1 in E. destruct (bi_meanwhile i b) as [[[] c]|]; [|discriminate].
    destruct (bi_relay i _) as [[[[listener tok] ttl] sessionTTL]|e].
    + destruct (bi_added i) as [[]|e]; [|discriminate]. unfold bbind, bus_fresh, bus_now, bset, bret in E.
      injection E as _ <- <-. reflexivity.
    + unfold bbind at 1 in E. destruct (a_startCancel c); discriminate.
  - intros a2 path s listen added Ha Hn. unfold relay_reconnect_turn, bbind at 1, bget at 1.
    destruct (a_server a2); [|by eexists]. unfold with_bus_store, bus_store, bbind at 1 2, bget. rewrite Ha. unfold bret at 1.
    unfold bbind at 1, bcall, bcall_opt. rewrite Ha.
    assert (Hg : exists s', GetMeta [] RelayTokensKey s = (Ok (mkMeta [] []), s')).
    { unfold GetMeta, Query, gbind. rewrite sessionMeta_closed by done. by eexists. }
    destruct Hg as [s' ->]. eexists. split; reflexivity.
Qed.

End restart.

(** ** Witnesses *)

Section sample.
Existing Instance toy_crypto.
Existing Instance toy_crypto_ok.
Existing Instance wire_runtime.
Existing Instance map_bolt.
Existing Instance map_bolt_ok.

Definition bus_path : bytes := str "/home/u/.config/kamune/db".
Definition bus_os : busOS := mkOS [] (Ok bus_path) (fun _ => Ok tt) (fun _ => Ok tt).
Definition bus_machine : store := sample_store [].
Definition bus_clock (n : nat) : Z := Z.of_nat n + 1.

(** A database created under a passphrase, with an identity. *)
Definition bus_pass : bytes := str "secret".
Definition bus_store_new : store := snd (NewBoltDB true false (Ok tt) bus_pass (set_db empty_db bus_machine)).
Definition bus_store_sample : store := snd (Attester bus_store_new).
Definition bus_sample : App := put_db (Some (bus_path, bus_store_sample)) (NewApp bus_os ∅ bus_machine bus_clock).

Definition bus_meta : cipherMeta := default (mkCipherMeta [] [] [] []) (read_meta (s_db bus_store_sample)).
Definition bus_kc : Enigma :=
  match key_cipher bus_pass (cm_deriveSalt bus_meta) (cm_wrappedSalt bus_meta) "derive from pass" "key cipher" with
  | Ok k => k | Err _ => s_cipher bus_machine end.
Definition bus_secret : bytes := match Decrypt bus_kc (cm_wrappedKey bus_meta) with Ok k => k | Err _ => [] end.
Definition bus_id : bytes := default [] (view bus_store_sample [DefaultNamespace] attestKey).
Definition bus_attest : Attest := match LoadAttest bus_id with Ok at_ => at_ | Err _ => sample_attest 0 end.
Definition bus_pub : bytes := default [] (MarshalPublicKey bus_attest).

Lemma bus_sample_keyed : keyed bus_store_sample bus_pass bus_secret.
Proof.
  split; [vm_compute; reflexivity|]. exists bus_meta, bus_kc. split_and!; vm_compute; reflexivity.
Qed.

Lemma bus_sample_identity : has_identity bus_store_sample bus_pub.
Proof.
  split; [vm_compute; reflexivity|]. exists bus_id, bus_attest. split_and!; vm_compute; reflexivity.
Qed.

Lemma bus_opens : opens bus_os bus_path.
Proof. split_and!; [done| |done|done]. by exists bus_path. Qed.

Lemma map_bucket_in (d : map_db) (P : path -> Prop) q : Forall P (map_to_list d).*1 -> has_bucket d q = true -> P q.
Proof.
  intros Hf Hb. rewrite Forall_forall in Hf. apply Hf. cbn in Hb. unfold is_bucket in Hb.
  destruct (d !! q) as [b|] eqn:E; [|done]. apply list_elem_of_fmap. exists (q, b). split; [done|].
  by apply elem_of_map_to_list.
Qed.

Lemma bus_sample_flat : Forall (fun q : path => length q = 1%nat) (map_to_list (s_db bus_store_sample : map_db)).*1.
Proof. apply (bool_decide_unpack _). vm_compute. exact I. Qed.

Lemma bus_sample_settings : settings_ready bus_store_sample.
Proof.
  split_and!; [by eapply keyed_wf, bus_sample_keyed|vm_compute; reflexivity|].
  intros k. apply not_true_is_false. intros E. apply (map_bucket_in _ _ _ bus_sample_flat) in E. discriminate E.
Qed.

(** Strict verification is chosen, and is in force after a restart. *)
Lemma settings_survive_restart_witness :
  exists a1 a2 a3, SetVerificationMode (bret (Ok tt)) (Ok []) 0 bus_sample = Some (true, a1) /\
    bus_shutdown (bret tt) a1 = Some (tt, a2) /\
    startup (Ok bus_pass) (NewApp bus_os (a_disk a2) bus_machine bus_clock) = Some (tt, a3) /\ a_verifMode a3 = 0.
Proof.
  apply (settings_survive_restart bus_sample bus_path bus_store_sample bus_pass bus_secret bus_pub 0 (bret (Ok tt)) (Ok []) bus_os
    bus_machine bus_clock); [reflexivity|apply bus_sample_keyed|apply bus_sample_settings| |apply bus_sample_identity|reflexivity| | | |apply bus_opens].
  - vm_compute; reflexivity.
  - constructor.
  - discriminate.
  - unfold MinInt64, MaxInt64. lia.
Defined.

(** The application before a passphrase was given. *)
Definition bus_fresh_app : App := put_dbPath bus_path (NewApp bus_os ∅ bus_machine bus_clock).

Lemma first_use_unprotected_witness :
  exists a1 s1, SetVerificationMode (bret (Ok tt)) (Ok []) 0 bus_fresh_app = Some (true, a1) /\ a_db a1 = Some (bus_path, s1).
Proof.
  destruct (first_use_unprotected bus_fresh_app bus_path 0 (bret (Ok tt)) (Ok []) eq_refl eq_refl eq_refl bus_opens eq_refl eq_refl
    ltac:(discriminate)) as (a1 & s1 & secret & E & D & _). exists a1, s1. split; [exact E|exact D].
Defined.

(** The passphrase that the user chooses afterwards is refused. *)
Example passphrase_refused_later :
  match SetVerificationMode (bret (Ok tt)) (Ok []) 0 bus_fresh_app with
  | Some (_, a1) => match SubmitPassphrase bus_pass false (Ok tt) a1 with Some (r, _) => negb (is_ok r) | None => false end
  | None => false
  end = true.
Proof. vm_compute. reflexivity. Qed.

Definition bus_live : busSession :=
  mkBusSession (str "s1") (str "bob") (str "1.0.0") 4 [] 0 false false (str "tcp") 0 0 0 0 [] true false 0.
Definition bus_chatting : App := put_sessions [0%nat] (put_heap [bus_live] bus_sample).

(** A message that arrives late is shown where its time puts it. *)
Lemma conversation_shown_witness :
  exists a1 shown, bus_rx_run 0 (RxReceive, bus_chatting)
      (map (chat_event (str "s1")) [ChatReceived (str "hello") 20 []; ChatSent (str " hi ") 10 []]) = Some (RxReceive, a1) /\
    GetSessionMessages (str "s1") a1 = Some (Some shown, a1) /\
    shown ≡ₚ [mkMessage (str "hello") 20 false; mkMessage (str "hi") 10 true].
Proof.
  destruct (conversation_shown [ChatReceived (str "hello") 20 []; ChatSent (str " hi ") 10 []] 0 bus_chatting bus_live)
    as (a1 & shown & E & G & P & _).
  - split_and!; [by eexists|reflexivity|]. unfold live_session. f_equal.
  - constructor; [exact I|constructor; [vm_compute; discriminate|constructor]].
  - exists a1, shown. split; [exact E|]. split; [exact G|exact P].
Defined.

Definition bus_relay_params : serverParams :=
  mkServerParams [] (str "relay") (str "tcp://relay:9") (str "alice") [] [] [] [] false false.
Definition bus_relay_inputs : bus_start_inputs :=
  mkBusStart (fun _ => Ok (1%nat, str "00112233", 60, 3600)) (bret tt) (Ok tt) (fun _ => Err (errorf "unused")) (Err (errorf "unused"))
    (mkCalls (Ok tt) (Ok tt) (fun _ => Err (errorf "unused"))) (fun _ => Ok (7%nat, bus_pub)).

Lemma relay_never_registered_again_witness :
  exists a1, start_relay bus_relay_params bus_relay_inputs (put_startCancel (Some 1%nat) bus_sample) = Some (Ok ([], str "00112233"), a1) /\
    relay_reconnect_start a1 = Some (Some [], a1).
Proof.
  assert (E : exists a1, start_relay bus_relay_params bus_relay_inputs (put_startCancel (Some 1%nat) bus_sample)
    = Some (Ok ([], str "00112233"), a1)).
  { unfold start_relay, bus_relay_inputs, bus_relay_params, bus_deriveP2PToken, bbind, bget, bus_fresh, bus_now, bset, bret. cbn. eexists. reflexivity. }
  destruct E as [a1 E]. exists a1. split; [exact E|].
  exact (proj1 (relay_never_registered_again bus_relay_params bus_relay_inputs _ [] (str "00112233") a1 E)).
Defined.

End sample.
